(* ===== verification/_CoqProject ===== *)
-Q . S2P
Prelude.v
Bytes.v
Codecs.v
Envelope.v
DomainTypes.v
Lifecycle.v
SwapSession.v
WalletOps.v
Reservations.v
Restore.v
Validation.v
Rescan.v
CoreTypes.v
Projection.v
CoreSync.v
Recovery.v
Storage.v
Reload.v
Directories.v
Submission.v
Fees.v
Slates.v
Outputs.v
Backend.v
Spending.v
SyncSink.v
Service.v
Exchange.v
Funding.v
Payout.v
Answers.v
Sessions.v
SeedRestore.v
Ceremonies.v
Peers.v
Updater.v
NodeRuntime.v
NodeManager.v
RemoteWire.v
RemoteSource.v
Commands.v
Desktop.v
Payments.v
Contracts.v
Bech32.v
Transport.v
SlateQr.v
