(* ===== verification/Prelude.v ===== *)
(** * DOM Wallet V3: a verification library

    DOM Wallet V3 is a desktop wallet for the DOM chain, written in Rust as a
    workspace of crates under src/crates.  This library models the wallet
    below its user interface, operation by operation, as executable functions on
    the program's own data: the durable state and its rules, the storage that
    keeps it, the synchronisation and recovery that move it, the service that
    creates, opens, spends, exchanges slates and reserves for contracts, and the
    updater.  It proves what makes each of them correct, and above all what holds
    whatever the file system, the node or a counterparty does.

    ** How the program is modelled

    - Data.  A struct is a [Record] whose fields carry a short prefix, an enum
      an [Inductive], in a module of its own where names clash ([L.Draft] is
      [TransactionLifecycle::Draft]).  Unsigned integers are [N]; every
      operation that can leave the width is written with its [checked_],
      [saturating_] or wrapping form.  [Vec<u8>], arrays and the bytes of a
      [&str] are [list Byte.byte]; a phrase is a list of characters.  [BTreeMap]
      and [BTreeSet] are [gmap] and [gset]; a [Vec] searched or updated by index
      is a list with [position], [alter] and [<[i := x]>].
    - Fallible code is [result E A] with [let? .. in] for the question mark.  A
      method on [&mut self] is [method S E A]: it returns the final state also
      when it fails, so the mutations made before an early return are there
      ([let! .. in], [;;;], [mfor], [for_each_mut]).
    - Files.  A wallet directory is a [Disk] of root files and generations
      (Storage); the directory that holds wallets is a [Place] of named entries
      (Directories).  A world or place carries a list of faults, one per call:
      it happens, it fails before or it fails after its effect.  A list of faults
      therefore covers every error, and, failing from some call on, every crash.
    - The service is a [WalletService] (Service) whose directory is a [World] and
      whose backend holds the state [W] of the node it speaks to; [Ceremonies]
      puts it beside a [Place].  What the operating system draws - nonces, salts,
      identifiers, entropy, the clock - is an argument of the operation.
    - Code of other repositories is a parameter, by interface, with its laws in a
      class of their own where theorems rely on it: [CoreCodec] (decoders and
      hashes of consensus), [WalletCoreApi], [WalletSubmissionApi] and
      [WalletFeeApi] (the node), [CryptoCode] (AEAD and key derivation),
      [StateCode] and [BackupCode] (JSON), [SlateCode], [SeedCode],
      [OutputCode] and [RecoverySeed] (slates, BIP-39, range proofs, the scan of
      a seed), [TransportCodec], [UrlCode], [VersionCode] and their like.  Each
      has a concrete instance for the witnesses.

    ** The files

    - [Prelude] (this file): integers, results, methods, record update, the
      tactics [bool_inv] and [res_inv], lists searched by index, and [moves],
      the rule for methods that keep a preorder.  [Bytes], [Codecs]: what the
      standard library, base64 and hex do to bytes and text.
    - dom-wallet-domain.  [DomainTypes]: the data.  [Lifecycle]: transitions,
      exposure, cancellation.  [SwapSession], [WalletOps], [Reservations],
      [Restore], [Validation], [Rescan]: the operations of [WalletState].
    - dom-wallet-crypto and dom-wallet-storage.  [Envelope]: sealed envelopes.
      [Storage]: loading and the protocol of a commit.  [Reload]: what a load
      recovers, and rescan plans.  [Directories]: creating, resuming, aborting,
      opening directories, and backups.
    - dom-wallet-core-sync.  [CoreTypes], [Projection], [CoreSync]: pages,
      cursors, the search for a common ancestor and the reconciliation.
    - dom-wallet-core-restore.  [Recovery]: merging a batch and rewinding.
      [SeedRestore]: restore sessions, their sink and their publication.
    - dom-wallet-core-submit, dom-wallet-core-protocol, dom-wallet-core-recovery.
      [Submission], [Fees], [Slates], [Outputs].
    - dom-wallet-production-backend, dom-wallet-embedded-core.  [Backend]: the
      backend over these adapters, and the life cycle it reads.
    - dom-wallet-core.  [Spending]: selection, cancellation, expiry.  [SyncSink]:
      the sink of a synchronisation.  [Service]: opening, unlocking, passes,
      rescans, submission, swap sessions, preferences.  [Exchange]: the slates of
      a payment.  [Funding], [Payout]: reservations for contracts.  [Answers]:
      what a node may answer.  [Sessions]: what holds along a session of any
      operations.  [Payments], [Contracts]: the theorems about the exchange and
      the reservations.  [Ceremonies]: creation, restores and backups.
    - dom-wallet-updater, dom-wallet-node-manager.  [Peers]: peer addresses.
      [Updater]: feeds, downloads and the update of a node.  [NodeRuntime]: its staged
      and promoted directories.  [NodeManager]: the node process, its session, and the
      promotion and rollback of its releases.
    - dom-wallet-remote-source.  [RemoteWire]: a page of the remote node and its
      checks.  [RemoteSource]: requests, the session, the calls of the interface.
    - dom-wallet-multichain, dom-wallet-protocol.  [Bech32], [Transport].
    - src-tauri.  [Commands]: the errors of commands, activities, and the worker
      that synchronises.  [Desktop]: readiness, fees and assets of swaps, managed
      wallets, ports.  [SlateQr]: slates as QR codes.

    The interfaces meet in the order of the files: a file requires those it calls,
    and theorems about a client are proved from the lemmas of what it calls
    ([triple] for directory calls, [ptriple] for places, [moves] and [tracking]
    for the service).

    ** What is proved

    - Nothing is lost on disk: [commits_are_crash_safe], [sink_commits_are_atomic],
      [creation_is_atomic], [imports_are_atomic], [backups_hold_the_wallet],
      [restores_publish_complete_wallets], and along any session
      [sessions_can_always_be_resumed].
    - Records come before effects: [submissions_are_recorded_first],
      [exposures_are_recorded_first], [sends_are_reserved_first].
    - The phrase: [ceremonies_show_the_phrase_of_the_wallet],
      [confirmed_phrases_are_hidden].
    - Transactions and money: [transition_refines_table], [exposure_monotone_run],
      [release_only_never_broadcast], [finalized_transactions_honor_the_request],
      [selection_reserves_exactly], [stalled_sends_wait_for_the_chain],
      [accepted_fees_follow_the_policy], [swap_locked_funds_are_recoverable].
    - Reservations: [reservations_follow_their_protocol],
      [funding_reserves_exactly], [cancelling_undoes_a_reservation],
      [validated_reservations_are_exclusive], [restored_inputs_stay_held].
    - State and recovery: [validated_state_is_well_formed],
      [coordinates_are_never_reused], [merging_is_complete_and_idempotent],
      [batches_keep_the_canonical_window], [rescans_stay_valid_and_end],
      [synchronisation_keeps_to_one_chain].
    - Round trips: [sealed_envelopes_open], [built_outputs_recover],
      [import_accepts_exactly_exports], [qr_reassembles_in_any_order],
      [slate_qr_codes_reassemble].
    - An untrusted node: [remote_scans_are_bound_to_the_chain],
      [remote_sessions_keep_their_chain], [remote_requests_reveal_only_heights].
    - Updates: [node_updates_follow_their_protocol], [downloads_are_verified],
      [updates_never_go_back], [accepted_peers_are_the_public_ones],
      [peers_are_outside_reserved_blocks].
    - The node process, over the log of a watched host:
      [sidecar_runs_only_when_enabled]; [node_promotions_end_in_a_known_state].
    - The desktop application: [managed_wallets_stay_in_their_root],
      [the_worker_ends_only_for_cause], [activities_exclude_each_other].

    The other lemmas say what the remaining operations do on each branch, among
    them the resumption of interrupted creations and restores, the bounded
    retries of a busy node, the exact effect of cancelling and of a rewind, the
    replacement of state files, the content of promoted node directories and the
    addresses of [Bech32].

    ** Fuel and bounds

    Loops that follow a chain or a node that may answer for ever have fuel, and
    [None] is fuel running out: [reconcile_to_tip], the turns of a restore, the
    passes and rescans of the service, the asynchronous download.  Their theorems
    hold for every fuel, and say what is on disk also when it ends; a turn that
    commits, but for a reorganisation, strictly advances
    ([synchronisation_keeps_to_one_chain]).  Where the code
    bounds its loop the theorems give the bound: the blocking download needs one
    turn more than the artifact has bytes, the retries of a busy node are exactly
    those of the policy, a rescan ends.  [find_anchor] walks a list of heights no
    longer than the configured depth; [drain], [chunks] and [show] have fuel that
    their lemmas show to be enough.  A loop that polls a process every fifty
    milliseconds has as many turns as its deadline holds such pauses: after them the
    deadline has passed, and the code gives up with the same error.  Lengths and
    counts are exact, with the source's limits.

    ** What is not modelled

    - The cryptography, consensus and codecs of other repositories: parameters.
    - Threads of the embedded node and the miner (dom-wallet-embedded-core), the HTTP
      client of dom-wallet-chain and the swap client: input and output around the
      core.  Of the node manager, the access lists of Windows.  The
      remote source's calls run one after the other; its mutex guards single reads
      and writes of the session.
    - The derivation of keys and addresses over other curves
      (dom-wallet-multichain, but for Bech32m), and the build scripts.  Of the desktop
      application, the commands that only pass a call on to the service, the start of
      the embedded node, the mining worker and the user interface.
    - A partial write is a call that fails after or before its effect; the
      temporary file it may leave half written is never read.  Zeroisation of
      memory and the texts of errors have no counterpart. *)

From Stdlib Require Export NArith Lia Strings.Byte.
From stdpp Require Export base list gmap strings countable relations.

Global Open Scope N_scope.

(** ** Machine integers

    Unsigned Rust integers are [N]; the width is written out by every
    operation that can leave it.  [usize] is 64 bits wide. *)

Definition u16_max : N := 65535.
Definition u32_max : N := 4294967295.
Definition u64_max : N := 18446744073709551615.

(** [a.checked_add(b)] on an integer type whose largest value is [m]. *)
Definition checked_add (m a b : N) : option N := if a + b <=? m then Some (a + b) else None.
Definition checked_mul (m a b : N) : option N := if a * b <=? m then Some (a * b) else None.
Definition checked_sub (a b : N) : option N := if b <=? a then Some (a - b) else None.
Definition saturating_add (m a b : N) : N := N.min m (a + b).
Definition saturating_mul (m a b : N) : N := N.min m (a * b).
Definition saturating_sub (a b : N) : N := a - b.

(** [v.len()] *)
Definition len {A} (l : list A) : N := N.of_nat (length l).
Definition slen (s : string) : N := N.of_nat (String.length s).

(** ** Bytes, identifiers *)

(** [Vec<u8>], [&[u8]] and [[u8; n]] are lists of bytes.  The static length
    of an array is a separate predicate, stated where a theorem needs it. *)
Abbreviation bytes := (list Byte.byte) (only parsing).

#[global] Instance byte_eq_dec : EqDecision Byte.byte := Byte.byte_eq_dec.

#[global] Program Instance byte_countable : Countable Byte.byte :=
  inj_countable Byte.to_N Byte.of_N _.
Next Obligation. exact Byte.of_to_N. Qed.

(** [[0u8; n]] *)
Definition zeros (n : nat) : bytes := replicate n Byte.x00.

(** [Uuid] is its 128-bit value; [Uuid::nil()] is 0. *)
Abbreviation uuid := N (only parsing).
Definition uuid_is_nil (u : uuid) : bool := u =? 0.

(** ** Options and emptiness *)

(** [option.is_none_or(p)] and [option.is_some_and(p)] *)
Definition is_none_or {A} (o : option A) (p : A -> bool) : bool :=
  match o with Some a => p a | None => true end.
Definition is_some_and {A} (o : option A) (p : A -> bool) : bool :=
  match o with Some a => p a | None => false end.
Definition is_some {A} (o : option A) : bool := match o with Some _ => true | None => false end.

(** [bytes.is_empty()] *)
Definition is_empty {A} (l : list A) : bool := match l with [] => true | _ => false end.

Definition is_zero32 (b : bytes) : bool := bool_decide (b = zeros 32).
Definition is_zero33 (b : bytes) : bool := bool_decide (b = zeros 33).

(** ** Results *)

Inductive result (E A : Type) : Type :=
| Ok (a : A)
| Err (e : E).
Arguments Ok {E A} _.
Arguments Err {E A} _.

#[global] Instance result_eq_dec {E A} `{EqDecision E} `{EqDecision A} : EqDecision (result E A).
Proof. solve_decision. Defined.

(** [e?] *)
Definition rbind {E A B} (r : result E A) (k : A -> result E B) : result E B :=
  match r with Ok a => k a | Err e => Err e end.

(** [o.ok_or(e)] *)
Definition ok_or {E A} (o : option A) (e : E) : result E A :=
  match o with Some a => Ok a | None => Err e end.

(** [if b { return Err(e) }] *)
Definition fail_if {E} (b : bool) (e : E) : result E unit := if b then Err e else Ok tt.

(** [r.map_err(|_| e)] *)
Definition map_err {E F A} (r : result E A) (e : F) : result F A :=
  match r with Ok a => Ok a | Err _ => Err e end.

Definition is_ok {E A} (r : result E A) : bool := match r with Ok _ => true | Err _ => false end.

Declare Scope wallet_scope.
Delimit Scope wallet_scope with wallet.

Notation "'let?' x ':=' r 'in' k" := (rbind r (fun x => k))
  (at level 10, x binder, r at level 100, k at level 200,
   format "'[v' 'let?'  x  ':='  r  'in' '/' k ']'") : wallet_scope.
Notation "r ';?' k" := (rbind r (fun _ : unit => k))
  (at level 199, right associativity, format "'[v' r  ';?' '/' k ']'") : wallet_scope.
Global Open Scope wallet_scope.

(** A loop [for x in xs { .. }] whose body may return early with an error. *)
Fixpoint foldM {E A B} (f : A -> B -> result E A) (xs : list B) (a : A) : result E A :=
  match xs with
  | [] => Ok a
  | x :: xs => rbind (f a x) (foldM f xs)
  end.

(** ** Methods on [&mut self]

    A method that can fail keeps the mutations it made before the failing
    statement, so its model returns the final state in both cases. *)
Definition method (S E A : Type) : Type := S -> S * result E A.

Definition mret {S E A} (a : A) : method S E A := fun s => (s, Ok a).
Definition mthen {S E A B} (m : method S E A) (k : A -> method S E B) : method S E B :=
  fun s => match m s with
           | (s', Ok a) => k a s'
           | (s', Err e) => (s', Err e)
           end.
(** A computation that only reads the state. *)
Definition mread {S E A} (f : S -> result E A) : method S E A := fun s => (s, f s).
(** An assignment that cannot fail. *)
Definition massign {S E} (f : S -> S) : method S E unit := fun s => (f s, Ok tt).

Notation "'let!' x ':=' m 'in' k" := (mthen m (fun x => k))
  (at level 10, x binder, m at level 100, k at level 200,
   format "'[v' 'let!'  x  ':='  m  'in' '/' k ']'") : wallet_scope.
Notation "m ';;;' k" := (mthen m (fun _ : unit => k))
  (at level 199, right associativity, format "'[v' m  ';;;' '/' k ']'") : wallet_scope.

(** [for x in xs { body(x)? }] on [&mut self]. *)
Fixpoint mfor {S E X} (xs : list X) (body : X -> method S E unit) : method S E unit :=
  match xs with
  | [] => mret tt
  | x :: xs => body x ;;; mfor xs body
  end.

(** [for x in &mut xs { body(x)? }]: the elements before the failing one stay
    updated, the failing one keeps what its body did, the rest is untouched. *)
Fixpoint for_each_mut {E X} (body : method X E unit) (xs : list X) : list X * result E unit :=
  match xs with
  | [] => ([], Ok tt)
  | x :: xs =>
      match body x with
      | (x', Ok _) => let '(xs', r) := for_each_mut body xs in (x' :: xs', r)
      | (x', Err e) => (x' :: xs, Err e)
      end
  end.

(** ** Record update

    [r <| f := v |>] is the struct [r] with field [f] assigned.  A record type
    declares its field list once, as an eta-expansion; the setter of a field is
    computed from it by abstracting the projection. *)
Class FieldList (R : Type) := field_list : R -> R.
Class FieldSetter {R T : Type} (f : R -> T) := set_field : (T -> T) -> R -> R.

Ltac compute_setter R T f :=
  let eta := constr:(_ : FieldList R) in
  let g := constr:(fun (u : T -> T) (r : R) =>
    ltac:(let body := eval cbv beta delta [field_list] in (field_list r) in
          let body := eval hnf in body in
          lazymatch eval pattern (f r) in body with
          | ?h _ => let b := eval cbv beta in (h (u (f r))) in exact b
          end)) in
  exact g.

#[global] Hint Extern 1 (@FieldSetter ?R ?T ?f) => compute_setter R T f : typeclass_instances.

Notation "r '<|' f ':=' v '|>'" := (set_field (f := f) (fun _ => v) r)
  (at level 1, left associativity, f at level 0, v at level 200,
   format "r  '<|'  f  ':='  v  '|>'") : wallet_scope.
Notation "r '<|' f '::=' g '|>'" := (set_field (f := f) g r)
  (at level 1, left associativity, f at level 0, g at level 200,
   format "r  '<|'  f  '::='  g  '|>'") : wallet_scope.

Arguments set_field {R T} f {_} u r /.

(** ** Inverting runs of fallible code *)

Create HintDb wallet discriminated.

Lemma rbind_Ok {E A B} (r : result E A) (k : A -> result E B) b :
  rbind r k = Ok b <-> exists a, r = Ok a /\ k a = Ok b.
Proof.
  destruct r as [a|e]; simpl; split.
  - eauto.
  - by intros (? & [= ->] & ?).
  - done.
  - by intros (? & ? & _).
Qed.

Lemma then_Ok {E A} (r : result E unit) (k : result E A) a :
  rbind r (fun _ => k) = Ok a <-> r = Ok tt /\ k = Ok a.
Proof. destruct r as [[]|e]; simpl; [tauto|]. split; [done|by intros [? _]]. Qed.

Lemma rbind_Err {E A B} (r : result E A) (k : A -> result E B) e :
  rbind r k = Err e <-> r = Err e \/ exists a, r = Ok a /\ k a = Err e.
Proof. destruct r; simpl; naive_solver. Qed.

Section results.
Context {E A B : Type}.

Lemma fail_if_Err (b : bool) (e e' : E) : fail_if b e = Err e' <-> b = true /\ e = e'.
Proof. destruct b; simpl; naive_solver. Qed.

Lemma ok_or_Err (o : option A) (e e' : E) : ok_or o e = Err e' <-> o = None /\ e = e'.
Proof. destruct o; simpl; naive_solver. Qed.

Lemma fail_if_Ok (b : bool) (e : E) u : fail_if b e = Ok u <-> b = false.
Proof. by destruct b, u. Qed.

Lemma ok_or_Ok (o : option A) (e : E) a : ok_or o e = Ok a <-> o = Some a.
Proof. destruct o; simpl; split; congruence. Qed.

Lemma map_err_Ok {F} (r : result E A) (e : F) a : map_err r e = Ok a <-> r = Ok a.
Proof. destruct r; simpl; split; congruence. Qed.

Lemma Ok_inj (a b : A) : @Ok E A a = Ok b -> a = b.
Proof. by intros [= ->]. Qed.

Lemma foldM_app (f : A -> B -> result E A) xs ys a :
  foldM f (xs ++ ys) a = rbind (foldM f xs a) (foldM f ys).
Proof.
  revert a; induction xs as [|x xs IH]; intros a; simpl; [done|].
  destruct (f a x) as [a'|e]; simpl; [apply IH|done].
Qed.

(** Invariants of a loop with early return. *)
Lemma foldM_inv (P : list B -> A -> Prop) (f : A -> B -> result E A) xs a0 a :
  P [] a0 ->
  (forall pre x a1 a2, P pre a1 -> f a1 x = Ok a2 -> P (pre ++ [x]) a2) ->
  foldM f xs a0 = Ok a -> P xs a.
Proof.
  intros H0 Hstep. revert a.
  induction xs as [|x xs IH] using rev_ind; intros a; simpl.
  - by intros [= <-].
  - rewrite foldM_app, rbind_Ok. intros (a1 & H1 & H2). simpl in H2.
    apply rbind_Ok in H2 as (a2 & H2 & [= <-]). eauto.
Qed.
End results.

Lemma mthen_Ok {S E A B} (m : method S E A) (k : A -> method S E B) s s' b :
  mthen m k s = (s', Ok b) <-> exists s1 a, m s = (s1, Ok a) /\ k a s1 = (s', Ok b).
Proof.
  unfold mthen. destruct (m s) as [s1 [a|e]]; split.
  - eauto.
  - by intros (? & ? & [= -> ->] & ?).
  - done.
  - by intros (? & ? & ? & _).
Qed.

Lemma mthen_Err {S E A B} (m : method S E A) (k : A -> method S E B) s s' e :
  mthen m k s = (s', Err e) ->
  m s = (s', Err e) \/ exists s1 a, m s = (s1, Ok a) /\ k a s1 = (s', Err e).
Proof. unfold mthen. destruct (m s) as [s1 [a|e1]]; [eauto|]. intros [= -> ->]. auto. Qed.

(** The errors of a loop are those of its body. *)
Lemma mthen_inv {S E A B} (m : method S E A) (k : A -> method S E B) s s' r :
  mthen m k s = (s', r) ->
  (exists e, m s = (s', Err e) /\ r = Err e) \/ exists s1 a, m s = (s1, Ok a) /\ k a s1 = (s', r).
Proof. unfold mthen. destruct (m s) as [s1 [a|e]]; [by right; eauto|intros [= <- <-]; left; eauto]. Qed.

Lemma mfor_Err {S E X} (P : E -> Prop) (xs : list X) (body : X -> method S E unit) s s' e :
  (forall x s s' e, body x s = (s', Err e) -> P e) -> mfor xs body s = (s', Err e) -> P e.
Proof.
  intros Hb. revert s. induction xs as [|x xs IH]; intros s; simpl; [done|].
  intros [H|(s1 & u & _ & H)]%mthen_Err; eauto.
Qed.

(** Split boolean guards into facts [lia] and [congruence] understand. *)
Ltac bool_inv :=
  repeat match goal with
  | H : (_ || _) = false |- _ => apply orb_false_iff in H as [? ?]
  | H : (_ && _) = true |- _ => apply andb_true_iff in H as [? ?]
  | H : negb _ = true |- _ => apply negb_true_iff in H
  | H : negb _ = false |- _ => apply negb_false_iff in H
  | H : bool_decide _ = true |- _ => apply bool_decide_eq_true in H
  | H : bool_decide _ = false |- _ => apply bool_decide_eq_false in H
  | H : (_ =? _) = true |- _ => apply N.eqb_eq in H
  | H : (_ =? _) = false |- _ => apply N.eqb_neq in H
  | H : (_ <? _) = true |- _ => apply N.ltb_lt in H
  | H : (_ <? _) = false |- _ => apply N.ltb_ge in H
  | H : (_ <=? _) = true |- _ => apply N.leb_le in H
  | H : (_ <=? _) = false |- _ => apply N.leb_gt in H
  | H : eqb _ _ = true |- _ => apply eqb_prop in H
  end.

(** Invert successful monadic runs until only their parts are left. *)
Ltac res_inv :=
  repeat match goal with
  | H : rbind _ _ = Ok _ |- _ =>
      let a := fresh "r" in let E := fresh "Hr" in
      apply rbind_Ok in H as (a & E & H); simpl in H
  | H : fail_if _ _ = Ok _ |- _ => apply fail_if_Ok in H
  | H : ok_or _ _ = Ok _ |- _ => apply ok_or_Ok in H
  | H : map_err _ _ = Ok _ |- _ => apply map_err_Ok in H
  | H : mthen _ _ _ = (_, Ok _) |- _ =>
      let s := fresh "s" in let a := fresh "r" in let E := fresh "Hr" in
      apply mthen_Ok in H as (s & a & E & H); simpl in H
  | H : Ok _ = Ok _ |- _ => injection H as H; try subst
  | H : Err _ = Ok _ |- _ => discriminate H
  | H : (_, _) = (_, _) |- _ => injection H; clear H; intros; try subst
  end.

Lemma checked_add_Some m a b c : checked_add m a b = Some c <-> c = a + b /\ a + b <= m.
Proof.
  unfold checked_add. destruct (a + b <=? m) eqn:H; bool_inv; split;
    try (intros [= <-]); try (intros [-> ?]); try split; try done; try lia.
Qed.

Lemma checked_add_None m a b : checked_add m a b = None <-> m < a + b.
Proof.
  unfold checked_add. destruct (a + b <=? m) eqn:H; bool_inv; split; try done; lia.
Qed.

Lemma saturating_add_le m a b : saturating_add m a b <= m.
Proof. unfold saturating_add. lia. Qed.

#[export] Hint Resolve saturating_add_le : wallet.

(** ** Searching and updating lists by index *)

(** [xs.iter().position(p)] *)
Fixpoint position {A} (p : A -> bool) (l : list A) : option nat :=
  match l with
  | [] => None
  | x :: l => if p x then Some 0%nat else option_map S (position p l)
  end.

(** [xs.iter().find(p)] *)
Definition find_first {A} (p : A -> bool) (l : list A) : option A := List.find p l.

(** [xs.iter().enumerate().filter(p).map(|(i, _)| i).collect()] *)
Fixpoint positions {A} (p : A -> bool) (l : list A) : list nat :=
  match l with
  | [] => []
  | x :: l => if p x then 0%nat :: map S (positions p l) else map S (positions p l)
  end.

(** Apply [f] to the first element that satisfies [p] ([iter_mut().find(p)]). *)
Fixpoint update_first {A} (p : A -> bool) (f : A -> A) (l : list A) : list A :=
  match l with
  | [] => []
  | x :: l => if p x then f x :: l else x :: update_first p f l
  end.

Section lists.
Context {A : Type}.
Implicit Types (p : A -> bool) (l : list A).

Lemma position_Some p l i :
  position p l = Some i <->
  (exists x, l !! i = Some x /\ p x = true)
  /\ forall j y, (j < i)%nat -> l !! j = Some y -> p y = false.
Proof.
  revert i. induction l as [|x l IH]; intros i; simpl.
  - split; [done|]. by intros [(? & ? & _) _].
  - destruct (p x) eqn:Hp.
    + split.
      * intros [= <-]. split; [eauto|]. intros j y Hj. lia.
      * intros [_ Hb]. destruct i as [|i]; [done|].
        specialize (Hb 0%nat x ltac:(lia) eq_refl). congruence.
    + destruct i as [|i]; simpl.
      * split; [by destruct (position p l)|]. intros [(y & [= <-] & Hy) _]. congruence.
      * transitivity (position p l = Some i); [destruct (position p l); naive_solver|].
        rewrite IH. split; intros [Hx Hb]; (split; [done|]).
        -- intros [|j] y Hj; simpl; [congruence|]. apply Hb. lia.
        -- intros j y Hj Hy. apply (Hb (S j)); [lia|done].
Qed.

Lemma position_None p l : position p l = None <-> forall x, x ∈ l -> p x = false.
Proof.
  induction l as [|x l IH]; simpl.
  - split; [|done]. intros _ x Hx. by apply not_elem_of_nil in Hx.
  - destruct (p x) eqn:Hp.
    + split; [done|]. intros H. specialize (H x). rewrite Hp in H. set_solver.
    + transitivity (position p l = None); [by destruct (position p l)|].
      rewrite IH. split; intros H y; [|by intros; apply H; set_solver].
      intros [->|Hy]%elem_of_cons; auto.
Qed.

Lemma position_lookup p l i x : position p l = Some i -> l !! i = Some x -> p x = true.
Proof. intros [(y & Hy & Hp) _]%position_Some Hx. congruence. Qed.

Lemma find_first_Some p l x : find_first p l = Some x -> x ∈ l /\ p x = true.
Proof. intros H. apply List.find_some in H. by rewrite list_elem_of_In. Qed.

Lemma find_first_None p l : find_first p l = None <-> forall x, x ∈ l -> p x = false.
Proof.
  split.
  - intros H x Hx. apply (List.find_none p l H). by apply list_elem_of_In.
  - intros H. destruct (find_first p l) as [x|] eqn:E; [|done].
    apply find_first_Some in E as [Hx Hp]. rewrite H in Hp; done.
Qed.

Lemma positions_filter p l : length (positions p l) = length (List.filter p l).
Proof.
  induction l as [|x l IH]; simpl; [done|].
  destruct (p x); simpl; by rewrite length_map, IH.
Qed.

Lemma positions_lookup p l i : i ∈ positions p l <-> exists x, l !! i = Some x /\ p x = true.
Proof.
  revert i. induction l as [|x l IH]; intros i; simpl.
  - split; [by intros ?%not_elem_of_nil|by intros (? & ? & _)].
  - assert (Hs : i ∈ map S (positions p l) <-> exists j, i = S j /\ j ∈ positions p l).
    { apply list_elem_of_fmap. }
    destruct (p x) eqn:Hp; rewrite ?elem_of_cons, Hs; clear Hs; destruct i as [|i]; simpl; split.
    + intros _. eauto.
    + auto.
    + intros [?|(j & [= ->] & Hj)]; [done|]. by apply IH.
    + intros Hx. right. exists i. by rewrite IH.
    + by intros (j & ? & _).
    + intros (y & [= <-] & Hy). congruence.
    + intros (j & [= ->] & Hj). by apply IH.
    + intros Hx. exists i. by rewrite IH.
Qed.

Lemma alter_map_unique (f : A -> A) p l i :
  positions p l = [i] -> alter f i l = map (fun x => if p x then f x else x) l.
Proof.
  revert i. induction l as [|x l IH]; intros i; simpl; [done|].
  assert (Hnil : positions p l = [] -> map (fun x => if p x then f x else x) l = l).
  { clear. induction l as [|x l IH]; simpl; [done|].
    destruct (p x); [done|]. intros H. destruct (positions p l); [by rewrite IH|done]. }
  destruct (p x) eqn:Hp.
  - intros [= <- H]. change (f x :: l = f x :: map (fun x => if p x then f x else x) l).
    rewrite Hnil; [done|]. by destruct (positions p l).
  - destruct (positions p l) as [|j [|? ?]] eqn:E; try done. intros [= <-].
    change (x :: alter f j l = x :: map (fun x => if p x then f x else x) l).
    by rewrite (IH j).
Qed.

Lemma position_alter (f : A -> A) p l i :
  (forall x, p (f x) = p x) -> position p (alter f i l) = position p l.
Proof.
  intros Hf. revert i. induction l as [|x l IH]; intros [|i]; simpl; [done|done|by rewrite Hf|].
  pose proof (IH i) as E. unfold alter in E. by rewrite E.
Qed.

Lemma positions_nil p l : positions p l = [] <-> forall x, x ∈ l -> p x = false.
Proof.
  split.
  - intros H x [i Hx]%list_elem_of_lookup. destruct (p x) eqn:Hp; [|done].
    assert (i ∈ positions p l) as Hi by (apply positions_lookup; eauto).
    rewrite H in Hi. by apply not_elem_of_nil in Hi.
  - intros H. destruct (positions p l) as [|i r] eqn:E; [done|].
    assert (i ∈ positions p l) as (x & Hx & Hp)%positions_lookup by (rewrite E; set_solver).
    rewrite H in Hp; [done|]. by eapply list_elem_of_lookup_2.
Qed.
End lists.

Lemma map_id_on {A} (f : A -> A) (l : list A) : (forall x, x ∈ l -> f x = x) -> map f l = l.
Proof.
  induction l as [|x l IH]; simpl; intros H; [done|].
  rewrite H, IH; set_solver.
Qed.

Lemma insert_as_alter {A} (f : A -> A) (l : list A) i x :
  l !! i = Some x -> <[i := f x]> l = alter f i l.
Proof. intros H. rewrite list_insert_alter. apply list_alter_ext; naive_solver. Qed.

(** Mapping a total body over a loop [for x in &mut xs]. *)
Lemma for_each_mut_total {E X} (body : method X E unit) (f : X -> X) (xs : list X) :
  (forall x, x ∈ xs -> body x = (f x, Ok tt)) -> for_each_mut body xs = (map f xs, Ok tt).
Proof.
  induction xs as [|x xs IH]; intros H; simpl; [done|].
  rewrite H by set_solver. rewrite IH; [done|]. intros y Hy. apply H. set_solver.
Qed.

(** ** Pairwise properties of a list *)

Definition pairwise {A} (R : A -> A -> Prop) (l : list A) : Prop :=
  forall i j a b, (i < j)%nat -> l !! i = Some a -> l !! j = Some b -> R a b.

Lemma pairwise_nil {A} (R : A -> A -> Prop) : pairwise R [].
Proof. by intros i j a b _ H. Qed.

Lemma pairwise_snoc {A} (R : A -> A -> Prop) l x :
  pairwise R l -> (forall a, a ∈ l -> R a x) -> pairwise R (l ++ [x]).
Proof.
  intros Hp Hx i j a b Hij Ha Hb.
  apply lookup_snoc_Some in Hb as [[Hj Hb]|[-> <-]].
  - rewrite lookup_app_l in Ha by lia. by apply (Hp i j).
  - rewrite lookup_app_l in Ha by lia. apply Hx. by eapply list_elem_of_lookup_2.
Qed.

Lemma foldM_unit_inv {E B} (f : B -> result E unit) xs u u' :
  foldM (fun _ x => f x) xs u = Ok u' -> forall x, x ∈ xs -> exists v, f x = Ok v.
Proof.
  revert u. induction xs as [|y xs IH]; simpl; intros u H x Hx; [set_solver|].
  apply rbind_Ok in H as (v & Hv & H). apply elem_of_cons in Hx as [->|Hx]; eauto.
Qed.

(** ** Relations kept by methods *)

Section method_relations.
Context {S E : Type} (R : S -> S -> Prop) `{!PreOrder R}.

(** Every run of [m], failing ones included, moves along [R]. *)
Definition moves {A} (m : method S E A) : Prop := forall s s' r, m s = (s', r) -> R s s'.

Lemma moves_mthen {A B} (m : method S E A) (k : A -> method S E B) :
  moves m -> (forall a, moves (k a)) -> moves (mthen m k).
Proof.
  intros Hm Hk s s' r. unfold mthen. destruct (m s) as [s1 [a|e]] eqn:Em; intros H.
  - transitivity s1; [by eapply Hm|by eapply Hk].
  - injection H as <- _. by eapply Hm.
Qed.

Lemma moves_mread {A} (f : S -> result E A) : moves (mread f).
Proof. intros s s' r [= <- _]. reflexivity. Qed.

Lemma moves_mfor {X} (xs : list X) (body : X -> method S E unit) :
  (forall x, moves (body x)) -> moves (mfor xs body).
Proof.
  intros Hb. induction xs as [|x xs IH]; simpl.
  - intros s s' r [= <- _]. reflexivity.
  - apply moves_mthen; auto.
Qed.

(** A loop that succeeds ran its body on every element. *)
Lemma mfor_visit {X} (xs : list X) (body : X -> method S E unit) s s' u x :
  (forall x, moves (body x)) -> mfor xs body s = (s', Ok u) -> x ∈ xs ->
  exists s1 s2, R s s1 /\ body x s1 = (s2, Ok tt) /\ R s2 s'.
Proof.
  intros Hb. revert s. induction xs as [|y xs IH]; intros s H Hx; [by apply not_elem_of_nil in Hx|].
  simpl in H. apply mthen_Ok in H as (s1 & [] & H1 & H2). apply elem_of_cons in Hx as [->|Hx].
  - exists s, s1. split; [reflexivity|]. split; [done|]. by eapply (moves_mfor xs).
  - destruct (IH s1 H2 Hx) as (t1 & t2 & Ha & Hbody & Hc). exists t1, t2.
    split; [|done]. transitivity s1; [by eapply Hb|done].
Qed.
End method_relations.

(** [for_each_mut] relates the list before and after element by element. *)
Lemma for_each_mut_Forall2 {E X} (R : X -> X -> Prop) (body : method X E unit) xs xs' r :
  (forall x, R x x) -> (forall x x' r, body x = (x', r) -> R x x') ->
  for_each_mut body xs = (xs', r) -> Forall2 R xs xs'.
Proof.
  intros Hrefl Hb. revert xs'. induction xs as [|x xs IH]; intros xs' H; simpl in H.
  - by injection H as <- _.
  - destruct (body x) as [x' [u|e]] eqn:Ex.
    + destruct (for_each_mut body xs) as [l r'] eqn:El. injection H as <- <-.
      constructor; [by eapply Hb|by apply IH].
    + injection H as <- <-. constructor; [by eapply Hb|].
      clear -Hrefl. induction xs; constructor; auto.
Qed.

Lemma for_each_mut_Ok {E X} (body : method X E unit) xs xs' u i x :
  for_each_mut body xs = (xs', Ok u) -> xs !! i = Some x ->
  exists x', body x = (x', Ok tt) /\ xs' !! i = Some x'.
Proof.
  revert xs' i. induction xs as [|y xs IH]; intros xs' i H Hi; [done|]. simpl in H.
  destruct (body y) as [y' [[]|e]] eqn:Ey; [|done].
  destruct (for_each_mut body xs) as [l r'] eqn:El. injection H as <- ->.
  destruct i as [|i]; simpl in *; [injection Hi as ->; eauto|by apply IH].
Qed.

Lemma moves_massign {S E} (R : S -> S -> Prop) (f : S -> S) :
  (forall s, R s (f s)) -> moves (E := E) R (massign f).
Proof. intros H s s' r [= <- _]. apply H. Qed.
