(* ===== verification/Bytes.v ===== *)
(** * Bytes and text

    What the Rust standard library does to the bytes of a [Vec<u8>] or a
    [&str]: little- and big-endian integers, ASCII tests, UTF-8 validity,
    prefixes, [split] and the decimal form of integers.  A [&str] is the list of
    its UTF-8 bytes, so its [len] is the length of the list. *)

From Stdlib Require Import ZArith.
From S2P Require Import Prelude.

(** The bytes of a string literal. *)
Definition str (s : string) : bytes := String.list_byte_of_string s.

Lemma len_app {A} (a b : list A) : len (a ++ b) = len a + len b.
Proof. unfold len. rewrite length_app. lia. Qed.

(** ** Bytes and integers *)

(** [n as u8] *)
Definition byte_of (n : N) : Byte.byte :=
  match Byte.of_N (n mod 256) with Some b => b | None => Byte.x00 end.

Lemma to_N_lt b : Byte.to_N b < 256.
Proof. pose proof (Byte.to_N_bounded b). lia. Qed.

Lemma to_N_byte_of n : Byte.to_N (byte_of n) = n mod 256.
Proof.
  unfold byte_of. destruct (Byte.of_N (n mod 256)) as [b|] eqn:E; [by apply Byte.to_of_N|].
  apply Byte.of_N_None_iff in E. pose proof (N.mod_lt n 256 ltac:(done)). lia.
Qed.

Lemma byte_of_to_N b : byte_of (Byte.to_N b) = b.
Proof.
  unfold byte_of. rewrite N.mod_small by apply to_N_lt. by rewrite Byte.of_to_N.
Qed.

Lemma to_N_inj a b : Byte.to_N a = Byte.to_N b -> a = b.
Proof. intros H. rewrite <-(byte_of_to_N a), H. apply byte_of_to_N. Qed.

(** [v.to_le_bytes()] of an [n]-byte integer, and [from_le_bytes] *)
Fixpoint le_bytes (n : nat) (v : N) : bytes :=
  match n with
  | O => []
  | S n => byte_of v :: le_bytes n (v / 256)
  end.
Fixpoint of_le_bytes (l : bytes) : N :=
  match l with
  | [] => 0
  | b :: l => Byte.to_N b + 256 * of_le_bytes l
  end.

Lemma le_bytes_length n v : length (le_bytes n v) = n.
Proof. revert v. induction n; simpl; intros; [done|]. by rewrite IHn. Qed.

Lemma le_bytes_round n v : v < 256 ^ N.of_nat n -> of_le_bytes (le_bytes n v) = v.
Proof.
  revert v. induction n as [|n IH]; intros v H; simpl.
  - change (256 ^ N.of_nat 0) with 1 in H. lia.
  - replace (N.of_nat (S n)) with (N.succ (N.of_nat n)) in H by lia.
    rewrite N.pow_succ_r' in H. rewrite to_N_byte_of, IH; [|by apply N.Div0.div_lt_upper_bound].
    pose proof (N.div_mod v 256). lia.
Qed.

Lemma of_le_bytes_round l : le_bytes (length l) (of_le_bytes l) = l.
Proof.
  induction l as [|b l IH]; simpl; [done|]. pose proof (to_N_lt b) as Hb.
  assert (E1 : (Byte.to_N b + 256 * of_le_bytes l) mod 256 = Byte.to_N b).
  { rewrite N.mul_comm, N.Div0.mod_add. by apply N.mod_small. }
  assert (E2 : (Byte.to_N b + 256 * of_le_bytes l) / 256 = of_le_bytes l).
  { rewrite N.mul_comm, N.div_add by done. rewrite N.div_small by done. lia. }
  rewrite E2, IH. f_equal. apply to_N_inj. by rewrite to_N_byte_of.
Qed.

Lemma of_le_bytes_bound l : of_le_bytes l < 256 ^ len l.
Proof.
  unfold len. induction l as [|b l IH]; [done|].
  cbn [of_le_bytes length]. replace (N.of_nat (S (length l))) with (N.succ (N.of_nat (length l))) by lia.
  rewrite N.pow_succ_r'. pose proof (to_N_lt b). lia.
Qed.

(** [Uuid::as_bytes] and [Uuid::from_bytes]: 16 bytes, the highest first *)
Definition uuid_as_bytes (u : uuid) : bytes := rev (le_bytes 16 u).
Definition uuid_from_bytes (l : bytes) : uuid := of_le_bytes (rev l).

Lemma uuid_as_bytes_len u : len (uuid_as_bytes u) = 16.
Proof. unfold len, uuid_as_bytes. by rewrite length_rev, le_bytes_length. Qed.

Lemma uuid_round u : u < 2 ^ 128 -> uuid_from_bytes (uuid_as_bytes u) = u.
Proof.
  intros H. unfold uuid_from_bytes, uuid_as_bytes. rewrite rev_involutive.
  by apply le_bytes_round.
Qed.

Lemma uuid_bytes_round l : len l = 16 -> uuid_as_bytes (uuid_from_bytes l) = l.
Proof.
  intros H. unfold uuid_from_bytes, uuid_as_bytes.
  replace 16%nat with (length (rev l)) by (rewrite length_rev; unfold len in H; lia).
  by rewrite of_le_bytes_round, rev_involutive.
Qed.

Lemma uuid_bound l : len l = 16 -> uuid_from_bytes l < 2 ^ 128.
Proof.
  intros H. pose proof (of_le_bytes_bound (rev l)) as Hb. unfold len in H, Hb.
  rewrite length_rev in Hb. rewrite H in Hb. exact Hb.
Qed.

(** ** Characters *)

Definition is_ascii (b : Byte.byte) : bool := Byte.to_N b <? 128.
(** [u8::is_ascii_whitespace]: tab, line feed, form feed, return, space *)
Definition is_ascii_whitespace (b : Byte.byte) : bool :=
  match b with Byte.x09 | Byte.x0a | Byte.x0c | Byte.x0d | Byte.x20 => true | _ => false end.
Definition in_range (lo hi : N) (b : Byte.byte) : bool := (lo <=? Byte.to_N b) && (Byte.to_N b <=? hi).
Definition is_ascii_digit (b : Byte.byte) : bool := in_range 48 57 b.

(** A lower-case hexadecimal digit. *)
Definition lower_hex (b : Byte.byte) : bool := is_ascii_digit b || in_range 97 102 b.
(** The URL-safe base64 alphabet. *)
Definition base64_char (b : Byte.byte) : bool :=
  is_ascii_digit b || in_range 65 90 b || in_range 97 122 b
  || bool_decide (b = Byte.x2d) || bool_decide (b = Byte.x5f).

(** [s.contains(c)] *)
Definition contains (c : Byte.byte) (s : bytes) : bool := existsb (fun b => bool_decide (b = c)) s.

Lemma contains_false c s : contains c s = false <-> c ∉ s.
Proof.
  induction s as [|x s IH]; simpl; [split; [intros _; apply not_elem_of_nil|done]|].
  rewrite orb_false_iff, IH, not_elem_of_cons, bool_decide_eq_false. naive_solver.
Qed.

(** The table of well-formed UTF-8 byte sequences of the Unicode standard. *)
Definition utf8_tail (b : Byte.byte) : bool := in_range 128 191 b.
Definition utf8_two (a b : Byte.byte) : bool := in_range 194 223 a && utf8_tail b.
Definition utf8_three (a b c : Byte.byte) : bool :=
  (in_range 224 224 a && in_range 160 191 b
   || (in_range 225 236 a || in_range 238 239 a) && utf8_tail b
   || in_range 237 237 a && in_range 128 159 b) && utf8_tail c.
Definition utf8_four (a b c d : Byte.byte) : bool :=
  (in_range 240 240 a && in_range 144 191 b || in_range 241 243 a && utf8_tail b
   || in_range 244 244 a && in_range 128 143 b) && utf8_tail c && utf8_tail d.

(** [std::str::from_utf8(s).is_ok()] *)
Fixpoint is_utf8 (s : bytes) : bool :=
  match s with
  | [] => true
  | a :: s1 =>
      if is_ascii a then is_utf8 s1
      else match s1 with
      | [] => false
      | b :: s2 =>
          if utf8_two a b then is_utf8 s2
          else match s2 with
          | [] => false
          | c :: s3 =>
              if utf8_three a b c then is_utf8 s3
              else match s3 with
              | [] => false
              | d :: s4 => utf8_four a b c d && is_utf8 s4
              end
          end
      end
  end.

Lemma ascii_is_utf8 s : forallb is_ascii s = true -> is_utf8 s = true.
Proof.
  induction s as [|a s IH]; [done|]. cbn [forallb]. intros [Ha Hs]%andb_true_iff.
  cbn [is_utf8]. rewrite Ha. auto.
Qed.

(** ** Prefixes and fields *)

(** [s.strip_prefix(p)] *)
Fixpoint strip_prefix (p s : bytes) : option bytes :=
  match p, s with
  | [], _ => Some s
  | x :: p, y :: s => if bool_decide (x = y) then strip_prefix p s else None
  | _ :: _, [] => None
  end.
Definition starts_with (p s : bytes) : bool := bool_decide (is_Some (strip_prefix p s)).

Lemma strip_prefix_Some p s r : strip_prefix p s = Some r <-> s = p ++ r.
Proof.
  revert s. induction p as [|x p IH]; intros s; simpl.
  - split; congruence.
  - destruct s as [|y s]; [split; congruence|]. destruct (bool_decide (x = y)) eqn:E; bool_inv.
    + subst y. rewrite IH. split; congruence.
    + split; congruence.
Qed.

(** [s.split(c)] *)
Fixpoint split (c : Byte.byte) (s : bytes) : list bytes :=
  match s with
  | [] => [[]]
  | x :: s => if bool_decide (x = c) then [] :: split c s
              else match split c s with
              | [] => [[x]]
              | f :: fs => (x :: f) :: fs
              end
  end.

Lemma split_last c f : c ∉ f -> split c f = [f].
Proof.
  induction f as [|x f IH]; [done|]. intros [Hx Hf]%not_elem_of_cons. simpl.
  rewrite bool_decide_eq_false_2 by congruence. by rewrite IH.
Qed.

Lemma split_field c f s : c ∉ f -> split c (f ++ c :: s) = f :: split c s.
Proof.
  induction f as [|x f IH]; simpl.
  - intros _. by rewrite bool_decide_eq_true_2.
  - intros [Hx Hf]%not_elem_of_cons. rewrite bool_decide_eq_false_2 by congruence. by rewrite IH.
Qed.

(** ** Decimal numbers *)

Definition digit (n : N) : Byte.byte := byte_of (48 + n).

Fixpoint digits (fuel : nat) (n : N) (acc : bytes) : bytes :=
  match fuel with
  | O => acc
  | S fuel => let acc := digit (n mod 10) :: acc in
              if n / 10 =? 0 then acc else digits fuel (n / 10) acc
  end.
(** [n.to_string()]: at most twenty digits for a 64-bit integer *)
Definition show (n : N) : bytes := digits 20 n [].

Fixpoint parse_digits (max acc : N) (s : bytes) : option N :=
  match s with
  | [] => Some acc
  | b :: s =>
      if is_ascii_digit b then
        match checked_mul max acc 10 with
        | None => None
        | Some acc =>
            match checked_add max acc (Byte.to_N b - 48) with
            | None => None
            | Some acc => parse_digits max acc s
            end
        end
      else None
  end.
(** [s.parse()] for an unsigned integer type with largest value [max] *)
Definition parse_uint (max : N) (s : bytes) : option N :=
  match s with
  | [] => None
  | [Byte.x2b] => None
  | Byte.x2b :: s => parse_digits max 0 s
  | _ => parse_digits max 0 s
  end.

Lemma to_N_digit n : n < 10 -> Byte.to_N (digit n) = 48 + n.
Proof. intros H. unfold digit. rewrite to_N_byte_of. apply N.mod_small. lia. Qed.

Lemma digit_is_digit n : n < 10 -> is_ascii_digit (digit n) = true.
Proof.
  intros H. unfold is_ascii_digit, in_range. rewrite to_N_digit by done.
  apply andb_true_iff. split; apply N.leb_le; lia.
Qed.

Lemma parse_digit max n d s :
  d < 10 -> n * 10 + d <= max ->
  parse_digits max n (digit d :: s) = parse_digits max (n * 10 + d) s.
Proof.
  intros Hd Hn. cbn [parse_digits]. rewrite digit_is_digit, to_N_digit by done.
  unfold checked_mul. rewrite (proj2 (N.leb_le (n * 10) max)) by lia.
  unfold checked_add. replace (48 + d - 48) with d by lia.
  by rewrite (proj2 (N.leb_le (n * 10 + d) max)) by lia.
Qed.

Lemma parse_digits_digits max fuel n acc :
  n < 10 ^ N.of_nat fuel -> n <= max ->
  parse_digits max 0 (digits fuel n acc) = parse_digits max n acc.
Proof.
  revert n acc. induction fuel as [|fuel IH]; intros n acc Hf Hn.
  - change (10 ^ N.of_nat 0) with 1 in Hf. by replace n with 0 by lia.
  - replace (N.of_nat (S fuel)) with (N.succ (N.of_nat fuel)) in Hf by lia.
    rewrite N.pow_succ_r' in Hf. cbn [digits]. pose proof (N.div_mod n 10 ltac:(done)) as E.
    pose proof (N.mod_lt n 10 ltac:(done)) as Hd.
    destruct (n / 10 =? 0) eqn:Hz; bool_inv.
    + rewrite parse_digit by lia. f_equal. lia.
    + assert (n / 10 <= max) by (apply N.Div0.div_le_upper_bound; lia).
      rewrite IH; [|by apply N.Div0.div_lt_upper_bound|done]. rewrite parse_digit by lia. f_equal. lia.
Qed.

Lemma digits_all fuel n acc :
  forallb is_ascii_digit acc = true -> forallb is_ascii_digit (digits fuel n acc) = true.
Proof.
  revert n acc. induction fuel as [|fuel IH]; intros n acc H; [done|]. cbn [digits].
  assert (Hd : forallb is_ascii_digit (digit (n mod 10) :: acc) = true).
  { cbn [forallb]. rewrite digit_is_digit by (by apply N.mod_lt). done. }
  destruct (_ =? _); auto.
Qed.

Lemma show_digits n : forallb is_ascii_digit (show n) = true.
Proof. by apply digits_all. Qed.

Lemma digits_nonempty fuel n acc : acc <> [] -> digits fuel n acc <> [].
Proof.
  revert n acc. induction fuel as [|fuel IH]; intros n acc H; [done|]. cbn [digits].
  destruct (_ =? _); [done|]. by apply IH.
Qed.

Lemma digits_length fuel n acc : (length (digits fuel n acc) <= fuel + length acc)%nat.
Proof.
  revert n acc. induction fuel as [|fuel IH]; intros n acc; cbn [digits]; [lia|].
  destruct (_ =? 0); cbn [length]; [lia|]. etransitivity; [apply IH|]. cbn [length]. lia.
Qed.

Lemma show_nonempty n : show n <> [].
Proof.
  unfold show. cbn [digits]. destruct (_ =? _); [done|]. by apply (digits_nonempty 19).
Qed.

Lemma parse_show max n : n <= max -> max <= u64_max -> parse_uint max (show n) = Some n.
Proof.
  intros Hn Hm. pose proof (show_digits n) as Hd. pose proof (show_nonempty n) as Hne.
  assert (E : parse_digits max 0 (show n) = Some n).
  { unfold show. rewrite parse_digits_digits; [done| |done].
    change (10 ^ N.of_nat 20) with 100000000000000000000. unfold u64_max in Hm. lia. }
  destruct (show n) as [|b s]; [done|]. unfold parse_uint.
  destruct b; try exact E; discriminate Hd.
Qed.
