(* ===== verification/Codecs.v ===== *)
(** * Reference text encodings

    URL-safe base64 without padding (RFC 4648, section 5) and lower-case hex,
    with the laws the transport relies on.  The program uses the crates
    [base64] and [hex]; these functions show that their documented behaviour
    can be had. *)

From Stdlib Require Import ZArith.
From S2P Require Import Prelude Bytes.

#[local] Ltac Zify.zify_post_hook ::= Z.to_euclidean_division_equations.

(** ** Base64 *)

Definition b64_table : bytes :=
  str "ABCDEFGHIJKLMNOPQRSTUVWXYZabcdefghijklmnopqrstuvwxyz0123456789-_".
Definition b64_char (n : N) : Byte.byte := nth (N.to_nat n) b64_table Byte.x00.
Definition b64_index (b : Byte.byte) : option N :=
  option_map N.of_nat (position (fun c => bool_decide (c = b)) b64_table).

Lemma below_64 (p : N -> bool) :
  forallb p (map N.of_nat (seq 0 64)) = true -> forall n, n < 64 -> p n = true.
Proof.
  intros H n Hn. rewrite forallb_forall in H. apply H, in_map_iff. exists (N.to_nat n).
  split; [lia|]. apply in_seq. lia.
Qed.

Lemma index_char n : n < 64 -> b64_index (b64_char n) = Some n.
Proof.
  set (p := fun n => match b64_index (b64_char n) with Some m => m =? n | None => false end).
  intros Hn. assert (H : p n = true) by (apply (below_64 p); [vm_compute; reflexivity|done]).
  unfold p in H. destruct (b64_index (b64_char n)); [|done]. by bool_inv; subst.
Qed.

Lemma char_in_alphabet n : n < 64 -> base64_char (b64_char n) = true.
Proof. apply (below_64 (fun n => base64_char (b64_char n))). vm_compute. reflexivity. Qed.

Lemma char_index b n : b64_index b = Some n -> n < 64 /\ b64_char n = b.
Proof. destruct b; vm_compute; intros [= <-]; done. Qed.

Fixpoint b64_encode (l : bytes) : bytes :=
  match l with
  | [] => []
  | [a] => let n := Byte.to_N a * 16 in [b64_char (n / 64); b64_char (n mod 64)]
  | [a; b] =>
      let n := Byte.to_N a * 1024 + Byte.to_N b * 4 in
      [b64_char (n / 4096); b64_char (n / 64 mod 64); b64_char (n mod 64)]
  | a :: b :: c :: l =>
      let n := Byte.to_N a * 65536 + Byte.to_N b * 256 + Byte.to_N c in
      b64_char (n / 262144) :: b64_char (n / 4096 mod 64) :: b64_char (n / 64 mod 64)
      :: b64_char (n mod 64) :: b64_encode l
  end.

Fixpoint b64_decode (l : bytes) : option bytes :=
  match l with
  | [] => Some []
  | [_] => None
  | [p; q] =>
      match b64_index p, b64_index q with
      | Some p, Some q =>
          let n := p * 64 + q in if n mod 16 =? 0 then Some [byte_of (n / 16)] else None
      | _, _ => None
      end
  | [p; q; r] =>
      match b64_index p, b64_index q, b64_index r with
      | Some p, Some q, Some r =>
          let n := p * 4096 + q * 64 + r in
          if n mod 4 =? 0 then Some [byte_of (n / 1024); byte_of (n / 4)] else None
      | _, _, _ => None
      end
  | p :: q :: r :: s :: l =>
      match b64_index p, b64_index q, b64_index r, b64_index s, b64_decode l with
      | Some p, Some q, Some r, Some s, Some l =>
          let n := p * 262144 + q * 4096 + r * 64 + s in
          Some (byte_of (n / 65536) :: byte_of (n / 256) :: byte_of n :: l)
      | _, _, _, _, _ => None
      end
  end.

(** Induction in steps of three and of four. *)
Lemma triple_ind (P : bytes -> Prop) :
  P [] -> (forall a, P [a]) -> (forall a b, P [a; b]) ->
  (forall a b c l, P l -> P (a :: b :: c :: l)) -> forall l, P l.
Proof.
  intros H0 H1 H2 H3 l.
  enough (forall n l, (length l <= n)%nat -> P l) as H by by eapply H.
  clear l. induction n as [|n IH]; intros [|a [|b [|c l]]] Hl; simpl in Hl; try lia; auto.
  apply H3, IH. lia.
Qed.

Lemma quad_ind (P : bytes -> Prop) :
  P [] -> (forall a, P [a]) -> (forall a b, P [a; b]) -> (forall a b c, P [a; b; c]) ->
  (forall a b c d l, P l -> P (a :: b :: c :: d :: l)) -> forall l, P l.
Proof.
  intros H0 H1 H2 H3 H4 l.
  enough (forall n l, (length l <= n)%nat -> P l) as H by by eapply H.
  clear l. induction n as [|n IH]; intros [|a [|b [|c [|d l]]]] Hl; simpl in Hl; try lia; auto.
  apply H4, IH. lia.
Qed.

Lemma byte_of_eq n b : n mod 256 = Byte.to_N b -> byte_of n = b.
Proof. intros H. apply to_N_inj. by rewrite to_N_byte_of. Qed.

Ltac byte_bounds :=
  repeat match goal with
  | b : Byte.byte |- _ =>
      lazymatch goal with H : Byte.to_N b < 256 |- _ => fail | _ => pose proof (to_N_lt b) end
  end.

Lemma b64_round l : b64_decode (b64_encode l) = Some l.
Proof.
  induction l as [|a|a b|a b c l IH] using triple_ind; [done|..]; byte_bounds;
    cbn [b64_encode b64_decode]; rewrite !index_char by lia; cbv beta iota zeta.
  - rewrite (proj2 (N.eqb_eq _ 0)) by lia. do 2 f_equal. apply byte_of_eq. lia.
  - rewrite (proj2 (N.eqb_eq _ 0)) by lia. do 2 f_equal; [|f_equal]; apply byte_of_eq; lia.
  - rewrite IH. do 2 f_equal; [|f_equal; [|f_equal]]; apply byte_of_eq; lia.
Qed.

Lemma b64_strict e b : b64_decode e = Some b -> e = b64_encode b.
Proof.
  revert b. induction e as [|p|p q|p q r|p q r s e IH] using quad_ind; intros out; cbn [b64_decode].
  - by intros [= <-].
  - done.
  - destruct (b64_index p) as [i|] eqn:Hp, (b64_index q) as [j|] eqn:Hq; try done.
    apply char_index in Hp as [? <-]. apply char_index in Hq as [? <-].
    destruct (_ =? 0) eqn:E; bool_inv; [|done]. intros [= <-]. cbn [b64_encode].
    rewrite to_N_byte_of. f_equal; [|f_equal]; f_equal; lia.
  - destruct (b64_index p) as [i|] eqn:Hp, (b64_index q) as [j|] eqn:Hq, (b64_index r) as [k|] eqn:Hr; try done.
    apply char_index in Hp as [? <-]. apply char_index in Hq as [? <-]. apply char_index in Hr as [? <-].
    destruct (_ =? 0) eqn:E; bool_inv; [|done]. intros [= <-]. cbn [b64_encode].
    rewrite !to_N_byte_of. f_equal; [|f_equal; [|f_equal]]; f_equal; lia.
  - destruct (b64_index p) as [i|] eqn:Hp, (b64_index q) as [j|] eqn:Hq, (b64_index r) as [k|] eqn:Hr,
      (b64_index s) as [m|] eqn:Hs; try done. destruct (b64_decode e) as [l|]; [|done].
    apply char_index in Hp as [? <-]. apply char_index in Hq as [? <-]. apply char_index in Hr as [? <-].
    apply char_index in Hs as [? <-]. intros [= <-]. cbn [b64_encode]. rewrite !to_N_byte_of.
    rewrite <-(IH l eq_refl). f_equal; [|f_equal; [|f_equal; [|f_equal]]]; f_equal; lia.
Qed.

Lemma b64_alphabet l : forallb base64_char (b64_encode l) = true.
Proof.
  induction l as [|a|a b|a b c l IH] using triple_ind; [done|..]; byte_bounds; cbn [b64_encode forallb];
    rewrite !char_in_alphabet by lia; done.
Qed.

Lemma b64_size l : 4 * len l <= 3 * len (b64_encode l) <= 4 * len l + 2.
Proof.
  unfold len. induction l as [|a|a b|a b c l IH] using triple_ind; cbn [b64_encode length]; lia.
Qed.

(** With padding to a multiple of four. *)
Definition b64_padding (l : bytes) : bytes :=
  match len l mod 3 with 0 => [] | 1 => [Byte.x3d; Byte.x3d] | _ => [Byte.x3d] end.
Definition b64_padded (l : bytes) : bytes := b64_encode l ++ b64_padding l.
Definition b64_unpadded (l : bytes) : option bytes :=
  b64_decode (List.filter (fun b => negb (bool_decide (b = Byte.x3d))) l).

Lemma b64_padded_round l : b64_unpadded (b64_padded l) = Some l.
Proof.
  unfold b64_unpadded, b64_padded. rewrite List.filter_app.
  assert (List.filter (fun b => negb (bool_decide (b = Byte.x3d))) (b64_padding l) = []) as ->.
  { unfold b64_padding. by destruct (_ mod 3) as [|[| |]]. }
  rewrite app_nil_r. assert (H := b64_alphabet l). rewrite (List.forallb_filter_id _ (b64_encode l));
    [apply b64_round|].
  apply forallb_forall. intros b Hb. rewrite forallb_forall in H. apply H in Hb.
  apply negb_true_iff, bool_decide_eq_false. by intros ->.
Qed.

Lemma b64_padded_size l : len (b64_padded l) = 4 * ((len l + 2) / 3).
Proof.
  unfold b64_padded, len at 1. rewrite length_app, Nat2N.inj_add. fold (len (b64_encode l)) (len (b64_padding l)).
  pose proof (b64_size l). unfold b64_padding.
  assert (len l mod 3 = 0 \/ len l mod 3 = 1 \/ len l mod 3 = 2) as [E|[E|E]] by lia;
    rewrite E; unfold len at 2; simpl; lia.
Qed.

(** ** Hex *)

Definition hex_digit (n : N) : Byte.byte := if n <? 10 then byte_of (48 + n) else byte_of (87 + n).
Definition hex_value (b : Byte.byte) : option N :=
  if is_ascii_digit b then Some (Byte.to_N b - 48)
  else if in_range 97 102 b then Some (Byte.to_N b - 87)
  else if in_range 65 70 b then Some (Byte.to_N b - 55) else None.

Fixpoint hex (l : bytes) : bytes :=
  match l with
  | [] => []
  | b :: l => hex_digit (Byte.to_N b / 16) :: hex_digit (Byte.to_N b mod 16) :: hex l
  end.
Fixpoint unhex (l : bytes) : option bytes :=
  match l with
  | [] => Some []
  | [_] => None
  | a :: b :: l =>
      match hex_value a, hex_value b, unhex l with
      | Some a, Some b, Some l => Some (byte_of (16 * a + b) :: l)
      | _, _, _ => None
      end
  end.

Lemma hex_byte b :
  hex_value (hex_digit (Byte.to_N b / 16)) = Some (Byte.to_N b / 16)
  /\ hex_value (hex_digit (Byte.to_N b mod 16)) = Some (Byte.to_N b mod 16)
  /\ lower_hex (hex_digit (Byte.to_N b / 16)) = true
  /\ lower_hex (hex_digit (Byte.to_N b mod 16)) = true.
Proof. destruct b; vm_compute; done. Qed.

Lemma unhex_hex l : unhex (hex l) = Some l.
Proof.
  induction l as [|b l IH]; [done|]. cbn [hex unhex]. destruct (hex_byte b) as (-> & -> & _ & _).
  rewrite IH. do 2 f_equal. apply byte_of_eq. pose proof (to_N_lt b). lia.
Qed.

Lemma hex_is_lower l : forallb lower_hex (hex l) = true.
Proof.
  induction l as [|b l IH]; [done|]. cbn [hex forallb]. by destruct (hex_byte b) as (_ & _ & -> & ->).
Qed.

Lemma hex_len l : len (hex l) = 2 * len l.
Proof. unfold len. induction l as [|b l IH]; cbn [hex length]; lia. Qed.
