(* ===== verification/Envelope.v ===== *)
(** * The at-rest envelope

    crates/dom-wallet-crypto/src/lib.rs: the versioned, bounded envelope around
    every secret file of a wallet.  Argon2, HKDF, SHA-256, ChaCha20-Poly1305,
    base64 and JSON are code of other repositories and make the class
    [CryptoCode]; the documented facts the envelope relies on are [CryptoLaws].
    The random salt and nonce are an argument, [None] when no randomness is
    available. *)

From Stdlib Require Import ZArith.
From S2P Require Import Prelude Bytes Codecs.

#[local] Ltac Zify.zify_post_hook ::= Z.to_euclidean_division_equations.

Definition PROFILE_NAME : bytes := str "HARDENED_DOM_WALLET_CONTINUITY_V1".
Definition ENVELOPE_MAGIC : bytes := str "DOMWV3A1".
Definition ENVELOPE_VERSION : N := 2.
Definition ENVELOPE_VERSION_LEGACY_V1 : N := 1.
Definition MAX_PLAINTEXT_BYTES : N := 128 * 1024 * 1024.
Definition MAX_ENVELOPE_BYTES : N := MAX_PLAINTEXT_BYTES / 3 * 4 + 2 * 1024 * 1024.
Definition LEGACY_V1_MAX_ENVELOPE_BYTES : N := 16 * 1024 * 1024.
Definition AEAD_TAG_BYTES : N := 16.
Definition MAX_KDF_MEMORY_KIB : N := 256 * 1024.
Definition MAX_KDF_TIME_COST : N := 10.
Definition MAX_KDF_PARALLELISM : N := 8.

Module CrErr.
Inductive CryptoError :=
| InvalidSecretLength
| RandomnessUnavailable
| InvalidInput
| KdfParametersOutOfBounds
| KdfFailed
| UnsupportedVersion
| CanonicalEncoding
| EnvelopeTooLarge
| PlaintextTooLarge
| EncryptionFailed
| DecryptionFailed
| AuthenticationFailed.
#[global] Instance CryptoError_eq_dec : EqDecision CryptoError.
Proof. solve_decision. Defined.
End CrErr.

Record KdfParameters := mkKdfParameters {
  kdf_memory_kib : N;
  kdf_time_cost : N;
  kdf_parallelism : N;
}.
Definition DOM_CONTINUITY : KdfParameters := mkKdfParameters 65536 3 1.

Definition KdfParameters_validate (self : KdfParameters) : result CrErr.CryptoError unit :=
  fail_if ((self.(kdf_memory_kib) =? 0) || (MAX_KDF_MEMORY_KIB <? self.(kdf_memory_kib))
           || (self.(kdf_time_cost) =? 0) || (MAX_KDF_TIME_COST <? self.(kdf_time_cost))
           || (self.(kdf_parallelism) =? 0) || (MAX_KDF_PARALLELISM <? self.(kdf_parallelism)))
          CrErr.KdfParametersOutOfBounds.

(** [SecretBytes::from_bytes] *)
Definition secret_from_bytes (b : bytes) : result CrErr.CryptoError bytes :=
  fail_if (is_empty b || (4096 <? len b)) CrErr.InvalidSecretLength ;? Ok b.

Record EnvelopeHeader := mkEnvelopeHeader {
  eh_magic : bytes;
  eh_envelope_version : N;
  eh_profile : bytes;
  eh_kdf : KdfParameters;
  eh_salt : bytes;
  eh_nonce : bytes;
}.

Record EncryptedEnvelope := mkEncryptedEnvelope {
  env_header : EnvelopeHeader;
  env_ciphertext : bytes;
}.

(** The JSON value of the ciphertext: an array of bytes or a string. *)
Inductive RawCiphertext :=
| NumericArray (b : bytes)
| Base64 (text : bytes).

(** Code of other repositories. *)
Class CryptoCode := {
  (** [Params::new] and [hash_password_into] of Argon2id *)
  argon2_params : KdfParameters -> bool;
  argon2id : KdfParameters -> bytes -> bytes -> option bytes;
  (** HKDF-SHA256 with salt, key material and label, 32 bytes *)
  hkdf_expand : bytes -> bytes -> bytes -> option bytes;
  sha256 : bytes -> bytes;
  (** ChaCha20-Poly1305 under a key, a nonce and associated data *)
  aead_encrypt : bytes -> bytes -> bytes -> bytes -> option bytes;
  aead_decrypt : bytes -> bytes -> bytes -> bytes -> option bytes;
  standard_encode : bytes -> bytes;
  standard_decode : bytes -> option bytes;
  (** [serde_json] on a header and a ciphertext value, and on the header alone *)
  envelope_to_json : EnvelopeHeader -> RawCiphertext -> option bytes;
  envelope_from_json : bytes -> option (EnvelopeHeader * RawCiphertext);
  header_from_json : bytes -> option EnvelopeHeader;
}.

Section envelope.
Context {code : CryptoCode}.

(** [ChaCha20Poly1305::new_from_slice] takes keys of 32 bytes. *)
Definition cipher_key (key : bytes) (e : CrErr.CryptoError) : result CrErr.CryptoError unit :=
  fail_if (negb (len key =? 32)) e.

Definition max_plaintext_bytes (version : N) : N :=
  if version =? ENVELOPE_VERSION_LEGACY_V1 then LEGACY_V1_MAX_ENVELOPE_BYTES else MAX_PLAINTEXT_BYTES.
Definition max_encoded_bytes (version : N) : N :=
  if version =? ENVELOPE_VERSION_LEGACY_V1 then LEGACY_V1_MAX_ENVELOPE_BYTES else MAX_ENVELOPE_BYTES.

Definition validate_envelope_header (header : EnvelopeHeader) : result CrErr.CryptoError unit :=
  fail_if (negb (bool_decide (header.(eh_magic) = ENVELOPE_MAGIC))
           || negb ((header.(eh_envelope_version) =? ENVELOPE_VERSION)
                    || (header.(eh_envelope_version) =? ENVELOPE_VERSION_LEGACY_V1))
           || negb (bool_decide (header.(eh_profile) = PROFILE_NAME)))
          CrErr.UnsupportedVersion ;?
  KdfParameters_validate header.(eh_kdf).

Definition derive_key (password salt : bytes) (parameters : KdfParameters)
    : result CrErr.CryptoError bytes :=
  KdfParameters_validate parameters ;?
  fail_if (negb (argon2_params parameters)) CrErr.KdfParametersOutOfBounds ;?
  let? material := ok_or (argon2id parameters password salt) CrErr.KdfFailed in
  let? key := ok_or (hkdf_expand salt material (str "DOM-WALLET-V3-STATE-ENCRYPTION-V1"))
                    CrErr.KdfFailed in
  secret_from_bytes key.

Definition envelope_aad (header : EnvelopeHeader) (context : bytes) : bytes :=
  sha256 (header.(eh_magic) ++ le_bytes 2 header.(eh_envelope_version) ++ header.(eh_profile)
          ++ header.(eh_salt) ++ context).

Definition seal_with_version (random : option (bytes * bytes))
    (plaintext password canonical_context : bytes) (kdf : KdfParameters) (envelope_version : N)
    : result CrErr.CryptoError EncryptedEnvelope :=
  fail_if (is_empty password || is_empty canonical_context) CrErr.InvalidInput ;?
  fail_if (max_plaintext_bytes envelope_version <? len plaintext) CrErr.PlaintextTooLarge ;?
  KdfParameters_validate kdf ;?
  let? random := ok_or random CrErr.RandomnessUnavailable in
  let '(salt, nonce) := random in
  let? key := derive_key password salt kdf in
  let header := mkEnvelopeHeader ENVELOPE_MAGIC envelope_version PROFILE_NAME kdf salt nonce in
  let aad := envelope_aad header canonical_context in
  cipher_key key CrErr.EncryptionFailed ;?
  let? ciphertext := ok_or (aead_encrypt key nonce plaintext aad) CrErr.EncryptionFailed in
  Ok (mkEncryptedEnvelope header ciphertext).

Definition seal (random : option (bytes * bytes)) (plaintext password canonical_context : bytes)
    (kdf : KdfParameters) : result CrErr.CryptoError EncryptedEnvelope :=
  seal_with_version random plaintext password canonical_context kdf ENVELOPE_VERSION.
Definition seal_legacy_v1 (random : option (bytes * bytes))
    (plaintext password canonical_context : bytes) (kdf : KdfParameters)
    : result CrErr.CryptoError EncryptedEnvelope :=
  seal_with_version random plaintext password canonical_context kdf ENVELOPE_VERSION_LEGACY_V1.

Definition open (envelope : EncryptedEnvelope) (password canonical_context : bytes)
    : result CrErr.CryptoError bytes :=
  fail_if (is_empty password || is_empty canonical_context) CrErr.InvalidInput ;?
  validate_envelope_header envelope.(env_header) ;?
  let plaintext_bound := max_plaintext_bytes envelope.(env_header).(eh_envelope_version) in
  fail_if (saturating_add u64_max plaintext_bound AEAD_TAG_BYTES <? len envelope.(env_ciphertext))
          CrErr.EnvelopeTooLarge ;?
  let? key := derive_key password envelope.(env_header).(eh_salt) envelope.(env_header).(eh_kdf) in
  let aad := envelope_aad envelope.(env_header) canonical_context in
  cipher_key key CrErr.DecryptionFailed ;?
  let? plaintext := ok_or (aead_decrypt key envelope.(env_header).(eh_nonce)
                             envelope.(env_ciphertext) aad) CrErr.AuthenticationFailed in
  fail_if (plaintext_bound <? len plaintext) CrErr.EnvelopeTooLarge ;?
  Ok plaintext.

(** [Serialize] and [Deserialize] of the ciphertext; the visitor of an array
    stops at its bound. *)
Definition serialize_ciphertext (envelope : EncryptedEnvelope) : RawCiphertext :=
  if envelope.(env_header).(eh_envelope_version) =? ENVELOPE_VERSION_LEGACY_V1
  then NumericArray envelope.(env_ciphertext)
  else Base64 (standard_encode envelope.(env_ciphertext)).

Fixpoint visit_seq (sequence bytes_ : bytes) : option bytes :=
  match sequence with
  | [] => Some bytes_
  | byte :: sequence =>
      if LEGACY_V1_MAX_ENVELOPE_BYTES + AEAD_TAG_BYTES <=? len bytes_ then None
      else visit_seq sequence (bytes_ ++ [byte])
  end.

Definition deserialize_ciphertext (version : N) (raw : RawCiphertext) : option bytes :=
  match raw with
  | NumericArray sequence =>
      match visit_seq sequence [] with
      | None => None
      | Some b => if version =? ENVELOPE_VERSION then None else Some b
      end
  | Base64 text =>
      if version =? ENVELOPE_VERSION
      then if MAX_ENVELOPE_BYTES <? len text then None else standard_decode text
      else if version =? ENVELOPE_VERSION_LEGACY_V1 then None
      else Some []
  end.

Definition envelope_deserialize (encoded : bytes) : option EncryptedEnvelope :=
  match envelope_from_json encoded with
  | None => None
  | Some (header, raw) =>
      match deserialize_ciphertext header.(eh_envelope_version) raw with
      | None => None
      | Some ciphertext => Some (mkEncryptedEnvelope header ciphertext)
      end
  end.

Definition encode_unbounded (envelope : EncryptedEnvelope) : result CrErr.CryptoError bytes :=
  validate_envelope_header envelope.(env_header) ;?
  ok_or (envelope_to_json envelope.(env_header) (serialize_ciphertext envelope))
        CrErr.CanonicalEncoding.
Definition encode (envelope : EncryptedEnvelope) : result CrErr.CryptoError bytes :=
  let? encoded := encode_unbounded envelope in
  fail_if (max_encoded_bytes envelope.(env_header).(eh_envelope_version) <? len encoded)
          CrErr.EnvelopeTooLarge ;?
  Ok encoded.
Definition encoded_len (envelope : EncryptedEnvelope) : result CrErr.CryptoError N :=
  let? encoded := encode_unbounded envelope in Ok (len encoded).

Definition peek_envelope_version (encoded : bytes) : result CrErr.CryptoError N :=
  fail_if (is_empty encoded || (MAX_ENVELOPE_BYTES <? len encoded)) CrErr.EnvelopeTooLarge ;?
  let? header := ok_or (header_from_json encoded) CrErr.CanonicalEncoding in
  validate_envelope_header header ;?
  fail_if (max_encoded_bytes header.(eh_envelope_version) <? len encoded) CrErr.EnvelopeTooLarge ;?
  Ok header.(eh_envelope_version).

Definition decode (encoded : bytes) : result CrErr.CryptoError EncryptedEnvelope :=
  fail_if (is_empty encoded || (MAX_ENVELOPE_BYTES <? len encoded)) CrErr.EnvelopeTooLarge ;?
  let? envelope := ok_or (envelope_deserialize encoded) CrErr.CanonicalEncoding in
  validate_envelope_header envelope.(env_header) ;?
  fail_if (max_encoded_bytes envelope.(env_header).(eh_envelope_version) <? len encoded)
          CrErr.EnvelopeTooLarge ;?
  Ok envelope.
End envelope.

(** ** What the external code is relied on for *)

Class CryptoLaws (code : CryptoCode) : Prop := {
  aead_round : forall key nonce m aad c,
    aead_encrypt key nonce m aad = Some c -> aead_decrypt key nonce c aad = Some m;
  aead_size : forall key nonce m aad c,
    aead_encrypt key nonce m aad = Some c -> len c = len m + AEAD_TAG_BYTES;
  standard_round : forall b, standard_decode (standard_encode b) = Some b;
  standard_size : forall b, len (standard_encode b) = 4 * ((len b + 2) / 3);
  json_round : forall header raw b,
    envelope_to_json header raw = Some b -> envelope_from_json b = Some (header, raw);
  json_header_round : forall header raw b,
    envelope_to_json header raw = Some b -> header_from_json b = Some header;
  json_nonempty : forall header raw b, envelope_to_json header raw = Some b -> b <> [];
}.

(** ** Lemmas *)

Lemma visit_seq_all sequence acc :
  len acc + len sequence <= LEGACY_V1_MAX_ENVELOPE_BYTES + AEAD_TAG_BYTES ->
  visit_seq sequence acc = Some (acc ++ sequence).
Proof.
  revert acc. induction sequence as [|b l IH]; intros acc H; simpl; [by rewrite app_nil_r|].
  assert (Hb : len (b :: l) = 1 + len l) by (unfold len; simpl; lia).
  destruct (_ <=? len acc) eqn:E; bool_inv; [lia|].
  rewrite IH; [by rewrite <- app_assoc|]. rewrite len_app. change (len [b]) with 1. lia.
Qed.

Section laws.
Context {code : CryptoCode} {laws : CryptoLaws code}.

Definition known_version (v : N) : Prop := v = ENVELOPE_VERSION \/ v = ENVELOPE_VERSION_LEGACY_V1.

(** Every header a sealed envelope carries is accepted. *)
Definition good_header (h : EnvelopeHeader) : Prop :=
  h.(eh_magic) = ENVELOPE_MAGIC /\ h.(eh_profile) = PROFILE_NAME
  /\ known_version h.(eh_envelope_version) /\ KdfParameters_validate h.(eh_kdf) = Ok tt.

Lemma validate_envelope_header_Ok h u : validate_envelope_header h = Ok u <-> good_header h.
Proof.
  unfold validate_envelope_header, good_header, known_version. rewrite then_Ok, fail_if_Ok. destruct u.
  split.
  - intros [H1 H2]. bool_inv. repeat split; try done.
    match goal with H : (_ || _) = true |- _ => apply orb_true_iff in H as [H|H] end;
      bool_inv; auto.
  - intros (-> & -> & Hv & ->). split; [|done].
    rewrite !bool_decide_eq_true_2 by done. simpl. destruct Hv as [-> | ->]; reflexivity.
Qed.

(** The plaintext bound leaves room for the tag and for base64. *)
Lemma ciphertext_fits b v :
  known_version v -> len b <= max_plaintext_bytes v + AEAD_TAG_BYTES ->
  deserialize_ciphertext v
    (if v =? ENVELOPE_VERSION_LEGACY_V1 then NumericArray b else Base64 (standard_encode b))
  = Some b.
Proof.
  intros [-> | ->] H; simpl in *.
  - assert (MAX_ENVELOPE_BYTES <? len (standard_encode b) = false) as ->; [|apply standard_round].
    apply N.ltb_ge. rewrite standard_size.
    change (max_plaintext_bytes ENVELOPE_VERSION + AEAD_TAG_BYTES) with 134217744 in H.
    change MAX_ENVELOPE_BYTES with 181054120. lia.
  - by rewrite visit_seq_all.
Qed.

Lemma seal_Ok random plaintext password context kdf v e :
  seal_with_version random plaintext password context kdf v = Ok e ->
  exists salt nonce key aad,
    random = Some (salt, nonce) /\ aad = envelope_aad e.(env_header) context
    /\ e.(env_header) = mkEnvelopeHeader ENVELOPE_MAGIC v PROFILE_NAME kdf salt nonce
    /\ is_empty password = false /\ is_empty context = false
    /\ len plaintext <= max_plaintext_bytes v /\ KdfParameters_validate kdf = Ok tt
    /\ derive_key password salt kdf = Ok key /\ len key = 32
    /\ aead_encrypt key nonce plaintext aad = Some e.(env_ciphertext).
Proof.
  unfold seal_with_version, cipher_key. intros H.
  apply then_Ok in H as [H1 H]. apply then_Ok in H as [H2 H]. apply then_Ok in H as [H3 H].
  apply rbind_Ok in H as ([salt nonce] & Hr & H). apply rbind_Ok in H as (key & Hk & H).
  apply then_Ok in H as [H4 H]. res_inv. bool_inv. eexists salt, nonce, key, _. simpl.
  repeat split; done || lia.
Qed.

Lemma seal_good_header random plaintext password context kdf v e :
  known_version v -> seal_with_version random plaintext password context kdf v = Ok e ->
  good_header e.(env_header) /\ e.(env_header).(eh_envelope_version) = v
  /\ len e.(env_ciphertext) <= max_plaintext_bytes v + AEAD_TAG_BYTES.
Proof.
  intros Hv (salt & nonce & key & aad & _ & _ & Hh & _ & _ & Hlen & Hkdf & _ & _ & Hc)%seal_Ok.
  rewrite Hh. split; [done|]. split; [done|]. apply aead_size in Hc. lia.
Qed.

Lemma open_sealed random plaintext password context kdf v e :
  known_version v -> seal_with_version random plaintext password context kdf v = Ok e ->
  open e password context = Ok plaintext.
Proof.
  intros Hv Hs. destruct (seal_good_header _ _ _ _ _ _ _ Hv Hs) as (Hg & Hver & Hlen).
  apply seal_Ok in Hs as (salt & nonce & key & aad & _ & -> & Hh & Hp & Hctx & Hpl & _ & Hk & Hk32 & Hc).
  destruct e as [h c]. simpl in *. subst h. simpl in *.
  unfold open, cipher_key. simpl. rewrite Hp, Hctx. simpl.
  rewrite (proj2 (validate_envelope_header_Ok _ tt) Hg). simpl.
  assert (saturating_add u64_max (max_plaintext_bytes v) AEAD_TAG_BYTES
          = max_plaintext_bytes v + AEAD_TAG_BYTES) as -> by (by destruct Hv as [-> | ->]).
  rewrite (proj2 (N.ltb_ge _ _) Hlen). simpl. rewrite Hk. simpl. rewrite Hk32. simpl.
  rewrite (aead_round _ _ _ _ _ Hc). simpl. by rewrite (proj2 (N.ltb_ge _ _) Hpl).
Qed.

Lemma decode_encoded e b :
  good_header e.(env_header) ->
  len e.(env_ciphertext) <= max_plaintext_bytes e.(env_header).(eh_envelope_version) + AEAD_TAG_BYTES ->
  encode e = Ok b ->
  decode b = Ok e /\ peek_envelope_version b = Ok e.(env_header).(eh_envelope_version)
  /\ 0 < len b <= max_encoded_bytes e.(env_header).(eh_envelope_version).
Proof.
  intros Hg Hlen H. unfold encode, encode_unbounded in H. apply rbind_Ok in H as (b' & H & Hb).
  apply then_Ok in H as [_ H]. res_inv. bool_inv.
  assert (Hne : b <> []) by (by eapply json_nonempty).
  assert (is_empty b = false) as He by (by destruct b).
  assert (Hv := proj1 (proj2 (proj2 Hg))).
  assert (max_encoded_bytes (eh_envelope_version (env_header e)) <= MAX_ENVELOPE_BYTES) as Hmax
    by (by destruct Hv as [-> | ->]).
  assert (MAX_ENVELOPE_BYTES <? len b = false) as Hlt by (apply N.ltb_ge; lia).
  assert (max_encoded_bytes (eh_envelope_version (env_header e)) <? len b = false) as Hlt'
    by (apply N.ltb_ge; lia).
  assert (Hval := proj2 (validate_envelope_header_Ok _ tt) Hg).
  split; [|split].
  - unfold decode, envelope_deserialize. rewrite He, Hlt. simpl. rewrite (json_round _ _ _ H).
    unfold serialize_ciphertext. rewrite ciphertext_fits by done. simpl. rewrite Hval. simpl.
    rewrite Hlt'. simpl. by destruct e.
  - unfold peek_envelope_version. rewrite He, Hlt. simpl. rewrite (json_header_round _ _ _ H). simpl.
    rewrite Hval. simpl. by rewrite Hlt'.
  - split; [|lia]. destruct b; [done|]. unfold len. simpl. lia.
Qed.
End laws.


(** ** Theorems *)

(** C36 A sealed envelope opens.  Sealing with a known version and encoding gives
    bytes within that version's bound from which decoding recovers the very
    envelope, peeking reads its version, and opening it with the same password
    and context returns the plaintext: the bounds the reader enforces never
    refuse what the writer wrote. *)
Theorem sealed_envelopes_open {code : CryptoCode} {laws : CryptoLaws code} random plaintext password
    context kdf v e b (Hversion : known_version v)
    (Hseal : seal_with_version random plaintext password context kdf v = Ok e)
    (Hencode : encode e = Ok b) :
  decode b = Ok e /\ peek_envelope_version b = Ok v /\ 0 < len b <= max_encoded_bytes v
  /\ open e password context = Ok plaintext.
Proof.
  destruct (seal_good_header _ _ _ _ _ _ _ Hversion Hseal) as (Hg & Hv & Hlen).
  destruct (decode_encoded e b Hg) as (Hd & Hp & Hb); [by rewrite Hv|done|].
  rewrite Hv in Hp, Hb. split; [done|]. split; [done|]. split; [done|].
  by eapply open_sealed.
Qed.

(** ** An instance of the external code *)

#[global] Instance KdfParameters_eq_dec : EqDecision KdfParameters.
Proof. solve_decision. Defined.
#[global] Instance EnvelopeHeader_eq_dec : EqDecision EnvelopeHeader.
Proof. solve_decision. Defined.
#[global] Instance RawCiphertext_eq_dec : EqDecision RawCiphertext.
Proof. solve_decision. Defined.

(** The first [n] bytes, filled up with zeros. *)
Definition fit (n : nat) (b : bytes) : bytes := take n (b ++ zeros n).

(** Fields one after the other, each byte behind a one, each field closed by a
    zero. *)
Fixpoint pack_field (b : bytes) : bytes :=
  match b with [] => [Byte.x00] | x :: b => Byte.x01 :: x :: pack_field b end.
Definition pack (fields : list bytes) : bytes := concat (map pack_field fields).
Fixpoint unpack (fuel : nat) (field : bytes) (b : bytes) : list bytes :=
  match fuel with
  | O => []
  | S fuel => match b with
              | Byte.x00 :: b => field :: unpack fuel [] b
              | _ :: x :: b => unpack fuel (field ++ [x]) b
              | _ => []
              end
  end.

Definition header_fields (h : EnvelopeHeader) : list bytes :=
  [h.(eh_magic); le_bytes 2 h.(eh_envelope_version); h.(eh_profile);
   le_bytes 4 h.(eh_kdf).(kdf_memory_kib); le_bytes 4 h.(eh_kdf).(kdf_time_cost);
   le_bytes 4 h.(eh_kdf).(kdf_parallelism); h.(eh_salt); h.(eh_nonce)].
Definition sample_to_json (h : EnvelopeHeader) (raw : RawCiphertext) : bytes :=
  pack (header_fields h ++ match raw with
                           | NumericArray b => [[Byte.x00]; b]
                           | Base64 b => [[Byte.x01]; b]
                           end).
Definition sample_from_json (b : bytes) : option (EnvelopeHeader * RawCiphertext) :=
  match unpack (length b) [] b with
  | [magic; version; profile; memory; time; parallelism; salt; nonce; [kind]; ciphertext] =>
      Some (mkEnvelopeHeader magic (of_le_bytes version) profile
              (mkKdfParameters (of_le_bytes memory) (of_le_bytes time) (of_le_bytes parallelism))
              salt nonce,
            match kind with Byte.x00 => NumericArray ciphertext | _ => Base64 ciphertext end)
  | _ => None
  end.

Definition sample_tag (key nonce m aad : bytes) : bytes :=
  fit 16 (fit 8 key ++ fit 4 nonce ++ fit 4 aad).

#[export] Instance sample_crypto : CryptoCode := {
  argon2_params _ := true;
  argon2id _ password salt := Some (fit 32 (password ++ salt));
  hkdf_expand salt material label := Some (fit 32 material);
  sha256 b := fit 32 (rev b);
  aead_encrypt key nonce m aad := Some (m ++ sample_tag key nonce m aad);
  aead_decrypt key nonce c aad :=
    let m := take (length c - 16) c in
    if bool_decide (c = m ++ sample_tag key nonce m aad) then Some m else None;
  standard_encode := b64_padded;
  standard_decode := b64_unpadded;
  envelope_to_json h raw :=
    let b := sample_to_json h raw in
    if bool_decide (sample_from_json b = Some (h, raw)) && negb (is_empty b) then Some b else None;
  envelope_from_json := sample_from_json;
  header_from_json b := fst <$> sample_from_json b;
}.

Lemma sample_tag_len key nonce m aad : length (sample_tag key nonce m aad) = 16%nat.
Proof. unfold sample_tag, fit, zeros. rewrite length_take, length_app, length_replicate. lia. Qed.

#[export] Instance sample_crypto_laws : CryptoLaws sample_crypto.
Proof.
  split; simpl.
  - intros key nonce m aad c [= <-]. rewrite length_app, sample_tag_len.
    replace (length m + 16 - 16)%nat with (length m) by lia.
    rewrite take_app_length, bool_decide_eq_true_2; done.
  - intros key nonce m aad c [= <-]. rewrite len_app. unfold len at 2. by rewrite sample_tag_len.
  - apply b64_padded_round.
  - apply b64_padded_size.
  - intros h raw b. case_bool_decide as E; simpl; [|done]. by destruct (negb _); [intros [= <-]|].
  - intros h raw b. case_bool_decide as E; simpl; [|done].
    destruct (negb _); [intros [= <-]|done]. by rewrite E.
  - intros h raw b. destruct (bool_decide _ && _) eqn:E; [|done]. bool_inv. intros [= <-].
    by destruct (sample_to_json h raw).
Qed.

(** ** Witnesses *)

Definition sample_random : option (bytes * bytes) := Some (zeros 32, zeros 12).
Definition sample_envelope : EncryptedEnvelope :=
  match seal sample_random (str "state") (str "password") (str "context") DOM_CONTINUITY with
  | Ok e => e
  | Err _ => mkEncryptedEnvelope (mkEnvelopeHeader [] 0 [] DOM_CONTINUITY [] []) []
  end.
Definition sample_encoded : bytes := match encode sample_envelope with Ok b => b | Err _ => [] end.

Lemma sealed_envelopes_open_witness :
  decode sample_encoded = Ok sample_envelope
  /\ open sample_envelope (str "password") (str "context") = Ok (str "state")
  /\ open sample_envelope (str "wrong") (str "context") = Err CrErr.AuthenticationFailed.
Proof.
  destruct (sealed_envelopes_open sample_random (str "state") (str "password") (str "context")
              DOM_CONTINUITY ENVELOPE_VERSION sample_envelope sample_encoded) as (Hd & _ & _ & Ho).
  - left. reflexivity.
  - vm_compute. reflexivity.
  - vm_compute. reflexivity.
  - split; [exact Hd|]. split; [exact Ho|]. vm_compute. reflexivity.
Defined.
