(* ===== verification/DomainTypes.v ===== *)
(** * The domain data types (crates/dom-wallet-domain/src/lib.rs)

    The structs and enums of the canonical wallet state.  An enum lives in a
    small module of its own, so that its constructors keep their Rust names
    ([TransactionLifecycle::Draft] is [L.Draft]); the fields of a struct carry
    a short prefix of the struct's name. *)

From S2P Require Import Prelude.

(** ** Constants *)

Definition MODEL_VERSION : N := 1.
Definition SECRET_PROFILE_VERSION : N := 1.
Definition TRANSACTION_EXPOSURE_VERSION : N := 1.
Definition SCRIPTLESS_FUNDING_RESERVATION_VERSION : N := 1.
Definition SCRIPTLESS_PAYOUT_RESERVATION_VERSION : N := 1.
Definition SCRIPTLESS_PARTICIPANT_COUNT_V1 : N := 2.
Definition MAX_ACCOUNTS : N := 64.
Definition MAX_OUTPUTS : N := 100000.

(** ** Networks, cursors and scan targets *)

Module Net.
Inductive Network := PrivateTestnet | PublicTestnet | Mainnet.
#[global] Instance Network_eq_dec : EqDecision Network.
Proof. solve_decision. Defined.

(** [impl Display for Network] *)
Definition display (n : Network) : string :=
  match n with
  | PrivateTestnet => "PRIVATE_TESTNET"
  | PublicTestnet => "PUBLIC_TESTNET"
  | Mainnet => "MAINNET"
  end.
End Net.

Record NetworkIdentity := mkNetworkIdentity {
  ni_network : Net.Network;
  ni_chain_id : bytes;
  ni_genesis_id : bytes;
}.
#[global] Instance NetworkIdentity_eq_dec : EqDecision NetworkIdentity.
Proof. pose proof Net.Network_eq_dec. solve_decision. Defined.

Definition NetworkIdentity_matches (a b : NetworkIdentity) : bool := bool_decide (a = b).

Record CanonicalCursor := mkCanonicalCursor {
  cur_height : N;
  cur_block_hash : bytes;
}.
#[global] Instance CanonicalCursor_eq_dec : EqDecision CanonicalCursor.
Proof. solve_decision. Defined.

Record ScanBounds := mkScanBounds {
  sb_start_height : N;
  sb_end_height : N;
  sb_max_pages : N;
  sb_max_records_per_page : N;
}.
#[global] Instance ScanBounds_eq_dec : EqDecision ScanBounds.
Proof. solve_decision. Defined.

Record ScanTarget := mkScanTarget {
  st_target_height : N;
  st_target_block_hash : bytes;
  st_source_identity : string;
  st_scan_bounds : ScanBounds;
  st_evidence_version : N;
}.
#[global] Instance ScanTarget_eq_dec : EqDecision ScanTarget.
Proof. solve_decision. Defined.

Definition ScanTarget_cursor (t : ScanTarget) : CanonicalCursor :=
  mkCanonicalCursor t.(st_target_height) t.(st_target_block_hash).

Module Sync.
Inductive SyncStatus :=
| Idle
| Synchronizing
| Synced
| Degraded (reason : string)
| RecoveryRequired (reason : string).
End Sync.

Record Account := mkAccount {
  acc_id : uuid;
  acc_label : string;
  acc_created_generation : N;
}.

(** ** Outputs *)

Module Out.
Inductive OutputState :=
| Confirmed
| Immature (required_height : N)
| PendingIncoming
| PendingOutgoing
| Locked
| Spent (spent_height : N).
#[global] Instance OutputState_eq_dec : EqDecision OutputState.
Proof. solve_decision. Defined.

(** [matches!(state, OutputState::Spent { .. })] *)
Definition is_spent (s : OutputState) : bool :=
  match s with Spent _ => true | _ => false end.
End Out.

Record OutputRecord := mkOutputRecord {
  out_id : uuid;
  out_account_id : uuid;
  out_commitment : option bytes;
  out_value : N;
  out_state : Out.OutputState;
  out_discovered_height : N;
  out_reserved_by : option uuid;
}.
#[global] Instance OutputRecord_fields : FieldList OutputRecord := fun r =>
  mkOutputRecord r.(out_id) r.(out_account_id) r.(out_commitment) r.(out_value)
    r.(out_state) r.(out_discovered_height) r.(out_reserved_by).
#[global] Instance OutputRecord_eq_dec : EqDecision OutputRecord.
Proof. pose proof Out.OutputState_eq_dec. solve_decision. Defined.

Module Own.
Inductive OutputOwnership :=
| KnownLocalOutput (o : OutputRecord)
| DeterministicallyRecoverableOutput (o : OutputRecord)
| NotOwnedOrUnprovable.
End Own.

(** ** Local transactions *)

Module L.
Inductive TransactionLifecycle :=
| Draft
| InputsReserved
| RequestExported
| RequestImported
| ResponsePrepared
| ResponseExported
| ResponseImported
| Finalized
| Submitting
| Submitted
| AcceptedNotRelayed
| InMempool
| Confirmed (height : N) (block_hash : bytes)
| Reorged
| RetransmitRequired
| Cancelled
| Failed
| ReconciliationRequired.
#[global] Instance TransactionLifecycle_eq_dec : EqDecision TransactionLifecycle.
Proof. solve_decision. Defined.
End L.

Module Exp.
Inductive BroadcastExposure :=
| NeverBroadcast
| SubmissionStarted
| PossiblyRelayed
| ObservedInMempool
| Confirmed.
#[global] Instance BroadcastExposure_eq_dec : EqDecision BroadcastExposure.
Proof. solve_decision. Defined.

(** [derive(PartialOrd, Ord)]: the declaration order of the variants. *)
Definition rank (e : BroadcastExposure) : N :=
  match e with
  | NeverBroadcast => 0
  | SubmissionStarted => 1
  | PossiblyRelayed => 2
  | ObservedInMempool => 3
  | Confirmed => 4
  end.
Definition le (a b : BroadcastExposure) : Prop := rank a <= rank b.
(** [a < b] *)
Definition ltb (a b : BroadcastExposure) : bool := rank a <? rank b.
(** [a.max(b)], [Ord::max]: the second argument when they are equal. *)
Definition max (a b : BroadcastExposure) : BroadcastExposure :=
  if rank b <? rank a then a else b.
End Exp.

Module Canc.
Inductive CancellationDecision :=
| ReleaseNeverBroadcastReservations
| DenyPossiblyBroadcast
| RequireReconciliation.
#[global] Instance CancellationDecision_eq_dec : EqDecision CancellationDecision.
Proof. solve_decision. Defined.
End Canc.

Module Ev.
Inductive TransactionTransitionEvidence :=
| LocalConstruction
| RecipientResponse
| Finalization
| SubmissionStarted
| SubmissionOutcome
| MempoolObservation
| ConfirmationEvidence
| ReorgEvidence
| ReconciliationEvidence
| Cancellation.
End Ev.

Module Role.
Inductive TransactionRole := Sender | Recipient.
#[global] Instance TransactionRole_eq_dec : EqDecision TransactionRole.
Proof. solve_decision. Defined.
End Role.

Module CancReason.
Inductive TransactionCancellationReason := Manual | ExpiredBeforeFinalization.
#[global] Instance TransactionCancellationReason_eq_dec :
  EqDecision TransactionCancellationReason.
Proof. solve_decision. Defined.
End CancReason.

Record PrivateTransactionContext := mkPrivateTransactionContext {
  ptc_sender_excess_blinding : option bytes;
  ptc_sender_nonce : option bytes;
  ptc_recipient_output_blinding : option bytes;
}.

Record PrivateOutputBlinding := mkPrivateOutputBlinding {
  pob_output_id : uuid;
  pob_blinding : bytes;
}.
#[global] Instance PrivateOutputBlinding_fields : FieldList PrivateOutputBlinding := fun r =>
  mkPrivateOutputBlinding r.(pob_output_id) r.(pob_blinding).

Record LocalTransactionIntent := mkLocalTransactionIntent {
  tx_id : uuid;
  tx_created_at_height : N;
  tx_created_at_unix_seconds : N;
  tx_cancellation_reason : option CancReason.TransactionCancellationReason;
  tx_cancelled_at_height : option N;
  tx_kernel_excess : bytes;
  tx_lifecycle : L.TransactionLifecycle;
  tx_submitted : bool;
  tx_exposure : Exp.BroadcastExposure;
  tx_slate_id : option uuid;
  tx_role : option Role.TransactionRole;
  tx_amount : N;
  tx_fee : N;
  tx_reserved_output_ids : list uuid;
  tx_request_bytes : bytes;
  tx_response_bytes : bytes;
  tx_finalized_transaction_bytes : bytes;
  tx_transaction_hash : option bytes;
  tx_attempt_count : N;
  tx_private_context : option PrivateTransactionContext;
  tx_recipient_output_id : option uuid;
  tx_change_output_id : option uuid;
  tx_expires_at_height : N;
}.
#[global] Instance LocalTransactionIntent_fields : FieldList LocalTransactionIntent := fun r =>
  mkLocalTransactionIntent r.(tx_id) r.(tx_created_at_height) r.(tx_created_at_unix_seconds)
    r.(tx_cancellation_reason) r.(tx_cancelled_at_height) r.(tx_kernel_excess) r.(tx_lifecycle)
    r.(tx_submitted) r.(tx_exposure) r.(tx_slate_id) r.(tx_role) r.(tx_amount) r.(tx_fee)
    r.(tx_reserved_output_ids) r.(tx_request_bytes) r.(tx_response_bytes)
    r.(tx_finalized_transaction_bytes) r.(tx_transaction_hash) r.(tx_attempt_count)
    r.(tx_private_context) r.(tx_recipient_output_id) r.(tx_change_output_id)
    r.(tx_expires_at_height).

(** ** Scriptless funding reservations *)

Record PrivateScriptlessFundingContext := mkPrivateScriptlessFundingContext {
  fctx_wallet_excess_contribution : bytes;
  fctx_change_output_blinding : option bytes;
}.

Module FundSt.
Inductive ScriptlessFundingReservationState :=
| Reserved
| Prepared
| SessionBound
| Exported
| TemplateBound
| AbandonedRetained
| Cancelled.
#[global] Instance ScriptlessFundingReservationState_eq_dec :
  EqDecision ScriptlessFundingReservationState.
Proof. solve_decision. Defined.

Definition retains_inputs (s : ScriptlessFundingReservationState) : bool :=
  negb (bool_decide (s = Cancelled)).
Definition may_cancel_and_release (s : ScriptlessFundingReservationState) : bool :=
  match s with Reserved | Prepared => true | _ => false end.
End FundSt.

Record ScriptlessTemplateParticipantBindingV1 := mkTemplateParticipantBinding {
  tpb_ordered_offset_contributions : list bytes;
  tpb_ordered_kernel_excess_points : list bytes;
}.
#[global] Instance ScriptlessTemplateParticipantBindingV1_eq_dec :
  EqDecision ScriptlessTemplateParticipantBindingV1.
Proof. solve_decision. Defined.

(** The array arguments [[[u8; 32]; 2]] and [[[u8; 33]; 2]] are pairs. *)
Definition ScriptlessTemplateParticipantBindingV1_new
    (ordered_offset_contributions ordered_kernel_excess_points : bytes * bytes)
    : ScriptlessTemplateParticipantBindingV1 :=
  mkTemplateParticipantBinding
    [ordered_offset_contributions.1; ordered_offset_contributions.2]
    [ordered_kernel_excess_points.1; ordered_kernel_excess_points.2].

(** [contribution.iter().any(|b| *b != 0)] *)
Definition any_nonzero (b : bytes) : bool :=
  existsb (fun x => negb (bool_decide (x = Byte.x00))) b.

Definition participants_structurally_valid (p : ScriptlessTemplateParticipantBindingV1) : bool :=
  (len p.(tpb_ordered_offset_contributions) =? SCRIPTLESS_PARTICIPANT_COUNT_V1)
  && (len p.(tpb_ordered_kernel_excess_points) =? SCRIPTLESS_PARTICIPANT_COUNT_V1)
  && forallb (fun c => (len c =? 32) && any_nonzero c) p.(tpb_ordered_offset_contributions)
  && forallb (fun c => (len c =? 33) && any_nonzero c) p.(tpb_ordered_kernel_excess_points).

Record ScriptlessFundingReservation := mkScriptlessFundingReservation {
  fr_version : N;
  fr_id : uuid;
  fr_session_id : bytes;
  fr_shared_output_commitment : bytes;
  fr_created_at_height : N;
  fr_local_debit_noms : N;
  fr_funding_fee_noms : N;
  fr_expected_input_count : N;
  fr_expected_output_count : N;
  fr_reserved_output_ids : list uuid;
  fr_input_commitments : list bytes;
  fr_change_value_noms : N;
  fr_change_derivation_index : option N;
  fr_change_output_id : option uuid;
  fr_change_commitment : option bytes;
  fr_change_output_bytes : bytes;
  fr_offset_contribution : option bytes;
  fr_wallet_excess_public_key : bytes;
  fr_template_hash : option bytes;
  fr_session_share_binding_digest : option bytes;
  fr_participant_position : option N;
  fr_template_participants : option ScriptlessTemplateParticipantBindingV1;
  fr_private_context : option PrivateScriptlessFundingContext;
  fr_state : FundSt.ScriptlessFundingReservationState;
}.
#[global] Instance ScriptlessFundingReservation_fields :
  FieldList ScriptlessFundingReservation := fun r =>
  mkScriptlessFundingReservation r.(fr_version) r.(fr_id) r.(fr_session_id)
    r.(fr_shared_output_commitment) r.(fr_created_at_height) r.(fr_local_debit_noms)
    r.(fr_funding_fee_noms) r.(fr_expected_input_count) r.(fr_expected_output_count)
    r.(fr_reserved_output_ids) r.(fr_input_commitments) r.(fr_change_value_noms)
    r.(fr_change_derivation_index) r.(fr_change_output_id) r.(fr_change_commitment)
    r.(fr_change_output_bytes) r.(fr_offset_contribution) r.(fr_wallet_excess_public_key)
    r.(fr_template_hash) r.(fr_session_share_binding_digest) r.(fr_participant_position)
    r.(fr_template_participants) r.(fr_private_context) r.(fr_state).

(** ** Scriptless payout reservations *)

Record PrivateScriptlessPayoutContext := mkPrivateScriptlessPayoutContext {
  pctx_payout_excess_contribution : bytes;
  pctx_output_blinding : option bytes;
}.

(** [is_structurally_valid] of the funding and of the payout context: the same
    condition on (contribution, output blinding). *)
Definition context_structurally_valid (contribution : bytes) (blinding : option bytes)
    (expects_output : bool) : bool :=
  negb (bool_decide (contribution = zeros 32))
  && Bool.eqb (bool_decide (is_Some blinding)) expects_output
  && match blinding with Some b => negb (bool_decide (b = zeros 32)) | None => true end.
Definition funding_context_structurally_valid (c : PrivateScriptlessFundingContext)
    (expects_change : bool) : bool :=
  context_structurally_valid c.(fctx_wallet_excess_contribution)
    c.(fctx_change_output_blinding) expects_change.
Definition payout_context_structurally_valid (c : PrivateScriptlessPayoutContext)
    (expects_output : bool) : bool :=
  context_structurally_valid c.(pctx_payout_excess_contribution)
    c.(pctx_output_blinding) expects_output.

Module PayRole.
Inductive ScriptlessPayoutRoleV1 := Claim | Refund.
#[global] Instance ScriptlessPayoutRoleV1_eq_dec : EqDecision ScriptlessPayoutRoleV1.
Proof. solve_decision. Defined.
#[global] Program Instance ScriptlessPayoutRoleV1_countable :
  Countable ScriptlessPayoutRoleV1 :=
  inj_countable' (fun r => match r with Claim => true | Refund => false end)
                 (fun b : bool => if b then Claim else Refund) _.
Next Obligation. by intros []. Qed.
End PayRole.

Module PaySt.
Inductive ScriptlessPayoutReservationState :=
| Reserved
| Prepared
| SessionBound
| ComponentsExposed
| TemplateBound
| AbandonedRetained
| Cancelled.
#[global] Instance ScriptlessPayoutReservationState_eq_dec :
  EqDecision ScriptlessPayoutReservationState.
Proof. solve_decision. Defined.

Definition has_prepared_material (s : ScriptlessPayoutReservationState) : bool :=
  match s with
  | Prepared | SessionBound | ComponentsExposed | TemplateBound | AbandonedRetained => true
  | _ => false
  end.
Definition may_cancel_unexposed (s : ScriptlessPayoutReservationState) : bool :=
  match s with Reserved | Prepared => true | _ => false end.
End PaySt.

Record ScriptlessPayoutReservation := mkScriptlessPayoutReservation {
  pr_version : N;
  pr_id : uuid;
  pr_session_id : bytes;
  pr_role : PayRole.ScriptlessPayoutRoleV1;
  pr_created_at_height : N;
  pr_shared_output_commitment : bytes;
  pr_payout_value_noms : N;
  pr_kernel_fee_noms : N;
  pr_expected_output_count : N;
  pr_refund_lock_height : N;
  pr_output_id : option uuid;
  pr_derivation_index : option N;
  pr_output_commitment : option bytes;
  pr_output_bytes : bytes;
  pr_offset_contribution : option bytes;
  pr_payout_excess_public_key : bytes;
  pr_template_hash : option bytes;
  pr_session_share_binding_digest : option bytes;
  pr_participant_position : option N;
  pr_template_participants : option ScriptlessTemplateParticipantBindingV1;
  pr_private_context : option PrivateScriptlessPayoutContext;
  pr_state : PaySt.ScriptlessPayoutReservationState;
}.
#[global] Instance ScriptlessPayoutReservation_fields :
  FieldList ScriptlessPayoutReservation := fun r =>
  mkScriptlessPayoutReservation r.(pr_version) r.(pr_id) r.(pr_session_id) r.(pr_role)
    r.(pr_created_at_height) r.(pr_shared_output_commitment) r.(pr_payout_value_noms)
    r.(pr_kernel_fee_noms) r.(pr_expected_output_count) r.(pr_refund_lock_height)
    r.(pr_output_id) r.(pr_derivation_index) r.(pr_output_commitment) r.(pr_output_bytes)
    r.(pr_offset_contribution) r.(pr_payout_excess_public_key) r.(pr_template_hash)
    r.(pr_session_share_binding_digest) r.(pr_participant_position)
    r.(pr_template_participants) r.(pr_private_context) r.(pr_state).

(** ** Rescan plans *)

Module Phase.
Inductive RescanPhase :=
| Prepared
| Scanning
| ValidatingTarget
| ReadyToActivate
| Activating
| Complete
| Invalidated
| Failed.
#[global] Instance RescanPhase_eq_dec : EqDecision RescanPhase.
Proof. solve_decision. Defined.
End Phase.

Record RescanPlan := mkRescanPlan {
  rp_version : N;
  rp_plan_id : uuid;
  rp_wallet_id : uuid;
  rp_identity : NetworkIdentity;
  rp_source_identity : string;
  rp_target : ScanTarget;
  rp_recovery_start_height : N;
  rp_next_page : N;
  rp_next_page_height : N;
  rp_provisional_generation_id : N;
  rp_retained_canonical_generation_id : N;
  rp_phase : Phase.RescanPhase;
  rp_provisional_outputs : list OutputRecord;
  rp_provisional_transactions : list LocalTransactionIntent;
}.
#[global] Instance RescanPlan_fields : FieldList RescanPlan := fun r =>
  mkRescanPlan r.(rp_version) r.(rp_plan_id) r.(rp_wallet_id) r.(rp_identity)
    r.(rp_source_identity) r.(rp_target) r.(rp_recovery_start_height) r.(rp_next_page)
    r.(rp_next_page_height) r.(rp_provisional_generation_id)
    r.(rp_retained_canonical_generation_id) r.(rp_phase) r.(rp_provisional_outputs)
    r.(rp_provisional_transactions).

(** ** Balance, node configuration, recovery metadata *)

Record BalanceProjection := mkBalanceProjection {
  bal_confirmed : N;
  bal_immature : N;
  bal_pending_incoming : N;
  bal_pending_outgoing : N;
  bal_locked : N;
  bal_spendable : N;
  bal_total : N;
}.
#[global] Instance BalanceProjection_fields : FieldList BalanceProjection := fun r =>
  mkBalanceProjection r.(bal_confirmed) r.(bal_immature) r.(bal_pending_incoming)
    r.(bal_pending_outgoing) r.(bal_locked) r.(bal_spendable) r.(bal_total).

Record NodeConfiguration := mkNodeConfiguration {
  nc_endpoint_url : string;
  nc_expected_identity : NetworkIdentity;
  nc_source_identity : string;
  nc_api_compatibility_version : N;
  nc_connect_timeout_ms : N;
  nc_request_timeout_ms : N;
  nc_poll_interval_ms : N;
  nc_retry_ceiling : N;
  nc_max_backoff_ms : N;
  nc_stable_success_threshold : N;
  nc_tls_required : bool;
  nc_credential_reference : option string;
}.

Record RedactedNodeConfiguration := mkRedactedNodeConfiguration {
  rnc_endpoint_url : string;
  rnc_expected_network : Net.Network;
  rnc_source_identity : string;
  rnc_api_compatibility_version : N;
  rnc_tls_required : bool;
  rnc_has_credential_reference : bool;
}.

Definition RECOVERY_SCHEME_BIP39_256_V1 : string := "BIP39_ENTROPY_256_V1".

Record RecoveryMetadata := mkRecoveryMetadata {
  rm_scheme : string;
  rm_phrase_confirmed : bool;
}.

Module ROC.
Inductive RecoveryOutputClass :=
| ReceiveRequest
| ReceiveSlate
| Change
| SelfTransfer
| Coinbase.
#[global] Instance RecoveryOutputClass_eq_dec : EqDecision RecoveryOutputClass.
Proof. solve_decision. Defined.
End ROC.

Record RecoveryAllocationFloors := mkRecoveryAllocationFloors {
  raf_received : N;
  raf_change : N;
  raf_self_transfer : N;
  raf_coinbase : N;
}.
#[global] Instance RecoveryAllocationFloors_fields : FieldList RecoveryAllocationFloors := fun r =>
  mkRecoveryAllocationFloors r.(raf_received) r.(raf_change) r.(raf_self_transfer)
    r.(raf_coinbase).

Module ROD.
Inductive RecoveredOutputDomain := Received | Change | SelfTransfer | Coinbase.
#[global] Instance RecoveredOutputDomain_eq_dec : EqDecision RecoveredOutputDomain.
Proof. solve_decision. Defined.
End ROD.

Record RecoveredOutputMetadata := mkRecoveredOutputMetadata {
  rom_output_id : uuid;
  rom_recovery_account : N;
  rom_derivation_index : N;
  rom_domain : ROD.RecoveredOutputDomain;
  rom_is_coinbase : bool;
  rom_block_hash : bytes;
  rom_output_position : N;
}.

Record RecoveredAccountMapping := mkRecoveredAccountMapping {
  ram_recovery_account : N;
  ram_account_id : uuid;
}.

Record RecoveryCanonicalBlock := mkRecoveryCanonicalBlock {
  rcb_height : N;
  rcb_block_hash : bytes;
  rcb_previous_block_hash : bytes;
  rcb_output_count : N;
  rcb_legacy_proof_only_outputs : N;
}.

Module Seed.
Inductive SeedRestoreStatus := InProgress | Complete.
#[global] Instance SeedRestoreStatus_eq_dec : EqDecision SeedRestoreStatus.
Proof. solve_decision. Defined.
End Seed.

Record ReservedRecoveryCoordinate := mkReservedRecoveryCoordinate {
  rrc_account : N;
  rrc_derivation_index : N;
  rrc_class : ROC.RecoveryOutputClass;
}.

Record MiningPreferences := mkMiningPreferences {
  mp_enabled : bool;
  mp_cpu_threads : N;
}.

(** ** Swap sessions *)

Definition MAX_SWAP_SESSIONS : N := 256.
Definition SWAP_LEG_GAP_LIMIT : N := 20.
Definition MAX_SWAP_LEG_INDEX : N := 100000.

Module Swap.
Inductive SwapSessionState :=
| IntentDraft
| IntentPublished
| QuoteAccepted
| RefundsArmed
| UserFunding
| UserFunded
| SolverFunded
| Claiming
| Settled
| CancelTimelockExpired
| CancelPublished
| Refunded
| SafelyAborted.
#[global] Instance SwapSessionState_eq_dec : EqDecision SwapSessionState.
Proof. solve_decision. Defined.
End Swap.

Record SwapSessionTransition := mkSwapSessionTransition {
  sst_state : Swap.SwapSessionState;
  sst_at_unix : N;
}.

Record SwapDepositWatch := mkSwapDepositWatch {
  sdw_address : string;
  sdw_minimum_base_units : N;
  sdw_maximum_base_units : N;
  sdw_required_confirmations : N;
  sdw_observed_confirmations : N;
  sdw_observed_base_units : N;
  sdw_insufficient_after_fees : bool;
}.

Record SwapAcceptedQuote := mkSwapAcceptedQuote {
  saq_solver_label : string;
  saq_output_base_units : N;
  saq_quote_fee_base_units : N;
  saq_dom_leg_amount_base_units : N;
  saq_estimated_seconds : N;
}.

Record SwapSessionRecord := mkSwapSessionRecord {
  ss_id : uuid;
  ss_created_unix : N;
  ss_updated_unix : N;
  ss_from_asset : string;
  ss_to_asset : string;
  ss_amount_base_units : N;
  ss_minimum_output_base_units : N;
  ss_fee_payment_asset : string;
  ss_fee_bps : N;
  ss_fee_noms : N;
  ss_leg_index : N;
  ss_state : Swap.SwapSessionState;
  ss_state_history : list SwapSessionTransition;
  ss_last_error : option string;
  ss_quote : option SwapAcceptedQuote;
  ss_deposit : option SwapDepositWatch;
  ss_refund_unlock_unix : option N;
  ss_user_leg_funding_txid : option string;
  ss_solver_leg_funding_txid : option string;
  ss_claim_txid : option string;
  ss_cancel_txid : option string;
  ss_refund_txid : option string;
}.
#[global] Instance SwapSessionRecord_fields : FieldList SwapSessionRecord := fun r =>
  mkSwapSessionRecord r.(ss_id) r.(ss_created_unix) r.(ss_updated_unix) r.(ss_from_asset)
    r.(ss_to_asset) r.(ss_amount_base_units) r.(ss_minimum_output_base_units)
    r.(ss_fee_payment_asset) r.(ss_fee_bps) r.(ss_fee_noms) r.(ss_leg_index) r.(ss_state)
    r.(ss_state_history) r.(ss_last_error) r.(ss_quote) r.(ss_deposit)
    r.(ss_refund_unlock_unix) r.(ss_user_leg_funding_txid) r.(ss_solver_leg_funding_txid)
    r.(ss_claim_txid) r.(ss_cancel_txid) r.(ss_refund_txid).

(** ** Errors *)

Module DErr.
Inductive DomainError :=
| UnsupportedVersion
| InvalidState
| InvalidNodeConfiguration
| TlsRequired
| IdentityMismatch
| InvalidScanTarget
| InvalidScanBounds
| ProvisionalTargetMismatch
| AllocationOverflow
| GenerationOverflow
| InvalidSwapTransition
| SwapSessionNotFound
| NonReuseFloorRegression
| InvalidTransactionIntent
| InvalidScriptlessFundingReservation
| InvalidScriptlessPayoutReservation
| InvalidTransactionTransition
| DuplicateKernelEvidence
| AmbiguousKernelEvidence
| InvalidRescanPlan
| RescanAlreadyActive
| InvalidRescanTransition
| InvalidRescanPage.
#[global] Instance DomainError_eq_dec : EqDecision DomainError.
Proof. solve_decision. Defined.
End DErr.

(** ** The wallet state *)

Record WalletState := mkWalletState {
  ws_model_version : N;
  ws_secret_profile_version : N;
  ws_wallet_id : uuid;
  ws_identity : NetworkIdentity;
  ws_generation : N;
  ws_default_account : Account;
  ws_allocation_floor : N;
  ws_non_reuse_floor : N;
  ws_cursor : option CanonicalCursor;
  ws_outputs : list OutputRecord;
  ws_private_output_blindings : list PrivateOutputBlinding;
  ws_transactions : list LocalTransactionIntent;
  ws_scriptless_funding_reservations : list ScriptlessFundingReservation;
  ws_scriptless_payout_reservations : list ScriptlessPayoutReservation;
  ws_transaction_exposure_version : N;
  ws_sync_status : Sync.SyncStatus;
  ws_provisional_target : option ScanTarget;
  ws_rescan_plan : option RescanPlan;
  ws_recovery : option RecoveryMetadata;
  ws_recovery_allocation_floors : RecoveryAllocationFloors;
  ws_core_scan_cursor : option bytes;
  ws_recovery_canonical_blocks : list RecoveryCanonicalBlock;
  ws_recovered_accounts : list RecoveredAccountMapping;
  ws_recovered_output_metadata : list RecoveredOutputMetadata;
  ws_seed_restore_status : option Seed.SeedRestoreStatus;
  ws_legacy_proof_only_outputs : N;
  ws_recovery_scanned_blocks : N;
  ws_recovery_scanned_outputs : N;
  ws_node_configuration : NodeConfiguration;
  ws_mining_preferences : MiningPreferences;
  ws_swap_sessions : list SwapSessionRecord;
  ws_next_swap_leg_index : N;
  ws_root_material : bytes;
}.
#[global] Instance WalletState_fields : FieldList WalletState := fun r =>
  mkWalletState r.(ws_model_version) r.(ws_secret_profile_version) r.(ws_wallet_id)
    r.(ws_identity) r.(ws_generation) r.(ws_default_account) r.(ws_allocation_floor)
    r.(ws_non_reuse_floor) r.(ws_cursor) r.(ws_outputs) r.(ws_private_output_blindings)
    r.(ws_transactions) r.(ws_scriptless_funding_reservations)
    r.(ws_scriptless_payout_reservations) r.(ws_transaction_exposure_version)
    r.(ws_sync_status) r.(ws_provisional_target) r.(ws_rescan_plan) r.(ws_recovery)
    r.(ws_recovery_allocation_floors) r.(ws_core_scan_cursor)
    r.(ws_recovery_canonical_blocks) r.(ws_recovered_accounts)
    r.(ws_recovered_output_metadata) r.(ws_seed_restore_status)
    r.(ws_legacy_proof_only_outputs) r.(ws_recovery_scanned_blocks)
    r.(ws_recovery_scanned_outputs) r.(ws_node_configuration) r.(ws_mining_preferences)
    r.(ws_swap_sessions) r.(ws_next_swap_leg_index) r.(ws_root_material).

(** ** Decidable equality *)

#[global] Instance SyncStatus_eq_dec : EqDecision Sync.SyncStatus.
Proof. solve_decision. Defined.
#[global] Instance Account_eq_dec : EqDecision Account.
Proof. solve_decision. Defined.
#[global] Instance OutputOwnership_eq_dec : EqDecision Own.OutputOwnership.
Proof. solve_decision. Defined.
#[global] Instance TransactionTransitionEvidence_eq_dec : EqDecision Ev.TransactionTransitionEvidence.
Proof. solve_decision. Defined.
#[global] Instance PrivateTransactionContext_eq_dec : EqDecision PrivateTransactionContext.
Proof. solve_decision. Defined.
#[global] Instance PrivateOutputBlinding_eq_dec : EqDecision PrivateOutputBlinding.
Proof. solve_decision. Defined.
#[global] Instance LocalTransactionIntent_eq_dec : EqDecision LocalTransactionIntent.
Proof. solve_decision. Defined.
#[global] Instance PrivateScriptlessFundingContext_eq_dec : EqDecision PrivateScriptlessFundingContext.
Proof. solve_decision. Defined.
#[global] Instance ScriptlessFundingReservation_eq_dec : EqDecision ScriptlessFundingReservation.
Proof. solve_decision. Defined.
#[global] Instance PrivateScriptlessPayoutContext_eq_dec : EqDecision PrivateScriptlessPayoutContext.
Proof. solve_decision. Defined.
#[global] Instance ScriptlessPayoutReservation_eq_dec : EqDecision ScriptlessPayoutReservation.
Proof. solve_decision. Defined.
#[global] Instance RescanPlan_eq_dec : EqDecision RescanPlan.
Proof. solve_decision. Defined.
#[global] Instance BalanceProjection_eq_dec : EqDecision BalanceProjection.
Proof. solve_decision. Defined.
#[global] Instance NodeConfiguration_eq_dec : EqDecision NodeConfiguration.
Proof. solve_decision. Defined.
#[global] Instance RedactedNodeConfiguration_eq_dec : EqDecision RedactedNodeConfiguration.
Proof. solve_decision. Defined.
#[global] Instance RecoveryMetadata_eq_dec : EqDecision RecoveryMetadata.
Proof. solve_decision. Defined.
#[global] Instance RecoveryAllocationFloors_eq_dec : EqDecision RecoveryAllocationFloors.
Proof. solve_decision. Defined.
#[global] Instance RecoveredOutputMetadata_eq_dec : EqDecision RecoveredOutputMetadata.
Proof. solve_decision. Defined.
#[global] Instance RecoveredAccountMapping_eq_dec : EqDecision RecoveredAccountMapping.
Proof. solve_decision. Defined.
#[global] Instance RecoveryCanonicalBlock_eq_dec : EqDecision RecoveryCanonicalBlock.
Proof. solve_decision. Defined.
#[global] Instance ReservedRecoveryCoordinate_eq_dec : EqDecision ReservedRecoveryCoordinate.
Proof. solve_decision. Defined.
#[global] Instance MiningPreferences_eq_dec : EqDecision MiningPreferences.
Proof. solve_decision. Defined.
#[global] Instance SwapSessionTransition_eq_dec : EqDecision SwapSessionTransition.
Proof. solve_decision. Defined.
#[global] Instance SwapDepositWatch_eq_dec : EqDecision SwapDepositWatch.
Proof. solve_decision. Defined.
#[global] Instance SwapAcceptedQuote_eq_dec : EqDecision SwapAcceptedQuote.
Proof. solve_decision. Defined.
#[global] Instance SwapSessionRecord_eq_dec : EqDecision SwapSessionRecord.
Proof. solve_decision. Defined.
#[global] Instance WalletState_eq_dec : EqDecision WalletState.
Proof. solve_decision. Defined.
