(* ===== verification/Lifecycle.v ===== *)
(** * Transaction lifecycle and broadcast exposure

    [LocalTransactionIntent::transition] of crates/dom-wallet-domain/src/lib.rs
    with the exposure rules that decide whether a transaction may still be
    cancelled.  The transition table is also given as an inductive step
    relation, against which the executable one is proved. *)

From S2P Require Import Prelude DomainTypes.

(** ** Operations *)

Definition cancellation_decision (exposure : Exp.BroadcastExposure) : Canc.CancellationDecision :=
  match exposure with
  | Exp.NeverBroadcast => Canc.ReleaseNeverBroadcastReservations
  | Exp.SubmissionStarted | Exp.PossiblyRelayed | Exp.ObservedInMempool | Exp.Confirmed =>
      Canc.RequireReconciliation
  end.

Definition infer_legacy_exposure (lifecycle : L.TransactionLifecycle) (submitted : bool)
    : Exp.BroadcastExposure :=
  if submitted
     || match lifecycle with
        | L.Submitting | L.Submitted | L.AcceptedNotRelayed | L.InMempool
        | L.RetransmitRequired | L.ReconciliationRequired | L.Reorged | L.Failed
        | L.Confirmed _ _ => true
        | _ => false
        end
  then Exp.PossiblyRelayed
  else Exp.NeverBroadcast.

Definition minimum_current_exposure (lifecycle : L.TransactionLifecycle) (submitted : bool)
    : Exp.BroadcastExposure :=
  if submitted then Exp.PossiblyRelayed
  else match lifecycle with
       | L.Submitting => Exp.SubmissionStarted
       | L.Submitted | L.AcceptedNotRelayed | L.InMempool | L.Confirmed _ _ | L.Reorged
       | L.RetransmitRequired | L.Failed | L.ReconciliationRequired => Exp.PossiblyRelayed
       | _ => Exp.NeverBroadcast
       end.

(** The [matches!] table of [transition], for [self.lifecycle != next]. *)
Definition transition_table (cur next : L.TransactionLifecycle)
    (ev : Ev.TransactionTransitionEvidence) : bool :=
  match cur, next, ev with
  | L.Draft, L.InputsReserved, Ev.LocalConstruction => true
  | L.RequestImported, L.ResponsePrepared, Ev.RecipientResponse => true
  | (L.InputsReserved | L.RequestExported), L.ResponseImported, Ev.RecipientResponse => true
  | L.ResponseImported, L.Finalized, Ev.Finalization => true
  | (L.Finalized | L.RetransmitRequired), L.Submitting, Ev.SubmissionStarted => true
  | L.Submitting,
    (L.Submitted | L.AcceptedNotRelayed | L.InMempool | L.RetransmitRequired | L.Failed
    | L.ReconciliationRequired), Ev.SubmissionOutcome => true
  | (L.Submitting | L.Submitted | L.AcceptedNotRelayed | L.RetransmitRequired
    | L.ReconciliationRequired | L.Reorged), L.InMempool, Ev.MempoolObservation => true
  | (L.ResponsePrepared | L.ResponseExported | L.Submitting | L.Submitted
    | L.AcceptedNotRelayed | L.InMempool | L.RetransmitRequired | L.ReconciliationRequired
    | L.Reorged), L.Confirmed _ _, Ev.ConfirmationEvidence => true
  | L.Confirmed _ _, L.Reorged, Ev.ReorgEvidence => true
  | (L.Submitting | L.Submitted | L.AcceptedNotRelayed | L.InMempool | L.Confirmed _ _
    | L.Reorged | L.RetransmitRequired | L.Failed), L.ReconciliationRequired,
    Ev.ReconciliationEvidence => true
  | (L.Draft | L.InputsReserved | L.RequestExported | L.RequestImported | L.ResponsePrepared
    | L.ResponseExported | L.ResponseImported | L.Finalized | L.Failed), L.Cancelled,
    Ev.Cancellation => true
  | _, _, _ => false
  end.

Definition is_cancelled (l : L.TransactionLifecycle) : bool :=
  match l with L.Cancelled => true | _ => false end.

(** [matches!(lifecycle, TransactionLifecycle::Confirmed { .. })] *)
Definition is_confirmed (l : L.TransactionLifecycle) : bool :=
  match l with L.Confirmed _ _ => true | _ => false end.

Definition observed_exposure (ev : Ev.TransactionTransitionEvidence) : Exp.BroadcastExposure :=
  match ev with
  | Ev.SubmissionStarted => Exp.SubmissionStarted
  | Ev.SubmissionOutcome | Ev.ReconciliationEvidence | Ev.ReorgEvidence => Exp.PossiblyRelayed
  | Ev.MempoolObservation => Exp.ObservedInMempool
  | Ev.ConfirmationEvidence => Exp.Confirmed
  | Ev.LocalConstruction | Ev.RecipientResponse | Ev.Finalization | Ev.Cancellation =>
      Exp.NeverBroadcast
  end.

(** [LocalTransactionIntent::transition]: it returns before any assignment
    when it refuses, so a refusal leaves [self] as it was. *)
Definition transition (self : LocalTransactionIntent) (next : L.TransactionLifecycle)
    (ev : Ev.TransactionTransitionEvidence) : result DErr.DomainError LocalTransactionIntent :=
  let allowed := if bool_decide (self.(tx_lifecycle) = next) then true
                 else transition_table self.(tx_lifecycle) next ev in
  if negb allowed || is_cancelled self.(tx_lifecycle) && negb (bool_decide (next = L.Cancelled))
  then Err DErr.InvalidTransactionTransition
  else Ok (self <| tx_exposure ::= fun e => Exp.max e (observed_exposure ev) |>
                <| tx_lifecycle := next |>).

(** The same as a method on [&mut self]. *)
Definition transition_mut (next : L.TransactionLifecycle) (ev : Ev.TransactionTransitionEvidence)
    : method LocalTransactionIntent DErr.DomainError unit := fun self =>
  match transition self next ev with
  | Ok self' => (self', Ok tt)
  | Err e => (self, Err e)
  end.

(** ** The transition table as a step relation *)

Inductive lifecycle_step :
  L.TransactionLifecycle -> Ev.TransactionTransitionEvidence -> L.TransactionLifecycle -> Prop :=
| step_stay l ev : lifecycle_step l ev l
| step_reserve : lifecycle_step L.Draft Ev.LocalConstruction L.InputsReserved
| step_respond : lifecycle_step L.RequestImported Ev.RecipientResponse L.ResponsePrepared
| step_import l : l = L.InputsReserved \/ l = L.RequestExported ->
    lifecycle_step l Ev.RecipientResponse L.ResponseImported
| step_finalize : lifecycle_step L.ResponseImported Ev.Finalization L.Finalized
| step_submit l : l = L.Finalized \/ l = L.RetransmitRequired ->
    lifecycle_step l Ev.SubmissionStarted L.Submitting
| step_outcome l :
    l ∈ [L.Submitted; L.AcceptedNotRelayed; L.InMempool; L.RetransmitRequired; L.Failed;
         L.ReconciliationRequired] ->
    lifecycle_step L.Submitting Ev.SubmissionOutcome l
| step_mempool l :
    l ∈ [L.Submitting; L.Submitted; L.AcceptedNotRelayed; L.RetransmitRequired;
         L.ReconciliationRequired; L.Reorged] ->
    lifecycle_step l Ev.MempoolObservation L.InMempool
| step_confirm l h b :
    l ∈ [L.ResponsePrepared; L.ResponseExported; L.Submitting; L.Submitted;
         L.AcceptedNotRelayed; L.InMempool; L.RetransmitRequired; L.ReconciliationRequired;
         L.Reorged] ->
    lifecycle_step l Ev.ConfirmationEvidence (L.Confirmed h b)
| step_reorg h b : lifecycle_step (L.Confirmed h b) Ev.ReorgEvidence L.Reorged
| step_reconcile_confirmed h b :
    lifecycle_step (L.Confirmed h b) Ev.ReconciliationEvidence L.ReconciliationRequired
| step_reconcile l :
    l ∈ [L.Submitting; L.Submitted; L.AcceptedNotRelayed; L.InMempool; L.Reorged;
         L.RetransmitRequired; L.Failed] ->
    lifecycle_step l Ev.ReconciliationEvidence L.ReconciliationRequired
| step_cancel l :
    l ∈ [L.Draft; L.InputsReserved; L.RequestExported; L.RequestImported; L.ResponsePrepared;
         L.ResponseExported; L.ResponseImported; L.Finalized; L.Failed] ->
    lifecycle_step l Ev.Cancellation L.Cancelled.

(** One successful [transition] call. *)
Definition tx_step (tx tx' : LocalTransactionIntent) : Prop :=
  exists next ev, transition tx next ev = Ok tx'.

(** ** Lemmas *)

Lemma exp_max_rank a b : Exp.rank (Exp.max a b) = N.max (Exp.rank a) (Exp.rank b).
Proof.
  unfold Exp.max. destruct (Exp.rank b <? Exp.rank a) eqn:E; bool_inv; lia.
Qed.

Lemma transition_inv self next ev self' :
  transition self next ev = Ok self' ->
  self' = self <| tx_exposure ::= fun e => Exp.max e (observed_exposure ev) |>
               <| tx_lifecycle := next |>
  /\ (self.(tx_lifecycle) = next \/ transition_table self.(tx_lifecycle) next ev = true)
  /\ (self.(tx_lifecycle) = L.Cancelled -> next = L.Cancelled).
Proof.
  unfold transition. intros H.
  destruct (_ || _) eqn:E; [done|]. injection H as <-. bool_inv.
  split; [done|]. split.
  - destruct (bool_decide (tx_lifecycle self = next)) eqn:Eq; bool_inv; auto.
  - intros Hc.
    destruct (decide (next = L.Cancelled)) as [|Hn]; [done|].
    rewrite Hc, bool_decide_eq_false_2 in * by done. done.
Qed.

Lemma transition_exposure self next ev self' :
  transition self next ev = Ok self' ->
  Exp.rank self'.(tx_exposure)
  = N.max (Exp.rank self.(tx_exposure)) (Exp.rank (observed_exposure ev)).
Proof. intros (-> & _)%transition_inv. apply exp_max_rank. Qed.

Lemma transition_lifecycle self next ev self' :
  transition self next ev = Ok self' -> self'.(tx_lifecycle) = next.
Proof. by intros (-> & _)%transition_inv. Qed.

(** A transition writes the lifecycle and the exposure and nothing else. *)
Lemma transition_frame self next ev self' :
  transition self next ev = Ok self' ->
  self' <| tx_exposure := self.(tx_exposure) |> <| tx_lifecycle := self.(tx_lifecycle) |> = self.
Proof. intros (-> & _)%transition_inv. by destruct self. Qed.

Lemma transition_table_step cur next ev :
  transition_table cur next ev = true -> lifecycle_step cur ev next.
Proof.
  destruct cur, next; destruct ev; simpl; intros H; try discriminate H;
    eauto using lifecycle_step;
    (apply step_outcome || apply step_mempool || apply step_confirm
     || apply step_reconcile || apply step_cancel); set_solver.
Qed.

Lemma lifecycle_step_table cur next ev :
  lifecycle_step cur ev next -> cur = next \/ transition_table cur next ev = true.
Proof.
  intros H; destruct H;
    repeat match goal with
    | H : _ ∈ _ |- _ => apply elem_of_cons in H as [->|H]
    | H : _ ∈ [] |- _ => by apply not_elem_of_nil in H
    | H : _ \/ _ |- _ => destruct H as [->| ->]
    end; auto.
Qed.

Lemma lifecycle_step_cancelled ev next :
  lifecycle_step L.Cancelled ev next -> next = L.Cancelled.
Proof.
  intros H%lifecycle_step_table. destruct H as [<-|H]; [done|]. by destruct next, ev.
Qed.

Lemma transition_of_step self next ev :
  lifecycle_step self.(tx_lifecycle) ev next ->
  transition self next ev
  = Ok (self <| tx_exposure ::= fun e => Exp.max e (observed_exposure ev) |>
             <| tx_lifecycle := next |>).
Proof.
  intros Hs. unfold transition.
  assert ((if bool_decide (tx_lifecycle self = next) then true
           else transition_table (tx_lifecycle self) next ev) = true) as ->.
  { destruct (lifecycle_step_table _ _ _ Hs) as [Heq|Ht].
    - by rewrite bool_decide_eq_true_2.
    - by rewrite Ht; case_bool_decide. }
  simpl. destruct (is_cancelled (tx_lifecycle self)) eqn:Hc; [|done].
  destruct (tx_lifecycle self); try done.
  by rewrite (lifecycle_step_cancelled _ _ Hs).
Qed.

Lemma transition_mut_of_table self next ev :
  transition_table self.(tx_lifecycle) next ev = true ->
  transition_mut next ev self
  = (self <| tx_exposure ::= fun e => Exp.max e (observed_exposure ev) |>
          <| tx_lifecycle := next |>, Ok tt).
Proof.
  intros H%transition_table_step. unfold transition_mut. by rewrite transition_of_step.
Qed.

#[export] Hint Resolve transition_exposure transition_lifecycle : wallet.

(** The exposure a persisted transaction must at least record; the check of
    [WalletState::validate]. *)
Definition exposure_covers (tx : LocalTransactionIntent) : Prop :=
  Exp.ltb tx.(tx_exposure) (minimum_current_exposure tx.(tx_lifecycle) tx.(tx_submitted)) = false.

Lemma observed_covers_entry cur ev next :
  lifecycle_step cur ev next ->
  cur = next
  \/ Exp.rank (minimum_current_exposure next false) <= Exp.rank (observed_exposure ev).
Proof.
  intros H; destruct H; simpl; auto; right;
    repeat match goal with
    | H : _ ∈ _ |- _ => apply elem_of_cons in H as [->|H]
    | H : _ ∈ [] |- _ => by apply not_elem_of_nil in H
    end; simpl; lia.
Qed.

Lemma transition_is_step self next ev self' :
  transition self next ev = Ok self' -> lifecycle_step self.(tx_lifecycle) ev next.
Proof.
  intros (_ & [<-|H] & _)%transition_inv; [constructor|by apply transition_table_step].
Qed.

Lemma tx_step_exposure tx tx' :
  tx_step tx tx' -> Exp.rank tx.(tx_exposure) <= Exp.rank tx'.(tx_exposure).
Proof. intros (next & ev & ->%transition_exposure). lia. Qed.

Lemma tx_step_submitted tx tx' : tx_step tx tx' -> tx'.(tx_submitted) = tx.(tx_submitted).
Proof. by intros (next & ev & (-> & _)%transition_inv). Qed.

Lemma tx_step_covers tx tx' : tx_step tx tx' -> exposure_covers tx -> exposure_covers tx'.
Proof.
  intros Hs Hc. pose proof (tx_step_exposure _ _ Hs) as Hm.
  pose proof (tx_step_submitted _ _ Hs) as Hsub.
  destruct Hs as (next & ev & H). unfold exposure_covers, Exp.ltb in *.
  rewrite (transition_lifecycle _ _ _ _ H), Hsub.
  rewrite N.ltb_ge in *.
  destruct (observed_covers_entry _ _ _ (transition_is_step _ _ _ _ H)) as [<-|He]; [lia|].
  apply transition_exposure in H.
  destruct (tx_submitted tx); simpl in *; [unfold minimum_current_exposure in *; simpl in *; lia|].
  lia.
Qed.

Lemma tx_run_exposure tx tx' :
  rtc tx_step tx tx' -> Exp.rank tx.(tx_exposure) <= Exp.rank tx'.(tx_exposure).
Proof.
  induction 1 as [|a b c H _ IH]; [lia|]. apply tx_step_exposure in H. lia.
Qed.

Lemma tx_run_covers tx tx' : rtc tx_step tx tx' -> exposure_covers tx -> exposure_covers tx'.
Proof. induction 1; eauto using tx_step_covers. Qed.

Lemma exposure_rank_zero e : Exp.rank e = 0 <-> e = Exp.NeverBroadcast.
Proof. by destruct e. Qed.

Lemma release_iff_never e :
  cancellation_decision e = Canc.ReleaseNeverBroadcastReservations <-> e = Exp.NeverBroadcast.
Proof. by destruct e. Qed.

Lemma minimum_never_infer l s :
  minimum_current_exposure l s = Exp.NeverBroadcast <->
  infer_legacy_exposure l s = Exp.NeverBroadcast.
Proof. by destruct l, s. Qed.

(** ** Properties *)

(** C17 [transition] implements the transition table: it succeeds exactly on the
    steps of [lifecycle_step], and then it moves to the requested lifecycle and
    raises the exposure to what the evidence implies, and writes nothing else;
    every other request is refused with [InvalidTransactionTransition]. *)
Theorem transition_refines_table self next ev :
  (forall self', transition self next ev = Ok self' <->
     lifecycle_step self.(tx_lifecycle) ev next
     /\ self' = self <| tx_exposure ::= fun e => Exp.max e (observed_exposure ev) |>
                     <| tx_lifecycle := next |>)
  /\ (forall e, transition self next ev = Err e <->
     ~ lifecycle_step self.(tx_lifecycle) ev next /\ e = DErr.InvalidTransactionTransition).
Proof.
  pose proof (transition_of_step self next ev) as Hok.
  assert (Herr : forall e, transition self next ev = Err e -> e = DErr.InvalidTransactionTransition).
  { intros e. unfold transition. destruct (_ || _); congruence. }
  split; intros x; split.
  - intros H. split; [by eapply transition_is_step|by apply transition_inv in H as (-> & _)].
  - intros (Hs & ->). by apply Hok.
  - intros H. split; [|auto]. intros Hs. by rewrite (Hok Hs) in H.
  - intros (Hn & ->). destruct (transition self next ev) as [t|e] eqn:E.
    + by destruct Hn; eapply transition_is_step.
    + by rewrite (Herr e).
Qed.

(** C18 Evidence is never forgotten: along every sequence of transitions the
    exposure only grows, and a transaction that records at least the exposure
    its lifecycle demands (the check of [WalletState::validate]) keeps doing so. *)
Theorem exposure_monotone_run tx tx' (Hrun : rtc tx_step tx tx') (Hcov : exposure_covers tx) :
  Exp.le tx.(tx_exposure) tx'.(tx_exposure) /\ exposure_covers tx'.
Proof. split; [by apply tx_run_exposure|by eapply tx_run_covers]. Qed.

(** C19 Reservations are released only for transactions that can never have left
    the wallet: when the exposure at the end of a run permits the release, no
    transaction on the way was in a lifecycle whose bytes may have reached the
    network. *)
Theorem release_only_never_broadcast tx mid tx'
    (Hcov : exposure_covers tx) (Hpre : rtc tx_step tx mid) (Hpost : rtc tx_step mid tx')
    (Hrel : cancellation_decision tx'.(tx_exposure) = Canc.ReleaseNeverBroadcastReservations) :
  mid.(tx_exposure) = Exp.NeverBroadcast
  /\ infer_legacy_exposure mid.(tx_lifecycle) mid.(tx_submitted) = Exp.NeverBroadcast.
Proof.
  apply release_iff_never, exposure_rank_zero in Hrel.
  apply tx_run_exposure in Hpost. pose proof (tx_run_covers _ _ Hpre Hcov) as Hm.
  unfold exposure_covers, Exp.ltb in Hm. apply N.ltb_ge in Hm.
  split; [apply exposure_rank_zero; lia|].
  apply minimum_never_infer, exposure_rank_zero. lia.
Qed.

(** [Cancelled] is terminal: no sequence of transitions leaves it. *)
Theorem cancelled_is_terminal tx tx' (Hrun : rtc tx_step tx tx')
    (Hc : tx.(tx_lifecycle) = L.Cancelled) : tx'.(tx_lifecycle) = L.Cancelled.
Proof.
  induction Hrun as [|a b c (next & ev & H) _ IH]; [done|]. apply IH.
  rewrite (transition_lifecycle _ _ _ _ H).
  by apply transition_inv in H as (_ & _ & H%(fun f => f Hc)).
Qed.

(** ** Witnesses *)

(** A transaction in a given lifecycle with every other field empty. *)
Definition transaction_in (lifecycle : L.TransactionLifecycle) : LocalTransactionIntent :=
  mkLocalTransactionIntent 0 0 0 None None [] lifecycle false Exp.NeverBroadcast None None 0 0
    [] [] [] [] None 0 None None None 0.

Lemma tx_step_of self next ev self' : transition self next ev = Ok self' -> tx_step self self'.
Proof. unfold tx_step. eauto. Defined.

Definition finalized_tx : LocalTransactionIntent := transaction_in L.Finalized.
Definition submitting_tx : LocalTransactionIntent :=
  finalized_tx <| tx_exposure := Exp.SubmissionStarted |> <| tx_lifecycle := L.Submitting |>.
Definition imported_tx : LocalTransactionIntent := transaction_in L.ResponseImported.
Definition cancelled_tx : LocalTransactionIntent := transaction_in L.Cancelled.

Lemma exposure_monotone_run_witness :
  Exp.le Exp.NeverBroadcast Exp.SubmissionStarted /\ exposure_covers submitting_tx.
Proof.
  apply (exposure_monotone_run finalized_tx submitting_tx).
  - apply rtc_once, (tx_step_of _ L.Submitting Ev.SubmissionStarted). reflexivity.
  - reflexivity.
Defined.

Lemma release_only_never_broadcast_witness :
  finalized_tx.(tx_exposure) = Exp.NeverBroadcast
  /\ infer_legacy_exposure L.Finalized false = Exp.NeverBroadcast.
Proof.
  apply (release_only_never_broadcast imported_tx finalized_tx cancelled_tx).
  - reflexivity.
  - apply rtc_once, (tx_step_of _ L.Finalized Ev.Finalization). reflexivity.
  - apply rtc_once, (tx_step_of _ L.Cancelled Ev.Cancellation). reflexivity.
  - reflexivity.
Defined.
