(* ===== verification/SwapSession.v ===== *)
(** * Swap sessions

    [SwapSessionState] and [SwapSessionRecord] of
    crates/dom-wallet-domain/src/lib.rs: the forward-only lifecycle of a durable
    swap, the binding of an accepted quote and the bounded-field validation. *)

From S2P Require Import Prelude DomainTypes.
Import Swap.

(** ** Operations *)

Definition swap_is_terminal (self : SwapSessionState) : bool :=
  match self with Settled | Refunded | SafelyAborted => true | _ => false end.

Definition free_cancellation (self : SwapSessionState) : bool :=
  match self with
  | IntentDraft | IntentPublished | QuoteAccepted | RefundsArmed => true
  | _ => false
  end.

Definition may_transition_to (self next : SwapSessionState) : bool :=
  if swap_is_terminal self then false
  else
    match self, next with
    | IntentDraft, IntentPublished
    | IntentPublished, QuoteAccepted
    | QuoteAccepted, RefundsArmed
    | RefundsArmed, UserFunding
    | UserFunding, UserFunded
    | UserFunded, SolverFunded
    | SolverFunded, Claiming
    | Claiming, Settled
    | UserFunding, CancelTimelockExpired
    | UserFunded, CancelTimelockExpired
    | SolverFunded, CancelTimelockExpired
    | Claiming, CancelTimelockExpired
    | CancelTimelockExpired, CancelPublished
    | CancelPublished, Refunded => true
    | _, _ => false
    end
    || (free_cancellation self && bool_decide (next = SafelyAborted)).

Definition swap_is_open (self : SwapSessionRecord) : bool := negb (swap_is_terminal self.(ss_state)).

(** [SwapSessionRecord::transition] *)
Definition swap_transition (next : SwapSessionState) (now_unix : N)
    : method SwapSessionRecord DErr.DomainError unit := fun self =>
  if negb (may_transition_to self.(ss_state) next) then (self, Err DErr.InvalidSwapTransition)
  else if bool_decide (next = QuoteAccepted)
          && (bool_decide (self.(ss_quote) = None) || (self.(ss_fee_noms) =? 0))
  then (self, Err DErr.InvalidState)
  else (self <| ss_state := next |>
             <| ss_updated_unix := now_unix |>
             <| ss_state_history ::= fun h => h ++ [mkSwapSessionTransition next now_unix] |>,
        Ok tt).

(** [SwapSessionRecord::accept_quote] *)
Definition accept_quote (quote : SwapAcceptedQuote) (fee_noms now_unix : N)
    : method SwapSessionRecord DErr.DomainError unit := fun self =>
  if (quote.(saq_dom_leg_amount_base_units) =? 0) || (fee_noms =? 0)
  then (self, Err DErr.InvalidState)
  else if negb (may_transition_to self.(ss_state) QuoteAccepted)
  then (self, Err DErr.InvalidSwapTransition)
  else
    let self := self <| ss_quote := Some quote |> in
    let self := self <| ss_fee_noms := fee_noms |> in
    swap_transition QuoteAccepted now_unix self.

(** [|value: &str, limit| !value.is_empty() && value.len() <= limit] *)
Definition bounded (value : string) (limit : N) : bool :=
  negb (slen value =? 0) && (slen value <=? limit).

Definition opt_exceeds (o : option string) (limit : N) : bool :=
  match o with Some e => limit <? slen e | None => false end.

(** [SwapSessionRecord::validate] *)
Definition swap_validate (self : SwapSessionRecord) : result DErr.DomainError unit :=
  fail_if (negb (bounded self.(ss_from_asset) 32)
           || negb (bounded self.(ss_to_asset) 32)
           || negb (bounded self.(ss_fee_payment_asset) 32)
           || (64 <? len self.(ss_state_history))
           || opt_exceeds self.(ss_last_error) 256
           || (MAX_SWAP_LEG_INDEX <? self.(ss_leg_index)))
          DErr.InvalidState ;?
  match self.(ss_deposit) with
  | Some deposit =>
      fail_if (negb (bounded deposit.(sdw_address) 128)
               || (deposit.(sdw_maximum_base_units) <? deposit.(sdw_minimum_base_units)))
              DErr.InvalidState
  | None => Ok tt
  end ;?
  match self.(ss_quote) with
  | Some quote => fail_if (negb (bounded quote.(saq_solver_label) 64)) DErr.InvalidState
  | None => Ok tt
  end ;?
  foldM (fun _ txid => fail_if (negb (bounded txid 128)) DErr.InvalidState)
        (omap id [self.(ss_user_leg_funding_txid); self.(ss_solver_leg_funding_txid);
                  self.(ss_claim_txid); self.(ss_cancel_txid); self.(ss_refund_txid)])
        tt.

(** One call that moves a session. *)
Inductive swap_step (self self' : SwapSessionRecord) : Prop :=
| swap_step_transition next now :
    swap_transition next now self = (self', Ok tt) -> swap_step self self'
| swap_step_accept quote fee now :
    accept_quote quote fee now self = (self', Ok tt) -> swap_step self self'.

(** ** Lemmas *)

(** How far along the settlement or the failure ladder a state is. *)
Definition swap_rank (s : SwapSessionState) : N :=
  match s with
  | IntentDraft => 0
  | IntentPublished => 1
  | QuoteAccepted => 2
  | RefundsArmed => 3
  | UserFunding => 4
  | UserFunded => 5
  | SolverFunded => 6
  | Claiming => 7
  | CancelTimelockExpired => 8
  | CancelPublished => 9
  | Settled | Refunded | SafelyAborted => 10
  end.

Lemma may_transition_rank s n :
  may_transition_to s n = true -> swap_rank s + 1 <= swap_rank n <= 10.
Proof. destruct s, n; simpl; intros H; try discriminate H; lia. Qed.

(** The states in which some chain may hold a lock of the user. *)
Definition funds_locked (s : SwapSessionState) : bool :=
  negb (swap_is_terminal s) && negb (free_cancellation s).

Lemma swap_transition_Ok next now self self' :
  swap_transition next now self = (self', Ok tt) <->
  may_transition_to self.(ss_state) next = true
  /\ (next = QuoteAccepted -> self.(ss_quote) <> None /\ self.(ss_fee_noms) <> 0)
  /\ self' = self <| ss_state := next |> <| ss_updated_unix := now |>
                  <| ss_state_history ::= fun h => h ++ [mkSwapSessionTransition next now] |>.
Proof.
  unfold swap_transition. destruct (may_transition_to _ next) eqn:Hm; simpl; [|naive_solver].
  destruct (_ && _) eqn:Hq.
  - split; [done|]. intros (_ & Hne & _). bool_inv. subst next.
    destruct (Hne eq_refl) as [Hn Hf]. apply orb_true_iff in H0 as [H0|H0]; by bool_inv.
  - split; [|by intros (_ & _ & ->)]. intros [= <-]. split; [done|split; [|done]].
    intros ->. rewrite bool_decide_eq_true_2 in Hq by done. simpl in Hq. by bool_inv.
Qed.

Lemma accept_quote_Ok quote fee now self self' :
  accept_quote quote fee now self = (self', Ok tt) <->
  self.(ss_state) = IntentPublished /\ quote.(saq_dom_leg_amount_base_units) <> 0 /\ fee <> 0
  /\ self' = self <| ss_quote := Some quote |> <| ss_fee_noms := fee |>
                  <| ss_state := QuoteAccepted |> <| ss_updated_unix := now |>
                  <| ss_state_history ::=
                       fun h => h ++ [mkSwapSessionTransition QuoteAccepted now] |>.
Proof.
  unfold accept_quote. destruct (_ || _) eqn:Hz.
  { split; [done|]. intros (_ & Hl & Hf & _). apply orb_true_iff in Hz as [Hz|Hz]; by bool_inv. }
  bool_inv. destruct (may_transition_to _ _) eqn:Hm; simpl.
  - rewrite swap_transition_Ok. simpl. split.
    + intros (_ & _ & ->). split; [|done]. by destruct (ss_state self).
    + by intros (_ & _ & _ & ->).
  - split; [done|]. intros (Hs & _). by rewrite Hs in Hm.
Qed.

(** Every step is a legal move recorded at the end of the history; the quote
    and the fee it bound are never dropped. *)
Lemma swap_step_inv self self' :
  swap_step self self' ->
  may_transition_to self.(ss_state) self'.(ss_state) = true
  /\ (exists now, self'.(ss_state_history)
        = self.(ss_state_history) ++ [mkSwapSessionTransition self'.(ss_state) now])
  /\ (self.(ss_quote) <> None -> self'.(ss_quote) <> None)
  /\ (self.(ss_fee_noms) <> 0 -> self'.(ss_fee_noms) <> 0)
  /\ (self'.(ss_state) = QuoteAccepted -> self'.(ss_quote) <> None /\ self'.(ss_fee_noms) <> 0).
Proof.
  intros [next now H|quote fee now H].
  - apply swap_transition_Ok in H as (Hm & Hq & ->). simpl. eauto 10.
  - apply accept_quote_Ok in H as (Hs & _ & Hf & ->). simpl. rewrite Hs. eauto 10.
Qed.

Lemma swap_may_step self next now :
  may_transition_to self.(ss_state) next = true -> next <> QuoteAccepted ->
  swap_step self (self <| ss_state := next |> <| ss_updated_unix := now |>
                       <| ss_state_history ::= fun h => h ++ [mkSwapSessionTransition next now] |>).
Proof.
  intros Hm Hn. apply (swap_step_transition _ _ next now), swap_transition_Ok.
  split; [done|split; [|done]]. intros ->. done.
Qed.

Lemma swap_run_history n self self' :
  nsteps swap_step n self self' ->
  N.of_nat n + swap_rank self.(ss_state) <= swap_rank self'.(ss_state)
  /\ length self'.(ss_state_history) = (length self.(ss_state_history) + n)%nat.
Proof.
  induction 1 as [r|n a b c H _ [IHr IHl]]; [lia|].
  apply swap_step_inv in H as (Hm & (now & Hh) & _).
  apply may_transition_rank in Hm. rewrite IHl, Hh, length_app. simpl. lia.
Qed.

Lemma swap_rank_bound s : swap_rank s <= 10.
Proof. destruct s; simpl; lia. Qed.

Lemma funds_locked_step s n :
  may_transition_to s n = true -> funds_locked s = true -> n <> SafelyAborted.
Proof. by destruct s, n. Qed.

(** What a run from a fresh draft maintains. *)
Definition swap_inv (self : SwapSessionRecord) : Prop :=
  let visited := map sst_state self.(ss_state_history) in
  self.(ss_state) ∈ visited
  /\ (2 <= swap_rank self.(ss_state) -> self.(ss_state) <> SafelyAborted ->
      self.(ss_quote) <> None /\ self.(ss_fee_noms) <> 0)
  /\ (3 <= swap_rank self.(ss_state) -> self.(ss_state) <> SafelyAborted ->
      RefundsArmed ∈ visited).

Lemma swap_inv_step self self' : swap_step self self' -> swap_inv self -> swap_inv self'.
Proof.
  intros (Hm & (now & Hh) & Hq & Hf & Hacc)%swap_step_inv (Hin & Hquote & Harm).
  unfold swap_inv. rewrite Hh, map_app. simpl.
  split; [set_solver|].
  assert (Hns : self'.(ss_state) <> SafelyAborted -> self'.(ss_state) <> QuoteAccepted ->
                2 <= swap_rank self'.(ss_state) ->
                2 <= swap_rank self.(ss_state) /\ self.(ss_state) <> SafelyAborted).
  { revert Hm. clear. destruct (ss_state self), (ss_state self'); simpl; intros; try done; lia. }
  split.
  - intros H2 Hna. destruct (decide (ss_state self' = QuoteAccepted)) as [He|Hne]; [by apply Hacc|].
    destruct (Hns Hna Hne H2) as [Hr Hn']. destruct (Hquote Hr Hn'). auto.
  - intros H3 Hna. apply elem_of_app.
    destruct (decide (ss_state self' = RefundsArmed)) as [He|Hne]; [right; set_solver|left].
    assert (3 <= swap_rank self.(ss_state) /\ self.(ss_state) <> SafelyAborted) as [Hr Hn'].
    { revert Hm Hna Hne H3. clear.
      destruct (ss_state self), (ss_state self'); simpl; intros; try done; lia. }
    auto.
Qed.

Lemma swap_inv_run self self' : rtc swap_step self self' -> swap_inv self -> swap_inv self'.
Proof. induction 1; eauto using swap_inv_step. Qed.

Lemma locked_reaches_refund self :
  funds_locked self.(ss_state) = true ->
  exists self', rtc swap_step self self' /\ self'.(ss_state) = Refunded.
Proof.
  intros Hl.
  assert (Hpub : forall r, r.(ss_state) = CancelPublished ->
    exists r', rtc swap_step r r' /\ r'.(ss_state) = Refunded).
  { intros r Hr. eexists; split; [apply rtc_once, (swap_may_step r Refunded 0)|done];
      by rewrite ?Hr. }
  assert (Hexp : forall r, r.(ss_state) = CancelTimelockExpired ->
    exists r', rtc swap_step r r' /\ r'.(ss_state) = Refunded).
  { intros r Hr. destruct (Hpub (r <| ss_state := CancelPublished |> <| ss_updated_unix := 0 |>
      <| ss_state_history ::= fun h => h ++ [mkSwapSessionTransition CancelPublished 0] |>))
      as (r' & Hrun & Hs); [done|].
    exists r'. split; [|done]. eapply rtc_l; [|exact Hrun]. apply swap_may_step; by rewrite ?Hr. }
  assert (Hmay : self.(ss_state) = CancelPublished \/ self.(ss_state) = CancelTimelockExpired
    \/ may_transition_to self.(ss_state) CancelTimelockExpired = true).
  { destruct (ss_state self); try discriminate Hl; auto. }
  destruct Hmay as [Hs|[Hs|Hs]]; [by apply Hpub|by apply Hexp|].
  destruct (Hexp (self <| ss_state := CancelTimelockExpired |> <| ss_updated_unix := 0 |>
      <| ss_state_history ::= fun h => h ++ [mkSwapSessionTransition CancelTimelockExpired 0] |>))
    as (r' & Hrun & Hr); [done|].
  exists r'. split; [|done]. eapply rtc_l; [|exact Hrun]. by apply swap_may_step.
Qed.

(** ** Properties *)

(** C31 Once a swap has left the freely cancellable states its refund was armed
    first, its quote and protocol fee are bound, it can always still be driven
    home ([Refunded] is reachable), and no continuation abandons it: the worst
    case is a delay, never a loss. *)
Theorem swap_locked_funds_are_recoverable draft self
    (Hdraft : draft.(ss_state) = IntentDraft)
    (Hhist : map sst_state draft.(ss_state_history) = [IntentDraft])
    (Hrun : rtc swap_step draft self)
    (Hlocked : funds_locked self.(ss_state) = true) :
  RefundsArmed ∈ map sst_state self.(ss_state_history)
  /\ self.(ss_quote) <> None /\ self.(ss_fee_noms) <> 0
  /\ (exists home, rtc swap_step self home /\ home.(ss_state) = Refunded)
  /\ (forall later, rtc swap_step self later -> later.(ss_state) <> SafelyAborted).
Proof.
  assert (Hinv : swap_inv self).
  { eapply swap_inv_run; [exact Hrun|]. unfold swap_inv.
    rewrite Hdraft, Hhist. simpl. split; [set_solver|]. split; lia. }
  destruct Hinv as (_ & Hq & Ha).
  assert (3 <= swap_rank self.(ss_state) /\ self.(ss_state) <> SafelyAborted) as [Hr Hn].
  { destruct (ss_state self); try discriminate Hlocked; simpl; split; done || lia. }
  destruct (Hq ltac:(lia) Hn) as [Hquote Hfee].
  split; [auto|]. split; [done|]. split; [done|]. split; [by apply locked_reaches_refund|].
  clear -Hlocked. intros later Hrun.
  assert (forall a b, rtc swap_step a b ->
    funds_locked a.(ss_state) || bool_decide (a.(ss_state) = Settled)
    || bool_decide (a.(ss_state) = Refunded) = true -> b.(ss_state) <> SafelyAborted) as Hgen.
  { clear. induction 1 as [a|a b c Hs _ IH].
    - intros Ha Hc. by rewrite Hc in Ha.
    - intros Ha. apply IH. apply swap_step_inv in Hs as (Hm & _).
      by destruct (ss_state a), (ss_state b). }
  eapply Hgen; [exact Hrun|]. by rewrite Hlocked.
Qed.

(** The lifecycle only moves forward and stops: a run of [n] calls climbs at
    least [n] ranks, so no session makes more than ten moves, and the history
    records exactly one entry per call.  A session created by the wallet
    therefore never outgrows the 64 entries [validate] allows. *)
Theorem swap_runs_are_bounded n self self' (Hrun : nsteps swap_step n self self') :
  (n <= 10)%nat
  /\ length self'.(ss_state_history) = (length self.(ss_state_history) + n)%nat
  /\ N.of_nat n + swap_rank self.(ss_state) <= swap_rank self'.(ss_state).
Proof.
  apply swap_run_history in Hrun as [Hr Hl].
  pose proof (swap_rank_bound self'.(ss_state)). split; [lia|]. done.
Qed.

(** The terminal states are exactly the final ones: a session can be moved
    if and only if its state is not terminal. *)
Theorem swap_open_iff_can_move self :
  (exists self', swap_step self self') <-> swap_is_open self = true.
Proof.
  unfold swap_is_open. split.
  - intros (self' & (Hm & _)%swap_step_inv). by destruct (ss_state self).
  - intros Ho.
    assert (exists next, may_transition_to self.(ss_state) next = true /\ next <> QuoteAccepted)
      as (next & Hm & Hn).
    { destruct (ss_state self); try discriminate Ho; try (exists SafelyAborted; done);
        try (exists CancelTimelockExpired; done); try (exists CancelPublished; done);
        exists Refunded; done. }
    eexists. by apply (swap_may_step self next 0).
Qed.

(** [accept_quote] binds the quote, its fee and the transition together: it
    succeeds exactly from [IntentPublished] with a non-zero DOM leg and fee, and
    a refusal leaves the session untouched. *)
Theorem accept_quote_atomic quote fee now self :
  (forall self', accept_quote quote fee now self = (self', Ok tt) <->
     self.(ss_state) = IntentPublished /\ quote.(saq_dom_leg_amount_base_units) <> 0 /\ fee <> 0
     /\ self' = self <| ss_quote := Some quote |> <| ss_fee_noms := fee |>
                     <| ss_state := QuoteAccepted |> <| ss_updated_unix := now |>
                     <| ss_state_history ::=
                          fun h => h ++ [mkSwapSessionTransition QuoteAccepted now] |>)
  /\ (forall self' e, accept_quote quote fee now self = (self', Err e) -> self' = self).
Proof.
  split; [apply accept_quote_Ok|]. intros self' e. unfold accept_quote.
  destruct (_ || _) eqn:Hz; [by intros [= <- _]|].
  destruct (negb _) eqn:Hm; [by intros [= <- _]|]. bool_inv.
  unfold swap_transition. simpl. rewrite Hm. simpl.
  destruct (fee =? 0) eqn:Hf; bool_inv; [done|]. by intros [=].
Qed.

(** ** Witnesses *)

(** A draft session: 10 units of one asset against another. *)
Definition draft_session : SwapSessionRecord :=
  mkSwapSessionRecord 7 100 100 "DOM" "BTC" 10 1 "DOM" 10 0 0 IntentDraft
    [mkSwapSessionTransition IntentDraft 100] None None None None None None None None None.
Definition sample_quote : SwapAcceptedQuote := mkSwapAcceptedQuote "solver" 10 1 5 600.

Definition published_session : SwapSessionRecord := (swap_transition IntentPublished 101 draft_session).1.
Definition accepted_session : SwapSessionRecord := (accept_quote sample_quote 3 102 published_session).1.
Definition armed_session : SwapSessionRecord := (swap_transition RefundsArmed 103 accepted_session).1.
Definition funding_session : SwapSessionRecord := (swap_transition UserFunding 104 armed_session).1.

Lemma draft_to_funding : nsteps swap_step 4 draft_session funding_session.
Proof.
  eapply nsteps_l; [apply (swap_step_transition draft_session published_session IntentPublished 101);
                    reflexivity|].
  eapply nsteps_l; [apply (swap_step_accept published_session accepted_session sample_quote 3 102);
                    reflexivity|].
  eapply nsteps_l; [apply (swap_step_transition accepted_session armed_session RefundsArmed 103);
                    reflexivity|].
  eapply nsteps_l; [apply (swap_step_transition armed_session funding_session UserFunding 104);
                    reflexivity|].
  constructor.
Qed.

Lemma swap_locked_funds_are_recoverable_witness :
  RefundsArmed ∈ map sst_state funding_session.(ss_state_history)
  /\ funding_session.(ss_quote) <> None /\ funding_session.(ss_fee_noms) <> 0
  /\ (exists home, rtc swap_step funding_session home /\ home.(ss_state) = Refunded)
  /\ (forall later, rtc swap_step funding_session later -> later.(ss_state) <> SafelyAborted).
Proof.
  apply (swap_locked_funds_are_recoverable draft_session funding_session).
  - reflexivity.
  - reflexivity.
  - eapply rtc_nsteps. exists 4%nat. exact draft_to_funding.
  - reflexivity.
Defined.
