(* ===== verification/WalletOps.v ===== *)
(** * Operations of the canonical wallet state

    The methods of [WalletState] in crates/dom-wallet-domain/src/lib.rs that do
    not concern Scriptless reservations or rescans: construction, coordinate
    allocation, balance, ownership, public chain evidence and the exposure
    migration. *)

From S2P Require Import Prelude DomainTypes Lifecycle.

(** ** Small validators *)

Definition ScanBounds_validate (self : ScanBounds) : result DErr.DomainError unit :=
  fail_if ((self.(sb_end_height) <? self.(sb_start_height))
           || (self.(sb_max_pages) =? 0) || (self.(sb_max_records_per_page) =? 0))
          DErr.InvalidScanBounds.

Definition ScanTarget_validate (self : ScanTarget) : result DErr.DomainError unit :=
  fail_if ((slen self.(st_source_identity) =? 0) || (128 <? slen self.(st_source_identity))
           || (self.(st_evidence_version) =? 0)) DErr.InvalidScanTarget ;?
  fail_if (negb (self.(st_target_height) =? self.(st_scan_bounds).(sb_end_height)))
          DErr.InvalidScanTarget ;?
  ScanBounds_validate self.(st_scan_bounds).

Definition NodeConfiguration_validate (self : NodeConfiguration) : result DErr.DomainError unit :=
  fail_if ((slen self.(nc_endpoint_url) =? 0) || (2048 <? slen self.(nc_endpoint_url))
           || (slen self.(nc_source_identity) =? 0) || (128 <? slen self.(nc_source_identity))
           || (self.(nc_api_compatibility_version) =? 0)
           || (self.(nc_connect_timeout_ms) =? 0)
           || (self.(nc_request_timeout_ms) =? 0)
           || (self.(nc_poll_interval_ms) =? 0)
           || (self.(nc_retry_ceiling) =? 0)
           || (self.(nc_max_backoff_ms) <? self.(nc_poll_interval_ms))
           || (self.(nc_stable_success_threshold) =? 0))
          DErr.InvalidNodeConfiguration ;?
  fail_if (self.(nc_tls_required) && negb (String.prefix "https://" self.(nc_endpoint_url)))
          DErr.TlsRequired ;?
  fail_if (match self.(nc_credential_reference) with
           | Some value => 256 <? slen value
           | None => false
           end) DErr.InvalidNodeConfiguration.

Definition NodeConfiguration_redacted (self : NodeConfiguration) : RedactedNodeConfiguration :=
  mkRedactedNodeConfiguration self.(nc_endpoint_url) self.(nc_expected_identity).(ni_network)
    self.(nc_source_identity) self.(nc_api_compatibility_version) self.(nc_tls_required)
    (bool_decide (is_Some self.(nc_credential_reference))).

(** ** Construction

    The two [Uuid::new_v4()] calls are the arguments [wallet_id] and
    [account_id]. *)
Definition WalletState_new (wallet_id account_id : uuid) (identity : NetworkIdentity)
    (root_material : bytes) (node_configuration : NodeConfiguration) : WalletState := {|
  ws_model_version := MODEL_VERSION;
  ws_secret_profile_version := SECRET_PROFILE_VERSION;
  ws_wallet_id := wallet_id;
  ws_identity := identity;
  ws_generation := 0;
  ws_default_account := mkAccount account_id "Default account" 0;
  ws_allocation_floor := 0;
  ws_non_reuse_floor := 0;
  ws_cursor := None;
  ws_outputs := [];
  ws_private_output_blindings := [];
  ws_transactions := [];
  ws_scriptless_funding_reservations := [];
  ws_scriptless_payout_reservations := [];
  ws_transaction_exposure_version := TRANSACTION_EXPOSURE_VERSION;
  ws_sync_status := Sync.Idle;
  ws_provisional_target := None;
  ws_rescan_plan := None;
  ws_recovery := None;
  ws_recovery_allocation_floors := mkRecoveryAllocationFloors 0 0 0 0;
  ws_core_scan_cursor := None;
  ws_recovery_canonical_blocks := [];
  ws_recovered_accounts := [];
  ws_recovered_output_metadata := [];
  ws_seed_restore_status := None;
  ws_legacy_proof_only_outputs := 0;
  ws_recovery_scanned_blocks := 0;
  ws_recovery_scanned_outputs := 0;
  ws_node_configuration := node_configuration;
  ws_mining_preferences := mkMiningPreferences false 0;
  ws_swap_sessions := [];
  ws_next_swap_leg_index := 0;
  ws_root_material := root_material;
|}.

(** ** Allocation of derivation coordinates *)

Definition allocate : method WalletState DErr.DomainError N := fun self =>
  match checked_add u64_max self.(ws_allocation_floor) 1 with
  | None => (self, Err DErr.AllocationOverflow)
  | Some position =>
      (self <| ws_allocation_floor := position |>
            <| ws_non_reuse_floor ::= fun f => N.max f position |>, Ok position)
  end.

(** The floor a recovery class draws from ... *)
Definition recovery_floor (class : ROC.RecoveryOutputClass) (f : RecoveryAllocationFloors) : N :=
  match class with
  | ROC.ReceiveRequest | ROC.ReceiveSlate => f.(raf_received)
  | ROC.Change => f.(raf_change)
  | ROC.SelfTransfer => f.(raf_self_transfer)
  | ROC.Coinbase => f.(raf_coinbase)
  end.

(** ... and the assignment through the [&mut] reference to it. *)
Definition set_recovery_floor (class : ROC.RecoveryOutputClass) (v : N)
    (f : RecoveryAllocationFloors) : RecoveryAllocationFloors :=
  match class with
  | ROC.ReceiveRequest | ROC.ReceiveSlate => f <| raf_received := v |>
  | ROC.Change => f <| raf_change := v |>
  | ROC.SelfTransfer => f <| raf_self_transfer := v |>
  | ROC.Coinbase => f <| raf_coinbase := v |>
  end.

Definition reserve_recovery_coordinate (account : N) (class : ROC.RecoveryOutputClass)
    : method WalletState DErr.DomainError ReservedRecoveryCoordinate := fun self =>
  match checked_add u64_max (recovery_floor class self.(ws_recovery_allocation_floors)) 1 with
  | None => (self, Err DErr.AllocationOverflow)
  | Some derivation_index =>
      (self <| ws_recovery_allocation_floors ::= set_recovery_floor class derivation_index |>
            <| ws_non_reuse_floor ::= fun f => N.max f derivation_index |>,
       Ok (mkReservedRecoveryCoordinate account derivation_index class))
  end.

Definition resume_recovery_coordinate (self : WalletState) (account derivation_index : N)
    (class : ROC.RecoveryOutputClass) : result DErr.DomainError ReservedRecoveryCoordinate :=
  let floor := recovery_floor class self.(ws_recovery_allocation_floors) in
  fail_if ((derivation_index =? 0) || (floor <? derivation_index)) DErr.InvalidState ;?
  Ok (mkReservedRecoveryCoordinate account derivation_index class).

(** ** Balance *)

Definition balance_add (balance : BalanceProjection) (output : OutputRecord) : BalanceProjection :=
  let add := fun x => saturating_add u64_max x output.(out_value) in
  match output.(out_state) with
  | Out.Confirmed =>
      balance <| bal_total ::= add |> <| bal_confirmed ::= add |> <| bal_spendable ::= add |>
  | Out.Immature _ => balance <| bal_total ::= add |> <| bal_immature ::= add |>
  | Out.PendingIncoming => balance <| bal_total ::= add |> <| bal_pending_incoming ::= add |>
  | Out.PendingOutgoing => balance <| bal_total ::= add |> <| bal_pending_outgoing ::= add |>
  | Out.Locked => balance <| bal_total ::= add |> <| bal_locked ::= add |>
  | Out.Spent _ => balance
  end.

Definition from_outputs (outputs : list OutputRecord) : BalanceProjection :=
  fold_left balance_add outputs (mkBalanceProjection 0 0 0 0 0 0 0).

Definition balance (self : WalletState) : BalanceProjection := from_outputs self.(ws_outputs).

(** ** Ownership *)

Definition has_commitment (commitment : bytes) (o : OutputRecord) : bool :=
  bool_decide (o.(out_commitment) = Some commitment).

Definition classify_commitment (self : WalletState) (commitment : bytes) : Own.OutputOwnership :=
  match find_first (has_commitment commitment) self.(ws_outputs) with
  | Some o => Own.KnownLocalOutput o
  | None => Own.NotOwnedOrUnprovable
  end.

Definition mark_known_output_spent (commitment : bytes) (height : N) (self : WalletState)
    : WalletState * bool :=
  match position (has_commitment commitment) self.(ws_outputs) with
  | Some i =>
      (self <| ws_outputs ::= alter (fun o => o <| out_state := Out.Spent height |>
                                               <| out_reserved_by := None |>) i |>, true)
  | None => (self, false)
  end.

(** ** Output blindings *)

Definition output_blinding (self : WalletState) (output_id : uuid) : option bytes :=
  option_map pob_blinding
    (find_first (fun s => s.(pob_output_id) =? output_id) self.(ws_private_output_blindings)).

Definition remember_output_blinding (output_id : uuid) (blinding : bytes) (self : WalletState)
    : WalletState :=
  match position (fun s => s.(pob_output_id) =? output_id) self.(ws_private_output_blindings) with
  | Some i => self <| ws_private_output_blindings ::= alter (fun s => s <| pob_blinding := blinding |>) i |>
  | None => self <| ws_private_output_blindings ::=
                      fun l => l ++ [mkPrivateOutputBlinding output_id blinding] |>
  end.

(** ** Public chain evidence *)

(** A loop over [&mut self.transactions]. *)
Definition on_transactions (body : method LocalTransactionIntent DErr.DomainError unit)
    : method WalletState DErr.DomainError unit := fun self =>
  let '(txs, r) := for_each_mut body self.(ws_transactions) in
  (self <| ws_transactions := txs |>, r).

(** The body of that loop in [mark_known_outputs_confirmed]. *)
Definition confirm_recipient (output_id height : N) (block_hash : bytes)
    : method LocalTransactionIntent DErr.DomainError unit := fun transaction =>
  if bool_decide (transaction.(tx_recipient_output_id) = Some output_id)
     && match transaction.(tx_lifecycle) with
        | L.ResponsePrepared | L.ResponseExported => true
        | _ => false
        end
  then transition_mut (L.Confirmed height block_hash) Ev.ConfirmationEvidence transaction
  else (transaction, Ok tt).

Definition confirm_output (height : N) (o : OutputRecord) : OutputRecord :=
  if Out.is_spent o.(out_state) then o
  else o <| out_state := Out.Confirmed |> <| out_discovered_height := height |>.

Fixpoint confirm_outputs_loop (commitments : list bytes) (height : N) (block_hash : bytes)
    (seen : gset bytes) : method WalletState DErr.DomainError unit :=
  match commitments with
  | [] => mret tt
  | commitment :: commitments => fun self =>
      if bool_decide (commitment ∈ seen) then (self, Err DErr.InvalidState)
      else
        let seen := {[commitment]} ∪ seen in
        match position (has_commitment commitment) self.(ws_outputs) with
        | None => confirm_outputs_loop commitments height block_hash seen self
        | Some i =>
            let self := self <| ws_outputs ::= alter (confirm_output height) i |> in
            let output_id := from_option out_id 0 (self.(ws_outputs) !! i) in
            (on_transactions (confirm_recipient output_id height block_hash) ;;;
             confirm_outputs_loop commitments height block_hash seen) self
        end
  end.

Definition mark_known_outputs_confirmed (commitments : list bytes) (height : N)
    (block_hash : bytes) : method WalletState DErr.DomainError unit :=
  confirm_outputs_loop commitments height block_hash ∅.

(** What kernel evidence does to the one transaction it names. *)
Definition apply_kernel (height : N) (block_hash : bytes)
    : method LocalTransactionIntent DErr.DomainError unit := fun transaction =>
  match transaction.(tx_lifecycle) with
  | L.Submitted | L.AcceptedNotRelayed | L.InMempool | L.RetransmitRequired | L.Submitting
  | L.Reorged =>
      transition_mut (L.Confirmed height block_hash) Ev.ConfirmationEvidence transaction
  | L.Confirmed known_height known_hash =>
      if (known_height =? height) && bool_decide (known_hash = block_hash)
      then (transaction, Ok tt)
      else transition_mut L.ReconciliationRequired Ev.ReconciliationEvidence transaction
  | L.ReconciliationRequired | L.Draft | L.InputsReserved | L.RequestExported
  | L.RequestImported | L.ResponsePrepared | L.ResponseExported | L.ResponseImported
  | L.Finalized | L.Cancelled | L.Failed => (transaction, Ok tt)
  end.

Definition has_kernel (kernel : bytes) (t : LocalTransactionIntent) : bool :=
  bool_decide (t.(tx_kernel_excess) = kernel).

(** Apply a method to the transaction at an index. *)
Definition at_transaction (i : nat) (m : method LocalTransactionIntent DErr.DomainError unit)
    : method WalletState DErr.DomainError unit := fun self =>
  match self.(ws_transactions) !! i with
  | Some t => let '(t', r) := m t in
              (self <| ws_transactions ::= <[i := t']> |>, r)
  | None => (self, Ok tt)
  end.

Fixpoint kernel_evidence_loop (height : N) (block_hash : bytes) (kernels : list bytes)
    (seen : gset bytes) : method WalletState DErr.DomainError unit :=
  match kernels with
  | [] => mret tt
  | kernel :: kernels => fun self =>
      if bool_decide (kernel ∈ seen) then (self, Err DErr.DuplicateKernelEvidence)
      else
        let seen := {[kernel]} ∪ seen in
        match positions (has_kernel kernel) self.(ws_transactions) with
        | _ :: _ :: _ => (self, Err DErr.AmbiguousKernelEvidence)
        | [index] =>
            (at_transaction index (apply_kernel height block_hash) ;;;
             kernel_evidence_loop height block_hash kernels seen) self
        | [] => kernel_evidence_loop height block_hash kernels seen self
        end
  end.

Definition apply_kernel_evidence (height : N) (block_hash : bytes) (kernels : list bytes)
    : method WalletState DErr.DomainError unit :=
  kernel_evidence_loop height block_hash kernels ∅.

(** ** Exposure migration *)

Definition inferred_exposure (version : N) (t : LocalTransactionIntent) : Exp.BroadcastExposure :=
  if version =? 0
  then infer_legacy_exposure t.(tx_lifecycle) t.(tx_submitted)
  else minimum_current_exposure t.(tx_lifecycle) t.(tx_submitted).

Definition migrate_one (version : N) (t : LocalTransactionIntent) : LocalTransactionIntent :=
  let inferred := inferred_exposure version t in
  if Exp.ltb t.(tx_exposure) inferred then t <| tx_exposure := inferred |> else t.

Definition migrate_transaction_exposure : method WalletState DErr.DomainError bool := fun self =>
  let version := self.(ws_transaction_exposure_version) in
  if (version =? 0) || (version =? TRANSACTION_EXPOSURE_VERSION) then
    let raised := existsb (fun t => Exp.ltb t.(tx_exposure) (inferred_exposure version t))
                          self.(ws_transactions) in
    (self <| ws_transactions ::= map (migrate_one version) |>
          <| ws_transaction_exposure_version := TRANSACTION_EXPOSURE_VERSION |>,
     Ok ((version =? 0) || raised))
  else (self, Err DErr.UnsupportedVersion).

(** ** Scans *)

Definition begin_scan (target : ScanTarget) : method WalletState DErr.DomainError unit := fun self =>
  match ScanTarget_validate target with
  | Err e => (self, Err e)
  | Ok _ => (self <| ws_provisional_target := Some target |>
                  <| ws_sync_status := Sync.Synchronizing |>, Ok tt)
  end.

Definition invalidate_scan (reason : string) (self : WalletState) : WalletState :=
  self <| ws_provisional_target := None |> <| ws_sync_status := Sync.RecoveryRequired reason |>.

(** ** Lemmas: balance *)

(** The exact (unbounded) sum of the outputs in a class of states. *)
Definition value_in (p : Out.OutputState -> bool) (outputs : list OutputRecord) : N :=
  foldr (fun o acc => (if p o.(out_state) then o.(out_value) else 0) + acc) 0 outputs.

Definition is_confirmed_output (s : Out.OutputState) : bool :=
  match s with Out.Confirmed => true | _ => false end.
Definition is_immature (s : Out.OutputState) : bool :=
  match s with Out.Immature _ => true | _ => false end.
Definition is_incoming (s : Out.OutputState) : bool :=
  match s with Out.PendingIncoming => true | _ => false end.
Definition is_outgoing (s : Out.OutputState) : bool :=
  match s with Out.PendingOutgoing => true | _ => false end.
Definition is_locked (s : Out.OutputState) : bool :=
  match s with Out.Locked => true | _ => false end.
Definition is_unspent (s : Out.OutputState) : bool := negb (Out.is_spent s).

Lemma value_in_snoc p outputs o :
  value_in p (outputs ++ [o])
  = value_in p outputs + (if p o.(out_state) then o.(out_value) else 0).
Proof.
  unfold value_in. induction outputs as [|x l IH]; simpl; lia.
Qed.

Lemma saturating_add_assoc m a b :
  saturating_add m (N.min m a) b = N.min m (a + b).
Proof. unfold saturating_add. lia. Qed.

(** ** Lemmas: kernel evidence *)

(** What one kernel does to the transaction it belongs to. *)
Definition kernel_effect (height : N) (block_hash : bytes) (t : LocalTransactionIntent)
    : LocalTransactionIntent :=
  match t.(tx_lifecycle) with
  | L.Submitted | L.AcceptedNotRelayed | L.InMempool | L.RetransmitRequired | L.Submitting
  | L.Reorged =>
      t <| tx_exposure ::= fun e => Exp.max e Exp.Confirmed |>
        <| tx_lifecycle := L.Confirmed height block_hash |>
  | L.Confirmed h b =>
      if (h =? height) && bool_decide (b = block_hash) then t
      else t <| tx_exposure ::= fun e => Exp.max e Exp.PossiblyRelayed |>
             <| tx_lifecycle := L.ReconciliationRequired |>
  | _ => t
  end.

(** No transition [apply_kernel] asks for is ever refused. *)
Lemma apply_kernel_total h b t : apply_kernel h b t = (kernel_effect h b t, Ok tt).
Proof.
  unfold apply_kernel, kernel_effect.
  destruct (tx_lifecycle t) eqn:E; try done; try (destruct (_ && _); [done|]);
    by rewrite transition_mut_of_table by by rewrite E.
Qed.

Lemma kernel_effect_excess h b t : tx_kernel_excess (kernel_effect h b t) = tx_kernel_excess t.
Proof. unfold kernel_effect. destruct (tx_lifecycle t); try done. by destruct (_ && _). Qed.

Lemma kernel_effect_idem h b t : kernel_effect h b (kernel_effect h b t) = kernel_effect h b t.
Proof.
  unfold kernel_effect at 2 3. destruct (tx_lifecycle t) eqn:E; try (unfold kernel_effect; by rewrite E);
    try (unfold kernel_effect; simpl; by rewrite N.eqb_refl, bool_decide_eq_true_2).
  destruct (_ && _) eqn:Ek; unfold kernel_effect; simpl; [|done]. by rewrite E, Ek.
Qed.

(** The effect of a whole block on one transaction. *)
Definition kernels_effect (h : N) (b : bytes) (kernels : list bytes) (t : LocalTransactionIntent)
    : LocalTransactionIntent :=
  if bool_decide (t.(tx_kernel_excess) ∈ kernels) then kernel_effect h b t else t.

Lemma kernels_effect_excess h b ks t : tx_kernel_excess (kernels_effect h b ks t) = tx_kernel_excess t.
Proof. unfold kernels_effect. case_bool_decide; [apply kernel_effect_excess|done]. Qed.

Lemma kernels_effect_nil h b t : kernels_effect h b [] t = t.
Proof. unfold kernels_effect. case_bool_decide; [set_solver|done]. Qed.

Lemma kernels_effect_cons h b k ks t :
  k ∉ ks ->
  kernels_effect h b ks (if has_kernel k t then kernel_effect h b t else t)
  = kernels_effect h b (k :: ks) t.
Proof.
  intros Hk. unfold kernels_effect, has_kernel.
  destruct (decide (tx_kernel_excess t = k)) as [<-|Hn].
  - rewrite (bool_decide_eq_true_2 (_ = _)) by done.
    rewrite kernel_effect_excess, bool_decide_eq_false_2 by done.
    by rewrite bool_decide_eq_true_2 by set_solver.
  - rewrite (bool_decide_eq_false_2 (_ = _)) by done.
    destruct (decide (tx_kernel_excess t ∈ ks)).
    + by rewrite !bool_decide_eq_true_2 by set_solver.
    + by rewrite !bool_decide_eq_false_2 by set_solver.
Qed.

(** How many local transactions a kernel names. *)
Definition kernel_matches (k : bytes) (txs : list LocalTransactionIntent) : nat :=
  length (List.filter (has_kernel k) txs).

Lemma kernel_matches_map k f txs :
  (forall t, tx_kernel_excess (f t) = tx_kernel_excess t) ->
  kernel_matches k (map f txs) = kernel_matches k txs.
Proof.
  intros Hf. unfold kernel_matches. induction txs as [|t txs IH]; simpl; [done|].
  unfold has_kernel in *. rewrite Hf. destruct (bool_decide _); simpl; lia.
Qed.

Lemma at_transaction_ok i m f s t :
  ws_transactions s !! i = Some t -> m t = (f t, Ok tt) ->
  at_transaction i m s = (s <| ws_transactions ::= alter f i |>, Ok tt).
Proof.
  intros Ht Hm. unfold at_transaction. rewrite Ht, Hm. simpl.
  by rewrite (insert_as_alter f _ _ _ Ht).
Qed.

Definition kernels_state (h : N) (b : bytes) (ks : list bytes) (s : WalletState) : WalletState :=
  s <| ws_transactions ::= map (kernels_effect h b ks) |>.

Lemma kernel_step_state h b k s :
  (kernel_matches k s.(ws_transactions) <= 1)%nat ->
  exists s1, s1 = s <| ws_transactions ::=
      map (fun t => if has_kernel k t then kernel_effect h b t else t) |>
  /\ forall ks seen, k ∉ seen ->
     kernel_evidence_loop h b (k :: ks) seen s
     = kernel_evidence_loop h b ks ({[k]} ∪ seen) s1.
Proof.
  intros Hm. eexists; split; [done|]. intros ks seen Hk. simpl.
  rewrite bool_decide_eq_false_2 by done.
  unfold kernel_matches in Hm. rewrite <-positions_filter in Hm.
  destruct (positions (has_kernel k) (ws_transactions s)) as [|i [|j r]] eqn:E.
  - rewrite (map_id_on _ (ws_transactions s)); [by destruct s|].
    intros t Ht. rewrite positions_nil in E. by rewrite (E t Ht).
  - unfold mthen.
    assert (i ∈ positions (has_kernel k) (ws_transactions s)) as Hi by (rewrite E; set_solver).
    apply positions_lookup in Hi as (t & Ht & _).
    rewrite (at_transaction_ok i _ (kernel_effect h b) s t Ht) by apply apply_kernel_total.
    simpl. by rewrite (alter_map_unique _ _ _ _ E).
  - simpl in Hm. lia.
Qed.

Lemma kernel_evidence_loop_ok h b ks seen s :
  NoDup ks -> (forall k, k ∈ ks -> k ∉ seen) ->
  (forall k, k ∈ ks -> (kernel_matches k s.(ws_transactions) <= 1)%nat) ->
  kernel_evidence_loop h b ks seen s = (kernels_state h b ks s, Ok tt).
Proof.
  revert seen s. induction ks as [|k ks IH]; intros seen s Hnd Hseen Hm.
  - simpl. unfold mret, kernels_state. simpl.
    rewrite map_id_on by (intros; apply kernels_effect_nil). by destruct s.
  - apply NoDup_cons in Hnd as [Hk Hnd].
    destruct (kernel_step_state h b k s) as (s1 & -> & Hstep); [apply Hm; set_solver|].
    rewrite Hstep by (apply Hseen; set_solver).
    rewrite IH; [|done|set_solver|].
    + unfold kernels_state. simpl. f_equal. rewrite map_map. f_equal.
      apply map_ext. intros t. by apply kernels_effect_cons.
    + intros k' Hk'. simpl. rewrite kernel_matches_map by
        (intros t; destruct (has_kernel k t); [apply kernel_effect_excess|done]).
      apply Hm. set_solver.
Qed.

Lemma kernel_evidence_loop_inv h b ks seen s s' :
  kernel_evidence_loop h b ks seen s = (s', Ok tt) ->
  NoDup ks /\ (forall k, k ∈ ks -> k ∉ seen)
  /\ (forall k, k ∈ ks -> (kernel_matches k s.(ws_transactions) <= 1)%nat).
Proof.
  revert seen s. induction ks as [|k ks IH]; intros seen s H.
  - split; [constructor|]. set_solver.
  - destruct (decide (k ∈ seen)) as [Hk|Hk].
    { simpl in H. by rewrite bool_decide_eq_true_2 in H. }
    destruct (decide (kernel_matches k s.(ws_transactions) <= 1)%nat) as [Hm|Hm].
    + destruct (kernel_step_state h b k s Hm) as (s1 & -> & Hstep).
      rewrite Hstep in H by done. apply IH in H as (Hnd & Hs & Hms).
      split; [constructor; set_solver|]. split; [set_solver|].
      intros k' [->|Hk']%elem_of_cons; [done|].
      specialize (Hms k' Hk'). simpl in Hms. rewrite kernel_matches_map in Hms; [done|].
      intros t; destruct (has_kernel k t); [apply kernel_effect_excess|done].
    + simpl in H. rewrite bool_decide_eq_false_2 in H by done.
      unfold kernel_matches in Hm. rewrite <-positions_filter in Hm.
      destruct (positions (has_kernel k) (ws_transactions s)) as [|i [|j r]]; simpl in *; done || lia.
Qed.

(** ** Lemmas: output evidence *)

Lemma confirm_output_commitment h o : out_commitment (confirm_output h o) = out_commitment o.
Proof. unfold confirm_output. by destruct (Out.is_spent _). Qed.

Lemma confirm_output_idem h o : confirm_output h (confirm_output h o) = confirm_output h o.
Proof.
  unfold confirm_output at 2 3. destruct (Out.is_spent (out_state o)) eqn:E; [|done].
  unfold confirm_output. by rewrite E.
Qed.

Definition recipient_confirmed (h : N) (b : bytes) (t : LocalTransactionIntent)
    : LocalTransactionIntent :=
  t <| tx_exposure ::= fun e => Exp.max e Exp.Confirmed |> <| tx_lifecycle := L.Confirmed h b |>.

Definition awaits_confirmation (t : LocalTransactionIntent) : bool :=
  match t.(tx_lifecycle) with L.ResponsePrepared | L.ResponseExported => true | _ => false end.

Definition confirm_recipient_effect (output_id h : N) (b : bytes) (t : LocalTransactionIntent)
    : LocalTransactionIntent :=
  if bool_decide (t.(tx_recipient_output_id) = Some output_id) && awaits_confirmation t
  then recipient_confirmed h b t else t.

Lemma confirm_recipient_total id h b t :
  confirm_recipient id h b t = (confirm_recipient_effect id h b t, Ok tt).
Proof.
  unfold confirm_recipient, confirm_recipient_effect, awaits_confirmation.
  destruct (_ && _) eqn:E; [|done]. bool_inv.
  rewrite transition_mut_of_table; [done|]. by destruct (tx_lifecycle t).
Qed.

(** Each commitment of [cs] had its output confirmed, no other output changed. *)
Definition outputs_confirmed (cs : list bytes) (h : N) (outs outs' : list OutputRecord) : Prop :=
  length outs' = length outs
  /\ forall j o, outs !! j = Some o ->
     exists o', outs' !! j = Some o'
     /\ (o' = o \/ o' = confirm_output h o /\ exists c, c ∈ cs /\ out_commitment o = Some c).

Lemma outputs_confirmed_refl cs h outs : outputs_confirmed cs h outs outs.
Proof. split; [done|]. eauto. Qed.

Lemma outputs_confirmed_step c cs h outs outs1 outs' i :
  position (has_commitment c) outs = Some i -> outs1 = alter (confirm_output h) i outs ->
  outputs_confirmed cs h outs1 outs' -> outputs_confirmed (c :: cs) h outs outs'.
Proof.
  intros Hp -> [Hl H]. split; [by rewrite Hl, length_alter|].
  intros j o Ho. destruct (decide (i = j)) as [<-|Hn].
  - destruct (H i (confirm_output h o)) as (o' & Ho' & Hc).
    { by rewrite list_lookup_alter_eq, Ho. }
    exists o'. split; [done|]. right. split.
    + destruct Hc as [->|[-> _]]; [done|]. apply confirm_output_idem.
    + exists c. split; [set_solver|]. pose proof (position_lookup _ _ _ _ Hp Ho) as Hc'.
      unfold has_commitment in Hc'. by bool_inv.
  - destruct (H j o) as (o' & Ho' & Hc); [by rewrite list_lookup_alter_ne|].
    exists o'. split; [done|]. destruct Hc as [->|(-> & c' & ? & ?)]; [by left|].
    right. split; [done|]. exists c'. split; [set_solver|done].
Qed.

Lemma confirm_loop_frame cs h b seen s s' r :
  confirm_outputs_loop cs h b seen s = (s', r) ->
  outputs_confirmed cs h s.(ws_outputs) s'.(ws_outputs)
  /\ s' = s <| ws_outputs := s'.(ws_outputs) |> <| ws_transactions := s'.(ws_transactions) |>.
Proof.
  revert seen s. induction cs as [|c cs IH]; intros seen s H; simpl in H.
  - injection H as <- _. split; [apply outputs_confirmed_refl|by destruct s].
  - destruct (bool_decide _).
    { injection H as <- _. split; [apply outputs_confirmed_refl|by destruct s]. }
    destruct (position _ _) as [i|] eqn:Hp.
    + unfold mthen, on_transactions in H.
      rewrite (for_each_mut_total _ (confirm_recipient_effect
        (from_option out_id 0 (alter (confirm_output h) i (ws_outputs s) !! i)) h b)) in H
        by (intros; apply confirm_recipient_total).
      simpl in H. apply IH in H as [Ho Hs]. split.
      * by eapply outputs_confirmed_step.
      * rewrite Hs. by destruct s.
    + apply IH in H as [[Hl Ho] Hs]. split; [|done]. split; [done|].
      intros j o Hj. destruct (Ho j o Hj) as (o' & ? & [->|(-> & c' & ? & ?)]); eauto 10 with set_solver.
      exists (confirm_output h o). split; [done|]. right. split; [done|]. exists c'. split; [set_solver|done].
Qed.

Lemma has_commitment_alter c h i outs :
  position (has_commitment c) (alter (confirm_output h) i outs) = position (has_commitment c) outs.
Proof.
  revert i. induction outs as [|o outs IH]; intros i; simpl; [done|].
  destruct i as [|i]; simpl.
  - unfold has_commitment at 1. rewrite confirm_output_commitment. done.
  - fold (alter (M:=list OutputRecord) (confirm_output h) i outs). rewrite IH. done.
Qed.

Lemma confirm_loop_hits cs h b seen s s' c i o :
  confirm_outputs_loop cs h b seen s = (s', Ok tt) -> c ∈ cs ->
  position (has_commitment c) s.(ws_outputs) = Some i -> s.(ws_outputs) !! i = Some o ->
  s'.(ws_outputs) !! i = Some (confirm_output h o).
Proof.
  revert seen s o. induction cs as [|c' cs IH]; intros seen s o H Hc Hp Ho; [set_solver|].
  simpl in H. destruct (bool_decide (c' ∈ seen)); [done|].
  destruct (position (has_commitment c') _) as [k|] eqn:Hk.
  - unfold mthen, on_transactions in H.
    rewrite (for_each_mut_total _ (confirm_recipient_effect
        (from_option out_id 0 (alter (confirm_output h) k (ws_outputs s) !! k)) h b)) in H
      by (intros; apply confirm_recipient_total).
    simpl in H. destruct (decide (c = c')) as [->|Hn].
    + rewrite Hp in Hk. injection Hk as ->.
      apply confirm_loop_frame in H as [[_ H] _].
      destruct (H k (confirm_output h o)) as (o' & Ho' & Hc').
      { simpl. by rewrite list_lookup_alter_eq, Ho. }
      rewrite Ho'. f_equal. destruct Hc' as [->|[-> _]]; [done|]. apply confirm_output_idem.
    + assert (Hk2 : k <> i).
      { intros ->. apply (position_lookup _ _ _ o) in Hp, Hk; try done.
        unfold has_commitment in *. bool_inv. congruence. }
      eapply IH; [exact H|set_solver| |]; simpl.
      * by rewrite has_commitment_alter.
      * by rewrite list_lookup_alter_ne.
  - destruct (decide (c = c')) as [->|Hn]; [congruence|]. eapply IH; [exact H|set_solver|done|done].
Qed.

(** ** Lemmas: allocation and migration *)

(** No floor of [s'] is below that of [s]. *)
Definition floors_le (s s' : WalletState) : Prop :=
  s.(ws_allocation_floor) <= s'.(ws_allocation_floor)
  /\ s.(ws_non_reuse_floor) <= s'.(ws_non_reuse_floor)
  /\ forall class, recovery_floor class s.(ws_recovery_allocation_floors)
                   <= recovery_floor class s'.(ws_recovery_allocation_floors).

(** Two classes that draw from one floor. *)
Definition same_domain (a b : ROC.RecoveryOutputClass) : Prop :=
  forall f, recovery_floor a f = recovery_floor b f.

Lemma set_recovery_floor_eq c v f : recovery_floor c (set_recovery_floor c v f) = v.
Proof. by destruct c. Qed.

Lemma reserve_Ok account class s s' c :
  reserve_recovery_coordinate account class s = (s', Ok c) ->
  let floor := recovery_floor class s.(ws_recovery_allocation_floors) in
  c = mkReservedRecoveryCoordinate account (floor + 1) class
  /\ floor + 1 <= u64_max
  /\ s' = s <| ws_recovery_allocation_floors ::= set_recovery_floor class (floor + 1) |>
            <| ws_non_reuse_floor ::= fun f => N.max f (floor + 1) |>.
Proof.
  unfold reserve_recovery_coordinate. destruct (checked_add _ _ _) as [i|] eqn:E; [|done].
  apply checked_add_Some in E as [-> Hle]. intros [= <- <-]. done.
Qed.

Lemma reserve_floors_le account class s s' c :
  reserve_recovery_coordinate account class s = (s', Ok c) -> floors_le s s'.
Proof.
  intros (_ & _ & ->)%reserve_Ok. split; [done|]. split; [simpl; lia|].
  intros c'. destruct class, c'; simpl; lia.
Qed.

Lemma migrate_one_covers version t :
  version = 0 \/ version = TRANSACTION_EXPOSURE_VERSION -> exposure_covers (migrate_one version t).
Proof.
  intros Hv. unfold migrate_one, inferred_exposure, exposure_covers, Exp.ltb.
  assert (Exp.rank (minimum_current_exposure (tx_lifecycle t) (tx_submitted t))
          <= Exp.rank (infer_legacy_exposure (tx_lifecycle t) (tx_submitted t))) as Hle.
  { destruct (tx_lifecycle t), (tx_submitted t); simpl; lia. }
  destruct Hv as [-> | ->]; simpl;
    match goal with |- context [if ?b then _ else t] => destruct b eqn:E end;
    simpl; bool_inv; apply N.ltb_ge; lia.
Qed.

Lemma migrate_one_grows version t :
  Exp.rank t.(tx_exposure) <= Exp.rank (migrate_one version t).(tx_exposure).
Proof.
  unfold migrate_one, Exp.ltb. destruct (_ <? _) eqn:E; simpl; bool_inv; lia.
Qed.

Lemma migrate_covered t :
  exposure_covers t -> migrate_one TRANSACTION_EXPOSURE_VERSION t = t.
Proof. unfold exposure_covers, migrate_one, inferred_exposure. simpl. by intros ->. Qed.

(** ** Properties *)

(** The balance is exact: every bucket is the sum of the values of the
    outputs in its states, capped at [u64::MAX]; the spendable part is the
    confirmed part, the total covers every output that is not spent, and spent
    outputs count nowhere. *)
Theorem balance_exact outputs :
  from_outputs outputs = {|
    bal_confirmed := N.min u64_max (value_in is_confirmed_output outputs);
    bal_immature := N.min u64_max (value_in is_immature outputs);
    bal_pending_incoming := N.min u64_max (value_in is_incoming outputs);
    bal_pending_outgoing := N.min u64_max (value_in is_outgoing outputs);
    bal_locked := N.min u64_max (value_in is_locked outputs);
    bal_spendable := N.min u64_max (value_in is_confirmed_output outputs);
    bal_total := N.min u64_max (value_in is_unspent outputs);
  |}.
Proof.
  unfold from_outputs. induction outputs as [|o outputs IH] using rev_ind; [done|].
  rewrite fold_left_app, IH, !value_in_snoc. simpl. unfold balance_add.
  destruct (out_state o); simpl; rewrite ?saturating_add_assoc, ?N.add_0_r; done.
Qed.

(** C32 A recovery coordinate is never handed out twice: two reservations from
    one domain, with any operations in between that lower no floor, give
    strictly increasing indices, and the first remains resumable. *)
Theorem coordinates_are_never_reused s s1 s2 s3 a1 a2 k1 k2 c1 c2
    (H1 : reserve_recovery_coordinate a1 k1 s = (s1, Ok c1)) (Hmid : floors_le s1 s2)
    (H2 : reserve_recovery_coordinate a2 k2 s2 = (s3, Ok c2)) (Hdom : same_domain k1 k2) :
  c1.(rrc_derivation_index) < c2.(rrc_derivation_index) <= s3.(ws_non_reuse_floor)
  /\ resume_recovery_coordinate s3 a1 c1.(rrc_derivation_index) k1 = Ok c1.
Proof.
  pose proof (reserve_floors_le _ _ _ _ _ H2) as (_ & _ & Hf).
  apply reserve_Ok in H1 as (-> & _ & ->). apply reserve_Ok in H2 as (-> & _ & Hs3).
  destruct Hmid as (_ & _ & Hm). specialize (Hm k1). simpl in Hm.
  rewrite set_recovery_floor_eq in Hm. specialize (Hf k1).
  simpl. rewrite <-(Hdom (ws_recovery_allocation_floors s2)). split.
  - rewrite Hs3. simpl. rewrite <-(Hdom (ws_recovery_allocation_floors s2)). lia.
  - unfold resume_recovery_coordinate.
    destruct (_ || _) eqn:E; [|done]. apply orb_true_iff in E as [E|E]; bool_inv; lia.
Qed.

(** Block kernels are the only confirmation evidence, applied exactly: the
    call succeeds if and only if the kernels are distinct and name at most one
    transaction each, and then the named transactions get the effect of their
    kernel and nothing else changes. *)
Theorem kernel_evidence_exact height block_hash kernels s s' :
  apply_kernel_evidence height block_hash kernels s = (s', Ok tt) <->
  NoDup kernels
  /\ (forall k, k ∈ kernels -> (kernel_matches k s.(ws_transactions) <= 1)%nat)
  /\ s' = s <| ws_transactions ::= map (kernels_effect height block_hash kernels) |>.
Proof.
  unfold apply_kernel_evidence. split.
  - intros H. pose proof (kernel_evidence_loop_inv _ _ _ _ _ _ H) as (Hnd & _ & Hm).
    split; [done|]. split; [done|].
    rewrite kernel_evidence_loop_ok in H by (done || set_solver). by injection H as <-.
  - intros (Hnd & Hm & ->). apply kernel_evidence_loop_ok; done || set_solver.
Qed.

(** Rescanning a block changes nothing: kernel evidence that was applied
    once can be applied again, with the same state as the result. *)
Theorem kernel_evidence_idempotent height block_hash kernels s s'
    (H : apply_kernel_evidence height block_hash kernels s = (s', Ok tt)) :
  apply_kernel_evidence height block_hash kernels s' = (s', Ok tt).
Proof.
  unfold apply_kernel_evidence in *.
  pose proof (kernel_evidence_loop_inv _ _ _ _ _ _ H) as (Hnd & _ & Hm).
  rewrite kernel_evidence_loop_ok in H by (done || set_solver). injection H as <-.
  rewrite kernel_evidence_loop_ok; [|done|set_solver|].
  - unfold kernels_state. simpl. rewrite map_map. f_equal. f_equal. apply map_ext.
    intros t. unfold kernels_effect. destruct (decide (tx_kernel_excess t ∈ kernels)) as [Hk|Hk].
    + rewrite (bool_decide_eq_true_2 (tx_kernel_excess t ∈ _)) by done.
      by rewrite kernel_effect_excess, bool_decide_eq_true_2, kernel_effect_idem.
    + by rewrite !bool_decide_eq_false_2 by (rewrite ?bool_decide_eq_false_2; done).
  - intros k Hk. simpl. rewrite kernel_matches_map by apply kernels_effect_excess. auto.
Qed.

(** Block outputs never create wallet outputs: whatever the commitments and
    whether or not the call succeeds, outputs are only ever confirmed in place,
    each because its own commitment was listed, and nothing but outputs and
    transactions is written; on success every listed commitment the wallet
    knows has had its output confirmed. *)
Theorem output_evidence_exact commitments height block_hash s s' r
    (H : mark_known_outputs_confirmed commitments height block_hash s = (s', r)) :
  outputs_confirmed commitments height s.(ws_outputs) s'.(ws_outputs)
  /\ s' = s <| ws_outputs := s'.(ws_outputs) |> <| ws_transactions := s'.(ws_transactions) |>
  /\ (r = Ok tt -> forall c i o, c ∈ commitments ->
        position (has_commitment c) s.(ws_outputs) = Some i -> s.(ws_outputs) !! i = Some o ->
        s'.(ws_outputs) !! i = Some (confirm_output height o)).
Proof.
  destruct (confirm_loop_frame _ _ _ _ _ _ _ H) as [Ho Hs]. split; [done|]. split; [done|].
  intros -> c i o Hc Hp Hi. by eapply confirm_loop_hits.
Qed.

(** The exposure migration is conservative: it succeeds on every known
    version, lowers no exposure, leaves every transaction with at least the
    exposure its lifecycle demands, reports a change for every legacy state,
    and running it again changes nothing. *)
Theorem migration_is_conservative s s' changed
    (H : migrate_transaction_exposure s = (s', Ok changed)) :
  Forall2 (fun t t' => Exp.le t.(tx_exposure) t'.(tx_exposure))
          s.(ws_transactions) s'.(ws_transactions)
  /\ Forall exposure_covers s'.(ws_transactions)
  /\ s'.(ws_transaction_exposure_version) = TRANSACTION_EXPOSURE_VERSION
  /\ (s.(ws_transaction_exposure_version) = 0 -> changed = true)
  /\ migrate_transaction_exposure s' = (s', Ok false).
Proof.
  unfold migrate_transaction_exposure in H.
  destruct (_ || _) eqn:Ev; [|done]. injection H as <- <-.
  set (v := ws_transaction_exposure_version s) in *.
  assert (Hv : v = 0 \/ v = TRANSACTION_EXPOSURE_VERSION)
    by (apply orb_true_iff in Ev as [E|E]; bool_inv; auto).
  assert (Hcov : Forall exposure_covers (map (migrate_one v) (ws_transactions s))).
  { apply Forall_map, Forall_forall. intros t _. by apply migrate_one_covers. }
  split; [|split; [done|split; [done|split]]].
  - simpl. clear Hcov. induction (ws_transactions s) as [|t l IH]; constructor; [|done].
    apply migrate_one_grows.
  - intros ->. done.
  - unfold migrate_transaction_exposure. simpl.
    rewrite (map_id_on (migrate_one TRANSACTION_EXPOSURE_VERSION));
      [|intros t Ht; apply migrate_covered; by eapply Forall_forall].
    f_equal. f_equal. clear -Hcov.
    induction (map (migrate_one v) (ws_transactions s)) as [|t l IH]; [done|].
    inversion Hcov; subst. simpl. unfold inferred_exposure at 1. simpl.
    by rewrite H1, IH.
Qed.

(** ** Witnesses *)

(** The identity, configuration and state of the crate's own tests. *)
Definition sample_bytes (n : nat) (b : Byte.byte) : bytes := replicate n b.
Definition sample_identity : NetworkIdentity :=
  mkNetworkIdentity Net.PrivateTestnet (sample_bytes 32 Byte.x01) (sample_bytes 32 Byte.x02).
Definition sample_configuration : NodeConfiguration :=
  mkNodeConfiguration "https://node.invalid" sample_identity "mock-a" 1 100 100 10 3 100 2 true
    (Some "environment:DOM_NODE_TOKEN"%string).
Definition fresh_wallet : WalletState :=
  WalletState_new 11 12 sample_identity (sample_bytes 32 Byte.x07) sample_configuration.

Definition sample_output (id : uuid) (b : Byte.byte) (state : Out.OutputState) : OutputRecord :=
  mkOutputRecord id 12 (Some (sample_bytes 33 b)) 600000 state 0 None.
Definition kernel_tx : LocalTransactionIntent :=
  (transaction_in L.Submitted) <| tx_kernel_excess := sample_bytes 33 Byte.x03 |>
    <| tx_submitted := true |> <| tx_exposure := Exp.PossiblyRelayed |>.
Definition recipient_tx : LocalTransactionIntent :=
  (transaction_in L.ResponseExported) <| tx_recipient_output_id := Some 5 |>.
Definition busy_wallet : WalletState :=
  fresh_wallet <| ws_outputs := [sample_output 5 Byte.x05 Out.PendingIncoming] |>
    <| ws_transactions := [kernel_tx; recipient_tx] |>.

Definition reserved_once : WalletState := (reserve_recovery_coordinate 0 ROC.ReceiveRequest fresh_wallet).1.
Definition reserved_twice : WalletState := (reserve_recovery_coordinate 0 ROC.ReceiveSlate reserved_once).1.

Lemma coordinates_are_never_reused_witness :
  1 < 2 <= reserved_twice.(ws_non_reuse_floor)
  /\ resume_recovery_coordinate reserved_twice 0 1 ROC.ReceiveRequest
     = Ok (mkReservedRecoveryCoordinate 0 1 ROC.ReceiveRequest).
Proof.
  apply (coordinates_are_never_reused fresh_wallet reserved_once reserved_once reserved_twice
           0 0 ROC.ReceiveRequest ROC.ReceiveSlate
           (mkReservedRecoveryCoordinate 0 1 ROC.ReceiveRequest)
           (mkReservedRecoveryCoordinate 0 2 ROC.ReceiveSlate)).
  - reflexivity.
  - split; [|split]; intros; apply N.le_refl.
  - reflexivity.
  - intros f. reflexivity.
Defined.

Definition received_wallet : WalletState :=
  (mark_known_outputs_confirmed [sample_bytes 33 Byte.x05; sample_bytes 33 Byte.x06] 12
     (sample_bytes 32 Byte.x07) busy_wallet).1.

Definition legacy_wallet : WalletState :=
  fresh_wallet <| ws_transactions := [transaction_in L.RetransmitRequired] |>
    <| ws_transaction_exposure_version := 0 |>.
Definition migrated_wallet : WalletState := (migrate_transaction_exposure legacy_wallet).1.
