(* ===== verification/Reservations.v ===== *)
(** * Scriptless reservations: validation

    [WalletState::validate_scriptless_funding_reservations] and
    [validate_scriptless_payout_reservations] of
    crates/dom-wallet-domain/src/lib.rs.  Each loop body is cut at its error
    checks; every check of one loop returns the same error. *)

From S2P Require Import Prelude DomainTypes WalletOps.

Abbreviation FErr := DErr.InvalidScriptlessFundingReservation (only parsing).
Abbreviation PErr := DErr.InvalidScriptlessPayoutReservation (only parsing).

(** ** Funding *)

(** The four [BTreeSet]s of the loop. *)
Record funding_seen := mkFundingSeen {
  fs_ids : gset uuid;
  fs_sessions : gset bytes;
  fs_reserved_inputs : gset uuid;
  fs_reserved_commitments : gset bytes;
}.
#[global] Instance funding_seen_fields : FieldList funding_seen := fun r =>
  mkFundingSeen r.(fs_ids) r.(fs_sessions) r.(fs_reserved_inputs) r.(fs_reserved_commitments).

Definition fr_has_change (r : ScriptlessFundingReservation) : bool :=
  negb (r.(fr_change_value_noms) =? 0).

(** [prepared] *)
Definition fr_prepared (r : ScriptlessFundingReservation) : bool :=
  match r.(fr_state) with
  | FundSt.Prepared | FundSt.SessionBound | FundSt.Exported | FundSt.TemplateBound
  | FundSt.AbandonedRetained => true
  | _ => false
  end.

(** The first condition of the loop body: shape, identity and change fields. *)
Definition funding_shape_bad (self : WalletState) (seen : funding_seen)
    (r : ScriptlessFundingReservation) : bool :=
  let is_zero_debit_signer := r.(fr_local_debit_noms) =? 0 in
  let has_change := fr_has_change r in
  negb (r.(fr_version) =? SCRIPTLESS_FUNDING_RESERVATION_VERSION)
  || uuid_is_nil r.(fr_id)
  || is_zero32 r.(fr_session_id)
  || is_zero33 r.(fr_shared_output_commitment)
  || (r.(fr_funding_fee_noms) =? 0)
  || (negb is_zero_debit_signer && (r.(fr_expected_input_count) =? 0))
  || (r.(fr_expected_output_count) =? 0)
  || negb (Bool.eqb (is_empty r.(fr_reserved_output_ids)) is_zero_debit_signer)
  || negb (len r.(fr_reserved_output_ids) =? len r.(fr_input_commitments))
  || (r.(fr_expected_input_count) <? len r.(fr_reserved_output_ids))
  || (r.(fr_expected_output_count) <? saturating_add u64_max (if has_change then 1 else 0) 1)
  || (is_zero_debit_signer
      && (has_change || is_some r.(fr_change_derivation_index) || is_some r.(fr_change_output_id)))
  || existsb (fun c => negb (len c =? 33)) r.(fr_input_commitments)
  || bool_decide (r.(fr_id) ∈ seen.(fs_ids))
  || bool_decide (r.(fr_session_id) ∈ seen.(fs_sessions))
  || negb (Bool.eqb has_change (is_some r.(fr_change_derivation_index)))
  || negb (Bool.eqb has_change (is_some r.(fr_change_output_id)))
  || is_some_and r.(fr_change_derivation_index) (fun index =>
       (index =? 0) || (self.(ws_recovery_allocation_floors).(raf_change) <? index)).

Definition funding_has_prepared_fields (r : ScriptlessFundingReservation) : bool :=
  let has_change := fr_has_change r in
  Bool.eqb (is_some r.(fr_change_commitment)) has_change
  && negb (Bool.eqb (is_empty r.(fr_change_output_bytes)) has_change)
  && is_some r.(fr_offset_contribution)
  && (len r.(fr_wallet_excess_public_key) =? 33)
  && is_some_and r.(fr_private_context) (fun c => funding_context_structurally_valid c has_change).

Definition position_bad (p : option N) : bool :=
  is_none_or p (fun position => SCRIPTLESS_PARTICIPANT_COUNT_V1 <=? position).

(** The [match reservation.state] of the loop body: which fields may be set. *)
Definition funding_state_bad (r : ScriptlessFundingReservation) : bool :=
  let has_prepared_fields := funding_has_prepared_fields r in
  match r.(fr_state) with
  | FundSt.Reserved | FundSt.Cancelled =>
      is_some r.(fr_change_commitment)
      || negb (is_empty r.(fr_change_output_bytes))
      || is_some r.(fr_offset_contribution)
      || negb (is_empty r.(fr_wallet_excess_public_key))
      || is_some r.(fr_template_hash)
      || is_some r.(fr_session_share_binding_digest)
      || is_some r.(fr_participant_position)
      || is_some r.(fr_template_participants)
      || is_some r.(fr_private_context)
  | FundSt.Prepared =>
      negb has_prepared_fields
      || is_some r.(fr_template_hash)
      || is_some r.(fr_session_share_binding_digest)
      || is_some r.(fr_participant_position)
      || is_some r.(fr_template_participants)
  | FundSt.SessionBound | FundSt.Exported =>
      negb has_prepared_fields
      || is_some r.(fr_template_hash)
      || is_none_or r.(fr_session_share_binding_digest) is_zero32
      || position_bad r.(fr_participant_position)
      || is_some r.(fr_template_participants)
  | FundSt.TemplateBound =>
      negb has_prepared_fields
      || is_none_or r.(fr_template_hash) is_zero32
      || is_none_or r.(fr_session_share_binding_digest) is_zero32
      || position_bad r.(fr_participant_position)
      || is_none_or r.(fr_template_participants) (fun p => negb (participants_structurally_valid p))
  | FundSt.AbandonedRetained =>
      negb has_prepared_fields
      || is_none_or r.(fr_session_share_binding_digest) is_zero32
      || position_bad r.(fr_participant_position)
      || negb (Bool.eqb (is_some r.(fr_template_hash)) (is_some r.(fr_template_participants)))
      || is_some_and r.(fr_template_hash) is_zero32
      || is_some_and r.(fr_template_participants) (fun p => negb (participants_structurally_valid p))
  end.

(** What the inner loop over the reserved inputs carries. *)
Record input_scan := mkInputScan {
  is_local_ids : gset uuid;
  is_local_commitments : gset bytes;
  is_reserved_inputs : gset uuid;
  is_reserved_commitments : gset bytes;
  is_present_total : N;
  is_all_present : bool;
}.

(** Whether a present input is in the state its reservation demands. *)
Definition input_secured (r : ScriptlessFundingReservation) (output : OutputRecord) : bool :=
  if FundSt.retains_inputs r.(fr_state) then
    match output.(out_state), output.(out_reserved_by) with
    | Out.Spent _, None => true
    | state, owner =>
        bool_decide (owner = Some r.(fr_id)) && bool_decide (state = Out.PendingOutgoing)
    end
  else negb (bool_decide (output.(out_reserved_by) = Some r.(fr_id))).

Definition validate_input (self : WalletState) (r : ScriptlessFundingReservation)
    (acc : input_scan) (input : uuid * bytes) : result DErr.DomainError input_scan :=
  let '(output_id, commitment) := input in
  fail_if (bool_decide (output_id ∈ acc.(is_local_ids))
           || bool_decide (commitment ∈ acc.(is_local_commitments))) FErr ;?
  fail_if (FundSt.retains_inputs r.(fr_state)
           && (bool_decide (output_id ∈ acc.(is_reserved_inputs))
               || bool_decide (commitment ∈ acc.(is_reserved_commitments)))) FErr ;?
  let local_ids := {[output_id]} ∪ acc.(is_local_ids) in
  let local_commitments := {[commitment]} ∪ acc.(is_local_commitments) in
  let retained := FundSt.retains_inputs r.(fr_state) in
  let reserved_inputs :=
    if retained then {[output_id]} ∪ acc.(is_reserved_inputs) else acc.(is_reserved_inputs) in
  let reserved_commitments :=
    if retained then {[commitment]} ∪ acc.(is_reserved_commitments)
    else acc.(is_reserved_commitments) in
  match find_first (fun o => o.(out_id) =? output_id) self.(ws_outputs) with
  | None =>
      Ok (mkInputScan local_ids local_commitments reserved_inputs reserved_commitments
            acc.(is_present_total) false)
  | Some output =>
      fail_if (negb (bool_decide (output.(out_commitment) = Some commitment))) FErr ;?
      let? total := ok_or (checked_add u64_max acc.(is_present_total) output.(out_value)) FErr in
      fail_if (negb (input_secured r output)) FErr ;?
      Ok (mkInputScan local_ids local_commitments reserved_inputs reserved_commitments
            total acc.(is_all_present))
  end.

(** The change output of a prepared reservation, the absence of that of a
    cancelled one. *)
Definition validate_change (self : WalletState) (r : ScriptlessFundingReservation)
    : result DErr.DomainError unit :=
  if fr_prepared r && fr_has_change r then
    let? output_id := ok_or r.(fr_change_output_id) FErr in
    let? change := ok_or (find_first (fun o => o.(out_id) =? output_id) self.(ws_outputs)) FErr in
    fail_if (negb (bool_decide (change.(out_commitment) = r.(fr_change_commitment)))
             || negb (change.(out_value) =? r.(fr_change_value_noms))
             || negb (change.(out_account_id) =? self.(ws_default_account).(acc_id))
             || bool_decide (output_blinding self output_id = None)) FErr
  else
    fail_if (bool_decide (r.(fr_state) = FundSt.Cancelled)
             && is_some_and r.(fr_change_output_id) (fun output_id =>
                  existsb (fun o => o.(out_id) =? output_id) self.(ws_outputs))) FErr.

Definition validate_funding_one (self : WalletState) (seen : funding_seen)
    (r : ScriptlessFundingReservation) : result DErr.DomainError funding_seen :=
  fail_if (funding_shape_bad self seen r) FErr ;?
  fail_if (funding_state_bad r) FErr ;?
  let? scan := foldM (validate_input self r)
                 (zip r.(fr_reserved_output_ids) r.(fr_input_commitments))
                 (mkInputScan ∅ ∅ seen.(fs_reserved_inputs) seen.(fs_reserved_commitments) 0 true) in
  (if scan.(is_all_present) then
     let? expected := ok_or (checked_add u64_max r.(fr_local_debit_noms) r.(fr_change_value_noms)) FErr in
     fail_if (negb (scan.(is_present_total) =? expected)) FErr
   else Ok tt) ;?
  validate_change self r ;?
  Ok (mkFundingSeen ({[r.(fr_id)]} ∪ seen.(fs_ids)) ({[r.(fr_session_id)]} ∪ seen.(fs_sessions))
        scan.(is_reserved_inputs) scan.(is_reserved_commitments)).

(** Who holds an unspent reserved output. *)
Definition ordinary_owner (self : WalletState) (owner output_id : uuid) : bool :=
  existsb (fun t => (t.(tx_id) =? owner)
                    && bool_decide (output_id ∈ t.(tx_reserved_output_ids))
                    && match t.(tx_lifecycle) with
                       | L.Cancelled | L.Failed => false
                       | _ => true
                       end) self.(ws_transactions).

Definition scriptless_owner (self : WalletState) (owner output_id : uuid) : bool :=
  existsb (fun r => (r.(fr_id) =? owner)
                    && FundSt.retains_inputs r.(fr_state)
                    && bool_decide (output_id ∈ r.(fr_reserved_output_ids)))
          self.(ws_scriptless_funding_reservations).

(** The closing loop over the reserved outputs that are not spent. *)
Definition validate_owner (self : WalletState) (output : OutputRecord)
    : result DErr.DomainError unit :=
  match output.(out_reserved_by) with
  | Some owner =>
      if Out.is_spent output.(out_state) then Ok tt
      else fail_if (Bool.eqb (ordinary_owner self owner output.(out_id))
                             (scriptless_owner self owner output.(out_id))) DErr.InvalidState
  | None => Ok tt
  end.

Definition validate_scriptless_funding_reservations (self : WalletState)
    : result DErr.DomainError unit :=
  fail_if (MAX_OUTPUTS <? len self.(ws_scriptless_funding_reservations)) FErr ;?
  let? _ := foldM (validate_funding_one self) self.(ws_scriptless_funding_reservations)
                  (mkFundingSeen ∅ ∅ ∅ ∅) in
  foldM (fun _ o => validate_owner self o) self.(ws_outputs) tt.

(** ** Payout *)

Record payout_seen := mkPayoutSeen {
  ps_ids : gset uuid;
  ps_sessions_and_roles : gset (bytes * PayRole.ScriptlessPayoutRoleV1);
  ps_output_ids : gset uuid;
  ps_output_commitments : gset bytes;
}.

Definition pr_has_output (r : ScriptlessPayoutReservation) : bool :=
  negb (r.(pr_payout_value_noms) =? 0).

Definition role_lock_is_valid (r : ScriptlessPayoutReservation) : bool :=
  match r.(pr_role) with
  | PayRole.Claim => r.(pr_refund_lock_height) =? 0
  | PayRole.Refund => negb (r.(pr_refund_lock_height) =? 0)
  end.

Definition payout_shape_bad (self : WalletState) (seen : payout_seen)
    (r : ScriptlessPayoutReservation) : bool :=
  let has_output := pr_has_output r in
  negb (r.(pr_version) =? SCRIPTLESS_PAYOUT_RESERVATION_VERSION)
  || uuid_is_nil r.(pr_id)
  || is_zero32 r.(pr_session_id)
  || is_zero33 r.(pr_shared_output_commitment)
  || (r.(pr_kernel_fee_noms) =? 0)
  || (r.(pr_expected_output_count) =? 0)
  || negb (Bool.eqb (is_some r.(pr_output_id)) has_output)
  || negb (Bool.eqb (is_some r.(pr_derivation_index)) has_output)
  || is_some_and r.(pr_output_id) uuid_is_nil
  || is_some_and r.(pr_derivation_index) (fun index =>
       (index =? 0) || (self.(ws_recovery_allocation_floors).(raf_self_transfer) <? index))
  || negb (role_lock_is_valid r)
  || bool_decide (r.(pr_id) ∈ seen.(ps_ids))
  || bool_decide ((r.(pr_session_id), r.(pr_role)) ∈ seen.(ps_sessions_and_roles))
  || is_some_and r.(pr_output_id) (fun id => bool_decide (id ∈ seen.(ps_output_ids))).

Definition payout_complete_material (r : ScriptlessPayoutReservation) : bool :=
  let has_output := pr_has_output r in
  Bool.eqb (is_some r.(pr_output_commitment)) has_output
  && negb (Bool.eqb (is_empty r.(pr_output_bytes)) has_output)
  && is_some r.(pr_offset_contribution)
  && (len r.(pr_payout_excess_public_key) =? 33)
  && is_some_and r.(pr_private_context) (fun c => payout_context_structurally_valid c has_output).

Definition payout_material_bad (r : ScriptlessPayoutReservation) : bool :=
  let has_material := PaySt.has_prepared_material r.(pr_state) in
  negb (Bool.eqb has_material (payout_complete_material r))
  || (negb has_material
      && (is_some r.(pr_output_commitment)
          || negb (is_empty r.(pr_output_bytes))
          || is_some r.(pr_offset_contribution)
          || negb (is_empty r.(pr_payout_excess_public_key))
          || is_some r.(pr_template_hash)
          || is_some r.(pr_session_share_binding_digest)
          || is_some r.(pr_participant_position)
          || is_some r.(pr_template_participants)
          || is_some r.(pr_private_context)))
  || is_some_and r.(pr_offset_contribution) is_zero32
  || is_some_and r.(pr_template_hash) is_zero32.

Definition payout_state_bad (r : ScriptlessPayoutReservation) : bool :=
  match r.(pr_state) with
  | PaySt.Reserved | PaySt.Cancelled | PaySt.Prepared =>
      is_some r.(pr_template_hash)
      || is_some r.(pr_session_share_binding_digest)
      || is_some r.(pr_participant_position)
      || is_some r.(pr_template_participants)
  | PaySt.SessionBound | PaySt.ComponentsExposed =>
      is_some r.(pr_template_hash)
      || is_none_or r.(pr_session_share_binding_digest) is_zero32
      || position_bad r.(pr_participant_position)
      || is_some r.(pr_template_participants)
  | PaySt.TemplateBound =>
      is_none_or r.(pr_template_hash) is_zero32
      || is_none_or r.(pr_session_share_binding_digest) is_zero32
      || position_bad r.(pr_participant_position)
      || is_none_or r.(pr_template_participants) (fun p => negb (participants_structurally_valid p))
  | PaySt.AbandonedRetained =>
      is_none_or r.(pr_session_share_binding_digest) is_zero32
      || position_bad r.(pr_participant_position)
      || negb (Bool.eqb (is_some r.(pr_template_hash)) (is_some r.(pr_template_participants)))
      || is_some_and r.(pr_template_participants) (fun p => negb (participants_structurally_valid p))
  end.

(** The closing [if] of the loop body: the local output of a prepared payout,
    the absence of one otherwise. *)
Definition validate_payout_output (self : WalletState) (commitments : gset bytes)
    (r : ScriptlessPayoutReservation) : result DErr.DomainError (gset bytes) :=
  if PaySt.has_prepared_material r.(pr_state) && pr_has_output r then
    let? commitment := ok_or r.(pr_output_commitment) PErr in
    fail_if (bool_decide (commitment ∈ commitments)) PErr ;?
    let? output := ok_or (find_first (fun o => bool_decide (Some o.(out_id) = r.(pr_output_id)))
                            self.(ws_outputs)) PErr in
    let? context := ok_or r.(pr_private_context) PErr in
    let? expected_blinding := ok_or context.(pctx_output_blinding) PErr in
    fail_if (negb (output.(out_account_id) =? self.(ws_default_account).(acc_id))
             || negb (bool_decide (output.(out_commitment) = Some commitment))
             || negb (output.(out_value) =? r.(pr_payout_value_noms))
             || negb (bool_decide (output_blinding self output.(out_id) = Some expected_blinding)))
            PErr ;?
    Ok ({[commitment]} ∪ commitments)
  else
    fail_if (is_some_and r.(pr_output_id) (fun output_id =>
               existsb (fun o => o.(out_id) =? output_id) self.(ws_outputs)
               || existsb (fun s => s.(pob_output_id) =? output_id)
                          self.(ws_private_output_blindings))) PErr ;?
    Ok commitments.

Definition validate_payout_one (self : WalletState) (seen : payout_seen)
    (r : ScriptlessPayoutReservation) : result DErr.DomainError payout_seen :=
  fail_if (payout_shape_bad self seen r) PErr ;?
  fail_if (payout_material_bad r) PErr ;?
  fail_if (payout_state_bad r) PErr ;?
  let? commitments := validate_payout_output self seen.(ps_output_commitments) r in
  Ok (mkPayoutSeen ({[r.(pr_id)]} ∪ seen.(ps_ids))
        ({[(r.(pr_session_id), r.(pr_role))]} ∪ seen.(ps_sessions_and_roles))
        (match r.(pr_output_id) with
         | Some id => {[id]} ∪ seen.(ps_output_ids)
         | None => seen.(ps_output_ids)
         end) commitments).

Definition validate_scriptless_payout_reservations (self : WalletState)
    : result DErr.DomainError unit :=
  fail_if (MAX_OUTPUTS <? len self.(ws_scriptless_payout_reservations)) PErr ;?
  let? _ := foldM (validate_payout_one self) self.(ws_scriptless_payout_reservations)
                  (mkPayoutSeen ∅ ∅ ∅ ∅) in
  Ok tt.

(** ** Lemmas *)

(** What one successful pass over the inputs of a reservation establishes. *)
Definition scan_ok (self : WalletState) (r : ScriptlessFundingReservation) (acc0 : input_scan)
    (pairs : list (uuid * bytes)) (acc : input_scan) : Prop :=
  let retained := FundSt.retains_inputs r.(fr_state) in
  acc0.(is_reserved_inputs) ⊆ acc.(is_reserved_inputs)
  /\ acc0.(is_reserved_commitments) ⊆ acc.(is_reserved_commitments)
  /\ (forall id c, (id, c) ∈ pairs ->
        (retained = true ->
           id ∈ acc.(is_reserved_inputs) /\ c ∈ acc.(is_reserved_commitments)
           /\ id ∉ acc0.(is_reserved_inputs) /\ c ∉ acc0.(is_reserved_commitments))
        /\ forall o, find_first (fun o => o.(out_id) =? id) self.(ws_outputs) = Some o ->
           o.(out_commitment) = Some c /\ input_secured r o = true)
  /\ (acc.(is_all_present) = true <->
      acc0.(is_all_present) = true /\ forall p, p ∈ pairs ->
        is_Some (find_first (fun o => o.(out_id) =? p.1) self.(ws_outputs)))
  /\ (acc.(is_all_present) = true ->
      acc.(is_present_total)
      = acc0.(is_present_total)
        + foldr (fun p t => from_option out_value 0
                   (find_first (fun o => o.(out_id) =? p.1) self.(ws_outputs)) + t) 0 pairs).

Lemma sum_app {A} (f : A -> N) (l : list A) x :
  foldr (fun a t => f a + t) 0 (l ++ [x]) = foldr (fun a t => f a + t) 0 l + f x.
Proof. induction l; simpl; lia. Qed.

Lemma scan_inputs_snoc self r acc0 acc pre id c :
  let retained := FundSt.retains_inputs r.(fr_state) in
  let entry acc id c :=
    (retained = true ->
       id ∈ acc.(is_reserved_inputs) /\ c ∈ acc.(is_reserved_commitments)
       /\ id ∉ acc0.(is_reserved_inputs) /\ c ∉ acc0.(is_reserved_commitments))
    /\ forall o, find_first (fun o => o.(out_id) =? id) self.(ws_outputs) = Some o ->
       o.(out_commitment) = Some c /\ input_secured r o = true in
  (forall id' c', (id', c') ∈ pre -> entry acc id' c') ->
  (retained = true -> id ∉ is_reserved_inputs acc0 /\ c ∉ is_reserved_commitments acc0) ->
  (forall o, find_first (fun o => o.(out_id) =? id) self.(ws_outputs) = Some o ->
     o.(out_commitment) = Some c /\ input_secured r o = true) ->
  forall li lc t a id' c', (id', c') ∈ pre ++ [(id, c)] ->
  entry (mkInputScan li lc
    (if retained then {[id]} ∪ acc.(is_reserved_inputs) else acc.(is_reserved_inputs))
    (if retained then {[c]} ∪ acc.(is_reserved_commitments) else acc.(is_reserved_commitments)) t a)
    id' c'.
Proof.
  intros retained entry Hin Hnew Ho li lc t a id' c' [Hp|Hp]%elem_of_app.
  - destruct (Hin id' c' Hp) as [H1 H2]. split; [|done].
    intros Hr. rewrite Hr. destruct (H1 Hr) as (? & ? & ? & ?). simpl. set_solver.
  - apply list_elem_of_singleton in Hp. injection Hp as -> ->. split; [|done].
    intros Hr. rewrite Hr. destruct (Hnew Hr). simpl. set_solver.
Qed.

Lemma validate_input_step self r acc0 pre acc input acc' :
  scan_ok self r acc0 pre acc -> validate_input self r acc input = Ok acc' ->
  scan_ok self r acc0 (pre ++ [input]) acc'.
Proof.
  intros (Hi & Hc & Hin & Hall & Ht). destruct input as [id c]. unfold validate_input.
  intros H. apply rbind_Ok in H as ([] & _ & H). apply rbind_Ok in H as ([] & Hres & H).
  apply fail_if_Ok in Hres.
  assert (Hnew : FundSt.retains_inputs (fr_state r) = true ->
    id ∉ is_reserved_inputs acc0 /\ c ∉ is_reserved_commitments acc0).
  { intros Hr. rewrite Hr in Hres. simpl in Hres. bool_inv. set_solver. }
  unfold scan_ok. destruct (find_first _ _) as [o|] eqn:Hf.
  - apply rbind_Ok in H as ([] & Hcm & H). apply rbind_Ok in H as (total & Htot & H).
    apply rbind_Ok in H as ([] & Hsec & H). injection H as <-.
    apply fail_if_Ok in Hcm, Hsec. apply ok_or_Ok, checked_add_Some in Htot as [-> _].
    bool_inv. split; [destruct (FundSt.retains_inputs _); simpl; set_solver|].
    split; [destruct (FundSt.retains_inputs _); simpl; set_solver|]. split; [|split].
    + apply scan_inputs_snoc; [done|done|].
      intros o' Ho'. rewrite Hf in Ho'. injection Ho' as <-. split; congruence.
    + simpl. rewrite Hall. setoid_rewrite elem_of_app. setoid_rewrite list_elem_of_singleton.
      split; [|naive_solver]. intros [H0 Hp]. split; [done|]. intros p [?| ->]; [auto|]. simpl. eauto.
    + simpl. intros Hp. rewrite sum_app, Ht by done. simpl. rewrite Hf. simpl. lia.
  - injection H as <-. split; [destruct (FundSt.retains_inputs _); simpl; set_solver|].
    split; [destruct (FundSt.retains_inputs _); simpl; set_solver|]. split; [|split].
    + apply scan_inputs_snoc; [done|done|]. intros o' Ho'. congruence.
    + simpl. split; [done|]. intros [_ Hp]. specialize (Hp (id, c) ltac:(set_solver)).
      simpl in Hp. rewrite Hf in Hp. by destruct Hp.
    + done.
Qed.

Lemma validate_inputs_scan self r pairs acc0 acc :
  foldM (validate_input self r) pairs acc0 = Ok acc -> scan_ok self r acc0 pairs acc.
Proof.
  apply (foldM_inv (scan_ok self r acc0)).
  - split; [done|]. split; [done|]. split; [|split; [|simpl; lia]].
    + intros id c H. by apply not_elem_of_nil in H.
    + split; [|by intros [? _]]. intros H. split; [done|]. intros p Hp. by apply not_elem_of_nil in Hp.
  - intros pre x a1 a2. apply validate_input_step.
Qed.

(** The sum of the local outputs a reservation spends. *)
Definition reserved_value (self : WalletState) (r : ScriptlessFundingReservation) : N :=
  foldr (fun p t => from_option out_value 0
           (find_first (fun o => o.(out_id) =? p.1) self.(ws_outputs)) + t) 0
        (zip r.(fr_reserved_output_ids) r.(fr_input_commitments)).

(** Every input of the reservation has a local output. *)
Definition inputs_present (self : WalletState) (r : ScriptlessFundingReservation) : Prop :=
  forall id, id ∈ r.(fr_reserved_output_ids) ->
  is_Some (find_first (fun o => o.(out_id) =? id) self.(ws_outputs)).

(** What the validation of one reservation establishes on its own. *)
Definition funding_one_ok (self : WalletState) (r : ScriptlessFundingReservation) : Prop :=
  length r.(fr_reserved_output_ids) = length r.(fr_input_commitments)
  /\ (forall id c o, (id, c) ∈ zip r.(fr_reserved_output_ids) r.(fr_input_commitments) ->
        find_first (fun o => o.(out_id) =? id) self.(ws_outputs) = Some o ->
        o.(out_commitment) = Some c /\ input_secured r o = true)
  /\ (inputs_present self r ->
        reserved_value self r = r.(fr_local_debit_noms) + r.(fr_change_value_noms)
        /\ r.(fr_local_debit_noms) + r.(fr_change_value_noms) <= u64_max).

(** ... and against the reservations before it. *)
Definition exclusive (a b : ScriptlessFundingReservation) : Prop :=
  a.(fr_id) <> b.(fr_id) /\ a.(fr_session_id) <> b.(fr_session_id)
  /\ (FundSt.retains_inputs a.(fr_state) = true -> FundSt.retains_inputs b.(fr_state) = true ->
      (forall id, id ∈ a.(fr_reserved_output_ids) -> id ∉ b.(fr_reserved_output_ids))
      /\ (forall c, c ∈ a.(fr_input_commitments) -> c ∉ b.(fr_input_commitments))).

Definition seen_covers (seen : funding_seen) (r : ScriptlessFundingReservation) : Prop :=
  r.(fr_id) ∈ seen.(fs_ids) /\ r.(fr_session_id) ∈ seen.(fs_sessions)
  /\ (FundSt.retains_inputs r.(fr_state) = true ->
      (forall id, id ∈ r.(fr_reserved_output_ids) -> id ∈ seen.(fs_reserved_inputs))
      /\ (forall c, c ∈ r.(fr_input_commitments) -> c ∈ seen.(fs_reserved_commitments))).

Lemma zip_elem_l {A B} (l : list A) (k : list B) a :
  length l = length k -> a ∈ l -> exists b, (a, b) ∈ zip l k.
Proof.
  revert k. induction l as [|x l IH]; intros [|y k] Hl Ha; simpl in *; try done; [set_solver|].
  apply elem_of_cons in Ha as [->|Ha]; [exists y; set_solver|].
  destruct (IH k ltac:(lia) Ha) as [b Hb]. exists b. set_solver.
Qed.

Lemma zip_elem_r {A B} (l : list A) (k : list B) b :
  length l = length k -> b ∈ k -> exists a, (a, b) ∈ zip l k.
Proof.
  revert k. induction l as [|x l IH]; intros [|y k] Hl Hb; simpl in *; try done; [set_solver|].
  apply elem_of_cons in Hb as [->|Hb]; [exists x; set_solver|].
  destruct (IH k ltac:(lia) Hb) as [a Ha]. exists a. set_solver.
Qed.

Lemma funding_shape_facts self seen r :
  funding_shape_bad self seen r = false ->
  length r.(fr_reserved_output_ids) = length r.(fr_input_commitments)
  /\ r.(fr_id) ∉ seen.(fs_ids) /\ r.(fr_session_id) ∉ seen.(fs_sessions).
Proof.
  unfold funding_shape_bad. intros H. bool_inv. split; [|done].
  match goal with E : len _ = len _ |- _ => revert E end. clear. unfold len. lia.
Qed.

Lemma validate_funding_one_inv self seen r seen' :
  validate_funding_one self seen r = Ok seen' ->
  funding_one_ok self r /\ seen_covers seen' r
  /\ (forall a, seen_covers seen a -> seen_covers seen' a /\ exclusive a r).
Proof.
  unfold validate_funding_one. intros H.
  apply rbind_Ok in H as ([] & Hshape & H). apply rbind_Ok in H as ([] & _ & H).
  apply rbind_Ok in H as (scan & Hscan & H). apply rbind_Ok in H as ([] & Htot & H).
  apply rbind_Ok in H as ([] & _ & H). injection H as <-.
  apply fail_if_Ok, funding_shape_facts in Hshape as (Hlen & Hnid & Hns).
  apply validate_inputs_scan in Hscan as (Hi & Hc & Hin & Hpres & Hsum). simpl in *.
  split; [split; [done|split]|split].
  - intros id c o Hp Ho. by apply (Hin id c Hp).
  - intros Hp. assert (Hall : is_all_present scan = true).
    { apply Hpres. split; [done|]. intros [id c] Hin'. apply Hp. by eapply elem_of_zip_l. }
    rewrite Hall in Htot. apply rbind_Ok in Htot as (e & He & Htot).
    apply ok_or_Ok, checked_add_Some in He as [-> Hle]. apply fail_if_Ok in Htot. bool_inv.
    specialize (Hsum Hall). unfold reserved_value. lia.
  - split; [by apply elem_of_union_l, elem_of_singleton|].
    split; [by apply elem_of_union_l, elem_of_singleton|]. intros Hr. split.
    + intros id Hid. apply (zip_elem_l _ (fr_input_commitments r)) in Hid as [c Hid]; [|done].
      by destruct (proj1 (Hin id c Hid) Hr) as (? & _).
    + intros c Hcm. apply (zip_elem_r (fr_reserved_output_ids r)) in Hcm as [id Hid]; [|done].
      by destruct (proj1 (Hin id c Hid) Hr) as (_ & ? & _).
  - intros a (Ha1 & Ha2 & Ha3). split.
    + split; [by apply elem_of_union_r|]. split; [by apply elem_of_union_r|].
      intros Hr. destruct (Ha3 Hr) as [Hx Hy]. simpl. auto.
    + split; [congruence|]. split; [congruence|]. intros Hra Hrr. destruct (Ha3 Hra) as [Hx Hy].
      split.
      * intros id Hid Hid'. apply (zip_elem_l _ (fr_input_commitments r)) in Hid' as [c Hp]; [|done].
        destruct (proj1 (Hin id c Hp) Hrr) as (_ & _ & Hno & _). auto.
      * intros c Hcm Hcm'. apply (zip_elem_r (fr_reserved_output_ids r)) in Hcm' as [id Hp]; [|done].
        destruct (proj1 (Hin id c Hp) Hrr) as (_ & _ & _ & Hno). auto.
Qed.

Lemma validate_funding_loop self rs seen :
  foldM (validate_funding_one self) rs (mkFundingSeen ∅ ∅ ∅ ∅) = Ok seen ->
  (forall r, r ∈ rs -> funding_one_ok self r) /\ pairwise exclusive rs.
Proof.
  intros H.
  cut ((forall r, r ∈ rs -> funding_one_ok self r /\ seen_covers seen r) /\ pairwise exclusive rs).
  { intros [H1 H2]. split; [|done]. intros r Hr. by apply H1. }
  revert H. apply (foldM_inv (fun pre seen =>
    (forall r, r ∈ pre -> funding_one_ok self r /\ seen_covers seen r) /\ pairwise exclusive pre)).
  - split; [|apply pairwise_nil]. intros r Hr. by apply not_elem_of_nil in Hr.
  - intros pre x a1 a2 [Hp Hx] Hs. apply validate_funding_one_inv in Hs as (H1 & H2 & H3). split.
    + intros r [Hr|Hr]%elem_of_app; [|by apply list_elem_of_singleton in Hr as ->].
      destruct (Hp r Hr) as [? Hc]. split; [done|]. by apply H3.
    + apply pairwise_snoc; [done|]. intros a Ha. destruct (Hp a Ha) as [_ Hc]. by apply H3.
Qed.

(** ** Properties *)

(** Reservations that pass validation are exclusive: identifiers and
    sessions are distinct, no output or commitment is retained by two of them,
    and every reserved output that is not spent is held by an ordinary
    transaction or by a scriptless reservation, never by both and never by a
    holder that does not name it. *)
Theorem validated_reservations_are_exclusive self
    (H : validate_scriptless_funding_reservations self = Ok tt) :
  pairwise exclusive self.(ws_scriptless_funding_reservations)
  /\ forall o owner, o ∈ self.(ws_outputs) -> o.(out_reserved_by) = Some owner ->
     Out.is_spent o.(out_state) = false ->
     scriptless_owner self owner o.(out_id) = negb (ordinary_owner self owner o.(out_id)).
Proof.
  unfold validate_scriptless_funding_reservations in H.
  apply rbind_Ok in H as ([] & _ & H). apply rbind_Ok in H as (seen & Hloop & H). split.
  - by apply validate_funding_loop in Hloop as [_ ?].
  - intros o owner Ho Hr Hs. destruct (foldM_unit_inv _ _ _ _ H o Ho) as [u Hu].
    unfold validate_owner in Hu. rewrite Hr, Hs in Hu. apply fail_if_Ok in Hu.
    by destruct (ordinary_owner _ _ _), (scriptless_owner _ _ _).
Qed.

(** The inputs of a validated reservation are worth what it spends: each
    input the wallet knows carries the recorded commitment and is secured by the
    reservation, and when all of them are known their values add up, without
    overflow, to the debit plus the change. *)
Theorem validated_inputs_balance self r
    (H : validate_scriptless_funding_reservations self = Ok tt)
    (Hr : r ∈ self.(ws_scriptless_funding_reservations)) :
  (forall id c o, (id, c) ∈ zip r.(fr_reserved_output_ids) r.(fr_input_commitments) ->
     find_first (fun o => o.(out_id) =? id) self.(ws_outputs) = Some o ->
     o.(out_commitment) = Some c /\ input_secured r o = true)
  /\ (inputs_present self r ->
     reserved_value self r = r.(fr_local_debit_noms) + r.(fr_change_value_noms)
     /\ r.(fr_local_debit_noms) + r.(fr_change_value_noms) <= u64_max).
Proof.
  unfold validate_scriptless_funding_reservations in H.
  apply rbind_Ok in H as ([] & _ & H). apply rbind_Ok in H as (seen & Hloop & _).
  apply validate_funding_loop in Hloop as [Hone _]. by apply Hone in Hr as (_ & ? & ?).
Qed.

(** ** Witnesses *)

(** A reservation of one output worth 600000: 400000 debit, 200000 change. *)
Definition sample_funding : ScriptlessFundingReservation :=
  mkScriptlessFundingReservation SCRIPTLESS_FUNDING_RESERVATION_VERSION 21
    (sample_bytes 32 Byte.x11) (sample_bytes 33 Byte.x12) 7 400000 5000 2 3
    [5] [sample_bytes 33 Byte.x05] 200000 (Some 1) (Some 22) None [] None [] None None None None
    None FundSt.Reserved.

(** The same output was reserved before, by a session that was cancelled. *)
Definition cancelled_funding : ScriptlessFundingReservation :=
  sample_funding <| fr_id := 31 |> <| fr_session_id := sample_bytes 32 Byte.x13 |>
    <| fr_state := FundSt.Cancelled |>.

Definition reserving_wallet : WalletState :=
  fresh_wallet
    <| ws_outputs := [(sample_output 5 Byte.x05 Out.PendingOutgoing) <| out_reserved_by := Some 21 |>;
                      sample_output 6 Byte.x06 (Out.Confirmed)] |>
    <| ws_recovery_allocation_floors := mkRecoveryAllocationFloors 0 1 0 0 |>
    <| ws_scriptless_funding_reservations := [cancelled_funding; sample_funding] |>.
