(* ===== verification/Restore.v ===== *)
(** * Reservations across a chain reorganisation

    [rollback_confirmations_for_rescan], [rollback_confirmations_after_height],
    [restore_reorged_reservations], [restore_scriptless_funding_reservations]
    and [restore_scriptless_payout_reservations] of
    crates/dom-wallet-domain/src/lib.rs. *)

From S2P Require Import Prelude DomainTypes Lifecycle WalletOps Reservations.

(** ** Ordinary transactions *)

(** [for transaction in &mut self.transactions { if p { transition(Reorged)? } }] *)
Definition reorg_if (p : LocalTransactionIntent -> bool)
    : method LocalTransactionIntent DErr.DomainError unit := fun transaction =>
  if p transaction then transition_mut L.Reorged Ev.ReorgEvidence transaction
  else (transaction, Ok tt).

(** The guarded [reserved_by = Some(owner); state = PendingOutgoing]. *)
Definition hold_output (owner : uuid) (e : DErr.DomainError)
    : method OutputRecord DErr.DomainError unit := fun output =>
  if Out.is_spent output.(out_state) then (output, Ok tt)
  else if is_some_and output.(out_reserved_by) (fun o => negb (o =? owner)) then (output, Err e)
  else (output <| out_reserved_by := Some owner |> <| out_state := Out.PendingOutgoing |>, Ok tt).

Definition hold_if_listed (transaction_id : uuid) (output_ids : list uuid)
    : method OutputRecord DErr.DomainError unit := fun output =>
  if bool_decide (output.(out_id) ∈ output_ids)
  then hold_output transaction_id DErr.InvalidState output
  else (output, Ok tt).

(** A loop over [self.outputs.iter_mut()]. *)
Definition on_outputs (body : method OutputRecord DErr.DomainError unit)
    : method WalletState DErr.DomainError unit := fun self =>
  let '(outs, r) := for_each_mut body self.(ws_outputs) in
  (self <| ws_outputs := outs |>, r).

(** ** Funding reservations *)

(** [let output = &mut self.outputs[i]; ..] *)
Definition at_output (i : nat) (body : method OutputRecord DErr.DomainError unit)
    : method WalletState DErr.DomainError unit := fun self =>
  match self.(ws_outputs) !! i with
  | Some o => let '(o', r) := body o in (self <| ws_outputs ::= <[i := o']> |>, r)
  | None => (self, Ok tt)
  end.

Definition pending_output (self : WalletState) (id : uuid) (commitment : bytes) (value : N)
    : OutputRecord :=
  mkOutputRecord id self.(ws_default_account).(acc_id) (Some commitment) value Out.PendingIncoming
    0 None.

(** The change output of a prepared reservation is put back if it is gone. *)
Definition restore_change (r : ScriptlessFundingReservation)
    : method WalletState DErr.DomainError unit := fun self =>
  match r.(fr_change_output_id), r.(fr_change_commitment), r.(fr_private_context) with
  | Some output_id, Some commitment, Some context =>
      if existsb (fun o => o.(out_id) =? output_id) self.(ws_outputs) then (self, Ok tt)
      else match context.(fctx_change_output_blinding) with
           | None => (self, Err FErr)
           | Some blinding =>
               (remember_output_blinding output_id blinding
                  (self <| ws_outputs ::= fun l =>
                     l ++ [pending_output self output_id commitment r.(fr_change_value_noms)] |>),
                Ok tt)
           end
  | _, _, _ => (self, Ok tt)
  end.

(** The local output of an input: by identifier, else by commitment. *)
Definition locate_input (outputs : list OutputRecord) (output_id : uuid) (commitment : bytes)
    : result DErr.DomainError (option nat) :=
  match position (fun o => o.(out_id) =? output_id) outputs with
  | Some i => if from_option (has_commitment commitment) false (outputs !! i) then Ok (Some i)
              else Err FErr
  | None => match positions (has_commitment commitment) outputs with
            | [] => Ok None
            | [i] => Ok (Some i)
            | _ => Err FErr
            end
  end.

Definition restore_input (reservation_index : nat) (owner : uuid) (input : nat * (uuid * bytes))
    : method WalletState DErr.DomainError unit := fun self =>
  let '(input_index, (output_id, commitment)) := input in
  match locate_input self.(ws_outputs) output_id commitment with
  | Err e => (self, Err e)
  | Ok None => (self, Ok tt)
  | Ok (Some i) =>
      let rebound_id := from_option out_id 0 (self.(ws_outputs) !! i) in
      at_output i (hold_output owner FErr)
        (self <| ws_scriptless_funding_reservations ::=
                   alter (fun r => r <| fr_reserved_output_ids ::= <[input_index := rebound_id]> |>)
                         reservation_index |>)
  end.

Definition restore_funding_one (reservation_index : nat)
    : method WalletState DErr.DomainError unit := fun self =>
  match self.(ws_scriptless_funding_reservations) !! reservation_index with
  | None => (self, Ok tt)
  | Some r =>
      (restore_change r ;;;
       mfor (imap pair (zip r.(fr_reserved_output_ids) r.(fr_input_commitments)))
            (restore_input reservation_index r.(fr_id))) self
  end.

Definition restore_scriptless_funding_reservations
    : method WalletState DErr.DomainError unit := fun self =>
  mfor (positions (fun r => FundSt.retains_inputs r.(fr_state))
                  self.(ws_scriptless_funding_reservations))
       restore_funding_one self.

(** ** Payout reservations *)

(** The local output of a payout: by identifier, else by commitment, which
    rebinds the reservation, else a new one. *)
Definition locate_payout (reservation_index : nat) (r : ScriptlessPayoutReservation)
    (output_id : uuid) (commitment : bytes) : method WalletState DErr.DomainError nat := fun self =>
  match position (fun o => o.(out_id) =? output_id) self.(ws_outputs) with
  | Some i => if from_option (has_commitment commitment) false (self.(ws_outputs) !! i)
              then (self, Ok i) else (self, Err PErr)
  | None =>
      match positions (has_commitment commitment) self.(ws_outputs) with
      | [] =>
          (self <| ws_outputs ::= fun l =>
             l ++ [pending_output self output_id commitment r.(pr_payout_value_noms)] |>,
           Ok (length self.(ws_outputs)))
      | [i] =>
          let rebound_id := from_option out_id 0 (self.(ws_outputs) !! i) in
          (self <| ws_scriptless_payout_reservations ::=
                     alter (fun r => r <| pr_output_id := Some rebound_id |>) reservation_index |>
                <| ws_private_output_blindings ::=
                     List.filter (fun s => negb (s.(pob_output_id) =? output_id)) |>,
           Ok i)
      | _ => (self, Err PErr)
      end
  end.

Definition bind_payout_blinding (output_id : uuid) (blinding : bytes)
    : method WalletState DErr.DomainError unit := fun self =>
  match output_blinding self output_id with
  | Some existing => (self, fail_if (negb (bool_decide (existing = blinding))) PErr)
  | None => (remember_output_blinding output_id blinding self, Ok tt)
  end.

Definition check_payout_output (r : ScriptlessPayoutReservation) (i : nat) (self : WalletState)
    : result DErr.DomainError uuid :=
  match self.(ws_outputs) !! i with
  | Some output =>
      fail_if (negb (output.(out_account_id) =? self.(ws_default_account).(acc_id))
               || negb (output.(out_value) =? r.(pr_payout_value_noms))) PErr ;?
      Ok output.(out_id)
  | None => Err PErr
  end.

Definition restore_payout_one (reservation_index : nat)
    : method WalletState DErr.DomainError unit := fun self =>
  match self.(ws_scriptless_payout_reservations) !! reservation_index with
  | None => (self, Ok tt)
  | Some r =>
      match r.(pr_output_id) with
      | None =>
          (self, fail_if (negb (r.(pr_payout_value_noms) =? 0) || is_some r.(pr_output_commitment)
                          || negb (is_empty r.(pr_output_bytes))) PErr)
      | Some output_id =>
          (let! commitment := mread (fun _ => ok_or r.(pr_output_commitment) PErr) in
           let! context := mread (fun _ => ok_or r.(pr_private_context) PErr) in
           let! blinding := mread (fun _ => ok_or context.(pctx_output_blinding) PErr) in
           let! i := locate_payout reservation_index r output_id commitment in
           let! id := mread (check_payout_output r i) in
           bind_payout_blinding id blinding) self
      end
  end.

Definition restore_scriptless_payout_reservations
    : method WalletState DErr.DomainError unit := fun self =>
  mfor (positions (fun r => PaySt.has_prepared_material r.(pr_state))
                  self.(ws_scriptless_payout_reservations))
       restore_payout_one self.

(** ** Rolling back *)

Definition restore_reorged_reservations : method WalletState DErr.DomainError unit := fun self =>
  let reservations :=
    map (fun t => (t.(tx_id), t.(tx_reserved_output_ids)))
        (List.filter (fun t => bool_decide (t.(tx_lifecycle) = L.Reorged)) self.(ws_transactions)) in
  (mfor reservations (fun '(transaction_id, output_ids) =>
     on_outputs (hold_if_listed transaction_id output_ids)) ;;;
   restore_scriptless_funding_reservations ;;;
   restore_scriptless_payout_reservations) self.

Definition rollback_confirmations_for_rescan : method WalletState DErr.DomainError unit :=
  on_transactions (reorg_if (fun t => is_confirmed t.(tx_lifecycle))) ;;;
  restore_reorged_reservations.

Definition confirmed_above (safe_height : N) (t : LocalTransactionIntent) : bool :=
  match t.(tx_lifecycle) with
  | L.Confirmed height _ => safe_height <? height
  | _ => false
  end.

Definition rollback_confirmations_after_height (safe_height : N)
    : method WalletState DErr.DomainError unit :=
  on_transactions (reorg_if (confirmed_above safe_height)) ;;;
  restore_reorged_reservations.

(** ** What restoring never changes *)

(** The first two conditions of [spendable_outputs] in
    crates/dom-wallet-core/src/lib.rs. *)
Definition selectable (o : OutputRecord) : bool :=
  bool_decide (o.(out_state) = Out.Confirmed) && negb (is_some o.(out_reserved_by)).

Definition same_output (o o' : OutputRecord) : Prop :=
  o'.(out_id) = o.(out_id) /\ o'.(out_account_id) = o.(out_account_id)
  /\ o'.(out_commitment) = o.(out_commitment) /\ o'.(out_value) = o.(out_value)
  /\ (o' = o \/ o'.(out_state) = Out.PendingOutgoing
                /\ o'.(out_discovered_height) = o.(out_discovered_height)).

(** An output that was put back, and perhaps held since. *)
Definition put_back (o : OutputRecord) : Prop :=
  (o.(out_state) = Out.PendingIncoming \/ o.(out_state) = Out.PendingOutgoing)
  /\ o.(out_discovered_height) = 0.

(** Outputs keep their place and identity: each stays as it was or is held for
    an outgoing transaction, and new ones are pending.  So none becomes
    selectable. *)
Definition outs_ext (l l' : list OutputRecord) : Prop :=
  (length l <= length l')%nat
  /\ forall i o', l' !! i = Some o' ->
     match l !! i with
     | Some o => same_output o o'
     | None => put_back o'
     end.

Definition same_funding (r r' : ScriptlessFundingReservation) : Prop :=
  r' = r <| fr_reserved_output_ids := r'.(fr_reserved_output_ids) |>
  /\ length r'.(fr_reserved_output_ids) = length r.(fr_reserved_output_ids).

Definition same_payout (r r' : ScriptlessPayoutReservation) : Prop :=
  r' = r <| pr_output_id := r'.(pr_output_id) |>.

(** The state without the four fields that restoring writes. *)
Definition unrelated (s : WalletState) : WalletState :=
  s <| ws_outputs := [] |> <| ws_private_output_blindings := [] |>
    <| ws_scriptless_funding_reservations := [] |> <| ws_scriptless_payout_reservations := [] |>.

Definition has_output_id (s : WalletState) (id : uuid) : Prop :=
  exists i o, s.(ws_outputs) !! i = Some o /\ o.(out_id) = id.

Record restoring (s s' : WalletState) : Prop := mkRestoring {
  restoring_unrelated : unrelated s' = unrelated s;
  restoring_outputs : outs_ext s.(ws_outputs) s'.(ws_outputs);
  restoring_funding : Forall2 same_funding s.(ws_scriptless_funding_reservations)
                                           s'.(ws_scriptless_funding_reservations);
  restoring_payout : Forall2 same_payout s.(ws_scriptless_payout_reservations)
                                         s'.(ws_scriptless_payout_reservations);
  (** a bound payout is not rebound, and its blinding stays *)
  restoring_bound : forall k r, s.(ws_scriptless_payout_reservations) !! k = Some r ->
    (forall id, r.(pr_output_id) = Some id -> has_output_id s id) ->
    s'.(ws_scriptless_payout_reservations) !! k = Some r;
  restoring_blinding : forall id b, has_output_id s id -> output_blinding s id = Some b ->
    output_blinding s' id = Some b;
}.

Lemma held_unselectable o : o.(out_state) = Out.PendingOutgoing -> selectable o = false.
Proof. unfold selectable. by intros ->. Qed.

Lemma put_back_unselectable o : put_back o -> selectable o = false.
Proof. unfold selectable. by intros [[-> | ->] _]. Qed.

#[global] Instance same_output_preorder : PreOrder same_output.
Proof.
  split; [intros o; repeat split; by left|].
  intros a b c (? & ? & ? & ? & Hab) (? & ? & ? & ? & Hbc). unfold same_output.
  repeat split; try congruence. destruct Hbc as [-> | [Hb Hd]]; [done|right].
  split; [done|]. destruct Hab as [-> | [_ ?]]; congruence.
Qed.

Lemma put_back_same o o' : put_back o -> same_output o o' -> put_back o'.
Proof.
  intros [Hs Hd] (_ & _ & _ & _ & [-> | [Hs' Hd']]); [done|]. split; [auto|congruence].
Qed.

#[global] Instance outs_ext_preorder : PreOrder outs_ext.
Proof.
  split.
  - intros l. split; [done|]. intros i o' ->. reflexivity.
  - intros a b c [L1 H1] [L2 H2]. split; [lia|]. intros i o' Hi. specialize (H2 i o' Hi).
    destruct (b !! i) as [o|] eqn:Hb.
    + specialize (H1 i o Hb). destruct (a !! i) as [o0|]; [by transitivity o|].
      by eapply put_back_same.
    + apply lookup_ge_None in Hb. by rewrite (lookup_ge_None_2 a) by lia.
Qed.

#[global] Instance same_funding_preorder : PreOrder same_funding.
Proof.
  split.
  - intros []. by split.
  - intros a b c [H1 L1] [H2 L2]. split; [|lia]. rewrite H2, H1. done.
Qed.

#[global] Instance same_payout_preorder : PreOrder same_payout.
Proof.
  split.
  - by intros [].
  - intros a b c H1 H2. red. rewrite H2, H1. done.
Qed.

Lemma outs_ext_id s s' id :
  outs_ext s.(ws_outputs) s'.(ws_outputs) -> has_output_id s id -> has_output_id s' id.
Proof.
  intros [L H] (i & o & Hi & Ho).
  destruct (lookup_lt_is_Some_2 s'.(ws_outputs) i) as [o' Hi'].
  { apply lookup_lt_Some in Hi. lia. }
  exists i, o'. split; [done|]. specialize (H i o' Hi'). rewrite Hi in H.
  destruct H as [H _]. congruence.
Qed.

#[global] Instance restoring_preorder : PreOrder restoring.
Proof.
  split.
  - intros s. by split.
  - intros a b c H1 H2. split.
    + by rewrite (restoring_unrelated _ _ H2), (restoring_unrelated _ _ H1).
    + transitivity (ws_outputs b); [apply H1|apply H2].
    + etransitivity; [apply H1|apply H2].
    + etransitivity; [apply H1|apply H2].
    + intros k r Hk Hid. apply H2; [by apply H1|]. intros id E.
      apply (outs_ext_id a); [apply H1|auto].
    + intros id bl Hid Hb. apply H2; [apply (outs_ext_id a); [apply H1|done]|by apply H1].
Qed.

(** ** Every step restores *)

Lemma hold_output_same owner e o o' r : hold_output owner e o = (o', r) -> same_output o o'.
Proof.
  unfold hold_output. destruct (Out.is_spent _); [by intros [= <- _]|].
  destruct (is_some_and _ _); intros [= <- _]; [done|].
  repeat split. by right.
Qed.

Lemma hold_output_Ok owner e o o' u :
  hold_output owner e o = (o', Ok u) ->
  selectable o' = false
  /\ (Out.is_spent o.(out_state) = false ->
      o'.(out_state) = Out.PendingOutgoing /\ o'.(out_reserved_by) = Some owner).
Proof.
  unfold hold_output, selectable. destruct (Out.is_spent _) eqn:Es.
  - intros [= <- _]. by destruct (out_state o).
  - destruct (is_some_and _ _); [done|]. by intros [= <- _].
Qed.

Lemma outs_ext_forall2 l l' : Forall2 same_output l l' -> outs_ext l l'.
Proof.
  intros H. split; [by rewrite (Forall2_length _ _ _ H)|]. intros i o' Hi.
  by destruct (Forall2_lookup_r _ _ _ _ _ H Hi) as (o & -> & ?).
Qed.

Lemma outs_ext_snoc l o : put_back o -> outs_ext l (l ++ [o]).
Proof.
  intros Hs. split; [rewrite length_app; simpl; lia|]. intros i o' [Hi|[Hi <-]]%lookup_snoc_Some.
  - by destruct Hi as [_ ->].
  - by rewrite lookup_ge_None_2 by lia.
Qed.

Lemma outs_ext_insert l i o o' : l !! i = Some o -> same_output o o' -> outs_ext l (<[i := o']> l).
Proof.
  intros Hi Hs. apply outs_ext_forall2. apply Forall2_lookup. intros j.
  destruct (decide (i = j)) as [<-|Hn].
  - rewrite list_lookup_insert_eq by (by eapply lookup_lt_Some). rewrite Hi. by constructor.
  - rewrite list_lookup_insert_ne by done. destruct (l !! j); by constructor.
Qed.

Lemma restoring_set_outputs s l :
  outs_ext s.(ws_outputs) l -> restoring s (s <| ws_outputs := l |>).
Proof. intros H. by split. Qed.

Lemma output_blinding_remember s id b id' :
  output_blinding (remember_output_blinding id b s) id'
  = if id =? id' then Some b else output_blinding s id'.
Proof.
  unfold output_blinding, remember_output_blinding.
  destruct (position _ _) as [i|] eqn:Hp; simpl; revert Hp.
  - revert i. induction (ws_private_output_blindings s) as [|x l IH]; intros i; simpl; [done|].
    destruct (pob_output_id x =? id) eqn:Ex.
    + intros [= <-]. bool_inv. subst id. simpl. by destruct (pob_output_id x =? id').
    + destruct (position _ l) as [j|] eqn:Hj; [|done]. intros [= <-]. simpl.
      destruct (pob_output_id x =? id') eqn:E'; [|by apply IH].
      bool_inv. subst id'. destruct (id =? pob_output_id x) eqn:E2; bool_inv; congruence.
  - induction (ws_private_output_blindings s) as [|x l IH]; simpl.
    + intros _. by destruct (id =? id').
    + destruct (pob_output_id x =? id) eqn:Ex; [done|].
      destruct (position _ l) as [j|] eqn:Hj; [done|]. intros _.
      destruct (pob_output_id x =? id') eqn:E'; [|by apply IH].
      bool_inv. subst id'. destruct (id =? pob_output_id x) eqn:E2; bool_inv; congruence.
Qed.

Lemma remember_frame id b s :
  remember_output_blinding id b s
  = s <| ws_private_output_blindings :=
           (remember_output_blinding id b s).(ws_private_output_blindings) |>.
Proof. unfold remember_output_blinding. by destruct (position _ _), s. Qed.

Lemma not_has_output_id s id :
  (forall i o, s.(ws_outputs) !! i = Some o -> (out_id o =? id) = false) -> ~ has_output_id s id.
Proof. intros H (i & o & Hi & Ho). apply H in Hi. bool_inv. done. Qed.

(** Remembering the blinding of an output that is not there yet, or that has
    none. *)
Lemma restoring_remember id b s :
  (has_output_id s id -> output_blinding s id = None) ->
  restoring s (remember_output_blinding id b s).
Proof.
  intros Hno. pose proof (output_blinding_remember s id b) as Hb.
  rewrite remember_frame in *.
  set (l := ws_private_output_blindings (remember_output_blinding id b s)) in *. clearbody l.
  split; try done. intros id' b' Hid Hb'. rewrite Hb. destruct (id =? id') eqn:E; [|done].
  bool_inv. subst id'. rewrite Hno in Hb'; done.
Qed.

Lemma at_output_moves i body :
  (forall o o' r, body o = (o', r) -> same_output o o') -> moves restoring (at_output i body).
Proof.
  intros Hb s s' r. unfold at_output. destruct (_ !! i) as [o|] eqn:Hi; [|by intros [= <- _]].
  destruct (body o) as [o' r'] eqn:E. intros [= <- _].
  apply (restoring_set_outputs s). by apply (outs_ext_insert _ i o); [|by eapply Hb].
Qed.

Lemma on_outputs_moves body :
  (forall o o' r, body o = (o', r) -> same_output o o') -> moves restoring (on_outputs body).
Proof.
  intros Hb s s' r. unfold on_outputs. destruct (for_each_mut body _) as [l r'] eqn:E.
  intros [= <- _]. apply restoring_set_outputs, outs_ext_forall2.
  by eapply for_each_mut_Forall2.
Qed.

Lemma restoring_push s o : put_back o -> restoring s (s <| ws_outputs ::= fun l => l ++ [o] |>).
Proof. intros H. by apply (restoring_set_outputs s), outs_ext_snoc. Qed.

Lemma remember_push id b s o :
  remember_output_blinding id b (s <| ws_outputs ::= fun l => l ++ [o] |>)
  = (remember_output_blinding id b s) <| ws_outputs ::= fun l => l ++ [o] |>.
Proof.
  unfold remember_output_blinding. change (ws_private_output_blindings _)
    with (ws_private_output_blindings s) at 1.
  by destruct (position _ (ws_private_output_blindings s)).
Qed.

Lemma restore_change_moves r : moves restoring (restore_change r).
Proof.
  intros s s' res. unfold restore_change.
  destruct (fr_change_output_id r) as [id|]; [|by intros [= <- _]].
  destruct (fr_change_commitment r) as [c|]; [|by intros [= <- _]].
  destruct (fr_private_context r) as [ctx|]; [|by intros [= <- _]].
  destruct (existsb _ _) eqn:Ex; [by intros [= <- _]|].
  destruct (fctx_change_output_blinding ctx) as [b|]; [|by intros [= <- _]].
  intros [= <- _]. set (o := pending_output s id c _).
  transitivity (remember_output_blinding id b s).
  - apply restoring_remember. intros (i & o' & Hi & Ho). exfalso.
    rewrite <-not_true_iff_false, existsb_exists in Ex. apply Ex. exists o'.
    split; [by eapply list_elem_of_In, list_elem_of_lookup_2|by apply N.eqb_eq].
  - change (restoring (remember_output_blinding id b s)
      (remember_output_blinding id b (s <| ws_outputs ::= fun l => l ++ [o] |>))).
    rewrite remember_push. apply restoring_push. split; [by left|done].
Qed.

Lemma alter_funding_moves f k s :
  (forall r, same_funding r (f r)) ->
  restoring s (s <| ws_scriptless_funding_reservations ::= alter f k |>).
Proof.
  intros Hf. split; try done; simpl.
  apply Forall2_lookup. intros j. destruct (decide (k = j)) as [<-|Hn].
  - rewrite list_lookup_alter_eq. destruct (_ !! k); simpl; by constructor.
  - rewrite list_lookup_alter_ne by done. destruct (_ !! j); by constructor.
Qed.

Lemma restore_input_moves k owner input : moves restoring (restore_input k owner input).
Proof.
  destruct input as [n [id c]]. intros s s' r. unfold restore_input.
  destruct (locate_input _ _ _) as [[i|]|e]; [|by intros [= <- _]..].
  set (s1 := s <| ws_scriptless_funding_reservations ::= _ |>). intros H.
  transitivity s1.
  - apply alter_funding_moves. intros []. split; simpl; [done|by rewrite length_insert].
  - eapply at_output_moves; [|exact H]. intros o o' r'. apply hold_output_same.
Qed.

Lemma restore_funding_one_moves k : moves restoring (restore_funding_one k).
Proof.
  intros s s' res. unfold restore_funding_one. destruct (_ !! k) as [r|]; [|by intros [= <- _]].
  revert s s' res. change (moves restoring (restore_change r ;;;
    mfor (imap pair (zip r.(fr_reserved_output_ids) r.(fr_input_commitments)))
         (restore_input k r.(fr_id)))).
  apply (moves_mthen restoring); [apply restore_change_moves|]. intros _.
  apply (moves_mfor restoring), restore_input_moves.
Qed.

Lemma restore_funding_moves : moves restoring restore_scriptless_funding_reservations.
Proof.
  intros s s' r. unfold restore_scriptless_funding_reservations.
  apply (moves_mfor restoring), restore_funding_one_moves.
Qed.

Lemma locate_payout_moves k r id c s s' i :
  s.(ws_scriptless_payout_reservations) !! k = Some r -> r.(pr_output_id) = Some id ->
  locate_payout k r id c s = (s', i) -> restoring s s'.
Proof.
  intros Hk Hid. unfold locate_payout. destruct (position _ _) as [j|] eqn:Hp.
  { destruct (from_option _ _ _); by intros [= <- _]. }
  destruct (positions _ _) as [|j [|j' rest]] eqn:Hps; [..|by intros [= <- _]];
    intros [= <- _].
  - apply restoring_push. split; [by left|done].
  - assert (Hno : ~ has_output_id s id).
    { apply not_has_output_id. intros i' o Hi. apply (proj1 (position_None _ _) Hp).
      by eapply list_elem_of_lookup_2. }
    split; try done; simpl.
    + apply Forall2_lookup. intros j'. destruct (decide (k = j')) as [<-|Hn].
      * rewrite list_lookup_alter_eq, Hk. simpl. constructor. done.
      * rewrite list_lookup_alter_ne by done. destruct (_ !! j'); by constructor.
    + intros k' r' Hk' Hb. destruct (decide (k = k')) as [<-|Hn].
      * destruct Hno. rewrite Hk in Hk'. injection Hk' as <-. auto.
      * by rewrite list_lookup_alter_ne.
    + intros id' b Hid'. unfold output_blinding. simpl.
      induction (ws_private_output_blindings s) as [|x l IH]; simpl; [done|].
      destruct (pob_output_id x =? id') eqn:Ex.
      * intros Hb. destruct (pob_output_id x =? id) eqn:E2; simpl; [|by rewrite Ex].
        bool_inv. destruct Hno. congruence.
      * intros Hb. destruct (pob_output_id x =? id); simpl; [auto|]. rewrite Ex. auto.
Qed.

Lemma bind_payout_moves id b : moves restoring (bind_payout_blinding id b).
Proof.
  intros s s' r. unfold bind_payout_blinding. destruct (output_blinding s id) eqn:Eb.
  - by intros [= <- _].
  - intros [= <- _]. by apply restoring_remember.
Qed.

Lemma restore_payout_one_moves k : moves restoring (restore_payout_one k).
Proof.
  intros s s' res. unfold restore_payout_one. destruct (_ !! k) as [r|] eqn:Hk; [|by intros [= <- _]].
  destruct (pr_output_id r) as [id|] eqn:Hid; [|by intros [= <- _]].
  destruct (pr_output_commitment r) as [c|]; [|by intros [= <- _]].
  destruct (pr_private_context r) as [ctx|]; [|by intros [= <- _]].
  destruct (pctx_output_blinding ctx) as [b|] eqn:Eb;
    [|unfold mthen, mread; simpl; rewrite Eb; by intros [= <- _]].
  set (tail := fun i => let! id := mread (check_payout_output r i) in bind_payout_blinding id b).
  replace (mthen _ _ s) with (mthen (locate_payout k r id c) tail s)
    by (unfold mthen, mread; simpl; by rewrite Eb).
  unfold mthen at 1. destruct (locate_payout k r id c s) as [s1 [i|e]] eqn:Hl.
  - intros H. transitivity s1; [by eapply locate_payout_moves|]. revert H.
    apply (moves_mthen restoring); [apply (moves_mread restoring)|].
    intros id'. apply bind_payout_moves.
  - intros [= <- _]. by eapply locate_payout_moves.
Qed.

Lemma restore_payout_moves : moves restoring restore_scriptless_payout_reservations.
Proof.
  intros s s' r. unfold restore_scriptless_payout_reservations.
  apply (moves_mfor restoring), restore_payout_one_moves.
Qed.

Lemma hold_if_listed_same t ids o o' r : hold_if_listed t ids o = (o', r) -> same_output o o'.
Proof.
  unfold hold_if_listed. destruct (bool_decide _); [apply hold_output_same|by intros [= <- _]].
Qed.

(** ** Inputs are held *)

Definition unique_commitments (l : list OutputRecord) : Prop :=
  forall i j a b c, l !! i = Some a -> l !! j = Some b ->
  a.(out_commitment) = Some c -> b.(out_commitment) = Some c -> i = j.

(** No output with the commitment [c] can be selected. *)
Definition held (c : bytes) (l : list OutputRecord) : Prop :=
  forall i o, l !! i = Some o -> o.(out_commitment) = Some c -> selectable o = false.

Lemma outs_ext_held c l l' : outs_ext l l' -> held c l -> held c l'.
Proof.
  intros [_ H] Hh i o' Hi Hc. specialize (H i o' Hi).
  destruct (l !! i) as [o|] eqn:Ho; [|by apply put_back_unselectable].
  destruct H as (_ & _ & Hco & _ & [-> | [? _]]); [|by apply held_unselectable]. by eapply Hh.
Qed.

Lemma outs_ext_lookup l l' i o :
  outs_ext l l' -> l !! i = Some o -> exists o', l' !! i = Some o' /\ same_output o o'.
Proof.
  intros [L H] Hi. destruct (lookup_lt_is_Some_2 l' i) as [o' Hi'].
  { apply lookup_lt_Some in Hi. lia. }
  exists o'. split; [done|]. specialize (H i o' Hi'). by rewrite Hi in H.
Qed.

Lemma outs_ext_unique l l' : outs_ext l l' -> unique_commitments l' -> unique_commitments l.
Proof.
  intros H Hu i j a b c Hi Hj Ha Hb.
  destruct (outs_ext_lookup _ _ _ _ H Hi) as (a' & Hi' & _ & _ & Ea & _).
  destruct (outs_ext_lookup _ _ _ _ H Hj) as (b' & Hj' & _ & _ & Eb & _).
  apply (Hu i j a' b' c); congruence.
Qed.

Lemma has_commitment_true c o : has_commitment c o = true <-> o.(out_commitment) = Some c.
Proof. apply bool_decide_eq_true. Qed.

Lemma locate_input_Some l id c i :
  locate_input l id c = Ok (Some i) -> exists o, l !! i = Some o /\ o.(out_commitment) = Some c.
Proof.
  unfold locate_input. destruct (position _ _) as [j|].
  - destruct (l !! j) as [o|] eqn:Hj; simpl; [|done]. destruct (has_commitment c o) eqn:Hc; [|done].
    intros [= <-]. exists o. split; [done|]. by apply has_commitment_true.
  - destruct (positions _ l) as [|j [|]] eqn:Hp; try done. intros [= <-].
    destruct (proj1 (positions_lookup (has_commitment c) l j)) as (o & Ho & Hc).
    { rewrite Hp. by apply list_elem_of_singleton. }
    exists o. split; [done|]. by apply has_commitment_true.
Qed.

Lemma locate_input_None l id c : locate_input l id c = Ok None -> held c l.
Proof.
  unfold locate_input. destruct (position _ _) as [j|].
  - by destruct (from_option _ _ _).
  - destruct (positions _ l) as [|j [|]] eqn:Hp; try done. intros _ i o Hi Hc.
    apply has_commitment_true in Hc.
    rewrite (proj1 (positions_nil _ _) Hp o) in Hc; [done|]. by eapply list_elem_of_lookup_2.
Qed.

Lemma at_output_Ok i body s s' u o :
  at_output i body s = (s', Ok u) -> s.(ws_outputs) !! i = Some o ->
  exists o', body o = (o', Ok u) /\ s'.(ws_outputs) !! i = Some o'.
Proof.
  unfold at_output. intros H Hi. rewrite Hi in H. destruct (body o) as [o' r].
  injection H as <- ->. exists o'. split; [done|]. simpl.
  apply list_lookup_insert_eq. by eapply lookup_lt_Some.
Qed.

Lemma restore_input_holds k owner n id c s s' :
  restore_input k owner (n, (id, c)) s = (s', Ok tt) -> unique_commitments s'.(ws_outputs) ->
  held c s'.(ws_outputs).
Proof.
  unfold restore_input. destruct (locate_input _ _ _) as [[i|]|e] eqn:Hl; [| |done].
  - intros H Hu. apply locate_input_Some in Hl as (o & Hi & Hc).
    destruct (at_output_Ok _ _ _ _ _ o H) as (o' & Hb & Hi'); [done|].
    apply hold_output_Ok in Hb as Hs. apply hold_output_same in Hb as (_ & _ & Hc' & _).
    intros j a Hj Ha. rewrite (Hu i j o' a c) in Hi' by congruence.
    rewrite Hj in Hi'. injection Hi' as ->. apply Hs.
  - intros [= <-] _. by eapply locate_input_None.
Qed.

Lemma restore_funding_holds s s' r c :
  restore_scriptless_funding_reservations s = (s', Ok tt) -> unique_commitments s'.(ws_outputs) ->
  r ∈ s.(ws_scriptless_funding_reservations) -> FundSt.retains_inputs r.(fr_state) = true ->
  length r.(fr_reserved_output_ids) = length r.(fr_input_commitments) ->
  c ∈ r.(fr_input_commitments) -> held c s'.(ws_outputs).
Proof.
  intros H Hu [k Hk]%list_elem_of_lookup Hr Hlen Hc.
  unfold restore_scriptless_funding_reservations in H.
  eapply (mfor_visit restoring) in H as (s1 & s2 & H1 & Hone & H2);
    [|apply restore_funding_one_moves|apply positions_lookup; eauto].
  destruct (Forall2_lookup_l _ _ _ _ _ (restoring_funding _ _ H1) Hk) as (r1 & Hk1 & Hsame & Hl).
  unfold restore_funding_one in Hone. rewrite Hk1 in Hone.
  apply mthen_Ok in Hone as (s3 & [] & _ & Hone).
  destruct (zip_elem_r (fr_reserved_output_ids r1) (fr_input_commitments r1) c) as (id & Hz).
  { rewrite Hsame. simpl. lia. }
  { by rewrite Hsame. }
  apply list_elem_of_lookup in Hz as [n Hn].
  eapply (mfor_visit restoring _ _ _ _ _ (n, (id, c))) in Hone as (s4 & s5 & _ & Hin & H5);
    [|apply restore_input_moves|].
  - apply (outs_ext_held c (ws_outputs s5)).
    + transitivity (ws_outputs s2); [apply H5|apply H2].
    + eapply restore_input_holds; [exact Hin|]. eapply outs_ext_unique; [|exact Hu].
      transitivity (ws_outputs s2); [apply H5|apply H2].
  - apply elem_of_lookup_imap. exists n, (id, c). done.
Qed.

(** ** Payouts are bound *)

(** The payout at [k] names a local output with its commitment, value, account
    and blinding. *)
Definition payout_bound (k : nat) (s : WalletState) : Prop :=
  exists r, s.(ws_scriptless_payout_reservations) !! k = Some r
  /\ match r.(pr_output_id) with
     | None => pr_has_output r = false
     | Some id => exists i o c ctx b,
         s.(ws_outputs) !! i = Some o /\ o.(out_id) = id
         /\ o.(out_account_id) = s.(ws_default_account).(acc_id)
         /\ o.(out_value) = r.(pr_payout_value_noms)
         /\ r.(pr_output_commitment) = Some c /\ o.(out_commitment) = Some c
         /\ r.(pr_private_context) = Some ctx /\ ctx.(pctx_output_blinding) = Some b
         /\ output_blinding s id = Some b
     end.

Lemma payout_bound_restoring k s s' : restoring s s' -> payout_bound k s -> payout_bound k s'.
Proof.
  intros H (r & Hk & Hb). exists r. destruct (pr_output_id r) as [id|] eqn:Hid.
  - destruct Hb as (i & o & c & ctx & b & Hi & Ho & Ha & Hv & Hc & Hc' & Hx & Hxb & Hbl).
    assert (Hhas : has_output_id s id) by (exists i, o; done). split.
    + apply H; [done|]. intros id' E. rewrite Hid in E. by injection E as <-.
    + destruct (outs_ext_lookup _ _ _ _ (restoring_outputs _ _ H) Hi)
        as (o' & Hi' & E1 & E2 & E3 & E4 & _).
      exists i, o', c, ctx, b. pose proof (f_equal ws_default_account (restoring_unrelated _ _ H)) as Ea.
      simpl in Ea. rewrite Ea. repeat split; try congruence. by apply H.
  - split; [|done]. apply H; [done|]. intros id' E. by rewrite Hid in E.
Qed.

Lemma locate_payout_Ok k r id c s s' i :
  s.(ws_scriptless_payout_reservations) !! k = Some r -> r.(pr_output_id) = Some id ->
  locate_payout k r id c s = (s', Ok i) ->
  exists o, s'.(ws_outputs) !! i = Some o /\ o.(out_commitment) = Some c
  /\ s'.(ws_scriptless_payout_reservations) !! k = Some (r <| pr_output_id := Some o.(out_id) |>)
  /\ s'.(ws_default_account) = s.(ws_default_account).
Proof.
  intros Hk Hid. unfold locate_payout. destruct (position _ _) as [j|] eqn:Hp.
  - destruct (_ !! j) as [o|] eqn:Hj; simpl; [|done]. destruct (has_commitment c o) eqn:Hc; [|done].
    intros [= <- <-]. exists o. apply has_commitment_true in Hc. repeat split; try done.
    apply position_lookup with (x := o) in Hp; [|done]. bool_inv. rewrite Hk, Hp, <-Hid. by destruct r.
  - destruct (positions _ _) as [|j [|j' rest]] eqn:Hps; [..|done]; intros [= <- <-].
    + eexists. split; [by apply list_lookup_middle|]. split; [done|]. split; [|done].
      simpl. rewrite Hk, <-Hid. by destruct r.
    + destruct (proj1 (positions_lookup (has_commitment c) (ws_outputs s) j)) as (o & Ho & Hc).
      { rewrite Hps. by apply list_elem_of_singleton. }
      exists o. apply has_commitment_true in Hc. repeat split; try done. simpl.
      by rewrite list_lookup_alter_eq, Hk, Ho.
Qed.

Lemma bind_payout_Ok id b s s' u :
  bind_payout_blinding id b s = (s', Ok u) ->
  output_blinding s' id = Some b /\ s'.(ws_outputs) = s.(ws_outputs)
  /\ s'.(ws_scriptless_payout_reservations) = s.(ws_scriptless_payout_reservations)
  /\ s'.(ws_default_account) = s.(ws_default_account).
Proof.
  unfold bind_payout_blinding. destruct (output_blinding s id) as [b'|] eqn:Eb.
  - intros H. injection H as <- H. apply fail_if_Ok in H. bool_inv. subst b'. done.
  - intros [= <- _]. rewrite output_blinding_remember, N.eqb_refl. rewrite remember_frame. done.
Qed.

Lemma restore_payout_one_Ok k s s' r :
  s.(ws_scriptless_payout_reservations) !! k = Some r ->
  restore_payout_one k s = (s', Ok tt) -> payout_bound k s'.
Proof.
  intros Hk. unfold restore_payout_one. rewrite Hk.
  destruct (pr_output_id r) as [id|] eqn:Hid.
  - intros H. apply mthen_Ok in H as (s1 & c & H1 & H). injection H1 as -> H1. apply ok_or_Ok in H1.
    apply mthen_Ok in H as (s2 & ctx & H2 & H). injection H2 as -> H2. apply ok_or_Ok in H2.
    apply mthen_Ok in H as (s3 & b & H3 & H). injection H3 as -> H3. apply ok_or_Ok in H3.
    apply mthen_Ok in H as (s4 & i & H4 & H). apply mthen_Ok in H as (s5 & id' & H5 & H).
    injection H5 as -> H5. apply locate_payout_Ok in H4 as (o & Hi & Hc & Hk' & Hacc); [|done..].
    unfold check_payout_output in H5. rewrite Hi in H5. apply rbind_Ok in H5 as ([] & H5 & Eid).
    injection Eid as <-. apply fail_if_Ok in H5. bool_inv.
    apply bind_payout_Ok in H as (Hb & Ho & Hp & Ha). eexists. rewrite Hp. split; [exact Hk'|].
    simpl. exists i, o, c, ctx, b. rewrite Ho, Ha. repeat split; done.
  - intros H. injection H as <- H. apply fail_if_Ok in H. bool_inv. exists r. rewrite Hid.
    split; [done|]. unfold pr_has_output. by apply negb_false_iff, N.eqb_eq.
Qed.

Lemma find_first_unique l i o :
  NoDup (map out_id l) -> l !! i = Some o ->
  find_first (fun a => bool_decide (Some a.(out_id) = Some o.(out_id))) l = Some o.
Proof.
  revert i. induction l as [|x l IH]; intros i Hnd Hi; [done|]. simpl in Hnd.
  apply NoDup_cons in Hnd as [Hx Hnd]. simpl. case_bool_decide as E.
  - destruct i as [|i]; [done|]. destruct Hx. injection E as ->. apply list_elem_of_fmap.
    exists o. split; [done|]. by eapply list_elem_of_lookup_2.
  - destruct i as [|i]; [by injection Hi as ->|]. by apply (IH i).
Qed.

Lemma payout_bound_validates k s r :
  payout_bound k s -> s.(ws_scriptless_payout_reservations) !! k = Some r ->
  NoDup (map out_id s.(ws_outputs)) -> PaySt.has_prepared_material r.(pr_state) = true ->
  is_some r.(pr_output_id) = pr_has_output r ->
  is_ok (validate_payout_output s ∅ r) = true.
Proof.
  intros (r' & Hk & Hb) Hk' Hnd Hm Hs. rewrite Hk in Hk'. injection Hk' as ->.
  unfold validate_payout_output. rewrite Hm, <-Hs. destruct (pr_output_id r) as [id|]; [|done].
  destruct Hb as (i & o & c & ctx & b & Hi & Ho & Ha & Hv & Hc & Hc' & Hx & Hxb & Hbl). subst id.
  simpl. rewrite Hc. simpl. rewrite (bool_decide_eq_false_2 (c ∈ ∅)) by set_solver. simpl.
  rewrite (find_first_unique _ i) by done. simpl. rewrite Hx. simpl. rewrite Hxb. simpl.
  rewrite Ha, Hv, Hc', Hbl, !N.eqb_refl, !bool_decide_eq_true_2; done.
Qed.

(** ** Rolling back *)

Definition reorged (p : LocalTransactionIntent -> bool) (t : LocalTransactionIntent)
    : LocalTransactionIntent :=
  if p t then t <| tx_lifecycle := L.Reorged |>
                <| tx_exposure ::= fun e => Exp.max e Exp.PossiblyRelayed |> else t.

Lemma reorg_transactions p s :
  (forall t, p t = true -> is_confirmed t.(tx_lifecycle) = true) ->
  on_transactions (reorg_if p) s = (s <| ws_transactions ::= map (reorged p) |>, Ok tt).
Proof.
  intros Hp. unfold on_transactions.
  rewrite (for_each_mut_total _ (reorged p)); [done|]. intros t _. unfold reorg_if, reorged.
  destruct (p t) eqn:Ht; [|done]. apply Hp in Ht. unfold transition_mut, transition.
  destruct (tx_lifecycle t) eqn:El; try done.
Qed.

Lemma outs_ext_unselectable l l' i o' :
  outs_ext l l' -> l' !! i = Some o' ->
  (forall o, l !! i = Some o -> o.(out_id) = o'.(out_id) -> selectable o = false) ->
  selectable o' = false.
Proof.
  intros [_ H] Hi Ho. specialize (H i o' Hi).
  destruct (l !! i) as [o|]; [|by apply put_back_unselectable].
  destruct H as (E & _ & _ & _ & [-> | [? _]]); [|by apply held_unselectable]. by apply Ho.
Qed.

Lemma restore_reorged_moves : moves restoring restore_reorged_reservations.
Proof.
  intros s s' r. unfold restore_reorged_reservations. revert s' r.
  set (m := mfor _ _ ;;; _). enough (moves restoring m) as Hm by (intros s' r; apply Hm). subst m.
  apply (moves_mthen restoring).
  - apply (moves_mfor restoring). intros [t ids]. apply on_outputs_moves.
    intros o o' r. apply hold_if_listed_same.
  - intros _. apply (moves_mthen restoring); [apply restore_funding_moves|].
    intros _. apply restore_payout_moves.
Qed.

Lemma restore_reorged_holds s s' t o :
  restore_reorged_reservations s = (s', Ok tt) -> t ∈ s.(ws_transactions) ->
  t.(tx_lifecycle) = L.Reorged -> o ∈ s'.(ws_outputs) ->
  o.(out_id) ∈ t.(tx_reserved_output_ids) -> selectable o = false.
Proof.
  unfold restore_reorged_reservations. intros H Ht Hl [i Hi]%list_elem_of_lookup Hid.
  apply mthen_Ok in H as (s1 & [] & H1 & H2).
  assert (Hmid : restoring s1 s').
  { revert H2. apply (moves_mthen restoring); [apply restore_funding_moves|].
    intros _. apply restore_payout_moves. }
  eapply (mfor_visit restoring _ _ _ _ _ (tx_id t, tx_reserved_output_ids t)) in H1
    as (s2 & s3 & _ & Hbody & H3).
  - assert (H3' : outs_ext (ws_outputs s3) (ws_outputs s'))
      by (transitivity (ws_outputs s1); [apply H3|apply Hmid]).
    apply (outs_ext_unselectable _ _ _ _ H3' Hi). intros o3 Ho3 Eid.
    unfold on_outputs in Hbody. destruct (for_each_mut _ _) as [l r] eqn:El.
    injection Hbody as <- ->. simpl in Ho3.
    assert (F : Forall2 same_output (ws_outputs s2) l).
    { eapply for_each_mut_Forall2; [done| |exact El]. intros a b r. apply hold_if_listed_same. }
    destruct (Forall2_lookup_r _ _ _ _ _ F Ho3) as (o2 & Ho2 & Hs & _).
    destruct (for_each_mut_Ok _ _ _ _ _ _ El Ho2) as (x & Hx & Ex). rewrite Ho3 in Ex.
    injection Ex as <-. unfold hold_if_listed in Hx.
    rewrite bool_decide_eq_true_2 in Hx by congruence. by apply hold_output_Ok in Hx as [? _].
  - intros [t' ids]. apply on_outputs_moves. intros a b r. apply hold_if_listed_same.
  - apply list_elem_of_fmap. exists t. split; [done|].
    apply list_elem_of_In, filter_In. split; [by apply list_elem_of_In|].
    by apply bool_decide_eq_true.
Qed.

(** ** Properties *)

(** Restoring never frees an input: outputs keep their place, identity and
    value, each stays as it was or is held, outputs put back are pending, so only
    an output that was selectable before is selectable after, and none is that
    carries the commitment of an input retained by a reservation,
    whether it was found by its identifier or rediscovered under another one. *)
Theorem restored_inputs_stay_held s s'
    (H : restore_scriptless_funding_reservations s = (s', Ok tt))
    (Hu : unique_commitments s'.(ws_outputs)) :
  outs_ext s.(ws_outputs) s'.(ws_outputs)
  /\ unrelated s' = unrelated s
  /\ forall r c o, r ∈ s.(ws_scriptless_funding_reservations) ->
     FundSt.retains_inputs r.(fr_state) = true ->
     length r.(fr_reserved_output_ids) = length r.(fr_input_commitments) ->
     c ∈ r.(fr_input_commitments) -> o ∈ s'.(ws_outputs) -> o.(out_commitment) = Some c ->
     selectable o = false.
Proof.
  pose proof (restore_funding_moves _ _ _ H) as Hm. split; [apply Hm|]. split; [apply Hm|].
  intros r c o Hr Hret Hlen Hc [i Hi]%list_elem_of_lookup Ho.
  by eapply (restore_funding_holds s s' r c H).
Qed.

(** Restored payouts are valid: after a successful restoration every payout
    that was prepared passes the validator's check of its local output, so the
    output is there with its commitment, value, account and blinding. *)
Theorem restored_payouts_validate s s' r
    (H : restore_scriptless_payout_reservations s = (s', Ok tt))
    (Hids : NoDup (map out_id s'.(ws_outputs)))
    (Hr : r ∈ s'.(ws_scriptless_payout_reservations))
    (Hm : PaySt.has_prepared_material r.(pr_state) = true)
    (Hshape : is_some r.(pr_output_id) = pr_has_output r) :
  is_ok (validate_payout_output s' ∅ r) = true.
Proof.
  apply list_elem_of_lookup in Hr as [k Hk].
  pose proof (restore_payout_moves _ _ _ H) as Hmv.
  destruct (Forall2_lookup_r _ _ _ _ _ (restoring_payout _ _ Hmv) Hk) as (r0 & Hk0 & Hsame).
  unfold restore_scriptless_payout_reservations in H.
  eapply (mfor_visit restoring _ _ _ _ _ k) in H as (s1 & s2 & H1 & Hone & H2).
  - destruct (Forall2_lookup_l _ _ _ _ _ (restoring_payout _ _ H1) Hk0) as (r1 & Hk1 & _).
    apply (payout_bound_validates k); try done. eapply payout_bound_restoring; [exact H2|].
    by eapply restore_payout_one_Ok.
  - apply restore_payout_one_moves.
  - apply positions_lookup. exists r0. split; [done|]. rewrite Hsame in Hm. exact Hm.
Qed.

(** A rollback reverts exactly the confirmations above the safe height and
    takes their inputs back: the transactions confirmed above it become
    reorganised, no other transaction changes, and no output that a reorganised
    transaction reserves can be selected afterwards. *)
Theorem rollback_reholds_inputs safe_height s s'
    (H : rollback_confirmations_after_height safe_height s = (s', Ok tt)) :
  s'.(ws_transactions) = map (reorged (confirmed_above safe_height)) s.(ws_transactions)
  /\ outs_ext s.(ws_outputs) s'.(ws_outputs)
  /\ forall t o, t ∈ s'.(ws_transactions) -> t.(tx_lifecycle) = L.Reorged ->
     o ∈ s'.(ws_outputs) -> o.(out_id) ∈ t.(tx_reserved_output_ids) -> selectable o = false.
Proof.
  unfold rollback_confirmations_after_height in H.
  apply mthen_Ok in H as (s1 & [] & H1 & H2). rewrite reorg_transactions in H1.
  - injection H1 as <-. pose proof (restore_reorged_moves _ _ _ H2) as Hm.
    pose proof (f_equal ws_transactions (restoring_unrelated _ _ Hm)) as Ht. simpl in Ht.
    split; [done|]. split; [apply Hm|]. intros t o Hin. rewrite Ht in Hin.
    by eapply (restore_reorged_holds _ s' t o).
  - intros t. unfold confirmed_above. by destruct (tx_lifecycle t).
Qed.

(** ** Witnesses *)

(** The reservation's input was swept by a rescan and rediscovered, confirmed
    and unreserved, under the identifier 9. *)
Definition exported_funding : ScriptlessFundingReservation :=
  sample_funding <| fr_change_commitment := Some (sample_bytes 33 Byte.x21) |>
    <| fr_change_output_bytes := sample_bytes 16 Byte.x22 |>
    <| fr_private_context := Some (mkPrivateScriptlessFundingContext (sample_bytes 32 Byte.x23)
                                     (Some (sample_bytes 32 Byte.x24))) |>
    <| fr_state := FundSt.Exported |>.
Definition swept_wallet : WalletState :=
  reserving_wallet <| ws_outputs := [sample_output 9 Byte.x05 Out.Confirmed;
                                     sample_output 6 Byte.x06 Out.Confirmed] |>
    <| ws_scriptless_funding_reservations := [exported_funding] |>.
Definition restored_wallet : WalletState := (restore_scriptless_funding_reservations swept_wallet).1.

Definition sample_payout : ScriptlessPayoutReservation :=
  mkScriptlessPayoutReservation SCRIPTLESS_PAYOUT_RESERVATION_VERSION 41
    (sample_bytes 32 Byte.x31) PayRole.Claim 7 (sample_bytes 33 Byte.x32) 900 10 1 0
    (Some 42) (Some 1) (Some (sample_bytes 33 Byte.x33)) (sample_bytes 16 Byte.x34)
    (Some (sample_bytes 32 Byte.x35)) (sample_bytes 33 Byte.x36) None None None None
    (Some (mkPrivateScriptlessPayoutContext (sample_bytes 32 Byte.x37)
             (Some (sample_bytes 32 Byte.x38)))) PaySt.Prepared.
Definition payout_wallet : WalletState :=
  fresh_wallet <| ws_scriptless_payout_reservations := [sample_payout] |>.
Definition paid_wallet : WalletState := (restore_scriptless_payout_reservations payout_wallet).1.

Definition confirmed_spend : LocalTransactionIntent :=
  (transaction_in (L.Confirmed 90 (sample_bytes 32 Byte.x41)))
    <| tx_reserved_output_ids := [5] |>.
Definition tip_wallet : WalletState :=
  fresh_wallet <| ws_outputs := [sample_output 5 Byte.x05 Out.Confirmed] |>
    <| ws_transactions := [confirmed_spend] |>.
Definition rolled_back_wallet : WalletState := (rollback_confirmations_after_height 80 tip_wallet).1.
