(* ===== verification/Validation.v ===== *)
(** * Validation of the whole wallet state

    [WalletState::validate] and [activate_scan] of
    crates/dom-wallet-domain/src/lib.rs. *)

From S2P Require Import Prelude DomainTypes Lifecycle SwapSession WalletOps Reservations Restore.

(** [for x in xs { f(x)? }] on a shared reference. *)
Definition for_each {E X} (f : X -> result E unit) (xs : list X) : result E unit :=
  foldM (fun _ x => f x) xs tt.

(** [xs.iter().any(|x| !seen.insert(key(x)))] *)
Fixpoint any_duplicate {A} (key : A -> option bytes) (seen : gset bytes) (l : list A) : bool :=
  match l with
  | [] => false
  | x :: l =>
      match key x with
      | Some k => bool_decide (k ∈ seen) || any_duplicate key ({[k]} ∪ seen) l
      | None => any_duplicate key seen l
      end
  end.

(** [xs.windows(2).any(p)] *)
Fixpoint any_window {A} (p : A -> A -> bool) (l : list A) : bool :=
  match l with
  | [] => false
  | a :: l => match l with
              | [] => false
              | b :: _ => p a b || any_window p l
              end
  end.

Definition validate_transaction (t : LocalTransactionIntent) : result DErr.DomainError unit :=
  fail_if ((negb (is_empty t.(tx_kernel_excess)) && negb (len t.(tx_kernel_excess) =? 33))
           || (t.(tx_submitted) && negb (len t.(tx_kernel_excess) =? 33))
           || Exp.ltb t.(tx_exposure) (minimum_current_exposure t.(tx_lifecycle) t.(tx_submitted)))
          DErr.InvalidTransactionIntent.

Definition rescan_plan_bad (self : WalletState) (plan : RescanPlan) : bool :=
  negb (plan.(rp_wallet_id) =? self.(ws_wallet_id))
  || negb (bool_decide (plan.(rp_identity) = self.(ws_identity)))
  || negb (String.eqb plan.(rp_target).(st_source_identity) plan.(rp_source_identity))
  || negb (plan.(rp_version) =? 1)
  || (plan.(rp_next_page_height) <? plan.(rp_recovery_start_height))
  || (saturating_add u64_max plan.(rp_target).(st_scan_bounds).(sb_end_height) 1
      <? plan.(rp_next_page_height)).

(** [any(|account| !account_ids.insert(..) || !recovery_accounts.insert(..))],
    with the set of account identifiers it leaves when it finds nothing. *)
Fixpoint collect_accounts (accounts : list RecoveredAccountMapping) (account_ids : gset uuid)
    (recovery_accounts : gset N) : option (gset uuid) :=
  match accounts with
  | [] => Some account_ids
  | account :: accounts =>
      if bool_decide (account.(ram_account_id) ∈ account_ids)
         || bool_decide (account.(ram_recovery_account) ∈ recovery_accounts)
      then None
      else collect_accounts accounts ({[account.(ram_account_id)]} ∪ account_ids)
             ({[account.(ram_recovery_account)]} ∪ recovery_accounts)
  end.

Definition validate_accounts (self : WalletState) : result DErr.DomainError unit :=
  fail_if (MAX_ACCOUNTS <? len self.(ws_recovered_accounts)) DErr.InvalidState ;?
  match collect_accounts self.(ws_recovered_accounts) {[self.(ws_default_account).(acc_id)]} ∅ with
  | None => Err DErr.InvalidState
  | Some account_ids =>
      fail_if (existsb (fun o => negb (bool_decide (o.(out_account_id) ∈ account_ids)))
                       self.(ws_outputs)) DErr.InvalidState
  end.

Definition block_gap (a b : RecoveryCanonicalBlock) : bool :=
  negb (b.(rcb_height) =? saturating_add u64_max a.(rcb_height) 1)
  || negb (bool_decide (b.(rcb_previous_block_hash) = a.(rcb_block_hash))).

Definition validate_recovery_window (self : WalletState) : result DErr.DomainError unit :=
  fail_if (is_some_and self.(ws_core_scan_cursor) (fun cursor => negb (len cursor =? 86))
           || (MAX_OUTPUTS <? len self.(ws_recovery_canonical_blocks))
           || any_window block_gap self.(ws_recovery_canonical_blocks)
           || (negb (self.(ws_recovery_scanned_blocks) =? 0)
               && (self.(ws_recovery_scanned_blocks) <? len self.(ws_recovery_canonical_blocks))))
          DErr.InvalidState.

Definition output_exists (self : WalletState) (id : uuid) : bool :=
  existsb (fun o => o.(out_id) =? id) self.(ws_outputs).

Definition metadata_bad (self : WalletState) (seen : gset uuid) (m : RecoveredOutputMetadata)
    : bool :=
  bool_decide (m.(rom_output_id) ∈ seen)
  || negb (output_exists self m.(rom_output_id))
  || negb (Bool.eqb m.(rom_is_coinbase) (bool_decide (m.(rom_domain) = ROD.Coinbase)))
  || is_zero32 m.(rom_block_hash).

Fixpoint any_metadata_bad (self : WalletState) (seen : gset uuid)
    (l : list RecoveredOutputMetadata) : bool :=
  match l with
  | [] => false
  | m :: l => metadata_bad self seen m || any_metadata_bad self ({[m.(rom_output_id)]} ∪ seen) l
  end.

Definition validate_header (self : WalletState) : result DErr.DomainError unit :=
  fail_if (negb (self.(ws_model_version) =? MODEL_VERSION)
           || negb (self.(ws_secret_profile_version) =? SECRET_PROFILE_VERSION))
          DErr.UnsupportedVersion ;?
  fail_if ((MAX_OUTPUTS <? len self.(ws_outputs))
           || (slen self.(ws_default_account).(acc_label) =? 0)
           || (128 <? slen self.(ws_default_account).(acc_label))
           || (4096 <? self.(ws_mining_preferences).(mp_cpu_threads))
           || negb (self.(ws_transaction_exposure_version) =? TRANSACTION_EXPOSURE_VERSION))
          DErr.InvalidState ;?
  NodeConfiguration_validate self.(ws_node_configuration) ;?
  fail_if (negb (NetworkIdentity_matches self.(ws_identity)
                   self.(ws_node_configuration).(nc_expected_identity))) DErr.IdentityMismatch ;?
  fail_if (self.(ws_non_reuse_floor) <? self.(ws_allocation_floor)) DErr.NonReuseFloorRegression ;?
  fail_if (is_some_and self.(ws_recovery) (fun value =>
             negb (String.eqb value.(rm_scheme) RECOVERY_SCHEME_BIP39_256_V1))) DErr.InvalidState ;?
  match self.(ws_provisional_target) with
  | Some target => ScanTarget_validate target
  | None => Ok tt
  end.

Definition WalletState_validate (self : WalletState) : result DErr.DomainError unit :=
  validate_header self ;?
  for_each validate_transaction self.(ws_transactions) ;?
  validate_scriptless_funding_reservations self ;?
  validate_scriptless_payout_reservations self ;?
  fail_if ((MAX_SWAP_SESSIONS <? len self.(ws_swap_sessions))
           || (MAX_SWAP_LEG_INDEX <? self.(ws_next_swap_leg_index))) DErr.InvalidState ;?
  for_each swap_validate self.(ws_swap_sessions) ;?
  fail_if (is_some_and self.(ws_rescan_plan) (rescan_plan_bad self)) DErr.InvalidRescanPlan ;?
  validate_accounts self ;?
  validate_recovery_window self ;?
  fail_if (existsb (fun secret => negb (output_exists self secret.(pob_output_id)))
                   self.(ws_private_output_blindings)) DErr.InvalidState ;?
  fail_if (any_duplicate out_commitment ∅ self.(ws_outputs)) DErr.InvalidState ;?
  fail_if (any_metadata_bad self ∅ self.(ws_recovered_output_metadata)) DErr.InvalidState.

(** [self.generation = self.generation.checked_add(1).ok_or(..)?] *)
Definition bump_generation : method WalletState DErr.DomainError unit := fun self =>
  match checked_add u64_max self.(ws_generation) 1 with
  | Some g => (self <| ws_generation := g |>, Ok tt)
  | None => (self, Err DErr.GenerationOverflow)
  end.

Definition activate_scan (target : ScanTarget) (observations : list OutputRecord)
    : method WalletState DErr.DomainError unit := fun self =>
  if negb (bool_decide (self.(ws_provisional_target) = Some target))
  then (self, Err DErr.ProvisionalTargetMismatch)
  else if (MAX_OUTPUTS <? len observations)
          || existsb (fun o => negb (o.(out_account_id) =? self.(ws_default_account).(acc_id)))
                     observations
  then (self, Err DErr.InvalidState)
  else
    (massign (fun self => self <| ws_outputs := observations |>) ;;;
     restore_scriptless_funding_reservations ;;;
     restore_scriptless_payout_reservations ;;;
     massign (fun self => self <| ws_cursor := Some (ScanTarget_cursor target) |>
                               <| ws_provisional_target := None |>
                               <| ws_sync_status := Sync.Synced |>) ;;;
     bump_generation ;;;
     mread WalletState_validate) self.

(** ** Lemmas *)

(** The well-formedness that a successful validation establishes. *)
Record wallet_ok (s : WalletState) : Prop := mkWalletOk {
  ok_floors : s.(ws_allocation_floor) <= s.(ws_non_reuse_floor);
  ok_exposure : Forall exposure_covers s.(ws_transactions);
  ok_submitted : forall t, t ∈ s.(ws_transactions) -> t.(tx_submitted) = true ->
    length t.(tx_kernel_excess) = 33%nat;
  ok_commitments : unique_commitments s.(ws_outputs);
  ok_accounts : forall o, o ∈ s.(ws_outputs) ->
    o.(out_account_id) = s.(ws_default_account).(acc_id)
    \/ exists a, a ∈ s.(ws_recovered_accounts) /\ a.(ram_account_id) = o.(out_account_id);
  ok_recovered_accounts : NoDup (map ram_account_id s.(ws_recovered_accounts))
    /\ NoDup (map ram_recovery_account s.(ws_recovered_accounts));
  ok_blindings : forall b, b ∈ s.(ws_private_output_blindings) ->
    has_output_id s b.(pob_output_id);
  ok_metadata : NoDup (map rom_output_id s.(ws_recovered_output_metadata))
    /\ forall m, m ∈ s.(ws_recovered_output_metadata) -> has_output_id s m.(rom_output_id);
  ok_window : forall i a b, s.(ws_recovery_canonical_blocks) !! i = Some a ->
    s.(ws_recovery_canonical_blocks) !! S i = Some b ->
    b.(rcb_height) = saturating_add u64_max a.(rcb_height) 1
    /\ b.(rcb_previous_block_hash) = a.(rcb_block_hash);
  ok_plan : forall plan, s.(ws_rescan_plan) = Some plan -> rescan_plan_bad s plan = false;
  ok_reservations : validate_scriptless_funding_reservations s = Ok tt
    /\ validate_scriptless_payout_reservations s = Ok tt;
}.

Lemma any_duplicate_false {A} (key : A -> option bytes) seen l :
  any_duplicate key seen l = false ->
  (forall x k, x ∈ l -> key x = Some k -> k ∉ seen)
  /\ forall i j a b k, l !! i = Some a -> l !! j = Some b -> key a = Some k -> key b = Some k ->
     i = j.
Proof.
  revert seen. induction l as [|x l IH]; intros seen; simpl.
  - intros _. split; [|done]. intros x k Hx. by apply not_elem_of_nil in Hx.
  - destruct (key x) as [kx|] eqn:Hk.
    + intros H. bool_inv. apply IH in H0 as [H1 H2]. split.
      * intros y k [->|Hy]%elem_of_cons Hky; [congruence|]. specialize (H1 y k Hy Hky). set_solver.
      * intros [|i] [|j] a b k Ha Hb Hka Hkb; simpl in *; [done| | |].
        -- injection Ha as ->. apply list_elem_of_lookup_2 in Hb.
           specialize (H1 b k Hb Hkb). set_solver.
        -- injection Hb as ->. apply list_elem_of_lookup_2 in Ha.
           specialize (H1 a k Ha Hka). set_solver.
        -- f_equal. by eapply H2.
    + intros [H1 H2]%IH. split.
      * intros y k [->|Hy]%elem_of_cons Hky; [congruence|eauto].
      * intros [|i] [|j] a b k Ha Hb Hka Hkb; simpl in *; try congruence. f_equal. by eapply H2.
Qed.

Lemma any_window_false {A} (p : A -> A -> bool) l i a b :
  any_window p l = false -> l !! i = Some a -> l !! S i = Some b -> p a b = false.
Proof.
  revert i. induction l as [|x l IH]; intros i H Ha Hb; [done|]. destruct l as [|y l]; [by destruct i|].
  cbn [any_window] in H. bool_inv. destruct i as [|i]; [|by apply (IH i)].
  simpl in *. congruence.
Qed.

Lemma collect_accounts_Some l ids recs ids' :
  collect_accounts l ids recs = Some ids' ->
  NoDup (map ram_account_id l) /\ NoDup (map ram_recovery_account l)
  /\ (forall a, a ∈ l -> a.(ram_account_id) ∉ ids /\ a.(ram_recovery_account) ∉ recs)
  /\ forall id, id ∈ ids' -> id ∈ ids \/ exists a, a ∈ l /\ a.(ram_account_id) = id.
Proof.
  revert ids recs. induction l as [|x l IH]; intros ids recs; simpl.
  - intros [= <-]. split; [constructor|]. split; [constructor|].
    split; [intros a Ha; by apply not_elem_of_nil in Ha|auto].
  - destruct (_ || _) eqn:E; [done|]. bool_inv. intros (H1 & H2 & H3 & H4)%IH.
    split; [|split; [|split]].
    + apply NoDup_cons. split; [|done]. intros (a & Ea & Ha)%list_elem_of_fmap.
      destruct (H3 a Ha). set_solver.
    + apply NoDup_cons. split; [|done]. intros (a & Ea & Ha)%list_elem_of_fmap.
      destruct (H3 a Ha). set_solver.
    + intros a [->|Ha]%elem_of_cons; [done|]. destruct (H3 a Ha). set_solver.
    + intros id Hid. destruct (H4 id Hid) as [Hu|(a & Ha & Ea)].
      * apply elem_of_union in Hu as [->%elem_of_singleton|?]; [right; exists x; set_solver|auto].
      * right. exists a. set_solver.
Qed.

Lemma output_exists_has s id : output_exists s id = true -> has_output_id s id.
Proof.
  unfold output_exists. rewrite existsb_exists. intros (o & Ho & E). bool_inv.
  apply list_elem_of_In, list_elem_of_lookup in Ho as [i Hi]. by exists i, o.
Qed.

Lemma existsb_false_all {A} (p : A -> bool) l x : existsb p l = false -> x ∈ l -> p x = false.
Proof.
  intros H Hx. destruct (p x) eqn:E; [|done]. rewrite <-H. symmetry.
  apply existsb_exists. exists x. split; [by apply list_elem_of_In|done].
Qed.

Lemma any_metadata_false s seen l :
  any_metadata_bad s seen l = false ->
  NoDup (map rom_output_id l)
  /\ forall m, m ∈ l -> m.(rom_output_id) ∉ seen /\ has_output_id s m.(rom_output_id).
Proof.
  revert seen. induction l as [|x l IH]; intros seen; simpl.
  - intros _. split; [constructor|]. intros m Hm. by apply not_elem_of_nil in Hm.
  - intros H. bool_inv. apply IH in H0 as [H1 H2]. unfold metadata_bad in H. bool_inv. split.
    + apply NoDup_cons. split; [|done]. intros (m & Em & Hm)%list_elem_of_fmap.
      destruct (H2 m Hm). set_solver.
    + intros m [->|Hm]%elem_of_cons; [by split; [|apply output_exists_has]|].
      destruct (H2 m Hm). set_solver.
Qed.

Lemma validate_transaction_Ok t u :
  validate_transaction t = Ok u ->
  exposure_covers t /\ (t.(tx_submitted) = true -> length t.(tx_kernel_excess) = 33%nat).
Proof.
  unfold validate_transaction. intros H. apply fail_if_Ok in H. bool_inv. split; [done|].
  intros Hs. rewrite Hs in *. simpl in *. bool_inv. unfold len in *. lia.
Qed.

Lemma validate_window_Ok s u :
  validate_recovery_window s = Ok u ->
  forall i a b, s.(ws_recovery_canonical_blocks) !! i = Some a ->
  s.(ws_recovery_canonical_blocks) !! S i = Some b ->
  b.(rcb_height) = saturating_add u64_max a.(rcb_height) 1
  /\ b.(rcb_previous_block_hash) = a.(rcb_block_hash).
Proof.
  unfold validate_recovery_window. intros H i a b Ha Hb. apply fail_if_Ok in H. bool_inv.
  match goal with Hw : any_window _ _ = false |- _ =>
    pose proof (any_window_false _ _ i a b Hw Ha Hb) as Hg end.
  unfold block_gap in Hg. by bool_inv.
Qed.

Lemma validate_accounts_Ok s u :
  validate_accounts s = Ok u ->
  (NoDup (map ram_account_id s.(ws_recovered_accounts))
   /\ NoDup (map ram_recovery_account s.(ws_recovered_accounts)))
  /\ forall o, o ∈ s.(ws_outputs) ->
     o.(out_account_id) = s.(ws_default_account).(acc_id)
     \/ exists a, a ∈ s.(ws_recovered_accounts) /\ a.(ram_account_id) = o.(out_account_id).
Proof.
  unfold validate_accounts. intros H. apply rbind_Ok in H as (? & _ & H).
  destruct (collect_accounts _ _ _) as [ids|] eqn:Hc; [|done].
  apply collect_accounts_Some in Hc as (H1 & H2 & _ & H4). split; [done|].
  intros o Ho. apply fail_if_Ok in H. apply (existsb_false_all _ _ o) in H; [|done].
  simpl in H. bool_inv.
  destruct (H4 _ H) as [?%elem_of_singleton|?]; auto.
Qed.

(** The checks of [WalletState::validate], one by one. *)
Lemma WalletState_validate_Ok s :
  WalletState_validate s = Ok tt <->
  validate_header s = Ok tt
  /\ for_each validate_transaction s.(ws_transactions) = Ok tt
  /\ validate_scriptless_funding_reservations s = Ok tt
  /\ validate_scriptless_payout_reservations s = Ok tt
  /\ ((MAX_SWAP_SESSIONS <? len s.(ws_swap_sessions))
      || (MAX_SWAP_LEG_INDEX <? s.(ws_next_swap_leg_index))) = false
  /\ for_each swap_validate s.(ws_swap_sessions) = Ok tt
  /\ is_some_and s.(ws_rescan_plan) (rescan_plan_bad s) = false
  /\ validate_accounts s = Ok tt
  /\ validate_recovery_window s = Ok tt
  /\ existsb (fun secret => negb (output_exists s secret.(pob_output_id)))
             s.(ws_private_output_blindings) = false
  /\ any_duplicate out_commitment ∅ s.(ws_outputs) = false
  /\ any_metadata_bad s ∅ s.(ws_recovered_output_metadata) = false.
Proof.
  unfold WalletState_validate. by rewrite !then_Ok, !fail_if_Ok.
Qed.

Lemma for_each_Ok {E X} (f : X -> result E unit) xs :
  for_each f xs = Ok tt <-> forall x, x ∈ xs -> f x = Ok tt.
Proof.
  unfold for_each. split.
  - intros H x Hx. by destruct (foldM_unit_inv _ _ _ _ H x Hx) as [[] ?].
  - intros H. induction xs as [|x xs IH]; simpl; [done|].
    rewrite (H x) by set_solver. simpl. apply IH. set_solver.
Qed.

Lemma validate_wallet_ok s : WalletState_validate s = Ok tt -> wallet_ok s.
Proof.
  intros (Hh & Ht & Hf & Hp & _ & _ & Hplan & Ha & Hw & Hb & Hc & Hm)%WalletState_validate_Ok.
  rewrite for_each_Ok in Ht. apply validate_accounts_Ok in Ha as [Hra Hacc].
  apply any_duplicate_false in Hc as [_ Hc]. apply any_metadata_false in Hm as [Hmd Hm].
  split; try done.
  - unfold validate_header in Hh. rewrite !then_Ok, !fail_if_Ok in Hh.
    destruct Hh as (_ & _ & _ & _ & Hh & _). by bool_inv.
  - apply Forall_forall. intros t Hin. by apply Ht, validate_transaction_Ok in Hin as [? _].
  - intros t Hin. by apply Ht, validate_transaction_Ok in Hin as [_ ?].
  - intros b Hin. apply (existsb_false_all _ _ b) in Hb; [|done]. simpl in Hb. bool_inv.
    by apply output_exists_has.
  - split; [done|]. intros m Hin. by apply Hm.
  - by eapply validate_window_Ok.
  - intros plan E. rewrite E in Hplan. exact Hplan.
Qed.

(** Raising floors keeps a state valid. *)
Definition raise_floors (af nf : N) (f : RecoveryAllocationFloors) (s : WalletState) : WalletState :=
  s <| ws_allocation_floor := af |> <| ws_non_reuse_floor := nf |>
    <| ws_recovery_allocation_floors := f |>.

Lemma is_some_and_mono {A} (o : option A) (p q : A -> bool) :
  (forall a, p a = true -> q a = true) -> is_some_and o q = false -> is_some_and o p = false.
Proof.
  destruct o as [a|]; simpl; [|done]. intros H Hq. destruct (p a) eqn:Hp; [|done].
  rewrite H in Hq; done.
Qed.

Lemma funding_shape_raise af nf f s seen r :
  s.(ws_recovery_allocation_floors).(raf_change) <= f.(raf_change) ->
  funding_shape_bad s seen r = false -> funding_shape_bad (raise_floors af nf f s) seen r = false.
Proof.
  intros Hle. unfold funding_shape_bad. intros H. apply orb_false_iff in H as [H H'].
  apply orb_false_iff. split; [exact H|]. eapply is_some_and_mono; [|exact H'].
  intros i Hi. simpl in Hi. apply orb_true_iff in Hi. apply orb_true_iff.
  destruct Hi as [Hi|Hi]; [auto|right]. bool_inv. apply N.ltb_lt. lia.
Qed.

Lemma payout_shape_raise af nf f s seen r :
  s.(ws_recovery_allocation_floors).(raf_self_transfer) <= f.(raf_self_transfer) ->
  payout_shape_bad s seen r = false -> payout_shape_bad (raise_floors af nf f s) seen r = false.
Proof.
  intros Hle. unfold payout_shape_bad. intros H. repeat rewrite orb_false_iff in *.
  intuition. eapply is_some_and_mono; [|eassumption].
  intros i Hi. simpl in Hi. apply orb_true_iff in Hi. apply orb_true_iff.
  destruct Hi as [Hi|Hi]; [auto|right]. bool_inv. apply N.ltb_lt. lia.
Qed.

Lemma foldM_ext_Ok {E A B} (f g : A -> B -> result E A) xs a a' :
  (forall a x b, f a x = Ok b -> g a x = Ok b) -> foldM f xs a = Ok a' -> foldM g xs a = Ok a'.
Proof.
  intros H. revert a. induction xs as [|x xs IH]; intros a; simpl; [done|].
  intros (b & Hb & Hr)%rbind_Ok. rewrite (H _ _ _ Hb). simpl. auto.
Qed.

Lemma any_metadata_raise af nf f s seen l :
  any_metadata_bad (raise_floors af nf f s) seen l = any_metadata_bad s seen l.
Proof. revert seen. induction l as [|m l IH]; intros seen; simpl; [done|]. by rewrite IH. Qed.

Lemma raise_floors_valid af nf f s :
  af <= nf ->
  (forall class, recovery_floor class s.(ws_recovery_allocation_floors) <= recovery_floor class f) ->
  WalletState_validate s = Ok tt -> WalletState_validate (raise_floors af nf f s) = Ok tt.
Proof.
  intros Haf Hf. pose proof (Hf ROC.Change) as Hch. pose proof (Hf ROC.SelfTransfer) as Hst.
  simpl in Hch, Hst. rewrite !WalletState_validate_Ok, any_metadata_raise.
  intros (Hh & Ht & Hfu & Hpa & Hrest). split; [|split; [exact Ht|split; [|split; [|exact Hrest]]]].
  - unfold validate_header in *. rewrite !then_Ok, !fail_if_Ok in *.
    destruct Hh as (H1 & H2 & H3 & H4 & _ & H6). repeat (split; [assumption|]).
    split; [apply N.ltb_ge; simpl; lia|exact H6].
  - unfold validate_scriptless_funding_reservations in *. rewrite then_Ok in *.
    destruct Hfu as [Hl Hfu]. split; [exact Hl|]. apply rbind_Ok in Hfu as (seen & Hloop & Hown).
    apply rbind_Ok. exists seen. split; [|exact Hown]. eapply foldM_ext_Ok; [|exact Hloop].
    intros a r b. unfold validate_funding_one at 1 2. rewrite !then_Ok, !fail_if_Ok.
    intros [Hs Hr]. split; [by apply funding_shape_raise|exact Hr].
  - unfold validate_scriptless_payout_reservations in *. rewrite then_Ok in *.
    destruct Hpa as [Hl Hpa]. split; [exact Hl|]. apply rbind_Ok in Hpa as (seen & Hloop & Hown).
    apply rbind_Ok. exists seen. split; [|exact Hown]. eapply foldM_ext_Ok; [|exact Hloop].
    intros a r b. unfold validate_payout_one at 1 2. rewrite !then_Ok, !fail_if_Ok.
    intros [Hs Hr]. split; [by apply payout_shape_raise|exact Hr].
Qed.

Lemma validated_lengths s r :
  validate_scriptless_funding_reservations s = Ok tt ->
  r ∈ s.(ws_scriptless_funding_reservations) ->
  length r.(fr_reserved_output_ids) = length r.(fr_input_commitments).
Proof.
  unfold validate_scriptless_funding_reservations. rewrite then_Ok. intros [_ H] Hr.
  apply rbind_Ok in H as (seen & Hloop & _). apply validate_funding_loop in Hloop as [Hone _].
  by apply Hone in Hr as [? _].
Qed.

(** ** Properties *)

(** C35 A validated state is well formed: output commitments are unique, every
    output belongs to a known account, exposures cover their lifecycles, every
    blinding and every recovery record names an output, and the retained
    canonical blocks are consecutive and linked by hash. *)
Theorem validated_state_is_well_formed s (H : WalletState_validate s = Ok tt) : wallet_ok s.
Proof. by apply validate_wallet_ok. Qed.

(** A new wallet is valid exactly when its node configuration is, and is
    for the wallet's own network. *)
Theorem new_wallet_is_valid wallet_id account_id identity root configuration :
  WalletState_validate (WalletState_new wallet_id account_id identity root configuration) = Ok tt
  <-> NodeConfiguration_validate configuration = Ok tt
      /\ identity = configuration.(nc_expected_identity).
Proof.
  rewrite WalletState_validate_Ok. unfold validate_header. rewrite !then_Ok, !fail_if_Ok.
  unfold NetworkIdentity_matches. split.
  - intros ((_ & _ & H1 & H2 & _) & _). simpl in H1, H2. by bool_inv.
  - intros [H1 ->]. simpl. rewrite bool_decide_eq_true_2 by done.
    repeat split; try done.
Qed.

(** Handing out coordinates keeps the wallet valid: neither [allocate] nor
    [reserve_recovery_coordinate] can turn a valid state into an invalid one,
    whether or not it succeeds. *)
Theorem allocation_preserves_validity s (H : WalletState_validate s = Ok tt) :
  WalletState_validate (allocate s).1 = Ok tt
  /\ forall account class,
     WalletState_validate (reserve_recovery_coordinate account class s).1 = Ok tt.
Proof.
  pose proof (ok_floors _ (validate_wallet_ok _ H)) as Hfl. split.
  - unfold allocate. destruct (checked_add _ _ _) as [p|] eqn:E; [|done].
    change (WalletState_validate (raise_floors p (N.max s.(ws_non_reuse_floor) p)
              s.(ws_recovery_allocation_floors) s) = Ok tt).
    apply raise_floors_valid; [lia|reflexivity|done].
  - intros account class. unfold reserve_recovery_coordinate.
    destruct (checked_add _ _ _) as [p|] eqn:E; [|done]. apply checked_add_Some in E as [-> _].
    set (p := _ + 1). change (WalletState_validate (raise_floors s.(ws_allocation_floor)
      (N.max s.(ws_non_reuse_floor) p)
      (set_recovery_floor class p s.(ws_recovery_allocation_floors)) s) = Ok tt).
    apply raise_floors_valid; [lia| |done].
    intros c'. subst p. destruct class, c'; simpl; lia.
Qed.

(** An activated scan is safe: it was the scan that was begun, the cursor
    is its target's, the generation grows by one, the state is well formed, the
    observed outputs are all kept, and no observed output that a Scriptless
    reservation retains as an input can be selected. *)
Theorem activated_scan_is_safe target observations s s'
    (H : activate_scan target observations s = (s', Ok tt)) :
  s.(ws_provisional_target) = Some target
  /\ s'.(ws_cursor) = Some (ScanTarget_cursor target)
  /\ s'.(ws_provisional_target) = None
  /\ s'.(ws_generation) = s.(ws_generation) + 1
  /\ s'.(ws_generation) <= u64_max
  /\ wallet_ok s'
  /\ outs_ext observations s'.(ws_outputs)
  /\ forall r c o, r ∈ s'.(ws_scriptless_funding_reservations) ->
     FundSt.retains_inputs r.(fr_state) = true -> c ∈ r.(fr_input_commitments) ->
     o ∈ s'.(ws_outputs) -> o.(out_commitment) = Some c -> selectable o = false.
Proof.
  unfold activate_scan in H. destruct (negb _) eqn:Et; [done|]. bool_inv.
  destruct (_ || _) eqn:Eo; [done|].
  apply mthen_Ok in H as (s0 & [] & H0 & H). injection H0 as <-.
  apply mthen_Ok in H as (s1 & [] & H1 & H). apply mthen_Ok in H as (s2 & [] & H2 & H).
  apply mthen_Ok in H as (s3 & [] & H3 & H). injection H3 as <-.
  apply mthen_Ok in H as (s4 & [] & H4 & H). injection H as -> Hv.
  unfold bump_generation in H4. destruct (checked_add _ _ _) as [g|] eqn:Eg; [|done].
  injection H4 as <-. apply checked_add_Some in Eg as [-> Hg].
  pose proof (validate_wallet_ok _ Hv) as Hok.
  pose proof (restore_funding_moves _ _ _ H1) as M1. pose proof (restore_payout_moves _ _ _ H2) as M2.
  pose proof (f_equal ws_generation (restoring_unrelated _ _ M1)) as G1.
  pose proof (f_equal ws_generation (restoring_unrelated _ _ M2)) as G2. simpl in G1, G2, Hg.
  split; [done|]. split; [done|]. split; [done|]. split; [simpl; lia|].
  split; [simpl; lia|]. split; [done|]. split; [simpl; transitivity (ws_outputs s1); [apply M1|apply M2]|].
  intros r c o Hr Hret Hc [i Hi]%list_elem_of_lookup Ho.
  pose proof (validated_lengths _ _ (proj1 (ok_reservations _ Hok)) Hr) as Hlen.
  apply list_elem_of_lookup in Hr as [k Hk]. simpl in Hk, Hi.
  destruct (Forall2_lookup_r _ _ _ _ _ (restoring_funding _ _ M2) Hk) as (r1 & Hk1 & Hs1 & L1).
  destruct (Forall2_lookup_r _ _ _ _ _ (restoring_funding _ _ M1) Hk1) as (r0 & Hk0 & Hs0 & L0).
  rewrite Hs1, Hs0 in Hret, Hc, Hlen. simpl in Hret, Hc, Hlen.
  apply (outs_ext_held c _ _ (restoring_outputs _ _ M2)) with (i := i); try done.
  apply (restore_funding_holds _ s1 r0 c H1); try done.
  - eapply outs_ext_unique; [apply M2|]. apply (ok_commitments _ Hok).
  - by eapply list_elem_of_lookup_2.
  - rewrite <-L0, <-L1. exact Hlen.
Qed.

(** ** Witnesses *)

Lemma validated_state_is_well_formed_witness : wallet_ok reserving_wallet.
Proof. apply validated_state_is_well_formed. vm_compute. reflexivity. Defined.

Definition sample_target : ScanTarget :=
  mkScanTarget 90 (sample_bytes 32 Byte.x51) "mock-a" (mkScanBounds 0 90 4 100) 1.

(** The scan of [reserving_wallet] that finds its two outputs unspent. *)
Definition scanning_wallet : WalletState := (begin_scan sample_target reserving_wallet).1.
Definition scanned_wallet : WalletState :=
  (activate_scan sample_target [sample_output 5 Byte.x05 Out.Confirmed;
                                sample_output 6 Byte.x06 Out.Confirmed] scanning_wallet).1.
