(* ===== verification/Rescan.v ===== *)
(** * Rescans

    [prepare_rescan], [transition_rescan], [apply_rescan_page_cursor] and
    [activate_rescan] of crates/dom-wallet-domain/src/lib.rs. *)

From S2P Require Import Prelude DomainTypes Lifecycle WalletOps Reservations Restore Validation.

Import Phase.

(** [Uuid::new_v4()] is the argument [plan_id]. *)
Definition prepare_rescan (plan_id : uuid) (target : ScanTarget)
    : method WalletState DErr.DomainError unit := fun self =>
  match self.(ws_rescan_plan) with
  | Some _ => (self, Err DErr.RescanAlreadyActive)
  | None =>
      (let! _ := mread (fun _ => ScanTarget_validate target) in
       let '(transactions, r) :=
         for_each_mut (reorg_if (fun t => is_confirmed t.(tx_lifecycle))) self.(ws_transactions) in
       let! _ := mread (fun _ => r) in
       let! provisional := mread (fun _ =>
         ok_or (checked_add u64_max self.(ws_generation) 1) DErr.GenerationOverflow) in
       massign (fun self => self <| ws_rescan_plan := Some {|
         rp_version := 1;
         rp_plan_id := plan_id;
         rp_wallet_id := self.(ws_wallet_id);
         rp_identity := self.(ws_identity);
         rp_source_identity := target.(st_source_identity);
         rp_target := target;
         rp_recovery_start_height := target.(st_scan_bounds).(sb_start_height);
         rp_next_page := 0;
         rp_next_page_height := target.(st_scan_bounds).(sb_start_height);
         rp_provisional_generation_id := provisional;
         rp_retained_canonical_generation_id := self.(ws_generation);
         rp_phase := Prepared;
         rp_provisional_outputs := self.(ws_outputs);
         rp_provisional_transactions := transactions |} |>)) self
  end.

(** [let plan = self.rescan_plan_mut()?; ..] *)
Definition on_plan (body : method RescanPlan DErr.DomainError unit)
    : method WalletState DErr.DomainError unit := fun self =>
  match self.(ws_rescan_plan) with
  | None => (self, Err DErr.InvalidRescanPlan)
  | Some plan => let '(plan', r) := body plan in (self <| ws_rescan_plan := Some plan' |>, r)
  end.

Definition phase_allowed (phase next : RescanPhase) : bool :=
  match phase, next with
  | Prepared, Scanning | Scanning, ValidatingTarget | ValidatingTarget, ReadyToActivate
  | ReadyToActivate, Activating | Activating, Complete => true
  | (Prepared | Scanning | ValidatingTarget | ReadyToActivate | Activating),
    (Invalidated | Failed) => true
  | _, _ => false
  end.

Definition plan_transition (next : RescanPhase) : method RescanPlan DErr.DomainError unit :=
  fun plan =>
  if negb (phase_allowed plan.(rp_phase) next) then (plan, Err DErr.InvalidRescanTransition)
  else (plan <| rp_phase := next |>, Ok tt).

Definition transition_rescan (next : RescanPhase) : method WalletState DErr.DomainError unit :=
  on_plan (plan_transition next).

(** [next_page] is a [u32]. *)
Definition plan_page (page_number start end_ : N) : method RescanPlan DErr.DomainError unit :=
  fun plan =>
  let target_height := plan.(rp_target).(st_target_height) in
  if negb (bool_decide (plan.(rp_phase) = Scanning))
     || negb (page_number =? plan.(rp_next_page))
     || negb (start =? plan.(rp_next_page_height))
     || (end_ <? start) || (target_height <? end_)
  then (plan, Err DErr.InvalidRescanPage)
  else match checked_add u64_max end_ 1 with
  | None => (plan, Err DErr.InvalidRescanPage)
  | Some next =>
      if saturating_add u64_max target_height 1 <? next then (plan, Err DErr.InvalidRescanPage)
      else match checked_add u32_max plan.(rp_next_page) 1 with
      | None => (plan, Err DErr.InvalidRescanPage)
      | Some page =>
          let plan := plan <| rp_next_page := page |> <| rp_next_page_height := next |> in
          (if next =? saturating_add u64_max target_height 1
           then plan <| rp_phase := ValidatingTarget |> else plan, Ok tt)
      end
  end.

Definition apply_rescan_page_cursor (page_number start end_ : N)
    : method WalletState DErr.DomainError unit := on_plan (plan_page page_number start end_).

(** [take()] empties the field before the phase is looked at. *)
Definition activate_rescan : method WalletState DErr.DomainError unit := fun self =>
  match self.(ws_rescan_plan) with
  | None => (self, Err DErr.InvalidRescanPlan)
  | Some plan =>
      let self := self <| ws_rescan_plan := None |> in
      if negb (bool_decide (plan.(rp_phase) = Activating)) then (self, Err DErr.InvalidRescanPlan)
      else
        (massign (fun self => self <| ws_outputs := plan.(rp_provisional_outputs) |>
                                   <| ws_transactions := plan.(rp_provisional_transactions) |>) ;;;
         restore_scriptless_funding_reservations ;;;
         restore_scriptless_payout_reservations ;;;
         massign (fun self => self <| ws_cursor := Some (ScanTarget_cursor plan.(rp_target)) |>
                                   <| ws_sync_status := Sync.Synced |>)) self
  end.

(** ** Lemmas *)

(** The phases in the order a rescan passes through them. *)
Definition phase_rank (p : RescanPhase) : N :=
  match p with
  | Prepared => 0 | Scanning => 1 | ValidatingTarget => 2 | ReadyToActivate => 3 | Activating => 4
  | Complete | Invalidated | Failed => 5
  end.

(** One change of a plan: a transition or a page. *)
Inductive plan_step : RescanPlan -> RescanPlan -> Prop :=
| step_transition next p p' : plan_transition next p = (p', Ok tt) -> plan_step p p'
| step_page n a b p p' : plan_page n a b p = (p', Ok tt) -> plan_step p p'.

Lemma plan_page_Ok n a b p p' :
  plan_page n a b p = (p', Ok tt) ->
  let target := p.(rp_target).(st_target_height) in
  p.(rp_phase) = Scanning /\ n = p.(rp_next_page) /\ a = p.(rp_next_page_height)
  /\ a <= b <= target /\ b + 1 <= u64_max /\ p.(rp_next_page) + 1 <= u32_max
  /\ p'.(rp_phase) = (if b + 1 =? saturating_add u64_max target 1 then ValidatingTarget else Scanning)
  /\ p' = p <| rp_next_page := p.(rp_next_page) + 1 |> <| rp_next_page_height := b + 1 |>
            <| rp_phase := p'.(rp_phase) |>.
Proof.
  unfold plan_page. destruct (_ || _) eqn:E; [done|]. bool_inv.
  destruct (checked_add _ b 1) as [next|] eqn:En; [|done]. apply checked_add_Some in En as [-> Hb].
  destruct (_ <? b + 1) eqn:Et; [done|]. bool_inv.
  destruct (checked_add _ _ 1) as [page|] eqn:Ep; [|done]. apply checked_add_Some in Ep as [-> Hp].
  intros [= <-]. subst n a. repeat split; try done; try lia;
    destruct p as [? ? ? ? ? ? ? ? ? ? ? ph ? ?]; simpl in *; subst ph;
    by destruct (b + 1 =? _).
Qed.

Lemma plan_transition_Ok next p p' :
  plan_transition next p = (p', Ok tt) ->
  phase_allowed p.(rp_phase) next = true /\ p' = p <| rp_phase := next |>.
Proof.
  unfold plan_transition. destruct (phase_allowed _ _); [|done]. by intros [= <-].
Qed.

(** What no step of a plan changes. *)
Lemma plan_step_frame p p' :
  plan_step p p' ->
  p' = p <| rp_next_page := p'.(rp_next_page) |> <| rp_next_page_height := p'.(rp_next_page_height) |>
         <| rp_phase := p'.(rp_phase) |>.
Proof.
  intros [next q q' H|n a b q q' H].
  - apply plan_transition_Ok in H as [_ ->]. by destruct q.
  - apply plan_page_Ok in H as (_ & _ & _ & _ & _ & _ & _ & H). rewrite H. by destruct q.
Qed.

(** The heights from [a] on, [n] of them. *)
Fixpoint heights (a : N) (n : nat) : list N :=
  match n with O => [] | S n => a :: heights (a + 1) n end.

Lemma heights_app a n m : heights a (n + m) = heights a n ++ heights (a + N.of_nat n) m.
Proof.
  revert a. induction n as [|n IH]; intros a; simpl; [by rewrite N.add_0_r|].
  rewrite IH. do 3 f_equal. lia.
Qed.

(** The heights of the pages [(page_number, start, end)], in order. *)
Definition page_heights (pages : list (N * N * N)) : list N :=
  concat (map (fun '(_, a, b) => heights a (N.to_nat (b + 1 - a))) pages).

Definition apply_pages (pages : list (N * N * N)) : method RescanPlan DErr.DomainError unit :=
  mfor pages (fun '(n, a, b) => plan_page n a b).

Lemma apply_pages_Ok pages p p' :
  apply_pages pages p = (p', Ok tt) -> p.(rp_phase) = Scanning ->
  p.(rp_next_page_height) <= p'.(rp_next_page_height)
  /\ page_heights pages
     = heights p.(rp_next_page_height)
               (N.to_nat (p'.(rp_next_page_height) - p.(rp_next_page_height)))
  /\ p'.(rp_next_page) = p.(rp_next_page) + len pages
  /\ p'.(rp_target) = p.(rp_target)
  /\ p.(rp_next_page_height) + len pages <= p'.(rp_next_page_height)
  /\ (pages <> [] -> p'.(rp_next_page_height) <= p.(rp_target).(st_target_height) + 1
      /\ p'.(rp_phase)
         = if p'.(rp_next_page_height) =? saturating_add u64_max p.(rp_target).(st_target_height) 1
           then ValidatingTarget else Scanning).
Proof.
  revert p. induction pages as [|[[n a] b] pages IH]; intros p; cbn [apply_pages mfor].
  - intros [= <-] _. rewrite N.sub_diag. unfold len. simpl. repeat split; done || lia.
  - intros H Hph. apply mthen_Ok in H as (q & [] & Hq & H).
    apply plan_page_Ok in Hq as (_ & -> & -> & Hb & Hmax & _ & Hphase & Eq).
    assert (Hqh : q.(rp_next_page_height) = b + 1) by (by rewrite Eq).
    assert (Hqp : q.(rp_next_page) = p.(rp_next_page) + 1) by (by rewrite Eq).
    assert (Hqt : q.(rp_target) = p.(rp_target)) by (by rewrite Eq).
    clear Eq. unfold page_heights. simpl. fold (page_heights pages).
    set (h := rp_next_page_height p) in *.
    destruct pages as [|pg pages].
    + cbn in H. injection H as <-. rewrite Hqh, Hqp, Hqt, Hphase. unfold len, page_heights. simpl.
      rewrite app_nil_r. repeat split; done || lia.
    + assert (Hqs : q.(rp_phase) = Scanning).
      { cbn [apply_pages mfor] in H. destruct pg as [[n' a'] b'].
        apply mthen_Ok in H as (q' & [] & Hq' & _). by apply plan_page_Ok in Hq' as (? & _). }
      specialize (IH q H Hqs) as (H1 & H2 & H3 & H4 & H5 & H6). rewrite Hqh in H1, H2, H5.
      rewrite Hqp in H3. rewrite Hqt in H4, H6. destruct (H6 ltac:(done)) as [H7 H8].
      split; [lia|]. split; [|split; [|split; [done|split; [|done]]]].
      * rewrite H2.
        replace (N.to_nat (rp_next_page_height p' - h))
          with (N.to_nat (b + 1 - h) + N.to_nat (rp_next_page_height p' - (b + 1)))%nat by lia.
        rewrite heights_app. do 2 f_equal. lia.
      * rewrite H3. unfold len. simpl length. lia.
      * unfold len in *. simpl length in *. lia.
Qed.

Lemma plan_page_progress p b :
  let target := p.(rp_target).(st_target_height) in
  p.(rp_phase) = Scanning -> p.(rp_next_page_height) <= b <= target -> target < u64_max ->
  p.(rp_next_page) < u32_max ->
  exists p', plan_page p.(rp_next_page) p.(rp_next_page_height) b p = (p', Ok tt).
Proof.
  intros target Hph [Hb1 Hb2] Hmax Hp. unfold plan_page. fold target.
  rewrite Hph, bool_decide_eq_true_2, !N.eqb_refl by done. simpl.
  rewrite (proj2 (N.ltb_ge _ _) Hb1), (proj2 (N.ltb_ge _ _) Hb2). simpl.
  rewrite (proj2 (checked_add_Some u64_max b 1 _)) by (split; [reflexivity|lia]).
  rewrite (proj2 (N.ltb_ge _ _)) by (unfold saturating_add; lia).
  rewrite (proj2 (checked_add_Some u32_max _ 1 _)) by (split; [reflexivity|lia]). eauto.
Qed.

(** What [validate] asks of a plan, and of its target. *)
Definition plan_ok (s : WalletState) (p : RescanPlan) : Prop :=
  rescan_plan_bad s p = false /\ ScanTarget_validate p.(rp_target) = Ok tt.

Lemma scan_target_bounds t :
  ScanTarget_validate t = Ok tt ->
  t.(st_scan_bounds).(sb_start_height) <= t.(st_scan_bounds).(sb_end_height)
  /\ t.(st_target_height) = t.(st_scan_bounds).(sb_end_height).
Proof.
  unfold ScanTarget_validate, ScanBounds_validate. rewrite !then_Ok, !fail_if_Ok.
  intros (_ & H1 & H2). by bool_inv.
Qed.

Lemma plan_bad_moved s p page height phase :
  rescan_plan_bad s p = false -> p.(rp_recovery_start_height) <= height ->
  height <= saturating_add u64_max p.(rp_target).(st_scan_bounds).(sb_end_height) 1 ->
  rescan_plan_bad s (p <| rp_next_page := page |> <| rp_next_page_height := height |>
                       <| rp_phase := phase |>) = false.
Proof.
  unfold rescan_plan_bad. intros H H1 H2. repeat rewrite orb_false_iff in *.
  destruct H as [[H _] _]. simpl.
  destruct H as [[[? ?] ?] ?]. repeat split; try done; apply N.ltb_ge; simpl; lia.
Qed.

Lemma plan_step_ok s p p' : plan_ok s p -> plan_step p p' -> plan_ok s p'.
Proof.
  intros [Hb Ht] Hs. pose proof (plan_step_frame _ _ Hs) as Hf. rewrite Hf.
  assert (Hr : p.(rp_recovery_start_height) <= p.(rp_next_page_height)
    /\ p.(rp_next_page_height)
       <= saturating_add u64_max p.(rp_target).(st_scan_bounds).(sb_end_height) 1).
  { unfold rescan_plan_bad in Hb. by bool_inv. }
  split; [|exact Ht]. destruct Hs as [next q q' H|n a b q q' H].
  - apply plan_transition_Ok in H as [_ ->]. destruct Hr. by apply plan_bad_moved.
  - apply plan_page_Ok in H as (_ & _ & -> & Hab & Hmax & _ & _ & Eq).
    apply scan_target_bounds in Ht as [_ Ht].
    assert (E : rp_next_page_height q' = b + 1) by (by rewrite Eq). rewrite E.
    apply plan_bad_moved; [done|lia|]. unfold saturating_add. lia.
Qed.

(** Steps a plan has left. *)
Definition plan_measure (p : RescanPlan) : N :=
  (5 - phase_rank p.(rp_phase)) + (p.(rp_target).(st_target_height) + 1 - p.(rp_next_page_height)).

Lemma plan_step_measure p p' : plan_step p p' -> plan_measure p' < plan_measure p.
Proof.
  unfold plan_measure. intros [next q q' H|n a b q q' H].
  - apply plan_transition_Ok in H as [Ha ->]. simpl.
    destruct (rp_phase q), next; simpl in Ha |- *; try done; lia.
  - apply plan_page_Ok in H as (Hp & _ & -> & Hab & _ & _ & Hph & Eq).
    rewrite Hp. assert (E : rp_next_page_height q' = b + 1) by (by rewrite Eq).
    assert (Et : rp_target q' = rp_target q) by (by rewrite Eq). rewrite E, Et, Hph.
    destruct (_ =? _); simpl; lia.
Qed.

Lemma plan_steps_bounded n p p' :
  nsteps plan_step n p p' -> N.of_nat n + plan_measure p' <= plan_measure p.
Proof.
  induction 1 as [p|n p q p' Hs _ IH]; [lia|]. apply plan_step_measure in Hs. lia.
Qed.

Lemma plan_steps_ok s n p p' : nsteps plan_step n p p' -> plan_ok s p -> plan_ok s p'.
Proof. induction 1; [done|]. intros. by eauto using plan_step_ok. Qed.

(** The plan that [prepare_rescan] stores. *)
Definition prepared_plan (plan_id : uuid) (target : ScanTarget) (s : WalletState) : RescanPlan := {|
  rp_version := 1;
  rp_plan_id := plan_id;
  rp_wallet_id := s.(ws_wallet_id);
  rp_identity := s.(ws_identity);
  rp_source_identity := target.(st_source_identity);
  rp_target := target;
  rp_recovery_start_height := target.(st_scan_bounds).(sb_start_height);
  rp_next_page := 0;
  rp_next_page_height := target.(st_scan_bounds).(sb_start_height);
  rp_provisional_generation_id := s.(ws_generation) + 1;
  rp_retained_canonical_generation_id := s.(ws_generation);
  rp_phase := Prepared;
  rp_provisional_outputs := s.(ws_outputs);
  rp_provisional_transactions :=
    map (reorged (fun t => is_confirmed t.(tx_lifecycle))) s.(ws_transactions);
|}.

Lemma prepare_rescan_spec plan_id target s :
  prepare_rescan plan_id target s =
  match s.(ws_rescan_plan), ScanTarget_validate target, s.(ws_generation) + 1 <=? u64_max with
  | Some _, _, _ => (s, Err DErr.RescanAlreadyActive)
  | None, Err e, _ => (s, Err e)
  | None, Ok _, false => (s, Err DErr.GenerationOverflow)
  | None, Ok _, true => (s <| ws_rescan_plan := Some (prepared_plan plan_id target s) |>, Ok tt)
  end.
Proof.
  unfold prepare_rescan. destruct (ws_rescan_plan s); [done|].
  pose proof (reorg_transactions (fun t => is_confirmed t.(tx_lifecycle)) s ltac:(done)) as Hr.
  unfold on_transactions in Hr. destruct (for_each_mut _ _) as [l r].
  injection Hr as -> ->.
  unfold mthen, mread. destruct (ScanTarget_validate target) as [[]|e]; [|done]. simpl.
  unfold checked_add. by destruct (_ <=? _).
Qed.

(** ** Properties *)

(** Pages cover the range: the pages that take a scanning plan to the
    validation of its target name every height from the plan's position to the
    target exactly once and in order, so there are at most as many pages as
    heights; and until the target is reached the next page is always accepted,
    whatever its length. *)
Theorem pages_cover_the_range p
    (Hscan : p.(rp_phase) = Scanning) (Hmax : p.(rp_target).(st_target_height) < u64_max) :
  (forall pages p', apply_pages pages p = (p', Ok tt) -> p'.(rp_phase) = ValidatingTarget ->
     let start := p.(rp_next_page_height) in
     let count := p.(rp_target).(st_target_height) + 1 - start in
     page_heights pages = heights start (N.to_nat count) /\ len pages <= count
     /\ p'.(rp_next_page) = p.(rp_next_page) + len pages)
  /\ forall b, p.(rp_next_page_height) <= b <= p.(rp_target).(st_target_height) ->
     p.(rp_next_page) < u32_max ->
     exists p', plan_page p.(rp_next_page) p.(rp_next_page_height) b p = (p', Ok tt)
     /\ p'.(rp_phase)
        = if b =? p.(rp_target).(st_target_height) then ValidatingTarget else Scanning.
Proof.
  assert (Hsat : saturating_add u64_max (st_target_height (rp_target p)) 1
                 = st_target_height (rp_target p) + 1) by (unfold saturating_add; lia).
  split.
  - intros pages p' H Hdone start count.
    destruct (apply_pages_Ok _ _ _ H Hscan) as (H1 & H2 & H3 & _ & H5 & H6).
    destruct (decide (pages = [])) as [->|Hne].
    { cbn in H. injection H as <-. congruence. }
    destruct (H6 Hne) as [_ H7]. rewrite Hdone, Hsat in H7.
    destruct (rp_next_page_height p' =? _) eqn:E in H7; [|discriminate H7]. bool_inv. rewrite E in H2, H5. fold start in H2, H5.
    split; [done|]. split; [lia|done].
  - intros b Hb Hp. destruct (plan_page_progress p b Hscan Hb Hmax Hp) as [p' Hp']. exists p'.
    split; [done|]. apply plan_page_Ok in Hp' as (_ & _ & _ & _ & _ & _ & -> & _). rewrite Hsat.
    destruct (b =? _) eqn:E; bool_inv; [by rewrite E, N.eqb_refl|].
    by rewrite (proj2 (N.eqb_neq _ _)) by lia.
Qed.

(** C38 A rescan stays valid and ends: preparing one writes nothing but the
    plan; every plan that pages and transitions can reach from it passes the
    plan checks of [validate]; and there are at most 6 steps more than heights
    to scan. *)
Theorem rescans_stay_valid_and_end plan_id target s s'
    (Hu64 : target.(st_target_height) <= u64_max)
    (H : prepare_rescan plan_id target s = (s', Ok tt)) :
  s' = s <| ws_rescan_plan := Some (prepared_plan plan_id target s) |>
  /\ forall n p, nsteps plan_step n (prepared_plan plan_id target s) p ->
     rescan_plan_bad s' p = false
     /\ N.of_nat n <= 6 + (target.(st_target_height)
                           - target.(st_scan_bounds).(sb_start_height)).
Proof.
  rewrite prepare_rescan_spec in H. destruct (ws_rescan_plan s); [done|].
  destruct (ScanTarget_validate target) as [[]|e] eqn:Ht; [|done].
  destruct (_ <=? _) eqn:Eg; [|done]. injection H as <-. split; [done|].
  pose proof (scan_target_bounds _ Ht) as [Hb1 Hb2]. intros n p Hn. split.
  - apply (plan_steps_ok s) in Hn as [Hp _]; [exact Hp|]. split; [|done].
    unfold rescan_plan_bad. simpl.
    rewrite !N.eqb_refl, bool_decide_eq_true_2, String.eqb_refl, N.ltb_irrefl by done. simpl.
    apply N.ltb_ge. unfold saturating_add, u64_max in *. bool_inv. lia.
  - apply plan_steps_bounded in Hn. unfold plan_measure at 2 in Hn. simpl in Hn. lia.
Qed.

(** Activation is guarded and keeps inputs held: it succeeds only from the
    phase [Activating], then puts the provisional transactions and outputs in
    place, moves the cursor to the target and closes the plan, and no
    provisional output that a reservation retains as an input can be selected;
    a plan in any other phase is refused without touching the projection. *)
Theorem activated_rescan_is_safe s s' r (H : activate_rescan s = (s', r)) :
  match s.(ws_rescan_plan) with
  | None => s' = s /\ r = Err DErr.InvalidRescanPlan
  | Some plan =>
      s'.(ws_rescan_plan) = None
      /\ (plan.(rp_phase) <> Activating ->
            s' = s <| ws_rescan_plan := None |> /\ r = Err DErr.InvalidRescanPlan)
      /\ (r = Ok tt ->
            s'.(ws_transactions) = plan.(rp_provisional_transactions)
            /\ s'.(ws_cursor) = Some (ScanTarget_cursor plan.(rp_target))
            /\ outs_ext plan.(rp_provisional_outputs) s'.(ws_outputs)
            /\ (unique_commitments s'.(ws_outputs) -> forall a c o,
                  a ∈ s.(ws_scriptless_funding_reservations) ->
                  FundSt.retains_inputs a.(fr_state) = true ->
                  length a.(fr_reserved_output_ids) = length a.(fr_input_commitments) ->
                  c ∈ a.(fr_input_commitments) -> o ∈ s'.(ws_outputs) ->
                  o.(out_commitment) = Some c -> selectable o = false))
  end.
Proof.
  unfold activate_rescan in H. destruct (ws_rescan_plan s) as [plan|]; [|by injection H as <- <-].
  case_bool_decide as Hph; simpl in H.
  2:{ injection H as <- <-. done. }
  split; [|split; [done|]].
  - revert H. unfold mthen, massign.
    destruct (restore_scriptless_funding_reservations _) as [s1 [[]|e1]] eqn:E1;
      [destruct (restore_scriptless_payout_reservations _) as [s2 [[]|e2]] eqn:E2|];
      intros [= <- _]; try apply restore_payout_moves in E2; apply restore_funding_moves in E1;
      apply restoring_unrelated, (f_equal ws_rescan_plan) in E1; simpl in E1;
      try (apply restoring_unrelated, (f_equal ws_rescan_plan) in E2; simpl in E2); simpl; congruence.
  - intros ->. apply mthen_Ok in H as (s0 & [] & H0 & H). injection H0 as <-.
    apply mthen_Ok in H as (s1 & [] & H1 & H). apply mthen_Ok in H as (s2 & [] & H2 & H).
    injection H as <-.
    pose proof (restore_funding_moves _ _ _ H1) as M1. pose proof (restore_payout_moves _ _ _ H2) as M2.
    pose proof (f_equal ws_transactions (restoring_unrelated _ _ M1)) as T1.
    pose proof (f_equal ws_transactions (restoring_unrelated _ _ M2)) as T2. simpl in T1, T2.
    simpl. split; [congruence|]. split; [done|].
    split; [transitivity (ws_outputs s1); [apply M1|apply M2]|].
    intros Hu a c o Ha Hret Hlen Hc [i Hi]%list_elem_of_lookup Ho.
    apply (outs_ext_held c _ _ (restoring_outputs _ _ M2)) with (i := i); try done.
    apply (restore_funding_holds _ s1 a c H1); try done.
    eapply outs_ext_unique; [apply M2|done].
Qed.

(** ** Witnesses *)

Definition scanning_plan : RescanPlan :=
  (prepared_plan 61 sample_target tip_wallet) <| rp_phase := Scanning |>.
Definition scanned_plan : RescanPlan := (apply_pages [(0, 0, 40); (1, 41, 90)] scanning_plan).1.

Definition rescanning_wallet : WalletState := (prepare_rescan 61 sample_target tip_wallet).1.

Lemma rescans_stay_valid_and_end_witness :
  rescan_plan_bad rescanning_wallet (prepared_plan 61 sample_target tip_wallet) = false.
Proof.
  destruct (rescans_stay_valid_and_end 61 sample_target tip_wallet rescanning_wallet) as [_ H].
  - vm_compute. discriminate.
  - vm_compute. reflexivity.
  - apply (H 0%nat). constructor.
Defined.
