(* ===== verification/CoreTypes.v ===== *)
(** * Canonical scan types

    The data of crates/dom-wallet-core-sync/src/lib.rs, and the interfaces to
    the code it calls: the Core node ([WalletCoreApi]) and the Core codecs live
    in other repositories, so their functions are fields of classes. *)

From S2P Require Import Prelude DomainTypes Reservations.

(** ** Data shared with Core *)

Module CNet.
Inductive CoreNetwork := Mainnet | Testnet | Regtest.
#[global] Instance CoreNetwork_eq_dec : EqDecision CoreNetwork.
Proof. solve_decision. Defined.
End CNet.

(** [BlockRef] of Core and [CoreBlockReference] of the wallet have the same
    fields; [into()] copies them. *)
Record CoreBlockReference := mkBlockReference {
  br_height : N;
  br_hash : bytes;
}.
#[global] Instance CoreBlockReference_eq_dec : EqDecision CoreBlockReference.
Proof. solve_decision. Defined.

Record WalletScanCursor := mkWalletScanCursor {
  wsc_version : N;
  wsc_network_magic : N;
  wsc_chain_id : bytes;
  wsc_next_height : N;
  wsc_anchor_height : N;
  wsc_anchor_hash : bytes;
}.

Record ScanInput := mkScanInput { si_spent_commitment : bytes }.
#[global] Instance ScanInput_eq_dec : EqDecision ScanInput.
Proof. solve_decision. Defined.

Record ScanOutput := mkScanOutput {
  so_commitment : bytes;
  so_range_proof : bytes;
  so_recovery_capsule : bytes;
  so_recovery_version : N;
  so_is_coinbase : bool;
  so_block_height : N;
  so_block_hash : bytes;
  so_output_position : N;
}.
#[global] Instance ScanOutput_eq_dec : EqDecision ScanOutput.
Proof. solve_decision. Defined.

Record ScanKernel := mkScanKernel {
  sk_excess : bytes;
  sk_features : N;
  sk_fee : N;
  sk_lock_height : N;
  sk_excess_signature : bytes;
}.
#[global] Instance ScanKernel_eq_dec : EqDecision ScanKernel.
Proof. solve_decision. Defined.

Record TransactionLocation := mkTransactionLocation {
  tl_block_height : N;
  tl_block_hash : bytes;
  tl_transaction_index : N;
}.
#[global] Instance TransactionLocation_eq_dec : EqDecision TransactionLocation.
Proof. solve_decision. Defined.

Record ScanTransaction := mkScanTransaction {
  stx_location : TransactionLocation;
  stx_tx_hash : bytes;
  stx_canonical_bytes : bytes;
  stx_offset : bytes;
  stx_inputs : list ScanInput;
  stx_outputs : list ScanOutput;
  stx_kernels : list ScanKernel;
}.

Record CoinbaseScanMetadata := mkCoinbaseScanMetadata {
  csm_output_commitment : bytes;
  csm_explicit_value : N;
  csm_kernel_excess : bytes;
  csm_kernel_features : N;
  csm_kernel_excess_signature : bytes;
  csm_offset : bytes;
  csm_output_proof_envelope : bytes;
}.

Record ScanBlock := mkScanBlock {
  sbk_height : N;
  sbk_block_hash : bytes;
  sbk_previous_block_hash : bytes;
  sbk_canonical_header_bytes : bytes;
  sbk_timestamp : N;
  sbk_canonical_marker : bytes;
  sbk_outputs : list ScanOutput;
  sbk_inputs : list ScanInput;
  sbk_kernels : list ScanKernel;
  sbk_transactions : list ScanTransaction;
  sbk_coinbase : CoinbaseScanMetadata;
  sbk_total_fees_noms : N;
  sbk_protocol_version : N;
  sbk_range_proof_serialization_version : N;
}.

Record ScanResult := mkScanResult {
  sr_tip : CoreBlockReference;
  sr_blocks : list ScanBlock;
  sr_continuation : option WalletScanCursor;
}.

Record CursorValidation := mkCursorValidation {
  cv_valid : bool;
  cv_safe_rescan_anchor : CoreBlockReference;
}.

Record ChainIdentity := mkChainIdentity {
  ci_network : CNet.CoreNetwork;
  ci_network_magic : N;
  ci_chain_id : bytes;
  ci_genesis_hash : bytes;
  ci_protocol_version : N;
  ci_range_proof_serialization_version : N;
  ci_coinbase_maturity : N;
  ci_current_tip : CoreBlockReference;
}.

Record ScanRequest := mkScanRequest {
  srq_network : CNet.CoreNetwork;
  srq_chain_id : bytes;
  srq_start_height : N;
  srq_max_blocks : N;
}.

(** ** Data of the wallet *)

Record CoreChainIdentity := mkCoreChainIdentity {
  cci_network : CNet.CoreNetwork;
  cci_network_magic : N;
  cci_chain_id : bytes;
  cci_genesis_hash : bytes;
  cci_protocol_version : N;
  cci_range_proof_serialization_version : N;
  cci_coinbase_maturity : N;
  cci_current_tip : CoreBlockReference;
}.

Record CoreScanInput := mkCoreScanInput { csi_spent_commitment : bytes }.

Record CoreScanOutput := mkCoreScanOutput {
  cso_commitment : bytes;
  cso_range_proof : bytes;
  cso_recovery_capsule : bytes;
  cso_recovery_version : N;
  cso_is_coinbase : bool;
  cso_block_height : N;
  cso_block_hash : bytes;
  cso_output_position : N;
}.

Record CoreScanKernel := mkCoreScanKernel {
  csk_excess : bytes;
  csk_features : N;
  csk_fee : N;
  csk_lock_height : N;
  csk_excess_signature : bytes;
}.

Record CoreCoinbaseMetadata := mkCoreCoinbaseMetadata {
  ccm_output_commitment : bytes;
  ccm_explicit_value : N;
  ccm_kernel_excess : bytes;
  ccm_kernel_features : N;
  ccm_kernel_excess_signature : bytes;
  ccm_offset : bytes;
  ccm_output_proof_envelope : bytes;
}.

Definition coinbase_into (value : CoinbaseScanMetadata) : CoreCoinbaseMetadata :=
  mkCoreCoinbaseMetadata value.(csm_output_commitment) value.(csm_explicit_value)
    value.(csm_kernel_excess) value.(csm_kernel_features) value.(csm_kernel_excess_signature)
    value.(csm_offset) value.(csm_output_proof_envelope).

Record CoreScanBlock := mkCoreScanBlock {
  csb_height : N;
  csb_block_hash : bytes;
  csb_previous_block_hash : bytes;
  csb_canonical_header_bytes : bytes;
  csb_timestamp : N;
  csb_canonical_marker : bytes;
  csb_outputs : list CoreScanOutput;
  csb_inputs : list CoreScanInput;
  csb_kernels : list CoreScanKernel;
  csb_transactions : list ScanTransaction;
  csb_coinbase : CoreCoinbaseMetadata;
  csb_total_fees_noms : N;
  csb_protocol_version : N;
  csb_range_proof_serialization_version : N;
}.

(** [CoreCursorBytes] wraps its 86 bytes. *)
Record CoreCursorBytes := mkCoreCursorBytes { cursor_bytes : bytes }.
#[global] Instance CoreCursorBytes_eq_dec : EqDecision CoreCursorBytes.
Proof. solve_decision. Defined.

Inductive PersistedCoreCursorState :=
| Absent
| Valid (c : CoreCursorBytes)
| Invalid
| ReorgInvalidated (c : CoreCursorBytes).

Record CoreScanBatch := mkCoreScanBatch {
  cb_observed_tip : CoreBlockReference;
  cb_blocks : list CoreScanBlock;
  cb_commit_cursor : option CoreCursorBytes;
}.

Inductive CoreReconcileResult :=
| NoChanges
| Committed (cursor : CoreCursorBytes)
| ReorgCommitted (safe_anchor : CoreBlockReference) (cursor : CoreCursorBytes).

Inductive ScanCommitStage :=
| Rewind
| RecoveryBatch
| KernelEvidence
| ExpiryCleanup
| CursorEncode
| StorageCommit.

(** ** Errors *)

(** The variants of [WalletCoreError] that [from_core] tells apart, without
    their texts. *)
Module WErr.
Inductive WalletCoreError :=
| MalformedCursor
| CursorChainMismatch
| CursorReorg
| CanonicalGap
| InvalidScanRequest
| NodeNotReady
| TemporaryFailure
| InternalFailure
| SubmissionRejected.
End WErr.

Module SErr.
Inductive CoreScanError :=
| InvalidIdentity (code : string)
| IdentityMismatch (code : string)
| InvalidCursor (code : string)
| CursorIdentityMismatch
| ReorgDetected
| InvalidScan (code : string)
| InvalidScanLimit
| ReorgBeyondBound
| CoreNotReady
| CoreContract (code : string)
| Persistence (stage : ScanCommitStage).
End SErr.

Definition from_core (error : WErr.WalletCoreError) : SErr.CoreScanError :=
  match error with
  | WErr.MalformedCursor => SErr.InvalidCursor "MALFORMED_CURSOR"
  | WErr.CursorChainMismatch => SErr.CursorIdentityMismatch
  | WErr.CursorReorg => SErr.ReorgDetected
  | WErr.CanonicalGap => SErr.InvalidScan "CANONICAL_GAP"
  | WErr.InvalidScanRequest => SErr.InvalidScan "REQUEST_REJECTED"
  | WErr.NodeNotReady | WErr.TemporaryFailure => SErr.CoreNotReady
  | WErr.InternalFailure => SErr.CoreContract "CORE_INTERNAL_FAILURE"
  | WErr.SubmissionRejected => SErr.CoreContract "UNEXPECTED_SUBMISSION_FAILURE"
  end.

Definition lift_core {A} (r : result WErr.WalletCoreError A) : result SErr.CoreScanError A :=
  match r with Ok a => Ok a | Err e => Err (from_core e) end.

(** ** Interfaces to Core *)

(** Core transactions, as far as the projection check looks at them. *)
Record TransactionOutput := mkTransactionOutput { to_commitment : bytes; to_proof : bytes }.

Record Transaction := mkTransaction {
  txn_inputs : list bytes;
  txn_outputs : list TransactionOutput;
  txn_kernels : list ScanKernel;
  txn_offset : bytes;
}.

Record CoinbaseTransaction := mkCoinbaseTransaction {
  cbt_output : TransactionOutput;
  cbt_features : N;
  cbt_explicit_value : N;
  cbt_excess : bytes;
  cbt_excess_signature : bytes;
  cbt_offset : bytes;
}.

Record BlockHeader := mkBlockHeader {
  bh_height : N;
  bh_prev_hash : bytes;
  bh_timestamp : N;
  bh_version : N;
  bh_rest : bytes;
}.

Record Block := mkBlock {
  b_header : BlockHeader;
  b_coinbase : CoinbaseTransaction;
  b_transactions : list Transaction;
}.

(** The functions of dom-consensus, dom-crypto, dom-chain, dom-core and
    dom-wallet-core-api that the wallet calls.  [None] is an error whose text is
    dropped. *)
Class CoreCodec := {
  PROTOCOL_VERSION : N;
  RANGE_PROOF_SERIALIZATION_VERSION : N;
  RANGE_PROOF_SIZE : N;
  RECOVERY_VERSION : N;
  RECOVERY_CAPSULE_SIZE : N;
  WALLET_SCAN_CURSOR_VERSION : N;
  magic : CNet.CoreNetwork -> N;
  required_block_version_for_network : N -> N -> N;
  header_from_bytes : bytes -> option BlockHeader;
  header_to_bytes : BlockHeader -> option bytes;
  validate_header_syntax : BlockHeader -> N -> bool;
  canonical_header_identifier : N -> bytes -> option bytes;
  commitment_from_compressed_bytes : bytes -> option bytes;
  coinbase_to_bytes : CoinbaseTransaction -> option bytes;
  coinbase_from_bytes : bytes -> option CoinbaseTransaction;
  blake2b_256 : bytes -> bytes;
  transaction_from_bytes : bytes -> option Transaction;
  transaction_to_bytes : Transaction -> option bytes;
  range_proof_bytes : TransactionOutput -> option bytes;
  recovery_capsule : TransactionOutput -> option (option (N * bytes));
  total_fees : Block -> option N;
  validate_pmmr_roots : Block -> bool;
  cursor_new : CNet.CoreNetwork -> bytes -> N -> CoreBlockReference -> WalletScanCursor;
  cursor_to_bytes : WalletScanCursor -> bytes;
  cursor_from_bytes : bytes -> result WErr.WalletCoreError WalletScanCursor;
  cursor_validate_shape : WalletScanCursor -> result WErr.WalletCoreError unit;
}.

(** [WalletCoreApi]: the node is live, so every call may find, and leave, a
    different world. *)
Class WalletCoreApi (W : Type) := {
  api_chain_identity : method W WErr.WalletCoreError ChainIdentity;
  api_scan_range : ScanRequest -> method W WErr.WalletCoreError ScanResult;
  api_scan_next : WalletScanCursor -> N -> method W WErr.WalletCoreError ScanResult;
  api_validate_cursor : WalletScanCursor -> method W WErr.WalletCoreError CursorValidation;
  api_canonical_hash_at_height : N -> method W WErr.WalletCoreError (option bytes);
}.

(** [CoreScanTransactionSink] *)
Class CoreScanTransactionSink (K Error : Type) := {
  core_cursor_state : K -> result Error PersistedCoreCursorState;
  committed_canonical_hash : K -> N -> result Error (option bytes);
  commit_core_batch : CoreScanBatch -> CoreCursorBytes -> method K Error unit;
  commit_core_reorg : CoreBlockReference -> CoreScanBatch -> CoreCursorBytes ->
    method K Error unit;
  persistence_stage : Error -> ScanCommitStage;
  recover_generation_conflict : Error -> method K Error bool;
}.
