(* ===== verification/Projection.v ===== *)
(** * The full-fidelity block projection

    [validate_full_fidelity_projection], [scan_output_from_transaction_output]
    and [map_block] of crates/dom-wallet-core-sync/src/lib.rs, and
    [to_core_block] of crates/dom-wallet-core-restore/src/lib.rs. *)

From S2P Require Import Prelude DomainTypes WalletOps Reservations CoreTypes.

Definition invalid_scan (code : string) : SErr.CoreScanError := SErr.InvalidScan code.

Section projection.
Context {codec : CoreCodec}.

Definition scan_output_from_transaction_output (output : TransactionOutput) (is_coinbase : bool)
    (block_height : N) (block_hash : bytes) (output_position : N)
    : result SErr.CoreScanError ScanOutput :=
  let? range_proof := ok_or (range_proof_bytes output) (invalid_scan "OUTPUT_PROOF_ENVELOPE") in
  let? capsule := ok_or (recovery_capsule output) (invalid_scan "OUTPUT_RECOVERY_CAPSULE") in
  Ok (mkScanOutput output.(to_commitment) range_proof
        (from_option snd [] capsule) (from_option fst 0 capsule)
        is_coinbase block_height block_hash output_position).

(** The checks of the header against its bytes and the block's own fields. *)
Definition check_header (block : ScanBlock) (identity : CoreChainIdentity)
    : result SErr.CoreScanError BlockHeader :=
  let? header := ok_or (header_from_bytes block.(sbk_canonical_header_bytes))
                       (invalid_scan "HEADER_DECODE") in
  let? encoded := ok_or (header_to_bytes header) (invalid_scan "HEADER_ENCODE") in
  fail_if (negb (bool_decide (encoded = block.(sbk_canonical_header_bytes))))
          (invalid_scan "NONCANONICAL_HEADER_BYTES") ;?
  fail_if (negb (header.(bh_height) =? block.(sbk_height))
           || negb (bool_decide (header.(bh_prev_hash) = block.(sbk_previous_block_hash)))
           || negb (header.(bh_timestamp) =? block.(sbk_timestamp))
           || negb (header.(bh_version) =? block.(sbk_protocol_version)))
          (invalid_scan "HEADER_PROJECTION_MISMATCH") ;?
  fail_if (negb (validate_header_syntax header identity.(cci_network_magic)))
          (invalid_scan "HEADER_SYNTAX") ;?
  let? identifier := ok_or (canonical_header_identifier identity.(cci_network_magic)
                              block.(sbk_canonical_header_bytes))
                           (invalid_scan "HEADER_IDENTIFIER") in
  fail_if (negb (bool_decide (identifier = block.(sbk_block_hash))))
          (invalid_scan "HEADER_HASH_MISMATCH") ;?
  Ok header.

Definition rebuild_coinbase (metadata : CoinbaseScanMetadata)
    : result SErr.CoreScanError CoinbaseTransaction :=
  let? commitment := ok_or (commitment_from_compressed_bytes metadata.(csm_output_commitment))
                           (invalid_scan "COINBASE_COMMITMENT") in
  let? excess := ok_or (commitment_from_compressed_bytes metadata.(csm_kernel_excess))
                       (invalid_scan "COINBASE_EXCESS") in
  let coinbase := mkCoinbaseTransaction
    (mkTransactionOutput commitment metadata.(csm_output_proof_envelope))
    metadata.(csm_kernel_features) metadata.(csm_explicit_value) excess
    metadata.(csm_kernel_excess_signature) metadata.(csm_offset) in
  let? coinbase_bytes := ok_or (coinbase_to_bytes coinbase) (invalid_scan "COINBASE_ENCODE") in
  ok_or (coinbase_from_bytes coinbase_bytes) (invalid_scan "COINBASE_DECODE").

(** What the loop over the transactions accumulates. *)
Record expectation := mkExpectation {
  ex_transactions : list Transaction;
  ex_inputs : list ScanInput;
  ex_outputs : list ScanOutput;
  ex_kernels : list ScanKernel;
  ex_output_position : N;
}.

(** The loop over the outputs of one transaction: the position is a [u32]. *)
Definition expect_output (block : ScanBlock) (acc : list ScanOutput * N)
    (output : TransactionOutput) : result SErr.CoreScanError (list ScanOutput * N) :=
  let '(outputs, output_position) := acc in
  let? projected := scan_output_from_transaction_output output false block.(sbk_height)
                      block.(sbk_block_hash) output_position in
  let? next := ok_or (checked_add u32_max output_position 1)
                     (invalid_scan "OUTPUT_POSITION_OVERFLOW") in
  Ok (outputs ++ [projected], next).

Definition check_transaction (block : ScanBlock) (acc : expectation)
    (entry : nat * ScanTransaction) : result SErr.CoreScanError expectation :=
  let '(index, projected) := entry in
  fail_if (u32_max <? N.of_nat index) (invalid_scan "TRANSACTION_INDEX_OVERFLOW") ;?
  fail_if (negb (bool_decide (projected.(stx_location)
             = mkTransactionLocation block.(sbk_height) block.(sbk_block_hash) (N.of_nat index))))
          (invalid_scan "TRANSACTION_LOCATION") ;?
  fail_if (negb (bool_decide (blake2b_256 projected.(stx_canonical_bytes) = projected.(stx_tx_hash))))
          (invalid_scan "TRANSACTION_HASH") ;?
  let? transaction := ok_or (transaction_from_bytes projected.(stx_canonical_bytes))
                            (invalid_scan "TRANSACTION_DECODE") in
  let? encoded := ok_or (transaction_to_bytes transaction) (invalid_scan "TRANSACTION_ENCODE") in
  fail_if (negb (bool_decide (encoded = projected.(stx_canonical_bytes))))
          (invalid_scan "NONCANONICAL_TRANSACTION_BYTES") ;?
  fail_if (negb (bool_decide (transaction.(txn_offset) = projected.(stx_offset))))
          (invalid_scan "TRANSACTION_OFFSET") ;?
  let inputs := map mkScanInput transaction.(txn_inputs) in
  fail_if (negb (bool_decide (inputs = projected.(stx_inputs))))
          (invalid_scan "TRANSACTION_INPUT_PROJECTION") ;?
  let? outputs := foldM (expect_output block) transaction.(txn_outputs)
                        ([], acc.(ex_output_position)) in
  fail_if (negb (bool_decide (outputs.1 = projected.(stx_outputs))))
          (invalid_scan "TRANSACTION_OUTPUT_PROJECTION") ;?
  fail_if (negb (bool_decide (transaction.(txn_kernels) = projected.(stx_kernels))))
          (invalid_scan "TRANSACTION_KERNEL_PROJECTION") ;?
  Ok (mkExpectation (acc.(ex_transactions) ++ [transaction]) (acc.(ex_inputs) ++ inputs)
        (acc.(ex_outputs) ++ outputs.1) (acc.(ex_kernels) ++ transaction.(txn_kernels)) outputs.2).

(** What is expected before the first transaction: the coinbase. *)
Definition coinbase_expectation (block : ScanBlock) (coinbase : CoinbaseTransaction)
    : result SErr.CoreScanError expectation :=
  let? output := scan_output_from_transaction_output coinbase.(cbt_output) true block.(sbk_height)
                   block.(sbk_block_hash) 0 in
  Ok (mkExpectation [] [] [output]
        [mkScanKernel coinbase.(cbt_excess) coinbase.(cbt_features) 0 0
           coinbase.(cbt_excess_signature)] 1).

Definition validate_full_fidelity_projection (block : ScanBlock) (identity : CoreChainIdentity)
    : result SErr.CoreScanError unit :=
  let? header := check_header block identity in
  let? coinbase := rebuild_coinbase block.(sbk_coinbase) in
  let? start := coinbase_expectation block coinbase in
  let? expected := foldM (check_transaction block) (imap pair block.(sbk_transactions)) start in
  fail_if (negb (bool_decide (block.(sbk_inputs) = expected.(ex_inputs))))
          (invalid_scan "FLAT_INPUT_PROJECTION") ;?
  fail_if (negb (bool_decide (block.(sbk_outputs) = expected.(ex_outputs))))
          (invalid_scan "FLAT_OUTPUT_PROJECTION") ;?
  fail_if (negb (bool_decide (block.(sbk_kernels) = expected.(ex_kernels))))
          (invalid_scan "FLAT_KERNEL_PROJECTION") ;?
  let reconstructed := mkBlock header coinbase expected.(ex_transactions) in
  let? fees := ok_or (total_fees reconstructed) (invalid_scan "TOTAL_FEE_OVERFLOW") in
  fail_if (negb (fees =? block.(sbk_total_fees_noms))) (invalid_scan "TOTAL_FEE_PROJECTION") ;?
  fail_if (negb (validate_pmmr_roots reconstructed)) (invalid_scan "BLOCK_BODY_COMMITMENT").

(** [map_block]: one output *)
Definition map_output (block : ScanBlock) (output : ScanOutput)
    : result SErr.CoreScanError CoreScanOutput :=
  fail_if (negb (output.(so_block_height) =? block.(sbk_height))
           || negb (bool_decide (output.(so_block_hash) = block.(sbk_block_hash))))
          (invalid_scan "OUTPUT_BLOCK_CONTEXT") ;?
  fail_if (negb (len output.(so_range_proof) =? RANGE_PROOF_SIZE))
          (invalid_scan "RANGE_PROOF_LENGTH") ;?
  fail_if (negb (((output.(so_recovery_version) =? 0) && (len output.(so_recovery_capsule) =? 0))
                 || ((output.(so_recovery_version) =? RECOVERY_VERSION)
                     && (len output.(so_recovery_capsule) =? RECOVERY_CAPSULE_SIZE))))
          (invalid_scan "RECOVERY_CAPSULE_FORMAT") ;?
  Ok (mkCoreScanOutput output.(so_commitment) output.(so_range_proof)
        output.(so_recovery_capsule) output.(so_recovery_version) output.(so_is_coinbase)
        output.(so_block_height) output.(so_block_hash) output.(so_output_position)).

Definition map_kernel (kernel : ScanKernel) : CoreScanKernel :=
  mkCoreScanKernel kernel.(sk_excess) kernel.(sk_features) kernel.(sk_fee)
    kernel.(sk_lock_height) kernel.(sk_excess_signature).

(** [for x in xs { out.push(f(x)?) }] *)
Definition collectM {E A B} (f : A -> result E B) (xs : list A) : result E (list B) :=
  foldM (fun acc x => let? y := f x in Ok (acc ++ [y])) xs [].

Definition map_block (block : ScanBlock) (identity : CoreChainIdentity)
    : result SErr.CoreScanError CoreScanBlock :=
  fail_if (is_zero32 block.(sbk_block_hash)
           || negb (bool_decide (block.(sbk_canonical_marker) = block.(sbk_block_hash))))
          (invalid_scan "NONCANONICAL_BLOCK") ;?
  fail_if (negb (block.(sbk_protocol_version)
                 =? required_block_version_for_network identity.(cci_network_magic)
                      block.(sbk_height))) (invalid_scan "PROTOCOL_VERSION") ;?
  fail_if (negb (block.(sbk_range_proof_serialization_version)
                 =? identity.(cci_range_proof_serialization_version)))
          (invalid_scan "RANGE_PROOF_VERSION") ;?
  validate_full_fidelity_projection block identity ;?
  let? outputs := collectM (map_output block) block.(sbk_outputs) in
  Ok (mkCoreScanBlock block.(sbk_height) block.(sbk_block_hash) block.(sbk_previous_block_hash)
        block.(sbk_canonical_header_bytes) block.(sbk_timestamp) block.(sbk_canonical_marker)
        outputs (map (fun i => mkCoreScanInput i.(si_spent_commitment)) block.(sbk_inputs))
        (map map_kernel block.(sbk_kernels)) block.(sbk_transactions)
        (coinbase_into block.(sbk_coinbase)) block.(sbk_total_fees_noms)
        block.(sbk_protocol_version) block.(sbk_range_proof_serialization_version)).
End projection.

(** Back to the scanner's block, for the seed recovery. *)
Definition to_core_block (block : CoreScanBlock) : ScanBlock :=
  mkScanBlock block.(csb_height) block.(csb_block_hash) block.(csb_previous_block_hash)
    block.(csb_canonical_header_bytes) block.(csb_timestamp) block.(csb_canonical_marker)
    (map (fun o => mkScanOutput o.(cso_commitment) o.(cso_range_proof) o.(cso_recovery_capsule)
                     o.(cso_recovery_version) o.(cso_is_coinbase) o.(cso_block_height)
                     o.(cso_block_hash) o.(cso_output_position)) block.(csb_outputs))
    (map (fun i => mkScanInput i.(csi_spent_commitment)) block.(csb_inputs))
    (map (fun k => mkScanKernel k.(csk_excess) k.(csk_features) k.(csk_fee) k.(csk_lock_height)
                     k.(csk_excess_signature)) block.(csb_kernels))
    block.(csb_transactions)
    (let c := block.(csb_coinbase) in
     mkCoinbaseScanMetadata c.(ccm_output_commitment) c.(ccm_explicit_value)
       c.(ccm_kernel_excess) c.(ccm_kernel_features) c.(ccm_kernel_excess_signature)
       c.(ccm_offset) c.(ccm_output_proof_envelope))
    block.(csb_total_fees_noms) block.(csb_protocol_version)
    block.(csb_range_proof_serialization_version).

(** ** Lemmas *)

Section lemmas.
Context {codec : CoreCodec}.

Lemma collectM_Ok {E A B} (f : A -> result E B) xs ys :
  collectM f xs = Ok ys -> Forall2 (fun x y => f x = Ok y) xs ys.
Proof.
  unfold collectM. apply (foldM_inv (fun pre acc => Forall2 (fun x y => f x = Ok y) pre acc)).
  - constructor.
  - intros pre x acc acc' Hp (y & Hy & [= <-])%rbind_Ok. apply Forall2_app; [done|].
    by constructor.
Qed.

(** A scanned transaction and the Core transaction its bytes encode. *)
Definition encodes (projected : ScanTransaction) (transaction : Transaction) : Prop :=
  blake2b_256 projected.(stx_canonical_bytes) = projected.(stx_tx_hash)
  /\ transaction_from_bytes projected.(stx_canonical_bytes) = Some transaction
  /\ transaction_to_bytes transaction = Some projected.(stx_canonical_bytes)
  /\ transaction.(txn_offset) = projected.(stx_offset).

(** Outputs carry the block's context and their place in it; the first one is
    the coinbase. *)
Definition positioned (block : ScanBlock) (outputs : list ScanOutput) : Prop :=
  forall i o, outputs !! i = Some o ->
  o.(so_output_position) = N.of_nat i /\ o.(so_is_coinbase) = bool_decide (i = 0%nat)
  /\ o.(so_block_height) = block.(sbk_height) /\ o.(so_block_hash) = block.(sbk_block_hash).

Lemma positioned_snoc block l o :
  positioned block l -> l <> [] -> o.(so_output_position) = len l -> o.(so_is_coinbase) = false ->
  o.(so_block_height) = block.(sbk_height) -> o.(so_block_hash) = block.(sbk_block_hash) ->
  positioned block (l ++ [o]).
Proof.
  intros H Hl Hp Hc Hh Hb i o' [Hi|[-> <-]]%lookup_snoc_Some; [by apply H, Hi|].
  repeat split; try done. rewrite Hc, bool_decide_eq_false_2; [done|]. by destruct l.
Qed.

Lemma scan_output_Ok output c h b p o :
  scan_output_from_transaction_output output c h b p = Ok o ->
  o.(so_commitment) = output.(to_commitment) /\ o.(so_is_coinbase) = c
  /\ o.(so_block_height) = h /\ o.(so_block_hash) = b /\ o.(so_output_position) = p.
Proof.
  unfold scan_output_from_transaction_output. intros (rp & _ & H)%rbind_Ok.
  apply rbind_Ok in H as (cap & _ & [= <-]). done.
Qed.

Lemma expect_outputs_Ok block outs base l :
  positioned block base -> base <> [] ->
  foldM (expect_output block) outs ([], len base) = Ok l ->
  positioned block (base ++ l.1) /\ l.2 = len (base ++ l.1)
  /\ map so_commitment l.1 = map to_commitment outs.
Proof.
  intros Hb Hne. apply (foldM_inv (fun pre (l : list ScanOutput * N) =>
    positioned block (base ++ l.1) /\ l.2 = len (base ++ l.1)
    /\ map so_commitment l.1 = map to_commitment pre)).
  - simpl. by rewrite app_nil_r.
  - intros pre o [l1 p1] l' (H1 & H2 & H3) H. simpl in H1, H2, H3. unfold expect_output in H.
    apply rbind_Ok in H as (so & Hs & H). apply scan_output_Ok in Hs as (E1 & E2 & E3 & E4 & E5).
    apply rbind_Ok in H as (next & Hn & [= <-]). apply ok_or_Ok, checked_add_Some in Hn as [-> _].
    simpl. rewrite app_assoc. split; [|split].
    + apply positioned_snoc; try done; [by destruct base|congruence].
    + rewrite H2. unfold len. rewrite !length_app. simpl. lia.
    + rewrite !map_app, H3. simpl. by rewrite E1.
Qed.

(** What the transactions of a block put into its flat lists. *)
Record derived (block : ScanBlock) (cb : CoinbaseTransaction) (projected : list ScanTransaction)
    (ex : expectation) : Prop := mkDerived {
  derived_encodes : Forall2 encodes projected ex.(ex_transactions);
  derived_inputs : ex.(ex_inputs) = concat (map (fun t => map mkScanInput t.(txn_inputs))
                                                ex.(ex_transactions));
  derived_positions : positioned block ex.(ex_outputs);
  derived_commitments : map so_commitment ex.(ex_outputs)
    = cb.(cbt_output).(to_commitment)
      :: concat (map (fun t => map to_commitment t.(txn_outputs)) ex.(ex_transactions));
  derived_kernels : ex.(ex_kernels)
    = mkScanKernel cb.(cbt_excess) cb.(cbt_features) 0 0 cb.(cbt_excess_signature)
      :: concat (map txn_kernels ex.(ex_transactions));
  derived_position : ex.(ex_output_position) = len ex.(ex_outputs);
}.

Lemma coinbase_derived block cb ex :
  coinbase_expectation block cb = Ok ex -> derived block cb [] ex.
Proof.
  intros (o & Ho & [= <-])%rbind_Ok. apply scan_output_Ok in Ho as (E1 & E2 & E3 & E4 & E5).
  split; simpl; try done; [|by rewrite E1].
  intros [|i] o' Hi; [injection Hi as <-; done|done].
Qed.

Lemma check_transaction_derived block cb pre ex entry ex' :
  derived block cb pre ex -> check_transaction block ex entry = Ok ex' ->
  derived block cb (pre ++ [entry.2]) ex'.
Proof.
  intros [D1 D2 D3 D4 D5 D6]. destruct entry as [index projected]. unfold check_transaction.
  rewrite !then_Ok, !fail_if_Ok. intros (_ & _ & Hhash & H). bool_inv.
  apply rbind_Ok in H as (t & Ht & H). apply ok_or_Ok in Ht.
  apply rbind_Ok in H as (enc & He & H). apply ok_or_Ok in He.
  rewrite !then_Ok, !fail_if_Ok in H. destruct H as (Henc & Hoff & _ & H). bool_inv. subst enc.
  apply rbind_Ok in H as (l & Hl & H). rewrite !then_Ok, !fail_if_Ok in H.
  destruct H as (_ & _ & [= <-]). rewrite D6 in Hl.
  apply expect_outputs_Ok in Hl as (L1 & L2 & L3); [|done|].
  2:{ intros E. rewrite E in D4. discriminate D4. }
  split; simpl.
  - apply Forall2_app; [done|]. by constructor.
  - rewrite D2, map_app, concat_app. simpl. by rewrite app_nil_r.
  - done.
  - rewrite !map_app, concat_app, D4, L3. simpl. by rewrite app_nil_r.
  - rewrite D5, map_app, concat_app. simpl. by rewrite app_nil_r.
  - done.
Qed.

Lemma imap_pair_snd {A} (l : list A) : map snd (imap pair l) = l.
Proof.
  assert (H : forall f : nat -> nat, map snd (imap (fun i x => (f i, x)) l) = l).
  { induction l as [|x l IH]; intros f; simpl; [done|]. f_equal. apply (IH (fun i => f (S i))). }
  exact (H (fun i => i)).
Qed.

Lemma check_transactions_derived block cb entries start ex :
  derived block cb [] start -> foldM (check_transaction block) entries start = Ok ex ->
  derived block cb (map snd entries) ex.
Proof.
  intros Hs. apply (foldM_inv (fun pre ex => derived block cb (map snd pre) ex)); [done|].
  intros pre x a1 a2 Hd H. rewrite map_app. by eapply check_transaction_derived.
Qed.

Lemma projection_derived block identity u :
  validate_full_fidelity_projection block identity = Ok u ->
  exists header cb ex,
    header_from_bytes block.(sbk_canonical_header_bytes) = Some header
    /\ header.(bh_height) = block.(sbk_height)
    /\ header.(bh_prev_hash) = block.(sbk_previous_block_hash)
    /\ canonical_header_identifier identity.(cci_network_magic) block.(sbk_canonical_header_bytes)
       = Some block.(sbk_block_hash)
    /\ derived block cb block.(sbk_transactions) ex
    /\ block.(sbk_inputs) = ex.(ex_inputs) /\ block.(sbk_outputs) = ex.(ex_outputs)
    /\ block.(sbk_kernels) = ex.(ex_kernels)
    /\ total_fees (mkBlock header cb ex.(ex_transactions)) = Some block.(sbk_total_fees_noms)
    /\ validate_pmmr_roots (mkBlock header cb ex.(ex_transactions)) = true.
Proof.
  unfold validate_full_fidelity_projection. intros (header & Hh & H)%rbind_Ok.
  apply rbind_Ok in H as (cb & _ & H). apply rbind_Ok in H as (start & Hs & H).
  apply rbind_Ok in H as (ex & Hex & H). rewrite !then_Ok, !fail_if_Ok in H.
  destruct H as (Hi & Ho & Hk & H). apply rbind_Ok in H as (fees & Hf & H). apply ok_or_Ok in Hf.
  rewrite then_Ok, !fail_if_Ok in H. destruct H as [Hfees Hp]. bool_inv. subst fees.
  unfold check_header in Hh. apply rbind_Ok in Hh as (hd & Hd & Hh). apply ok_or_Ok in Hd.
  apply rbind_Ok in Hh as (enc & _ & Hh). rewrite !then_Ok, !fail_if_Ok in Hh.
  destruct Hh as (_ & Hproj & _ & Hh). apply rbind_Ok in Hh as (idn & Hid & Hh).
  apply ok_or_Ok in Hid. rewrite then_Ok, fail_if_Ok in Hh. destruct Hh as [Hidn [= <-]]. bool_inv.
  subst idn. exists hd, cb, ex. do 4 (split; [done|]). split; [|done].
  rewrite <-(imap_pair_snd (sbk_transactions block)).
  eapply check_transactions_derived; [by apply coinbase_derived|done].
Qed.

Lemma map_output_copy block o o' :
  map_output block o = Ok o' ->
  mkScanOutput o'.(cso_commitment) o'.(cso_range_proof) o'.(cso_recovery_capsule)
    o'.(cso_recovery_version) o'.(cso_is_coinbase) o'.(cso_block_height) o'.(cso_block_hash)
    o'.(cso_output_position) = o
  /\ o'.(cso_block_height) = block.(sbk_height) /\ o'.(cso_block_hash) = block.(sbk_block_hash).
Proof.
  unfold map_output. rewrite !then_Ok, !fail_if_Ok. intros (H & _ & _ & [= <-]). bool_inv.
  split; [by destruct o|done].
Qed.
End lemmas.

(** ** Properties *)

(** A mapped block is the scanned one, and the scanned one follows from its
    committed bytes: mapping copies every field, so the seed recovery reads back
    exactly the block that was checked; the block hash is the identifier of the
    header bytes; and the flat inputs, outputs and kernels are those of the
    coinbase and of the transactions that the canonical bytes encode, in block
    order and with consecutive output positions, under the header's commitment
    to the body. *)
Theorem mapped_block_is_derived `{codec : CoreCodec} block identity b
    (H : map_block block identity = Ok b) :
  to_core_block b = block
  /\ block.(sbk_canonical_marker) = block.(sbk_block_hash)
  /\ block.(sbk_block_hash) <> zeros 32
  /\ (forall o, o ∈ b.(csb_outputs) ->
        o.(cso_block_height) = block.(sbk_height) /\ o.(cso_block_hash) = block.(sbk_block_hash))
  /\ exists header cb ex,
    header_from_bytes block.(sbk_canonical_header_bytes) = Some header
    /\ header.(bh_height) = block.(sbk_height)
    /\ header.(bh_prev_hash) = block.(sbk_previous_block_hash)
    /\ canonical_header_identifier identity.(cci_network_magic) block.(sbk_canonical_header_bytes)
       = Some block.(sbk_block_hash)
    /\ derived block cb block.(sbk_transactions) ex
    /\ block.(sbk_inputs) = ex.(ex_inputs) /\ block.(sbk_outputs) = ex.(ex_outputs)
    /\ block.(sbk_kernels) = ex.(ex_kernels)
    /\ total_fees (mkBlock header cb ex.(ex_transactions)) = Some block.(sbk_total_fees_noms)
    /\ validate_pmmr_roots (mkBlock header cb ex.(ex_transactions)) = true.
Proof.
  unfold map_block in H. rewrite !then_Ok, !fail_if_Ok in H. destruct H as (H1 & _ & _ & Hp & H).
  apply rbind_Ok in H as (outs & Ho & [= <-]). apply collectM_Ok in Ho.
  unfold is_zero32 in H1. bool_inv.
  split; [|split; [done|split; [done|split]]].
  - destruct block as [h bh ph hd ts mk outs0 ins ks txs cb fees pv rv]. unfold to_core_block. simpl in *.
    f_equal.
    + clear -Ho. induction Ho as [|o o' l l' Hm _ IH]; simpl; [done|].
      apply map_output_copy in Hm as [<- _]. by rewrite IH.
    + rewrite map_map. apply map_id_on. by intros [].
    + rewrite map_map. apply map_id_on. by intros [].
    + by destruct cb.
  - simpl. intros o Hin. apply list_elem_of_lookup in Hin as [i Hi].
    destruct (Forall2_lookup_r _ _ _ _ _ Ho Hi) as (o0 & _ & Hm).
    by apply map_output_copy in Hm as [_ ?].
  - by eapply projection_derived.
Qed.

(** ** Witnesses *)

(** A codec for small samples: headers and transactions decode to fixed values,
    cursors are their binary code. *)
Fixpoint pos_bits (p : positive) : bytes :=
  match p with
  | xH => []
  | xO p => Byte.x00 :: pos_bits p
  | xI p => Byte.x01 :: pos_bits p
  end.
Fixpoint bits_pos (b : bytes) : positive :=
  match b with
  | [] => xH
  | Byte.x00 :: b => xO (bits_pos b)
  | _ :: b => xI (bits_pos b)
  end.
Lemma bits_pos_bits p : bits_pos (pos_bits p) = p.
Proof. induction p as [p IH|p IH|]; simpl; by rewrite ?IH. Qed.

Definition cursor_tuple (c : WalletScanCursor) : N * N * list N * N * N * list N :=
  (c.(wsc_version), c.(wsc_network_magic), map Byte.to_N c.(wsc_chain_id), c.(wsc_next_height),
   c.(wsc_anchor_height), map Byte.to_N c.(wsc_anchor_hash)).
Definition byte_of (n : N) : Byte.byte := from_option id Byte.x00 (Byte.of_N n).
Definition tuple_cursor (t : N * N * list N * N * N * list N) : WalletScanCursor :=
  let '(v, m, c, n, a, h) := t in
  mkWalletScanCursor v m (map byte_of c) n a (map byte_of h).
Lemma tuple_cursor_tuple c : tuple_cursor (cursor_tuple c) = c.
Proof.
  assert (H : forall l, map byte_of (map Byte.to_N l) = l).
  { intros l. rewrite map_map. apply map_id_on. intros b _. unfold byte_of. by rewrite Byte.of_to_N. }
  destruct c. unfold tuple_cursor, cursor_tuple. simpl. by rewrite !H.
Qed.

Definition sample_header : BlockHeader := mkBlockHeader 1 (sample_bytes 32 Byte.x60) 1000 2 [].
#[global] Instance sample_codec : CoreCodec := {|
  PROTOCOL_VERSION := 2;
  RANGE_PROOF_SERIALIZATION_VERSION := 1;
  RANGE_PROOF_SIZE := 3;
  RECOVERY_VERSION := 1;
  RECOVERY_CAPSULE_SIZE := 4;
  WALLET_SCAN_CURSOR_VERSION := 1;
  magic := fun n => match n with CNet.Mainnet => 1 | CNet.Testnet => 2 | CNet.Regtest => 3 end;
  required_block_version_for_network := fun _ _ => 2;
  header_from_bytes := fun _ => Some sample_header;
  header_to_bytes := fun _ => Some [Byte.x01];
  validate_header_syntax := fun _ _ => true;
  canonical_header_identifier := fun _ _ => Some (sample_bytes 32 Byte.x61);
  commitment_from_compressed_bytes := fun b => Some b;
  coinbase_to_bytes := fun c => Some c.(cbt_output).(to_commitment);
  coinbase_from_bytes := fun b =>
    Some (mkCoinbaseTransaction (mkTransactionOutput b (sample_bytes 3 Byte.x62)) 1 50
            (sample_bytes 33 Byte.x63) (sample_bytes 65 Byte.x64) (zeros 32));
  blake2b_256 := fun _ => sample_bytes 32 Byte.x65;
  transaction_from_bytes := fun b => Some (mkTransaction [b] [] [] (zeros 32));
  transaction_to_bytes := fun t => Some (concat t.(txn_inputs));
  range_proof_bytes := fun o => Some o.(to_proof);
  recovery_capsule := fun _ => Some None;
  total_fees := fun _ => Some 0;
  validate_pmmr_roots := fun _ => true;
  cursor_new := fun n c next anchor =>
    mkWalletScanCursor 1 (match n with CNet.Mainnet => 1 | CNet.Testnet => 2 | CNet.Regtest => 3 end)
      c next anchor.(br_height) anchor.(br_hash);
  cursor_to_bytes := fun c => pos_bits (encode (cursor_tuple c));
  cursor_from_bytes := fun b => match decode (bits_pos b) with
                                | Some t => Ok (tuple_cursor t)
                                | None => Err WErr.MalformedCursor
                                end;
  cursor_validate_shape := fun _ => Ok tt;
|}.

Definition sample_core_identity : CoreChainIdentity :=
  mkCoreChainIdentity CNet.Regtest 3 (sample_bytes 32 Byte.x01) (sample_bytes 32 Byte.x02) 2 1 10
    (mkBlockReference 1 (sample_bytes 32 Byte.x61)).

(** A block with one transaction, which spends one output. *)
Definition sample_block : ScanBlock :=
  let coinbase_output := mkScanOutput (sample_bytes 33 Byte.x66) (sample_bytes 3 Byte.x62) [] 0 true
                           1 (sample_bytes 32 Byte.x61) 0 in
  mkScanBlock 1 (sample_bytes 32 Byte.x61) (sample_bytes 32 Byte.x60) [Byte.x01] 1000
    (sample_bytes 32 Byte.x61) [coinbase_output] [mkScanInput (sample_bytes 33 Byte.x67)]
    [mkScanKernel (sample_bytes 33 Byte.x63) 1 0 0 (sample_bytes 65 Byte.x64)]
    [mkScanTransaction (mkTransactionLocation 1 (sample_bytes 32 Byte.x61) 0)
       (sample_bytes 32 Byte.x65) (sample_bytes 33 Byte.x67) (zeros 32)
       [mkScanInput (sample_bytes 33 Byte.x67)] [] []]
    (mkCoinbaseScanMetadata (sample_bytes 33 Byte.x66) 50 (sample_bytes 33 Byte.x63) 1
       (sample_bytes 65 Byte.x64) (zeros 32) (sample_bytes 3 Byte.x62)) 0 2 1.
