(* ===== verification/CoreSync.v ===== *)
(** * The canonical scan adapter

    [CoreChainAdapter] of crates/dom-wallet-core-sync/src/lib.rs: identities,
    cursors, scan pages, reorganisations and the bounded commit retry.  The node
    is a [WalletCoreApi] over a world that every call may change; the durable
    state is a [CoreScanTransactionSink]. *)

From S2P Require Import Prelude DomainTypes WalletOps Reservations CoreTypes Projection.

Definition MAX_CORE_SCAN_BATCH_BLOCKS : N := 1024.
Definition GENERATION_CONFLICT_MAX_ATTEMPTS : nat := 5.

(** [CoreChainAdapter], whose [api] is the world the methods run in. *)
Record CoreChainAdapter := mkCoreChainAdapter {
  ad_identity : CoreChainIdentity;
  ad_maximum_batch_blocks : N;
  ad_maximum_reorg_depth : N;
}.

Definition validate_scan_limit (limit : N) : result SErr.CoreScanError unit :=
  fail_if ((limit =? 0) || (MAX_CORE_SCAN_BATCH_BLOCKS <? limit)) SErr.InvalidScanLimit.

Definition validate_same_chain (expected actual : CoreChainIdentity)
    : result SErr.CoreScanError unit :=
  fail_if (negb (bool_decide (expected.(cci_network) = actual.(cci_network))))
          (SErr.IdentityMismatch "NETWORK") ;?
  fail_if (negb (expected.(cci_network_magic) =? actual.(cci_network_magic)))
          (SErr.IdentityMismatch "NETWORK_MAGIC") ;?
  fail_if (negb (bool_decide (expected.(cci_chain_id) = actual.(cci_chain_id))))
          (SErr.IdentityMismatch "CHAIN_ID") ;?
  fail_if (negb (bool_decide (expected.(cci_genesis_hash) = actual.(cci_genesis_hash))))
          (SErr.IdentityMismatch "GENESIS_HASH") ;?
  fail_if (negb (expected.(cci_protocol_version) =? actual.(cci_protocol_version)))
          (SErr.IdentityMismatch "PROTOCOL_VERSION") ;?
  fail_if (negb (expected.(cci_range_proof_serialization_version)
                 =? actual.(cci_range_proof_serialization_version)))
          (SErr.IdentityMismatch "RANGE_PROOF_VERSION") ;?
  fail_if (negb (expected.(cci_coinbase_maturity) =? actual.(cci_coinbase_maturity)))
          (SErr.IdentityMismatch "COINBASE_MATURITY").

(** The last two conditions of [find_safe_anchor]'s loop body. *)
Definition anchor_agrees (local core : option bytes) : option bytes :=
  match local, core with
  | Some local_hash, Some core_hash =>
      if bool_decide (local_hash = core_hash) && negb (is_zero32 core_hash) then Some core_hash
      else None
  | _, _ => None
  end.

(** The heights of [(lowest..invalid_height).rev()], [n] of them. *)
Fixpoint heights_down (top : N) (n : nat) : list N :=
  match n with
  | O => []
  | S n => (top - 1) :: heights_down (top - 1) n
  end.

Section adapter.
Context {codec : CoreCodec} {W : Type} {api : WalletCoreApi W}.

Definition validate_cursor_identity (cursor : WalletScanCursor) (identity : CoreChainIdentity)
    : result SErr.CoreScanError unit :=
  fail_if (negb (cursor.(wsc_version) =? WALLET_SCAN_CURSOR_VERSION))
          (SErr.InvalidCursor "UNSUPPORTED_VERSION") ;?
  fail_if (negb (cursor.(wsc_network_magic) =? identity.(cci_network_magic))
           || negb (bool_decide (cursor.(wsc_chain_id) = identity.(cci_chain_id))))
          SErr.CursorIdentityMismatch ;?
  fail_if (is_zero32 cursor.(wsc_anchor_hash)) (SErr.InvalidCursor "ZERO_ANCHOR_HASH").

Definition CoreCursorBytes_parse (b : bytes) (identity : CoreChainIdentity)
    : result SErr.CoreScanError CoreCursorBytes :=
  let? cursor := lift_core (cursor_from_bytes b) in
  validate_cursor_identity cursor identity ;?
  Ok (mkCoreCursorBytes (cursor_to_bytes cursor)).

Definition CoreCursorBytes_from_cursor (cursor : WalletScanCursor) (identity : CoreChainIdentity)
    : result SErr.CoreScanError CoreCursorBytes :=
  lift_core (cursor_validate_shape cursor) ;?
  validate_cursor_identity cursor identity ;?
  Ok (mkCoreCursorBytes (cursor_to_bytes cursor)).

Definition cursor_decode (c : CoreCursorBytes) : result SErr.CoreScanError WalletScanCursor :=
  lift_core (cursor_from_bytes c.(cursor_bytes)).

Definition map_identity (identity : ChainIdentity) : result SErr.CoreScanError CoreChainIdentity :=
  fail_if (negb (magic identity.(ci_network) =? identity.(ci_network_magic)))
          (SErr.InvalidIdentity "NETWORK_MAGIC_MISMATCH") ;?
  fail_if (is_zero32 identity.(ci_chain_id)) (SErr.InvalidIdentity "ZERO_CHAIN_ID") ;?
  fail_if (is_zero32 identity.(ci_genesis_hash)
           && negb (bool_decide (identity.(ci_network) = CNet.Regtest)))
          (SErr.InvalidIdentity "ZERO_GENESIS_HASH") ;?
  fail_if (negb (identity.(ci_protocol_version) =? PROTOCOL_VERSION))
          (SErr.InvalidIdentity "UNSUPPORTED_PROTOCOL_VERSION") ;?
  fail_if (negb (identity.(ci_range_proof_serialization_version)
                 =? RANGE_PROOF_SERIALIZATION_VERSION))
          (SErr.InvalidIdentity "UNSUPPORTED_RANGE_PROOF_VERSION") ;?
  fail_if (is_zero32 identity.(ci_current_tip).(br_hash)) (SErr.InvalidIdentity "ZERO_TIP_HASH") ;?
  Ok (mkCoreChainIdentity identity.(ci_network) identity.(ci_network_magic) identity.(ci_chain_id)
        identity.(ci_genesis_hash) identity.(ci_protocol_version)
        identity.(ci_range_proof_serialization_version) identity.(ci_coinbase_maturity)
        identity.(ci_current_tip)).

Definition validate_cursor_result (cursor : WalletScanCursor) (validation : CursorValidation)
    : result SErr.CoreScanError CoreBlockReference :=
  fail_if (negb validation.(cv_valid)
           || negb (validation.(cv_safe_rescan_anchor).(br_height) =? cursor.(wsc_anchor_height))
           || negb (bool_decide (validation.(cv_safe_rescan_anchor).(br_hash)
                                 = cursor.(wsc_anchor_hash)))) SErr.ReorgDetected ;?
  Ok validation.(cv_safe_rescan_anchor).

(** A call of the node, with its error translated. *)
Definition call {A} (m : method W WErr.WalletCoreError A) : method W SErr.CoreScanError A :=
  fun w => let '(w, r) := m w in (w, lift_core r).

(** A pure fallible step. *)
Definition pure {S A} (r : result SErr.CoreScanError A) : method S SErr.CoreScanError A :=
  fun s => (s, r).

Definition connect (persisted_identity : option CoreChainIdentity)
    (maximum_batch_blocks maximum_reorg_depth : N)
    : method W SErr.CoreScanError CoreChainAdapter :=
  pure (validate_scan_limit maximum_batch_blocks) ;;;
  let! reported := call api_chain_identity in
  let! identity := pure (map_identity reported) in
  pure (match persisted_identity with
        | Some expected => validate_same_chain expected identity
        | None => Ok tt
        end) ;;;
  mret (mkCoreChainAdapter identity maximum_batch_blocks maximum_reorg_depth).

Context (self : CoreChainAdapter).

Definition current_identity : method W SErr.CoreScanError CoreChainIdentity :=
  let! reported := call api_chain_identity in
  let! current := pure (map_identity reported) in
  pure (validate_same_chain self.(ad_identity) current) ;;;
  mret current.

Definition current_tip : method W SErr.CoreScanError CoreBlockReference :=
  let! identity := current_identity in mret identity.(cci_current_tip).

Definition check_limit (limit : N) : result SErr.CoreScanError unit :=
  validate_scan_limit limit ;?
  fail_if (self.(ad_maximum_batch_blocks) <? limit) SErr.InvalidScanLimit.

Definition canonical_hash_at_height (height : N) : method W SErr.CoreScanError (option bytes) :=
  call (api_canonical_hash_at_height height).

Definition validate_cursor (c : CoreCursorBytes) : method W SErr.CoreScanError CoreBlockReference :=
  let! cursor := pure (cursor_decode c) in
  pure (validate_cursor_identity cursor self.(ad_identity)) ;;;
  let! validation := call (api_validate_cursor cursor) in
  pure (validate_cursor_result cursor validation).

(** The hash the first block of a page must name as its predecessor. *)
Definition expected_previous (expected_start : N) (previous_anchor : option CoreBlockReference)
    : method W SErr.CoreScanError bytes :=
  if expected_start =? 0 then mret (zeros 32)
  else match previous_anchor with
  | Some anchor =>
      pure (fail_if (negb (bool_decide (checked_add u64_max anchor.(br_height) 1
                                        = Some expected_start))) (invalid_scan "START_ANCHOR_GAP")) ;;;
      mret anchor.(br_hash)
  | None =>
      let! hash := canonical_hash_at_height (expected_start - 1) in
      pure (ok_or hash (invalid_scan "MISSING_PREVIOUS_HASH"))
  end.

(** One turn of the loop over the blocks of a page. *)
Definition map_next_block (identity : CoreChainIdentity) (acc : list CoreScanBlock * N * bytes)
    (block : ScanBlock) : result SErr.CoreScanError (list CoreScanBlock * N * bytes) :=
  let '(mapped, next_height, previous_hash) := acc in
  fail_if (negb (block.(sbk_height) =? next_height)) (invalid_scan "NONCONTIGUOUS_HEIGHT") ;?
  fail_if (negb (bool_decide (block.(sbk_previous_block_hash) = previous_hash)))
          (invalid_scan "PREVIOUS_HASH_MISMATCH") ;?
  let? mapped_block := map_block block identity in
  let? next := ok_or (checked_add u64_max next_height 1) (invalid_scan "HEIGHT_OVERFLOW") in
  Ok (mapped ++ [mapped_block], next, mapped_block.(csb_block_hash)).

(** The cursor that a page with blocks commits. *)
Definition page_cursor (result : ScanResult) (last_ : CoreScanBlock) (identity : CoreChainIdentity)
    : method W SErr.CoreScanError CoreCursorBytes :=
  let! cursor := pure
    (match result.(sr_continuation) with
     | Some cursor =>
         fail_if (result.(sr_tip).(br_height) <=? last_.(csb_height)) (invalid_scan "CURSOR_PAST_TIP") ;?
         Ok cursor
     | None =>
         fail_if (last_.(csb_height) <? result.(sr_tip).(br_height))
                 (invalid_scan "MISSING_CONTINUATION") ;?
         let? next := ok_or (checked_add u64_max last_.(csb_height) 1)
                            (invalid_scan "HEIGHT_OVERFLOW") in
         Ok (cursor_new identity.(cci_network) identity.(cci_chain_id) next
               (mkBlockReference last_.(csb_height) last_.(csb_block_hash)))
     end) in
  pure (fail_if (negb (cursor.(wsc_next_height) =? saturating_add u64_max last_.(csb_height) 1)
                 || negb (cursor.(wsc_anchor_height) =? last_.(csb_height))
                 || negb (bool_decide (cursor.(wsc_anchor_hash) = last_.(csb_block_hash))))
                (invalid_scan "CONTINUATION_REGRESSION")) ;;;
  let! encoded := pure (CoreCursorBytes_from_cursor cursor identity) in
  let! _ := validate_cursor encoded in
  mret encoded.

(** The cursor that a page without blocks commits, if any. *)
Definition empty_page_cursor (result : ScanResult) (expected_start : N)
    (identity : CoreChainIdentity) : method W SErr.CoreScanError (option CoreCursorBytes) :=
  pure (fail_if (is_some result.(sr_continuation)) (invalid_scan "CURSOR_WITHOUT_BLOCKS")) ;;;
  if (expected_start =? 0) && (result.(sr_tip).(br_height) =? 0) then
    let cursor := cursor_new identity.(cci_network) identity.(cci_chain_id) 1
                    (mkBlockReference 0 result.(sr_tip).(br_hash)) in
    let! encoded := pure (CoreCursorBytes_from_cursor cursor identity) in
    let! _ := validate_cursor encoded in
    mret (Some encoded)
  else mret None.

Definition validate_and_map (result : ScanResult) (expected_start : N)
    (previous_anchor : option CoreBlockReference) (identity : CoreChainIdentity)
    : method W SErr.CoreScanError CoreScanBatch :=
  pure (fail_if (self.(ad_maximum_batch_blocks) <? len result.(sr_blocks))
                (invalid_scan "BATCH_TOO_LARGE")) ;;;
  pure (fail_if (is_zero32 result.(sr_tip).(br_hash)) (invalid_scan "ZERO_TIP_HASH")) ;;;
  let! canonical_tip := canonical_hash_at_height result.(sr_tip).(br_height) in
  pure (fail_if (negb (bool_decide (canonical_tip = Some result.(sr_tip).(br_hash))))
                (invalid_scan "TIP_HASH_DISAGREEMENT")) ;;;
  let! previous := expected_previous expected_start previous_anchor in
  let! state := pure (foldM (map_next_block identity) result.(sr_blocks)
                        ([], expected_start, previous)) in
  let mapped := state.1.1 in
  let! commit_cursor :=
    match last mapped with
    | None => empty_page_cursor result expected_start identity
    | Some last_ => let! c := page_cursor result last_ identity in mret (Some c)
    end in
  mret (mkCoreScanBatch result.(sr_tip) mapped commit_cursor).

Definition scan_from_height (start_height limit : N) : method W SErr.CoreScanError CoreScanBatch :=
  pure (check_limit limit) ;;;
  let! identity := current_identity in
  let! result := call (api_scan_range (mkScanRequest identity.(cci_network)
                         identity.(cci_chain_id) start_height limit)) in
  validate_and_map result start_height None identity.

Definition scan_next (c : CoreCursorBytes) (limit : N) : method W SErr.CoreScanError CoreScanBatch :=
  pure (check_limit limit) ;;;
  let! identity := current_identity in
  let! cursor := pure (cursor_decode c) in
  pure (validate_cursor_identity cursor identity) ;;;
  let! _ := validate_cursor c in
  let! result := call (api_scan_next cursor limit) in
  validate_and_map result cursor.(wsc_next_height)
    (Some (mkBlockReference cursor.(wsc_anchor_height) cursor.(wsc_anchor_hash))) identity.
End adapter.

(** ** Reconciliation *)

Section reconcile.
Context {codec : CoreCodec} {W : Type} {api : WalletCoreApi W}.
Context {K Error : Type} {sink : CoreScanTransactionSink K Error}.
Context (self : CoreChainAdapter).

(** A step of the node, and a read of the sink. *)
Definition on_api {A} (m : method W SErr.CoreScanError A)
    : method (W * K) SErr.CoreScanError A :=
  fun s => let '(w, r) := m s.1 in ((w, s.2), r).
Definition read_sink {A} (stage : ScanCommitStage) (f : K -> result Error A)
    : method (W * K) SErr.CoreScanError A :=
  fun s => (s, map_err (f s.2) (SErr.Persistence stage)).

(** [for attempt in 1..=5]: [n] attempts are left. *)
Fixpoint commit_attempts (n : nat) (commit : method K Error unit) : method K SErr.CoreScanError unit :=
  fun k =>
  match n with
  | O => (k, Ok tt)
  | S n =>
      match commit k with
      | (k, Ok _) => (k, Ok tt)
      | (k, Err error) =>
          match recover_generation_conflict error k with
          | (k, Err reload_error) => (k, Err (SErr.Persistence (persistence_stage reload_error)))
          | (k, Ok recovered) =>
              if negb recovered || bool_decide (n = 0%nat)
              then (k, Err (SErr.Persistence (persistence_stage error)))
              else commit_attempts n commit k
          end
      end
  end.

Definition commit_with_generation_retry (commit : method K Error unit)
    : method (W * K) SErr.CoreScanError unit :=
  fun s => let '(k, r) := commit_attempts GENERATION_CONFLICT_MAX_ATTEMPTS commit s.2 in
           ((s.1, k), r).

Definition commit_normal (batch : CoreScanBatch)
    : method (W * K) SErr.CoreScanError CoreReconcileResult :=
  match batch.(cb_commit_cursor) with
  | None => mret NoChanges
  | Some cursor =>
      commit_with_generation_retry (commit_core_batch batch cursor) ;;;
      mret (Committed cursor)
  end.

Fixpoint find_anchor (heights : list N)
    : method (W * K) SErr.CoreScanError CoreBlockReference :=
  match heights with
  | [] => pure (Err SErr.ReorgBeyondBound)
  | height :: heights =>
      let! local := read_sink Rewind (fun k => committed_canonical_hash k height) in
      let! core := on_api (canonical_hash_at_height height) in
      match anchor_agrees local core with
      | Some hash => mret (mkBlockReference height hash)
      | None => find_anchor heights
      end
  end.

Definition find_safe_anchor (invalid_height : N)
    : method (W * K) SErr.CoreScanError CoreBlockReference :=
  let lowest := saturating_sub invalid_height self.(ad_maximum_reorg_depth) in
  find_anchor (heights_down invalid_height (N.to_nat (invalid_height - lowest))).

Definition reconcile_reorg (invalid_cursor : CoreCursorBytes)
    : method (W * K) SErr.CoreScanError CoreReconcileResult :=
  let! cursor := pure (cursor_decode invalid_cursor) in
  let! safe_anchor := find_safe_anchor cursor.(wsc_anchor_height) in
  let! start_height := pure (ok_or (checked_add u64_max safe_anchor.(br_height) 1)
                                   (SErr.InvalidCursor "ANCHOR_HEIGHT_OVERFLOW")) in
  let! batch := on_api (scan_from_height self start_height self.(ad_maximum_batch_blocks)) in
  let! replacement :=
    match batch.(cb_commit_cursor) with
    | Some replacement => mret replacement
    | None =>
        if bool_decide (batch.(cb_observed_tip) = safe_anchor) then
          let cursor := cursor_new self.(ad_identity).(cci_network) self.(ad_identity).(cci_chain_id)
                          start_height safe_anchor in
          let! replacement := pure (CoreCursorBytes_from_cursor cursor self.(ad_identity)) in
          let! _ := on_api (validate_cursor self replacement) in
          mret replacement
        else pure (Err (invalid_scan "REORG_REPLACEMENT_EMPTY"))
    end in
  commit_with_generation_retry (commit_core_reorg safe_anchor batch replacement) ;;;
  mret (ReorgCommitted safe_anchor replacement).

Definition reconcile_once : method (W * K) SErr.CoreScanError CoreReconcileResult :=
  let! state := read_sink CursorEncode core_cursor_state in
  match state with
  | Absent =>
      let! batch := on_api (scan_from_height self 0 self.(ad_maximum_batch_blocks)) in
      commit_normal batch
  | Valid cursor => fun s =>
      match on_api (validate_cursor self cursor) s with
      | (s, Ok _) =>
          (let! batch := on_api (scan_next self cursor self.(ad_maximum_batch_blocks)) in
           commit_normal batch) s
      | (s, Err SErr.ReorgDetected) => reconcile_reorg cursor s
      | (s, Err error) => (s, Err error)
      end
  | ReorgInvalidated cursor => reconcile_reorg cursor
  | Invalid => pure (Err (SErr.InvalidCursor "PERSISTED_CURSOR_INVALID"))
  end.

(** The first page of a wallet without a cursor starts above genesis. *)
Definition bootstrap_batch : method (W * K) SErr.CoreScanError CoreScanBatch :=
  let! identity := on_api (current_identity self) in
  let! hash := on_api (canonical_hash_at_height 0) in
  let! genesis_hash := pure (ok_or hash (invalid_scan "MISSING_CANONICAL_GENESIS")) in
  pure (fail_if (bool_decide (identity.(cci_network) = CNet.Mainnet)
                 && negb (bool_decide (genesis_hash = identity.(cci_genesis_hash))))
                (invalid_scan "GENESIS_HASH_DISAGREEMENT")) ;;;
  if identity.(cci_current_tip).(br_height) =? 0 then
    pure (fail_if (negb (bool_decide (genesis_hash = identity.(cci_current_tip).(br_hash))))
                  (invalid_scan "TIP_GENESIS_DISAGREEMENT")) ;;;
    let cursor := cursor_new identity.(cci_network) identity.(cci_chain_id) 1
                    (mkBlockReference 0 identity.(cci_current_tip).(br_hash)) in
    let! cursor := pure (CoreCursorBytes_from_cursor cursor identity) in
    let! _ := on_api (validate_cursor self cursor) in
    mret (mkCoreScanBatch identity.(cci_current_tip) [] (Some cursor))
  else on_api (scan_from_height self 1 self.(ad_maximum_batch_blocks)).

Definition reconcile_wallet_once : method (W * K) SErr.CoreScanError CoreReconcileResult :=
  let! state := read_sink CursorEncode core_cursor_state in
  match state with
  | Absent => let! batch := bootstrap_batch in commit_normal batch
  | _ => reconcile_once
  end.

(** The body of [reconcile_to_tip]'s loop: [Some result] ends it. *)
Definition tip_step : method (W * K) SErr.CoreScanError (option CoreReconcileResult) :=
  let! result := reconcile_wallet_once in
  let! state := read_sink CursorEncode core_cursor_state in
  let! cursor := pure
    (match state with
     | Valid cursor => Ok cursor
     | Absent => Err (invalid_scan "SCAN_STALLED_WITHOUT_CURSOR")
     | Invalid => Err (SErr.InvalidCursor "PERSISTED_CURSOR_INVALID")
     | ReorgInvalidated _ => Err SErr.ReorgDetected
     end) in
  let! anchor := on_api (validate_cursor self cursor) in
  let! tip := on_api (current_tip self) in
  if bool_decide (anchor = tip) then mret (Some result)
  else match result with
  | NoChanges => pure (Err (invalid_scan "SCAN_STALLED_BEFORE_TARGET"))
  | _ => mret None
  end.

(** [reconcile_to_tip] follows a chain that may grow for ever, so the loop has
    fuel; [None] is fuel running out. *)
Fixpoint reconcile_to_tip (fuel : nat)
    : method (W * K) SErr.CoreScanError (option CoreReconcileResult) :=
  match fuel with
  | O => mret None
  | S fuel =>
      let! done := tip_step in
      match done with
      | Some result => mret (Some result)
      | None => reconcile_to_tip fuel
      end
  end.
End reconcile.

(** ** Lemmas *)

Lemma pure_Ok {S A} (r : result SErr.CoreScanError A) (s s' : S) a :
  pure r s = (s', Ok a) <-> s' = s /\ r = Ok a.
Proof. unfold pure. split; [by intros [= -> ->]|by intros [-> ->]]. Qed.

Lemma pure_then {S A B} (r : result SErr.CoreScanError A) (k : A -> method S SErr.CoreScanError B)
    s s' b :
  mthen (pure r) k s = (s', Ok b) <-> exists a, r = Ok a /\ k a s = (s', Ok b).
Proof.
  unfold mthen, pure. destruct r as [a|e]; split; [eauto|by intros (? & [= ->] & ?)|done|].
  by intros (? & ? & _).
Qed.

Lemma lift_core_Ok {A} (r : result WErr.WalletCoreError A) a : lift_core r = Ok a <-> r = Ok a.
Proof. destruct r; simpl; split; congruence. Qed.

(** Blocks of consecutive heights from [start], each naming its predecessor. *)
Fixpoint chained (start : N) (previous : bytes) (blocks : list CoreScanBlock) : Prop :=
  match blocks with
  | [] => True
  | b :: blocks =>
      b.(csb_height) = start /\ b.(csb_previous_block_hash) = previous
      /\ chained (start + 1) b.(csb_block_hash) blocks
  end.

(** The hash at the end of such a chain. *)
Definition chain_end (previous : bytes) (blocks : list CoreScanBlock) : bytes :=
  match last blocks with Some b => b.(csb_block_hash) | None => previous end.

Lemma chain_end_snoc previous blocks b : chain_end previous (blocks ++ [b]) = b.(csb_block_hash).
Proof. unfold chain_end. by rewrite last_snoc. Qed.

Lemma chained_snoc start previous blocks b :
  chained start previous blocks -> b.(csb_height) = start + len blocks ->
  b.(csb_previous_block_hash) = chain_end previous blocks -> chained start previous (blocks ++ [b]).
Proof.
  revert start previous. induction blocks as [|x blocks IH]; intros start previous; simpl.
  - intros _ H1 H2. split; [|done]. unfold len in H1. simpl in H1. lia.
  - intros (H1 & H2 & H3) Hh Hp. split; [done|]. split; [done|]. apply IH; [done| |].
    + unfold len in *. simpl length in Hh. lia.
    + rewrite Hp. unfold chain_end. destruct blocks as [|y blocks]; [done|].
      rewrite last_cons_cons. destruct (last (y :: blocks)) eqn:El; [done|].
      by apply last_None in El.
Qed.

Lemma chained_last start previous blocks b :
  chained start previous blocks -> last blocks = Some b ->
  b.(csb_height) + 1 = start + len blocks.
Proof.
  revert start previous. induction blocks as [|x blocks IH]; intros start previous; simpl; [done|].
  intros (H1 & H2 & H3) Hl. destruct blocks as [|y blocks].
  - injection Hl as <-. unfold len. simpl. lia.
  - rewrite last_cons_cons in Hl. specialize (IH _ _ H3 Hl). unfold len in *. simpl length in *. lia.
Qed.

Section adapter_lemmas.
Context {codec : CoreCodec} {W : Type} {api : WalletCoreApi W}.
Context (self : CoreChainAdapter).

Lemma map_block_header block identity b :
  map_block block identity = Ok b ->
  b.(csb_height) = block.(sbk_height)
  /\ b.(csb_previous_block_hash) = block.(sbk_previous_block_hash)
  /\ b.(csb_block_hash) = block.(sbk_block_hash).
Proof.
  unfold map_block. rewrite !then_Ok. intros (_ & _ & _ & _ & H).
  by apply rbind_Ok in H as (outs & _ & [= <-]).
Qed.

Lemma map_blocks_Ok identity blocks start previous mapped next hash :
  foldM (map_next_block identity) blocks ([], start, previous) = Ok (mapped, next, hash) ->
  Forall2 (fun s b => map_block s identity = Ok b) blocks mapped
  /\ chained start previous mapped /\ next = start + len blocks
  /\ hash = chain_end previous mapped /\ (blocks <> [] -> next <= u64_max).
Proof.
  intros H. cut (let acc := (mapped, next, hash) in
    Forall2 (fun s b => map_block s identity = Ok b) blocks acc.1.1
    /\ chained start previous acc.1.1 /\ acc.1.2 = start + len blocks
    /\ acc.2 = chain_end previous acc.1.1 /\ (blocks <> [] -> acc.1.2 <= u64_max)); [done|].
  cbv zeta. revert H. generalize (mapped, next, hash). intros acc.
  apply (foldM_inv (fun pre (acc : list CoreScanBlock * N * bytes) =>
    Forall2 (fun s b => map_block s identity = Ok b) pre acc.1.1
    /\ chained start previous acc.1.1 /\ acc.1.2 = start + len pre
    /\ acc.2 = chain_end previous acc.1.1 /\ (pre <> [] -> acc.1.2 <= u64_max))).
  - simpl. split; [constructor|]. split; [done|]. split; [unfold len; simpl; lia|]. by split.
  - intros pre x [[m n] p] acc' (H1 & H2 & H3 & H4 & _) H. simpl in *. unfold map_next_block in H.
    rewrite !then_Ok, !fail_if_Ok in H. destruct H as (Hh & Hp & H). bool_inv.
    apply rbind_Ok in H as (b & Hb & H). apply rbind_Ok in H as (nx & Hn & [= <-]).
    apply ok_or_Ok, checked_add_Some in Hn as [-> Hmax].
    pose proof (map_block_header _ _ _ Hb) as (E1 & E2 & E3). simpl.
    assert (El : len m = len pre) by (unfold len; by rewrite (Forall2_length _ _ _ H1)).
    split; [|split; [|split; [|split]]].
    + apply Forall2_app; [done|]. by constructor.
    + apply chained_snoc; try done; congruence.
    + unfold len. rewrite length_app. simpl. unfold len in H3. lia.
    + by rewrite chain_end_snoc.
    + done.
Qed.

(** A cursor at the last block of a page, bound to the chain. *)
Definition cursor_at (identity : CoreChainIdentity) (b : CoreScanBlock) (c : WalletScanCursor)
    : Prop :=
  c.(wsc_anchor_height) = b.(csb_height) /\ c.(wsc_anchor_hash) = b.(csb_block_hash)
  /\ c.(wsc_next_height) = saturating_add u64_max b.(csb_height) 1
  /\ c.(wsc_network_magic) = identity.(cci_network_magic)
  /\ c.(wsc_chain_id) = identity.(cci_chain_id).

(** A cursor as it is committed: its shape and chain were checked, its encoding was
    read back and the node took it for valid. *)
Definition encodes (identity : CoreChainIdentity) (c : WalletScanCursor) (enc : CoreCursorBytes) : Prop :=
  enc = mkCoreCursorBytes (cursor_to_bytes c) /\ cursor_validate_shape c = Ok tt
  /\ validate_cursor_identity c identity = Ok tt
  /\ exists back validation w w', cursor_decode enc = Ok back
       /\ validate_cursor_identity back self.(ad_identity) = Ok tt
       /\ api_validate_cursor back w = (w', Ok validation)
       /\ is_ok (validate_cursor_result back validation) = true.

Lemma validate_cursor_Ok enc (w w' : W) a :
  validate_cursor self enc w = (w', Ok a) ->
  exists back validation w1 w2, cursor_decode enc = Ok back
    /\ validate_cursor_identity back self.(ad_identity) = Ok tt
    /\ api_validate_cursor back w1 = (w2, Ok validation)
    /\ is_ok (validate_cursor_result back validation) = true.
Proof.
  unfold validate_cursor. intros (back & Hb & H)%pure_then. apply pure_then in H as ([] & Hi & H).
  apply mthen_Ok in H as (w1 & validation & Hv & H). apply pure_Ok in H as [_ H].
  unfold call in Hv. destruct (api_validate_cursor back w) as [w2 r] eqn:E. injection Hv as -> Hr.
  apply lift_core_Ok in Hr as ->. exists back, validation, w, w1. rewrite H. done.
Qed.
Lemma from_cursor_Ok c identity enc (w w' : W) a :
  CoreCursorBytes_from_cursor c identity = Ok enc -> validate_cursor self enc w = (w', Ok a) -> encodes identity c enc.
Proof.
  unfold CoreCursorBytes_from_cursor. rewrite !then_Ok. intros (Hs & Hi & [= <-]) Hv%validate_cursor_Ok.
  split; [done|]. split; [by apply lift_core_Ok in Hs|done].
Qed.

Lemma page_cursor_Ok result b identity w w' enc :
  page_cursor self result b identity w = (w', Ok enc) ->
  exists c, encodes identity c enc /\ cursor_at identity b c
  /\ (is_some result.(sr_continuation) = true <-> b.(csb_height) < result.(sr_tip).(br_height)).
Proof.
  unfold page_cursor. intros (c & Hc & H)%pure_then. apply pure_then in H as (? & Hg & H).
  apply fail_if_Ok in Hg. apply pure_then in H as (e & He & H).
  apply mthen_Ok in H as (w1 & a & Hv & H). injection H as _ <-.
  pose proof (from_cursor_Ok _ _ _ _ _ _ He Hv) as Henc. pose proof Henc as (_ & _ & Hid & _).
  unfold validate_cursor_identity in Hid. rewrite !then_Ok, !fail_if_Ok in Hid.
  destruct Hid as (_ & Hid & _). exists c. split; [done|]. clear Henc. bool_inv.
  split; [by repeat split|].
  destruct (sr_continuation result) as [c'|]; simpl.
  - rewrite then_Ok, fail_if_Ok in Hc. destruct Hc as [Hc _]. bool_inv. by split.
  - rewrite then_Ok, fail_if_Ok in Hc. destruct Hc as [Hc _]. bool_inv. split; [done|lia].
Qed.

Lemma expected_previous_Ok start anchor w w' previous :
  expected_previous start anchor w = (w', Ok previous) ->
  (start = 0 -> previous = zeros 32)
  /\ (forall a, anchor = Some a -> start <> 0 -> a.(br_height) + 1 = start /\ previous = a.(br_hash))
  /\ (anchor = None -> start <> 0 ->
      exists w1 w2, canonical_hash_at_height (start - 1) w1 = (w2, Ok (Some previous))).
Proof.
  unfold expected_previous. destruct (start =? 0) eqn:E; bool_inv.
  - intros [= _ <-]. by repeat split.
  - destruct anchor as [a|].
    + intros (u & Hu & H)%pure_then. injection H as _ <-. apply fail_if_Ok in Hu. bool_inv.
      apply checked_add_Some in Hu as [Hu _]. split; [done|]. split; [|done]. intros a' [= <-] _. done.
    + intros (w1 & hash & Hh & H)%mthen_Ok. apply pure_Ok in H as [_ ->%ok_or_Ok].
      split; [done|]. split; [done|]. intros _ _. by exists w, w1.
Qed.

(** What [validate_and_map] accepts. *)
Record page_ok (result : ScanResult) (start : N) (previous : bytes) (identity : CoreChainIdentity)
    (batch : CoreScanBatch) : Prop := mkPageOk {
  page_size : len batch.(cb_blocks) <= self.(ad_maximum_batch_blocks);
  page_tip : batch.(cb_observed_tip) = result.(sr_tip) /\ result.(sr_tip).(br_hash) <> zeros 32;
  page_blocks : Forall2 (fun s b => map_block s identity = Ok b) result.(sr_blocks) batch.(cb_blocks);
  page_chained : chained start previous batch.(cb_blocks);
  page_max : batch.(cb_blocks) <> [] -> start + len batch.(cb_blocks) <= u64_max;
  page_commit :
    match last batch.(cb_blocks) with
    | Some b => exists c enc, batch.(cb_commit_cursor) = Some enc /\ encodes identity c enc
        /\ cursor_at identity b c
        /\ (is_some result.(sr_continuation) = true <-> b.(csb_height) < result.(sr_tip).(br_height))
    | None => start <> 0 -> batch.(cb_commit_cursor) = None
    end;
}.

Lemma validate_and_map_Ok result start anchor identity w w' batch :
  validate_and_map self result start anchor identity w = (w', Ok batch) ->
  exists previous, page_ok result start previous identity batch
  /\ (start = 0 -> previous = zeros 32)
  /\ (forall a, anchor = Some a -> start <> 0 -> a.(br_height) + 1 = start /\ previous = a.(br_hash))
  /\ (anchor = None -> start <> 0 ->
      exists w1 w2, canonical_hash_at_height (start - 1) w1 = (w2, Ok (Some previous))).
Proof.
  unfold validate_and_map. intros (? & Hsize & H)%pure_then. apply fail_if_Ok in Hsize.
  apply pure_then in H as (? & Htip & H). apply fail_if_Ok in Htip.
  apply mthen_Ok in H as (w1 & tip & _ & H). apply pure_then in H as (? & _ & H).
  apply mthen_Ok in H as (w2 & previous & Hprev & H). apply expected_previous_Ok in Hprev.
  apply pure_then in H as ([[mapped next] hash] & Hm & H). apply map_blocks_Ok in Hm.
  destruct Hm as (M1 & M2 & M3 & M4 & M5). simpl in H.
  apply mthen_Ok in H as (w3 & cur & Hcur & H). injection H as _ <-.
  pose proof (Forall2_length _ _ _ M1) as Hlen.
  exists previous. split; [|exact Hprev]. unfold is_zero32 in Htip. bool_inv.
  split; simpl; try done.
  - unfold len in *. lia.
  - intros Hne. unfold len in *. rewrite <-Hlen, <-M3. apply M5. intros E. rewrite E in Hlen.
    by destruct mapped.
  - destruct (last mapped) as [b|].
    + apply mthen_Ok in Hcur as (w4 & c & Hc & E). injection E as _ <-.
      apply page_cursor_Ok in Hc as (c' & H0 & H1 & H2). by exists c', c.
    + intros Hs. unfold empty_page_cursor in Hcur. apply pure_then in Hcur as (? & _ & Hcur).
      rewrite (proj2 (N.eqb_neq _ _) Hs) in Hcur. simpl in Hcur. by injection Hcur as _ <-.
Qed.
End adapter_lemmas.

Section reconcile_lemmas.
Context {codec : CoreCodec} {W : Type} {api : WalletCoreApi W}.
Context {K Error : Type} {sink : CoreScanTransactionSink K Error}.
Context (self : CoreChainAdapter).

Lemma on_api_inv {A} (m : method W SErr.CoreScanError A) (s s' : W * K) r :
  on_api m s = (s', r) -> s'.2 = s.2 /\ m s.1 = (s'.1, r).
Proof. unfold on_api. destruct (m s.1) as [w r']. intros [= <- <-]. done. Qed.

(** [j] commits failed on a conflict that the sink recovered from. *)
Inductive retried (commit : method K Error unit) : nat -> K -> K -> Prop :=
| retried_none k : retried commit 0 k k
| retried_more j k k1 k2 k3 e :
    commit k = (k1, Err e) -> recover_generation_conflict e k1 = (k2, Ok true) ->
    retried commit j k2 k3 -> retried commit (S j) k k3.

Lemma commit_attempts_Ok n commit k k' :
  n <> 0%nat ->
  commit_attempts n commit k = (k', Ok tt) <->
  exists j k1, (j < n)%nat /\ retried commit j k k1 /\ commit k1 = (k', Ok tt).
Proof.
  revert k. induction n as [|n IH]; intros k Hn; [done|]. simpl.
  destruct (commit k) as [k1 [[]|e]] eqn:Ec.
  - split.
    + intros [= <-]. exists 0%nat, k. split; [lia|]. split; [constructor|done].
    + intros (j & k2 & _ & Hr & H). destruct Hr as [k2|? ? ? ? ? ? E]; congruence.
  - destruct (recover_generation_conflict e k1) as [k2 [rec|e2]] eqn:Er.
    + destruct rec; simpl.
      * case_bool_decide as Hz.
        -- split; [done|]. intros (j & k3 & Hj & Hr & H). destruct Hr as [k3|j k k1' k2' k3 e' E1 E2 Hr]; [congruence|lia].
        -- rewrite IH by done. split.
           ++ intros (j & k3 & Hj & Hr & H). exists (S j), k3. split; [lia|].
              split; [by econstructor|done].
           ++ intros (j & k3 & Hj & Hr & H). destruct Hr as [k3|j k k1' k2' k3 e' E1 E2 Hr]; [congruence|].
              exists j, k3. split; [lia|]. split; [|done].
              rewrite Ec in E1. injection E1 as <- <-. rewrite Er in E2. by injection E2 as <-.
      * split; [done|]. intros (j & k3 & Hj & Hr & H).
        destruct Hr as [k3|j k k1' k2' k3 e' E1 E2 Hr]; [congruence|].
        rewrite Ec in E1. injection E1 as <- <-. congruence.
    + split; [done|]. intros (j & k3 & Hj & Hr & H).
      destruct Hr as [k3|j k k1' k2' k3 e' E1 E2 Hr]; [congruence|].
      rewrite Ec in E1. injection E1 as <- <-. congruence.
Qed.

Lemma commit_attempts_Err n commit k k' e :
  commit_attempts n commit k = (k', Err e) -> exists stage, e = SErr.Persistence stage.
Proof.
  revert k. induction n as [|n IH]; intros k; simpl; [done|].
  destruct (commit k) as [k1 [[]|e1]]; [done|].
  destruct (recover_generation_conflict e1 k1) as [k2 [rec|e2]].
  - destruct (_ || _); [intros [= _ <-]; eauto|apply IH].
  - intros [= _ <-]. eauto.
Qed.

Lemma commit_normal_Ok batch (s s' : W * K) r :
  commit_normal batch s = (s', Ok r) ->
  match batch.(cb_commit_cursor) with
  | None => s' = s /\ r = NoChanges
  | Some c => r = Committed c /\ s'.1 = s.1
      /\ commit_attempts GENERATION_CONFLICT_MAX_ATTEMPTS (commit_core_batch batch c) s.2
         = (s'.2, Ok tt)
  end.
Proof.
  unfold commit_normal. destruct (cb_commit_cursor batch) as [c|].
  - intros (s1 & [] & H1 & H2)%mthen_Ok. injection H2 as <- <-.
    unfold commit_with_generation_retry in H1. destruct (commit_attempts _ _ _) as [k1 r1].
    by injection H1 as <- ->.
  - by intros [= <- <-].
Qed.

(** The heights [find_safe_anchor] tries. *)
Lemma heights_down_elem top n h :
  N.of_nat n <= top -> h ∈ heights_down top n <-> top - N.of_nat n <= h < top.
Proof.
  revert top. induction n as [|n IH]; intros top Hn; simpl.
  - split; [by intros ?%not_elem_of_nil|lia].
  - rewrite elem_of_cons, IH by lia. lia.
Qed.

(** The search stops at the first height that agrees. *)
Lemma find_anchor_spec (w : W) (k : K) (local core : N -> option bytes) hs :
  (forall h, h ∈ hs -> committed_canonical_hash k h = Ok (local h)) ->
  (forall h, h ∈ hs -> api_canonical_hash_at_height h w = (w, Ok (core h))) ->
  (find_anchor hs (w, k) = ((w, k), Err SErr.ReorgBeyondBound)
   /\ forall h, h ∈ hs -> anchor_agrees (local h) (core h) = None)
  \/ exists pre h post hash, hs = pre ++ h :: post
     /\ find_anchor hs (w, k) = ((w, k), Ok (mkBlockReference h hash))
     /\ anchor_agrees (local h) (core h) = Some hash
     /\ forall h', h' ∈ pre -> anchor_agrees (local h') (core h') = None.
Proof.
  induction hs as [|h hs IH]; intros Hl Hc.
  - left. split; [done|]. intros h Hh. by apply not_elem_of_nil in Hh.
  - assert (Hf : find_anchor (h :: hs) (w, k)
        = match anchor_agrees (local h) (core h) with
          | Some hash => ((w, k), Ok (mkBlockReference h hash))
          | None => find_anchor hs (w, k)
          end).
    { cbn [find_anchor]. unfold mthen, read_sink, on_api, canonical_hash_at_height, call. simpl.
      rewrite (Hl h) by (left; done). simpl. rewrite (Hc h) by (left; done). simpl.
      by destruct (anchor_agrees _ _). }
    rewrite Hf. clear Hf.
    destruct (anchor_agrees (local h) (core h)) as [hash|] eqn:Ea.
    + right. exists [], h, hs, hash. split; [done|]. split; [done|]. split; [exact Ea|].
      intros h' Hh. by apply not_elem_of_nil in Hh.
    + destruct IH as [[H1 H2]|(pre & h1 & post & hash & H1 & H2 & H3 & H4)];
        [intros; apply Hl; by right|intros; apply Hc; by right| |].
      * left. split; [done|]. intros h' [->|Hh]%elem_of_cons; auto.
      * right. exists (h :: pre), h1, post, hash. split; [by rewrite H1|]. split; [done|].
        split; [done|]. intros h' [->|Hh]%elem_of_cons; auto.
Qed.

Lemma heights_down_split top n pre h post :
  heights_down top n = pre ++ h :: post -> N.of_nat n <= top ->
  (forall h', h < h' < top -> h' ∈ pre).
Proof.
  revert top pre. induction n as [|n IH]; intros top pre H Hn h' Hh'; simpl in H.
  - by destruct pre.
  - destruct pre as [|p pre]; simpl in H; injection H as <- H.
    + lia.
    + destruct (decide (h' = top - 1)) as [->|Hne]; [left|right].
      apply (IH (top - 1)); [done|lia|lia].
Qed.
End reconcile_lemmas.

(** ** Properties *)

(** Accepted pages are chained: every block is one that the node returned
    and the projection check accepted, heights are consecutive from the
    requested start, every block names its predecessor by hash, the first one
    the given anchor (or zero at genesis), the page is within the limit, and the
    cursor to commit stands exactly at the last block, with a continuation if
    and only if the tip is further. *)
Theorem accepted_pages_are_chained `{codec : CoreCodec} {W} `{api : WalletCoreApi W}
    (self : CoreChainAdapter) result start anchor identity (w w' : W) batch
    (H : validate_and_map self result start anchor identity w = (w', Ok batch)) :
  exists previous, page_ok self result start previous identity batch
  /\ (start = 0 -> previous = zeros 32)
  /\ forall a, anchor = Some a -> start <> 0 -> a.(br_height) + 1 = start /\ previous = a.(br_hash).
Proof. apply (validate_and_map_Ok self) in H as (previous & H1 & H2 & H3 & _). by exists previous. Qed.

(** The safe anchor is the highest common block: while the node's chain does
    not change, the search returns the highest height below the invalidated one,
    within the configured depth, where the wallet's committed hash and the
    node's agree on a nonzero hash, and fails with [ReorgBeyondBound] exactly
    when there is none. *)
Theorem safe_anchor_is_highest `{codec : CoreCodec} {W} `{api : WalletCoreApi W} {K Error}
    `{sink : CoreScanTransactionSink K Error} (self : CoreChainAdapter) (w : W) (k : K)
    (local core : N -> option bytes) invalid_height
    (Hlocal : forall h, committed_canonical_hash k h = Ok (local h))
    (Hcore : forall h, api_canonical_hash_at_height h w = (w, Ok (core h))) :
  let lowest := invalid_height - self.(ad_maximum_reorg_depth) in
  match find_safe_anchor self invalid_height (w, k) with
  | (s, Ok a) =>
      s = (w, k) /\ lowest <= a.(br_height) < invalid_height
      /\ anchor_agrees (local a.(br_height)) (core a.(br_height)) = Some a.(br_hash)
      /\ forall h, a.(br_height) < h < invalid_height -> anchor_agrees (local h) (core h) = None
  | (s, Err e) =>
      s = (w, k) /\ e = SErr.ReorgBeyondBound
      /\ forall h, lowest <= h < invalid_height -> anchor_agrees (local h) (core h) = None
  end.
Proof.
  intros lowest. unfold find_safe_anchor, saturating_sub. fold lowest.
  set (n := N.to_nat (invalid_height - lowest)).
  assert (Hn : N.of_nat n <= invalid_height) by lia.
  assert (Hlow : invalid_height - N.of_nat n = lowest) by lia.
  destruct (find_anchor_spec w k local core (heights_down invalid_height n))
    as [[-> H]|(pre & h & post & hash & Hs & -> & Ha & H)]; auto.
  - split; [done|]. split; [done|]. intros h Hh. apply H, heights_down_elem; lia.
  - split; [done|]. simpl. split; [|split; [done|]].
    + rewrite <-Hlow. apply heights_down_elem; [done|]. rewrite Hs. set_solver.
    + intros h' Hh'. apply H. by apply (heights_down_split _ _ _ _ _ Hs).
Qed.

(** A batch is committed at most once: the retry loop makes at most five
    attempts, goes on only after a generation conflict the sink recovered from,
    and succeeds exactly when its last attempt is the first to succeed; it
    never touches the node, and every failure is a persistence error. *)
Theorem commit_retry_is_bounded `{codec : CoreCodec} {W} {K Error}
    `{sink : CoreScanTransactionSink K Error} (commit : method K Error unit) (s s' : W * K) r
    (H : commit_with_generation_retry commit s = (s', r)) :
  s'.1 = s.1
  /\ (r = Ok tt <-> exists j k, (j < 5)%nat /\ retried commit j s.2 k
                    /\ commit k = (s'.2, Ok tt))
  /\ forall e, r = Err e -> exists stage, e = SErr.Persistence stage.
Proof.
  unfold commit_with_generation_retry, GENERATION_CONFLICT_MAX_ATTEMPTS in H.
  destruct (commit_attempts 5 commit s.2) as [k1 r1] eqn:E. injection H as <- <-.
  split; [done|]. split.
  - rewrite <-(commit_attempts_Ok 5) by done. cbn [snd]. rewrite E. split; congruence.
  - intros e ->. by eapply commit_attempts_Err.
Qed.

(** What one step from a cursor commits, on a chain checked to be the adapter's. *)
Section steps.
Context {codec : CoreCodec} {W : Type} {api : WalletCoreApi W}.
Context {K Error : Type} {sink : CoreScanTransactionSink K Error}.
Context (self : CoreChainAdapter).

(** The node gave an answer at some time. *)
Definition answered {A} (m : method W WErr.WalletCoreError A) (a : A) : Prop := exists w w', m w = (w', Ok a).
(** A page that the node answered and that passed every check, on the chain of the
    adapter. *)
Definition checked_page (request : method W WErr.WalletCoreError ScanResult) (start : N) (previous : bytes)
    (identity : CoreChainIdentity) (batch : CoreScanBatch) : Prop :=
  validate_same_chain self.(ad_identity) identity = Ok tt
  /\ exists result, answered request result /\ page_ok self result start previous identity batch.
(** A cursor at the end of a batch that starts above an anchor. *)
Definition stands_at_end (height : N) (previous : bytes) (batch : CoreScanBatch) (c : WalletScanCursor) : Prop :=
  c.(wsc_anchor_height) = height + len batch.(cb_blocks)
  /\ c.(wsc_anchor_hash) = chain_end previous batch.(cb_blocks)
  /\ c.(wsc_next_height) = saturating_add u64_max c.(wsc_anchor_height) 1.

Lemma call_answered {A} (m : method W WErr.WalletCoreError A) (w w' : W) a :
  call m w = (w', Ok a) -> answered m a.
Proof. unfold call, answered. destruct (m w) as [w1 r] eqn:E. intros [= _ Hr%lift_core_Ok]. subst r. eauto. Qed.
Lemma current_identity_Ok (w w' : W) identity :
  current_identity self w = (w', Ok identity) -> validate_same_chain self.(ad_identity) identity = Ok tt.
Proof.
  unfold current_identity. intros (w1 & reported & _ & H)%mthen_Ok. apply pure_then in H as (current & _ & H).
  apply pure_then in H as ([] & Hs & H). injection H as _ <-. done.
Qed.

Lemma page_end result start previous identity batch b :
  page_ok self result start previous identity batch -> last batch.(cb_blocks) = Some b ->
  b.(csb_height) + 1 = start + len batch.(cb_blocks) /\ 0 < len batch.(cb_blocks)
  /\ chain_end previous batch.(cb_blocks) = b.(csb_block_hash).
Proof.
  intros H Hl. split; [by eapply chained_last; [apply (page_chained _ _ _ _ _ _ H)|]|].
  split; [|unfold chain_end; by rewrite Hl]. destruct (cb_blocks batch); [done|]. unfold len. simpl. lia.
Qed.

Lemma scan_next_Ok c old limit (w w' : W) batch :
  scan_next self c limit w = (w', Ok batch) -> cursor_decode c = Ok old -> old.(wsc_next_height) <> 0 ->
  old.(wsc_next_height) = old.(wsc_anchor_height) + 1
  /\ exists identity, checked_page (api_scan_next old limit) old.(wsc_next_height) old.(wsc_anchor_hash) identity batch.
Proof.
  unfold scan_next. intros (? & _ & H)%pure_then Hold Hnext.
  apply mthen_Ok in H as (w1 & identity & Hi%current_identity_Ok & H). apply pure_then in H as (cur & Hcur & H).
  rewrite Hold in Hcur. injection Hcur as <-. apply pure_then in H as (? & _ & H).
  apply mthen_Ok in H as (w2 & ? & _ & H). apply mthen_Ok in H as (w3 & result & Hr%call_answered & H).
  apply (validate_and_map_Ok self) in H as (previous & Hp & _ & Ha & _).
  destruct (Ha _ eq_refl Hnext) as [Hgap ->]. simpl in Hgap, Hp. split; [done|]. exists identity. split; [done|by exists result].
Qed.
Lemma scan_from_Ok start limit (w w' : W) batch :
  scan_from_height self start limit w = (w', Ok batch) -> start <> 0 ->
  exists identity request previous,
    checked_page (api_scan_range request) start previous identity batch /\ request.(srq_start_height) = start
    /\ answered (api_canonical_hash_at_height (start - 1)) (Some previous).
Proof.
  unfold scan_from_height. intros (? & _ & H)%pure_then Hs.
  apply mthen_Ok in H as (w1 & identity & Hi%current_identity_Ok & H).
  apply mthen_Ok in H as (w2 & result & Hr%call_answered & H).
  apply (validate_and_map_Ok self) in H as (previous & Hp & _ & _ & Hh). specialize (Hh eq_refl Hs).
  eexists identity, _, previous. split; [split; [done|by exists result]|]. split; [done|].
  destruct Hh as (w3 & w4 & Hh). by apply call_answered in Hh.
Qed.

Lemma find_anchor_Ok hs (s s' : W * K) a :
  find_anchor hs s = (s', Ok a) ->
  s'.2 = s.2 /\ a.(br_height) ∈ hs /\ committed_canonical_hash s.2 a.(br_height) = Ok (Some a.(br_hash))
  /\ a.(br_hash) <> zeros 32 /\ answered (api_canonical_hash_at_height a.(br_height)) (Some a.(br_hash)).
Proof.
  revert s. induction hs as [|h hs IH]; intros s; cbn [find_anchor]; [done|].
  intros (s1 & local & Hl & H)%mthen_Ok. unfold read_sink in Hl. injection Hl as <- Hl.
  apply mthen_Ok in H as (s2 & core & Hc & H). apply on_api_inv in Hc as [Hk Hc].
  apply call_answered in Hc as Ha.
  destruct (committed_canonical_hash s.2 h) as [local'|] eqn:El; [|done]. injection Hl as ->.
  destruct (anchor_agrees local core) as [hash|] eqn:E.
  - injection H as <- <-. unfold anchor_agrees in E. destruct local as [lh|], core as [ch|]; try done.
    destruct (bool_decide (lh = ch)) eqn:Eb; [|done]. destruct (is_zero32 ch) eqn:Ez; [done|]. injection E as <-.
    apply bool_decide_eq_true in Eb. subst lh. unfold is_zero32 in Ez. apply bool_decide_eq_false in Ez. simpl.
    split; [done|]. split; [by left|]. done.
  - apply IH in H as (H1 & H2 & H3 & H4). rewrite <-Hk. split; [congruence|]. split; [by right|]. done.
Qed.

(** A page of at least one block commits with a cursor at its end. *)
Lemma page_stands result height previous identity batch :
  page_ok self result (height + 1) previous identity batch ->
  match batch.(cb_commit_cursor) with
  | Some enc => exists new, encodes self identity new enc /\ stands_at_end height previous batch new
                  /\ batch.(cb_blocks) <> [] /\ height < new.(wsc_anchor_height)
  | None => batch.(cb_blocks) = []
  end.
Proof.
  intros H. pose proof (page_commit _ _ _ _ _ _ H) as Hc. destruct (last (cb_blocks batch)) as [b|] eqn:Hl.
  - destruct Hc as (new & enc & -> & Henc & (E1 & E2 & E3 & _) & _).
    destruct (page_end _ _ _ _ _ _ H Hl) as (Hh & Hn & He). exists new. split; [done|].
    split; [split; [lia|split; [congruence|by rewrite E1]]|]. split; [by intros E; rewrite E in Hl|lia].
  - rewrite Hc by lia. by apply last_None.
Qed.

(** The two ways of a step. *)
Definition normal_committed (k k' : K) old r : Prop :=
  match r with
  | NoChanges => k' = k
  | Committed c' => exists new identity batch,
      old.(wsc_next_height) = old.(wsc_anchor_height) + 1
      /\ checked_page (api_scan_next old self.(ad_maximum_batch_blocks)) old.(wsc_next_height)
           old.(wsc_anchor_hash) identity batch
      /\ encodes self identity new c' /\ stands_at_end old.(wsc_anchor_height) old.(wsc_anchor_hash) batch new
      /\ old.(wsc_anchor_height) < new.(wsc_anchor_height)
      /\ commit_attempts 5 (commit_core_batch batch c') k = (k', Ok tt)
  | ReorgCommitted _ _ => False
  end.
Lemma normal_step c old (s s' : W * K) r :
  cursor_decode c = Ok old -> old.(wsc_next_height) <> 0 ->
  (let! batch := on_api (scan_next self c self.(ad_maximum_batch_blocks)) in commit_normal batch) s = (s', Ok r) ->
  normal_committed s.2 s'.2 old r.
Proof.
  intros Hold Hnext ([w2 k2] & batch & Hs & H)%mthen_Ok. apply on_api_inv in Hs as [Hk Hs].
  simpl in Hk, Hs. subst k2. apply commit_normal_Ok in H. simpl in H.
  destruct (scan_next_Ok _ _ _ _ _ _ Hs Hold Hnext) as (Hgap & identity & Hpage).
  pose proof Hpage as (_ & result & _ & Hp). rewrite Hgap in Hp. apply page_stands in Hp.
  destruct (cb_commit_cursor batch) as [enc|].
  - destruct H as (-> & _ & Hcommit). destruct Hp as (new & H1 & H2 & _ & H3). by exists new, identity, batch.
  - destruct H as [-> ->]. done.
Qed.

Definition reorg_committed (k k' : K) old r : Prop :=
  match r with
  | ReorgCommitted a c' => exists new identity request previous batch,
      old.(wsc_anchor_height) - self.(ad_maximum_reorg_depth) <= a.(br_height) < old.(wsc_anchor_height)
      /\ committed_canonical_hash k a.(br_height) = Ok (Some a.(br_hash)) /\ a.(br_hash) <> zeros 32
      /\ answered (api_canonical_hash_at_height a.(br_height)) (Some a.(br_hash))
      /\ checked_page (api_scan_range request) (a.(br_height) + 1) previous identity batch
      /\ request.(srq_start_height) = a.(br_height) + 1
      /\ answered (api_canonical_hash_at_height a.(br_height)) (Some previous)
      /\ (if bool_decide (batch.(cb_blocks) = [])
          then batch.(cb_observed_tip) = a /\ encodes self self.(ad_identity) new c'
               /\ new = cursor_new self.(ad_identity).(cci_network) self.(ad_identity).(cci_chain_id)
                          (a.(br_height) + 1) a
          else encodes self identity new c' /\ stands_at_end a.(br_height) previous batch new)
      /\ commit_attempts 5 (commit_core_reorg a batch c') k = (k', Ok tt)
  | _ => False
  end.
Lemma reorg_step c old (s s' : W * K) r :
  cursor_decode c = Ok old -> reconcile_reorg self c s = (s', Ok r) -> reorg_committed s.2 s'.2 old r.
Proof.
  intros Hold H. unfold reconcile_reorg in H. apply pure_then in H as (cur & Hcur & H).
  rewrite Hold in Hcur. injection Hcur as <-. apply mthen_Ok in H as (s1 & a & Ha & H).
  unfold find_safe_anchor, saturating_sub in Ha. apply find_anchor_Ok in Ha as (Ek & Hin & Hloc & Hz & Hans).
  apply heights_down_elem in Hin; [|lia].
  apply pure_then in H as (start & Hst%ok_or_Ok%checked_add_Some & H). destruct Hst as [-> _].
  apply mthen_Ok in H as (s2 & batch & Hb & H). apply on_api_inv in Hb as [Ek2 Hb].
  apply scan_from_Ok in Hb as (identity & request & previous & Hpage & Hreq & Hprev); [|lia].
  replace (a.(br_height) + 1 - 1) with a.(br_height) in Hprev by lia.
  pose proof Hpage as (_ & result & _ & Hp). apply page_stands in Hp.
  apply mthen_Ok in H as (s3 & enc & Henc & H). apply mthen_Ok in H as (s4 & [] & Hcommit & H).
  injection H as <- <-. unfold commit_with_generation_retry in Hcommit.
  destruct (commit_attempts _ _ s3.2) as [k4 o] eqn:Hc. injection Hcommit as <- ->.
  assert (Hfin : s3.2 = s.2 /\ exists new,
    if bool_decide (batch.(cb_blocks) = [])
    then batch.(cb_observed_tip) = a /\ encodes self self.(ad_identity) new enc
         /\ new = cursor_new self.(ad_identity).(cci_network) self.(ad_identity).(cci_chain_id) (a.(br_height) + 1) a
    else encodes self identity new enc /\ stands_at_end a.(br_height) previous batch new).
  { destruct (cb_commit_cursor batch) as [enc'|].
    - injection Henc as <- <-. split; [congruence|]. destruct Hp as (new & H1 & H2 & H3 & _). exists new.
      by rewrite bool_decide_eq_false_2.
    - destruct (bool_decide (cb_observed_tip batch = a)) eqn:Et; [|done]. apply bool_decide_eq_true in Et.
      apply pure_then in Henc as (enc' & He & Henc). apply mthen_Ok in Henc as (s5 & x & Hv & Henc).
      injection Henc as <- <-. apply on_api_inv in Hv as [Ek5 Hv]. split; [congruence|].
      eexists. rewrite bool_decide_eq_true_2 by done. split; [done|]. split; [|done]. by eapply from_cursor_Ok. }
  destruct Hfin as [Ek3 [new Hnew]]. exists new, identity, request, previous, batch.
  split; [lia|]. split; [exact Hloc|]. split; [exact Hz|]. split; [exact Hans|]. split; [exact Hpage|].
  split; [exact Hreq|]. split; [exact Hprev|]. split; [exact Hnew|]. simpl. rewrite <-Ek3. exact Hc.
Qed.

(** C34 Synchronisation keeps to one chain.  A step from a cursor whose page commits
    has committed a page that the node answered, on the adapter's chain, of at most
    the batch limit, whose blocks were each projected from the node's with every
    check, are of consecutive heights right above the old anchor and each name their
    predecessor by hash, the first one the old anchor; the committed cursor was read
    back and taken for valid, and stands at the last block, strictly higher than the
    old one.  A step that commits a reorganisation goes back to a block below the old
    anchor, within the configured depth, whose hash the sink and the node agree on,
    and commits with it a page checked in the same way that starts right above it, on
    the block that the node names at its height when asked again, with a cursor at
    its end.  A step that reports no changes leaves the sink as it was. *)
Theorem synchronisation_keeps_to_one_chain (w w' : W) (k k' : K) c old r
    (Hstate : core_cursor_state k = Ok (Valid c) \/ core_cursor_state k = Ok (ReorgInvalidated c))
    (Hold : cursor_decode c = Ok old) (Hnext : old.(wsc_next_height) <> 0)
    (H : reconcile_once self (w, k) = ((w', k'), Ok r)) :
  match r with
  | NoChanges => k' = k
  | Committed c' => exists new identity batch,
      old.(wsc_next_height) = old.(wsc_anchor_height) + 1
      /\ checked_page (api_scan_next old self.(ad_maximum_batch_blocks)) old.(wsc_next_height)
           old.(wsc_anchor_hash) identity batch
      /\ encodes self identity new c' /\ stands_at_end old.(wsc_anchor_height) old.(wsc_anchor_hash) batch new
      /\ old.(wsc_anchor_height) < new.(wsc_anchor_height)
      /\ commit_attempts 5 (commit_core_batch batch c') k = (k', Ok tt)
  | ReorgCommitted a c' => exists new identity request previous batch,
      old.(wsc_anchor_height) - self.(ad_maximum_reorg_depth) <= a.(br_height) < old.(wsc_anchor_height)
      /\ committed_canonical_hash k a.(br_height) = Ok (Some a.(br_hash)) /\ a.(br_hash) <> zeros 32
      /\ answered (api_canonical_hash_at_height a.(br_height)) (Some a.(br_hash))
      /\ checked_page (api_scan_range request) (a.(br_height) + 1) previous identity batch
      /\ request.(srq_start_height) = a.(br_height) + 1
      /\ answered (api_canonical_hash_at_height a.(br_height)) (Some previous)
      /\ (if bool_decide (batch.(cb_blocks) = [])
          then batch.(cb_observed_tip) = a /\ encodes self self.(ad_identity) new c'
               /\ new = cursor_new self.(ad_identity).(cci_network) self.(ad_identity).(cci_chain_id)
                          (a.(br_height) + 1) a
          else encodes self identity new c' /\ stands_at_end a.(br_height) previous batch new)
      /\ commit_attempts 5 (commit_core_reorg a batch c') k = (k', Ok tt)
  end.
Proof.
  unfold reconcile_once in H. apply mthen_Ok in H as (s0 & st & H0 & H). unfold read_sink in H0. simpl in H0.
  destruct Hstate as [Hstate|Hstate]; rewrite Hstate in H0; injection H0 as <- <-.
  - destruct (on_api (validate_cursor self c) (w, k)) as [[w1 k1] [a|e]] eqn:Hv;
      apply on_api_inv in Hv as [Hk _]; simpl in Hk; subst k1.
    + apply (normal_step _ old) in H; [|done|done]. destruct r; [exact H|exact H|destruct H].
    + destruct e; try done. apply (reorg_step _ old) in H; [|done]. destruct r; [destruct H|destruct H|exact H].
  - apply (reorg_step _ old) in H; [|done]. destruct r; [destruct H|destruct H|exact H].
Qed.
End steps.

(** ** Witnesses *)

(** A node whose chain is the sample block on top of genesis. *)
Definition sample_hash (h : N) : option bytes :=
  if h =? 0 then Some (sample_bytes 32 Byte.x60)
  else if h =? 1 then Some (sample_bytes 32 Byte.x61) else None.
Definition sample_tip : CoreBlockReference := mkBlockReference 1 (sample_bytes 32 Byte.x61).
Definition sample_page (start : N) : ScanResult :=
  mkScanResult sample_tip (if start =? 1 then [sample_block] else []) None.
#[global] Instance sample_node : WalletCoreApi unit := {|
  api_chain_identity := fun w => (w, Ok (mkChainIdentity CNet.Regtest 3 (sample_bytes 32 Byte.x01)
                                           (sample_bytes 32 Byte.x02) 2 1 10 sample_tip));
  api_scan_range := fun request w => (w, Ok (sample_page request.(srq_start_height)));
  api_scan_next := fun cursor _ w => (w, Ok (sample_page cursor.(wsc_next_height)));
  api_validate_cursor := fun cursor w =>
    (w, Ok (mkCursorValidation true (mkBlockReference cursor.(wsc_anchor_height)
                                       cursor.(wsc_anchor_hash))));
  api_canonical_hash_at_height := fun h w => (w, Ok (sample_hash h));
|}.

(** A sink that keeps the cursor and the batches, and meets [n] conflicts. *)
Record sample_store := mkSampleStore {
  sto_cursor : PersistedCoreCursorState;
  sto_batches : list CoreScanBatch;
  sto_conflicts : nat;
}.
Definition store_commit (batch : CoreScanBatch) (c : CoreCursorBytes)
    : method sample_store unit unit := fun k =>
  match k.(sto_conflicts) with
  | O => (mkSampleStore (Valid c) (k.(sto_batches) ++ [batch]) 0, Ok tt)
  | S n => (k, Err tt)
  end.
#[global] Instance sample_sink : CoreScanTransactionSink sample_store unit := {|
  core_cursor_state := fun k => Ok k.(sto_cursor);
  committed_canonical_hash := fun _ h => Ok (sample_hash h);
  commit_core_batch := store_commit;
  commit_core_reorg := fun _ => store_commit;
  persistence_stage := fun _ => StorageCommit;
  recover_generation_conflict := fun _ k =>
    (mkSampleStore k.(sto_cursor) k.(sto_batches) (pred k.(sto_conflicts)), Ok true);
|}.

Definition sample_adapter : CoreChainAdapter := mkCoreChainAdapter sample_core_identity 16 8.

(** The cursor at genesis, and a store that holds it. *)
Definition genesis_cursor : WalletScanCursor :=
  mkWalletScanCursor 1 3 (sample_bytes 32 Byte.x01) 1 0 (sample_bytes 32 Byte.x60).
Definition genesis_bytes : CoreCursorBytes := mkCoreCursorBytes (cursor_to_bytes genesis_cursor).
Definition genesis_store : sample_store := mkSampleStore (Valid genesis_bytes) [] 2.

Lemma sample_round c : cursor_from_bytes (cursor_to_bytes c) = Ok c.
Proof. simpl. rewrite bits_pos_bits, decode_encode. by rewrite tuple_cursor_tuple. Qed.

Definition empty_batch : CoreScanBatch := mkCoreScanBatch sample_tip [] None.
Definition committed_store : sample_store :=
  mkSampleStore (Valid genesis_bytes) [empty_batch] 0.

Lemma synchronisation_keeps_to_one_chain_witness :
  exists s' c' new, reconcile_once sample_adapter (tt, genesis_store) = (s', Ok (Committed c'))
  /\ c' = mkCoreCursorBytes (cursor_to_bytes new) /\ genesis_cursor.(wsc_anchor_height) < new.(wsc_anchor_height).
Proof.
  destruct (reconcile_once sample_adapter (tt, genesis_store)) as [[w' k'] [r|e]] eqn:E.
  - pose proof (synchronisation_keeps_to_one_chain sample_adapter tt w' genesis_store k' genesis_bytes
                  genesis_cursor r (or_introl eq_refl)) as H.
    assert (Hd : cursor_decode genesis_bytes = Ok genesis_cursor).
    { change (lift_core (cursor_from_bytes (cursor_to_bytes genesis_cursor)) = Ok genesis_cursor).
      rewrite sample_round. reflexivity. }
    specialize (H Hd ltac:(discriminate) E). destruct r as [|c'|a c'].
    + exfalso. vm_compute in E. discriminate E.
    + destruct H as (new & identity & batch & _ & _ & (Hc & _) & _ & H2 & _).
      exists (w', k'), c', new. split; [reflexivity|]. split; [exact Hc|exact H2].
    + exfalso. vm_compute in E. discriminate E.
  - exfalso. vm_compute in E. discriminate E.
Defined.
