(* ===== verification/Recovery.v ===== *)
(** * Canonical recovery of a wallet from its seed

    [apply_recovery_batch], [rewind_recovery_state] and their helpers of
    crates/dom-wallet-core-restore/src/lib.rs.  The scan of the seed itself and
    the commitment arithmetic live in other repositories and are the class
    [RecoverySeed]; the results of [Uuid::new_v4()] are arguments. *)

From Stdlib Require Import Sorted.
From S2P Require Import Prelude DomainTypes Lifecycle WalletOps Reservations Restore Validation.
From S2P Require Import CoreTypes Projection.

Definition RECOVERY_CANONICAL_WINDOW_BLOCKS : N := 2048.

Module RErr.
Inductive SeedRestoreError :=
| InvalidMnemonic
| InvalidPassword
| InvalidDestination
| ChainIdentityMismatch
| CanonicalScan
| CoreBusy
| MalformedRecovery
| ConflictingOutput
| CoordinateOverflow
| Storage
| StateStorageLimitExceeded
| IncompatibleCheckpoint
| Incomplete.
#[global] Instance SeedRestoreError_eq_dec : EqDecision SeedRestoreError.
Proof. solve_decision. Defined.
End RErr.

(** [RestoredOutput] of dom-wallet-recovery; its domain has the constructors of
    [RecoveredOutputDomain], which [map_domain] maps by name. *)
Module ORD.
Inductive OutputRecoveryDomain := Received | Change | SelfTransfer | Coinbase.
End ORD.

Record RestoredOutput := mkRestoredOutput {
  ro_commitment : bytes;
  ro_value : N;
  ro_blinding : bytes;
  ro_account : N;
  ro_derivation_index : N;
  ro_domain : ORD.OutputRecoveryDomain;
  ro_block_height : N;
  ro_block_hash : bytes;
  ro_is_coinbase : bool;
  ro_spent_at_height : option N;
}.

Module RestErr.
Inductive RestoreError := Continuity | Malformed | Crypto.
End RestErr.

Class RecoverySeed := {
  restore_canonical_scan : list ScanBlock -> result RestErr.RestoreError (list RestoredOutput);
  legacy_coinbase_blinding : N -> option bytes;
  blinding_factor_from_bytes : bytes -> option bytes;
  commitment_commit : N -> bytes -> bytes;
}.

(** ** Helpers *)

Definition map_domain (domain : ORD.OutputRecoveryDomain) : ROD.RecoveredOutputDomain :=
  match domain with
  | ORD.Received => ROD.Received
  | ORD.Change => ROD.Change
  | ORD.SelfTransfer => ROD.SelfTransfer
  | ORD.Coinbase => ROD.Coinbase
  end.

Definition update_floor (domain : ROD.RecoveredOutputDomain) (recovered_index : N)
    (floors : RecoveryAllocationFloors) : RecoveryAllocationFloors :=
  match domain with
  | ROD.Received => floors <| raf_received ::= fun f => N.max f recovered_index |>
  | ROD.Change => floors <| raf_change ::= fun f => N.max f recovered_index |>
  | ROD.SelfTransfer => floors <| raf_self_transfer ::= fun f => N.max f recovered_index |>
  | ROD.Coinbase => floors <| raf_coinbase ::= fun f => N.max f recovered_index |>
  end.

Definition account_id_for (new_id : uuid) (recovery_account : N)
    : method WalletState RErr.SeedRestoreError uuid := fun state =>
  if recovery_account =? 0 then (state, Ok state.(ws_default_account).(acc_id))
  else match find_first (fun a => a.(ram_recovery_account) =? recovery_account)
                        state.(ws_recovered_accounts) with
  | Some account => (state, Ok account.(ram_account_id))
  | None =>
      if saturating_sub MAX_ACCOUNTS 1 <=? len state.(ws_recovered_accounts)
      then (state, Err RErr.MalformedRecovery)
      else (state <| ws_recovered_accounts ::=
                       fun l => l ++ [mkRecoveredAccountMapping recovery_account new_id] |>,
            Ok new_id)
  end.

Definition recovered_output_state (restored : RestoredOutput) (tip_height coinbase_maturity : N)
    : result RErr.SeedRestoreError Out.OutputState :=
  match restored.(ro_spent_at_height) with
  | Some spent_height => Ok (Out.Spent spent_height)
  | None =>
      if restored.(ro_is_coinbase) then
        let? required_height := ok_or (checked_add u64_max restored.(ro_block_height)
                                         coinbase_maturity) RErr.CoordinateOverflow in
        if tip_height <? required_height then Ok (Out.Immature required_height)
        else Ok Out.Confirmed
      else Ok Out.Confirmed
  end.

Definition recovered_metadata (id : uuid) (restored : RestoredOutput) (output_position : N)
    : RecoveredOutputMetadata :=
  mkRecoveredOutputMetadata id restored.(ro_account) restored.(ro_derivation_index)
    (map_domain restored.(ro_domain)) restored.(ro_is_coinbase) restored.(ro_block_hash)
    output_position.

Definition find_metadata (state : WalletState) (id : uuid) : option RecoveredOutputMetadata :=
  find_first (fun m => m.(rom_output_id) =? id) state.(ws_recovered_output_metadata).

(** The output is known and recovered already: it must be the same. *)
Definition same_recovered (existing : OutputRecord) (metadata : RecoveredOutputMetadata)
    (blinding : bytes) (restored : RestoredOutput) (output_position : N) : bool :=
  (existing.(out_value) =? restored.(ro_value))
  && (existing.(out_discovered_height) =? restored.(ro_block_height))
  && (metadata.(rom_recovery_account) =? restored.(ro_account))
  && (metadata.(rom_derivation_index) =? restored.(ro_derivation_index))
  && bool_decide (metadata.(rom_domain) = map_domain restored.(ro_domain))
  && bool_decide (metadata.(rom_block_hash) = restored.(ro_block_hash))
  && (metadata.(rom_output_position) =? output_position)
  && bool_decide (blinding = restored.(ro_blinding)).

(** The output is known and pending: whether it may be adopted. *)
Definition adoptable (existing : OutputRecord) (expected_account : uuid) (blinding : bytes)
    (restored : RestoredOutput) : bool :=
  (existing.(out_value) =? restored.(ro_value))
  && (existing.(out_account_id) =? expected_account)
  && (existing.(out_discovered_height) =? 0)
  && negb (is_some existing.(out_reserved_by))
  && bool_decide (existing.(out_state) = Out.PendingIncoming)
  && bool_decide (blinding = restored.(ro_blinding)).

(** [fresh] holds the identifiers of a new account and of a new output. *)
Definition merge_known (fresh : uuid * uuid) (existing_index : nat) (restored : RestoredOutput)
    (output_position tip_height coinbase_maturity : N)
    : method WalletState RErr.SeedRestoreError unit := fun state =>
  match state.(ws_outputs) !! existing_index with
  | None => (state, Ok tt)
  | Some existing =>
      (let! blinding := mread (fun state =>
         ok_or (output_blinding state existing.(out_id)) RErr.ConflictingOutput) in
       match find_metadata state existing.(out_id) with
       | Some metadata =>
           mread (fun _ => fail_if (negb (same_recovered existing metadata blinding restored
                                            output_position)) RErr.ConflictingOutput)
       | None =>
           let! expected_account := account_id_for fresh.1 restored.(ro_account) in
           mread (fun _ => fail_if (negb (adoptable existing expected_account blinding restored))
                                   RErr.ConflictingOutput) ;;;
           let! confirmed_state := mread (fun _ =>
             recovered_output_state restored tip_height coinbase_maturity) in
           massign (fun state =>
             state <| ws_outputs ::= <[existing_index :=
                        existing <| out_discovered_height := restored.(ro_block_height) |>
                                 <| out_state := confirmed_state |>]> |>
                   <| ws_recovered_output_metadata ::= fun l =>
                        l ++ [recovered_metadata existing.(out_id) restored output_position] |>)
       end) state
  end.

Definition merge_new (fresh : uuid * uuid) (restored : RestoredOutput)
    (output_position tip_height coinbase_maturity : N)
    : method WalletState RErr.SeedRestoreError unit :=
  let! account_id := account_id_for fresh.1 restored.(ro_account) in
  let! state_value := mread (fun _ => recovered_output_state restored tip_height coinbase_maturity) in
  massign (fun state =>
    (remember_output_blinding fresh.2 restored.(ro_blinding)
       (state <| ws_outputs ::= fun l =>
          l ++ [mkOutputRecord fresh.2 account_id (Some restored.(ro_commitment))
                  restored.(ro_value) state_value restored.(ro_block_height) None] |>))
    <| ws_recovered_output_metadata ::= fun l =>
         l ++ [recovered_metadata fresh.2 restored output_position] |>).

Definition merge_restored_output (fresh : uuid * uuid) (restored : RestoredOutput)
    (output_position tip_height coinbase_maturity : N)
    : method WalletState RErr.SeedRestoreError unit :=
  massign (fun state =>
    state <| ws_recovery_allocation_floors ::=
               update_floor (map_domain restored.(ro_domain)) restored.(ro_derivation_index) |>
          <| ws_non_reuse_floor ::= fun f => N.max f restored.(ro_derivation_index) |>) ;;;
  fun state =>
  match position (has_commitment restored.(ro_commitment)) state.(ws_outputs) with
  | Some existing_index =>
      merge_known fresh existing_index restored output_position tip_height coinbase_maturity state
  | None => merge_new fresh restored output_position tip_height coinbase_maturity state
  end.

(** ** Maturity and the canonical window *)

Definition refresh_one (state : WalletState) (tip_height coinbase_maturity : N)
    : method OutputRecord RErr.SeedRestoreError unit := fun output =>
  if Out.is_spent output.(out_state) then (output, Ok tt)
  else match find_metadata state output.(out_id) with
  | None => (output, Ok tt)
  | Some metadata =>
      if metadata.(rom_is_coinbase) then
        match checked_add u64_max output.(out_discovered_height) coinbase_maturity with
        | None => (output, Err RErr.CoordinateOverflow)
        | Some required_height =>
            (output <| out_state := if tip_height <? required_height
                                    then Out.Immature required_height else Out.Confirmed |>, Ok tt)
        end
      else (output <| out_state := Out.Confirmed |>, Ok tt)
  end.

Definition refresh_maturity (tip_height coinbase_maturity : N)
    : method WalletState RErr.SeedRestoreError unit := fun state =>
  let '(outs, r) := for_each_mut (refresh_one state tip_height coinbase_maturity)
                                 state.(ws_outputs) in
  (state <| ws_outputs := outs |>, r).

Definition prune_recovery_canonical_window (state : WalletState) : WalletState :=
  match last state.(ws_recovery_canonical_blocks) with
  | None => state
  | Some last_ =>
      let minimum := saturating_sub last_.(rcb_height)
                       (saturating_sub RECOVERY_CANONICAL_WINDOW_BLOCKS 1) in
      if is_some_and (head state.(ws_recovery_canonical_blocks))
                     (fun first => first.(rcb_height) <? minimum)
      then state <| ws_recovery_canonical_blocks ::=
                      List.filter (fun b => minimum <=? b.(rcb_height)) |>
      else state
  end.

Definition migrate_durable_scan_counters : method WalletState RErr.SeedRestoreError unit :=
  fun state =>
  if negb (state.(ws_recovery_scanned_blocks) =? 0)
     || is_empty state.(ws_recovery_canonical_blocks)
  then (state, Ok tt)
  else
    let state := state <| ws_recovery_scanned_blocks := len state.(ws_recovery_canonical_blocks) |> in
    match foldM (fun total b => ok_or (checked_add u64_max total b.(rcb_output_count))
                                      RErr.CoordinateOverflow)
                state.(ws_recovery_canonical_blocks) 0 with
    | Ok total => (state <| ws_recovery_scanned_outputs := total |>, Ok tt)
    | Err e => (state, Err e)
    end.

(** ** One batch *)

Definition legacy_output (output : CoreScanOutput) : bool :=
  (output.(cso_recovery_version) =? 0) && is_empty output.(cso_recovery_capsule).

(** [usize] to [u32] *)
Definition to_u32 (n : N) : option N := if n <=? u32_max then Some n else None.

(** The canonical block record and the counters of one block. *)
Definition record_block (block : CoreScanBlock) : method WalletState RErr.SeedRestoreError unit :=
  let! legacy_count := mread (fun _ =>
    ok_or (to_u32 (len (List.filter legacy_output block.(csb_outputs)))) RErr.MalformedRecovery) in
  fun state =>
  match find_first (fun b => b.(rcb_height) =? block.(csb_height))
                   state.(ws_recovery_canonical_blocks) with
  | Some existing =>
      (state, fail_if (negb (bool_decide (existing.(rcb_block_hash) = block.(csb_block_hash))))
                      RErr.ConflictingOutput)
  | None =>
      (let! output_count := mread (fun _ =>
         ok_or (to_u32 (len block.(csb_outputs))) RErr.MalformedRecovery) in
       massign (fun state => state <| ws_recovery_canonical_blocks ::= fun l =>
         l ++ [mkRecoveryCanonicalBlock block.(csb_height) block.(csb_block_hash)
                 block.(csb_previous_block_hash) output_count legacy_count] |>) ;;;
       let! n := mread (fun state => ok_or (checked_add u64_max state.(ws_recovery_scanned_blocks) 1)
                                           RErr.CoordinateOverflow) in
       massign (fun state => state <| ws_recovery_scanned_blocks := n |>) ;;;
       let! m := mread (fun state => ok_or (checked_add u64_max state.(ws_recovery_scanned_outputs)
                                              output_count) RErr.CoordinateOverflow) in
       massign (fun state => state <| ws_recovery_scanned_outputs := m |>) ;;;
       let! l := mread (fun state => ok_or (checked_add u64_max state.(ws_legacy_proof_only_outputs)
                                              legacy_count) RErr.CoordinateOverflow) in
       massign (fun state => state <| ws_legacy_proof_only_outputs := l |>)) state
  end.

(** The evidence that an output was spent at [height]. *)
Definition spend_output (height : N) : method OutputRecord RErr.SeedRestoreError unit :=
  fun output =>
  match output.(out_state) with
  | Out.Spent spent_height =>
      if negb (spent_height =? height) then (output, Err RErr.ConflictingOutput)
      else (output <| out_state := Out.Spent height |> <| out_reserved_by := None |>, Ok tt)
  | _ => (output <| out_state := Out.Spent height |> <| out_reserved_by := None |>, Ok tt)
  end.

(** The loop over the inputs of one block; [page_inputs] spans the batch. *)
Fixpoint spend_inputs (height : N) (inputs : list CoreScanInput) (page_inputs : gset bytes)
    : method WalletState RErr.SeedRestoreError (gset bytes) := fun state =>
  match inputs with
  | [] => (state, Ok page_inputs)
  | input :: inputs =>
      let commitment := input.(csi_spent_commitment) in
      if bool_decide (commitment ∈ page_inputs) then (state, Err RErr.ConflictingOutput)
      else
        let page_inputs := {[commitment]} ∪ page_inputs in
        match position (has_commitment commitment) state.(ws_outputs) with
        | None => spend_inputs height inputs page_inputs state
        | Some i =>
            match state.(ws_outputs) !! i with
            | None => (state, Ok page_inputs)
            | Some output =>
                let '(output, r) := spend_output height output in
                let state := state <| ws_outputs ::= <[i := output]> |> in
                match r with
                | Ok _ => spend_inputs height inputs page_inputs state
                | Err e => (state, Err e)
                end
            end
        end
  end.

Fixpoint apply_blocks (blocks : list CoreScanBlock) (page_inputs : gset bytes)
    : method WalletState RErr.SeedRestoreError unit :=
  match blocks with
  | [] => mret tt
  | block :: blocks =>
      record_block block ;;;
      let! page_inputs := spend_inputs block.(csb_height) block.(csb_inputs) page_inputs in
      apply_blocks blocks page_inputs
  end.

(** [sort_by_key(|block| block.height)], a stable sort. *)
Fixpoint insert_block (b : RecoveryCanonicalBlock) (l : list RecoveryCanonicalBlock)
    : list RecoveryCanonicalBlock :=
  match l with
  | [] => [b]
  | x :: l => if b.(rcb_height) <? x.(rcb_height) then b :: x :: l else x :: insert_block b l
  end.
Definition sort_blocks (l : list RecoveryCanonicalBlock) : list RecoveryCanonicalBlock :=
  fold_left (fun acc b => insert_block b acc) l [].

(** [result.map_err(|_| MalformedRecovery)] of a domain method *)
Definition domain {A} (m : method WalletState DErr.DomainError A)
    : method WalletState RErr.SeedRestoreError A := fun s =>
  let '(s, r) := m s in (s, map_err r RErr.MalformedRecovery).

(** One turn of the loop over the restored outputs; [fresh i] are the
    identifiers for the i-th turn. *)
Definition merge_next (fresh : nat -> uuid * uuid) (positions : gmap bytes N)
    (tip coinbase_maturity : N) : nat * RestoredOutput -> method WalletState RErr.SeedRestoreError unit :=
  fun '(i, restored_output) =>
  let! output_position := mread (fun _ =>
    ok_or (positions !! restored_output.(ro_commitment)) RErr.MalformedRecovery) in
  merge_restored_output (fresh i) restored_output output_position tip coinbase_maturity.

Section batch.
Context {seed : RecoverySeed}.

Definition restore_legacy_coinbase (block : CoreScanBlock)
    : result RErr.SeedRestoreError (option (RestoredOutput * N)) :=
  match find_first (fun o => o.(cso_is_coinbase) && legacy_output o
                     && bool_decide (o.(cso_commitment)
                                     = block.(csb_coinbase).(ccm_output_commitment)))
                   block.(csb_outputs) with
  | None => Ok None
  | Some output =>
      fail_if (negb (output.(cso_block_height) =? block.(csb_height))
               || negb (bool_decide (output.(cso_block_hash) = block.(csb_block_hash))))
              RErr.MalformedRecovery ;?
      let? blinding := ok_or (legacy_coinbase_blinding block.(csb_height)) RErr.MalformedRecovery in
      let? factor := ok_or (blinding_factor_from_bytes blinding) RErr.MalformedRecovery in
      let value := block.(csb_coinbase).(ccm_explicit_value) in
      if negb (bool_decide (commitment_commit value factor = output.(cso_commitment))) then Ok None
      else Ok (Some (mkRestoredOutput output.(cso_commitment) value blinding 0 block.(csb_height)
                       ORD.Coinbase block.(csb_height) block.(csb_block_hash) true None,
                     output.(cso_output_position)))
  end.

(** [BTreeMap] of output positions: a later output replaces an earlier one. *)
Definition output_positions (blocks : list CoreScanBlock) : gmap bytes N :=
  fold_left (fun m o => <[o.(cso_commitment) := o.(cso_output_position)]> m)
            (concat (map csb_outputs blocks)) ∅.

(** [fresh i] and [fresh' i] are the identifiers for the i-th turn of the two
    merge loops. *)
Definition apply_recovery_batch (fresh fresh' : nat -> uuid * uuid) (coinbase_maturity : N)
    (batch : CoreScanBatch) : method WalletState RErr.SeedRestoreError unit :=
  let tip := batch.(cb_observed_tip).(br_height) in
  let! restored := mread (fun _ =>
    match restore_canonical_scan (map to_core_block batch.(cb_blocks)) with
    | Ok restored => Ok restored
    | Err RestErr.Continuity => Err RErr.ConflictingOutput
    | Err _ => Err RErr.MalformedRecovery
    end) in
  let positions := output_positions batch.(cb_blocks) in
  mfor (imap pair restored) (merge_next fresh positions tip coinbase_maturity) ;;;
  mfor (imap pair batch.(cb_blocks)) (fun '(i, block) =>
    let! legacy := mread (fun _ => restore_legacy_coinbase block) in
    match legacy with
    | Some (restored_output, output_position) =>
        merge_restored_output (fresh' i) restored_output output_position tip coinbase_maturity
    | None => mret tt
    end) ;;;
  migrate_durable_scan_counters ;;;
  apply_blocks batch.(cb_blocks) ∅ ;;;
  massign (fun state => prune_recovery_canonical_window
             (state <| ws_recovery_canonical_blocks ::= sort_blocks |>)) ;;;
  refresh_maturity tip coinbase_maturity ;;;
  domain restore_scriptless_funding_reservations ;;;
  domain restore_scriptless_payout_reservations.
End batch.

(** ** Rewinding *)

Definition rewound (safe_height : N) (b : RecoveryCanonicalBlock) : bool := safe_height <? b.(rcb_height).

(** The saturating sum of one count over the rewound blocks. *)
Definition rewound_total (f : RecoveryCanonicalBlock -> N) (safe_height : N)
    (blocks : list RecoveryCanonicalBlock) : N :=
  fold_left (fun acc b => saturating_add u64_max acc (f b)) (List.filter (rewound safe_height) blocks) 0.

Definition unspend_above (safe_height : N) (output : OutputRecord) : OutputRecord :=
  match output.(out_state) with
  | Out.Spent spent_height =>
      if safe_height <? spent_height then output <| out_state := Out.Confirmed |> else output
  | _ => output
  end.

(** The part of [rewind_recovery_state] that cannot fail. *)
Definition rewind_projection (safe_height : N) (state : WalletState) : WalletState :=
  let removed_ids := map out_id (List.filter (fun o => safe_height <? o.(out_discovered_height))
                                             state.(ws_outputs)) in
  let kept id := negb (bool_decide (id ∈ removed_ids)) in
  let blocks := state.(ws_recovery_canonical_blocks) in
  state <| ws_outputs ::= List.filter (fun o => o.(out_discovered_height) <=? safe_height) |>
        <| ws_private_output_blindings ::= List.filter (fun s => kept s.(pob_output_id)) |>
        <| ws_recovered_output_metadata ::= List.filter (fun m => kept m.(rom_output_id)) |>
        <| ws_recovery_scanned_blocks ::=
             fun n => saturating_sub n (rewound_total (fun _ => 1) safe_height blocks) |>
        <| ws_recovery_scanned_outputs ::=
             fun n => saturating_sub n (rewound_total rcb_output_count safe_height blocks) |>
        <| ws_legacy_proof_only_outputs ::=
             fun n => saturating_sub n (rewound_total rcb_legacy_proof_only_outputs safe_height blocks) |>
        <| ws_recovery_canonical_blocks ::= List.filter (fun b => b.(rcb_height) <=? safe_height) |>
        <| ws_outputs ::= map (unspend_above safe_height) |>.

Definition rewind_recovery_state (safe_height tip_height : N)
    : method WalletState RErr.SeedRestoreError unit :=
  massign (rewind_projection safe_height) ;;;
  refresh_maturity tip_height 0 ;;;
  domain (rollback_confirmations_after_height safe_height).

(** ** Lemmas: merging *)

(** The floors after merging an output. *)
Definition merge_floors (restored : RestoredOutput) (s : WalletState) : WalletState :=
  s <| ws_recovery_allocation_floors ::=
         update_floor (map_domain restored.(ro_domain)) restored.(ro_derivation_index) |>
    <| ws_non_reuse_floor ::= fun f => N.max f restored.(ro_derivation_index) |>.

Lemma merge_unfold fresh r pos tip mat s :
  merge_restored_output fresh r pos tip mat s =
  match position (has_commitment r.(ro_commitment)) s.(ws_outputs) with
  | Some i => merge_known fresh i r pos tip mat (merge_floors r s)
  | None => merge_new fresh r pos tip mat (merge_floors r s)
  end.
Proof. reflexivity. Qed.

Lemma update_floor_idem d n f : update_floor d n (update_floor d n f) = update_floor d n f.
Proof. destruct d; simpl; f_equal; lia. Qed.

(** What a merge leaves behind: the output is known by its commitment, with
    its blinding, and its recovery record says the same. *)
Definition recovered (r : RestoredOutput) (pos : N) (s : WalletState) : Prop :=
  merge_floors r s = s
  /\ exists i o b m, position (has_commitment r.(ro_commitment)) s.(ws_outputs) = Some i
     /\ s.(ws_outputs) !! i = Some o /\ output_blinding s o.(out_id) = Some b
     /\ find_metadata s o.(out_id) = Some m /\ same_recovered o m b r pos = true.

Lemma recovered_stable r pos s fresh tip mat :
  recovered r pos s -> merge_restored_output fresh r pos tip mat s = (s, Ok tt).
Proof.
  intros (Hf & i & o & b & m & Hp & Hi & Hb & Hm & Hs). rewrite merge_unfold, Hp, Hf.
  unfold merge_known. rewrite Hi. unfold mthen, mread. rewrite Hb. simpl. rewrite Hm. by rewrite Hs.
Qed.

Lemma merge_floors_fixed r s :
  merge_floors r s = s <->
  update_floor (map_domain r.(ro_domain)) r.(ro_derivation_index) s.(ws_recovery_allocation_floors)
    = s.(ws_recovery_allocation_floors)
  /\ N.max s.(ws_non_reuse_floor) r.(ro_derivation_index) = s.(ws_non_reuse_floor).
Proof.
  unfold merge_floors. split.
  - intros H. split; [exact (f_equal ws_recovery_allocation_floors H)|exact (f_equal ws_non_reuse_floor H)].
  - destruct s. simpl. by intros [-> ->].
Qed.

Lemma merge_floors_idem r s : merge_floors r (merge_floors r s) = merge_floors r s.
Proof.
  unfold merge_floors. destruct s. simpl. f_equal; [lia|apply update_floor_idem].
Qed.

Lemma account_id_frame fresh account s s' r :
  account_id_for fresh account s = (s', r) ->
  s' = s <| ws_recovered_accounts := s'.(ws_recovered_accounts) |>.
Proof.
  unfold account_id_for. destruct (account =? 0); [intros [= <- _]; by destruct s|].
  destruct (find_first _ _); [intros [= <- _]; by destruct s|].
  destruct (_ <=? _); intros [= <- _]; by destruct s.
Qed.

Lemma find_first_snoc {A} (p : A -> bool) l x :
  find_first p l = None -> p x = true -> find_first p (l ++ [x]) = Some x.
Proof.
  induction l as [|y l IH]; simpl; [by intros _ ->|]. destruct (p y); [done|]. auto.
Qed.

Lemma position_snoc {A} (p : A -> bool) l x :
  position p l = None -> p x = true -> position p (l ++ [x]) = Some (length l).
Proof.
  induction l as [|y l IH]; simpl; [by intros _ ->|]. destruct (p y); [done|].
  intros H Hx. destruct (position p l); [done|]. by rewrite IH.
Qed.

Lemma position_insert {A} (p : A -> bool) l i x y :
  position p l = Some i -> l !! i = Some x -> p y = true -> position p (<[i := y]> l) = Some i.
Proof.
  intros [(x' & Hx & Hp) Hb]%position_Some Hi Hy. apply position_Some. split.
  - exists y. split; [|done]. apply list_lookup_insert_eq. by eapply lookup_lt_Some.
  - intros j z Hj Hz. rewrite list_lookup_insert_ne in Hz by lia. by eapply Hb.
Qed.

Lemma same_recovered_refl o r pos b id :
  o.(out_value) = r.(ro_value) -> o.(out_discovered_height) = r.(ro_block_height) ->
  b = r.(ro_blinding) -> same_recovered o (recovered_metadata id r pos) b r pos = true.
Proof.
  intros Hv Hd Hb. unfold same_recovered. rewrite Hv, Hd, Hb. simpl.
  by rewrite !N.eqb_refl, !bool_decide_eq_true_2.
Qed.

Lemma merge_known_recovered fresh i r pos tip mat s s' :
  position (has_commitment r.(ro_commitment)) s.(ws_outputs) = Some i ->
  merge_floors r s = s -> merge_known fresh i r pos tip mat s = (s', Ok tt) -> recovered r pos s'.
Proof.
  intros Hp Hf. unfold merge_known. destruct (ws_outputs s !! i) as [o|] eqn:Hi.
  2:{ apply position_Some in Hp as [(x & Hx & _) _]. congruence. }
  intros H. apply mthen_Ok in H as (s1 & b & H1 & H). injection H1 as <- H1. apply ok_or_Ok in H1.
  destruct (find_metadata s (out_id o)) as [m|] eqn:Hm.
  - injection H as <- H. apply fail_if_Ok in H. bool_inv. split; [done|]. by exists i, o, b, m.
  - apply mthen_Ok in H as (s2 & acc & Ha & H). apply account_id_frame in Ha.
    apply mthen_Ok in H as (s3 & [] & Hadopt & H). injection Hadopt as <- Hadopt.
    apply fail_if_Ok in Hadopt. apply mthen_Ok in H as (s4 & st & Hst & H). injection Hst as <- _.
    injection H as <-. unfold adoptable in Hadopt. bool_inv.
    split; [apply merge_floors_fixed in Hf as [F1 F2]; apply merge_floors_fixed; rewrite Ha;
      split; [exact F1|exact F2]|].
    set (o' := o <| out_discovered_height := r.(ro_block_height) |> <| out_state := st |>).
    exists i, o', b, (recovered_metadata (out_id o) r pos). rewrite Ha. simpl. split; [|split; [|split; [done|split]]].
    + apply (position_insert _ _ _ o); try done. exact (position_lookup _ _ _ _ Hp Hi).
    + apply list_lookup_insert_eq. by eapply lookup_lt_Some.
    + unfold find_metadata. simpl. apply find_first_snoc; [done|]. simpl. apply N.eqb_refl.
    + by apply same_recovered_refl.
Qed.

(** No recovery record names the identifier. *)
Definition fresh_output_id (id : uuid) (s : WalletState) : Prop := find_metadata s id = None.

Lemma merge_new_recovered fresh r pos tip mat s s' :
  position (has_commitment r.(ro_commitment)) s.(ws_outputs) = None ->
  fresh_output_id fresh.2 s ->
  merge_floors r s = s -> merge_new fresh r pos tip mat s = (s', Ok tt) -> recovered r pos s'.
Proof.
  intros Hp Hfr Hf H. unfold merge_new in H.
  apply mthen_Ok in H as (s2 & acc & Ha & H). apply account_id_frame in Ha.
  apply mthen_Ok in H as (s4 & st & Hst & H). injection Hst as <- _.
  set (o := mkOutputRecord fresh.2 acc (Some r.(ro_commitment)) r.(ro_value) st
              r.(ro_block_height) None).
  set (s3 := s2 <| ws_outputs ::= fun l => l ++ [o] |>).
  assert (E : s' = (remember_output_blinding fresh.2 r.(ro_blinding) s3)
    <| ws_recovered_output_metadata ::= fun l => l ++ [recovered_metadata fresh.2 r pos] |>)
    by (by injection H).
  rewrite E. clear E H.
  split.
  - apply merge_floors_fixed in Hf as [F1 F2]. apply merge_floors_fixed.
    rewrite remember_frame. unfold s3. rewrite Ha. split; [exact F1|exact F2].
  - exists (length s2.(ws_outputs)), o, r.(ro_blinding), (recovered_metadata fresh.2 r pos).
    rewrite (remember_frame fresh.2 (ro_blinding r) s3). simpl.
    assert (Ho : ws_outputs s2 = ws_outputs s) by (by rewrite Ha).
    assert (Hm : ws_recovered_output_metadata s2 = ws_recovered_output_metadata s) by (by rewrite Ha).
    split; [|split; [|split; [|split]]].
    + rewrite Ho. apply position_snoc; [done|]. by apply bool_decide_eq_true_2.
    + by apply list_lookup_middle.
    + pose proof (output_blinding_remember s3 fresh.2 (ro_blinding r) fresh.2) as Hb.
      rewrite N.eqb_refl in Hb. exact Hb.
    + unfold find_metadata. simpl. rewrite Hm. apply find_first_snoc; [exact Hfr|]. apply N.eqb_refl.
    + by apply same_recovered_refl.
Qed.

Lemma merge_recovered fresh r pos tip mat s s' :
  fresh_output_id fresh.2 s -> merge_restored_output fresh r pos tip mat s = (s', Ok tt) ->
  recovered r pos s'.
Proof.
  intros Hfr. rewrite merge_unfold. destruct (position _ _) as [i|] eqn:Hp; intros H.
  - eapply merge_known_recovered; [| |exact H]; [done|apply merge_floors_idem].
  - eapply merge_new_recovered; [| | |exact H]; [done|done|apply merge_floors_idem].
Qed.

(** ** Lemmas: floors *)

#[global] Instance floors_le_preorder : PreOrder floors_le.
Proof.
  split.
  - intros s. repeat split; intros; reflexivity.
  - intros a b c (H1 & H2 & H3) (H4 & H5 & H6). split; [lia|]. split; [lia|].
    intros class. specialize (H3 class). specialize (H6 class). lia.
Qed.

Lemma restoring_floors s s' : restoring s s' -> floors_le s s'.
Proof.
  intros H. pose proof (restoring_unrelated _ _ H) as E.
  pose proof (f_equal ws_allocation_floor E) as E1. pose proof (f_equal ws_non_reuse_floor E) as E2.
  pose proof (f_equal ws_recovery_allocation_floors E) as E3. simpl in E1, E2, E3.
  unfold floors_le. rewrite E1, E2, E3. repeat split; intros; reflexivity.
Qed.

Lemma merge_floors_le r s : floors_le s (merge_floors r s).
Proof.
  unfold merge_floors. split; [reflexivity|]. split; [simpl; lia|]. intros class. simpl.
  destruct (ro_domain r), class; simpl; lia.
Qed.

Lemma account_id_floors fresh a : moves floors_le (account_id_for fresh a).
Proof. intros s s' r H. apply account_id_frame in H as ->. repeat split; intros; reflexivity. Qed.

(** Follow every branch of a method to its final state. *)
Ltac run_method :=
  unfold mthen, mread, massign, mret in *;
  repeat match goal with
  | H : (_, _) = (_, _) |- _ => injection H; clear H; intros; subst
  | H : context [match ?x with _ => _ end] |- _ => destruct x eqn:?
  end.
Ltac floors_kept := repeat split; intros; reflexivity.

Lemma merge_known_floors fresh i r pos tip mat : moves floors_le (merge_known fresh i r pos tip mat).
Proof.
  intros s s' res H. unfold merge_known in H. run_method;
    repeat match goal with E : account_id_for _ _ _ = _ |- _ => apply account_id_floors in E end;
    try done; try floors_kept.
Qed.

Lemma merge_new_floors fresh r pos tip mat : moves floors_le (merge_new fresh r pos tip mat).
Proof.
  intros s s' res H. unfold merge_new in H. run_method;
    repeat match goal with E : account_id_for _ _ _ = _ |- _ => apply account_id_floors in E end;
    try done.
  etransitivity; [eassumption|]. rewrite remember_frame. floors_kept.
Qed.

Lemma merge_output_floors fresh r pos tip mat :
  moves floors_le (merge_restored_output fresh r pos tip mat).
Proof.
  intros s s' res. rewrite merge_unfold. intros H. transitivity (merge_floors r s).
  { apply merge_floors_le. }
  destruct (position _ _); [by eapply merge_known_floors|by eapply merge_new_floors].
Qed.

Lemma record_block_floors block : moves floors_le (record_block block).
Proof. intros s s' res H. unfold record_block in H. run_method; floors_kept. Qed.

Lemma spend_inputs_floors h inputs seen : moves floors_le (spend_inputs h inputs seen).
Proof.
  revert seen. induction inputs as [|x inputs IH]; intros seen s s' r H; cbn [spend_inputs] in H.
  - by injection H as <- _.
  - destruct (bool_decide _); [by injection H as <- _|].
    destruct (position _ _) as [i|]; [|by eapply IH].
    destruct (_ !! i) as [o|]; [|by injection H as <- _].
    destruct (spend_output h o) as [o' [u|e]].
    + etransitivity; [|by eapply IH]. floors_kept.
    + injection H as <- _. floors_kept.
Qed.

Lemma apply_blocks_floors blocks seen : moves floors_le (apply_blocks blocks seen).
Proof.
  revert seen. induction blocks as [|b blocks IH]; intros seen; simpl.
  - intros s s' r [= <- _]. done.
  - apply (moves_mthen floors_le); [apply record_block_floors|]. intros _.
    apply (moves_mthen floors_le); [apply spend_inputs_floors|auto].
Qed.

Lemma refresh_maturity_floors tip mat : moves floors_le (refresh_maturity tip mat).
Proof.
  intros s s' r. unfold refresh_maturity. destruct (for_each_mut _ _). intros [= <- _]. floors_kept.
Qed.

Lemma domain_floors {A} (m : method WalletState DErr.DomainError A) :
  moves restoring m -> moves floors_le (domain m).
Proof.
  intros Hm s s' r. unfold domain. destruct (m s) as [s1 r1] eqn:E. intros [= <- _].
  by eapply restoring_floors, Hm.
Qed.

Lemma migrate_counters_floors : moves floors_le migrate_durable_scan_counters.
Proof.
  intros s s' r H. unfold migrate_durable_scan_counters in H. run_method; floors_kept.
Qed.

Lemma prune_floors s : floors_le s (prune_recovery_canonical_window s).
Proof.
  unfold prune_recovery_canonical_window. destruct (last _); [|done].
  destruct (is_some_and _ _); [|done]. floors_kept.
Qed.

Lemma apply_batch_floors {seed : RecoverySeed} fresh fresh' mat batch :
  moves floors_le (apply_recovery_batch fresh fresh' mat batch).
Proof.
  unfold apply_recovery_batch.
  apply (moves_mthen floors_le); [apply (moves_mread floors_le)|]. intros restored.
  apply (moves_mthen floors_le).
  { apply (moves_mfor floors_le). intros [i r]. unfold merge_next. apply (moves_mthen floors_le).
    - apply (moves_mread floors_le).
    - intros pos. apply merge_output_floors. }
  intros _. apply (moves_mthen floors_le).
  { apply (moves_mfor floors_le). intros [i block]. apply (moves_mthen floors_le).
    - apply (moves_mread floors_le).
    - intros [[r pos]|]; [apply merge_output_floors|]. intros s s' res [= <- _]. done. }
  intros _. apply (moves_mthen floors_le); [apply migrate_counters_floors|].
  intros _. apply (moves_mthen floors_le); [apply apply_blocks_floors|].
  intros _. apply (moves_mthen floors_le).
  { apply moves_massign. intros s. etransitivity; [|apply prune_floors]. floors_kept. }
  intros _. apply (moves_mthen floors_le); [apply refresh_maturity_floors|].
  intros _. apply (moves_mthen floors_le); [apply domain_floors, restore_funding_moves|].
  intros _. apply domain_floors, restore_payout_moves.
Qed.

(** ** Lemmas: rewinding *)

(** Nothing about the output lies above [h]. *)
Definition below (h : N) (o : OutputRecord) : Prop :=
  o.(out_discovered_height) <= h /\ forall k, o.(out_state) = Out.Spent k -> k <= h.

Lemma outs_ext_below h l l' :
  outs_ext l l' -> (forall o, o ∈ l -> below h o) -> forall o, o ∈ l' -> below h o.
Proof.
  intros [_ H] Hl o' [i Hi]%list_elem_of_lookup. specialize (H i o' Hi).
  destruct (l !! i) as [o|] eqn:Ho.
  - apply list_elem_of_lookup_2, Hl in Ho as [Hd Hs].
    destruct H as (_ & _ & _ & _ & [-> | [E1 E2]]); [done|].
    split; [by rewrite E2|]. intros k. by rewrite E1.
  - destruct H as [Hs Hd]. split; [lia|]. intros k. by destruct Hs as [-> | ->].
Qed.

Lemma refresh_one_below h s tip mat o o' r :
  refresh_one s tip mat o = (o', r) -> below h o -> below h o'.
Proof.
  unfold refresh_one. destruct (Out.is_spent _); [by intros [= <- _]|].
  destruct (find_metadata _ _) as [m|]; [|by intros [= <- _]].
  destruct (rom_is_coinbase m).
  - destruct (checked_add _ _ _); [|by intros [= <- _]]. intros [= <- _] [Hd _].
    split; [done|]. intros k. simpl. by destruct (_ <? _).
  - intros [= <- _] [Hd _]. by split.
Qed.

Lemma rewind_projection_below h s o : o ∈ (rewind_projection h s).(ws_outputs) -> below h o.
Proof.
  simpl. intros (o0 & -> & Ho)%list_elem_of_fmap. apply list_elem_of_In, filter_In in Ho as [_ Hd].
  bool_inv. unfold unspend_above, below. destruct (out_state o0) as [| | | | |k] eqn:E;
    try (split; [done|intros k' E'; congruence]).
  destruct (h <? k) eqn:Hk; bool_inv; simpl; split; try done. intros k' E'.
  rewrite E in E'. injection E' as <-. lia.
Qed.

Lemma rewind_inv h tip s s' :
  rewind_recovery_state h tip s = (s', Ok tt) ->
  exists s1, refresh_maturity tip 0 (rewind_projection h s) = (s1, Ok tt)
  /\ rollback_confirmations_after_height h s1 = (s', Ok tt).
Proof.
  unfold rewind_recovery_state. intros H. apply mthen_Ok in H as (s0 & [] & H0 & H).
  injection H0 as <-. apply mthen_Ok in H as (s1 & [] & H1 & H). exists s1. split; [done|].
  unfold domain in H. destruct (rollback_confirmations_after_height h s1) as [s2 r].
  injection H as <- H. apply map_err_Ok in H. by rewrite H.
Qed.

Lemma refresh_frame tip mat s s' r :
  refresh_maturity tip mat s = (s', r) -> s' = s <| ws_outputs := s'.(ws_outputs) |>.
Proof. unfold refresh_maturity. destruct (for_each_mut _ _). by intros [= <- _]. Qed.

Lemma rollback_inv h s s' :
  rollback_confirmations_after_height h s = (s', Ok tt) ->
  restoring (s <| ws_transactions ::= map (reorged (confirmed_above h)) |>) s'.
Proof.
  unfold rollback_confirmations_after_height. intros (s1 & [] & H1 & H2)%mthen_Ok.
  rewrite reorg_transactions in H1.
  - injection H1 as <-. by eapply restore_reorged_moves.
  - intros t. unfold confirmed_above. by destruct (tx_lifecycle t).
Qed.

Lemma reorged_not_above h t : confirmed_above h (reorged (confirmed_above h) t) = false.
Proof. unfold reorged. destruct (confirmed_above h t) eqn:E; [done|exact E]. Qed.

(** ** Lemmas: the window and the counters *)

Definition recorded (b : CoreScanBlock) (r : RecoveryCanonicalBlock) : Prop :=
  r.(rcb_height) = b.(csb_height) /\ r.(rcb_block_hash) = b.(csb_block_hash)
  /\ r.(rcb_previous_block_hash) = b.(csb_previous_block_hash).

Definition sum_of (f : RecoveryCanonicalBlock -> N) (l : list RecoveryCanonicalBlock) : N :=
  foldr (fun b t => f b + t) 0 l.

Lemma saturating_fold f l acc :
  acc + sum_of f l <= u64_max ->
  fold_left (fun acc b => saturating_add u64_max acc (f b)) l acc = acc + sum_of f l.
Proof.
  revert acc. induction l as [|b l IH]; intros acc; simpl; [lia|]. intros H.
  assert (E : saturating_add u64_max acc (f b) = acc + f b) by (unfold saturating_add; lia).
  rewrite E, IH; lia.
Qed.

Lemma filter_app {A} (p : A -> bool) l k : List.filter p (l ++ k) = List.filter p l ++ List.filter p k.
Proof. induction l as [|x l IH]; simpl; [done|]. destruct (p x); simpl; by rewrite IH. Qed.

Lemma filter_all {A} (p : A -> bool) l : (forall x, x ∈ l -> p x = true) -> List.filter p l = l.
Proof.
  induction l as [|x l IH]; simpl; intros H; [done|]. rewrite (H x) by (left; done).
  rewrite IH; [done|]. intros y Hy. apply H. by right.
Qed.

Lemma filter_none {A} (p : A -> bool) l : (forall x, x ∈ l -> p x = false) -> List.filter p l = [].
Proof.
  induction l as [|x l IH]; simpl; intros H; [done|]. rewrite (H x) by (left; done).
  apply IH. intros y Hy. apply H. by right.
Qed.

(** What recording new blocks does to a state. *)
Definition recorded_state (s : WalletState) (news : list RecoveryCanonicalBlock) (s' : WalletState)
    : Prop :=
  s'.(ws_recovery_canonical_blocks) = s.(ws_recovery_canonical_blocks) ++ news
  /\ s'.(ws_recovery_scanned_blocks) = s.(ws_recovery_scanned_blocks) + sum_of (fun _ => 1) news
  /\ s'.(ws_recovery_scanned_outputs) = s.(ws_recovery_scanned_outputs) + sum_of rcb_output_count news
  /\ s'.(ws_legacy_proof_only_outputs)
     = s.(ws_legacy_proof_only_outputs) + sum_of rcb_legacy_proof_only_outputs news
  /\ (news <> [] -> s'.(ws_recovery_scanned_blocks) <= u64_max
      /\ s'.(ws_recovery_scanned_outputs) <= u64_max
      /\ s'.(ws_legacy_proof_only_outputs) <= u64_max).

Lemma record_block_new block s s' :
  record_block block s = (s', Ok tt) ->
  (forall b, b ∈ s.(ws_recovery_canonical_blocks) -> b.(rcb_height) <> block.(csb_height)) ->
  exists r, recorded block r /\ recorded_state s [r] s'.
Proof.
  intros H Hnew. unfold record_block in H.
  apply mthen_Ok in H as (s0 & legacy & H0 & H). injection H0 as <- _.
  destruct (find_first _ _) as [b|] eqn:Hf.
  { apply find_first_Some in Hf as [Hb E]. bool_inv. by apply Hnew in Hb. }
  apply mthen_Ok in H as (s1 & outs & H1 & H). injection H1 as <- _.
  apply mthen_Ok in H as (s2 & [] & H2 & H). injection H2 as <-.
  apply mthen_Ok in H as (s3 & n & H3 & H). injection H3 as <- H3.
  apply ok_or_Ok, checked_add_Some in H3 as [-> B3].
  apply mthen_Ok in H as (s4 & [] & H4 & H). injection H4 as <-.
  apply mthen_Ok in H as (s5 & m & H5 & H). injection H5 as <- H5.
  apply ok_or_Ok, checked_add_Some in H5 as [-> B5].
  apply mthen_Ok in H as (s6 & [] & H6 & H). injection H6 as <-.
  apply mthen_Ok in H as (s7 & l & H7 & H). injection H7 as <- H7.
  apply ok_or_Ok, checked_add_Some in H7 as [-> B7]. injection H as <-. simpl in *.
  exists (mkRecoveryCanonicalBlock block.(csb_height) block.(csb_block_hash)
            block.(csb_previous_block_hash) outs legacy).
  split; [done|]. unfold recorded_state. simpl. repeat split; try done; lia.
Qed.

Lemma sum_of_app f l k : sum_of f (l ++ k) = sum_of f l + sum_of f k.
Proof. induction l as [|x l IH]; simpl; [done|]. rewrite IH. lia. Qed.

Lemma record_blocks blocks s s' :
  mfor blocks record_block s = (s', Ok tt) ->
  NoDup (map csb_height blocks) ->
  (forall b r, b ∈ blocks -> r ∈ s.(ws_recovery_canonical_blocks) ->
     r.(rcb_height) <> b.(csb_height)) ->
  exists news, Forall2 recorded blocks news /\ recorded_state s news s'.
Proof.
  revert s. induction blocks as [|b blocks IH]; intros s H Hnd Hnew; simpl in H.
  - injection H as <-. exists []. split; [constructor|]. unfold recorded_state. simpl.
    rewrite app_nil_r. repeat split; try done; lia.
  - apply mthen_Ok in H as (s1 & [] & H1 & H). simpl in Hnd. apply NoDup_cons in Hnd as [Hb Hnd].
    apply record_block_new in H1 as (r & Hr & S1 & S2 & S3 & S4 & S5);
      [|intros r Hr; apply Hnew; [left|done]].
    apply IH in H as (news & Hf & T1 & T2 & T3 & T4 & T5); [|done|].
    + exists (r :: news). split; [by constructor|]. unfold recorded_state.
      rewrite T1, S1, <-app_assoc. split; [done|]. simpl in S2, S3, S4 |- *.
      split; [lia|]. split; [lia|]. split; [lia|]. intros _.
      destruct (decide (news = [])) as [->|Hne]; [|by apply T5].
      simpl in T2, T3, T4. destruct (S5 ltac:(done)) as (? & ? & ?). lia.
    + intros b' r' Hb' Hr'. rewrite S1 in Hr'. apply elem_of_app in Hr' as [Hr'|Hr'].
      * apply Hnew; [by right|done].
      * apply list_elem_of_singleton in Hr' as ->. destruct Hr as [-> _]. intros E. apply Hb.
        rewrite E. apply list_elem_of_fmap. by exists b'.
Qed.

(** ** Lemmas: merging several outputs *)

(** The identifier names no recovery record and no output. *)
Definition unused_id (s : WalletState) (id : uuid) : Prop :=
  fresh_output_id id s /\ id ∉ map out_id s.(ws_outputs).

Lemma merge_floors_covered r s :
  merge_floors r s = s <->
  r.(ro_derivation_index) <= s.(ws_non_reuse_floor)
  /\ update_floor (map_domain r.(ro_domain)) r.(ro_derivation_index) s.(ws_recovery_allocation_floors)
     = s.(ws_recovery_allocation_floors).
Proof. rewrite merge_floors_fixed. split; intros [H1 H2]; split; try done; lia. Qed.

Lemma update_floor_covered d n (f f' : RecoveryAllocationFloors) :
  update_floor d n f = f ->
  f.(raf_received) <= f'.(raf_received) -> f.(raf_change) <= f'.(raf_change) ->
  f.(raf_self_transfer) <= f'.(raf_self_transfer) -> f.(raf_coinbase) <= f'.(raf_coinbase) ->
  update_floor d n f' = f'.
Proof. destruct f, f', d; simpl; intros [= H] ? ? ? ?; f_equal; lia. Qed.

Lemma floors_le_covered r s s' : floors_le s s' -> merge_floors r s = s -> merge_floors r s' = s'.
Proof.
  intros (H1 & H2 & H3) [F1 F2]%merge_floors_covered. apply merge_floors_covered.
  split; [lia|]. apply (update_floor_covered _ _ _ _ F2).
  - exact (H3 ROC.ReceiveRequest).
  - exact (H3 ROC.Change).
  - exact (H3 ROC.SelfTransfer).
  - exact (H3 ROC.Coinbase).
Qed.


(** What one successful merge does to the outputs, blindings and records. *)
Inductive merged (id : uuid) (r : RestoredOutput) (s s' : WalletState) : Prop :=
| merged_known :
    s'.(ws_outputs) = s.(ws_outputs) ->
    s'.(ws_private_output_blindings) = s.(ws_private_output_blindings) ->
    s'.(ws_recovered_output_metadata) = s.(ws_recovered_output_metadata) ->
    merged id r s s'
| merged_adopted i o o' m :
    s.(ws_outputs) !! i = Some o -> fresh_output_id o.(out_id) s ->
    o'.(out_id) = o.(out_id) -> o'.(out_commitment) = o.(out_commitment) ->
    s'.(ws_outputs) = <[i := o']> s.(ws_outputs) ->
    s'.(ws_private_output_blindings) = s.(ws_private_output_blindings) ->
    s'.(ws_recovered_output_metadata) = s.(ws_recovered_output_metadata) ++ [m] ->
    m.(rom_output_id) = o.(out_id) -> merged id r s s'
| merged_new o m :
    s'.(ws_outputs) = s.(ws_outputs) ++ [o] -> o.(out_id) = id ->
    (forall id', id' <> id -> output_blinding s' id' = output_blinding s id') ->
    s'.(ws_recovered_output_metadata) = s.(ws_recovered_output_metadata) ++ [m] ->
    m.(rom_output_id) = id -> merged id r s s'.

Lemma merge_known_merged fresh i r pos tip mat s s' :
  merge_known fresh i r pos tip mat s = (s', Ok tt) -> merged fresh.2 r s s'.
Proof.
  unfold merge_known. destruct (ws_outputs s !! i) as [o|] eqn:Hi.
  2:{ intros [= <-]. by constructor 1. }
  intros H. apply mthen_Ok in H as (s1 & b & H1 & H). injection H1 as <- _.
  destruct (find_metadata s (out_id o)) as [m|] eqn:Hm.
  - injection H as <- _. by constructor 1.
  - apply mthen_Ok in H as (s2 & acc & Ha & H). apply account_id_frame in Ha.
    apply mthen_Ok in H as (s3 & [] & Hadopt & H). injection Hadopt as <- _.
    apply mthen_Ok in H as (s4 & st & Hst & H). injection Hst as <- _.
    injection H as <-. rewrite Ha.
    apply (merged_adopted fresh.2 r s _ i o
             (o <| out_discovered_height := r.(ro_block_height) |> <| out_state := st |>)
             (recovered_metadata o.(out_id) r pos)); done.
Qed.

Lemma merge_new_merged fresh r pos tip mat s s' :
  merge_new fresh r pos tip mat s = (s', Ok tt) -> merged fresh.2 r s s'.
Proof.
  unfold merge_new. intros H. apply mthen_Ok in H as (s2 & acc & Ha & H).
  apply account_id_frame in Ha. apply mthen_Ok in H as (s4 & st & Hst & H). injection Hst as <- _.
  set (o := mkOutputRecord fresh.2 acc (Some r.(ro_commitment)) r.(ro_value) st
              r.(ro_block_height) None).
  set (s3 := s2 <| ws_outputs ::= fun l => l ++ [o] |>).
  assert (E : s' = (remember_output_blinding fresh.2 r.(ro_blinding) s3)
    <| ws_recovered_output_metadata ::= fun l => l ++ [recovered_metadata fresh.2 r pos] |>)
    by (by injection H).
  clear H.
  apply (merged_new fresh.2 r s s' o (recovered_metadata fresh.2 r pos)); try done.
  - rewrite E, (remember_frame fresh.2 (ro_blinding r) s3). simpl. by rewrite Ha.
  - intros id' Hid. transitivity (output_blinding (remember_output_blinding fresh.2 (ro_blinding r) s3) id').
    { rewrite E. reflexivity. }
    rewrite output_blinding_remember. destruct (N.eqb_spec fresh.2 id'); [congruence|].
    unfold s3. rewrite Ha. reflexivity.
  - rewrite E, (remember_frame fresh.2 (ro_blinding r) s3). simpl. by rewrite Ha.
Qed.

Lemma merge_merged fresh r pos tip mat s s' :
  merge_restored_output fresh r pos tip mat s = (s', Ok tt) -> merged fresh.2 r s s'.
Proof.
  rewrite merge_unfold. intros H.
  assert (Hm : merged fresh.2 r (merge_floors r s) s').
  { destruct (position _ _); [by eapply merge_known_merged|by eapply merge_new_merged]. }
  destruct Hm; [by constructor 1|by econstructor 2|by econstructor 3].
Qed.

Lemma find_first_app_Some {A} (p : A -> bool) l k x :
  find_first p l = Some x -> find_first p (l ++ k) = Some x.
Proof. induction l as [|y l IH]; simpl; [done|]. destruct (p y); auto. Qed.

Lemma find_first_snoc_None {A} (p : A -> bool) l x :
  p x = false -> find_first p (l ++ [x]) = find_first p l.
Proof.
  intros Hx. induction l as [|y l IH]; simpl; [by rewrite Hx|]. by destruct (p y).
Qed.

Lemma position_app_Some {A} (p : A -> bool) l k i :
  position p l = Some i -> position p (l ++ k) = Some i.
Proof.
  revert i. induction l as [|y l IH]; simpl; [done|]. intros i. destruct (p y); [done|].
  destruct (position p l); [|done]. intros [= <-]. by rewrite (IH _ eq_refl).
Qed.

Lemma position_insert_same {A} (p : A -> bool) l j x y :
  l !! j = Some x -> p y = p x -> position p (<[j := y]> l) = position p l.
Proof.
  revert j. induction l as [|z l IH]; intros [|j]; simpl; try done.
  - intros [= ->] ->. done.
  - intros Hj E. by rewrite (IH j Hj E).
Qed.

Lemma recovered_merge r pos s id r' s' :
  recovered r pos s -> fresh_output_id id s -> merged id r' s s' -> floors_le s s' ->
  recovered r pos s'.
Proof.
  intros (Hf & i & o & b & m & Hp & Hi & Hb & Hm & Hs) Hid Hmerged Hfl.
  split; [by eapply floors_le_covered|]. unfold output_blinding, find_metadata in *.
  destruct Hmerged as [E1 E2 E3 | j x x' m' Hj Hx Eid Ecm E1 E2 E3 _ | x m' E1 _ E2 E3 _].
  - exists i, o, b, m. unfold output_blinding. rewrite E1, E2, E3. done.
  - exists i, o, b, m. unfold output_blinding. rewrite E1, E2, E3.
    assert (i <> j).
    { intros ->. assert (o = x) as -> by congruence. unfold fresh_output_id, find_metadata in Hx.
      congruence. }
    rewrite list_lookup_insert_ne by done. split; [|split; [done|split; [done|split; [|done]]]].
    + rewrite (position_insert_same _ _ j x x' Hj); [done|]. unfold has_commitment. by rewrite Ecm.
    + by apply find_first_app_Some.
  - exists i, o, b, m. rewrite E1, E3. split; [by apply position_app_Some|].
    split; [by apply lookup_app_l_Some|]. split; [|split; [by apply find_first_app_Some|done]].
    transitivity (output_blinding s (out_id o)); [apply E2|exact Hb].
    intros E. rewrite E in Hm. unfold fresh_output_id, find_metadata in Hid. congruence.
Qed.

Lemma unused_merge id' s id r s' :
  unused_id s id' -> id' <> id -> merged id r s s' -> unused_id s' id'.
Proof.
  intros [Hm Ho] Hne Hmerged. unfold unused_id, fresh_output_id, find_metadata in *.
  destruct Hmerged as [E1 E2 E3 | j x x' m' Hj Hx Eid Ecm E1 E2 E3 Em | x m' E1 Ex E2 E3 Em];
    rewrite E1, E3; [by split|..].
  - assert (Hne' : id' <> out_id x).
    { intros ->. apply Ho. apply list_elem_of_fmap. exists x. split; [done|].
      by eapply list_elem_of_lookup_2. }
    split.
    + rewrite find_first_snoc_None; [done|]. simpl. apply N.eqb_neq. congruence.
    + intros (y & -> & Hy)%list_elem_of_fmap. apply list_elem_of_lookup in Hy as [k Hk].
      destruct (decide (k = j)) as [->|Hk'].
      * rewrite list_lookup_insert_eq in Hk by (by eapply lookup_lt_Some).
        injection Hk as <-. congruence.
      * rewrite list_lookup_insert_ne in Hk by done. apply Ho, list_elem_of_fmap. exists y.
        split; [done|]. by eapply list_elem_of_lookup_2.
  - split.
    + rewrite find_first_snoc_None; [done|]. simpl. apply N.eqb_neq. congruence.
    + rewrite map_app. simpl. intros [Hy|Hy]%elem_of_app; [by apply Ho|].
      apply list_elem_of_singleton in Hy. congruence.
Qed.

Lemma merge_next_Ok fresh positions tip mat i r s s' :
  merge_next fresh positions tip mat (i, r) s = (s', Ok tt) ->
  exists pos, positions !! r.(ro_commitment) = Some pos
  /\ merge_restored_output (fresh i) r pos tip mat s = (s', Ok tt).
Proof.
  unfold merge_next. intros (s0 & pos & H0 & H)%mthen_Ok. injection H0 as <- H0.
  apply ok_or_Ok in H0. by exists pos.
Qed.

(** The output is recovered at the position the batch gives its commitment. *)
Definition recovered_at (positions : gmap bytes N) (s : WalletState) (r : RestoredOutput) : Prop :=
  exists pos, positions !! r.(ro_commitment) = Some pos /\ recovered r pos s.

Lemma merge_loop_recovered fresh positions tip mat items s s' :
  mfor items (merge_next fresh positions tip mat) s = (s', Ok tt) ->
  NoDup (map (fun x => (fresh x.1).2) items) ->
  Forall (fun x => unused_id s (fresh x.1).2) items ->
  forall r, recovered_at positions s r \/ r ∈ map snd items -> recovered_at positions s' r.
Proof.
  revert s. induction items as [|[i r] items IH]; intros s H Hnd Hun; simpl in H, Hnd.
  - injection H as <-. intros r [Hr|Hr]; [done|]. by apply not_elem_of_nil in Hr.
  - apply mthen_Ok in H as (s1 & [] & H1 & H). apply NoDup_cons in Hnd as [Hi Hnd].
    apply Forall_cons in Hun as [[Hm Ho] Hun]. apply merge_next_Ok in H1 as (pos & Hpos & H1).
    pose proof (merge_merged _ _ _ _ _ _ _ H1) as Hmerged.
    specialize (IH s1 H Hnd). simpl in Hm, Ho, Hi.
    assert (Hun1 : Forall (fun x => unused_id s1 (fresh x.1).2) items).
    { apply Forall_forall. intros x Hx. rewrite Forall_forall in Hun.
      apply (unused_merge _ s (fresh i).2 r); [by apply Hun| |done]. intros E. apply Hi.
      rewrite <-E. apply list_elem_of_fmap. by exists x. }
    intros r' [(pos' & Hpos' & Hr')|Hr']; apply (IH Hun1).
    + left. exists pos'. split; [done|]. eapply recovered_merge; [exact Hr'|exact Hm|exact Hmerged|].
      by eapply merge_output_floors.
    + simpl in Hr'. apply elem_of_cons in Hr' as [->|Hr']; [left|by right]. exists pos.
      split; [done|]. by eapply merge_recovered.
Qed.

Lemma merge_loop_stable fresh positions tip mat items s :
  Forall (recovered_at positions s) (map snd items) ->
  mfor items (merge_next fresh positions tip mat) s = (s, Ok tt).
Proof.
  induction items as [|[i r] items IH]; [done|]. simpl.
  intros [(pos & Hpos & Hr) Hrest]%Forall_cons. unfold mthen at 1, merge_next at 1, mthen at 1, mread.
  rewrite Hpos. simpl. rewrite (recovered_stable _ _ _ _ _ _ Hr). auto.
Qed.

Lemma NoDup_imap_pairs {A B} (f : nat -> B) (l : list A) :
  (forall i j, f i = f j -> i = j) -> NoDup (map (fun x => f x.1) (imap pair l)).
Proof.
  intros Hf. apply NoDup_alt. intros i j x. rewrite !list_lookup_fmap, !list_lookup_imap.
  destruct (l !! i), (l !! j); simpl; try done. intros [= E1] [= E2]. apply Hf. congruence.
Qed.

(** ** Lemmas: the canonical window *)

(** The recorded blocks are the same. *)
Definition same_blocks (s s' : WalletState) : Prop :=
  s'.(ws_recovery_canonical_blocks) = s.(ws_recovery_canonical_blocks).

#[global] Instance same_blocks_preorder : PreOrder same_blocks.
Proof. split; [done|]. intros a b c H1 H2. unfold same_blocks in *. congruence. Qed.

Lemma account_id_blocks fresh a : moves same_blocks (account_id_for fresh a).
Proof. intros s s' r H. by apply account_id_frame in H as ->. Qed.

Lemma merge_output_blocks fresh r pos tip mat :
  moves same_blocks (merge_restored_output fresh r pos tip mat).
Proof.
  intros s s' res. rewrite merge_unfold. intros H. transitivity (merge_floors r s); [done|].
  destruct (position _ _); unfold merge_known, merge_new in H; run_method;
    repeat match goal with E : account_id_for _ _ _ = _ |- _ => apply account_id_blocks in E end;
    try done.
  etransitivity; [eassumption|]. by rewrite remember_frame.
Qed.

Lemma spend_inputs_blocks h inputs seen : moves same_blocks (spend_inputs h inputs seen).
Proof.
  revert seen. induction inputs as [|x inputs IH]; intros seen s s' r H; cbn [spend_inputs] in H.
  - by injection H as <- _.
  - destruct (bool_decide _); [by injection H as <- _|].
    destruct (position _ _) as [i|]; [|by eapply IH].
    destruct (_ !! i) as [o|]; [|by injection H as <- _].
    destruct (spend_output h o) as [o' [u|e]].
    + etransitivity; [|by eapply IH]. done.
    + by injection H as <- _.
Qed.

Lemma refresh_maturity_blocks tip mat : moves same_blocks (refresh_maturity tip mat).
Proof. intros s s' r H. by apply refresh_frame in H as ->. Qed.

Lemma migrate_counters_blocks : moves same_blocks migrate_durable_scan_counters.
Proof. intros s s' r H. unfold migrate_durable_scan_counters in H. run_method; done. Qed.

Lemma domain_blocks {A} (m : method WalletState DErr.DomainError A) :
  moves restoring m -> moves same_blocks (domain m).
Proof.
  intros Hm s s' r. unfold domain. destruct (m s) as [s1 r1] eqn:E. intros [= <- _].
  apply Hm, restoring_unrelated in E. exact (f_equal ws_recovery_canonical_blocks E).
Qed.

(** The heights recorded by a state. *)
Definition heights (s : WalletState) : list N := map rcb_height s.(ws_recovery_canonical_blocks).

(** A block of the height and hash is recorded. *)
Definition has_block (l : list RecoveryCanonicalBlock) (b : CoreScanBlock) : Prop :=
  exists r, r ∈ l /\ r.(rcb_height) = b.(csb_height) /\ r.(rcb_block_hash) = b.(csb_block_hash).

(** Recorded blocks stay, one to a height. *)
Definition records (s s' : WalletState) : Prop :=
  (NoDup (heights s) -> NoDup (heights s'))
  /\ forall r, r ∈ s.(ws_recovery_canonical_blocks) -> r ∈ s'.(ws_recovery_canonical_blocks).

Lemma record_block_records block s s' :
  record_block block s = (s', Ok tt) ->
  records s s' /\ has_block s'.(ws_recovery_canonical_blocks) block.
Proof.
  intros H. destruct (find_first (fun b => rcb_height b =? csb_height block)
                                 (ws_recovery_canonical_blocks s)) as [r|] eqn:Hf.
  - pose proof H as H'. unfold record_block in H. apply mthen_Ok in H as (s0 & n & H0 & H).
    injection H0 as <- _. rewrite Hf in H. injection H as <- H. apply fail_if_Ok in H.
    apply find_first_Some in Hf as [Hr Hh]. bool_inv. split; [done|]. by exists r.
  - rewrite find_first_None in Hf. apply record_block_new in H as (r & Hr & E & _).
    2:{ intros b Hb. apply Hf in Hb. by bool_inv. }
    unfold records, heights. rewrite E. split.
    + split; [|intros x Hx; apply elem_of_app; by left]. rewrite map_app. intros Hnd.
      apply NoDup_app. split; [done|]. split; [|apply NoDup_singleton].
      intros x Hx Hx'. apply list_elem_of_singleton in Hx'. destruct Hr as (Hr & _).
      apply list_elem_of_fmap in Hx as (y & -> & Hy). apply Hf in Hy. bool_inv. congruence.
    + destruct Hr as (Hh & Hb & _). exists r. split; [|done]. apply elem_of_app. right. left.
Qed.

Lemma apply_blocks_records blocks seen s s' :
  apply_blocks blocks seen s = (s', Ok tt) ->
  records s s' /\ forall b, b ∈ blocks -> has_block s'.(ws_recovery_canonical_blocks) b.
Proof.
  revert seen s. induction blocks as [|b blocks IH]; intros seen s H; simpl in H.
  - injection H as <-. split; [done|]. intros b Hb. by apply not_elem_of_nil in Hb.
  - apply mthen_Ok in H as (s1 & [] & H1 & H). apply mthen_Ok in H as (s2 & seen' & H2 & H).
    apply record_block_records in H1 as [[R1 R2] Hb]. apply spend_inputs_blocks in H2.
    apply IH in H as [[R3 R4] Hbs]. unfold same_blocks, heights in *. rewrite H2 in R3, R4.
    split; [split; auto|]. intros b' [->|Hb']%elem_of_cons; [|auto].
    destruct Hb as (r & Hr & E). exists r. split; [auto|done].
Qed.

(** *** The stable sort *)

Definition block_le (a b : RecoveryCanonicalBlock) : Prop := a.(rcb_height) <= b.(rcb_height).

Lemma insert_block_perm b l : insert_block b l ≡ₚ b :: l.
Proof.
  induction l as [|x l IH]; simpl; [done|]. destruct (_ <? _); [done|]. rewrite IH. constructor.
Qed.

Lemma insert_block_sorted b l : StronglySorted block_le l -> StronglySorted block_le (insert_block b l).
Proof.
  induction l as [|x l IH]; simpl; intros H; [by repeat constructor|].
  apply StronglySorted_inv in H as [H Hx]. destruct (_ <? _) eqn:E; bool_inv.
  - constructor; [by constructor|]. constructor; [unfold block_le; lia|].
    eapply Forall_impl; [exact Hx|]. unfold block_le. intros; lia.
  - constructor; [auto|]. rewrite insert_block_perm. constructor; [done|exact Hx].
Qed.

Lemma sort_blocks_spec l : sort_blocks l ≡ₚ l /\ StronglySorted block_le (sort_blocks l).
Proof.
  unfold sort_blocks. assert (H : forall acc, StronglySorted block_le acc ->
    fold_left (fun acc b => insert_block b acc) l acc ≡ₚ l ++ acc
    /\ StronglySorted block_le (fold_left (fun acc b => insert_block b acc) l acc)).
  { induction l as [|x l IH]; intros acc Hacc; simpl; [done|].
    destruct (IH _ (insert_block_sorted x acc Hacc)) as [P S]. split; [|done].
    rewrite P, insert_block_perm. symmetry. apply Permutation_middle. }
  destruct (H [] ltac:(constructor)) as [P S]. rewrite app_nil_r in P. done.
Qed.

(** *** Pruning *)

Definition block_lt (a b : RecoveryCanonicalBlock) : Prop := a.(rcb_height) < b.(rcb_height).

Lemma sorted_strict l :
  StronglySorted block_le l -> NoDup (map rcb_height l) -> StronglySorted block_lt l.
Proof.
  induction 1 as [|x l H IH Hx]; simpl; intros Hnd; [constructor|].
  apply NoDup_cons in Hnd as [Hn Hnd]. constructor; [auto|]. apply Forall_forall. intros y Hy.
  rewrite Forall_forall in Hx. specialize (Hx y Hy). unfold block_le, block_lt in *.
  destruct (N.eq_dec (rcb_height x) (rcb_height y)) as [E|]; [|lia]. exfalso. apply Hn.
  rewrite E. apply list_elem_of_fmap. by exists y.
Qed.

Lemma sorted_last_max l z x :
  StronglySorted block_le l -> last l = Some z -> x ∈ l -> x.(rcb_height) <= z.(rcb_height).
Proof.
  induction 1 as [|y l H IH Hy]; intros Hl Hx; [done|]. rewrite Forall_forall in Hy.
  destruct l as [|y' l].
  - simpl in Hl. injection Hl as <-. by apply list_elem_of_singleton in Hx as ->.
  - assert (Hz : z ∈ y' :: l) by (by apply last_Some_elem_of).
    apply elem_of_cons in Hx as [->|Hx]; [by apply Hy|]. by apply IH.
Qed.

Lemma filter_sorted {A} (R : A -> A -> Prop) p l : StronglySorted R l -> StronglySorted R (List.filter p l).
Proof.
  induction 1 as [|x l H IH Hx]; simpl; [constructor|]. destruct (p x); [|done]. constructor; [done|].
  rewrite Forall_forall in *. intros y Hy. apply list_elem_of_In, List.filter_In in Hy as [Hy _].
  apply Hx. by apply list_elem_of_In.
Qed.

Lemma prune_window s z :
  StronglySorted block_le s.(ws_recovery_canonical_blocks) ->
  last s.(ws_recovery_canonical_blocks) = Some z ->
  (prune_recovery_canonical_window s).(ws_recovery_canonical_blocks)
  = List.filter (fun b => z.(rcb_height) <=? b.(rcb_height) + 2047) s.(ws_recovery_canonical_blocks).
Proof.
  intros Hs Hz. unfold prune_recovery_canonical_window. rewrite Hz.
  change (saturating_sub RECOVERY_CANONICAL_WINDOW_BLOCKS 1) with 2047.
  destruct (is_some_and _ _) eqn:E; simpl.
  - apply List.filter_ext. intros b. unfold saturating_sub. apply eq_true_iff_eq.
    rewrite !N.leb_le. lia.
  - symmetry. apply filter_all. intros x Hx. apply N.leb_le.
    destruct (ws_recovery_canonical_blocks s) as [|y l] eqn:El; [done|]. simpl in E.
    unfold saturating_sub in E. bool_inv. apply StronglySorted_inv in Hs as [_ Hy].
    rewrite Forall_forall in Hy. apply elem_of_cons in Hx as [->|Hx]; [lia|].
    specialize (Hy x Hx). unfold block_le in Hy. lia.
Qed.

(** Strictly increasing heights within [n] of one another are at most [n + 1]. *)
Lemma sorted_span_length n l :
  StronglySorted block_lt l ->
  (forall a b, a ∈ l -> b ∈ l -> a.(rcb_height) <= b.(rcb_height) + N.of_nat n) ->
  (length l <= S n)%nat.
Proof.
  intros Hs Hspan. destruct l as [|x l]; [simpl; lia|].
  assert (H : forall k y l, StronglySorted block_lt (y :: l) ->
    (forall b, b ∈ l -> b.(rcb_height) <= y.(rcb_height) + N.of_nat k) -> (length l <= k)%nat).
  { clear. induction k as [|k IH]; intros y [|z l] H Hb; simpl; try lia.
    - apply StronglySorted_inv in H as [_ Hy]. apply Forall_cons in Hy as [Hz _].
      specialize (Hb z ltac:(left)). unfold block_lt in Hz. lia.
    - apply StronglySorted_inv in H as [H Hy]. apply Forall_cons in Hy as [Hz _].
      apply le_n_S, (IH z); [done|]. intros b Hl. specialize (Hb b ltac:(by right)).
      unfold block_lt in Hz. lia. }
  apply le_n_S, (H n x); [done|]. intros b Hb. apply Hspan; [by right|left].
Qed.

Lemma canonical_window l s (k := prune_recovery_canonical_window (s <| ws_recovery_canonical_blocks := sort_blocks l |>)) :
  NoDup (map rcb_height l) ->
  StronglySorted block_lt k.(ws_recovery_canonical_blocks)
  /\ (forall a b, a ∈ k.(ws_recovery_canonical_blocks) -> b ∈ k.(ws_recovery_canonical_blocks) ->
        a.(rcb_height) <= b.(rcb_height) + 2047)
  /\ forall r, r ∈ l -> r ∈ k.(ws_recovery_canonical_blocks)
        \/ exists r', r' ∈ k.(ws_recovery_canonical_blocks) /\ r.(rcb_height) + 2047 < r'.(rcb_height).
Proof.
  intros Hnd. destruct (sort_blocks_spec l) as [P S].
  assert (Hlt : StronglySorted block_lt (sort_blocks l)) by (apply sorted_strict; [done|by rewrite P]).
  destruct (last (sort_blocks l)) as [z|] eqn:Hz.
  2:{ apply last_None in Hz. rewrite Hz in P. apply Permutation_nil in P. subst l.
      split; [constructor|]. split; [intros a b H|intros r H]; by apply not_elem_of_nil in H. }
  assert (E := prune_window (s <| ws_recovery_canonical_blocks := sort_blocks l |>) z S Hz).
  fold k in E. simpl in E. rewrite E.
  assert (Hin : forall x, x ∈ List.filter (fun b => rcb_height z <=? rcb_height b + 2047) (sort_blocks l)
            <-> x ∈ l /\ rcb_height z <= rcb_height x + 2047).
  { intros x. rewrite list_elem_of_In, List.filter_In, <-list_elem_of_In, P, N.leb_le. done. }
  assert (Hmax : forall x, x ∈ l -> rcb_height x <= rcb_height z).
  { intros x Hx. eapply sorted_last_max; [exact S|done|by rewrite P]. }
  split; [by apply filter_sorted|]. split.
  - intros a b [Ha _]%Hin [_ Hb]%Hin. specialize (Hmax a Ha). lia.
  - intros r Hr. destruct (decide (rcb_height z <= rcb_height r + 2047)) as [Hle|Hgt].
    + left. by apply Hin.
    + right. exists z. split; [|lia]. apply Hin. split; [|lia]. rewrite <-P.
      by apply last_Some_elem_of.
Qed.

(** ** Theorems *)

(** C33 Recovery is complete and idempotent: once the outputs restored from a
    batch have been merged, each is known by its commitment with its value,
    height, blinding and a recovery record at its position in the batch, the
    allocation floors cover its derivation index, and merging the same outputs
    again, at any later tip and with any identifiers, succeeds and changes
    nothing. *)
Theorem merging_is_complete_and_idempotent fresh positions tip mat restored s s'
    (Hmerge : mfor (imap pair restored) (merge_next fresh positions tip mat) s = (s', Ok tt))
    (Hfresh : forall i j, (fresh i).2 = (fresh j).2 -> i = j)
    (Hunused : forall i, unused_id s (fresh i).2) :
  (forall r, r ∈ restored -> exists o pos m,
     o ∈ s'.(ws_outputs) /\ o.(out_commitment) = Some r.(ro_commitment)
     /\ o.(out_value) = r.(ro_value) /\ o.(out_discovered_height) = r.(ro_block_height)
     /\ output_blinding s' o.(out_id) = Some r.(ro_blinding)
     /\ positions !! r.(ro_commitment) = Some pos
     /\ find_metadata s' o.(out_id) = Some m
     /\ m.(rom_output_position) = pos /\ m.(rom_derivation_index) = r.(ro_derivation_index)
     /\ r.(ro_derivation_index) <= s'.(ws_non_reuse_floor))
  /\ forall fresh' tip' mat',
       mfor (imap pair restored) (merge_next fresh' positions tip' mat') s' = (s', Ok tt).
Proof.
  assert (Hsnd : map snd (imap (@pair nat RestoredOutput) restored) = restored)
    by (apply list_eq; intros i; rewrite list_lookup_fmap, list_lookup_imap;
        by destruct (restored !! i)).
  assert (Hall : forall r, r ∈ restored -> recovered_at positions s' r).
  { intros r Hr. eapply merge_loop_recovered; [exact Hmerge| | |right; by rewrite Hsnd].
    - apply (NoDup_imap_pairs (fun i => (fresh i).2) restored Hfresh).
    - apply Forall_forall. intros [i x] _. apply Hunused. }
  split.
  - intros r Hr. destruct (Hall r Hr) as (pos & Hpos & Hf & i & o & b & m & Hp & Hi & Hb & Hm & Hs).
    exists o, pos, m. pose proof (position_lookup _ _ _ _ Hp Hi) as Hc.
    unfold has_commitment in Hc. unfold same_recovered in Hs. bool_inv.
    apply merge_floors_covered in Hf as [Hf _]. subst b.
    split; [by eapply list_elem_of_lookup_2|]. done.
  - intros fresh' tip' mat'. apply merge_loop_stable. rewrite Hsnd. by apply Forall_forall.
Qed.

Lemma same_blocks_moves_batch {seed : RecoverySeed} fresh fresh' mat batch s s' :
  apply_recovery_batch fresh fresh' mat batch s = (s', Ok tt) ->
  exists s1 s2, same_blocks s s1
  /\ apply_blocks batch.(cb_blocks) ∅ s1 = (s2, Ok tt)
  /\ same_blocks (prune_recovery_canonical_window
                    (s2 <| ws_recovery_canonical_blocks ::= sort_blocks |>)) s'.
Proof.
  unfold apply_recovery_batch. intros (s0 & restored & H0 & H)%mthen_Ok. injection H0 as <- _.
  apply mthen_Ok in H as (s1 & [] & H1 & H). apply mthen_Ok in H as (s2 & [] & H2 & H).
  apply mthen_Ok in H as (s3 & [] & H3 & H). apply mthen_Ok in H as (s4 & [] & H4 & H).
  apply mthen_Ok in H as (s5 & [] & H5 & H). injection H5 as <-.
  apply mthen_Ok in H as (s6 & [] & H6 & H). apply mthen_Ok in H as (s7 & [] & H7 & H8).
  exists s3, s4. split; [|split; [exact H4|]].
  - transitivity s1; [|transitivity s2; [|by eapply migrate_counters_blocks]].
    + revert H1. apply (moves_mfor same_blocks). intros [i r]. apply (moves_mthen same_blocks).
      * apply (moves_mread same_blocks).
      * intros pos. apply merge_output_blocks.
    + revert H2. apply (moves_mfor same_blocks). intros [i b]. apply (moves_mthen same_blocks).
      * apply (moves_mread same_blocks).
      * intros [[r pos]|]; [apply merge_output_blocks|]. by intros ? ? ? [= <- _].
  - transitivity s6; [by eapply refresh_maturity_blocks|]. transitivity s7.
    + eapply domain_blocks; [apply restore_funding_moves|exact H7].
    + eapply domain_blocks; [apply restore_payout_moves|exact H8].
Qed.

(** The canonical window: after a batch the recorded blocks are in strictly
    increasing height, at most 2048, and all within 2047 heights of one
    another; every block of the batch and every block recorded before is
    among them, unless it is more than 2047 heights below one that is. *)
Theorem batches_keep_the_canonical_window {seed : RecoverySeed} fresh fresh' mat batch s s'
    (Hbatch : apply_recovery_batch fresh fresh' mat batch s = (s', Ok tt))
    (Hheights : NoDup (heights s))
    (l := s'.(ws_recovery_canonical_blocks)) :
  StronglySorted block_lt l
  /\ (length l <= 2048)%nat
  /\ (forall a b, a ∈ l -> b ∈ l -> a.(rcb_height) <= b.(rcb_height) + 2047)
  /\ (forall b, b ∈ batch.(cb_blocks) ->
        has_block l b \/ exists r, r ∈ l /\ b.(csb_height) + 2047 < r.(rcb_height))
  /\ forall r, r ∈ s.(ws_recovery_canonical_blocks) ->
        r ∈ l \/ exists r', r' ∈ l /\ r.(rcb_height) + 2047 < r'.(rcb_height).
Proof.
  apply same_blocks_moves_batch in Hbatch as (s1 & s2 & E1 & H & E2).
  apply apply_blocks_records in H as [[R1 R2] Hall]. unfold heights, same_blocks in *.
  rewrite E1 in R1, R2. set (bs := ws_recovery_canonical_blocks s2) in *.
  assert (El : l = ws_recovery_canonical_blocks
    (prune_recovery_canonical_window (s2 <| ws_recovery_canonical_blocks := sort_blocks bs |>)))
    by exact E2.
  destruct (canonical_window bs s2 (R1 Hheights)) as (W1 & W2 & W3). rewrite <-El in W1, W2, W3.
  split; [done|]. split; [by apply (sorted_span_length 2047)|]. split; [done|]. split.
  - intros b Hb. destruct (Hall b Hb) as (r & Hr & Hh & Hhash).
    destruct (W3 r Hr) as [Hl|(r' & Hl & Hlt)]; [left; by exists r|right].
    exists r'. split; [done|]. lia.
  - intros r Hr. auto.
Qed.

Lemma rollback_floors safe : moves floors_le (rollback_confirmations_after_height safe).
Proof.
  unfold rollback_confirmations_after_height. apply (moves_mthen floors_le).
  - intros s s' r H. unfold on_transactions in H. destruct (for_each_mut _ _).
    injection H as <- _. floors_kept.
  - intros _ s s' r H. by eapply restoring_floors, restore_reorged_moves.
Qed.

(** Recovery never gives a coordinate back: neither a recovered batch nor a
    rewind, whatever their result, lowers the allocation floor, the non-reuse
    floor or a floor of a recovery domain. *)
Theorem recovery_never_lowers_floors {seed : RecoverySeed} fresh fresh' mat batch safe tip s :
  floors_le s (apply_recovery_batch fresh fresh' mat batch s).1
  /\ floors_le s (rewind_recovery_state safe tip s).1.
Proof.
  split.
  - destruct (apply_recovery_batch fresh fresh' mat batch s) as [s' r] eqn:E.
    by eapply apply_batch_floors.
  - destruct (rewind_recovery_state safe tip s) as [s' r] eqn:E. simpl. revert s s' r E.
    unfold rewind_recovery_state. apply (moves_mthen floors_le).
    { apply moves_massign. intros s. floors_kept. }
    intros _. apply (moves_mthen floors_le); [apply refresh_maturity_floors|]. intros _.
    unfold domain. intros s0 s0' r.
    destruct (rollback_confirmations_after_height safe s0) as [s1 r1] eqn:E. intros [= <- _].
    by eapply rollback_floors.
Qed.

(** The same output, found at the same height. *)
Definition still_there (o o' : OutputRecord) : Prop :=
  o'.(out_id) = o.(out_id) /\ o'.(out_account_id) = o.(out_account_id)
  /\ o'.(out_commitment) = o.(out_commitment) /\ o'.(out_value) = o.(out_value)
  /\ o'.(out_discovered_height) = o.(out_discovered_height).

Lemma refresh_one_still s tip mat o o' r : refresh_one s tip mat o = (o', r) -> still_there o o'.
Proof.
  unfold refresh_one. destruct (Out.is_spent _); [by intros [= <- _]|].
  destruct (find_metadata _ _) as [m|]; [|by intros [= <- _]].
  destruct (rom_is_coinbase m); [|by intros [= <- _]].
  destruct (checked_add _ _ _); by intros [= <- _].
Qed.

Lemma refresh_outputs tip mat s s' r :
  refresh_maturity tip mat s = (s', r) ->
  Forall2 (fun o o' => still_there o o' /\ forall h, below h o -> below h o')
          s.(ws_outputs) s'.(ws_outputs).
Proof.
  unfold refresh_maturity. destruct (for_each_mut _ _) as [outs r'] eqn:E. intros [= <- _]. simpl.
  revert E. apply for_each_mut_Forall2; [done|]. intros o o' r0 H.
  split; [by eapply refresh_one_still|]. intros h. by eapply refresh_one_below.
Qed.

Lemma unspend_still h o : still_there o (unspend_above h o).
Proof. unfold unspend_above. destruct (out_state o); try done. by destruct (_ <? _). Qed.

(** A rewind erases what was learnt above the safe height and nothing else:
    afterwards no output was found or spent above it, no recorded block and
    no confirmation is above it, and the recovery records are those of the
    outputs kept; every output found at or below it is still there with its
    identity, value and height. *)
Theorem rewind_erases_history_above h tip s s'
    (Hrewind : rewind_recovery_state h tip s = (s', Ok tt)) :
  (forall o, o ∈ s'.(ws_outputs) -> below h o)
  /\ s'.(ws_recovery_canonical_blocks)
     = List.filter (fun b => b.(rcb_height) <=? h) s.(ws_recovery_canonical_blocks)
  /\ s'.(ws_transactions) = map (reorged (confirmed_above h)) s.(ws_transactions)
  /\ (forall t, t ∈ s'.(ws_transactions) -> confirmed_above h t = false)
  /\ (forall m, m ∈ s'.(ws_recovered_output_metadata) <->
        m ∈ s.(ws_recovered_output_metadata)
        /\ forall o, o ∈ s.(ws_outputs) -> o.(out_id) = m.(rom_output_id) ->
             o.(out_discovered_height) <= h)
  /\ (forall o, o ∈ s.(ws_outputs) -> o.(out_discovered_height) <= h ->
        exists o', o' ∈ s'.(ws_outputs) /\ o'.(out_id) = o.(out_id)
        /\ o'.(out_commitment) = o.(out_commitment) /\ o'.(out_value) = o.(out_value)
        /\ o'.(out_discovered_height) = o.(out_discovered_height)).
Proof.
  apply rewind_inv in Hrewind as (s1 & H1 & H2). apply rollback_inv in H2.
  pose proof (refresh_outputs _ _ _ _ _ H1) as Houts. apply refresh_frame in H1.
  pose proof (restoring_unrelated _ _ H2) as Hu.
  pose proof (f_equal ws_recovery_canonical_blocks Hu) as Eb.
  pose proof (f_equal ws_transactions Hu) as Et.
  pose proof (f_equal ws_recovered_output_metadata Hu) as Em. simpl in Eb, Et, Em.
  rewrite H1 in Eb, Et, Em. simpl in Eb, Et, Em. clear Hu H1.
  pose proof (restoring_outputs _ _ H2) as Hext. simpl in Hext.
  split; [|split; [done|split; [done|split; [|split]]]].
  - apply (outs_ext_below _ _ _ Hext). intros o (i & Hi)%list_elem_of_lookup.
    destruct (Forall2_lookup_r _ _ _ _ _ Houts Hi) as (o0 & Hi0 & _ & Hb).
    apply Hb, (rewind_projection_below h s). by eapply list_elem_of_lookup_2.
  - rewrite Et. intros t (t0 & -> & _)%list_elem_of_fmap. apply reorged_not_above.
  - intros m. rewrite Em, list_elem_of_In, List.filter_In, <-list_elem_of_In, negb_true_iff,
      bool_decide_eq_false. split; intros [Hm Hk]; (split; [done|]).
    + intros o Ho Eid. destruct (decide (out_discovered_height o <= h)); [done|]. exfalso. apply Hk.
      rewrite <-Eid. apply list_elem_of_fmap. exists o. split; [done|].
      apply list_elem_of_In, List.filter_In. split; [by apply list_elem_of_In|]. apply N.ltb_lt. lia.
    + intros (o & Eid & Ho)%list_elem_of_fmap. apply list_elem_of_In, List.filter_In in Ho as [Ho Hh].
      apply list_elem_of_In in Ho. bool_inv. specialize (Hk o Ho (eq_sym Eid)). lia.
  - intros o Ho Hd. assert (Ho1 : unspend_above h o ∈ (rewind_projection h s).(ws_outputs)).
    { simpl. apply list_elem_of_fmap. exists o. split; [done|]. apply list_elem_of_In, List.filter_In.
      split; [by apply list_elem_of_In|]. by apply N.leb_le. }
    apply list_elem_of_lookup in Ho1 as [i Hi].
    destruct (Forall2_lookup_l _ _ _ _ _ Houts Hi) as (o1 & Hi1 & S1 & _).
    pose proof (unspend_still h o) as S0. destruct Hext as [Hlen Hext].
    assert (Hlt : (i < length (ws_outputs s'))%nat) by (apply lookup_lt_Some in Hi1; lia).
    apply lookup_lt_is_Some in Hlt as [o' Ho']. specialize (Hext i o' Ho'). rewrite Hi1 in Hext.
    exists o'. split; [by eapply list_elem_of_lookup_2|].
    destruct S0 as (A1 & _ & A3 & A4 & A5), S1 as (B1 & _ & B3 & B4 & B5),
      Hext as (C1 & _ & C3 & C4 & C5).
    split; [congruence|]. split; [congruence|]. split; [congruence|].
    destruct C5 as [-> | [_ C5]]; congruence.
Qed.

(** A rewind undoes recording exactly: for blocks above the safe height,
    recorded one after the other on a state whose blocks are at or below it,
    the rewind gives back the recorded blocks and all three durable counters
    as they were before. *)
Theorem rewind_undoes_recording h blocks s s'
    (Hrecord : mfor blocks record_block s = (s', Ok tt))
    (Hdistinct : NoDup (map csb_height blocks))
    (Habove : forall b, b ∈ blocks -> h < b.(csb_height))
    (Hbelow : forall r, r ∈ s.(ws_recovery_canonical_blocks) -> r.(rcb_height) <= h)
    (s'' := rewind_projection h s') :
  s''.(ws_recovery_canonical_blocks) = s.(ws_recovery_canonical_blocks)
  /\ s''.(ws_recovery_scanned_blocks) = s.(ws_recovery_scanned_blocks)
  /\ s''.(ws_recovery_scanned_outputs) = s.(ws_recovery_scanned_outputs)
  /\ s''.(ws_legacy_proof_only_outputs) = s.(ws_legacy_proof_only_outputs).
Proof.
  destruct (record_blocks _ _ _ Hrecord Hdistinct) as (news & Hnews & E1 & E2 & E3 & E4 & Hmax).
  { intros b r Hb Hr. specialize (Habove b Hb). specialize (Hbelow r Hr). lia. }
  assert (Hup : forall r, r ∈ news -> h < r.(rcb_height)).
  { intros r [i Hi]%list_elem_of_lookup.
    destruct (Forall2_lookup_r _ _ _ _ _ Hnews Hi) as (b & Hb & Hh & _). rewrite Hh.
    apply Habove. by eapply list_elem_of_lookup_2. }
  assert (Hf : List.filter (rewound h) (ws_recovery_canonical_blocks s') = news).
  { rewrite E1, filter_app, filter_none, filter_all; [done|..]; intros r Hr; unfold rewound.
    - apply N.ltb_lt. auto.
    - apply N.ltb_ge. auto. }
  assert (Htotal : forall f, sum_of f news <= u64_max ->
            rewound_total f h (ws_recovery_canonical_blocks s') = sum_of f news).
  { intros f Hle. unfold rewound_total. rewrite Hf. apply (saturating_fold f news 0). lia. }
  unfold s''. simpl. split.
  - rewrite E1, filter_app, filter_all, filter_none, app_nil_r; [done|..]; intros r Hr.
    + apply N.leb_gt. auto.
    + apply N.leb_le. auto.
  - destruct (decide (news = [])) as [En|Hne].
    + rewrite !Htotal by (rewrite En; simpl; lia). rewrite E2, E3, E4, En. simpl.
      unfold saturating_sub. split; [lia|]. split; lia.
    + destruct (Hmax Hne) as (M1 & M2 & M3). rewrite !Htotal by lia. rewrite E2, E3, E4.
      unfold saturating_sub. split; [lia|]. split; lia.
Qed.

(** The state [refresh_maturity] gives an output. *)
Definition refreshed (s : WalletState) (tip mat : N) (o : OutputRecord) : Out.OutputState :=
  match o.(out_state), find_metadata s o.(out_id) with
  | Out.Spent h, _ => Out.Spent h
  | state, None => state
  | _, Some m => if m.(rom_is_coinbase) && (tip <? o.(out_discovered_height) + mat)
                 then Out.Immature (o.(out_discovered_height) + mat) else Out.Confirmed
  end.

Lemma refresh_one_Ok s tip mat o o' :
  refresh_one s tip mat o = (o', Ok tt) -> o' = o <| out_state := refreshed s tip mat o |>.
Proof.
  unfold refresh_one, refreshed. destruct (Out.is_spent (out_state o)) eqn:Hs.
  - intros [= <-]. destruct o as [? ? ? ? st ? ?]. simpl in *. by destruct st.
  - destruct (find_metadata s (out_id o)) as [m|].
    + destruct (rom_is_coinbase m); simpl.
      * destruct (checked_add _ _ _) as [h|] eqn:E; [|done]. apply checked_add_Some in E as [-> _].
        intros [= <-]. by destruct (out_state o).
      * intros [= <-]. by destruct (out_state o).
    + intros [= <-]. destruct o as [? ? ? ? st ? ?]. simpl in *. by destruct st.
Qed.

(** Maturity is exact: a refresh changes nothing but the state of outputs,
    in place; spent and unrecorded outputs stay as they are, a recovered
    coinbase is immature exactly below its discovered height plus the maturity,
    and every other recovered output becomes [Confirmed] -- also one that a
    transaction holds, which the balance then counts as spendable although
    coin selection may not use it. *)
Theorem refresh_maturity_exact tip mat s s'
    (Hrefresh : refresh_maturity tip mat s = (s', Ok tt)) :
  s' = s <| ws_outputs ::= map (fun o => o <| out_state := refreshed s tip mat o |>) |>
  /\ forall o owner m, o ∈ s.(ws_outputs) -> o.(out_state) = Out.PendingOutgoing ->
       o.(out_reserved_by) = Some owner -> find_metadata s o.(out_id) = Some m ->
       m.(rom_is_coinbase) = false ->
       exists o', o' ∈ s'.(ws_outputs) /\ o' = o <| out_state := Out.Confirmed |>
       /\ selectable o' = false.
Proof.
  assert (E : s' = s <| ws_outputs ::= map (fun o => o <| out_state := refreshed s tip mat o |>) |>).
  { unfold refresh_maturity in Hrefresh. destruct (for_each_mut _ _) as [outs r] eqn:E.
    injection Hrefresh as <- ->.
    assert (Ho : outs = map (fun o => o <| out_state := refreshed s tip mat o |>) (ws_outputs s)).
    { apply list_eq. intros i. rewrite list_lookup_fmap.
      destruct (ws_outputs s !! i) as [o|] eqn:Hi.
      - destruct (for_each_mut_Ok _ _ _ _ _ _ E Hi) as (o' & Ho & Hi'). rewrite Hi'. simpl.
        by rewrite (refresh_one_Ok _ _ _ _ _ Ho).
      - simpl. apply lookup_ge_None_2. apply lookup_ge_None_1 in Hi.
        apply for_each_mut_Forall2 with (R := fun _ _ => True) in E; [|done..].
        by rewrite <-(Forall2_length _ _ _ E). }
    rewrite Ho. by destruct s. }
  split; [exact E|]. intros o owner m Ho Hs Hr Hm Hc. exists (o <| out_state := Out.Confirmed |>).
  split; [|split; [done|unfold selectable; simpl; by rewrite Hr]].
  rewrite E. simpl. apply list_elem_of_fmap. exists o. split; [|done].
  unfold refreshed. by rewrite Hs, Hm, Hc.
Qed.

(** ** Witnesses *)

Definition sample_scan_block (h : N) (b : Byte.byte) : CoreScanBlock :=
  mkCoreScanBlock h (sample_bytes 32 b) (zeros 32) [] 1000 (sample_bytes 32 b)
    [mkCoreScanOutput (sample_bytes 33 b) [] [b] 1 false h (sample_bytes 32 b) 0] [] [] []
    (mkCoreCoinbaseMetadata (sample_bytes 33 Byte.x70) 50 [] 1 [] [] []) 0 2 1.
Definition sample_batch : CoreScanBatch :=
  mkCoreScanBatch (mkBlockReference 3 (sample_bytes 32 Byte.x83))
    [sample_scan_block 2 Byte.x82; sample_scan_block 3 Byte.x83] None.

(** A seed that recovers every output with a capsule. *)
Definition sample_restored (o : ScanOutput) : RestoredOutput :=
  mkRestoredOutput o.(so_commitment) 500 (sample_bytes 32 Byte.x71) 0 o.(so_block_height)
    ORD.Received o.(so_block_height) o.(so_block_hash) false None.
#[global] Instance sample_seed : RecoverySeed := {|
  restore_canonical_scan := fun blocks =>
    Ok (map sample_restored (List.filter (fun o => negb (is_empty o.(so_recovery_capsule)))
                                         (concat (map sbk_outputs blocks))));
  legacy_coinbase_blinding := fun _ => None;
  blinding_factor_from_bytes := fun b => Some b;
  commitment_commit := fun _ b => b;
|}.

Definition sample_fresh (base : N) (i : nat) : uuid * uuid := (base, base + 1 + N.of_nat i).
Definition recovering_wallet : WalletState :=
  fresh_wallet <| ws_recovery_canonical_blocks := [mkRecoveryCanonicalBlock 1 (sample_bytes 32 Byte.x81)
                                                     (zeros 32) 4 1] |>
               <| ws_recovery_scanned_blocks := 1 |> <| ws_recovery_scanned_outputs := 4 |>
               <| ws_legacy_proof_only_outputs := 1 |>.
Definition recovered_wallet : WalletState :=
  (apply_recovery_batch (sample_fresh 100) (sample_fresh 200) 10 sample_batch recovering_wallet).1.
Example recovered_values :
  map (fun o => (out_value o, out_state o, out_discovered_height o)) recovered_wallet.(ws_outputs)
  = [(500, Out.Confirmed, 2); (500, Out.Confirmed, 3)].
Proof. vm_compute. reflexivity. Qed.

Definition sample_outputs : list RestoredOutput :=
  match restore_canonical_scan (map to_core_block sample_batch.(cb_blocks)) with
  | Ok l => l
  | Err _ => []
  end.
Definition sample_positions : gmap bytes N := output_positions sample_batch.(cb_blocks).
Definition merged_wallet : WalletState :=
  (mfor (imap pair sample_outputs) (merge_next (sample_fresh 100) sample_positions 3 10)
        recovering_wallet).1.

Lemma merging_is_complete_and_idempotent_witness :
  length merged_wallet.(ws_outputs) = 2%nat
  /\ mfor (imap pair sample_outputs) (merge_next (sample_fresh 900) sample_positions 50 1) merged_wallet
     = (merged_wallet, Ok tt).
Proof.
  destruct (merging_is_complete_and_idempotent (sample_fresh 100) sample_positions 3 10 sample_outputs
              recovering_wallet merged_wallet) as [_ H].
  - vm_compute. reflexivity.
  - intros i j. unfold sample_fresh. simpl. lia.
  - intros i. split; [reflexivity|]. apply not_elem_of_nil.
  - split; [vm_compute; reflexivity|]. apply H.
Defined.

Definition recorded_wallet : WalletState :=
  (mfor sample_batch.(cb_blocks) record_block recovering_wallet).1.

(** A page without blocks arrives while a transaction holds both outputs: the
    balance counts them as spendable, coin selection skips them. *)
Definition empty_page : CoreScanBatch :=
  mkCoreScanBatch (mkBlockReference 3 (sample_bytes 32 Byte.x83)) [] None.
Definition paying_wallet : WalletState :=
  recovered_wallet <| ws_outputs ::= map (fun o => o <| out_state := Out.PendingOutgoing |>
                                                    <| out_reserved_by := Some 21 |>) |>.
Definition refreshed_wallet : WalletState :=
  (apply_recovery_batch (sample_fresh 300) (sample_fresh 400) 10 empty_page paying_wallet).1.
Example reserved_outputs_count_as_spendable :
  (balance paying_wallet).(bal_spendable) = 0 /\ (balance refreshed_wallet).(bal_spendable) = 1000
  /\ existsb selectable refreshed_wallet.(ws_outputs) = false.
Proof. vm_compute. repeat split; reflexivity. Qed.
