(* ===== verification/Storage.v ===== *)
(** * The wallet directory

    crates/dom-wallet-storage/src/lib.rs: numbered, encrypted generations, the
    pointer to the active one and the metadata file.  A disk is the root's files
    and the generation directories, each with its state file; paths, links and
    permissions are not modelled.  Every file-system call consumes one [Fault]: it
    may fail before or after it took effect, so a run with faults ends in every
    disk that a crash at some call could leave behind.  The temporary files of an
    interrupted write are not modelled: no reader looks at them.  JSON is code of
    another repository and makes the class [StateCode]. *)

From stdpp Require Import sorting.
From S2P Require Import Prelude Bytes DomainTypes Lifecycle WalletOps Reservations Validation Envelope.

(** [StorageError], without the sizes of [StateTooLarge]; an I/O error is kept by
    the kinds that [StorageFailure::classify] tells apart. *)
Module StErr.
Inductive IoKind := Interrupted | TimedOut | WouldBlock | OtherKind.
Inductive StorageError :=
| AlreadyExists
| NotFound
| UnsafePath
| WriterActive
| InvalidPassword
| AuthenticationDataCorrupt
| AuthenticatedPayloadCorrupt
| InvalidMetadata
| UnsupportedVersion
| InvalidActiveGeneration
| GenerationConflict
| ExpectedGenerationConflict (current : N)
| IdentityMismatch
| GenerationAlreadyExists
| IncompleteGeneration
| GenerationOverflow
| FileSizeOutOfBounds
| StateTooLarge
| BackupDestinationExists
| InvalidBackup
| UnsupportedBackupVersion
| Clock
| CanonicalEncoding
| Crypto (e : CrErr.CryptoError)
| Domain (e : DErr.DomainError)
| Io (kind : IoKind).
End StErr.


(** ** The file system *)

Definition METADATA_FILE : string := "metadata.json".
Definition ACTIVE_FILE : string := "active-generation".
Definition AUTHENTICATION_FILE : string := "authentication.envelope".
Definition AUTHENTICATION_PLAINTEXT : bytes := str "DOM-WALLET-V3-PASSWORD-CHECK-V1".
Definition RESCAN_PLAN_FILE : string := "rescan-plan.envelope".
Definition PRE_MIGRATION_SNAPSHOT_FILE : string := "pre-migration-snapshot".
Definition PRE_MIGRATION_NONE : bytes := str "none".
Definition PRE_MIGRATION_RELEASED : bytes := str "released".
Definition MAX_AUXILIARY_FILE_BYTES : N := 16 * 1024 * 1024.
Definition MAX_STATE_ENVELOPE_BYTES : N := MAX_ENVELOPE_BYTES.
Definition RETAIN_SUPERSEDED_GENERATIONS : nat := 1.

(** The files of the root, and the generation directories with the content of
    their state file, [None] when they have none. *)
Record Disk := mkDisk {
  dk_files : gmap string bytes;
  dk_generations : gmap bytes (option bytes);
}.

Definition put_file (name : string) (b : bytes) (d : Disk) : Disk :=
  mkDisk (<[name := b]> d.(dk_files)) d.(dk_generations).
Definition drop_file (name : string) (d : Disk) : Disk :=
  mkDisk (delete name d.(dk_files)) d.(dk_generations).
Definition put_generation (name : bytes) (content : option bytes) (d : Disk) : Disk :=
  mkDisk d.(dk_files) (<[name := content]> d.(dk_generations)).
Definition drop_generation (name : bytes) (d : Disk) : Disk :=
  mkDisk d.(dk_files) (delete name d.(dk_generations)).

Inductive Fault :=
| Fine
| Before (kind : StErr.IoKind)
| After (kind : StErr.IoKind).

(** Calls beyond the list are fine. *)
Record World := mkWorld {
  w_disk : Disk;
  w_faults : list Fault;
}.
Definition io (A : Type) : Type := method World StErr.StorageError A.

(** A call that changes the disk by [f], and one that reads it. *)
Definition act (f : Disk -> Disk) : io unit := fun w =>
  match w.(w_faults) with
  | [] => (mkWorld (f w.(w_disk)) [], Ok tt)
  | Fine :: faults => (mkWorld (f w.(w_disk)) faults, Ok tt)
  | Before kind :: faults => (mkWorld w.(w_disk) faults, Err (StErr.Io kind))
  | After kind :: faults => (mkWorld (f w.(w_disk)) faults, Err (StErr.Io kind))
  end.
Definition look {A} (f : Disk -> result StErr.StorageError A) : io A := fun w =>
  match w.(w_faults) with
  | [] => (w, f w.(w_disk))
  | Fine :: faults => (mkWorld w.(w_disk) faults, f w.(w_disk))
  | (Before kind | After kind) :: faults => (mkWorld w.(w_disk) faults, Err (StErr.Io kind))
  end.
(** [path.exists()] hides errors. *)
Definition exists_ (f : Disk -> bool) : io bool := fun w =>
  match look (fun d => Ok (f d)) w with
  | (w, Ok b) => (w, Ok b)
  | (w, Err _) => (w, Ok false)
  end.
Definition lift {A} (r : result StErr.StorageError A) : io A := mread (fun _ => r).

Definition crypto {A} (r : result CrErr.CryptoError A) : result StErr.StorageError A :=
  match r with Ok a => Ok a | Err e => Err (StErr.Crypto e) end.
Definition domain_error {A} (r : result DErr.DomainError A) : result StErr.StorageError A :=
  match r with Ok a => Ok a | Err e => Err (StErr.Domain e) end.

Definition read_bounded_with_limit (file : Disk -> option bytes) (max_bytes : N) : io bytes :=
  look (fun d =>
    let? b := ok_or (file d) (StErr.Io StErr.OtherKind) in
    fail_if (is_empty b || (max_bytes <? len b)) StErr.FileSizeOutOfBounds ;? Ok b).
Definition root_file (name : string) (d : Disk) : option bytes := d.(dk_files) !! name.
Definition read_bounded (name : string) : io bytes :=
  read_bounded_with_limit (root_file name) MAX_AUXILIARY_FILE_BYTES.
Definition sync_directory : io unit := act (fun d => d).

(** A temporary file is written, renamed over the path and the directory
    synced. *)
Definition atomic_write_private (name : string) (b : bytes) (max_bytes : N) : io unit :=
  lift (fail_if (is_empty b || (max_bytes <? len b)) StErr.FileSizeOutOfBounds) ;;;
  act (fun d => d) ;;;
  act (put_file name b) ;;;
  sync_directory.
Definition atomic_write (name : string) (b : bytes) : io unit :=
  atomic_write_private name b MAX_AUXILIARY_FILE_BYTES.

(** Removing a generation directory takes its state file first. *)
Definition remove_generation_dir (name : bytes) : io unit :=
  act (put_generation name None) ;;;
  act (drop_generation name).

(** [fs::rename] of a directory with a state file: it replaces nothing but an
    empty directory. *)
Definition rename_generation_dir (name : bytes) (b : bytes) : io unit :=
  look (fun d => match d.(dk_generations) !! name with
                 | Some (Some _) => Err (StErr.Io StErr.OtherKind)
                 | _ => Ok tt
                 end) ;;;
  act (put_generation name (Some b)).

(** ** Names, contexts and metadata *)

Inductive StateEncoding := CompactV2 | LegacyV1.
#[global] Instance StateEncoding_eq_dec : EqDecision StateEncoding.
Proof. solve_decision. Defined.

Definition envelope_version (e : StateEncoding) : N :=
  match e with CompactV2 => ENVELOPE_VERSION | LegacyV1 => ENVELOPE_VERSION_LEGACY_V1 end.
Definition from_envelope_version (version : N) : option StateEncoding :=
  if version =? ENVELOPE_VERSION then Some CompactV2
  else if version =? ENVELOPE_VERSION_LEGACY_V1 then Some LegacyV1
  else None.

Record WalletMetadata := mkWalletMetadata {
  wm_metadata_version : N;
  wm_wallet_id : uuid;
  wm_identity : NetworkIdentity;
  wm_schema_version : N;
  wm_secret_profile_version : N;
  wm_active_generation : N;
}.
Definition WalletMetadata_from_state (state : WalletState) : WalletMetadata :=
  mkWalletMetadata 1 state.(ws_wallet_id) state.(ws_identity) MODEL_VERSION SECRET_PROFILE_VERSION
    state.(ws_generation).

(** [format!("generation-{generation:020}")] *)
Definition generation_name (generation : N) : bytes :=
  let digits := show generation in
  str "generation-" ++ replicate (20 - length digits) Byte.x30 ++ digits.
Definition parse_generation (value : bytes) : result StErr.StorageError N :=
  let? digits := ok_or (strip_prefix (str "generation-") value) StErr.InvalidActiveGeneration in
  ok_or (parse_uint u64_max digits) StErr.InvalidActiveGeneration.

Definition identity_context (label : bytes) (wallet_id : uuid) (identity : NetworkIdentity) : bytes :=
  label ++ uuid_as_bytes wallet_id ++ identity.(ni_chain_id) ++ identity.(ni_genesis_id).
Definition state_context (wallet_id : uuid) (identity : NetworkIdentity) (generation : N) : bytes :=
  identity_context (str "DOM-WALLET-V3-STATE-V1") wallet_id identity ++ le_bytes 8 generation.
Definition authentication_context : uuid -> NetworkIdentity -> bytes :=
  identity_context (str "DOM-WALLET-V3-AUTH-V1").
Definition rescan_context : uuid -> NetworkIdentity -> bytes :=
  identity_context (str "DOM-WALLET-V3-RESCAN-V1").

(** [serde_json] on the persisted types, and the cargo feature that compiles the
    legacy writer. *)
Class StateCode := {
  state_to_json : WalletState -> option bytes;
  state_from_json : bytes -> option WalletState;
  metadata_to_json : WalletMetadata -> option bytes;
  metadata_from_json : bytes -> option WalletMetadata;
  plan_to_json : RescanPlan -> option bytes;
  plan_from_json : bytes -> option RescanPlan;
  legacy_writer : bool;
}.

(** [text.find(pattern)], the text before the match and the text after it. *)
Fixpoint find_pattern (pattern text before : bytes) : option (bytes * bytes) :=
  match strip_prefix pattern text with
  | Some rest => Some (before, rest)
  | None => match text with
            | [] => None
            | b :: text => find_pattern pattern text (before ++ [b])
            end
  end.
Fixpoint take_while (p : Byte.byte -> bool) (l : bytes) : bytes :=
  match l with
  | [] => []
  | b :: l => if p b then b :: take_while p l else []
  end.
(** The JSON around the version number, with its quotes. *)
Definition quoted (s : string) : bytes := Byte.x22 :: str s ++ [Byte.x22].
Definition VERSION_KEY : bytes := quoted "envelope_version" ++ str ":".
Definition HEADER_START : bytes := str "{" ++ quoted "header" ++ str ":{" ++ quoted "magic" ++ str ":[".

(** ** Operations *)

Section directory.
Context {code : CryptoCode} {json : StateCode}.

Definition state_file (generation : N) (d : Disk) : option bytes :=
  match d.(dk_generations) !! generation_name generation with
  | Some content => content
  | None => None
  end.
Definition has_generation (generation : N) (d : Disk) : bool :=
  is_some (d.(dk_generations) !! generation_name generation).
Definition has_file (name : string) (d : Disk) : bool := is_some (d.(dk_files) !! name).
Definition read_state_envelope (generation : N) : io bytes :=
  read_bounded_with_limit (state_file generation) MAX_STATE_ENVELOPE_BYTES.

Definition metadata_check (b : bytes) : result StErr.StorageError WalletMetadata :=
  let? m := ok_or (metadata_from_json b) StErr.InvalidMetadata in
  fail_if (negb (m.(wm_metadata_version) =? 1) || negb (m.(wm_schema_version) =? MODEL_VERSION)
           || negb (m.(wm_secret_profile_version) =? SECRET_PROFILE_VERSION))
          StErr.UnsupportedVersion ;?
  Ok m.
Definition metadata : io WalletMetadata :=
  let! b := read_bounded METADATA_FILE in lift (metadata_check b).

(** The bytes of the pointer, as text: what is not UTF-8 has no name either. *)
Definition active_generation : io N :=
  let! b := read_bounded ACTIVE_FILE in
  lift (fail_if (negb (is_utf8 b)) StErr.InvalidActiveGeneration) ;;;
  lift (parse_generation b).

Definition authenticate_password (password : bytes) (m : WalletMetadata) : io bool :=
  let! present := exists_ (has_file AUTHENTICATION_FILE) in
  if negb present then mret false else
  fun w => match read_bounded AUTHENTICATION_FILE w with
  | (w, Err _) => (w, Err StErr.AuthenticationDataCorrupt)
  | (w, Ok encoded) =>
      (w, let? e := map_err (decode encoded) StErr.AuthenticationDataCorrupt in
          let? plaintext := match open e password (authentication_context m.(wm_wallet_id)
                                                     m.(wm_identity)) with
                            | Ok plaintext => Ok plaintext
                            | Err CrErr.AuthenticationFailed => Err StErr.InvalidPassword
                            | Err _ => Err StErr.AuthenticationDataCorrupt
                            end in
          fail_if (negb (bool_decide (plaintext = AUTHENTICATION_PLAINTEXT)))
                  StErr.AuthenticationDataCorrupt ;?
          Ok true)
  end.

Definition write_authenticator (random : option (bytes * bytes)) (password : bytes)
    (m : WalletMetadata) (kdf : KdfParameters) : io unit :=
  let! present := exists_ (has_file AUTHENTICATION_FILE) in
  if present : bool then mret tt else
  let! e := lift (crypto (seal random AUTHENTICATION_PLAINTEXT password
                            (authentication_context m.(wm_wallet_id) m.(wm_identity)) kdf)) in
  let! encoded := lift (crypto (encode e)) in
  atomic_write_private AUTHENTICATION_FILE encoded MAX_AUXILIARY_FILE_BYTES.

(** The bytes of a generation as a state; the body of [load_generation] after
    its read. *)
Definition open_generation (generation : N) (password : bytes) (m : WalletMetadata)
    (password_authenticated : bool) (encoded : bytes) : result StErr.StorageError WalletState :=
  let? e := map_err (decode encoded) StErr.AuthenticatedPayloadCorrupt in
  let? plaintext := match open e password (state_context m.(wm_wallet_id) m.(wm_identity) generation) with
                    | Ok plaintext => Ok plaintext
                    | Err error =>
                        Err (if password_authenticated then StErr.AuthenticatedPayloadCorrupt
                             else if bool_decide (error = CrErr.AuthenticationFailed)
                             then StErr.InvalidPassword else StErr.AuthenticatedPayloadCorrupt)
                    end in
  let? state := ok_or (state_from_json plaintext) StErr.AuthenticatedPayloadCorrupt in
  let '(state, r) := migrate_transaction_exposure state in
  let? _ := domain_error r in
  Ok state.
Definition load_generation (generation : N) (password : bytes) (m : WalletMetadata)
    (password_authenticated : bool) : io WalletState :=
  let! encoded := read_state_envelope generation in
  lift (open_generation generation password m password_authenticated encoded).

Definition same_wallet (generation : N) (m : WalletMetadata) (state : WalletState) : bool :=
  (state.(ws_generation) =? generation) && (state.(ws_wallet_id) =? m.(wm_wallet_id))
  && bool_decide (state.(ws_identity) = m.(wm_identity)).

(** The metadata file of an interrupted publication is one generation behind. *)
Definition interrupted (m : WalletMetadata) (active : N) : bool :=
  match checked_add u64_max m.(wm_active_generation) 1 with
  | Some next => next =? active
  | None => false
  end.

Definition write_metadata (state : WalletState) : io unit :=
  let! b := lift (ok_or (metadata_to_json (WalletMetadata_from_state state)) StErr.CanonicalEncoding) in
  atomic_write METADATA_FILE b ;;;
  sync_directory.

(** [load]; [random] is for the authenticator, if it has to be written. *)
Definition load (random : option (bytes * bytes)) (password : bytes) : io WalletState :=
  let! m := metadata in
  let! password_authenticated := authenticate_password password m in
  let! active := active_generation in
  let interrupted_publication := interrupted m active in
  lift (fail_if (negb (active =? m.(wm_active_generation)) && negb interrupted_publication)
                StErr.GenerationConflict) ;;;
  let! state := load_generation active password m password_authenticated in
  lift (fail_if (negb (same_wallet active m state)) StErr.GenerationConflict) ;;;
  lift (domain_error (WalletState_validate state)) ;;;
  (if interrupted_publication then write_metadata state else mret tt) ;;;
  (if password_authenticated : bool then mret tt
   else write_authenticator random password m DOM_CONTINUITY) ;;;
  mret state.

Definition load_generation_for_recovery (generation : N) (password : bytes) : io WalletState :=
  let! m := metadata in
  let! password_authenticated := authenticate_password password m in
  let! state := load_generation generation password m password_authenticated in
  lift (fail_if (negb (same_wallet generation m state)) StErr.GenerationConflict) ;;;
  lift (domain_error (WalletState_validate state)) ;;;
  mret state.

(** The bytes of a new generation: the part of [write_generation] that
    serialises, seals and encodes. *)
Definition generation_bytes (random : option (bytes * bytes)) (state : WalletState)
    (password : bytes) (kdf : KdfParameters) (encoding : StateEncoding)
    : result StErr.StorageError bytes :=
  let? plaintext := ok_or (state_to_json state) StErr.CanonicalEncoding in
  fail_if (max_plaintext_bytes (envelope_version encoding) <? len plaintext) StErr.StateTooLarge ;?
  let context := state_context state.(ws_wallet_id) state.(ws_identity) state.(ws_generation) in
  let? e := match encoding with
            | CompactV2 => crypto (seal random plaintext password context kdf)
            | LegacyV1 => if legacy_writer
                          then crypto (seal_legacy_v1 random plaintext password context kdf)
                          else Err StErr.UnsupportedVersion
            end in
  match encode e with
  | Ok encoded => Ok encoded
  | Err CrErr.EnvelopeTooLarge => Err StErr.StateTooLarge
  | Err error => Err (StErr.Crypto error)
  end.

(** [write_generation]; the staging directory is created, filled and synced, then
    renamed. *)
Definition write_generation (random : option (bytes * bytes)) (state : WalletState)
    (password : bytes) (kdf : KdfParameters) (encoding : StateEncoding) : io unit :=
  look (fun _ => Ok tt) ;;;
  let! present := exists_ (has_generation state.(ws_generation)) in
  lift (fail_if present StErr.GenerationAlreadyExists) ;;;
  act (fun d => d) ;;;
  let! encoded := lift (generation_bytes random state password kdf encoding) in
  lift (fail_if (is_empty encoded || (MAX_STATE_ENVELOPE_BYTES <? len encoded))
                StErr.FileSizeOutOfBounds) ;;;
  act (fun d => d) ;;;
  sync_directory ;;;
  rename_generation_dir (generation_name state.(ws_generation)) encoded ;;;
  sync_directory.

Definition remove_unpublished_generation (generation : N) : io unit :=
  let! present := exists_ (has_generation generation) in
  if negb present then mret tt else
  look (fun _ => Ok tt) ;;;
  look (fun d => fail_if (negb (is_some (state_file generation d))) (StErr.Io StErr.OtherKind)) ;;;
  let! encoded := read_state_envelope generation in
  lift (fail_if (negb (is_ok (decode encoded))) StErr.AuthenticatedPayloadCorrupt) ;;;
  remove_generation_dir (generation_name generation) ;;;
  sync_directory.

Definition publish_pointer_and_metadata (state : WalletState) : io unit :=
  atomic_write ACTIVE_FILE (generation_name state.(ws_generation)) ;;;
  write_metadata state.

Definition generation_encoding (generation : N) : io StateEncoding :=
  let! encoded := read_state_envelope generation in
  lift (let? version := map_err (peek_envelope_version encoded) StErr.AuthenticatedPayloadCorrupt in
        ok_or (from_envelope_version version) StErr.UnsupportedVersion).
Definition active_state_encoding : io StateEncoding :=
  let! active := active_generation in generation_encoding active.

(** The encoding the first bytes of an envelope show, if they are conclusive. *)
Definition encoding_of_prefix (prefix : bytes) : option StateEncoding :=
  match find_pattern VERSION_KEY prefix [] with
  | None => None
  | Some (before, rest) =>
      match parse_uint u16_max (take_while is_ascii_digit rest) with
      | None => None
      | Some version =>
          match from_envelope_version version with
          | None => None
          | Some encoding => if starts_with HEADER_START before then Some encoding else None
          end
      end
  end.
Definition generation_encoding_hint (generation : N) : io StateEncoding :=
  let! b := look (fun d => ok_or (state_file generation d) (StErr.Io StErr.OtherKind)) in
  match encoding_of_prefix (take 256 b) with
  | Some encoding => mret encoding
  | None => generation_encoding generation
  end.

(** The read is optional: an error only means that the marker is written. *)
Definition record_pre_migration_snapshot (staged_generation : N) : io unit :=
  let! staged := generation_encoding_hint staged_generation in
  if negb (bool_decide (staged = CompactV2)) then mret tt else
  let! active := active_generation in
  let! superseded := (if active =? staged_generation then mret CompactV2
                      else generation_encoding_hint active) in
  if negb (bool_decide (superseded = LegacyV1)) then
    let! present := exists_ (has_file PRE_MIGRATION_SNAPSHOT_FILE) in
    if present : bool then mret tt
    else atomic_write PRE_MIGRATION_SNAPSHOT_FILE PRE_MIGRATION_NONE
  else
    let marker := generation_name active in
    let! same := exists_ (fun d => bool_decide (root_file PRE_MIGRATION_SNAPSHOT_FILE d = Some marker)) in
    if same : bool then mret tt else atomic_write PRE_MIGRATION_SNAPSHOT_FILE marker.

Definition pre_migration_snapshot_generation : io (option N) :=
  let! present := exists_ (has_file PRE_MIGRATION_SNAPSHOT_FILE) in
  if negb present then mret None else
  let! text := read_bounded PRE_MIGRATION_SNAPSHOT_FILE in
  lift (fail_if (negb (is_utf8 text)) StErr.InvalidMetadata) ;;;
  if bool_decide (text = PRE_MIGRATION_NONE) || bool_decide (text = PRE_MIGRATION_RELEASED)
  then mret None
  else
    let! generation := lift (parse_generation text) in
    let! present := exists_ (has_generation generation) in
    mret (if present : bool then Some generation else None).

Definition release_pre_migration_snapshot : io unit :=
  let! active := active_generation in
  let! snapshot := pre_migration_snapshot_generation in
  match snapshot with
  | None => mret tt
  | Some generation =>
      lift (fail_if (generation =? active) StErr.GenerationConflict) ;;;
      atomic_write PRE_MIGRATION_SNAPSHOT_FILE PRE_MIGRATION_RELEASED ;;;
      remove_generation_dir (generation_name generation) ;;;
      sync_directory
  end.

Definition stage_generation_with_encoding (random : option (bytes * bytes))
    (expected_generation : N) (state : WalletState) (password : bytes) (kdf : KdfParameters)
    (encoding : StateEncoding) : io WalletState :=
  let! m := metadata in
  let! active := active_generation in
  lift (fail_if (negb (active =? expected_generation)
                 || negb (m.(wm_active_generation) =? expected_generation))
                (StErr.ExpectedGenerationConflict active)) ;;;
  lift (fail_if (negb (state.(ws_wallet_id) =? m.(wm_wallet_id))
                 || negb (bool_decide (state.(ws_identity) = m.(wm_identity))))
                StErr.IdentityMismatch) ;;;
  let! generation := lift (ok_or (checked_add u64_max expected_generation 1)
                                 StErr.GenerationOverflow) in
  let state := state <| ws_generation := generation |> in
  lift (domain_error (WalletState_validate state)) ;;;
  remove_unpublished_generation state.(ws_generation) ;;;
  write_generation random state password kdf encoding ;;;
  mret state.

Definition publish_staged_generation (expected_generation : N) (state : WalletState) : io unit :=
  let! active := active_generation in
  lift (fail_if (negb (active =? expected_generation)) (StErr.ExpectedGenerationConflict active)) ;;;
  let! next := lift (ok_or (checked_add u64_max expected_generation 1) StErr.GenerationOverflow) in
  lift (fail_if (negb (state.(ws_generation) =? next)) StErr.GenerationConflict) ;;;
  lift (domain_error (WalletState_validate state)) ;;;
  record_pre_migration_snapshot state.(ws_generation) ;;;
  publish_pointer_and_metadata state.

Definition commit_with_encoding (random : option (bytes * bytes)) (expected_generation : N)
    (state : WalletState) (password : bytes) (kdf : KdfParameters) (encoding : StateEncoding)
    : io WalletState :=
  let! state := stage_generation_with_encoding random expected_generation state password kdf encoding in
  publish_staged_generation expected_generation state ;;;
  mret state.

Definition publish_initial (random random' : option (bytes * bytes)) (state : WalletState)
    (password : bytes) (kdf : KdfParameters) : io unit :=
  write_generation random state password kdf CompactV2 ;;;
  atomic_write PRE_MIGRATION_SNAPSHOT_FILE PRE_MIGRATION_NONE ;;;
  write_authenticator random' password (WalletMetadata_from_state state) kdf ;;;
  publish_pointer_and_metadata state.

(** *** Cleanup *)

(** The names of a directory that do not start with a dot. *)
Definition generation_entries (d : Disk) : list bytes :=
  List.filter (fun name => negb (starts_with (str ".") name)) (map fst (map_to_list d.(dk_generations))).
Definition parse_all (names : list bytes) : result StErr.StorageError (list N) :=
  foldM (fun acc name => let? g := parse_generation name in Ok (acc ++ [g])) names [].

(** [sort_unstable] *)
Definition sort_generations : list N -> list N := merge_sort N.le.

Definition superseded (active : N) (generations : list N) : list N :=
  take RETAIN_SUPERSEDED_GENERATIONS (rev (List.filter (fun g => g <? active) generations)).

Definition remove_unretained (retained : gset N) (generation : N) : io unit :=
  if bool_decide (generation ∈ retained) then mret tt else
  let! present := exists_ (has_generation generation) in
  if negb present then mret tt else
  remove_generation_dir (generation_name generation) ;;;
  sync_directory.

Definition cleanup_superseded_generations (protected : list N) : io unit :=
  let! active := active_generation in
  let! names := look (fun d => Ok (generation_entries d)) in
  let! generations := lift (parse_all names) in
  let generations := sort_generations generations in
  lift (fail_if (negb (bool_decide (active ∈ generations))) StErr.GenerationConflict) ;;;
  let! snapshot := pre_migration_snapshot_generation in
  let retained : gset N := {[active]} ∪ list_to_set protected ∪ list_to_set (option_list snapshot)
                           ∪ list_to_set (superseded active generations) in
  mfor generations (remove_unretained retained).

(** *** The rescan plan *)

Definition save_rescan_plan (random : option (bytes * bytes)) (state : WalletState)
    (plan : RescanPlan) (password : bytes) (kdf : KdfParameters) : io unit :=
  let! plaintext := lift (ok_or (plan_to_json plan) StErr.CanonicalEncoding) in
  let context := rescan_context state.(ws_wallet_id) state.(ws_identity) in
  let! e := lift (crypto (seal random plaintext password context kdf)) in
  let! encoded := lift (crypto (encode e)) in
  atomic_write_private RESCAN_PLAN_FILE encoded MAX_STATE_ENVELOPE_BYTES.

Definition load_rescan_plan (state : WalletState) (password : bytes) : io (option RescanPlan) :=
  let! present := exists_ (has_file RESCAN_PLAN_FILE) in
  if negb present then mret None else
  let! encoded := read_bounded_with_limit (root_file RESCAN_PLAN_FILE) MAX_STATE_ENVELOPE_BYTES in
  let! e := lift (crypto (decode encoded)) in
  let context := rescan_context state.(ws_wallet_id) state.(ws_identity) in
  let! plaintext := lift (crypto (open e password context)) in
  let! plan := lift (ok_or (plan_from_json plaintext) StErr.CanonicalEncoding) in
  mret (Some plan).

Definition clear_rescan_plan : io unit :=
  let! present := exists_ (has_file RESCAN_PLAN_FILE) in
  if negb present then mret tt else
  act (drop_file RESCAN_PLAN_FILE) ;;;
  sync_directory.
End directory.

(** ** Triples with a crash condition

    [triple P m Q C]: from a disk in [P], [m] ends with a value and a disk in [Q],
    or fails on a disk in [C], whatever calls fail. *)

Definition triple {A} (P : Disk -> Prop) (m : io A) (Q : A -> Disk -> Prop) (C : Disk -> Prop) : Prop :=
  forall w w' r, m w = (w', r) -> P w.(w_disk) ->
    match r with Ok a => Q a w'.(w_disk) | Err _ => C w'.(w_disk) end.

Section triples.
Context {A B : Type}.
Implicit Types (P C : Disk -> Prop).

Lemma triple_bind P C (m : io A) (k : A -> io B) Q R :
  triple P m Q C -> (forall a, triple (Q a) (k a) R C) -> triple P (mthen m k) R C.
Proof.
  intros Hm Hk w w' r H HP. unfold mthen in H. destruct (m w) as [w1 [a|e]] eqn:Em.
  - apply (Hk a _ _ _ H). by apply (Hm _ _ _ Em).
  - injection H as <- <-. by apply (Hm _ _ _ Em).
Qed.

Lemma triple_ret P C (a : A) (Q : A -> Disk -> Prop) :
  (forall d, P d -> Q a d) -> triple P (mret a) Q C.
Proof. intros H w w' r [= <- <-]. apply H. Qed.

Lemma triple_lift P C (x : result StErr.StorageError A) Q :
  (forall a d, x = Ok a -> P d -> Q a d) -> (forall d, P d -> C d) -> triple P (lift x) Q C.
Proof. intros HQ HC w w' r [= <- <-] HP. destruct x; auto. Qed.

Lemma triple_look P C (f : Disk -> result StErr.StorageError A) Q :
  (forall a d, f d = Ok a -> P d -> Q a d) -> (forall d, P d -> C d) -> triple P (look f) Q C.
Proof.
  intros HQ HC w w' r H HP. unfold look in H.
  destruct (w_faults w) as [|[] ?]; injection H as <- <-; simpl; auto;
    destruct (f (w_disk w)) eqn:E; auto.
Qed.

Lemma triple_weaken P P' C C' (m : io A) Q Q' :
  triple P' m Q' C' -> (forall d, P d -> P' d) -> (forall a d, Q' a d -> Q a d) ->
  (forall d, C' d -> C d) -> triple P m Q C.
Proof.
  intros Hm HP HQ HC w w' r H Hw. specialize (Hm _ _ _ H (HP _ Hw)). destruct r; auto.
Qed.
End triples.

Lemma triple_act (P C : Disk -> Prop) f (Q : unit -> Disk -> Prop) :
  (forall d, P d -> Q tt (f d)) -> (forall d, P d -> C d) -> (forall d, P d -> C (f d)) ->
  triple P (act f) Q C.
Proof.
  intros HQ HC HC' w w' r H HP. unfold act in H.
  destruct (w_faults w) as [|[] ?]; injection H as <- <-; simpl; auto.
Qed.

Lemma triple_exists (P C : Disk -> Prop) f (Q : bool -> Disk -> Prop) :
  (forall d, P d -> Q (f d) d) -> (forall d, P d -> Q false d) -> triple P (exists_ f) Q C.
Proof.
  intros HQ HF w w' r H HP. unfold exists_, look in H.
  destruct (w_faults w) as [|[] ?]; injection H as <- <-; simpl; auto.
Qed.

(** A run that keeps an invariant. *)
Definition keeps {A} (I : Disk -> Prop) (m : io A) : Prop := triple I m (fun _ => I) I.

Lemma keeps_bind {A B} I (m : io A) (k : A -> io B) :
  keeps I m -> (forall a, keeps I (k a)) -> keeps I (mthen m k).
Proof. apply triple_bind. Qed.
Lemma keeps_ret {A} I (a : A) : keeps I (mret a).
Proof. by apply triple_ret. Qed.
Lemma keeps_lift {A} I (x : result StErr.StorageError A) : keeps I (lift x).
Proof. by apply triple_lift. Qed.
Lemma keeps_look {A} I (f : Disk -> result StErr.StorageError A) : keeps I (look f).
Proof. by apply triple_look. Qed.
Lemma keeps_exists I f : keeps I (exists_ f).
Proof. by apply triple_exists. Qed.
Lemma keeps_act (I : Disk -> Prop) f : (forall d, I d -> I (f d)) -> keeps I (act f).
Proof. intros H. by apply triple_act. Qed.
Lemma keeps_mfor {X} I (xs : list X) body : (forall x, keeps I (body x)) -> keeps I (mfor xs body).
Proof.
  intros H. induction xs; simpl; [apply keeps_ret|]. by apply keeps_bind.
Qed.

(** Splits a run into its calls. *)
Ltac keep_steps := repeat (apply keeps_bind; [|intros ?]).

Create HintDb keeps discriminated.
#[export] Hint Resolve keeps_ret keeps_lift keeps_look keeps_exists : keeps.
#[export] Hint Extern 1 (keeps _ (mthen _ _)) => apply keeps_bind; [|intros ?] : keeps.
#[export] Hint Extern 1 (keeps _ (if ?b then _ else _)) => destruct b : keeps.
#[export] Hint Extern 1 (keeps _ (match ?b with Some _ => _ | None => _ end)) => destruct b : keeps.

(** ** Lemmas: names *)

Lemma parse_digits_zeros max n s :
  parse_digits max 0 (replicate n Byte.x30 ++ s) = parse_digits max 0 s.
Proof. induction n as [|n IH]; [done|]. by destruct max. Qed.

Lemma parse_uint_digits max s :
  s <> [] -> forallb is_ascii_digit s = true -> parse_uint max s = parse_digits max 0 s.
Proof.
  destruct s as [|b s]; [done|]. simpl. intros _ H. apply andb_true_iff in H as [H _].
  by destruct b.
Qed.

Definition padded (g : N) : bytes := replicate (20 - length (show g)) Byte.x30 ++ show g.

Lemma padded_length g : length (padded g) = 20%nat.
Proof.
  unfold padded. rewrite length_app, length_replicate.
  pose proof (digits_length 20 g []). unfold show. cbn [length] in *. lia.
Qed.

Lemma padded_digits g : forallb is_ascii_digit (padded g) = true.
Proof.
  unfold padded. rewrite forallb_app, show_digits, andb_true_r.
  apply forallb_forall. intros b Hb%list_elem_of_In. by apply elem_of_replicate in Hb as [-> _].
Qed.

Lemma parse_generation_name g : g <= u64_max -> parse_generation (generation_name g) = Ok g.
Proof.
  intros Hg. unfold parse_generation, generation_name. fold (padded g).
  rewrite (proj2 (strip_prefix_Some _ _ _)) by reflexivity. simpl.
  assert (Hne : padded g <> []) by (intros E; pose proof (padded_length g) as H; by rewrite E in H).
  rewrite parse_uint_digits; [|done|apply padded_digits]. unfold padded.
  rewrite parse_digits_zeros.
  rewrite <- parse_uint_digits; [|apply show_nonempty|apply show_digits].
  by rewrite parse_show.
Qed.

Lemma generation_name_inj g h :
  g <= u64_max -> h <= u64_max -> generation_name g = generation_name h -> g = h.
Proof.
  intros Hg Hh E. pose proof (parse_generation_name g Hg) as H.
  rewrite E, parse_generation_name in H by done. by injection H.
Qed.

Lemma generation_name_bytes g :
  is_utf8 (generation_name g) = true
  /\ (is_empty (generation_name g) || (MAX_AUXILIARY_FILE_BYTES <? len (generation_name g))) = false.
Proof.
  unfold generation_name. fold (padded g). split.
  - apply ascii_is_utf8. rewrite forallb_app. simpl.
    apply forallb_forall. intros b Hb. pose proof (padded_digits g) as H.
    rewrite forallb_forall in H. specialize (H b Hb). by destruct b.
  - unfold len. rewrite length_app, padded_length. reflexivity.
Qed.

(** ** What a wallet directory opens to *)

(** What the JSON codec is relied on for; every wallet's metadata fits. *)
Definition metadata_typed (m : WalletMetadata) : Prop :=
  m.(wm_wallet_id) < 2 ^ 128 /\ m.(wm_active_generation) <= u64_max
  /\ len m.(wm_identity).(ni_chain_id) = 32 /\ len m.(wm_identity).(ni_genesis_id) = 32.
Definition auxiliary (b : bytes) : Prop := (is_empty b || (MAX_AUXILIARY_FILE_BYTES <? len b)) = false.
Definition enveloped (b : bytes) : Prop := (is_empty b || (MAX_STATE_ENVELOPE_BYTES <? len b)) = false.

Class StateLaws (json : StateCode) : Prop := {
  state_round : forall s b, state_to_json s = Some b -> state_from_json b = Some s;
  metadata_round : forall m b, metadata_to_json m = Some b -> metadata_from_json b = Some m;
  metadata_fits : forall s, metadata_typed (WalletMetadata_from_state s) ->
    exists b, metadata_to_json (WalletMetadata_from_state s) = Some b /\ auxiliary b;
}.

Section opening.
Context {code : CryptoCode} {json : StateCode}.
Implicit Types (d : Disk) (s : WalletState) (m : WalletMetadata).

Definition auth_ctx m : bytes := authentication_context m.(wm_wallet_id) m.(wm_identity).

(** The directory [d] opens with the password and metadata [m] to the state [s]:
    the active pointer names the generation of [s], whose file decrypts to [s],
    and the metadata file is current or one generation behind. *)
Record opens_with (password : bytes) m s d : Prop := {
  ow_metadata : exists b, root_file METADATA_FILE d = Some b /\ auxiliary b /\ metadata_check b = Ok m;
  ow_password : exists b e, root_file AUTHENTICATION_FILE d = Some b /\ auxiliary b
    /\ decode b = Ok e /\ open e password (auth_ctx m) = Ok AUTHENTICATION_PLAINTEXT;
  ow_active : exists b, root_file ACTIVE_FILE d = Some b /\ auxiliary b /\ is_utf8 b = true
    /\ parse_generation b = Ok s.(ws_generation);
  ow_state : exists b, state_file s.(ws_generation) d = Some b /\ enveloped b
    /\ open_generation s.(ws_generation) password m true b = Ok s;
  ow_same : same_wallet s.(ws_generation) m s = true;
  ow_valid : WalletState_validate s = Ok tt;
  ow_current : m.(wm_active_generation) = s.(ws_generation) \/ interrupted m s.(ws_generation) = true;
}.

(** A run without faults. *)
Definition run {A} (x : io A) d : Disk * result StErr.StorageError A :=
  let '(w, r) := x (mkWorld d []) in (w.(w_disk), r).
Definition opens_to (password : bytes) s d : Prop :=
  forall random, (run (load random password) d).2 = Ok s.

(** The parts of a directory that [load] reads. *)
Definition agree (g : N) (d d' : Disk) : Prop :=
  root_file METADATA_FILE d' = root_file METADATA_FILE d
  /\ root_file AUTHENTICATION_FILE d' = root_file AUTHENTICATION_FILE d
  /\ root_file ACTIVE_FILE d' = root_file ACTIVE_FILE d
  /\ state_file g d' = state_file g d.

Lemma opens_with_agree password m s d d' :
  agree s.(ws_generation) d d' -> opens_with password m s d -> opens_with password m s d'.
Proof. intros (E1 & E2 & E3 & E4) []. split; rewrite ?E1, ?E2, ?E3, ?E4; auto. Qed.

Lemma agree_other_file g name b d :
  name <> METADATA_FILE -> name <> AUTHENTICATION_FILE -> name <> ACTIVE_FILE ->
  agree g d (put_file name b d).
Proof.
  intros H1 H2 H3. unfold agree, root_file. simpl. by rewrite !lookup_insert_ne.
Qed.

Lemma agree_other_generation g h (content : option bytes) d :
  g <= u64_max -> h <= u64_max -> g <> h ->
  agree g d (put_generation (generation_name h) content d)
  /\ agree g d (drop_generation (generation_name h) d).
Proof.
  intros Hg Hh Hne. unfold agree, state_file. simpl.
  assert (generation_name h <> generation_name g) as E
    by (intros E; apply generation_name_inj in E; congruence).
  by rewrite lookup_insert_ne, lookup_delete_ne.
Qed.

(** *** Reads *)

Lemma keeps_read I file max : keeps I (read_bounded_with_limit file max).
Proof. apply keeps_look. Qed.
Hint Resolve keeps_read : keeps.
Lemma keeps_metadata I : keeps I metadata.
Proof. unfold metadata, read_bounded. auto with keeps. Qed.
Lemma keeps_active I : keeps I active_generation.
Proof. unfold active_generation, read_bounded. auto 10 with keeps. Qed.
Lemma keeps_encoding I g : keeps I (generation_encoding g).
Proof. unfold generation_encoding, read_state_envelope. auto 10 with keeps. Qed.
Hint Resolve keeps_metadata keeps_active keeps_encoding : keeps.
Lemma keeps_hint I g : keeps I (generation_encoding_hint g).
Proof. unfold generation_encoding_hint. apply keeps_bind; [auto with keeps|]. intros b.
  destruct (encoding_of_prefix _); auto with keeps. Qed.
Lemma keeps_snapshot I : keeps I pre_migration_snapshot_generation.
Proof. unfold pre_migration_snapshot_generation, read_bounded. auto 20 with keeps. Qed.
Hint Resolve keeps_hint keeps_snapshot : keeps.

(** *** Writes *)

Lemma keeps_atomic_write (I : Disk -> Prop) name b max :
  (forall d, I d -> I (put_file name b d)) ->
  keeps I (atomic_write_private name b max).
Proof.
  intros H. unfold atomic_write_private, sync_directory.
  keep_steps; auto with keeps; by apply keeps_act.
Qed.

Lemma keeps_remove (I : Disk -> Prop) g :
  (forall d, I d -> I (put_generation (generation_name g) None d)) ->
  (forall d, I d -> I (drop_generation (generation_name g) d)) ->
  keeps I (remove_generation_dir (generation_name g)).
Proof. intros H1 H2. unfold remove_generation_dir. keep_steps; by apply keeps_act. Qed.

Lemma keeps_remove_unpublished (I : Disk -> Prop) g :
  (forall d, I d -> I (put_generation (generation_name g) None d)) ->
  (forall d, I d -> I (drop_generation (generation_name g) d)) ->
  keeps I (remove_unpublished_generation g).
Proof.
  intros H1 H2. unfold remove_unpublished_generation, read_state_envelope, sync_directory.
  apply keeps_bind; [auto with keeps|]. intros [|]; simpl; [|auto with keeps].
  keep_steps; auto with keeps; by apply keeps_act.
Qed.

Lemma keeps_record_snapshot (I : Disk -> Prop) g :
  (forall d b, I d -> I (put_file PRE_MIGRATION_SNAPSHOT_FILE b d)) ->
  keeps I (record_pre_migration_snapshot g).
Proof.
  intros H. unfold record_pre_migration_snapshot, atomic_write.
  assert (forall b, keeps I (atomic_write_private PRE_MIGRATION_SNAPSHOT_FILE b MAX_AUXILIARY_FILE_BYTES))
    by (intros; apply keeps_atomic_write; auto).
  auto 20 with keeps.
Qed.
End opening.

(** ** Lemmas: what is written opens *)

Section written.
Context {code : CryptoCode} {json : StateCode} {claws : CryptoLaws code} {slaws : StateLaws json}.
Implicit Types (d : Disk) (s : WalletState) (m : WalletMetadata).

Lemma migrate_validated s :
  WalletState_validate s = Ok tt -> exists b, migrate_transaction_exposure s = (s, Ok b).
Proof.
  intros H. pose proof (ok_exposure _ (validate_wallet_ok _ H)) as Hc.
  apply WalletState_validate_Ok in H as (Hh & _). unfold validate_header in Hh.
  apply then_Ok in Hh as [_ Hh]. apply then_Ok in Hh as [Hv _]. res_inv. bool_inv.
  assert (Hver : ws_transaction_exposure_version s = TRANSACTION_EXPOSURE_VERSION) by done.
  unfold migrate_transaction_exposure. rewrite Hver. simpl.
  rewrite (map_id_on (migrate_one TRANSACTION_EXPOSURE_VERSION))
    by (intros t Ht; apply migrate_covered; by eapply Forall_forall).
  eexists. f_equal. destruct s; simpl in *. by subst.
Qed.

Lemma encoding_known e : known_version (envelope_version e).
Proof. destruct e; [by left|by right]. Qed.

Lemma same_wallet_spec g m s :
  same_wallet g m s = true <->
  s.(ws_generation) = g /\ s.(ws_wallet_id) = m.(wm_wallet_id) /\ s.(ws_identity) = m.(wm_identity).
Proof.
  unfold same_wallet. rewrite !andb_true_iff, !N.eqb_eq, bool_decide_eq_true. tauto.
Qed.

(** A written generation opens to the state it was written for. *)
Lemma generation_bytes_open random s password kdf encoding m b :
  generation_bytes random s password kdf encoding = Ok b ->
  WalletState_validate s = Ok tt -> same_wallet s.(ws_generation) m s = true ->
  open_generation s.(ws_generation) password m true b = Ok s.
Proof.
  unfold generation_bytes. intros H Hv (_ & Hw & Hi)%same_wallet_spec.
  apply rbind_Ok in H as (plaintext & Hp & H). apply then_Ok in H as [_ H].
  apply ok_or_Ok in Hp. apply rbind_Ok in H as (e & He & H).
  assert (Hs : seal_with_version random plaintext password
                 (state_context (ws_wallet_id s) (ws_identity s) (ws_generation s)) kdf
                 (envelope_version encoding) = Ok e).
  { destruct encoding; [|destruct legacy_writer; [|done]]; unfold seal, seal_legacy_v1 in He;
      simpl; by destruct (seal_with_version _ _ _ _ _ _); simpl in He; [injection He as ->|]. }
  destruct (encode e) as [b'|error] eqn:Henc; [|by destruct error]. injection H as ->.
  pose proof (encoding_known encoding) as Hk.
  destruct (seal_good_header _ _ _ _ _ _ _ Hk Hs) as (Hg & Hver & Hlen).
  destruct (decode_encoded e b Hg) as (Hd & _); [by rewrite Hver|done|].
  unfold open_generation. rewrite Hd. simpl. rewrite <- Hw, <- Hi, (open_sealed _ _ _ _ _ _ _ Hk Hs).
  simpl. rewrite (state_round _ _ Hp). simpl. destruct (migrate_validated s Hv) as [x ->]. done.
Qed.

(** *** Loading without faults *)

Lemma read_clean (file : Disk -> option bytes) max d b :
  file d = Some b -> (is_empty b || (max <? len b)) = false ->
  read_bounded_with_limit file max (mkWorld d []) = (mkWorld d [], Ok b).
Proof. intros Hf Hb. unfold read_bounded_with_limit, look. simpl. rewrite Hf. simpl. by rewrite Hb. Qed.

Lemma atomic_write_clean name b max d :
  (is_empty b || (max <? len b)) = false ->
  atomic_write_private name b max (mkWorld d []) = (mkWorld (put_file name b d) [], Ok tt).
Proof. intros Hb. unfold atomic_write_private, mthen, lift, mread. rewrite Hb. done. Qed.

Lemma metadata_clean d b m :
  root_file METADATA_FILE d = Some b -> auxiliary b -> metadata_check b = Ok m ->
  metadata (mkWorld d []) = (mkWorld d [], Ok m).
Proof.
  intros Hf Hb Hc. unfold metadata, mthen, read_bounded. rewrite (read_clean _ _ _ b) by done.
  unfold lift, mread. by rewrite Hc.
Qed.

Lemma active_clean d b g :
  root_file ACTIVE_FILE d = Some b -> auxiliary b -> is_utf8 b = true -> parse_generation b = Ok g ->
  active_generation (mkWorld d []) = (mkWorld d [], Ok g).
Proof.
  intros Hf Hb Hu Hp. unfold active_generation, mthen, read_bounded. rewrite (read_clean _ _ _ b) by done.
  unfold lift, mread. rewrite Hu. simpl. by rewrite Hp.
Qed.

Lemma authenticate_clean password m d b e :
  root_file AUTHENTICATION_FILE d = Some b -> auxiliary b -> decode b = Ok e ->
  open e password (auth_ctx m) = Ok AUTHENTICATION_PLAINTEXT ->
  authenticate_password password m (mkWorld d []) = (mkWorld d [], Ok true).
Proof.
  intros Hf Hb Hd Ho. unfold authenticate_password, exists_, mthen. simpl.
  unfold has_file. unfold root_file in Hf. rewrite Hf. simpl.
  unfold root_file. rewrite Hf. simpl. rewrite Hb. simpl. rewrite Hd. simpl.
  unfold auth_ctx in Ho. rewrite Ho. reflexivity.
Qed.

Lemma metadata_check_from_state s b :
  metadata_to_json (WalletMetadata_from_state s) = Some b ->
  metadata_check b = Ok (WalletMetadata_from_state s).
Proof. intros H. unfold metadata_check. by rewrite (metadata_round _ _ H). Qed.

Definition typed_state s : Prop := metadata_typed (WalletMetadata_from_state s).

(** A directory that opens with some metadata loads, whatever the randomness. *)
Lemma opens_with_loads password m s d :
  opens_with password m s d -> typed_state s -> opens_to password s d.
Proof.
  intros [(bm & Hm & Hbm & Hcm) (ba & e & Ha & Hba & Hd & Ho) (bp & Hp & Hbp & Hu & Hpp)
          (bs & Hs & Hbs & Hos) Hsame Hvalid Hcur] Ht random.
  unfold run, load. unfold mthen at 1. rewrite (metadata_clean d bm m) by done.
  unfold mthen at 1. rewrite (authenticate_clean password m d ba e) by done.
  unfold mthen at 1. rewrite (active_clean d bp _ Hp Hbp Hu Hpp).
  assert ((negb (ws_generation s =? wm_active_generation m) && negb (interrupted m (ws_generation s)))
          = false) as Hc.
  { destruct Hcur as [->| ->]; [by rewrite N.eqb_refl|by rewrite andb_false_r]. }
  unfold mthen at 1, lift at 1, mread at 1. rewrite Hc. cbn [fail_if].
  unfold mthen at 1, load_generation, read_state_envelope. unfold mthen at 1.
  rewrite (read_clean _ _ _ bs) by done. unfold lift at 1, mread at 1. rewrite Hos.
  unfold mthen at 1, lift at 1, mread at 1. rewrite Hsame. cbn [negb fail_if].
  unfold mthen at 1, lift at 1, mread at 1. rewrite Hvalid. cbn [domain_error].
  unfold mthen at 1. destruct (interrupted m (ws_generation s)); [|done].
  destruct (metadata_fits s Ht) as (b & Hj & Hb).
  unfold write_metadata, mthen at 1, lift, mread. rewrite Hj. simpl ok_or.
  unfold mthen at 1, atomic_write. by rewrite (atomic_write_clean _ _ _ _ Hb).
Qed.
End written.

(** *** Loading successfully *)

Lemma put_file_comm n n' b b' d :
  n <> n' -> put_file n b (put_file n' b' d) = put_file n' b' (put_file n b d).
Proof. intros H. unfold put_file. simpl. by rewrite insert_insert_ne. Qed.

Section loading.
Context {code : CryptoCode} {json : StateCode} {claws : CryptoLaws code} {slaws : StateLaws json}.
Implicit Types (d : Disk) (s : WalletState) (m : WalletMetadata).

Lemma lift_inv {A} (x : result StErr.StorageError A) w w' a :
  lift x w = (w', Ok a) -> w' = w /\ x = Ok a.
Proof. by intros [= <- <-]. Qed.

Lemma read_inv file max d w b :
  read_bounded_with_limit file max (mkWorld d []) = (w, Ok b) ->
  w = mkWorld d [] /\ file d = Some b /\ (is_empty b || (max <? len b)) = false.
Proof.
  unfold read_bounded_with_limit, look. simpl. intros [= <- H]. split; [done|].
  apply rbind_Ok in H as (b' & H & Hb). apply then_Ok in Hb as [Hb Hb']. res_inv. done.
Qed.

Lemma metadata_inv d w m :
  metadata (mkWorld d []) = (w, Ok m) ->
  w = mkWorld d [] /\ exists b, root_file METADATA_FILE d = Some b /\ auxiliary b /\ metadata_check b = Ok m.
Proof.
  intros (w1 & b & (-> & Hf & Hb)%read_inv & (-> & Hc)%lift_inv)%mthen_Ok. eauto.
Qed.

Lemma active_inv d w g :
  active_generation (mkWorld d []) = (w, Ok g) ->
  w = mkWorld d [] /\ exists b, root_file ACTIVE_FILE d = Some b /\ auxiliary b /\ is_utf8 b = true
    /\ parse_generation b = Ok g.
Proof.
  intros (w1 & b & (-> & Hf & Hb)%read_inv & H)%mthen_Ok.
  apply mthen_Ok in H as (w2 & u & (-> & Hu)%lift_inv & (-> & Hp)%lift_inv).
  apply fail_if_Ok, negb_false_iff in Hu. split; [done|]. by exists b.
Qed.

Lemma authenticate_inv password m d w p :
  authenticate_password password m (mkWorld d []) = (w, Ok p) ->
  w = mkWorld d []
  /\ if p then exists b e, root_file AUTHENTICATION_FILE d = Some b /\ auxiliary b /\ decode b = Ok e
                           /\ open e password (auth_ctx m) = Ok AUTHENTICATION_PLAINTEXT
     else root_file AUTHENTICATION_FILE d = None.
Proof.
  unfold authenticate_password, exists_, has_file, root_file, mthen, auth_ctx. simpl.
  destruct (dk_files d !! AUTHENTICATION_FILE) as [b|] eqn:Hf; simpl; [|by intros [= <- <-]].
  unfold read_bounded, read_bounded_with_limit, look, root_file. simpl. rewrite Hf. simpl.
  destruct (is_empty b || _) eqn:Hb; simpl; [done|]. intros [= <- H]. split; [done|].
  apply rbind_Ok in H as (e & Hd & H). apply map_err_Ok in Hd.
  apply rbind_Ok in H as (plaintext & Ho & H). apply then_Ok in H as [Hp [= <-]].
  apply fail_if_Ok, negb_false_iff, bool_decide_eq_true in Hp. exists b, e.
  destruct (open e password _) as [plaintext'|error] eqn:E; [|by destruct error].
  injection Ho as ->. split; [done|]. split; [done|]. split; [done|congruence].
Qed.

Lemma atomic_write_inv name b max d w u :
  atomic_write_private name b max (mkWorld d []) = (w, Ok u) ->
  w = mkWorld (put_file name b d) [] /\ (is_empty b || (max <? len b)) = false.
Proof.
  intros H. destruct (is_empty b || (max <? len b)) eqn:Hb.
  - unfold atomic_write_private, mthen, lift, mread in H. by rewrite Hb in H.
  - rewrite atomic_write_clean in H by done. by injection H as <- _.
Qed.

(** A written authenticator accepts the password it was written with. *)
Lemma write_authenticator_inv random password m kdf d w u :
  root_file AUTHENTICATION_FILE d = None ->
  write_authenticator random password m kdf (mkWorld d []) = (w, Ok u) ->
  exists b e, w = mkWorld (put_file AUTHENTICATION_FILE b d) [] /\ auxiliary b
    /\ decode b = Ok e /\ open e password (auth_ctx m) = Ok AUTHENTICATION_PLAINTEXT.
Proof.
  intros Hf H. unfold write_authenticator, exists_, has_file in H. unfold root_file in Hf.
  unfold mthen at 1 in H. simpl in H. rewrite Hf in H. simpl in H.
  apply mthen_Ok in H as (w1 & e & (-> & He)%lift_inv & H).
  apply mthen_Ok in H as (w2 & b & (-> & Hb)%lift_inv & (-> & Hsize)%atomic_write_inv).
  destruct (seal _ _ _ _ _) as [e'|] eqn:Hs; simpl in He; [|done]. injection He as ->.
  destruct (encode e) as [b'|] eqn:Henc; simpl in Hb; [|done]. injection Hb as ->.
  assert (Hk : known_version ENVELOPE_VERSION) by by left.
  destruct (seal_good_header _ _ _ _ _ _ _ Hk Hs) as (Hg & Hver & Hlen).
  destruct (decode_encoded e b Hg) as (Hd & _); [by rewrite Hver|done|].
  exists b, e. split; [done|]. split; [done|]. split; [done|]. by eapply open_sealed.
Qed.

Lemma open_generation_unauthenticated g password m p b s :
  open_generation g password m p b = Ok s -> open_generation g password m true b = Ok s.
Proof.
  unfold open_generation. destruct (decode b) as [e|]; simpl; [|done].
  by destruct (open e password _).
Qed.

Lemma opens_with_metadata password m s d b :
  opens_with password m s d -> metadata_to_json (WalletMetadata_from_state s) = Some b -> auxiliary b ->
  opens_with password (WalletMetadata_from_state s) s (put_file METADATA_FILE b d).
Proof.
  intros [_ Ha Hp Hs (_ & Hw & Hi)%same_wallet_spec Hv _] Hj Hb.
  assert (auth_ctx (WalletMetadata_from_state s) = auth_ctx m) as Ectx
    by (unfold auth_ctx; simpl; by rewrite Hw, Hi).
  split; try done.
  - exists b. unfold root_file. simpl. rewrite lookup_insert_eq. split; [done|]. split; [done|].
    by apply metadata_check_from_state.
  - unfold root_file in *. rewrite Ectx. simpl. by rewrite lookup_insert_ne.
  - unfold root_file in *. simpl. by rewrite lookup_insert_ne.
  - destruct Hs as (bs & Hf & He & Ho). exists bs. split; [exact Hf|]. split; [done|].
    rewrite <- Ho. unfold open_generation, WalletMetadata_from_state.
    cbn [wm_wallet_id wm_identity]. by rewrite Hw, Hi.
  - by apply same_wallet_spec.
  - by left.
Qed.

Lemma load_opens_with random password d w s :
  load random password (mkWorld d []) = (w, Ok s) ->
  w.(w_faults) = [] /\ exists m, opens_with password m s w.(w_disk).
Proof.
  unfold load. intros H. apply mthen_Ok in H as (w1 & m & (-> & Hm)%metadata_inv & H).
  apply mthen_Ok in H as (w2 & p & (-> & Hp)%authenticate_inv & H).
  apply mthen_Ok in H as (w3 & g & (-> & Hact)%active_inv & H).
  apply mthen_Ok in H as (w4 & u & (-> & Hcur)%lift_inv & H).
  apply mthen_Ok in H as (w5 & s' & Hload & H).
  apply mthen_Ok in Hload as (w6 & bs & (-> & Hs & Hbs)%read_inv & (-> & Hos)%lift_inv).
  apply mthen_Ok in H as (w7 & u7 & (-> & Hsame)%lift_inv & H).
  apply mthen_Ok in H as (w8 & u8 & (-> & Hvalid)%lift_inv & H).
  apply mthen_Ok in H as (w9 & u9 & Hwm & H). apply mthen_Ok in H as (w10 & u10 & Hwa & H).
  injection H as <- <-.
  apply fail_if_Ok, negb_false_iff in Hsame. apply fail_if_Ok in Hcur.
  destruct (WalletState_validate s') as [[]|] eqn:Hv; [|done].
  pose proof Hsame as (Hg & _)%same_wallet_spec. subst g.
  apply open_generation_unauthenticated in Hos.
  assert (Hcur' : m.(wm_active_generation) = s'.(ws_generation) \/ interrupted m s'.(ws_generation) = true).
  { destruct (interrupted m _); [by right|]. left. rewrite andb_true_r in Hcur. by bool_inv. }
  assert (Hopens : forall d1,
    root_file METADATA_FILE d1 = root_file METADATA_FILE d ->
    root_file ACTIVE_FILE d1 = root_file ACTIVE_FILE d ->
    state_file (ws_generation s') d1 = state_file (ws_generation s') d ->
    (exists b e, root_file AUTHENTICATION_FILE d1 = Some b /\ auxiliary b
       /\ decode b = Ok e /\ open e password (auth_ctx m) = Ok AUTHENTICATION_PLAINTEXT) ->
    opens_with password m s' d1).
  { intros d1 E1 E2 E3 Ha. split; rewrite ?E1, ?E2, ?E3; eauto. }
  clear Hm Hact Hs Hbs Hos Hsame Hvalid Hcur Hv Hcur'. destruct (interrupted m (ws_generation s')).
  - apply mthen_Ok in Hwm as (w11 & b & (-> & Hj)%lift_inv & Hwm). apply ok_or_Ok in Hj.
    apply mthen_Ok in Hwm as (w12 & u12 & (-> & Hb)%atomic_write_inv & Hsync).
    injection Hsync as <- _. destruct p.
    + injection Hwa as <- _. split; [done|]. exists (WalletMetadata_from_state s').
      apply (opens_with_metadata password m s' d b); [|done|done]. by apply Hopens.
    + apply write_authenticator_inv in Hwa as (ba & e & -> & Hba & Hd & Ho);
        [|unfold root_file in *; simpl; by rewrite lookup_insert_ne].
      split; [done|]. exists (WalletMetadata_from_state s'). simpl.
      rewrite put_file_comm by done. apply (opens_with_metadata password m s' _ b); [|done|done].
      apply Hopens; try done; unfold root_file; simpl; try by rewrite lookup_insert_ne.
      exists ba, e. by rewrite lookup_insert_eq.
  - injection Hwm as <- _. destruct p.
    + injection Hwa as <- _. split; [done|]. eexists. by apply Hopens.
    + apply write_authenticator_inv in Hwa as (ba & e & -> & Hba & Hd & Ho); [|done].
      split; [done|]. eexists.
      apply Hopens; try done; unfold root_file; simpl; try by rewrite lookup_insert_ne.
      exists ba, e. by rewrite lookup_insert_eq.
Qed.
End loading.

(** ** Lemmas: committing *)

Section committing.
Context {code : CryptoCode} {json : StateCode} {claws : CryptoLaws code} {slaws : StateLaws json}.
Context (password : bytes) (m : WalletMetadata) (s : WalletState).
Implicit Types (d : Disk).

Let opened : Disk -> Prop := opens_with password m s.

Lemma triple_keep {A B} (P C : Disk -> Prop) (x : io A) (k : A -> io B) R :
  keeps P x -> (forall d, P d -> C d) -> (forall a, triple P (k a) R C) -> triple P (mthen x k) R C.
Proof.
  intros Hx HC Hk. eapply triple_bind; [|exact Hk].
  eapply triple_weaken; [exact Hx|done|done|done].
Qed.

Lemma triple_read (P : Disk -> Prop) file max :
  triple P (read_bounded_with_limit file max)
    (fun b d => P d /\ file d = Some b /\ (is_empty b || (max <? len b)) = false) P.
Proof.
  apply triple_look; [|done]. intros b d H HP. apply rbind_Ok in H as (b' & Hf & H).
  apply ok_or_Ok in Hf. apply then_Ok in H as [Hb [= ->]]. by apply fail_if_Ok in Hb.
Qed.

Lemma triple_metadata : triple opened metadata (fun m' d => opened d /\ m' = m) opened.
Proof.
  eapply triple_bind; [apply triple_read|]. intros b. apply triple_lift; [|by intros d [? _]].
  intros m' d Hm (Ho & Hf & _). split; [done|].
  destruct (ow_metadata _ _ _ _ Ho) as (b' & Hf' & _ & Hm'). congruence.
Qed.

Lemma triple_active :
  triple opened active_generation (fun g d => opened d /\ g = s.(ws_generation)) opened.
Proof.
  eapply triple_bind; [apply triple_read|]. intros b.
  apply (triple_bind _ _ _ _ (fun _ d => opened d /\ root_file ACTIVE_FILE d = Some b)).
  - apply triple_lift; [|by intros d [? _]]. by intros _ d _ (? & ? & _).
  - intros ?. apply triple_lift; [|by intros d [? _]]. intros g d Hg [Ho Hf]. split; [done|].
    destruct (ow_active _ _ _ _ Ho) as (b' & Hf' & _ & _ & Hg'). congruence.
Qed.

Lemma opened_put_generation g content d :
  opened d -> s.(ws_generation) <= u64_max -> g <= u64_max -> s.(ws_generation) <> g ->
  opened (put_generation (generation_name g) content d)
  /\ opened (drop_generation (generation_name g) d).
Proof.
  intros Ho H1 H2 H3.
  by split; eapply opens_with_agree; try exact Ho; eapply agree_other_generation.
Qed.

Lemma opened_put_snapshot b d : opened d -> opened (put_file PRE_MIGRATION_SNAPSHOT_FILE b d).
Proof. apply opens_with_agree. by apply agree_other_file. Qed.

(** The new state, its generation next to the open one. *)
Context (s' : WalletState) (Hnext : s'.(ws_generation) = s.(ws_generation) + 1).
Context (Hbound : s.(ws_generation) + 1 <= u64_max) (Hcurrent : m.(wm_active_generation) = s.(ws_generation)).
Context (Hvalid : WalletState_validate s' = Ok tt).
Context (Hsame : same_wallet s'.(ws_generation) m s' = true).

(** Its generation is written; the pointer still names the old one. *)
Definition staged d : Prop :=
  exists b, state_file s'.(ws_generation) d = Some b /\ enveloped b
            /\ open_generation s'.(ws_generation) password m true b = Ok s'.

Lemma keeps_remove_next : keeps opened (remove_unpublished_generation s'.(ws_generation)).
Proof.
  rewrite Hnext. apply keeps_remove_unpublished; intros d Ho;
    apply (opened_put_generation (ws_generation s + 1) None d Ho); lia.
Qed.

Lemma triple_write_generation random kdf encoding :
  triple opened (write_generation random s' password kdf encoding)
    (fun _ d => opened d /\ staged d) opened.
Proof.
  unfold write_generation, sync_directory, rename_generation_dir.
  do 4 (apply triple_keep; [by apply keeps_look || apply keeps_exists || apply keeps_lift || by apply keeps_act
                           |done|intros ?]).
  apply (triple_bind _ _ _ _ (fun b d => opened d /\ generation_bytes random s' password kdf encoding = Ok b));
    [by apply triple_lift|intros b].
  set (ready := fun d => opened d /\ enveloped b
           /\ open_generation s'.(ws_generation) password m true b = Ok s').
  apply (triple_bind _ _ _ _ (fun _ => ready)).
  { apply triple_lift; [|by intros d [? _]]. intros u d Hb [Ho Hg]. apply fail_if_Ok in Hb.
    split; [done|]. split; [done|]. by eapply generation_bytes_open. }
  intros ?. do 2 (apply triple_keep; [by apply keeps_act|by intros d [? _]|intros ?]).
  eapply triple_bind.
  - apply triple_keep; [apply keeps_look|by intros d [? _]|intros ?].
    assert (Hk : forall d, ready d -> opened (put_generation (generation_name s'.(ws_generation)) (Some b) d))
      by (intros d [Ho _]; rewrite Hnext; apply (opened_put_generation _ (Some b) d Ho); lia).
    apply (triple_act _ _ _ (fun _ d => opened d /\ staged d)); [|by intros d [? _]|done].
    intros d Hd. split; [by apply Hk|]. destruct Hd as (_ & He & Hopen). exists b.
    split; [|done]. unfold state_file. simpl. by rewrite lookup_insert_eq.
  - intros ?. apply (triple_weaken _ (fun d => opened d /\ staged d) _ (fun d => opened d /\ staged d) _ _
                       (fun _ d => opened d /\ staged d)); try done; [by apply keeps_act|by intros d [? _]].
Qed.

(** *** Publishing *)

Definition published d : Prop := exists m', opens_with password m' s' d.

Lemma staged_put_file name b d : staged d -> staged (put_file name b d).
Proof. done. Qed.

Lemma publish_active d :
  opened d -> staged d -> opens_with password m s' (put_file ACTIVE_FILE (generation_name s'.(ws_generation)) d).
Proof.
  intros [Hm Ha _ _ _ _ _] Hst. destruct (generation_name_bytes s'.(ws_generation)) as [Hu Hb].
  split; try done; unfold root_file in *; simpl; try by rewrite lookup_insert_ne.
  - exists (generation_name (ws_generation s')). rewrite lookup_insert_eq, parse_generation_name by lia. done.
  - right. unfold interrupted. rewrite Hcurrent, Hnext.
    rewrite (proj2 (checked_add_Some u64_max _ 1 _) (conj eq_refl Hbound)). apply N.eqb_refl.
Qed.

Lemma triple_atomic_write (P C : Disk -> Prop) (Q : Disk -> Prop) name b max :
  ((is_empty b || (max <? len b)) = false -> forall d, P d -> Q (put_file name b d)) ->
  (forall d, P d -> C d) -> (forall d, Q d -> C d) ->
  triple P (atomic_write_private name b max) (fun _ => Q) C.
Proof.
  intros HQ HP HC. unfold atomic_write_private, sync_directory.
  destruct (is_empty b || (max <? len b)) eqn:Hb.
  - intros w w' r [= <- <-] Hw. by apply HP.
  - specialize (HQ eq_refl). apply triple_keep; [apply keeps_lift|done|intros ?].
    apply triple_keep; [by apply keeps_act|done|intros ?].
    apply (triple_bind _ _ _ _ (fun _ => Q)); [apply triple_act; auto|intros ?].
    apply triple_act; auto.
Qed.

Lemma triple_publish (C : Disk -> Prop) :
  (forall d, opened d -> C d) -> (forall d, published d -> C d) ->
  triple (fun d => opened d /\ staged d) (publish_pointer_and_metadata s')
    (fun _ d => published d) C.
Proof.
  intros HC HC'. unfold publish_pointer_and_metadata, write_metadata, atomic_write, sync_directory.
  assert (Hp : forall d, opens_with password m s' d -> published d) by (intros d H; by exists m).
  apply (triple_bind _ _ _ _ (fun _ => opens_with password m s')).
  { apply triple_atomic_write; [|by intros d [? _]; apply HC|auto].
    intros _ d [Ho Hst]. by apply publish_active. }
  intros ?. apply (triple_bind _ _ _ _ (fun b d => opens_with password m s' d
              /\ metadata_to_json (WalletMetadata_from_state s') = Some b)).
  { apply triple_lift; [|auto]. intros b d H%ok_or_Ok Ho. done. }
  intros b. eapply triple_bind; [apply (triple_atomic_write _ _ published)|intros ?].
  - intros Hb d [Ho Hj]. eexists. by eapply opens_with_metadata.
  - intros d [Ho _]. auto.
  - done.
  - apply triple_act; auto.
Qed.
End committing.

Lemma triple_lift_bind {A B} (P C : Disk -> Prop) (x : result StErr.StorageError A) (k : A -> io B) R :
  (forall d, P d -> C d) -> (forall a, x = Ok a -> triple P (k a) R C) ->
  triple P (mthen (lift x) k) R C.
Proof.
  intros HC Hk w w' r H HP. unfold mthen, lift, mread in H. destruct x as [a|e].
  - by apply (Hk a eq_refl _ _ _ H).
  - injection H as <- <-. auto.
Qed.

Section commit.
Context {code : CryptoCode} {json : StateCode} {claws : CryptoLaws code} {slaws : StateLaws json}.
Context (password : bytes) (m : WalletMetadata) (s state : WalletState) (expected : N).

(** The state that a commit of [state] on top of generation [expected] stores. *)
Definition committed_state : WalletState := state <| ws_generation := expected + 1 |>.

(** What a commit may have stored: it was expected, is valid and of this wallet. *)
Definition committable : Prop :=
  expected = s.(ws_generation) /\ expected + 1 <= u64_max
  /\ m.(wm_active_generation) = s.(ws_generation) /\ WalletState_validate committed_state = Ok tt
  /\ same_wallet (expected + 1) m committed_state = true.

(** The directory opens to the old state, or to the new one. *)
Definition old_or_new (d : Disk) : Prop :=
  opens_with password m s d \/ committable /\ published password committed_state d.

Lemma triple_stage random kdf encoding :
  triple (opens_with password m s)
    (stage_generation_with_encoding random expected state password kdf encoding)
    (fun s1 d => s1 = committed_state /\ committable
                 /\ opens_with password m s d /\ staged password m committed_state d)
    old_or_new.
Proof.
  assert (Hold : forall d, opens_with password m s d -> old_or_new d) by by left.
  unfold stage_generation_with_encoding.
  eapply triple_bind; [eapply triple_weaken; [apply (triple_metadata password m s)|done|done|done]|intros m'].
  apply (triple_bind _ _ _ _ (fun g d => opens_with password m s d /\ m' = m /\ g = s.(ws_generation))).
  { intros w w' r H [Ho ->]. pose proof (triple_active password m s _ _ _ H Ho) as Hr.
    destruct r; [|by apply Hold]. by destruct Hr. }
  intros g. apply triple_lift_bind; [by intros d [? _]; apply Hold|intros u Hexp].
  apply triple_lift_bind; [by intros d [? _]; apply Hold|intros u' Hid].
  apply triple_lift_bind; [by intros d [? _]; apply Hold|intros g' Hg'].
  apply ok_or_Ok, checked_add_Some in Hg' as [-> Hbound].
  apply triple_lift_bind; [by intros d [? _]; apply Hold|intros u'' Hv].
  apply fail_if_Ok in Hexp, Hid. bool_inv.
  intros w w' r Hrun (Ho & -> & ->).
  assert (Hv' : WalletState_validate committed_state = Ok tt).
  { unfold committed_state. simpl in *. destruct (WalletState_validate _) as [[]|]; done. }
  assert (Hsame : same_wallet (expected + 1) m committed_state = true).
  { apply same_wallet_spec. split; [done|]. by split. }
  assert (Hc : committable) by (split; [congruence|]; split; [done|]; split; [congruence|by split]).
  revert w w' r Hrun Ho.
  change (triple (opens_with password m s)
    (remove_unpublished_generation committed_state.(ws_generation) ;;;
     write_generation random committed_state password kdf encoding ;;; mret committed_state)
    (fun s1 d => s1 = committed_state /\ committable
                 /\ opens_with password m s d /\ staged password m committed_state d) old_or_new).
  assert (Hnext : ws_generation committed_state = ws_generation s + 1) by (simpl; congruence).
  assert (Hs : ws_generation s + 1 <= u64_max) by (destruct Hc as (<- & ? & _); done).
  assert (Hmc : wm_active_generation m = ws_generation s) by congruence.
  apply triple_keep; [by eapply keeps_remove_next|done|intros ?].
  eapply triple_bind; [eapply triple_weaken; [by eapply (triple_write_generation password m s)|done|done|done]|].
  intros ?. by apply triple_ret.
Qed.

(** Committing ends in the new state, or fails on the old or the new one. *)
Lemma triple_commit random kdf encoding :
  triple (opens_with password m s)
    (commit_with_encoding random expected state password kdf encoding)
    (fun s1 d => s1 = committed_state /\ committable /\ published password committed_state d)
    old_or_new.
Proof.
  assert (Hold : forall d, opens_with password m s d -> old_or_new d) by by left.
  unfold commit_with_encoding. eapply triple_bind; [apply triple_stage|intros s1].
  intros w w' r Hrun (-> & Hc & Ho & Hst). revert w w' r Hrun Ho Hst.
  set (P := fun d => opens_with password m s d /\ staged password m committed_state d).
  enough (Htr : triple P (publish_staged_generation expected committed_state ;;; mret committed_state)
      (fun s1 d => s1 = committed_state /\ committable /\ published password committed_state d) old_or_new).
  { intros w w' r Hrun Ho Hst. by apply (Htr _ _ _ Hrun). }
  pose proof Hc as (Hexp & Hbound & Hmc & Hv & Hsame).
  assert (Hnext : ws_generation committed_state = ws_generation s + 1) by (simpl; congruence).
  assert (Hs : ws_generation s + 1 <= u64_max) by congruence.
  assert (HP : forall d, P d -> old_or_new d) by (intros d [? _]; auto).
  eapply triple_bind.
  2: { intros u. apply (triple_ret (fun d => published password committed_state d)).
       intros d Hd. done. }
  unfold publish_staged_generation.
  apply triple_keep; [apply keeps_active|done|intros g].
  apply triple_lift_bind; [done|intros u1 _]. apply triple_lift_bind; [done|intros next _].
  apply triple_lift_bind; [done|intros u2 _]. apply triple_lift_bind; [done|intros u3 _].
  apply triple_keep; [apply keeps_record_snapshot|done|intros u4].
  { intros d b [Ho Hst]. split; [by apply opened_put_snapshot|exact Hst]. }
  eapply triple_publish; try done. by right.
Qed.
End commit.

(** ** Theorems: the wallet directory *)

Lemma remove_half_clean {code : CryptoCode} d g :
  d.(dk_generations) !! generation_name g = Some None ->
  exists e, remove_unpublished_generation g (mkWorld d []) = (mkWorld d [], Err e).
Proof.
  intros H. unfold remove_unpublished_generation, exists_, look, mthen, has_generation, state_file.
  cbn [w_faults w_disk]. rewrite H. cbn [is_some negb w_faults w_disk]. rewrite H. eexists. reflexivity.
Qed.

Section theorems.
Context {code : CryptoCode} {json : StateCode} {claws : CryptoLaws code} {slaws : StateLaws json}.

Lemma committed_typed m s state expected :
  same_wallet s.(ws_generation) m s = true -> typed_state s ->
  committable m s state expected -> typed_state (committed_state state expected).
Proof.
  intros (_ & Hw & Hi)%same_wallet_spec (H1 & _ & H3 & H4)
    (_ & Hb & _ & _ & (_ & Hw' & Hi')%same_wallet_spec).
  unfold typed_state, metadata_typed, WalletMetadata_from_state in *. simpl in *.
  rewrite Hw', Hi', <- Hw, <- Hi. done.
Qed.

(** C3 Committing is atomic under any failures.  Once a wallet opens, a commit
    whose file-system calls may fail before or after taking effect, at any
    points, either reports success, and then the directory opens to exactly the
    committed state, one generation on, or reports an error, and then it opens
    to the old state or to the committed one, never to anything else; nothing is
    stored on top of a generation other than the expected one, and only valid
    states are. *)
Theorem commits_are_crash_safe random0 random password d0 w0 s state expected kdf encoding faults w r
    (Hload : load random0 password (mkWorld d0 []) = (w0, Ok s)) (Htyped : typed_state s)
    (Hcommit : commit_with_encoding random expected state password kdf encoding
                 (mkWorld w0.(w_disk) faults) = (w, r)) :
  let new := committed_state state expected in
  let stored := expected = s.(ws_generation) /\ WalletState_validate new = Ok tt
                /\ opens_to password new w.(w_disk) in
  match r with
  | Ok s' => s' = new /\ stored
  | Err _ => opens_to password s w.(w_disk) \/ stored
  end.
Proof.
  apply load_opens_with in Hload as (_ & m & Ho). simpl.
  pose proof (triple_commit password m s state expected random kdf encoding _ _ _ Hcommit Ho) as H.
  assert (Hnew : committable m s state expected -> published password (committed_state state expected) (w_disk w) ->
    expected = ws_generation s /\ WalletState_validate (committed_state state expected) = Ok tt
    /\ opens_to password (committed_state state expected) (w_disk w)).
  { intros Hc (m' & Hm'). pose proof Hc as (-> & _ & _ & Hv & _). split; [done|]. split; [done|].
    eapply opens_with_loads; [exact Hm'|]. eapply committed_typed; [apply Ho|done|done]. }
  destruct r as [s'|e].
  - destruct H as (-> & Hc & Hp). auto.
  - destruct H as [H|[Hc Hp]]; [left|right; auto]. by eapply opens_with_loads.
Qed.

(** A commit on top of another generation changes nothing and names the active
    one. *)
Lemma stale_commit_refused password m s d random expected state kdf encoding :
  opens_with password m s d -> expected <> s.(ws_generation) ->
  commit_with_encoding random expected state password kdf encoding (mkWorld d [])
  = (mkWorld d [], Err (StErr.ExpectedGenerationConflict s.(ws_generation))).
Proof.
  intros Ho Hne. destruct (ow_metadata _ _ _ _ Ho) as (bm & Hm & Hbm & Hcm).
  destruct (ow_active _ _ _ _ Ho) as (bp & Hp & Hbp & Hu & Hpp).
  unfold commit_with_encoding, stage_generation_with_encoding.
  unfold mthen at 1 2. rewrite (metadata_clean d bm m) by done.
  unfold mthen at 1. rewrite (active_clean d bp _ Hp Hbp Hu Hpp).
  unfold mthen at 1, lift at 1, mread at 1.
  by rewrite (proj2 (N.eqb_neq (ws_generation s) expected)) by congruence.
Qed.

(** Loading what opens succeeds and leaves what opens. *)
Lemma load_again password m s d random :
  opens_with password m s d -> typed_state s ->
  exists w, load random password (mkWorld d []) = (w, Ok s)
            /\ w.(w_faults) = [] /\ published password s w.(w_disk).
Proof.
  intros Ho Ht. pose proof (opens_with_loads _ _ _ _ Ho Ht random) as H. unfold run in H.
  destruct (load random password (mkWorld d [])) as [w r] eqn:E. simpl in H. subst r.
  exists w. split; [done|]. by apply load_opens_with in E.
Qed.

(** An interrupted removal blocks the wallet.  When the directory of the next
    generation has lost its state file, as when removing an unpublished
    generation stopped half way, every commit fails, even without further
    failures, and leaves the directory as it is. *)
Theorem half_removed_generation_blocks_commits random0 random password d0 w0 s state expected kdf encoding
    (Hload : load random0 password (mkWorld d0 []) = (w0, Ok s))
    (Hhalf : w0.(w_disk).(dk_generations) !! generation_name (s.(ws_generation) + 1) = Some None) :
  exists e, commit_with_encoding random expected state password kdf encoding
              (mkWorld w0.(w_disk) []) = (mkWorld w0.(w_disk) [], Err e).
Proof.
  apply load_opens_with in Hload as (_ & m & Ho). set (d := w_disk w0) in *.
  destruct (ow_metadata _ _ _ _ Ho) as (bm & Hm & Hbm & Hcm).
  destruct (ow_active _ _ _ _ Ho) as (bp & Hp & Hbp & Hu & Hpp).
  unfold commit_with_encoding, stage_generation_with_encoding.
  unfold mthen at 1 2. rewrite (metadata_clean d bm m) by done.
  unfold mthen at 1. rewrite (active_clean d bp _ Hp Hbp Hu Hpp).
  unfold mthen at 1, lift at 1, mread at 1.
  destruct (negb (ws_generation s =? expected) || _) eqn:Hexp; cbn [fail_if]; [by eexists|]. bool_inv.
  unfold mthen at 1, lift at 1, mread at 1. destruct (fail_if _ _); [|by eexists].
  unfold mthen at 1, lift at 1, mread at 1.
  destruct (checked_add u64_max expected 1) as [g|] eqn:Hg; cbn [ok_or]; [|by eexists].
  apply checked_add_Some in Hg as [-> _].
  unfold mthen at 1, lift at 1, mread at 1. destruct (domain_error _); [|by eexists].
  change (ws_generation (state <| ws_generation := expected + 1 |>)) with (expected + 1).
  assert (Hh : dk_generations d !! generation_name (expected + 1) = Some None)
    by (rewrite <- Hhalf; do 2 f_equal; congruence).
  destruct (remove_half_clean d (expected + 1) Hh) as [e He].
  unfold mthen at 1. rewrite He. by eexists.
Qed.
End theorems.

(** ** An instance of the external code *)

Lemma pack_field_length b : length (pack_field b) = (2 * length b + 1)%nat.
Proof. induction b; simpl; lia. Qed.

Lemma unpack_field field x n rest :
  unpack (S (length x) + n) field (pack_field x ++ rest) = (field ++ x) :: unpack n [] rest.
Proof.
  revert field. induction x as [|b x IH]; intros field; [by rewrite app_nil_r|].
  change (unpack (S (length x) + n) (field ++ [b]) (pack_field x ++ rest)
          = (field ++ b :: x) :: unpack n [] rest).
  by rewrite IH, <- app_assoc.
Qed.

Lemma unpack_pack fields n :
  (length (pack fields) <= n)%nat -> unpack n [] (pack fields) = fields.
Proof.
  revert n. induction fields as [|x fields IH]; intros n Hn; [by destruct n|].
  unfold pack in *. simpl in *. rewrite length_app, pack_field_length in Hn.
  replace n with (S (length x) + (n - S (length x)))%nat by lia.
  rewrite unpack_field. simpl. f_equal. apply IH. lia.
Qed.

Definition network_byte (n : Net.Network) : Byte.byte :=
  match n with
  | Net.PrivateTestnet => Byte.x00
  | Net.PublicTestnet => Byte.x01
  | Net.Mainnet => Byte.x02
  end.
Definition byte_network (b : Byte.byte) : Net.Network :=
  match b with
  | Byte.x00 => Net.PrivateTestnet
  | Byte.x01 => Net.PublicTestnet
  | _ => Net.Mainnet
  end.
Definition metadata_fields (m : WalletMetadata) : list bytes :=
  [le_bytes 2 m.(wm_metadata_version); le_bytes 16 m.(wm_wallet_id);
   [network_byte m.(wm_identity).(ni_network)]; m.(wm_identity).(ni_chain_id);
   m.(wm_identity).(ni_genesis_id); le_bytes 2 m.(wm_schema_version);
   le_bytes 2 m.(wm_secret_profile_version); le_bytes 8 m.(wm_active_generation)].
Definition sample_metadata_from_json (b : bytes) : option WalletMetadata :=
  match unpack (length b) [] b with
  | [version; wallet; [network]; chain; genesis; schema; profile; generation] =>
      Some (mkWalletMetadata (of_le_bytes version) (of_le_bytes wallet)
              (mkNetworkIdentity (byte_network network) chain genesis)
              (of_le_bytes schema) (of_le_bytes profile) (of_le_bytes generation))
  | _ => None
  end.
#[global] Instance WalletMetadata_eq_dec : EqDecision WalletMetadata.
Proof. solve_decision. Defined.

(** A codec that knows the states of a list. *)
Definition sample_json (states : list WalletState) : StateCode := {|
  state_to_json s := (fun i => [byte_of (N.of_nat i)])
    <$> position (fun x => bool_decide (x = s)) (take 256 states);
  state_from_json b := match b with [i] => states !! N.to_nat (Byte.to_N i) | _ => None end;
  metadata_to_json m :=
    let b := pack (metadata_fields m) in
    if bool_decide (sample_metadata_from_json b = Some m) then Some b else None;
  metadata_from_json := sample_metadata_from_json;
  plan_to_json _ := None;
  plan_from_json _ := None;
  legacy_writer := false;
|}.

Lemma sample_json_laws states : StateLaws (sample_json states).
Proof.
  split; simpl.
  - intros s b. destruct (position _ _) as [i|] eqn:E; simpl; [intros [= <-]|done].
    apply position_Some in E as [(x & Hx & Hp) _]. apply lookup_take_Some in Hx as [Hx Hi].
    bool_inv. rewrite to_N_byte_of, N.mod_small by lia. rewrite Nat2N.id, Hx. by subst.
  - intros m b. case_bool_decide; [by intros [= <-]|done].
  - intros s (Hw & Hg & Hc & Hge). set (m := WalletMetadata_from_state s) in *.
    exists (pack (metadata_fields m)).
    assert (E : sample_metadata_from_json (pack (metadata_fields m)) = Some m).
    { unfold sample_metadata_from_json. rewrite unpack_pack by done. unfold metadata_fields.
      rewrite !le_bytes_round by (done || (unfold u64_max in *; simpl in *; lia)).
      unfold m. destruct s as [? ? ? [[] ? ?]]; done. }
    rewrite bool_decide_eq_true_2 by done. split; [done|].
    unfold auxiliary, metadata_fields, pack, len in *. cbn [map concat].
    rewrite !length_app, !pack_field_length, !le_bytes_length. cbn [length].
    apply orb_false_iff. split; [by destruct (le_bytes 2 _)|].
    apply N.ltb_ge. unfold MAX_AUXILIARY_FILE_BYTES. lia.
Qed.

(** ** Witnesses *)

Definition new_wallet : WalletState := fresh_wallet <| ws_allocation_floor := 1 |> <| ws_non_reuse_floor := 1 |>.
Definition stored_states : list WalletState := [fresh_wallet; committed_state new_wallet 0].
#[export] Instance stored_json : StateCode := sample_json stored_states.
#[export] Instance stored_json_laws : StateLaws stored_json := sample_json_laws stored_states.

Definition sample_password : bytes := str "password".
Definition sample_world : World :=
  (publish_initial sample_random sample_random fresh_wallet sample_password DOM_CONTINUITY
     (mkWorld (mkDisk ∅ ∅) [])).1.
(** A commit whose [n]-th file-system call fails after it took effect. *)
Definition failing_commit (n : nat) : World * result StErr.StorageError WalletState :=
  commit_with_encoding sample_random 0 new_wallet sample_password DOM_CONTINUITY CompactV2
    (mkWorld sample_world.(w_disk) (replicate n Fine ++ [After StErr.OtherKind])).

Lemma sample_metadata_typed : typed_state fresh_wallet.
Proof. split; [done|]. split; [done|]. split; done. Qed.

(** The pointer has moved, the metadata has not: the commit reports an error, and
    loading repairs the directory. *)
Definition torn_world : World := (failing_commit 20).1.

Lemma commits_are_crash_safe_witness :
  (failing_commit 20).2 = Err (StErr.Io StErr.OtherKind)
  /\ (run (load None sample_password) torn_world.(w_disk)).2 = Ok (committed_state new_wallet 0)
  /\ (opens_to sample_password fresh_wallet torn_world.(w_disk)
      \/ 0 = fresh_wallet.(ws_generation)
         /\ WalletState_validate (committed_state new_wallet 0) = Ok tt
         /\ opens_to sample_password (committed_state new_wallet 0) torn_world.(w_disk)).
Proof.
  split; [vm_compute; reflexivity|]. split; [vm_compute; reflexivity|].
  apply (commits_are_crash_safe None sample_random sample_password sample_world.(w_disk) sample_world
           fresh_wallet new_wallet 0 DOM_CONTINUITY CompactV2
           (replicate 20 Fine ++ [After StErr.OtherKind]) torn_world (Err (StErr.Io StErr.OtherKind))).
  - vm_compute. reflexivity.
  - apply sample_metadata_typed.
  - vm_compute. reflexivity.
Defined.

(** A commit that fails after staging, and one that fails while removing what the
    first one left. *)
Definition staged_world : World := (failing_commit 16).1.
Definition half_world : World :=
  (commit_with_encoding sample_random 0 new_wallet sample_password DOM_CONTINUITY CompactV2
     (mkWorld staged_world.(w_disk) (replicate 6 Fine ++ [After StErr.OtherKind]))).1.
