(* ===== verification/Reload.v ===== *)
(** * Loading under failures

    [WalletDirectory::load] when file-system calls may fail: from a directory that
    opens with the password it returns the state the directory opens to or fails,
    and leaves a directory that opens to the same state.  Together with the
    triple of a commit (Storage) this is what the services above rely on. *)

From S2P Require Import Prelude Bytes DomainTypes Validation Envelope Storage.

(** A fact about values moves out of the precondition. *)
Lemma triple_const {A} (F : Prop) (P C : Disk -> Prop) (x : io A) R :
  (F -> triple P x R C) -> triple (fun d => P d /\ F) x R C.
Proof. intros H w w' r Hr [HP HF]. by apply (H HF _ _ _ Hr). Qed.

Section reload.
Context {code : CryptoCode} {json : StateCode} {claws : CryptoLaws code} {slaws : StateLaws json}.
Context (password : bytes) (m : WalletMetadata) (s : WalletState).
Implicit Types (d : Disk).

Let opened : Disk -> Prop := opens_with password m s.

Lemma opens_with_authenticator m' b e d :
  opens_with password m' s d -> auxiliary b -> decode b = Ok e ->
  open e password (auth_ctx m') = Ok AUTHENTICATION_PLAINTEXT ->
  opens_with password m' s (put_file AUTHENTICATION_FILE b d).
Proof.
  intros [] Hb Hd Ho. split; try done; unfold root_file in *; simpl;
    try (by rewrite lookup_insert_ne).
  exists b, e. by rewrite lookup_insert_eq.
Qed.

Lemma triple_authenticate : keeps opened (authenticate_password password m).
Proof.
  unfold authenticate_password. apply keeps_bind; [apply keeps_exists|]. intros present.
  destruct (negb present); [apply keeps_ret|]. intros w w' r H Ho. unfold read_bounded in H.
  destruct (read_bounded_with_limit _ _ w) as [w1 r1] eqn:E.
  pose proof (triple_read opened _ _ _ _ _ E Ho) as Hr. destruct r1 as [b|e1].
  - injection H as <- <-. destruct Hr as (Hr & _). by destruct (rbind _ _).
  - by injection H as <- <-.
Qed.

Lemma triple_write_metadata :
  triple opened (write_metadata s) (fun _ => opens_with password (WalletMetadata_from_state s) s)
    (published password s).
Proof.
  assert (Hpub : forall d m', opens_with password m' s d -> published password s d) by by eexists.
  unfold write_metadata, atomic_write, sync_directory.
  apply (triple_bind _ _ _ _ (fun b d => opened d
           /\ metadata_to_json (WalletMetadata_from_state s) = Some b)).
  { apply triple_lift; [|by eauto]. intros b d Hb Ho. by apply ok_or_Ok in Hb. }
  intros b. apply (triple_bind _ _ _ _ (fun _ => opens_with password (WalletMetadata_from_state s) s)).
  - apply triple_atomic_write; [|by intros d [? _]; eauto|by eauto].
    intros Hb d [Ho Hj]. by eapply opens_with_metadata.
  - intros ?. apply triple_act; eauto.
Qed.

Lemma triple_write_authenticator random m' kdf :
  auth_ctx m = auth_ctx m' -> keeps (opens_with password m' s) (write_authenticator random password m kdf).
Proof.
  intros Hctx. unfold write_authenticator. apply keeps_bind; [apply keeps_exists|].
  intros [|]; [apply keeps_ret|]. set (I := opens_with password m' s).
  apply (triple_bind _ _ _ _ (fun e d => I d /\ exists r, seal r AUTHENTICATION_PLAINTEXT password (auth_ctx m) kdf = Ok e)).
  { apply triple_lift; [|done]. intros e d He Hd. split; [done|].
    exists random. unfold auth_ctx. by destruct (seal _ _ _ _ _); simpl in He; [injection He as ->|]. }
  intros e. apply (triple_bind _ _ _ _ (fun b d => I d /\ decode b = Ok e
    /\ open e password (auth_ctx m') = Ok AUTHENTICATION_PLAINTEXT)).
  { apply triple_lift; [|by intros d [? _]]. intros b d Hb [Hd [r Hs]]. split; [done|].
    destruct (encode e) as [b'|] eqn:Henc; simpl in Hb; [|done]. injection Hb as ->.
    assert (Hk : known_version ENVELOPE_VERSION) by by left.
    destruct (seal_good_header _ _ _ _ _ _ _ Hk Hs) as (Hg & Hver & Hlen).
    destruct (decode_encoded e b Hg) as (Hdec & _); [by rewrite Hver|done|].
    split; [done|]. rewrite <- Hctx. by eapply open_sealed. }
  intros b. apply triple_atomic_write; [|by intros d [? _]|done].
  intros Hb d (Hd & Hdec & Ho). by eapply opens_with_authenticator.
Qed.

Lemma triple_load_generation pa :
  triple opened (load_generation s.(ws_generation) password m pa) (fun s' d => opened d /\ s' = s) opened.
Proof.
  unfold load_generation, read_state_envelope. eapply triple_bind; [apply triple_read|].
  intros b. apply triple_lift; [|by intros d [? _]]. intros s' d Hs (Ho & Hf & _). split; [done|].
  apply open_generation_unauthenticated in Hs.
  destruct (ow_state _ _ _ _ Ho) as (b' & Hf' & _ & Hs'). congruence.
Qed.

Lemma triple_load random :
  triple opened (load random password) (fun s' d => s' = s /\ published password s d)
    (published password s).
Proof.
  assert (Hpub : forall d, opened d -> published password s d) by by eexists.
  apply (triple_bind _ _ _ _ (fun m' d => opened d /\ m' = m)).
  { eapply triple_weaken; [apply triple_metadata|done..|done]. }
  intros m'. apply triple_const. intros ->. apply (triple_bind _ _ _ _ (fun _ => opened)).
  { eapply triple_weaken; [apply triple_authenticate|done..|done]. }
  intros pa. apply (triple_bind _ _ _ _ (fun g d => opened d /\ g = s.(ws_generation))).
  { eapply triple_weaken; [apply triple_active|done..|done]. }
  intros g. apply triple_const. intros ->. apply triple_keep; [apply keeps_lift|done|intros ?].
  apply (triple_bind _ _ _ _ (fun s' d => opened d /\ s' = s)).
  { eapply triple_weaken; [apply triple_load_generation|done..|done]. }
  intros s'. apply triple_const. intros ->. do 2 (apply triple_keep; [apply keeps_lift|done|intros ?]).
  set (J := fun d => exists m', auth_ctx m = auth_ctx m' /\ opens_with password m' s d).
  assert (HJ : forall d, J d -> published password s d) by (intros d (m1 & _ & H); by eexists).
  apply (triple_bind _ _ _ _ (fun _ => J)).
  - destruct (interrupted m _).
    + intros w w' r Hrun Ho. pose proof (triple_write_metadata _ _ _ Hrun Ho) as H.
      destruct r; [|exact H]. exists (WalletMetadata_from_state s). split; [|exact H].
      apply (ow_same _ _ _ _) in Ho. apply same_wallet_spec in Ho as (_ & Hw & Hi).
      unfold auth_ctx. simpl. by rewrite Hw, Hi.
    + apply triple_ret. intros d Ho. by exists m.
  - intros ?. apply (triple_bind _ _ _ _ (fun _ => J)).
    + destruct pa; [by apply triple_ret|]. intros w w' r Hrun (m1 & Hctx & Ho).
      pose proof (triple_write_authenticator random m1 _ Hctx _ _ _ Hrun Ho) as H.
      destruct r; [by exists m1|by exists m1].
    + intros ?. apply triple_ret. auto.
Qed.
End reload.
