(* ===== verification/Directories.v ===== *)
(** * Wallet directories in their place

    The operations of [WalletDirectory] in crates/dom-wallet-storage/src/lib.rs that
    work on the directory that holds the wallets: creating a wallet in a staging
    directory and renaming it into place, resuming and aborting that, opening and
    inspecting a directory, and exporting and importing backups.  A place has named
    entries, and its calls may fail like those inside a directory (Storage): a list
    of faults covers every error and, failing from some call on, every crash. *)

From S2P Require Import Prelude Bytes Codecs DomainTypes Lifecycle WalletOps Validation Envelope Storage Reload.

(** ** Places *)

(** A symbolic link is kept by whether what it points to exists. *)
Inductive Entry :=
| Directory (d : Disk)
| Regular (b : bytes)
| Symlink (target_exists : bool).

Record Place := mkPlace {
  pl_entries : gmap bytes Entry;
  pl_faults : list Fault;
}.
Definition fs (A : Type) : Type := method Place StErr.StorageError A.
Abbreviation entries := (@gmap bytes (@list_eq_dec byte byte_eq_dec) (@list_countable byte byte_eq_dec byte_countable) Entry).

(** A call that changes the entries by [f], and one that reads them. *)
Definition change (f : entries -> entries) : fs unit := fun p =>
  match p.(pl_faults) with
  | [] => (mkPlace (f p.(pl_entries)) [], Ok tt)
  | Fine :: faults => (mkPlace (f p.(pl_entries)) faults, Ok tt)
  | Before kind :: faults => (mkPlace p.(pl_entries) faults, Err (StErr.Io kind))
  | After kind :: faults => (mkPlace (f p.(pl_entries)) faults, Err (StErr.Io kind))
  end.
Definition peek {A} (f : entries -> result StErr.StorageError A) : fs A := fun p =>
  match p.(pl_faults) with
  | [] => (p, f p.(pl_entries))
  | Fine :: faults => (mkPlace p.(pl_entries) faults, f p.(pl_entries))
  | (Before kind | After kind) :: faults => (mkPlace p.(pl_entries) faults, Err (StErr.Io kind))
  end.
Definition raise {A} (r : result StErr.StorageError A) : fs A := mread (fun _ => r).
(** [symlink_metadata], where a missing entry is no error. *)
Definition entry (name : bytes) : fs (option Entry) := peek (fun e => Ok (e !! name)).
(** [path.exists()] follows links and hides errors. *)
Definition is_there (e : option Entry) : bool :=
  match e with Some (Directory _ | Regular _) => true | Some (Symlink b) => b | None => false end.
Definition exists_at (name : bytes) : fs bool := fun p =>
  match peek (fun e => Ok (is_there (e !! name))) p with
  | (p, Ok b) => (p, Ok b)
  | (p, Err _) => (p, Ok false)
  end.
(** Work inside a directory of the place. *)
Definition inside {A} (name : bytes) (m : io A) : fs A := fun p =>
  match p.(pl_entries) !! name with
  | Some (Directory d) =>
      let '(w, r) := m (mkWorld d p.(pl_faults)) in
      (mkPlace (<[name := Directory w.(w_disk)]> p.(pl_entries)) w.(w_faults), r)
  | _ => (p, Err (StErr.Io StErr.OtherKind))
  end.
Definition sync_parent : fs unit := change (fun e => e).

(** [fs::rename] of a directory: it replaces nothing but an empty directory. *)
Definition empty_disk : Disk := mkDisk ∅ ∅.
Definition is_empty_directory (e : Entry) : bool :=
  match e with
  | Directory d => bool_decide (map_to_list d.(dk_files) = []) && bool_decide (map_to_list d.(dk_generations) = [])
  | _ => false
  end.
Definition rename_directory (from to : bytes) : fs unit :=
  let! d := peek (fun e =>
    let? d := ok_or (e !! from) (StErr.Io StErr.OtherKind) in
    fail_if (negb (is_none_or (e !! to) is_empty_directory)) (StErr.Io StErr.OtherKind) ;?
    Ok d) in
  change (fun e => <[to := d]> (delete from e)).

(** [fs::remove_dir_all]: the files and the generations one by one, then the
    directory. *)
Definition remove_dir_all (name : bytes) : fs unit :=
  inside name (fun w =>
    (mfor (map fst (map_to_list w.(w_disk).(dk_files))) (fun f => act (drop_file f)) ;;;
     mfor (map fst (map_to_list w.(w_disk).(dk_generations))) remove_generation_dir) w) ;;;
  change (delete name).
(** [let _ = ...]: whether it fails is not looked at. *)
Definition ignore {A} (m : fs A) : fs unit := fun p => ((m p).1, Ok tt).
(** [result] after a cleanup that runs if it is an error. *)
Definition or_clean_up {A} (m : fs A) (cleanup : fs unit) : fs A := fun p =>
  match m p with
  | (p, Ok a) => (p, Ok a)
  | (p, Err e) => ((ignore cleanup p).1, Err e)
  end.

(** ** Creating and opening *)

Definition create_staging_path (root : bytes) : bytes := str "." ++ root ++ str ".create-staging".

Section directories.
Context {code : CryptoCode} {json : StateCode}.

(** A regular file is there. *)
Definition require_regular_file (file : Disk -> option bytes) : io unit :=
  look (fun d => fail_if (negb (is_some (file d))) (StErr.Io StErr.OtherKind)).

(** [inspect_structure] of an entry that is a directory. *)
Definition inspect_directory : io WalletMetadata :=
  look (fun _ => Ok tt) ;;;
  require_regular_file (root_file METADATA_FILE) ;;;
  let! metadata_bytes := read_bounded METADATA_FILE in
  let! m := lift (metadata_check metadata_bytes) in
  require_regular_file (root_file ACTIVE_FILE) ;;;
  let! active_bytes := read_bounded ACTIVE_FILE in
  lift (fail_if (negb (is_utf8 active_bytes)) StErr.InvalidActiveGeneration) ;;;
  let! active := lift (parse_generation active_bytes) in
  lift (fail_if (negb (active =? m.(wm_active_generation)) && negb (interrupted m active))
                StErr.GenerationConflict) ;;;
  look (fun _ => Ok tt) ;;;
  look (fun d => fail_if (negb (has_generation active d)) (StErr.Io StErr.OtherKind)) ;;;
  require_regular_file (state_file active) ;;;
  let! state_encoded := read_state_envelope active in
  let! _ := lift (map_err (decode state_encoded) StErr.AuthenticatedPayloadCorrupt) in
  let! present := exists_ (has_file AUTHENTICATION_FILE) in
  (if present : bool then
     require_regular_file (root_file AUTHENTICATION_FILE) ;;;
     let! encoded := read_bounded AUTHENTICATION_FILE in
     let! _ := lift (map_err (decode encoded) StErr.AuthenticationDataCorrupt) in
     mret tt
   else mret tt) ;;;
  mret m.
Definition inspect_structure (name : bytes) : fs WalletMetadata :=
  let! found := entry name in
  match found with
  | Some (Directory _) => inside name inspect_directory
  | Some _ => raise (Err StErr.UnsafePath)
  | None => raise (Err (StErr.Io StErr.OtherKind))
  end.

(** [acquire_writer_lock]: another writer shows as a call that would block. *)
Definition acquire_writer_lock : io unit :=
  let! _ := exists_ (fun _ => false) in
  act (fun d => d) ;;;
  fun w => match act (fun d => d) w with
           | (w, Err (StErr.Io StErr.WouldBlock)) => (w, Err StErr.WriterActive)
           | (w, r) => (w, r)
           end.

Definition open_directory (root : bytes) : fs unit :=
  let! found := entry root in
  match found with
  | Some (Directory _) => let! _ := inspect_structure root in inside root acquire_writer_lock
  | _ => raise (Err StErr.NotFound)
  end.

(** [create_private_directory]: created, then checked and restricted. *)
Definition create_private_directory (name : bytes) : fs unit :=
  peek (fun e => fail_if (is_some (e !! name)) (StErr.Io StErr.OtherKind)) ;;;
  change (<[name := Directory empty_disk]>) ;;;
  peek (fun _ => Ok tt) ;;;
  change (fun e => e).

(** What the system gives a creation: the randomness of the state's envelope and
    of the authenticator. *)
Definition create_directory (random random' : option (bytes * bytes)) (root : bytes) (state : WalletState)
    (password : bytes) (kdf : KdfParameters) : fs unit :=
  let! found := entry root in
  match found with
  | Some (Symlink _) => raise (Err StErr.UnsafePath)
  | Some _ => raise (Err StErr.AlreadyExists)
  | None =>
      peek (fun _ => Ok tt) ;;;
      let staging := create_staging_path root in
      let! found := entry staging in
      match found with
      | Some (Symlink _) => raise (Err StErr.UnsafePath)
      | Some _ => raise (Err StErr.IncompleteGeneration)
      | None =>
          raise (domain_error (WalletState_validate state)) ;;;
          create_private_directory staging ;;;
          or_clean_up
            (inside staging (act (fun d => d) ;;; look (fun _ => Ok tt) ;;; act (fun d => d)) ;;;
             inside staging acquire_writer_lock ;;;
             inside staging (publish_initial random random' state password kdf) ;;;
             inside staging sync_directory ;;;
             rename_directory staging root ;;;
             sync_parent ;;;
             open_directory root)
            (remove_dir_all staging)
      end
  end.

Definition unconfirmed (state : WalletState) : bool :=
  is_some_and state.(ws_recovery) (fun recovery =>
    bool_decide (recovery.(rm_scheme) = RECOVERY_SCHEME_BIP39_256_V1) && negb recovery.(rm_phrase_confirmed)).

Definition resume_create (random : option (bytes * bytes)) (root password : bytes) : fs WalletState :=
  let! present := exists_at root in
  raise (fail_if present StErr.AlreadyExists) ;;;
  let staging := create_staging_path root in
  let! _ := inspect_structure staging in
  open_directory staging ;;;
  let! state := inside staging (load random password) in
  raise (fail_if (negb (unconfirmed state)) StErr.IncompleteGeneration) ;;;
  inside staging sync_directory ;;;
  rename_directory staging root ;;;
  sync_parent ;;;
  open_directory root ;;;
  mret state.

Definition abort_create (random : option (bytes * bytes)) (root password : bytes) : fs unit :=
  let! present := exists_at root in
  raise (fail_if present StErr.AlreadyExists) ;;;
  let staging := create_staging_path root in
  let! _ := inspect_structure staging in
  open_directory staging ;;;
  let! _ := inside staging (load random password) in
  remove_dir_all staging ;;;
  sync_parent.
End directories.

(** ** Backups *)

Definition BACKUP_MAGIC : bytes := str "DOMWBK01".
Definition BACKUP_FORMAT_VERSION : N := 1.
Definition MAX_BACKUP_BYTES : N := MAX_ENVELOPE_BYTES + 1024 * 1024.

Record BackupContainer := mkBackupContainer {
  bc_magic : bytes;
  bc_format_version : N;
  bc_created_unix_seconds : N;
  bc_wallet_id : N;
  bc_identity : NetworkIdentity;
  bc_envelope : EncryptedEnvelope;
}.
Record BackupPayload := mkBackupPayload {
  bp_payload_version : N;
  bp_state : WalletState;
  bp_rescan_plan : option RescanPlan;
}.

(** [serde_json] for the two records, and what is relied on: what was written
    reads back, and what is read has the fields' types. *)
Class BackupCode := {
  container_to_json : BackupContainer -> option bytes;
  container_from_json : bytes -> option BackupContainer;
  payload_to_json : BackupPayload -> option bytes;
  payload_from_json : bytes -> option BackupPayload;
}.
Class BackupLaws (json : StateCode) (backup : BackupCode) : Prop := {
  plan_round : forall plan b, plan_to_json plan = Some b -> plan_from_json b = Some plan;
  container_round : forall c b, container_to_json c = Some b -> container_from_json b = Some c;
  payload_round : forall p b, payload_to_json p = Some b -> payload_from_json b = Some p;
  payload_typed : forall p b, payload_from_json b = Some p ->
    metadata_typed (WalletMetadata_from_state p.(bp_state));
}.

Definition backup_context (created_unix_seconds wallet_id : N) (identity : NetworkIdentity) : bytes :=
  BACKUP_MAGIC ++ le_bytes 2 BACKUP_FORMAT_VERSION ++ le_bytes 8 created_unix_seconds
  ++ uuid_as_bytes wallet_id ++ identity.(ni_chain_id) ++ identity.(ni_genesis_id).

(** A file of the place, written beside and renamed, and read. *)
Definition write_file (name : bytes) (b : bytes) (max_bytes : N) : fs unit :=
  raise (fail_if (is_empty b || (max_bytes <? len b)) StErr.FileSizeOutOfBounds) ;;;
  peek (fun e => match e !! name with
                 | Some (Directory _ | Symlink _) => Err StErr.UnsafePath
                 | _ => Ok tt
                 end) ;;;
  change (fun e => e) ;;;
  change (<[name := Regular b]>) ;;;
  sync_parent.
Definition read_file (name : bytes) (max_bytes : N) : fs bytes :=
  peek (fun e => match e !! name with
                 | Some (Regular b) =>
                     fail_if (is_empty b || (max_bytes <? len b)) StErr.FileSizeOutOfBounds ;? Ok b
                 | _ => Err (StErr.Io StErr.OtherKind)
                 end).

Definition import_staging_path (destination : bytes) : bytes := str "." ++ destination ++ str ".backup-import".

Section backups.
Context {code : CryptoCode} {json : StateCode} {backup : BackupCode}.

(** What a backup file holds. *)
Definition backup_bytes (random : option (bytes * bytes)) (created_unix_seconds : N) (state : WalletState)
    (plan : option RescanPlan) (backup_password : bytes) (kdf : KdfParameters) : result StErr.StorageError bytes :=
  let? plaintext := ok_or (payload_to_json (mkBackupPayload BACKUP_FORMAT_VERSION state plan)) StErr.CanonicalEncoding in
  fail_if (is_empty plaintext || (max_plaintext_bytes ENVELOPE_VERSION <? len plaintext)) StErr.FileSizeOutOfBounds ;?
  let context := backup_context created_unix_seconds state.(ws_wallet_id) state.(ws_identity) in
  let? envelope := crypto (seal random plaintext backup_password context kdf) in
  ok_or (container_to_json (mkBackupContainer BACKUP_MAGIC BACKUP_FORMAT_VERSION created_unix_seconds
           state.(ws_wallet_id) state.(ws_identity) envelope)) StErr.CanonicalEncoding.

(** [export_backup] of the wallet directory [root]; [now] is the clock. *)
Definition export_backup (random random' : option (bytes * bytes)) (now : option N) (root wallet_password backup_password : bytes)
    (kdf : KdfParameters) (destination : bytes) : fs unit :=
  let! present := exists_at destination in
  raise (fail_if present StErr.BackupDestinationExists) ;;;
  let! state := inside root (load random wallet_password) in
  let! plan := inside root (load_rescan_plan state wallet_password) in
  let! created_unix_seconds := raise (ok_or now StErr.Clock) in
  let! encoded := raise (backup_bytes random' created_unix_seconds state plan backup_password kdf) in
  write_file destination encoded MAX_BACKUP_BYTES.

(** The checks of [import_backup]: the authenticated state and plan of a backup. *)
Definition read_backup (encoded backup_password : bytes) (expected_identity : NetworkIdentity)
    : result StErr.StorageError (WalletState * option RescanPlan) :=
  let? container := ok_or (container_from_json encoded) StErr.InvalidBackup in
  fail_if (negb (bool_decide (container.(bc_magic) = BACKUP_MAGIC))
           || negb (container.(bc_format_version) =? BACKUP_FORMAT_VERSION)) StErr.UnsupportedBackupVersion ;?
  fail_if (negb (bool_decide (container.(bc_identity) = expected_identity))) StErr.IdentityMismatch ;?
  let context := backup_context container.(bc_created_unix_seconds) container.(bc_wallet_id) container.(bc_identity) in
  let? plaintext := crypto (open container.(bc_envelope) backup_password context) in
  let? payload := ok_or (payload_from_json plaintext) StErr.InvalidBackup in
  fail_if (negb (payload.(bp_payload_version) =? BACKUP_FORMAT_VERSION)
           || negb (payload.(bp_state).(ws_wallet_id) =? container.(bc_wallet_id))
           || negb (bool_decide (payload.(bp_state).(ws_identity) = container.(bc_identity)))
           || negb (bool_decide (payload.(bp_state).(ws_identity) = expected_identity))) StErr.IdentityMismatch ;?
  let '(state, migrated) := migrate_transaction_exposure payload.(bp_state) in
  let? _ := domain_error migrated in
  let? _ := domain_error (WalletState_validate state) in
  fail_if (match payload.(bp_rescan_plan) with
           | Some plan => negb (plan.(rp_wallet_id) =? state.(ws_wallet_id))
                          || negb (bool_decide (plan.(rp_identity) = state.(ws_identity)))
           | None => false
           end) StErr.InvalidBackup ;?
  Ok (state, payload.(bp_rescan_plan)).

Definition import_backup (random random' random'' : option (bytes * bytes))
    (destination backup_path backup_password wallet_password : bytes)
    (expected_identity : NetworkIdentity) (kdf : KdfParameters) : fs unit :=
  let! present := exists_at destination in
  raise (fail_if present StErr.AlreadyExists) ;;;
  let! encoded := read_file backup_path MAX_BACKUP_BYTES in
  let! '(state, plan) := raise (read_backup encoded backup_password expected_identity) in
  let staging := import_staging_path destination in
  let! present := exists_at staging in
  raise (fail_if present StErr.IncompleteGeneration) ;;;
  or_clean_up (create_directory random random' staging state wallet_password kdf) (remove_dir_all staging) ;;;
  or_clean_up
    (match plan with
     | Some plan => inside staging (save_rescan_plan random'' state plan wallet_password kdf)
     | None => mret tt
     end ;;;
     rename_directory staging destination ;;;
     sync_parent)
    (remove_dir_all staging) ;;;
  open_directory destination.
End backups.

(** ** Lemmas: a new directory *)

Section initial.
Context {code : CryptoCode} {json : StateCode} {claws : CryptoLaws code} {slaws : StateLaws json}.
Context (password : bytes) (s : WalletState).
Context (Hvalid : WalletState_validate s = Ok tt) (Htyped : typed_state s).
Implicit Types (d : Disk).
Let m : WalletMetadata := WalletMetadata_from_state s.
Let always (d : Disk) : Prop := True.

Lemma fresh_same : same_wallet s.(ws_generation) m s = true.
Proof using. by apply same_wallet_spec. Qed.

Lemma triple_skip {A B} (P : Disk -> Prop) (x : io A) (k : A -> io B) R :
  keeps P x -> (forall a, triple P (k a) R always) -> triple P (mthen x k) R always.
Proof using. intros Hx Hk. by apply triple_keep. Qed.

Definition unauthenticated d : Prop := root_file AUTHENTICATION_FILE d = None.
Lemma triple_write_initial random kdf :
  triple unauthenticated (write_generation random s password kdf CompactV2)
    (fun _ d => unauthenticated d /\ staged password m s d) always.
Proof using Hvalid claws slaws.
  unfold write_generation, sync_directory, rename_generation_dir.
  do 4 (apply triple_skip; [first [by apply keeps_look|by apply keeps_exists|by apply keeps_lift|by apply keeps_act]|intros ?]).
  apply triple_lift_bind; [done|]. intros b Hb. apply triple_lift_bind; [done|]. intros _ He%fail_if_Ok.
  do 2 (apply triple_skip; [by apply keeps_act|intros ?]).
  apply (triple_bind _ _ _ _ (fun _ d => unauthenticated d /\ staged password m s d)).
  - apply triple_skip; [apply keeps_look|intros ?]. apply triple_act; [|done..].
    intros d Hd. split; [exact Hd|]. exists b. split; [unfold state_file; simpl; by rewrite lookup_insert_eq|].
    split; [exact He|]. eapply generation_bytes_open; [exact Hb|exact Hvalid|apply fresh_same].
  - intros ?. by apply triple_act.
Qed.

Lemma triple_authenticator random kdf :
  triple (fun d => unauthenticated d /\ staged password m s d) (write_authenticator random password m kdf)
    (fun _ d => staged password m s d /\ exists b e, root_file AUTHENTICATION_FILE d = Some b /\ auxiliary b
       /\ decode b = Ok e /\ open e password (auth_ctx m) = Ok AUTHENTICATION_PLAINTEXT) always.
Proof using claws.
  unfold write_authenticator.
  apply (triple_bind _ _ _ _ (fun b d => b = false /\ unauthenticated d /\ staged password m s d)).
  { apply triple_exists; [|auto]. intros d [Hd Hs]. unfold has_file. unfold unauthenticated, root_file in Hd.
    by rewrite Hd. }
  intros b. destruct b; [by intros w w' r _ [? _]|].
  apply triple_lift_bind; [done|]. intros e He. apply triple_lift_bind; [done|]. intros encoded Hen.
  destruct (seal _ _ _ _ _) as [e'|] eqn:Hs; simpl in He; [|done]. injection He as ->.
  destruct (encode e) as [b'|] eqn:Henc; simpl in Hen; [|done]. injection Hen as ->.
  assert (Hk : known_version ENVELOPE_VERSION) by by left.
  destruct (seal_good_header _ _ _ _ _ _ _ Hk Hs) as (Hg & Hver & Hlen).
  destruct (decode_encoded e encoded Hg) as (Hd & _); [by rewrite Hver|done|].
  apply triple_atomic_write; [|done..]. intros Hb d (_ & _ & Hst). split; [exact Hst|].
  exists encoded, e. unfold root_file. simpl. rewrite lookup_insert_eq. split; [done|]. split; [exact Hb|].
  split; [exact Hd|]. by eapply open_sealed.
Qed.

(** What publishing a new wallet leaves opens to it. *)
Lemma triple_publish_initial random random' kdf :
  triple unauthenticated (publish_initial random random' s password kdf)
    (fun _ d => published password s d) always.
Proof using Hvalid Htyped claws slaws.
  unfold publish_initial, publish_pointer_and_metadata, write_metadata, atomic_write, sync_directory.
  apply (triple_bind _ _ _ _ (fun _ d => unauthenticated d /\ staged password m s d)); [apply triple_write_initial|intros ?].
  apply (triple_bind _ _ _ _ (fun _ d => unauthenticated d /\ staged password m s d)).
  { apply triple_atomic_write; [|done..]. intros _ d [Hd Hs]. split; [|exact Hs].
    unfold unauthenticated, root_file in *. simpl. by rewrite lookup_insert_ne. }
  intros ?. eapply triple_bind; [apply triple_authenticator|intros ?]. simpl.
  set (named := fun d => staged password m s d /\ (exists b e, root_file AUTHENTICATION_FILE d = Some b /\ auxiliary b
       /\ decode b = Ok e /\ open e password (auth_ctx m) = Ok AUTHENTICATION_PLAINTEXT)
       /\ root_file ACTIVE_FILE d = Some (generation_name s.(ws_generation))).
  apply (triple_bind _ _ _ _ (fun _ => named)).
  { apply triple_atomic_write; [|done..]. intros _ d [Hs Ha]. split; [exact Hs|].
    unfold root_file in *. simpl. by rewrite lookup_insert_ne, lookup_insert_eq. }
  intros ?. apply triple_lift_bind; [done|]. intros b Hj%ok_or_Ok.
  apply (triple_bind _ _ _ _ (fun _ => published password s)); [|intros ?; by apply triple_act].
  apply triple_atomic_write; [|done..]. intros Hb d (Hs & Ha & Hact). exists m.
  destruct (generation_name_bytes s.(ws_generation)) as [Hu Hsize].
  split; unfold root_file in *; simpl; try (by rewrite lookup_insert_ne).
  - exists b. rewrite lookup_insert_eq. split; [done|]. split; [exact Hb|]. by apply metadata_check_from_state.
  - exists (generation_name s.(ws_generation)). rewrite lookup_insert_ne by done. split; [done|].
    split; [exact Hsize|]. split; [exact Hu|]. apply parse_generation_name. apply Htyped.
  - exact Hs.
  - apply fresh_same.
  - exact Hvalid.
  - by left.
Qed.
End initial.

(** ** Lemmas: calls in a place *)

(** [ptriple P m Q C]: from entries in [P], [m] ends with a value and entries in
    [Q], or fails with entries in [C], whatever calls fail. *)
Definition ptriple {A : Type} (P : entries -> Prop) (m : fs A) (Q : A -> entries -> Prop) (C : entries -> Prop) : Prop :=
  forall p p' r, m p = (p', r) -> P p.(pl_entries) ->
    match r with Ok a => Q a p'.(pl_entries) | Err _ => C p'.(pl_entries) end.

Section ptriples.
Context {A B : Type}.
Implicit Types (P C : entries -> Prop).

Lemma ptriple_bind P C (m : fs A) (k : A -> fs B) Q R :
  ptriple P m Q C -> (forall a, ptriple (Q a) (k a) R C) -> ptriple P (mthen m k) R C.
Proof.
  intros Hm Hk p p' r H HP. unfold mthen in H. destruct (m p) as [p1 [a|e]] eqn:Em.
  - apply (Hk a _ _ _ H). by apply (Hm _ _ _ Em).
  - injection H as <- <-. by apply (Hm _ _ _ Em).
Qed.
Lemma ptriple_ret P C (a : A) (Q : A -> entries -> Prop) : (forall e, P e -> Q a e) -> ptriple P (mret a) Q C.
Proof. intros H p p' r [= <- <-]. apply H. Qed.
Lemma ptriple_raise P C (x : result StErr.StorageError A) Q :
  (forall a e, x = Ok a -> P e -> Q a e) -> (forall e, P e -> C e) -> ptriple P (raise x) Q C.
Proof. intros HQ HC p p' r [= <- <-] HP. destruct x; auto. Qed.
Lemma ptriple_peek P C (f : entries -> result StErr.StorageError A) Q :
  (forall a e, f e = Ok a -> P e -> Q a e) -> (forall e, P e -> C e) -> ptriple P (peek f) Q C.
Proof.
  intros HQ HC p p' r H HP. unfold peek in H.
  destruct (pl_faults p) as [|[] ?]; injection H as <- <-; simpl; auto;
    destruct (f (pl_entries p)) eqn:E; auto.
Qed.
Lemma ptriple_clean P C (m : fs A) (cleanup : fs unit) Q :
  ptriple P m Q C -> ptriple C cleanup (fun _ => C) C -> ptriple P (or_clean_up m cleanup) Q C.
Proof.
  intros Hm Hc p p' r H HP. unfold or_clean_up, ignore in H. destruct (m p) as [p1 [a|e]] eqn:Em.
  - injection H as <- <-. by apply (Hm _ _ _ Em).
  - injection H as <- <-. destruct (cleanup p1) as [p2 r2] eqn:Ec. simpl.
    pose proof (Hm _ _ _ Em HP) as H1. pose proof (Hc _ _ _ Ec H1). by destruct r2.
Qed.
Lemma ptriple_weaken P P' C C' (m : fs A) Q Q' :
  ptriple P' m Q' C' -> (forall e, P e -> P' e) -> (forall a e, Q' a e -> Q a e) ->
  (forall e, C' e -> C e) -> ptriple P m Q C.
Proof. intros Hm HP HQ HC p p' r H Hp. specialize (Hm _ _ _ H (HP _ Hp)). destruct r; auto. Qed.
End ptriples.

Lemma ptriple_change (P C : entries -> Prop) (f : entries -> entries) (Q : unit -> entries -> Prop) :
  (forall e, P e -> Q tt (f e)) -> (forall e, P e -> C e) -> (forall e, P e -> C (f e)) ->
  ptriple P (change f) Q C.
Proof.
  intros HQ HC HC' p p' r H HP. unfold change in H.
  destruct (pl_faults p) as [|[] ?]; injection H as <- <-; simpl; auto.
Qed.
Lemma ptriple_entry (name : bytes) (P C : entries -> Prop) (Q : option Entry -> entries -> Prop) :
  (forall e, P e -> Q (e !! name) e) -> (forall e, P e -> C e) -> ptriple P (entry name) Q C.
Proof. intros HQ HC. apply ptriple_peek; [|done]. intros a e [= <-]. apply HQ. Qed.
Lemma ptriple_exists (name : bytes) (P C : entries -> Prop) (Q : bool -> entries -> Prop) :
  (forall e, P e -> Q (is_there (e !! name)) e) -> (forall e, P e -> Q false e) -> ptriple P (exists_at name) Q C.
Proof.
  intros HQ HF p p' r H HP. unfold exists_at, peek in H.
  destruct (pl_faults p) as [|[] ?]; injection H as <- <-; simpl; auto.
Qed.

Lemma ptriple_const {A : Type} (F : Prop) (P C : entries -> Prop) (m : fs A) Q :
  (F -> ptriple P m Q C) -> ptriple (fun e => P e /\ F) m Q C.
Proof. intros H p p' r Hr [HP HF]. by apply (H HF _ _ _ Hr). Qed.
Lemma ptriple_found (P C : entries -> Prop) (name : bytes) (x : option Entry) :
  (forall e, P e -> e !! name = x) -> (forall e, P e -> C e) ->
  ptriple P (entry name) (fun y e => P e /\ y = x) C.
Proof. intros H HC. apply ptriple_entry; [|done]. intros e He. split; [done|]. by apply H. Qed.

(** Entries that are [E] with a directory of its own under [name]. *)
Definition held (E : entries) (name : bytes) (P : Disk -> Prop) (e : entries) : Prop :=
  exists d, e = <[name := Directory d]> E /\ P d.

Lemma held_mono (name : bytes) (E e : entries) (P P' : Disk -> Prop) : (forall d, P d -> P' d) -> held E name P e -> held E name P' e.
Proof. intros H (d & -> & Hd). exists d. auto. Qed.
Lemma held_root (name : bytes) (E e : entries) P : held E name P e -> exists d, e !! name = Some (Directory d) /\ P d.
Proof. intros (d & -> & Hd). exists d. by rewrite lookup_insert_eq. Qed.

Lemma ptriple_inside {A : Type} (name : bytes) (E : entries) (m : io A) (P : Disk -> Prop) Q (C : Disk -> Prop) :
  triple P m Q C ->
  ptriple (held E name P) (inside name m) (fun a => held E name (Q a)) (held E name C).
Proof.
  intros Hm p p' r H (d & He & Hd). unfold inside in H. rewrite He, lookup_insert_eq in H.
  destruct (m (mkWorld d (pl_faults p))) as [w r1] eqn:Em. injection H as <- <-. simpl.
  specialize (Hm _ _ _ Em Hd). destruct r1; (exists (w_disk w); split; [by rewrite insert_insert_eq|done]).
Qed.
Lemma ptriple_rename (from to : bytes) (E : entries) (P : Disk -> Prop) (C : entries -> Prop) :
  E !! from = None -> (forall e, held E from P e -> C e) -> (forall e, held E to P e -> C e) ->
  ptriple (held E from P) (rename_directory from to) (fun _ => held E to P) C.
Proof.
  intros Hf HC HC'. unfold rename_directory.
  apply (ptriple_bind _ _ _ _ (fun d e => held E from P e /\ e !! from = Some d)).
  - apply ptriple_peek; [|done]. intros x e (d & Hd%ok_or_Ok & H)%rbind_Ok Hh.
    apply then_Ok in H as [_ [= ->]]. done.
  - intros x. assert (Ht : forall e, held E from P e /\ e !! from = Some x -> held E to P (<[to:=x]> (delete from e))).
    { intros e [(d & -> & Hd) Hx]. rewrite lookup_insert_eq in Hx. injection Hx as <-. exists d.
      by rewrite delete_insert_id. }
    apply ptriple_change; [done|by intros e [? _]; apply HC|]. intros e He. by apply HC', Ht.
Qed.

Lemma ptriple_remove (name : bytes) (E : entries) (C : entries -> Prop) :
  E !! name = None -> C E -> (forall e, held E name (fun _ => True) e -> C e) ->
  ptriple (held E name (fun _ => True)) (remove_dir_all name) (fun _ => C) C.
Proof.
  intros Hn HC HC'. unfold remove_dir_all.
  apply (ptriple_bind _ _ _ _ (fun _ => held E name (fun _ => True))).
  - eapply ptriple_weaken; [apply (ptriple_inside name E _ (fun _ => True) (fun _ _ => True) (fun _ => True))|done..].
    intros w w' r _ _. by destruct r.
  - intros ?. apply ptriple_change; [|done|];
      (intros e (d & -> & _); by rewrite delete_insert_id).
Qed.
Lemma remove_absent (name : bytes) p : p.(pl_entries) !! name = None ->
  remove_dir_all name p = (p, Err (StErr.Io StErr.OtherKind)).
Proof. intros H. unfold remove_dir_all, mthen, inside. by rewrite H. Qed.

Lemma authenticate_keeps {code : CryptoCode} P password m : keeps P (authenticate_password password m).
Proof.
  unfold authenticate_password. apply keeps_bind; [apply keeps_exists|intros present].
  destruct (negb present); [apply keeps_ret|]. intros w w' r H Hw. unfold read_bounded in H.
  destruct (read_bounded_with_limit _ _ w) as [w1 r1] eqn:E.
  pose proof (keeps_read P _ _ _ _ _ E Hw) as Hr. destruct r1; simplify_eq; [by destruct (rbind _ _)|done].
Qed.

(** Goes through the calls of an operation; [wrote] closes what a written file is
    to be shown. *)
Ltac keep_calls wrote :=
  repeat first
    [ apply keeps_ret | apply keeps_look | apply keeps_read | apply keeps_lift | apply keeps_exists
    | apply keeps_metadata | apply keeps_active | apply authenticate_keeps
    | apply keeps_atomic_write; intros ?; wrote | apply keeps_act; by intros ?
    | apply keeps_bind; [|intros ?] | case_match ].

Section creation.
Context {code : CryptoCode} {json : StateCode} {claws : CryptoLaws code} {slaws : StateLaws json}.

Lemma inspect_keeps P : keeps P inspect_directory.
Proof.
  unfold inspect_directory, require_regular_file, read_bounded, read_state_envelope.
  keep_calls idtac.
Qed.
Lemma lock_keeps P : keeps P acquire_writer_lock.
Proof.
  unfold acquire_writer_lock. apply keeps_bind; [apply keeps_exists|intros ?].
  apply keeps_bind; [by apply keeps_act|intros ?]. intros w w' r H HP.
  pose proof (keeps_act P (fun d => d) (fun _ H => H) w) as Hk.
  destruct (act _ w) as [w1 r1] eqn:E. specialize (Hk _ _ eq_refl HP).
  destruct r1 as [|[] ]; simplify_eq; try done. case_match; simplify_eq; done.
Qed.

Lemma inside_keeps {A : Type} (name : bytes) (E : entries) (m : io A) (P : Disk -> Prop) :
  keeps P m -> ptriple (held E name P) (inside name m) (fun _ => held E name P) (held E name P).
Proof. apply ptriple_inside. Qed.
Lemma inspect_structure_keeps (name : bytes) (E : entries) P :
  ptriple (held E name P) (inspect_structure name) (fun _ => held E name P) (held E name P).
Proof.
  unfold inspect_structure. apply (ptriple_bind _ _ _ _ (fun _ => held E name P)); [by apply ptriple_entry|].
  intros [[]|]; try (by apply ptriple_raise). apply inside_keeps, inspect_keeps.
Qed.
Lemma open_directory_keeps (name : bytes) (E : entries) P :
  ptriple (held E name P) (open_directory name) (fun _ => held E name P) (held E name P).
Proof.
  unfold open_directory. apply (ptriple_bind _ _ _ _ (fun _ => held E name P)); [by apply ptriple_entry|].
  intros [[]|]; try (by apply ptriple_raise). eapply ptriple_bind; [apply inspect_structure_keeps|].
  intros ?. apply inside_keeps, lock_keeps.
Qed.

(** A directory that holds the wallet [s] and no rescan plan. *)
Definition planless d : Prop := root_file RESCAN_PLAN_FILE d = None.
Definition created (password : bytes) (s : WalletState) d : Prop := published password s d /\ planless d.

Lemma planless_put name b d : name <> RESCAN_PLAN_FILE -> planless d -> planless (put_file name b d).
Proof. intros Hn Hd. unfold planless, root_file in *. simpl. by rewrite lookup_insert_ne. Qed.

Lemma publish_initial_planless random random' s password kdf :
  keeps planless (publish_initial random random' s password kdf).
Proof.
  unfold publish_initial, publish_pointer_and_metadata, write_generation, write_authenticator, write_metadata,
    atomic_write, sync_directory, rename_generation_dir.
  keep_calls ltac:(by apply planless_put).
Qed.

Lemma publish_initial_created random random' s password kdf :
  WalletState_validate s = Ok tt -> typed_state s ->
  triple (eq empty_disk) (publish_initial random random' s password kdf) (fun _ => created password s) (fun _ => True).
Proof.
  intros Hv Ht w w' r H He. assert (Hu : unauthenticated w.(w_disk)) by by rewrite <- He.
  assert (Hp : planless w.(w_disk)) by by rewrite <- He.
  pose proof (triple_publish_initial password s Hv Ht random random' kdf _ _ _ H Hu) as H1.
  pose proof (publish_initial_planless _ _ _ _ _ _ _ _ H Hp) as H2. by destruct r.
Qed.

(** What a creation of [root] may leave of the entries [E] it started from. *)
Definition creation_left (root password : bytes) (s : WalletState) (E e : entries) : Prop :=
  e = E \/ held E (create_staging_path root) (fun _ => True) e \/ held E root (created password s) e.

Lemma create_private_directory_holds (name : bytes) (E : entries) (C : entries -> Prop) :
  (forall e, E = e -> C e) -> (forall e, held E name (fun _ => True) e -> C e) ->
  ptriple (eq E) (create_private_directory name) (fun _ => held E name (eq empty_disk)) C.
Proof.
  intros HE HS. assert (HS' : forall e, held E name (eq empty_disk) e -> C e).
  { intros e H. apply HS. by eapply held_mono; [|exact H]. }
  assert (Hc : forall e, E = e -> held E name (eq empty_disk) (<[name := Directory empty_disk]> e)).
  { intros e <-. by exists empty_disk. }
  unfold create_private_directory. apply (ptriple_bind _ _ _ _ (fun _ => eq E)); [by apply ptriple_peek|intros ?].
  apply (ptriple_bind _ _ _ _ (fun _ => held E name (eq empty_disk))); [apply ptriple_change; auto|intros ?].
  apply (ptriple_bind _ _ _ _ (fun _ => held E name (eq empty_disk))); [by apply ptriple_peek|intros ?].
  by apply ptriple_change.
Qed.

Lemma staging_differs root : create_staging_path root <> root.
Proof.
  intros H. apply (f_equal length) in H. unfold create_staging_path in H. rewrite !length_app in H. simpl in H. lia.
Qed.

Lemma cleanup_leaves (root : bytes) password s (E : entries) :
  E !! create_staging_path root = None ->
  ptriple (creation_left root password s E) (remove_dir_all (create_staging_path root))
    (fun _ => creation_left root password s E) (creation_left root password s E).
Proof.
  intros Hn p p' r H [HE|[HS|HR]].
  - rewrite remove_absent in H by by rewrite HE. injection H as <- <-. by left.
  - pose proof (ptriple_remove (create_staging_path root) E (creation_left root password s E) Hn) as Hr.
    specialize (Hr (or_introl eq_refl) (fun e H => or_intror (or_introl H)) _ _ _ H HS). by destruct r.
  - pose proof HR as (d & Hd & _). rewrite remove_absent in H.
    + injection H as <- <-. by right; right.
    + rewrite Hd, lookup_insert_ne; [done|]. intros Heq. by apply (staging_differs root).
Qed.

Lemma create_directory_leaves random random' (root : bytes) s password kdf (E : entries) :
  E !! root = None -> E !! create_staging_path root = None -> typed_state s ->
  ptriple (eq E) (create_directory random random' root s password kdf)
    (fun _ => held E root (created password s)) (creation_left root password s E).
Proof.
  intros Hroot Hstaging Ht. set (staging := create_staging_path root).
  assert (HE : forall e, E = e -> creation_left root password s E e) by (intros e <-; by left).
  assert (HS : forall P e, held E staging P e -> creation_left root password s E e).
  { intros P e H. right; left. by eapply held_mono; [|exact H]. }
  assert (HR : forall e, held E root (created password s) e -> creation_left root password s E e) by (intros e; by right; right).
  unfold create_directory. eapply ptriple_bind; [apply (ptriple_found _ _ root None); [by intros e <-|exact HE]|].
  intros found. apply ptriple_const. intros ->. fold staging.
  apply (ptriple_bind _ _ _ _ (fun _ => eq E)); [by apply ptriple_peek|intros ?].
  eapply ptriple_bind; [apply (ptriple_found _ _ staging None); [by intros e <-|exact HE]|].
  intros found. apply ptriple_const. intros ->.
  apply (ptriple_bind _ _ _ _ (fun _ e => E = e /\ WalletState_validate s = Ok tt)).
  { apply ptriple_raise; [|exact HE]. intros [] e Hv He. split; [done|]. unfold domain_error in Hv.
    by destruct (WalletState_validate s) as [[]|]. }
  intros _. apply ptriple_const. intros Hv.
  apply (ptriple_bind _ _ _ _ (fun _ => held E staging (eq empty_disk))).
  { apply create_private_directory_holds; [exact HE|apply HS]. }
  intros _. apply ptriple_clean.
  2: { by apply cleanup_leaves. }
  apply (ptriple_bind _ _ _ _ (fun _ => held E staging (eq empty_disk))).
  { eapply ptriple_weaken; [apply inside_keeps|done|done|apply HS].
    do 2 (apply keeps_bind; [first [by apply keeps_act|apply keeps_look]|intros ?]). by apply keeps_act. }
  intros _. apply (ptriple_bind _ _ _ _ (fun _ => held E staging (eq empty_disk))).
  { eapply ptriple_weaken; [apply inside_keeps, lock_keeps|done|done|apply HS]. }
  intros _. apply (ptriple_bind _ _ _ _ (fun _ => held E staging (created password s))).
  { eapply ptriple_weaken; [by apply ptriple_inside, publish_initial_created|done|done|apply HS]. }
  intros _. apply (ptriple_bind _ _ _ _ (fun _ => held E staging (created password s))).
  { eapply ptriple_weaken; [apply inside_keeps; by apply keeps_act|done|done|apply HS]. }
  intros _. apply (ptriple_bind _ _ _ _ (fun _ => held E root (created password s))).
  { by apply ptriple_rename; [|apply HS|]. }
  intros _. apply (ptriple_bind _ _ _ _ (fun _ => held E root (created password s))); [by apply ptriple_change|].
  intros _. eapply ptriple_weaken; [apply open_directory_keeps|done|done|exact HR].
Qed.

(** *** Resuming *)

Lemma open_generation_decodes g password m p b s :
  open_generation g password m p b = Ok s -> exists e, decode b = Ok e.
Proof. unfold open_generation. intros H. apply rbind_Ok in H as (e & He & _). exists e. destruct (decode b); simpl in He; congruence. Qed.

Lemma require_clean file d b :
  file d = Some b -> require_regular_file file (mkWorld d []) = (mkWorld d [], Ok tt).
Proof. intros H. unfold require_regular_file, look. simpl. by rewrite H. Qed.
Lemma look_clean {A : Type} d (f : Disk -> result StErr.StorageError A) :
  look f (mkWorld d []) = (mkWorld d [], f d).
Proof. done. Qed.
Lemma lift_clean {A : Type} w (x : result StErr.StorageError A) : lift x w = (w, x).
Proof. done. Qed.
Lemma mthen_clean {A B : Type} (x : io A) (k : A -> io B) w w' a :
  x w = (w', Ok a) -> mthen x k w = k a w'.
Proof. intros H. unfold mthen. by rewrite H. Qed.

Lemma inspect_clean password m s d :
  opens_with password m s d -> inspect_directory (mkWorld d []) = (mkWorld d [], Ok m).
Proof.
  intros [(bm & Hm & Hbm & Hcm) (ba & e & Ha & Hba & Hd & _) (bp & Hp & Hbp & Hu & Hpp)
          (bs & Hs & Hbs & Hos) _ _ Hcur].
  assert ((negb (ws_generation s =? wm_active_generation m) && negb (interrupted m (ws_generation s)))
          = false) as Hc.
  { destruct Hcur as [->| ->]; [by rewrite N.eqb_refl|by rewrite andb_false_r]. }
  apply open_generation_decodes in Hos as [es Hes].
  assert (Hg : has_generation (ws_generation s) d = true).
  { unfold has_generation. unfold state_file in Hs. by destruct (dk_generations d !! _). }
  unfold inspect_directory, read_bounded, read_state_envelope.
  erewrite mthen_clean by (rewrite look_clean; reflexivity). rewrite (mthen_clean _ _ _ _ _ (require_clean _ _ _ Hm)).
  rewrite (mthen_clean _ _ _ _ _ (read_clean _ _ _ _ Hm Hbm)).
  erewrite mthen_clean by (rewrite lift_clean, Hcm; reflexivity).
  rewrite (mthen_clean _ _ _ _ _ (require_clean _ _ _ Hp)), (mthen_clean _ _ _ _ _ (read_clean _ _ _ _ Hp Hbp)).
  erewrite mthen_clean by (rewrite lift_clean, Hu; reflexivity).
  erewrite mthen_clean by (rewrite lift_clean, Hpp; reflexivity).
  erewrite mthen_clean by (rewrite lift_clean, Hc; reflexivity).
  erewrite mthen_clean by (rewrite look_clean; reflexivity).
  erewrite mthen_clean by (rewrite look_clean, Hg; reflexivity).
  rewrite (mthen_clean _ _ _ _ _ (require_clean _ _ _ Hs)), (mthen_clean _ _ _ _ _ (read_clean _ _ _ _ Hs Hbs)).
  erewrite mthen_clean by (rewrite lift_clean, Hes; reflexivity).
  assert (Hf : has_file AUTHENTICATION_FILE d = true) by (unfold has_file; unfold root_file in Ha; by rewrite Ha).
  erewrite mthen_clean by (unfold exists_; rewrite look_clean, Hf; reflexivity).
  erewrite mthen_clean; [reflexivity|].
  rewrite (mthen_clean _ _ _ _ _ (require_clean _ _ _ Ha)), (mthen_clean _ _ _ _ _ (read_clean _ _ _ _ Ha Hba)).
  by erewrite mthen_clean by (rewrite lift_clean, Hd; reflexivity).
Qed.

Lemma fs_step {A B : Type} (x : fs A) (k : A -> fs B) p p' a :
  x p = (p', Ok a) -> mthen x k p = k a p'.
Proof. intros H. unfold mthen. by rewrite H. Qed.
Lemma inside_run {A : Type} (name : bytes) (e : entries) d (m : io A) d' r :
  e !! name = Some (Directory d) -> m (mkWorld d []) = (mkWorld d' [], r) ->
  inside name m (mkPlace e []) = (mkPlace (<[name := Directory d']> e) [], r).
Proof. intros He Hm. unfold inside. cbn [pl_entries pl_faults]. by rewrite He, Hm. Qed.

Lemma inspect_structure_clean password m s (name : bytes) (e : entries) d :
  e !! name = Some (Directory d) -> opens_with password m s d ->
  inspect_structure name (mkPlace e []) = (mkPlace e [], Ok m).
Proof.
  intros He Ho. unfold inspect_structure. erewrite fs_step by reflexivity. cbn [pl_entries]. rewrite He.
  erewrite inside_run by (done || by eapply inspect_clean). by rewrite insert_id.
Qed.
Lemma open_directory_clean password m s (name : bytes) (e : entries) d :
  e !! name = Some (Directory d) -> opens_with password m s d ->
  open_directory name (mkPlace e []) = (mkPlace e [], Ok tt).
Proof.
  intros He Ho. unfold open_directory. erewrite fs_step by reflexivity. cbn [pl_entries]. rewrite He.
  erewrite fs_step by by eapply inspect_structure_clean. erewrite inside_run by (done || reflexivity).
  by rewrite insert_id.
Qed.

Lemma resume_create_leaves random (root password : bytes) s (E : entries) :
  E !! root = None -> E !! create_staging_path root = None ->
  ptriple (held E (create_staging_path root) (published password s)) (resume_create random root password)
    (fun s' e => s' = s /\ held E root (published password s) e)
    (fun e => held E (create_staging_path root) (published password s) e \/ held E root (published password s) e).
Proof.
  intros Hroot Hs. set (staging := create_staging_path root). set (S := held E staging (published password s)).
  unfold resume_create. apply (ptriple_bind _ _ _ _ (fun _ => S)); [by apply ptriple_exists|intros present].
  apply (ptriple_bind _ _ _ _ (fun _ => S)); [apply ptriple_raise; auto|intros ?]. fold staging.
  apply (ptriple_bind _ _ _ _ (fun _ => S)).
  { eapply ptriple_weaken; [apply inspect_structure_keeps|done|done|by left]. }
  intros ?. apply (ptriple_bind _ _ _ _ (fun _ => S)).
  { eapply ptriple_weaken; [apply open_directory_keeps|done|done|by left]. }
  intros ?. apply (ptriple_bind _ _ _ _ (fun s' e => S e /\ s' = s)).
  { intros p p' r Hr (d & He & m & Ho). unfold inside in Hr. rewrite He, lookup_insert_eq in Hr.
    destruct (load _ _ _) as [w r'] eqn:Hl. simplify_eq.
    pose proof (triple_load _ _ _ _ _ _ _ Hl Ho) as HQ. unfold S, held. cbn [pl_entries].
    destruct r as [s'|]; [split; [exists (w_disk w); split; [by rewrite insert_insert_eq|by apply HQ]|by apply HQ]|].
    left. exists (w_disk w). by rewrite insert_insert_eq. }
  intros s'. apply ptriple_const. intros ->. apply (ptriple_bind _ _ _ _ (fun _ => S)); [apply ptriple_raise; auto|intros ?].
  apply (ptriple_bind _ _ _ _ (fun _ => S)).
  { eapply ptriple_weaken; [apply inside_keeps; by apply keeps_act|done|done|by left]. }
  intros ?.
  apply (ptriple_bind _ _ _ _ (fun _ => held E root (published password s))).
  { apply ptriple_rename; [done|by left|by right]. }
  intros ?. apply (ptriple_bind _ _ _ _ (fun _ => held E root (published password s))); [apply ptriple_change; auto|intros ?].
  apply (ptriple_bind _ _ _ _ (fun _ => held E root (published password s))).
  { eapply ptriple_weaken; [apply open_directory_keeps|done|done|by right]. }
  intros ?. by apply ptriple_ret.
Qed.

Lemma rename_clean (from to : bytes) (e : entries) d :
  e !! from = Some (Directory d) -> e !! to = None ->
  rename_directory from to (mkPlace e []) = (mkPlace (<[to := Directory d]> (delete from e)) [], Ok tt).
Proof.
  intros Hf Ht. unfold rename_directory. erewrite fs_step.
  2: { unfold peek. cbn [pl_entries pl_faults]. rewrite Hf, Ht. reflexivity. }
  reflexivity.
Qed.
Lemma resume_create_clean random (root password : bytes) s (E : entries) d :
  E !! root = None -> published password s d -> typed_state s -> unconfirmed s = true ->
  (resume_create random root password (mkPlace (<[create_staging_path root := Directory d]> E) [])).2 = Ok s.
Proof.
  intros Hroot [m Ho] Ht Hu. pose proof (opens_with_loads _ _ _ _ Ho Ht random) as Hl.
  unfold run in Hl. destruct (load random password (mkWorld d [])) as [[d' f'] r] eqn:Hr. simpl in Hl. subst r.
  destruct (load_opens_with _ _ _ _ _ Hr) as (Hf & m' & Ho'). simpl in Hf, Ho'. subst f'.
  set (staging := create_staging_path root). set (e := <[staging := Directory d]> E).
  assert (Hne : staging <> root) by apply staging_differs.
  assert (He : e !! staging = Some (Directory d)) by (unfold e; by rewrite lookup_insert_eq).
  assert (Her : e !! root = None) by (unfold e; by rewrite lookup_insert_ne).
  unfold resume_create. erewrite fs_step by (unfold exists_at, peek; cbn [pl_entries pl_faults]; rewrite Her; reflexivity).
  erewrite fs_step by reflexivity. fold staging.
  erewrite fs_step by by eapply inspect_structure_clean. erewrite fs_step by by eapply open_directory_clean.
  erewrite fs_step by by eapply inside_run. erewrite fs_step by (unfold raise, mread; rewrite Hu; reflexivity).
  set (e' := <[staging := Directory d']> e).
  assert (He0 : e' !! staging = Some (Directory d')) by (unfold e'; by rewrite lookup_insert_eq).
  erewrite fs_step by (apply (inside_run _ _ d'); [exact He0|reflexivity]). rewrite (insert_id e') by done.
  assert (He' : e' !! staging = Some (Directory d')) by (unfold e'; by rewrite lookup_insert_eq).
  assert (Her' : e' !! root = None) by (unfold e'; by rewrite lookup_insert_ne).
  erewrite fs_step by by apply rename_clean.
  erewrite fs_step by reflexivity.
  erewrite fs_step; [reflexivity|]. eapply open_directory_clean; [|exact Ho']. cbn [pl_entries]. by rewrite lookup_insert_eq.
Qed.
End creation.

(** ** Lemmas: backups *)

Section importing.
Context {code : CryptoCode} {json : StateCode} {backup : BackupCode}.
Context {claws : CryptoLaws code} {slaws : StateLaws json} {blaws : BackupLaws json backup}.

Lemma backup_reads random now s plan password kdf b :
  backup_bytes random now s plan password kdf = Ok b -> WalletState_validate s = Ok tt ->
  is_none_or plan (fun plan => (plan.(rp_wallet_id) =? s.(ws_wallet_id)) && bool_decide (plan.(rp_identity) = s.(ws_identity)))
    = true ->
  read_backup b password s.(ws_identity) = Ok (s, plan).
Proof.
  intros H Hv Hplan. unfold backup_bytes in H. apply rbind_Ok in H as (p & Hp%ok_or_Ok & H).
  apply then_Ok in H as [_ H]. apply rbind_Ok in H as (e & He & Hc%ok_or_Ok).
  destruct (seal _ _ _ _ _) as [e'|] eqn:Hs; simpl in He; [|done]. injection He as ->.
  unfold read_backup. rewrite (container_round _ _ Hc). cbn [ok_or rbind]. simpl bc_magic. simpl bc_format_version.
  rewrite bool_decide_eq_true_2 by done. cbn [negb orb fail_if]. rewrite N.eqb_refl. cbn [negb fail_if].
  simpl bc_identity. rewrite bool_decide_eq_true_2 by done. cbn [negb fail_if].
  simpl bc_envelope. erewrite (open_sealed _ _ _ _ _ ENVELOPE_VERSION) by (by left || exact Hs). cbn [crypto rbind].
  rewrite (payload_round _ _ Hp). cbn [ok_or rbind]. simpl bp_state. simpl bp_payload_version. simpl bc_wallet_id.
  rewrite !N.eqb_refl, bool_decide_eq_true_2 by done. cbn [negb orb fail_if].
  destruct (migrate_validated s Hv) as [x ->]. cbn [domain_error rbind]. rewrite Hv. cbn [domain_error rbind].
  simpl bp_rescan_plan. destruct plan as [plan|]; [|done]. simpl in Hplan. by rewrite <- negb_andb, Hplan.
Qed.

(** The directory holds the wallet and the plan of a backup. *)
Definition plan_stored (password : bytes) (s : WalletState) (plan : option RescanPlan) (d : Disk) : Prop :=
  match plan with
  | None => planless d
  | Some plan => exists b e j, root_file RESCAN_PLAN_FILE d = Some b /\ enveloped b /\ decode b = Ok e
      /\ open e password (rescan_context s.(ws_wallet_id) s.(ws_identity)) = Ok j /\ plan_to_json plan = Some j
  end.
Definition restored (password : bytes) (s : WalletState) plan d : Prop :=
  published password s d /\ plan_stored password s plan d.

Lemma save_rescan_plan_stores random s plan password kdf (P C : Disk -> Prop) :
  (forall b d, P d -> P (put_file RESCAN_PLAN_FILE b d)) -> (forall d, P d -> C d) ->
  triple P (save_rescan_plan random s plan password kdf) (fun _ d => P d /\ plan_stored password s (Some plan) d) C.
Proof.
  intros HP HC. unfold save_rescan_plan. apply triple_lift_bind; [done|]. intros j Hj%ok_or_Ok.
  apply triple_lift_bind; [done|]. intros e He. apply triple_lift_bind; [done|]. intros b Hb.
  destruct (seal _ _ _ _ _) as [e'|] eqn:Hs; simpl in He; [|done]. injection He as ->.
  destruct (encode e) as [b'|] eqn:Henc; simpl in Hb; [|done]. injection Hb as ->.
  assert (Hk : known_version ENVELOPE_VERSION) by by left.
  destruct (seal_good_header _ _ _ _ _ _ _ Hk Hs) as (Hg & Hver & Hlen).
  destruct (decode_encoded e b Hg) as (Hd & _); [by rewrite Hver|done|].
  apply (triple_atomic_write P C); [|done|by intros d [? _]; auto].
  intros Hb d Hp. split; [by apply HP|]. exists b, e, j. unfold root_file. simpl. rewrite lookup_insert_eq.
  split; [done|]. split; [exact Hb|]. split; [done|]. split; [by eapply open_sealed|done].
Qed.

Lemma published_put_plan password s b d : published password s d -> published password s (put_file RESCAN_PLAN_FILE b d).
Proof.
  intros [m Ho]. exists m. eapply opens_with_agree; [|exact Ho].
  repeat split; unfold root_file; simpl; by rewrite lookup_insert_ne.
Qed.

(** What an import of the backup of [s] may leave of the entries [E]. *)
Definition import_left (destination password : bytes) (s : WalletState) (plan : option RescanPlan) (E e : entries) : Prop :=
  e = E \/ held E (create_staging_path (import_staging_path destination)) (fun _ => True) e
  \/ held E (import_staging_path destination) (fun _ => True) e
  \/ held E destination (restored password s plan) e.

Lemma import_staging_differs destination : import_staging_path destination <> destination.
Proof.
  intros H. apply (f_equal length) in H. unfold import_staging_path in H. rewrite !length_app in H. simpl in H. lia.
Qed.

Lemma import_cleanup (destination : bytes) password s plan (E : entries) :
  E !! import_staging_path destination = None ->
  ptriple (import_left destination password s plan E) (remove_dir_all (import_staging_path destination))
    (fun _ => import_left destination password s plan E) (import_left destination password s plan E).
Proof.
  intros Hn. set (staging := import_staging_path destination) in *.
  assert (Habsent : forall (name : bytes) P p p' r, name <> staging -> held E name P p.(pl_entries) ->
    remove_dir_all staging p = (p', r) -> import_left destination password s plan E p.(pl_entries) ->
    p' = p /\ match r with Ok _ => False | Err _ => True end).
  { intros name P p p' r Hne (d & Hd & _) H _. rewrite remove_absent in H by by rewrite Hd, lookup_insert_ne.
    by injection H as <- <-. }
  intros p p' r H Hl. pose proof Hl as [HE|[HS|[HS|HR]]].
  - rewrite remove_absent in H by by rewrite HE. injection H as <- <-. by left.
  - edestruct Habsent as [-> Hr]; [|exact HS|exact H|exact Hl|by destruct r]. apply staging_differs.
  - pose proof (ptriple_remove staging E (import_left destination password s plan E) Hn (or_introl eq_refl)) as Hr.
    specialize (Hr (fun e H => or_intror (or_intror (or_introl H))) _ _ _ H HS). by destruct r.
  - edestruct Habsent as [-> Hr]; [|exact HR|exact H|exact Hl|by destruct r].
    intros Heq. by apply (import_staging_differs destination).
Qed.

Lemma import_backup_leaves random random' random'' (destination backup_path : bytes) backup_password
    password identity kdf (E : entries) b s plan :
  E !! destination = None -> E !! import_staging_path destination = None ->
  E !! create_staging_path (import_staging_path destination) = None ->
  E !! backup_path = Some (Regular b) -> read_backup b backup_password identity = Ok (s, plan) -> typed_state s ->
  ptriple (eq E)
    (import_backup random random' random'' destination backup_path backup_password password identity kdf)
    (fun _ => held E destination (restored password s plan)) (import_left destination password s plan E).
Proof.
  intros Hdest Hst Hst2 Hb Hread Ht. set (staging := import_staging_path destination) in *.
  set (L := import_left destination password s plan E).
  assert (HE : forall e, E = e -> L e) by (intros e <-; by left).
  assert (HS : forall P e, held E staging P e -> L e).
  { intros P e H. right; right; left. by eapply held_mono; [|exact H]. }
  assert (HR : forall e, held E destination (restored password s plan) e -> L e) by (intros e; by right; right; right).
  unfold import_backup. apply (ptriple_bind _ _ _ _ (fun _ => eq E)); [by apply ptriple_exists|intros present].
  apply (ptriple_bind _ _ _ _ (fun _ => eq E)); [by apply ptriple_raise|intros ?].
  apply (ptriple_bind _ _ _ _ (fun b' e => E = e /\ b' = b)).
  { apply ptriple_peek; [|done]. intros b' e H <-. rewrite Hb in H. by apply then_Ok in H as [_ [= ->]]. }
  intros b'. apply ptriple_const. intros ->.
  apply (ptriple_bind _ _ _ _ (fun x e => E = e /\ x = (s, plan))).
  { apply ptriple_raise; [|done]. intros x e Hx <-. split; [done|]. congruence. }
  intros x. apply ptriple_const. intros ->. fold staging.
  apply (ptriple_bind _ _ _ _ (fun _ => eq E)); [by apply ptriple_exists|intros present'].
  apply (ptriple_bind _ _ _ _ (fun _ => eq E)); [by apply ptriple_raise|intros ?].
  apply (ptriple_bind _ _ _ _ (fun _ => held E staging (created password s))).
  { apply ptriple_clean; [|by apply import_cleanup].
    eapply ptriple_weaken; [by apply create_directory_leaves|done|done|].
    intros e [->|[H|H]]; [by left|by right; left|by eapply HS]. }
  intros _. apply (ptriple_bind _ _ _ _ (fun _ => held E destination (restored password s plan))).
  2: { intros ?. eapply ptriple_weaken; [apply open_directory_keeps|done|done|exact HR]. }
  apply ptriple_clean; [|by apply import_cleanup].
  apply (ptriple_bind _ _ _ _ (fun _ => held E staging (restored password s plan))).
  - destruct plan as [plan|]; [|by apply ptriple_ret].
    eapply ptriple_weaken; [apply ptriple_inside, (save_rescan_plan_stores _ _ _ _ _ (published password s))| | |apply HS].
    + intros b1 d. apply published_put_plan.
    + intros d Hd. exact (conj Hd I).
    + intros e. apply held_mono. by intros d [? _].
    + done.
  - intros _. apply (ptriple_bind _ _ _ _ (fun _ => held E destination (restored password s plan))); [|intros ?; by apply ptriple_change].
    by apply ptriple_rename; [|apply HS|].
Qed.

Lemma import_backup_refuses random random' random'' (destination backup_path : bytes) backup_password
    password identity kdf (E : entries) b e :
  E !! backup_path = Some (Regular b) -> read_backup b backup_password identity = Err e ->
  ptriple (eq E)
    (import_backup random random' random'' destination backup_path backup_password password identity kdf)
    (fun _ _ => False) (eq E).
Proof.
  intros Hb Hread. unfold import_backup.
  apply (ptriple_bind _ _ _ _ (fun _ => eq E)); [by apply ptriple_exists|intros present].
  apply (ptriple_bind _ _ _ _ (fun _ => eq E)); [by apply ptriple_raise|intros ?].
  apply (ptriple_bind _ _ _ _ (fun b' e => E = e /\ b' = b)).
  { apply ptriple_peek; [|done]. intros b' e' H <-. rewrite Hb in H. by apply then_Ok in H as [_ [= ->]]. }
  intros b'. apply ptriple_const. intros ->.
  apply (ptriple_bind _ _ _ _ (fun _ _ => False)); [|by intros ? ? ? ? ?].
  apply ptriple_raise; [|done]. intros x e' Hx. congruence.
Qed.

Lemma load_rescan_plan_stored password s plan d :
  plan_stored password s plan d -> load_rescan_plan s password (mkWorld d []) = (mkWorld d [], Ok plan).
Proof.
  unfold load_rescan_plan, plan_stored. destruct plan as [plan|]; intros H.
  - destruct H as (b & e & j & Hf & Hb & Hd & Ho & Hj).
    assert (Hh : has_file RESCAN_PLAN_FILE d = true) by (unfold has_file; unfold root_file in Hf; by rewrite Hf).
    erewrite mthen_clean by (unfold exists_; rewrite look_clean, Hh; reflexivity). cbn [negb].
    rewrite (mthen_clean _ _ _ _ _ (read_clean _ _ _ _ Hf Hb)).
    erewrite mthen_clean by (rewrite lift_clean, Hd; reflexivity).
    erewrite mthen_clean by (rewrite lift_clean, Ho; reflexivity).
    by erewrite mthen_clean by (rewrite lift_clean, (plan_round _ _ Hj); reflexivity).
  - assert (Hh : has_file RESCAN_PLAN_FILE d = false).
    { unfold has_file. unfold planless, root_file in H. by rewrite H. }
    by erewrite mthen_clean by (unfold exists_; rewrite look_clean, Hh; reflexivity).
Qed.

Lemma plan_stored_file password s plan d d' :
  root_file RESCAN_PLAN_FILE d' = root_file RESCAN_PLAN_FILE d ->
  plan_stored password s plan d -> plan_stored password s plan d'.
Proof. intros Hf. unfold plan_stored, planless. by rewrite Hf. Qed.

Lemma write_file_run name b max (e : entries) p :
  write_file name b max (mkPlace e []) = (p, Ok tt) -> p = mkPlace (<[name := Regular b]> e) [].
Proof.
  unfold write_file. intros H. apply mthen_Ok in H as (p1 & u & Hf & H). injection Hf as <- _.
  apply mthen_Ok in H as (p2 & u' & Hp & H). injection Hp as <- _.
  erewrite fs_step in H by reflexivity. erewrite fs_step in H by reflexivity. by injection H as <-.
Qed.

Lemma read_backup_typed b password identity s plan :
  read_backup b password identity = Ok (s, plan) -> typed_state s /\ WalletState_validate s = Ok tt.
Proof.
  unfold read_backup. intros H. apply rbind_Ok in H as (c & _ & H). apply then_Ok in H as [_ H].
  apply then_Ok in H as [_ H]. apply rbind_Ok in H as (j & _ & H). apply rbind_Ok in H as (p & Hp%ok_or_Ok & H).
  apply then_Ok in H as [_ H]. apply payload_typed in Hp.
  destruct (migrate_transaction_exposure (bp_state p)) as [s' r] eqn:Hm.
  apply rbind_Ok in H as (u & _ & H). apply rbind_Ok in H as (u' & Hv & H). apply then_Ok in H as [_ [= <- <-]].
  destruct (WalletState_validate s') as [[]|]; [|done]. split; [|done].
  unfold migrate_transaction_exposure in Hm. by destruct (_ || _); injection Hm as <- _.
Qed.

Lemma load_planless random password x : keeps (fun d => root_file RESCAN_PLAN_FILE d = x) (load random password).
Proof.
  unfold load, load_generation, read_state_envelope, write_metadata, write_authenticator,
    atomic_write, read_bounded, sync_directory.
  assert (Hput : forall name b d, name <> RESCAN_PLAN_FILE -> root_file RESCAN_PLAN_FILE d = x ->
    root_file RESCAN_PLAN_FILE (put_file name b d) = x).
  { intros name b d Hn <-. unfold root_file. simpl. by rewrite lookup_insert_ne. }
  keep_calls ltac:(first [by apply Hput]).
Qed.
End importing.

(** ** Theorems *)

Section theorems.
Context {code : CryptoCode} {json : StateCode} {backup : BackupCode}.
Context {claws : CryptoLaws code} {slaws : StateLaws json} {blaws : BackupLaws json backup}.

(** C5 Creating a wallet is atomic: whatever file-system calls fail or however early
    the program stops, the place keeps the entries it had, apart from a staging
    directory, or the wallet's directory is complete and opens with the password
    to the new state; a creation that succeeds leaves the latter. *)
Theorem creation_is_atomic random random' (root password : bytes) s kdf (E : entries) faults p r
    (Hroot : E !! root = None) (Hstaging : E !! create_staging_path root = None) (Htyped : typed_state s)
    (Hrun : create_directory random random' root s password kdf (mkPlace E faults) = (p, r)) :
  let complete := exists d, p.(pl_entries) = <[root := Directory d]> E
                            /\ created password s d /\ opens_to password s d in
  match r with
  | Ok _ => complete
  | Err _ => p.(pl_entries) = E
             \/ (exists d, p.(pl_entries) = <[create_staging_path root := Directory d]> E)
             \/ complete
  end.
Proof.
  pose proof (create_directory_leaves random random' root s password kdf E Hroot Hstaging Htyped _ _ _ Hrun eq_refl) as H.
  intros complete. assert (Hc : held E root (created password s) (pl_entries p) -> complete).
  { intros (d & He & Hd). exists d. split; [done|]. split; [done|]. destruct Hd as [[m Ho] _]. by eapply opens_with_loads. }
  destruct r; [by apply Hc|]. destruct H as [H|[(d & H & _)|H]]; eauto.
Qed.

(** An interrupted creation can be finished: when the staging directory holds the
    complete new wallet with an unconfirmed phrase, resuming without further
    failures returns its state, and whatever fails, the wallet stays complete in
    the staging directory or is complete in its place. *)
Theorem interrupted_creations_resume random (root password : bytes) s (E : entries) d faults p r
    (Hroot : E !! root = None) (Hstaging : E !! create_staging_path root = None) (Htyped : typed_state s)
    (Hpub : published password s d) (Hphrase : unconfirmed s = true)
    (Hrun : resume_create random root password
              (mkPlace (<[create_staging_path root := Directory d]> E) faults) = (p, r)) :
  let complete name := exists d', p.(pl_entries) = <[name := Directory d']> E
                                  /\ published password s d' /\ opens_to password s d' in
  match r with
  | Ok s' => s' = s /\ complete root
  | Err _ => faults <> [] /\ (complete (create_staging_path root) \/ complete root)
  end.
Proof.
  intros complete. assert (Hc : forall name, held E name (published password s) (pl_entries p) -> complete name).
  { intros name (d' & He & Hd). exists d'. split; [done|]. split; [done|]. destruct Hd as [m Ho]. by eapply opens_with_loads. }
  pose proof (resume_create_leaves random root password s E Hroot Hstaging _ _ _ Hrun) as H.
  specialize (H (ex_intro _ d (conj eq_refl Hpub))). destruct r as [s'|].
  - destruct H as [-> H]. auto.
  - split; [|destruct H; auto]. intros ->.
    pose proof (resume_create_clean random root password s E d Hroot Hpub Htyped Hphrase) as Hok. by rewrite Hrun in Hok.
Qed.

(** C6 Importing a backup is atomic: whatever the file holds and whatever calls fail,
    either the entries of the place are as before, or the backup authenticated
    under its password to a valid wallet of the expected network and the place
    has, besides its entries, a staging directory or the complete wallet, which
    opens with the new password and has the backup's rescan plan; success leaves
    the complete wallet. *)
Theorem imports_are_atomic random random' random'' (destination backup_path : bytes) backup_password
    password identity kdf (E : entries) b faults p r
    (Hdest : E !! destination = None) (Hst : E !! import_staging_path destination = None)
    (Hst' : E !! create_staging_path (import_staging_path destination) = None)
    (Hfile : E !! backup_path = Some (Regular b))
    (Hrun : import_backup random random' random'' destination backup_path backup_password password identity kdf
              (mkPlace E faults) = (p, r)) :
  let complete s plan := exists d, p.(pl_entries) = <[destination := Directory d]> E
      /\ opens_to password s d /\ plan_stored password s plan d in
  match r with
  | Ok _ => exists s plan, read_backup b backup_password identity = Ok (s, plan) /\ complete s plan
  | Err _ =>
      p.(pl_entries) = E
      \/ exists s plan, read_backup b backup_password identity = Ok (s, plan)
           /\ ((exists name d, p.(pl_entries) = <[name := Directory d]> E /\ E !! name = None /\ name <> destination)
               \/ complete s plan)
  end.
Proof.
  intros complete. destruct (read_backup b backup_password identity) as [[s plan]|e] eqn:Hread.
  - pose proof (read_backup_typed _ _ _ _ _ Hread) as [Ht _].
    pose proof (import_backup_leaves random random' random'' destination backup_path backup_password password
      identity kdf E b s plan Hdest Hst Hst' Hfile Hread Ht _ _ _ Hrun eq_refl) as H.
    assert (Hc : held E destination (restored password s plan) (pl_entries p) -> complete s plan).
    { intros (d & He & [m Ho] & Hp). exists d. split; [done|]. split; [by eapply opens_with_loads|done]. }
    destruct r; [by eauto|]. destruct H as [H|[(d & H & _)|[(d & H & _)|H]]]; [by left|right; exists s, plan; split; [done|]..].
    + left. exists (create_staging_path (import_staging_path destination)), d. split; [done|]. split; [done|].
      intros Heq. apply (f_equal length) in Heq. unfold create_staging_path, import_staging_path in Heq.
      rewrite !length_app in Heq. simpl in Heq. lia.
    + left. exists (import_staging_path destination), d. split; [done|]. split; [done|]. apply import_staging_differs.
    + right. auto.
  - pose proof (import_backup_refuses random random' random'' destination backup_path backup_password password
      identity kdf E b e Hfile Hread _ _ _ Hrun eq_refl) as H. destruct r; [done|]. by left.
Qed.

(** C29 A backup holds the wallet: what an export writes authenticates, under the
    backup's password and the wallet's network, to the state the wallet opens to
    and to its rescan plan, and the export changes nothing else but what loading
    repairs. *)
Theorem backups_hold_the_wallet random random' now (root password backup_password : bytes) kdf (destination : bytes)
    (E : entries) d s plan p
    (Hroot : E !! root = Some (Directory d)) (Hpub : published password s d) (Hplan : plan_stored password s plan d)
    (Hsame : is_none_or plan (fun plan => (plan.(rp_wallet_id) =? s.(ws_wallet_id))
                                          && bool_decide (plan.(rp_identity) = s.(ws_identity))) = true)
    (Hrun : export_backup random random' now root password backup_password kdf destination (mkPlace E [])
            = (p, Ok tt)) :
  exists b d', p.(pl_entries) = <[destination := Regular b]> (<[root := Directory d']> E)
    /\ published password s d'
    /\ read_backup b backup_password s.(ws_identity) = Ok (s, plan).
Proof.
  unfold export_backup in Hrun. apply mthen_Ok in Hrun as (p1 & present & Hex & Hrun).
  injection Hex as <- <-. apply mthen_Ok in Hrun as (p2 & u & Hf & Hrun). injection Hf as <- _.
  apply mthen_Ok in Hrun as (p3 & s' & Hload & Hrun). unfold inside in Hload. cbn [pl_entries pl_faults] in Hload.
  rewrite Hroot in Hload. destruct (load random password (mkWorld d [])) as [w r] eqn:Hl. injection Hload as <- ->.
  destruct Hpub as [m Ho]. pose proof (triple_load _ _ _ _ _ _ _ Hl Ho) as (-> & Hpub).
  pose proof (load_opens_with _ _ _ _ _ Hl) as [Hfaults _]. pose proof (load_planless _ _ _ _ _ _ Hl eq_refl) as Hfile.
  destruct w as [d' f]. cbn [w_disk w_faults] in *. subst f. cbn beta in Hfile.
  apply (plan_stored_file _ _ _ _ _ Hfile) in Hplan. apply mthen_Ok in Hrun as (p4 & plan' & Hp & Hrun).
  erewrite inside_run in Hp; [|cbn [pl_entries]; by rewrite lookup_insert_eq|by apply load_rescan_plan_stored].
  injection Hp as <- <-. rewrite insert_insert_eq in Hrun.
  apply mthen_Ok in Hrun as (p5 & created & Hnow & Hrun). injection Hnow as <- _.
  apply mthen_Ok in Hrun as (p6 & b & Hb & Hrun). injection Hb as <- Hb. apply write_file_run in Hrun as ->.
  exists b, d'. split; [done|]. split; [done|]. eapply backup_reads; [exact Hb|by destruct Hpub as [? []]|exact Hsame].
Qed.
End theorems.

(** ** Witnesses *)

Definition unconfirmed_wallet : WalletState :=
  fresh_wallet <| ws_recovery := Some (mkRecoveryMetadata RECOVERY_SCHEME_BIP39_256_V1 false) |>.
Definition created_json : StateCode := sample_json [unconfirmed_wallet].
Definition created_json_laws : StateLaws created_json := sample_json_laws [unconfirmed_wallet].

Lemma unconfirmed_wallet_typed : typed_state unconfirmed_wallet.
Proof. split; [done|]. split; [done|]. split; done. Qed.

#[global] Instance EncryptedEnvelope_eq_dec : EqDecision EncryptedEnvelope.
Proof. solve_decision. Defined.
#[global] Instance BackupContainer_eq_dec : EqDecision BackupContainer.
Proof. solve_decision. Defined.

Definition container_fields (c : BackupContainer) : list bytes :=
  [c.(bc_magic); le_bytes 2 c.(bc_format_version); le_bytes 8 c.(bc_created_unix_seconds);
   le_bytes 16 c.(bc_wallet_id); [network_byte c.(bc_identity).(ni_network)];
   c.(bc_identity).(ni_chain_id); c.(bc_identity).(ni_genesis_id);
   sample_to_json c.(bc_envelope).(env_header) (Base64 c.(bc_envelope).(env_ciphertext))].
Definition sample_container_from_json (b : bytes) : option BackupContainer :=
  match unpack (length b) [] b with
  | [magic; version; time; wallet; [network]; chain; genesis; envelope] =>
      match sample_from_json envelope with
      | Some (h, Base64 c) =>
          Some (mkBackupContainer magic (of_le_bytes version) (of_le_bytes time) (of_le_bytes wallet)
                  (mkNetworkIdentity (byte_network network) chain genesis) (mkEncryptedEnvelope h c))
      | _ => None
      end
  | _ => None
  end.
#[export] Instance sample_backup : BackupCode := {
  container_to_json c :=
    let b := pack (container_fields c) in
    if bool_decide (sample_container_from_json b = Some c) then Some b else None;
  container_from_json := sample_container_from_json;
  payload_to_json p :=
    if (p.(bp_payload_version) =? 1) && bool_decide (p.(bp_rescan_plan) = None)
    then created_json.(state_to_json) p.(bp_state) else None;
  payload_from_json b := (fun s => mkBackupPayload 1 s None) <$> created_json.(state_from_json) b;
}.

Lemma sample_backup_laws : BackupLaws created_json sample_backup.
Proof.
  split; simpl.
  - done.
  - intros c b. case_bool_decide; [by intros [= <-]|done].
  - intros [v s plan] b. cbn [bp_payload_version bp_state bp_rescan_plan]. destruct (_ && _) eqn:E; [|done].
    bool_inv. subst. intros H. pose proof (created_json_laws.(state_round _) _ _ H) as Hr. simpl in Hr. by rewrite Hr.
  - intros p b H. destruct b as [|i []]; try done. destruct (N.to_nat (Byte.to_N i)) as [|n]; simpl in H; simplify_eq.
    apply unconfirmed_wallet_typed.
Qed.

Definition wallet_name : bytes := str "wallet".
Definition create_sample (faults : list Fault) : Place * result StErr.StorageError unit :=
  create_directory (json := created_json) sample_random sample_random wallet_name unconfirmed_wallet sample_password
    DOM_CONTINUITY (mkPlace ∅ faults).
(** A crash before the [n]-th call. *)
Definition crash (n : nat) : list Fault := replicate n Fine ++ replicate 400 (Before StErr.OtherKind).

(** The crash comes right after the rename: the wallet is in place. *)
Lemma creation_is_atomic_witness :
  exists p d, create_sample (crash 38) = (p, Err (StErr.Io StErr.OtherKind))
    /\ p.(pl_entries) !! wallet_name = Some (Directory d)
    /\ (p.(pl_entries) = ∅
        \/ (exists d, p.(pl_entries) = <[create_staging_path wallet_name := Directory d]> ∅)
        \/ exists d, p.(pl_entries) = <[wallet_name := Directory d]> ∅
             /\ created (json := created_json) sample_password unconfirmed_wallet d
             /\ opens_to (json := created_json) sample_password unconfirmed_wallet d).
Proof.
  exists (create_sample (crash 38)).1.
  exists (match (create_sample (crash 38)).1.(pl_entries) !! wallet_name with
          | Some (Directory d) => d | _ => empty_disk end).
  split; [vm_compute; reflexivity|]. split; [vm_compute; reflexivity|].
  apply (creation_is_atomic (json := created_json) (slaws := created_json_laws) sample_random sample_random
           wallet_name sample_password unconfirmed_wallet DOM_CONTINUITY ∅ (crash 38) _
           (Err (StErr.Io StErr.OtherKind))).
  - vm_compute. reflexivity.
  - vm_compute. reflexivity.
  - apply unconfirmed_wallet_typed.
  - vm_compute. reflexivity.
Defined.

(** The crash comes right before the rename: the wallet is complete in its staging
    directory, and opens there. *)
Definition interrupted_place : Place := (create_sample (crash 37)).1.
Definition interrupted_disk : Disk :=
  match interrupted_place.(pl_entries) !! create_staging_path wallet_name with
  | Some (Directory d) => d
  | _ => empty_disk
  end.
Definition resume_sample (faults : list Fault) : Place * result StErr.StorageError WalletState :=
  resume_create (json := created_json) None wallet_name sample_password
    (mkPlace (<[create_staging_path wallet_name := Directory interrupted_disk]> ∅) faults).

Lemma interrupted_disk_published :
  published (json := created_json) sample_password unconfirmed_wallet interrupted_disk.
Proof.
  assert (H : load (json := created_json) None sample_password (mkWorld interrupted_disk [])
              = (mkWorld interrupted_disk [], Ok unconfirmed_wallet)) by (vm_compute; reflexivity).
  destruct (load_opens_with (slaws := created_json_laws) _ _ _ _ _ H) as (_ & m & Ho). by exists m.
Qed.

(** The wallet exported under another password, and imported beside itself under a
    third one. *)
Definition backup_name : bytes := str "backup".
Definition copy_name : bytes := str "copy".
Definition backup_password : bytes := str "backup password".
Definition copy_password : bytes := str "another password".
Definition wallet_entries : entries := <[wallet_name := Directory interrupted_disk]> ∅.
Definition export_sample : Place * result StErr.StorageError unit :=
  export_backup (json := created_json) None sample_random (Some 1700000000) wallet_name sample_password
    backup_password DOM_CONTINUITY backup_name (mkPlace wallet_entries []).
Definition backup_file : bytes :=
  match export_sample.1.(pl_entries) !! backup_name with Some (Regular b) => b | _ => [] end.
Definition backup_entries : entries := <[backup_name := Regular backup_file]> wallet_entries.
Definition import_sample (faults : list Fault) : Place * result StErr.StorageError unit :=
  import_backup (json := created_json) sample_random sample_random sample_random copy_name backup_name
    backup_password copy_password unconfirmed_wallet.(ws_identity) DOM_CONTINUITY (mkPlace backup_entries faults).

Lemma backups_hold_the_wallet_witness :
  export_sample.2 = Ok tt
  /\ exists b d', export_sample.1.(pl_entries)
                  = <[backup_name := Regular b]> (<[wallet_name := Directory d']> wallet_entries)
     /\ published (json := created_json) sample_password unconfirmed_wallet d'
     /\ read_backup b backup_password unconfirmed_wallet.(ws_identity) = Ok (unconfirmed_wallet, None).
Proof.
  split; [vm_compute; reflexivity|].
  apply (backups_hold_the_wallet (json := created_json) (slaws := created_json_laws) (blaws := sample_backup_laws)
           None sample_random (Some 1700000000) wallet_name sample_password backup_password DOM_CONTINUITY backup_name
           wallet_entries interrupted_disk unconfirmed_wallet None).
  - vm_compute. reflexivity.
  - apply interrupted_disk_published.
  - vm_compute. reflexivity.
  - vm_compute. reflexivity.
  - vm_compute. reflexivity.
Defined.

Lemma imports_are_atomic_witness :
  (import_sample []).2 = Ok tt
  /\ exists s plan, read_backup backup_file backup_password unconfirmed_wallet.(ws_identity) = Ok (s, plan)
     /\ exists d, (import_sample []).1.(pl_entries) = <[copy_name := Directory d]> backup_entries
          /\ opens_to (json := created_json) copy_password s d
          /\ plan_stored (json := created_json) copy_password s plan d.
Proof.
  split; [vm_compute; reflexivity|].
  apply (imports_are_atomic (json := created_json) (slaws := created_json_laws) (blaws := sample_backup_laws)
           sample_random sample_random sample_random copy_name backup_name backup_password copy_password
           unconfirmed_wallet.(ws_identity) DOM_CONTINUITY backup_entries backup_file [] _ (Ok tt)).
  - vm_compute. reflexivity.
  - vm_compute. reflexivity.
  - vm_compute. reflexivity.
  - vm_compute. reflexivity.
  - vm_compute. reflexivity.
Defined.
