(* ===== verification/Submission.v ===== *)
(** * Submission

    crates/dom-wallet-core-submit: the structured submission service over the
    node's interface.  The node is the class [WalletSubmissionApi]; its calls may
    change the node's world. *)

From S2P Require Import Prelude DomainTypes CoreTypes CoreSync.

(** ** Data of the node's interface *)

Module NSync.
Inductive SyncStatus := Starting | Syncing | Ready | Busy.
#[global] Instance SyncStatus_eq_dec : EqDecision SyncStatus.
Proof. solve_decision. Defined.
End NSync.

Module Kind.
Inductive SubmissionResultKind :=
| Accepted | AlreadyKnown | RejectedInvalid | RejectedFee | RejectedDoubleSpend
| RejectedImmatureCoinbase | RejectedExpired | RejectedPolicy | NodeNotReady | TemporaryFailure
| InternalFailure.
#[global] Instance SubmissionResultKind_eq_dec : EqDecision SubmissionResultKind.
Proof. solve_decision. Defined.
End Kind.

Module Diag.
Inductive SubmissionDiagnostic :=
| Invalid | FeeTooLow | DoubleSpend | ImmatureCoinbase | Locked | AlreadyKnown | NodeBusy | Policy
| Internal.
End Diag.

Inductive TransactionIdentifier := TxHash (hash : bytes) | IdKernelExcess (excess : bytes).

Record SubmissionResult := mkSubmissionResult {
  sr_kind : Kind.SubmissionResultKind;
  sr_tx_hash : bytes;
  sr_primary_kernel_excess : option bytes;
  sr_accepted_to_mempool : bool;
  sr_broadcast_attempted : bool;
  sr_relayed : bool;
  sr_diagnostic : option Diag.SubmissionDiagnostic;
}.

Module NStatus.
Inductive TransactionStatus := Unknown | InMempool | Confirmed (block : CoreBlockReference).
End NStatus.

Record MempoolPolicySnapshot := mkMempoolPolicySnapshot {
  mps_policy_version : N;
  mps_network : CNet.CoreNetwork;
  mps_min_relay_fee_rate : N;
  mps_min_mempool_fee_rate : N;
  mps_transaction_count : N;
}.

(** The calls of [WalletCoreApi] that submission makes. *)
Class WalletSubmissionApi (W : Type) := {
  api_sync_status : method W WErr.WalletCoreError NSync.SyncStatus;
  api_is_ready_for_wallet_operations : method W WErr.WalletCoreError bool;
  api_mempool_policy_snapshot : method W WErr.WalletCoreError MempoolPolicySnapshot;
  api_submit_transaction : Transaction -> method W WErr.WalletCoreError SubmissionResult;
  api_rebroadcast_transaction :
    TransactionIdentifier -> method W WErr.WalletCoreError SubmissionResult;
  api_query_submission : TransactionIdentifier -> method W WErr.WalletCoreError SubmissionResult;
  api_transaction_status :
    TransactionIdentifier -> method W WErr.WalletCoreError NStatus.TransactionStatus;
}.

(** ** Data of the service *)

Module Ready.
Inductive WalletReadiness := Starting | Synchronizing | Ready | NotReady.
#[global] Instance WalletReadiness_eq_dec : EqDecision WalletReadiness.
Proof. solve_decision. Defined.
End Ready.

Record WalletMempoolPolicy := mkWalletMempoolPolicy {
  wmp_policy_version : N;
  wmp_network : CNet.CoreNetwork;
  wmp_chain_id : bytes;
  wmp_minimum_relay_fee_rate : N;
  wmp_minimum_mempool_fee_rate : N;
  wmp_transaction_count : N;
}.

Record WalletReadinessSnapshot := mkWalletReadinessSnapshot {
  wrs_readiness : Ready.WalletReadiness;
  wrs_sync_status : NSync.SyncStatus;
  wrs_core_ready : bool;
  wrs_mempool_policy : WalletMempoolPolicy;
}.

Inductive WalletTransactionIdentifier :=
| TransactionHash (hash : bytes)
| KernelExcess (excess : bytes).

Definition to_core (self : WalletTransactionIdentifier) : TransactionIdentifier :=
  match self with
  | TransactionHash hash => TxHash hash
  | KernelExcess excess => IdKernelExcess excess
  end.

Module SubErr.
Inductive WalletSubmissionError :=
| InvalidRequest (code : string)
| IdentityMismatch (code : string)
| NotReady (readiness : Ready.WalletReadiness)
| CoreUnavailable (code : string)
| InconsistentResult (code : string).
End SubErr.

Record CanonicalTransactionSubmission := mkCanonicalTransactionSubmission {
  cts_transaction : Transaction;
  cts_transaction_hash : bytes;
  cts_primary_kernel_excess : option bytes;
}.

Definition CanonicalTransactionSubmission_new (transaction : Transaction) (transaction_hash : bytes)
    (primary_kernel_excess : option bytes)
    : result SubErr.WalletSubmissionError CanonicalTransactionSubmission :=
  fail_if (is_zero32 transaction_hash) (SubErr.InvalidRequest "ZERO_TRANSACTION_HASH") ;?
  fail_if (bool_decide (primary_kernel_excess = Some (zeros 33)))
          (SubErr.InvalidRequest "ZERO_KERNEL_EXCESS") ;?
  Ok (mkCanonicalTransactionSubmission transaction transaction_hash primary_kernel_excess).

Module WDiag.
Inductive WalletSubmissionDiagnostic :=
| Invalid | FeeTooLow | DoubleSpend | ImmatureCoinbase | Locked | AlreadyKnown | NodeBusy | Policy
| Internal.
End WDiag.

Definition diagnostic_from (value : Diag.SubmissionDiagnostic) : WDiag.WalletSubmissionDiagnostic :=
  match value with
  | Diag.Invalid => WDiag.Invalid
  | Diag.FeeTooLow => WDiag.FeeTooLow
  | Diag.DoubleSpend => WDiag.DoubleSpend
  | Diag.ImmatureCoinbase => WDiag.ImmatureCoinbase
  | Diag.Locked => WDiag.Locked
  | Diag.AlreadyKnown => WDiag.AlreadyKnown
  | Diag.NodeBusy => WDiag.NodeBusy
  | Diag.Policy => WDiag.Policy
  | Diag.Internal => WDiag.Internal
  end.

Record WalletSubmissionEvidence := mkWalletSubmissionEvidence {
  ev_transaction_hash : bytes;
  ev_primary_kernel_excess : option bytes;
  ev_accepted_to_mempool : bool;
  ev_broadcast_attempted : bool;
  ev_relayed : bool;
  ev_diagnostic : option WDiag.WalletSubmissionDiagnostic;
}.

Module WOut.
Inductive WalletSubmissionOutcome :=
| Accepted (value : WalletSubmissionEvidence)
| AlreadyKnown (value : WalletSubmissionEvidence)
| RejectedInvalid (value : WalletSubmissionEvidence)
| RejectedFee (value : WalletSubmissionEvidence)
| RejectedDoubleSpend (value : WalletSubmissionEvidence)
| RejectedImmatureCoinbase (value : WalletSubmissionEvidence)
| RejectedExpired (value : WalletSubmissionEvidence)
| RejectedPolicy (value : WalletSubmissionEvidence)
| NodeNotReady (value : WalletSubmissionEvidence)
| TemporaryFailure (value : WalletSubmissionEvidence)
| InternalFailure (value : WalletSubmissionEvidence).

Definition evidence (self : WalletSubmissionOutcome) : WalletSubmissionEvidence :=
  match self with
  | Accepted value | AlreadyKnown value | RejectedInvalid value | RejectedFee value
  | RejectedDoubleSpend value | RejectedImmatureCoinbase value | RejectedExpired value
  | RejectedPolicy value | NodeNotReady value | TemporaryFailure value | InternalFailure value =>
      value
  end.
End WOut.

Module WStatus.
Inductive WalletTransactionStatus := Unknown | InMempool | Confirmed (height : N) (block_hash : bytes).
End WStatus.

Module Query.
Inductive WalletSubmissionQuery :=
| InMempool (submission : WOut.WalletSubmissionOutcome)
| Confirmed (height : N) (block_hash : bytes) (submission : WOut.WalletSubmissionOutcome)
| Rejected (submission : WOut.WalletSubmissionOutcome)
| Unknown
| TemporarilyUnavailable (submission : WOut.WalletSubmissionOutcome).
End Query.

Module SubSt.
Inductive WalletSubmissionState :=
| Finalized | Submitting | Accepted | AcceptedNotRelayed | AlreadyKnown | TemporarilyUncertain
| RejectedInvalid | RejectedFee | RejectedDoubleSpend | RejectedImmatureCoinbase | RejectedExpired
| RejectedPolicy | NodeNotReady | InternalUncertain | Confirmed | Reorged.
#[global] Instance WalletSubmissionState_eq_dec : EqDecision WalletSubmissionState.
Proof. solve_decision. Defined.
End SubSt.

Record WalletTransitionDecision := mkWalletTransitionDecision {
  wtd_state : SubSt.WalletSubmissionState;
  wtd_preserve_canonical_transaction : bool;
  wtd_release_reservations : bool;
  wtd_create_duplicate_transaction : bool;
  wtd_rebuild_transaction : bool;
  wtd_mutate_fee : bool;
}.

Definition conservative (state : SubSt.WalletSubmissionState) : WalletTransitionDecision :=
  mkWalletTransitionDecision state true false false false false.

(** ** Answers of the node *)

Definition map_core_error (error : WErr.WalletCoreError) : SubErr.WalletSubmissionError :=
  SubErr.CoreUnavailable
    match error with
    | WErr.MalformedCursor => "CORE_MALFORMED_CURSOR"
    | WErr.CursorChainMismatch => "CORE_CHAIN_MISMATCH"
    | WErr.CursorReorg => "CORE_CURSOR_REORG"
    | WErr.InvalidScanRequest => "CORE_INVALID_SCAN_REQUEST"
    | WErr.CanonicalGap => "CORE_CANONICAL_GAP"
    | WErr.NodeNotReady => "CORE_NODE_NOT_READY"
    | WErr.SubmissionRejected => "CORE_SUBMISSION_REJECTED"
    | WErr.TemporaryFailure => "CORE_TEMPORARY_FAILURE"
    | WErr.InternalFailure => "CORE_INTERNAL_FAILURE"
    end.

Definition map_transaction_status (status : NStatus.TransactionStatus)
    : WStatus.WalletTransactionStatus :=
  match status with
  | NStatus.Unknown => WStatus.Unknown
  | NStatus.InMempool => WStatus.InMempool
  | NStatus.Confirmed block => WStatus.Confirmed block.(br_height) block.(br_hash)
  end.

Definition expected_identities (identifier : WalletTransactionIdentifier)
    : option bytes * option bytes :=
  match identifier with
  | TransactionHash hash => (Some hash, None)
  | KernelExcess excess => (None, Some excess)
  end.

(** Neither accepted nor already known. *)
Definition rejected_kind (kind : Kind.SubmissionResultKind) : bool :=
  match kind with Kind.Accepted | Kind.AlreadyKnown => false | _ => true end.

Definition outcome_of (kind : Kind.SubmissionResultKind) (evidence : WalletSubmissionEvidence)
    : WOut.WalletSubmissionOutcome :=
  match kind with
  | Kind.Accepted => WOut.Accepted evidence
  | Kind.AlreadyKnown => WOut.AlreadyKnown evidence
  | Kind.RejectedInvalid => WOut.RejectedInvalid evidence
  | Kind.RejectedFee => WOut.RejectedFee evidence
  | Kind.RejectedDoubleSpend => WOut.RejectedDoubleSpend evidence
  | Kind.RejectedImmatureCoinbase => WOut.RejectedImmatureCoinbase evidence
  | Kind.RejectedExpired => WOut.RejectedExpired evidence
  | Kind.RejectedPolicy => WOut.RejectedPolicy evidence
  | Kind.NodeNotReady => WOut.NodeNotReady evidence
  | Kind.TemporaryFailure => WOut.TemporaryFailure evidence
  | Kind.InternalFailure => WOut.InternalFailure evidence
  end.

(** [Some expected] differs from what was found; a kernel that was not reported
    does not count. *)
Definition mismatch (expected : option bytes) (actual : option bytes) : bool :=
  match expected, actual with
  | Some expected, Some actual => negb (bool_decide (actual = expected))
  | _, _ => false
  end.

Definition map_submission_result (result : SubmissionResult) (expected_hash expected_kernel : option bytes)
    : Prelude.result SubErr.WalletSubmissionError WOut.WalletSubmissionOutcome :=
  let inconsistent b code := fail_if b (SubErr.InconsistentResult code) in
  let rejected := rejected_kind result.(sr_kind) in
  inconsistent (result.(sr_relayed) && negb result.(sr_broadcast_attempted))
               "RELAY_WITHOUT_BROADCAST"%string ;?
  inconsistent (mismatch expected_hash (Some result.(sr_tx_hash))) "TRANSACTION_HASH_MISMATCH"%string ;?
  inconsistent (mismatch expected_kernel result.(sr_primary_kernel_excess))
               "KERNEL_EXCESS_MISMATCH"%string ;?
  inconsistent (bool_decide (result.(sr_kind) = Kind.Accepted) && negb result.(sr_accepted_to_mempool))
               "ACCEPTANCE_FLAG_MISMATCH"%string ;?
  inconsistent (rejected && result.(sr_accepted_to_mempool)) "REJECTION_ACCEPTED_TO_MEMPOOL"%string ;?
  inconsistent (rejected && (result.(sr_broadcast_attempted) || result.(sr_relayed)))
               "REJECTED_RESULT_RELAYED"%string ;?
  Ok (outcome_of result.(sr_kind)
        (mkWalletSubmissionEvidence result.(sr_tx_hash) result.(sr_primary_kernel_excess)
           result.(sr_accepted_to_mempool) result.(sr_broadcast_attempted) result.(sr_relayed)
           (diagnostic_from <$> result.(sr_diagnostic)))).

(** The comparison of [require_same_chain]. *)
Definition chain_differs (identity : CoreChainIdentity) (current : ChainIdentity) : bool :=
  negb (bool_decide (current.(ci_network) = identity.(cci_network)))
  || negb (current.(ci_network_magic) =? identity.(cci_network_magic))
  || negb (bool_decide (current.(ci_chain_id) = identity.(cci_chain_id)))
  || negb (bool_decide (current.(ci_genesis_hash) = identity.(cci_genesis_hash)))
  || negb (current.(ci_protocol_version) =? identity.(cci_protocol_version))
  || negb (current.(ci_range_proof_serialization_version)
           =? identity.(cci_range_proof_serialization_version))
  || negb (current.(ci_coinbase_maturity) =? identity.(cci_coinbase_maturity)).

(** [transition_for_outcome] and [transition_for_status] *)
Definition transition_for_outcome (outcome : WOut.WalletSubmissionOutcome) : WalletTransitionDecision :=
  conservative
    match outcome with
    | WOut.Accepted evidence =>
        if evidence.(ev_relayed) then SubSt.Accepted else SubSt.AcceptedNotRelayed
    | WOut.AlreadyKnown _ => SubSt.AlreadyKnown
    | WOut.RejectedInvalid _ => SubSt.RejectedInvalid
    | WOut.RejectedFee _ => SubSt.RejectedFee
    | WOut.RejectedDoubleSpend _ => SubSt.RejectedDoubleSpend
    | WOut.RejectedImmatureCoinbase _ => SubSt.RejectedImmatureCoinbase
    | WOut.RejectedExpired _ => SubSt.RejectedExpired
    | WOut.RejectedPolicy _ => SubSt.RejectedPolicy
    | WOut.NodeNotReady _ => SubSt.NodeNotReady
    | WOut.TemporaryFailure _ => SubSt.TemporarilyUncertain
    | WOut.InternalFailure _ => SubSt.InternalUncertain
    end.

Definition transition_for_status (previous : SubSt.WalletSubmissionState)
    (status : WStatus.WalletTransactionStatus) : WalletTransitionDecision :=
  conservative
    match status with
    | WStatus.Confirmed _ _ => SubSt.Confirmed
    | WStatus.InMempool => SubSt.Accepted
    | WStatus.Unknown => if bool_decide (previous = SubSt.Confirmed) then SubSt.Reorged
                         else SubSt.TemporarilyUncertain
    end.

(** ** The service *)

Section service.
Context {W : Type} {scan : WalletCoreApi W} {api : WalletSubmissionApi W}.

(** A call of the node, with its error translated. *)
Definition ask {A} (m : method W WErr.WalletCoreError A) : method W SubErr.WalletSubmissionError A :=
  fun w => let '(w, r) := m w in
           (w, match r with Ok a => Ok a | Err e => Err (map_core_error e) end).
Definition check {A} (r : result SubErr.WalletSubmissionError A)
    : method W SubErr.WalletSubmissionError A := mread (fun _ => r).

Definition validate_identity (identity : CoreChainIdentity)
    : result SubErr.WalletSubmissionError unit :=
  fail_if (is_zero32 identity.(cci_chain_id)
           || (is_zero32 identity.(cci_genesis_hash)
               && negb (bool_decide (identity.(cci_network) = CNet.Regtest))))
          (SubErr.InvalidRequest "MALFORMED_CHAIN_IDENTITY").

Definition require_same_chain (self : CoreChainIdentity) : method W SubErr.WalletSubmissionError unit :=
  let! current := ask api_chain_identity in
  check (fail_if (chain_differs self current) (SubErr.IdentityMismatch "CHAIN_IDENTITY_CHANGED")).

(** [CoreSubmissionService::connect]; the service is its identity. *)
Definition submission_connect (identity : CoreChainIdentity)
    : method W SubErr.WalletSubmissionError CoreChainIdentity :=
  check (validate_identity identity) ;;;
  require_same_chain identity ;;;
  mret identity.

Section with_identity.
Context (self : CoreChainIdentity).

Definition map_policy (policy : MempoolPolicySnapshot)
    : result SubErr.WalletSubmissionError WalletMempoolPolicy :=
  fail_if (negb (bool_decide (policy.(mps_network) = self.(cci_network))))
          (SubErr.IdentityMismatch "POLICY_NETWORK_MISMATCH") ;?
  fail_if (policy.(mps_policy_version) =? 0) (SubErr.InconsistentResult "ZERO_POLICY_VERSION") ;?
  Ok (mkWalletMempoolPolicy policy.(mps_policy_version) policy.(mps_network) self.(cci_chain_id)
        policy.(mps_min_relay_fee_rate) policy.(mps_min_mempool_fee_rate)
        policy.(mps_transaction_count)).

Definition readiness_of (sync_status : NSync.SyncStatus) (core_ready : bool)
    : Ready.WalletReadiness :=
  match sync_status, core_ready with
  | NSync.Starting, _ => Ready.Starting
  | NSync.Syncing, _ => Ready.Synchronizing
  | NSync.Ready, true => Ready.Ready
  | (NSync.Ready | NSync.Busy), false | NSync.Busy, true => Ready.NotReady
  end.

Definition readiness : method W SubErr.WalletSubmissionError WalletReadinessSnapshot :=
  require_same_chain self ;;;
  let! sync_status := ask api_sync_status in
  let! core_ready := ask api_is_ready_for_wallet_operations in
  let! policy := ask api_mempool_policy_snapshot in
  let! mempool_policy := check (map_policy policy) in
  mret (mkWalletReadinessSnapshot (readiness_of sync_status core_ready) sync_status core_ready
          mempool_policy).

Definition require_ready : method W SubErr.WalletSubmissionError WalletReadinessSnapshot :=
  let! snapshot := readiness in
  check (fail_if (negb (bool_decide (snapshot.(wrs_readiness) = Ready.Ready)))
                 (SubErr.NotReady snapshot.(wrs_readiness))) ;;;
  mret snapshot.

(** [CoreSubmissionService::submit_transaction] *)
Definition service_submit (submission : CanonicalTransactionSubmission)
    : method W SubErr.WalletSubmissionError WOut.WalletSubmissionOutcome :=
  let! _ := require_ready in
  let! result := ask (api_submit_transaction submission.(cts_transaction)) in
  check (map_submission_result result (Some submission.(cts_transaction_hash))
           submission.(cts_primary_kernel_excess)).

Definition service_rebroadcast (identifier : WalletTransactionIdentifier)
    : method W SubErr.WalletSubmissionError WOut.WalletSubmissionOutcome :=
  let! _ := require_ready in
  let expected := expected_identities identifier in
  let! result := ask (api_rebroadcast_transaction (to_core identifier)) in
  check (map_submission_result result expected.1 expected.2).

Definition service_transaction_status (identifier : WalletTransactionIdentifier)
    : method W SubErr.WalletSubmissionError WStatus.WalletTransactionStatus :=
  require_same_chain self ;;;
  let! status := ask (api_transaction_status (to_core identifier)) in
  mret (map_transaction_status status).

(** What a query concludes from the outcome and the status. *)
Definition query_result (status : WStatus.WalletTransactionStatus) (outcome : WOut.WalletSubmissionOutcome)
    : Query.WalletSubmissionQuery :=
  match status with
  | WStatus.InMempool => Query.InMempool outcome
  | WStatus.Confirmed height block_hash => Query.Confirmed height block_hash outcome
  | WStatus.Unknown =>
      match outcome with
      | WOut.RejectedInvalid _ | WOut.RejectedFee _ | WOut.RejectedDoubleSpend _
      | WOut.RejectedImmatureCoinbase _ | WOut.RejectedExpired _ => Query.Rejected outcome
      | WOut.NodeNotReady _ | WOut.TemporaryFailure _ | WOut.InternalFailure _ =>
          Query.TemporarilyUnavailable outcome
      | WOut.RejectedPolicy _ | WOut.Accepted _ | WOut.AlreadyKnown _ => Query.Unknown
      end
  end.

Definition service_query_submission (identifier : WalletTransactionIdentifier)
    : method W SubErr.WalletSubmissionError Query.WalletSubmissionQuery :=
  require_same_chain self ;;;
  let expected := expected_identities identifier in
  let! raw := ask (api_query_submission (to_core identifier)) in
  let! outcome := check (map_submission_result raw expected.1 expected.2) in
  let! status := service_transaction_status identifier in
  mret (query_result status outcome).
End with_identity.
End service.
