(* ===== verification/Fees.v ===== *)
(** * Fee policy

    The fee policy service of crates/dom-wallet-core-protocol: an answer of the node
    is accepted only when its rates, version, network, dust threshold and horizon are
    those of the policy that the node answers, and its weights add up; the amounts are
    the node's. *)

From S2P Require Import Prelude DomainTypes CoreTypes Projection CoreSync Submission.

(** ** Data of the node's interface *)

Record TransactionShape := mkTransactionShape {
  ts_input_count : N;
  ts_output_count : N;
  ts_kernel_count : N;
}.

Record FeePolicySnapshot := mkFeePolicySnapshot {
  fps_policy_version : N;
  fps_network : CNet.CoreNetwork;
  fps_min_relay_fee_rate : N;
  fps_min_mempool_fee_rate : N;
  fps_recommended_fee_rate : N;
  fps_dust_threshold_noms : N;
  fps_max_tx_weight : N;
  fps_validity_horizon : option N;
}.

Record TransactionWeight := mkTransactionWeight {
  tw_input_weight : N;
  tw_output_weight : N;
  tw_kernel_weight : N;
  tw_total_weight : N;
}.

(** A [FeeRate] is its [noms_per_weight_unit]. *)
Record FeeBreakdown := mkFeeBreakdown {
  fb_input_count : N;
  fb_output_count : N;
  fb_kernel_count : N;
  fb_input_weight : N;
  fb_output_weight : N;
  fb_kernel_weight : N;
  fb_total_weight : N;
  fb_minimum_fee_noms : N;
  fb_recommended_fee_noms : N;
  fb_minimum_fee_rate : N;
  fb_recommended_fee_rate : N;
  fb_policy_version : N;
  fb_network : CNet.CoreNetwork;
  fb_validity_horizon : option N;
  fb_dust_threshold_noms : N;
}.

Record FeeEstimate := mkFeeEstimate {
  fe_breakdown : FeeBreakdown;
  fe_selected_fee_noms : N;
  fe_selected_fee_rate : N;
}.

Record FeeValidation := mkFeeValidation {
  fv_accepted_by_policy : bool;
  fv_actual_fee_noms : N;
  fv_minimum_fee_noms : N;
  fv_shortfall_noms : N;
  fv_actual_fee_rate : N;
  fv_breakdown : FeeBreakdown;
}.

Inductive FeeEstimateTarget := Minimum | Recommended.
Record FeeEstimateRequest := mkFeeEstimateRequest {
  fer_shape : TransactionShape;
  fer_target : FeeEstimateTarget;
}.

(** The calls of [WalletCoreApi] about fees. *)
Class WalletFeeApi (W : Type) := {
  api_fee_policy : method W WErr.WalletCoreError FeePolicySnapshot;
  api_transaction_weight : TransactionShape -> method W WErr.WalletCoreError TransactionWeight;
  api_minimum_fee : TransactionShape -> method W WErr.WalletCoreError FeeBreakdown;
  api_estimate_fee : FeeEstimateRequest -> method W WErr.WalletCoreError FeeEstimate;
  api_recommended_fee : FeeEstimateRequest -> method W WErr.WalletCoreError FeeEstimate;
  api_validate_fee : Transaction -> method W WErr.WalletCoreError FeeValidation;
}.

(** ** Data of the service *)

Record WalletTransactionShape := mkWalletTransactionShape {
  wts_input_count : N;
  wts_output_count : N;
  wts_kernel_count : N;
}.

Definition shape_core (self : WalletTransactionShape) : TransactionShape :=
  mkTransactionShape self.(wts_input_count) self.(wts_output_count) self.(wts_kernel_count).

Record WalletFeePolicy := mkWalletFeePolicy {
  wfp_policy_version : N;
  wfp_network : CNet.CoreNetwork;
  wfp_chain_id : bytes;
  wfp_minimum_relay_fee_rate : N;
  wfp_minimum_mempool_fee_rate : N;
  wfp_recommended_fee_rate : N;
  wfp_dust_threshold_noms : N;
  wfp_maximum_transaction_weight : N;
  wfp_validity_horizon : option N;
}.

Record WalletTransactionWeight := mkWalletTransactionWeight {
  wtw_input_weight : N;
  wtw_output_weight : N;
  wtw_kernel_weight : N;
  wtw_total_weight : N;
}.

Record WalletFeeEstimate := mkWalletFeeEstimate {
  wfe_shape : WalletTransactionShape;
  wfe_weight : WalletTransactionWeight;
  wfe_minimum_fee_noms : N;
  wfe_recommended_fee_noms : N;
  wfe_selected_fee_noms : N;
  wfe_selected_fee_rate : N;
  wfe_minimum_fee_rate : N;
  wfe_recommended_fee_rate : N;
  wfe_policy_version : N;
  wfe_network : CNet.CoreNetwork;
  wfe_validity_horizon : option N;
  wfe_dust_threshold_noms : N;
}.

Record WalletFeeValidation := mkWalletFeeValidation {
  wfv_accepted_by_policy : bool;
  wfv_actual_fee_noms : N;
  wfv_minimum_fee_noms : N;
  wfv_shortfall_noms : N;
  wfv_actual_fee_rate : N;
  wfv_estimate : WalletFeeEstimate;
}.

Module PErr.
Inductive ProtocolAdapterError :=
| NonCanonicalAddress
| MalformedAddress
| AddressNetworkMismatch
| InvalidSlateEncoding
| NonCanonicalSlate
| InvalidSlateText
| InvalidSlate
| RecoverySlateRequired
| SlateNetworkMismatch
| SlateChainMismatch
| UnsupportedSlateFlow
| UnsupportedSlatePhase
| SlateExpired
| DuplicateReplay
| SlateDomainMismatch
| InvalidRecoverySidecar
| ChainIdentityMismatch
| UnsupportedFeePolicyVersion
| FeePolicyNetworkMismatch
| InconsistentFeePolicy
| InvalidTransactionEncoding
| CoreUnavailable (code : string).
End PErr.

(** The codes are those of the submission service. *)
Definition map_protocol_error (value : WErr.WalletCoreError) : PErr.ProtocolAdapterError :=
  match map_core_error value with
  | SubErr.CoreUnavailable code => PErr.CoreUnavailable code
  | _ => PErr.CoreUnavailable ""
  end.

Definition map_weight (value : TransactionWeight)
    : result PErr.ProtocolAdapterError WalletTransactionWeight :=
  let? sum := ok_or (checked_add u64_max value.(tw_input_weight) value.(tw_output_weight)
                     ≫= fun total => checked_add u64_max total value.(tw_kernel_weight))
                    PErr.InconsistentFeePolicy in
  fail_if (negb (sum =? value.(tw_total_weight))) PErr.InconsistentFeePolicy ;?
  Ok (mkWalletTransactionWeight value.(tw_input_weight) value.(tw_output_weight)
        value.(tw_kernel_weight) value.(tw_total_weight)).

(** ** The service *)

Section service.
Context {W : Type} {codec : CoreCodec} {scan : WalletCoreApi W} {api : WalletFeeApi W}.

Definition ask_fee {A} (m : method W WErr.WalletCoreError A) : method W PErr.ProtocolAdapterError A :=
  fun w => let '(w, r) := m w in
           (w, match r with Ok a => Ok a | Err e => Err (map_protocol_error e) end).
Definition check_fee {A} (r : result PErr.ProtocolAdapterError A)
    : method W PErr.ProtocolAdapterError A := mread (fun _ => r).

(** The service is its identity. *)
Section with_identity.
Context (self : CoreChainIdentity).

Definition fee_require_same_chain : method W PErr.ProtocolAdapterError unit :=
  let! current := ask_fee api_chain_identity in
  check_fee (fail_if (chain_differs self current) PErr.ChainIdentityMismatch).

Definition map_fee_policy (value : FeePolicySnapshot) : result PErr.ProtocolAdapterError WalletFeePolicy :=
  fail_if (negb (value.(fps_policy_version) =? 1)) PErr.UnsupportedFeePolicyVersion ;?
  fail_if (negb (bool_decide (value.(fps_network) = self.(cci_network))))
          PErr.FeePolicyNetworkMismatch ;?
  fail_if ((value.(fps_min_relay_fee_rate) =? 0)
           || (value.(fps_min_mempool_fee_rate) <? value.(fps_min_relay_fee_rate))
           || (value.(fps_recommended_fee_rate) <? value.(fps_min_mempool_fee_rate))
           || (value.(fps_max_tx_weight) =? 0)) PErr.InconsistentFeePolicy ;?
  Ok (mkWalletFeePolicy value.(fps_policy_version) value.(fps_network) self.(cci_chain_id)
        value.(fps_min_relay_fee_rate) value.(fps_min_mempool_fee_rate)
        value.(fps_recommended_fee_rate) value.(fps_dust_threshold_noms) value.(fps_max_tx_weight)
        value.(fps_validity_horizon)).

Definition fee_policy : method W PErr.ProtocolAdapterError WalletFeePolicy :=
  fee_require_same_chain ;;;
  let! snapshot := ask_fee api_fee_policy in
  check_fee (map_fee_policy snapshot).

Definition fee_connect : method W PErr.ProtocolAdapterError CoreChainIdentity :=
  fee_require_same_chain ;;;
  let! _ := fee_policy in
  mret self.

Definition fee_transaction_weight (shape : WalletTransactionShape)
    : method W PErr.ProtocolAdapterError WalletTransactionWeight :=
  fee_require_same_chain ;;;
  let! weight := ask_fee (api_transaction_weight (shape_core shape)) in
  check_fee (map_weight weight).

(** The part of [map_breakdown] after the policy was read. *)
Definition breakdown_estimate (policy : WalletFeePolicy) (value : FeeBreakdown)
    (selected_fee_noms selected_fee_rate : N) : result PErr.ProtocolAdapterError WalletFeeEstimate :=
  fail_if (negb (value.(fb_policy_version) =? policy.(wfp_policy_version))
           || negb (bool_decide (value.(fb_network) = policy.(wfp_network)))
           || negb (value.(fb_minimum_fee_rate) =? policy.(wfp_minimum_relay_fee_rate))
           || negb (value.(fb_recommended_fee_rate) =? policy.(wfp_recommended_fee_rate))
           || negb (value.(fb_dust_threshold_noms) =? policy.(wfp_dust_threshold_noms))
           || negb (bool_decide (value.(fb_validity_horizon) = policy.(wfp_validity_horizon))))
          PErr.InconsistentFeePolicy ;?
  let? weight := map_weight (mkTransactionWeight value.(fb_input_weight) value.(fb_output_weight)
                               value.(fb_kernel_weight) value.(fb_total_weight)) in
  Ok (mkWalletFeeEstimate
        (mkWalletTransactionShape value.(fb_input_count) value.(fb_output_count)
           value.(fb_kernel_count))
        weight value.(fb_minimum_fee_noms) value.(fb_recommended_fee_noms) selected_fee_noms
        selected_fee_rate value.(fb_minimum_fee_rate) value.(fb_recommended_fee_rate)
        value.(fb_policy_version) value.(fb_network) value.(fb_validity_horizon)
        value.(fb_dust_threshold_noms)).

Definition map_breakdown (value : FeeBreakdown) (selected_fee_noms selected_fee_rate : N)
    : method W PErr.ProtocolAdapterError WalletFeeEstimate :=
  let! policy := fee_policy in
  check_fee (breakdown_estimate policy value selected_fee_noms selected_fee_rate).

Definition map_estimate (value : FeeEstimate) : method W PErr.ProtocolAdapterError WalletFeeEstimate :=
  map_breakdown value.(fe_breakdown) value.(fe_selected_fee_noms) value.(fe_selected_fee_rate).

Definition fee_minimum_fee (shape : WalletTransactionShape)
    : method W PErr.ProtocolAdapterError WalletFeeEstimate :=
  fee_require_same_chain ;;;
  let! breakdown := ask_fee (api_minimum_fee (shape_core shape)) in
  map_breakdown breakdown breakdown.(fb_minimum_fee_noms) breakdown.(fb_minimum_fee_rate).

Definition fee_estimate_fee (shape : WalletTransactionShape)
    : method W PErr.ProtocolAdapterError WalletFeeEstimate :=
  fee_require_same_chain ;;;
  let! estimate := ask_fee (api_estimate_fee (mkFeeEstimateRequest (shape_core shape) Minimum)) in
  map_estimate estimate.

Definition fee_recommended_fee (shape : WalletTransactionShape)
    : method W PErr.ProtocolAdapterError WalletFeeEstimate :=
  fee_require_same_chain ;;;
  let! estimate := ask_fee (api_recommended_fee (mkFeeEstimateRequest (shape_core shape) Recommended)) in
  map_estimate estimate.

Definition map_validation (value : FeeValidation)
    : method W PErr.ProtocolAdapterError WalletFeeValidation :=
  let! estimate := map_breakdown value.(fv_breakdown) value.(fv_minimum_fee_noms)
                     value.(fv_breakdown).(fb_minimum_fee_rate) in
  check_fee
    (fail_if (negb (value.(fv_minimum_fee_noms) =? estimate.(wfe_minimum_fee_noms))
              || (value.(fv_accepted_by_policy) && negb (value.(fv_shortfall_noms) =? 0))
              || (negb value.(fv_accepted_by_policy) && (value.(fv_shortfall_noms) =? 0)))
             PErr.InconsistentFeePolicy) ;;;
  mret (mkWalletFeeValidation value.(fv_accepted_by_policy) value.(fv_actual_fee_noms)
          value.(fv_minimum_fee_noms) value.(fv_shortfall_noms) value.(fv_actual_fee_rate) estimate).

Definition fee_validate_fee (canonical_transaction_bytes : bytes)
    : method W PErr.ProtocolAdapterError WalletFeeValidation :=
  fee_require_same_chain ;;;
  let! transaction := check_fee (ok_or (transaction_from_bytes canonical_transaction_bytes)
                                       PErr.InvalidTransactionEncoding) in
  let! validation := ask_fee (api_validate_fee transaction) in
  map_validation validation.
End with_identity.
End service.

(** ** Lemmas *)

Section lemmas.
Context {W : Type} {codec : CoreCodec} {scan : WalletCoreApi W} {api : WalletFeeApi W}.
Implicit Types (self : CoreChainIdentity) (w : W).

Lemma check_fee_Ok {A} (r : result PErr.ProtocolAdapterError A) w w' a :
  check_fee r w = (w', Ok a) <-> w' = w /\ r = Ok a.
Proof. unfold check_fee, mread. split; [by intros [= <- <-]|by intros [-> ->]]. Qed.

Lemma map_weight_Ok value weight :
  map_weight value = Ok weight <->
  weight = mkWalletTransactionWeight value.(tw_input_weight) value.(tw_output_weight)
             value.(tw_kernel_weight) value.(tw_total_weight)
  /\ value.(tw_input_weight) + value.(tw_output_weight) + value.(tw_kernel_weight)
     = value.(tw_total_weight)
  /\ value.(tw_total_weight) <= u64_max.
Proof.
  unfold map_weight. split.
  - intros (sum & Hsum%ok_or_Ok & H)%rbind_Ok. apply then_Ok in H as [H [= <-]].
    apply bind_Some in Hsum as (t & [-> _]%checked_add_Some & [-> Hmax]%checked_add_Some).
    apply fail_if_Ok in H. bool_inv. split; [done|lia].
  - intros (-> & Hsum & Hmax).
    rewrite (proj2 (checked_add_Some u64_max (tw_input_weight value) (tw_output_weight value) _))
      by (split; [reflexivity|lia]). simpl.
    rewrite (proj2 (checked_add_Some u64_max _ (tw_kernel_weight value) _))
      by (split; [reflexivity|lia]). simpl. by rewrite Hsum, N.eqb_refl.
Qed.

(** The policy a service accepts. *)
Definition policy_consistent (self : CoreChainIdentity) (p : WalletFeePolicy) : Prop :=
  p.(wfp_policy_version) = 1 /\ p.(wfp_network) = self.(cci_network)
  /\ p.(wfp_chain_id) = self.(cci_chain_id)
  /\ 0 < p.(wfp_minimum_relay_fee_rate)
  /\ p.(wfp_minimum_relay_fee_rate) <= p.(wfp_minimum_mempool_fee_rate)
  /\ p.(wfp_minimum_mempool_fee_rate) <= p.(wfp_recommended_fee_rate)
  /\ 0 < p.(wfp_maximum_transaction_weight).

(** The node said that it is on the chain of the service. *)
Definition on_chain (self : CoreChainIdentity) : Prop :=
  exists current, answered api_chain_identity current /\ chain_differs self current = false.
(** The policy of a snapshot that the node answered, and that is consistent. *)
Definition policy_answered (self : CoreChainIdentity) (p : WalletFeePolicy) : Prop :=
  policy_consistent self p /\ exists snapshot, answered api_fee_policy snapshot
    /\ p = mkWalletFeePolicy snapshot.(fps_policy_version) snapshot.(fps_network) self.(cci_chain_id)
             snapshot.(fps_min_relay_fee_rate) snapshot.(fps_min_mempool_fee_rate)
             snapshot.(fps_recommended_fee_rate) snapshot.(fps_dust_threshold_noms)
             snapshot.(fps_max_tx_weight) snapshot.(fps_validity_horizon).
Definition weights_add_up (weight : WalletTransactionWeight) : Prop :=
  weight.(wtw_input_weight) + weight.(wtw_output_weight) + weight.(wtw_kernel_weight) = weight.(wtw_total_weight)
  /\ weight.(wtw_total_weight) <= u64_max.
(** An estimate under a policy, with the shape, the weights and the amounts of a
    breakdown. *)
Definition quotes (p : WalletFeePolicy) (value : FeeBreakdown) (fee rate : N) (e : WalletFeeEstimate) : Prop :=
  weights_add_up e.(wfe_weight)
  /\ e.(wfe_policy_version) = p.(wfp_policy_version) /\ e.(wfe_network) = p.(wfp_network)
  /\ e.(wfe_minimum_fee_rate) = p.(wfp_minimum_relay_fee_rate)
  /\ value.(fb_minimum_fee_rate) = p.(wfp_minimum_relay_fee_rate)
  /\ e.(wfe_recommended_fee_rate) = p.(wfp_recommended_fee_rate)
  /\ e.(wfe_dust_threshold_noms) = p.(wfp_dust_threshold_noms)
  /\ e.(wfe_validity_horizon) = p.(wfp_validity_horizon)
  /\ e.(wfe_minimum_fee_noms) = value.(fb_minimum_fee_noms)
  /\ e.(wfe_recommended_fee_noms) = value.(fb_recommended_fee_noms)
  /\ e.(wfe_selected_fee_noms) = fee /\ e.(wfe_selected_fee_rate) = rate
  /\ e.(wfe_shape) = mkWalletTransactionShape value.(fb_input_count) value.(fb_output_count) value.(fb_kernel_count)
  /\ e.(wfe_weight) = mkWalletTransactionWeight value.(fb_input_weight) value.(fb_output_weight)
                        value.(fb_kernel_weight) value.(fb_total_weight).

Lemma ask_fee_answered {A} (m : method W WErr.WalletCoreError A) w w' a : ask_fee m w = (w', Ok a) -> answered m a.
Proof. unfold ask_fee, answered. destruct (m w) as [w1 [x|e]] eqn:E; intros [= <- <-]. eauto. Qed.
Lemma require_chain_Ok self w w' u : fee_require_same_chain self w = (w', Ok u) -> on_chain self.
Proof.
  unfold fee_require_same_chain. intros (w1 & current & Hc%ask_fee_answered & [_ H%fail_if_Ok]%check_fee_Ok)%mthen_Ok.
  by exists current.
Qed.
Lemma fee_policy_Ok self w w' p : fee_policy self w = (w', Ok p) -> on_chain self /\ policy_answered self p.
Proof.
  unfold fee_policy. intros (w1 & u & Hc%require_chain_Ok & H)%mthen_Ok.
  apply mthen_Ok in H as (w2 & snapshot & Ha%ask_fee_answered & [_ H]%check_fee_Ok).
  unfold map_fee_policy in H. apply then_Ok in H as [Hv H]. apply then_Ok in H as [Hn H].
  apply then_Ok in H as [Hr [= <-]]. split; [done|]. split; [|by exists snapshot].
  res_inv. bool_inv. unfold policy_consistent. simpl. repeat split; try done; lia.
Qed.

Lemma map_breakdown_Ok self value fee rate w w' e :
  map_breakdown self value fee rate w = (w', Ok e) ->
  exists p, policy_answered self p /\ quotes p value fee rate e.
Proof.
  unfold map_breakdown. intros (w1 & p & [_ Hp]%fee_policy_Ok & [_ H]%check_fee_Ok)%mthen_Ok. exists p.
  split; [done|]. clear Hp. unfold breakdown_estimate in H. apply then_Ok in H as [Hc H].
  apply rbind_Ok in H as (weight & Hw & [= <-]). apply map_weight_Ok in Hw as (-> & Hsum & Hmax).
  apply fail_if_Ok in Hc. bool_inv. unfold quotes, weights_add_up. simpl in *. by repeat split.
Qed.
End lemmas.

(** ** Theorem *)

(** A fee that the wallet asks for. *)
Inductive FeeQuestion := MinimumFee | EstimateFee | RecommendedFee.

Section answers.
Context {W : Type} {codec : CoreCodec} {scan : WalletCoreApi W} {api : WalletFeeApi W}.
Context (self : CoreChainIdentity).

Definition fee_question (q : FeeQuestion) : WalletTransactionShape -> method W PErr.ProtocolAdapterError WalletFeeEstimate :=
  match q with
  | MinimumFee => fee_minimum_fee self
  | EstimateFee => fee_estimate_fee self
  | RecommendedFee => fee_recommended_fee self
  end.
(** What the node answered to it. *)
Definition fee_answered (q : FeeQuestion) (shape : TransactionShape) (estimate : FeeEstimate) : Prop :=
  match q with
  | MinimumFee =>
      answered (api_minimum_fee shape) estimate.(fe_breakdown)
      /\ estimate.(fe_selected_fee_noms) = estimate.(fe_breakdown).(fb_minimum_fee_noms)
      /\ estimate.(fe_selected_fee_rate) = estimate.(fe_breakdown).(fb_minimum_fee_rate)
  | EstimateFee => answered (api_estimate_fee (mkFeeEstimateRequest shape Minimum)) estimate
  | RecommendedFee => answered (api_recommended_fee (mkFeeEstimateRequest shape Recommended)) estimate
  end.

(** C37 Accepted fees follow the node's own policy.  A weight, an estimate or a
    validation that the service lets through was answered by a node that said it is on
    the chain of the wallet.  The parts of a weight add up to its total within 64 bits.
    An estimate, of the minimum, of a fee or of the recommended one, has the version,
    the network, the minimum and the recommended rate, the dust threshold and the
    horizon of the policy snapshot that the node answered, which is of version 1 and of
    this network and has rates in order, the least positive, and a positive maximum
    weight; its shape, weights and amounts are those the node answered to the question
    that was asked.  A validation has such an estimate of the transaction that was
    asked about, quotes its minimum fee, and is accepted exactly when there is no
    shortfall. *)
Theorem accepted_fees_follow_the_policy :
  (forall shape w w' weight, fee_transaction_weight self shape w = (w', Ok weight) ->
    on_chain self /\ weights_add_up weight
    /\ exists value, answered (api_transaction_weight (shape_core shape)) value
         /\ weight = mkWalletTransactionWeight value.(tw_input_weight) value.(tw_output_weight)
                       value.(tw_kernel_weight) value.(tw_total_weight))
  /\ (forall q shape w w' e, fee_question q shape w = (w', Ok e) ->
    on_chain self /\ exists p value, policy_answered self p /\ fee_answered q (shape_core shape) value
      /\ quotes p value.(fe_breakdown) value.(fe_selected_fee_noms) value.(fe_selected_fee_rate) e)
  /\ (forall b w w' v, fee_validate_fee self b w = (w', Ok v) ->
    on_chain self /\ exists transaction p value, transaction_from_bytes b = Some transaction
      /\ policy_answered self p /\ answered (api_validate_fee transaction) value
      /\ quotes p value.(fv_breakdown) value.(fv_minimum_fee_noms)
           value.(fv_breakdown).(fb_minimum_fee_rate) v.(wfv_estimate)
      /\ v.(wfv_actual_fee_noms) = value.(fv_actual_fee_noms) /\ v.(wfv_actual_fee_rate) = value.(fv_actual_fee_rate)
      /\ v.(wfv_minimum_fee_noms) = v.(wfv_estimate).(wfe_minimum_fee_noms)
      /\ v.(wfv_accepted_by_policy) = value.(fv_accepted_by_policy)
      /\ v.(wfv_shortfall_noms) = value.(fv_shortfall_noms)
      /\ (v.(wfv_accepted_by_policy) = true <-> v.(wfv_shortfall_noms) = 0)).
Proof.
  split; [|split].
  - intros shape w w' weight (w1 & u & Hc%require_chain_Ok & H)%mthen_Ok.
    apply mthen_Ok in H as (w2 & value & Hv%ask_fee_answered & [_ H]%check_fee_Ok).
    apply map_weight_Ok in H as (-> & Hsum & Hmax). split; [done|]. split; [by split|by exists value].
  - intros q shape w w' e H. destruct q; apply mthen_Ok in H as (w1 & u & Hc%require_chain_Ok & H);
      apply mthen_Ok in H as (w2 & value & Hv%ask_fee_answered & H); (split; [done|]);
      [|unfold map_estimate in H..]; apply map_breakdown_Ok in H as (p & Hp & Hq).
    + by exists p, (mkFeeEstimate value value.(fb_minimum_fee_noms) value.(fb_minimum_fee_rate)).
    + by exists p, value.
    + by exists p, value.
  - intros b w w' v (w1 & u & Hc%require_chain_Ok & H)%mthen_Ok. split; [done|].
    apply mthen_Ok in H as (w2 & transaction & [_ Ht%ok_or_Ok]%check_fee_Ok & H).
    apply mthen_Ok in H as (w3 & value & Hv%ask_fee_answered & H).
    apply mthen_Ok in H as (w4 & estimate & (p & Hp & Hq)%map_breakdown_Ok & H).
    apply mthen_Ok in H as (w5 & u' & [_ Hf]%check_fee_Ok & [= _ <-]). exists transaction, p, value.
    split; [done|]. split; [done|]. split; [done|]. simpl.
    apply fail_if_Ok in Hf. apply orb_false_iff in Hf as [Hf H2]. apply orb_false_iff in Hf as [H0 H1].
    apply negb_false_iff, N.eqb_eq in H0.
    split; [exact Hq|].
    repeat (split; [done|]). destruct (fv_accepted_by_policy value); simpl in *.
    + apply negb_false_iff, N.eqb_eq in H1. done.
    + apply N.eqb_neq in H2. done.
Qed.
End answers.

(** ** Witness *)

Definition sample_breakdown (shape : TransactionShape) : FeeBreakdown :=
  let input := 100 * shape.(ts_input_count) in
  let output := 200 * shape.(ts_output_count) in
  let kernel := 50 * shape.(ts_kernel_count) in
  let total := input + output + kernel in
  mkFeeBreakdown shape.(ts_input_count) shape.(ts_output_count) shape.(ts_kernel_count) input output
    kernel total (2 * total) (3 * total) 2 3 1 CNet.Regtest None 7.
#[export] Instance sample_fees : WalletFeeApi unit := {|
  api_fee_policy w := (w, Ok (mkFeePolicySnapshot 1 CNet.Regtest 2 2 3 7 100000 None));
  api_transaction_weight shape w :=
    let b := sample_breakdown shape in
    (w, Ok (mkTransactionWeight b.(fb_input_weight) b.(fb_output_weight) b.(fb_kernel_weight)
              b.(fb_total_weight)));
  api_minimum_fee shape w := (w, Ok (sample_breakdown shape));
  api_estimate_fee request w :=
    let b := sample_breakdown request.(fer_shape) in (w, Ok (mkFeeEstimate b b.(fb_minimum_fee_noms) 2));
  api_recommended_fee request w :=
    let b := sample_breakdown request.(fer_shape) in
    (w, Ok (mkFeeEstimate b b.(fb_recommended_fee_noms) 3));
  api_validate_fee transaction w :=
    let b := sample_breakdown (mkTransactionShape (len transaction.(txn_inputs)) 2 1) in
    (w, Ok (mkFeeValidation true 2000 b.(fb_minimum_fee_noms) 0 4 b));
|}.

Definition sample_shape : WalletTransactionShape := mkWalletTransactionShape 3 2 1.

Definition sample_recommended : WalletFeeEstimate :=
  mkWalletFeeEstimate sample_shape (mkWalletTransactionWeight 300 400 50 750) 1500 2250 2250 3 2 3 1
    CNet.Regtest None 7.
Definition sample_validation : WalletFeeValidation :=
  mkWalletFeeValidation true 2000 1100 0 4
    (mkWalletFeeEstimate (mkWalletTransactionShape 1 2 1) (mkWalletTransactionWeight 100 400 50 550)
       1100 1650 1100 2 2 3 1 CNet.Regtest None 7).

Lemma accepted_fees_follow_the_policy_witness :
  (exists p value, policy_answered sample_core_identity p /\ fee_answered RecommendedFee (shape_core sample_shape) value
     /\ quotes p value.(fe_breakdown) value.(fe_selected_fee_noms) value.(fe_selected_fee_rate) sample_recommended)
  /\ (sample_validation.(wfv_accepted_by_policy) = true <-> sample_validation.(wfv_shortfall_noms) = 0).
Proof.
  destruct (accepted_fees_follow_the_policy sample_core_identity) as (_ & Hq & Hv). split.
  - exact (proj2 (Hq RecommendedFee sample_shape tt tt sample_recommended ltac:(vm_compute; reflexivity))).
  - destruct (Hv [Byte.x01] tt tt sample_validation ltac:(vm_compute; reflexivity))
      as (_ & transaction & p & value & _ & _ & _ & _ & _ & _ & _ & _ & _ & H). exact H.
Defined.
