(* ===== verification/Slates.v ===== *)
(** * Addresses and recovery slates

    The wallet's wrappers over addresses and slates, of
    crates/dom-wallet-core-protocol/src/lib.rs: [WalletAddress],
    [RecoverySlateBody] and [CanonicalSlate].  A wrapper is only made of canonical
    bytes that passed every check, and keeps them.  The address, slate and envelope
    codecs are code of other repositories and make the class [SlateCode]; of their
    values only the fields that the wallet reads are named. *)

From S2P Require Import Prelude Bytes Codecs WalletOps CoreTypes Projection Submission Fees.

(** ** Code of dom-core, dom-tx and dom-crypto *)

Record Address := mkAddress {
  ad_version : N;
  ad_network_magic : N;
  ad_address_type : N;
  ad_key_type : N;
  ad_payload : bytes;
}.

(** An output of a slate: the commitment and the proof. *)
Record SlateOutput := mkSlateOutput { so_commitment : bytes; so_proof : bytes }.

Record Slate := mkSlate {
  sl_version : N;
  sl_chain_id : bytes;
  sl_amount : N;
  sl_fee : N;
  sl_lock_height : N;
  sl_sender_inputs : list bytes;
  sl_sender_change_output : option SlateOutput;
  sl_sender_public_excess : bytes;
  sl_sender_public_nonce : bytes;
  sl_sender_offset_contribution : bytes;
  sl_sender_change_recovery_capsule : bytes;
  sl_recipient_output : option SlateOutput;
  sl_recipient_public_excess : option bytes;
  sl_recipient_recovery_capsule : bytes;
  (** the fields that the wallet does not read *)
  sl_rest : bytes;
}.
#[global] Instance Slate_fields : FieldList Slate := fun r =>
  mkSlate r.(sl_version) r.(sl_chain_id) r.(sl_amount) r.(sl_fee) r.(sl_lock_height)
    r.(sl_sender_inputs) r.(sl_sender_change_output) r.(sl_sender_public_excess)
    r.(sl_sender_public_nonce) r.(sl_sender_offset_contribution)
    r.(sl_sender_change_recovery_capsule) r.(sl_recipient_output)
    r.(sl_recipient_public_excess) r.(sl_recipient_recovery_capsule) r.(sl_rest).
#[global] Instance Address_eq_dec : EqDecision Address.
Proof. solve_decision. Defined.
#[global] Instance SlateOutput_eq_dec : EqDecision SlateOutput.
Proof. solve_decision. Defined.
#[global] Instance Slate_eq_dec : EqDecision Slate.
Proof. solve_decision. Defined.

Record SlateEnvelope := mkSlateEnvelope {
  se_envelope_version : N;
  se_network_magic : N;
  se_chain_id : bytes;
  se_slate_id : bytes;
  se_replay_id : bytes;
  se_flow : N;
  se_phase : N;
  se_expires_at_height : N;
  se_sender_address : Address;
  se_receiver_address : Address;
  se_body : Slate;
}.
#[global] Instance SlateEnvelope_eq_dec : EqDecision SlateEnvelope.
Proof. solve_decision. Defined.

Class SlateCode := {
  ADDRESS_PAYLOAD_VERSION_V3 : N;
  ADDRESS_TYPE_STANDARD : N;
  ADDRESS_KEY_TYPE_SECP256K1_COMPRESSED : N;
  ADDRESS_V3_PAYLOAD_LEN : N;
  MAX_ADDRESS_LEN : N;
  RECOVERY_SLATE_VERSION : N;
  RECOVERY_SLATE_ENVELOPE_VERSION : N;
  SLATE_FLOW_STANDARD_SEND : N;
  SLATE_PHASE_SENDER_OFFER : N;
  SLATE_PHASE_RECEIVER_RESPONSE : N;
  SLATE_PHASE_FINALIZED : N;
  SLATE_ROLE_SENDER : N;
  SLATE_ROLE_RECEIVER : N;
  network_from_magic : N -> option CNet.CoreNetwork;
  public_key_from_compressed_bytes : bytes -> option bytes;
  recovery_capsule_from_bytes : bytes -> option bytes;
  address_new_for_network : bytes -> N -> option Address;
  address_decode : bytes -> option Address;
  address_encode : Address -> bytes;
  address_payload_bytes : Address -> bytes;
  address_validate_for_network : Address -> N -> bool;
  slate_from_canonical_bytes : bytes -> option Slate;
  slate_to_canonical_bytes : Slate -> option bytes;
  slate_validate : Slate -> bool;
  (** [SlateEnvelope::new]: magic, chain, slate id, replay id, phase, expiry,
      sender, receiver and body *)
  envelope_new : N -> bytes -> bytes -> bytes -> N -> N -> Address -> Address -> Slate ->
    option SlateEnvelope;
  envelope_from_canonical_bytes : bytes -> option SlateEnvelope;
  envelope_to_canonical_bytes : SlateEnvelope -> option bytes;
  envelope_validate : SlateEnvelope -> bool;
  envelope_is_expired_at : SlateEnvelope -> N -> bool;
  envelope_signature_digest : SlateEnvelope -> N -> option bytes;
  url_safe_encode : bytes -> bytes;
  url_safe_decode : bytes -> option bytes;
}.

(** ** Data *)

Definition RECOVERY_SLATE_TEXT_PREFIX : bytes := str "DOMSLATE4.".

Module Purpose.
Inductive AddressIdentityPurpose := TransactionInteraction | PaymentProof.
End Purpose.

Record WalletAddress := mkWalletAddress {
  wa_inner : Address;
  wa_purpose : Purpose.AddressIdentityPurpose;
}.

Module SRole.
Inductive SlateParticipantRole := Sender | Receiver.
End SRole.

Module Phase.
Inductive SlatePhase := SenderOffer | ReceiverResponse | Finalized.
#[global] Instance SlatePhase_eq_dec : EqDecision SlatePhase.
Proof. solve_decision. Defined.
End Phase.

Record RecoverySlateSidecars := mkRecoverySlateSidecars {
  rss_sender_change : option bytes;
  rss_recipient : option bytes;
}.
Record RecoverySlateBody := mkRecoverySlateBody {
  rsb_inner : Slate;
  rsb_canonical_bytes : bytes;
}.
Record SlateReplayKey := mkSlateReplayKey { srk_slate_id : bytes; srk_replay_id : bytes }.
#[global] Instance SlateReplayKey_eq_dec : EqDecision SlateReplayKey.
Proof. solve_decision. Defined.
Inductive SlateLifecycleAction := Cancelled | ResendUnmodified.
Record CanonicalSlate := mkCanonicalSlate {
  cs_inner : SlateEnvelope;
  cs_canonical_bytes : bytes;
}.

(** [SlateReplayProtection], the durable replay boundary. *)
Class SlateReplayProtection (P : Type) := {
  record_if_fresh : SlateReplayKey -> method P PErr.ProtocolAdapterError bool;
}.

(** ** Operations *)

Section slates.
Context {codec : CoreCodec} {code : SlateCode}.

Definition validate_public_key (value : bytes) : result PErr.ProtocolAdapterError unit :=
  let? _ := ok_or (public_key_from_compressed_bytes value) PErr.MalformedAddress in Ok tt.

Definition validate_address_shape (value : Address) (network : CNet.CoreNetwork)
    : result PErr.ProtocolAdapterError unit :=
  fail_if (negb (address_validate_for_network value (magic network))) PErr.AddressNetworkMismatch ;?
  fail_if (negb (value.(ad_version) =? ADDRESS_PAYLOAD_VERSION_V3)
           || negb (value.(ad_address_type) =? ADDRESS_TYPE_STANDARD)
           || negb (value.(ad_key_type) =? ADDRESS_KEY_TYPE_SECP256K1_COMPRESSED)
           || negb (len (address_payload_bytes value) =? ADDRESS_V3_PAYLOAD_LEN))
          PErr.MalformedAddress.

Definition from_public_key (public_key : bytes) (network : CNet.CoreNetwork)
    (purpose : Purpose.AddressIdentityPurpose) : result PErr.ProtocolAdapterError WalletAddress :=
  validate_public_key public_key ;?
  let? inner := ok_or (address_new_for_network public_key (magic network)) PErr.MalformedAddress in
  validate_address_shape inner network ;?
  Ok (mkWalletAddress inner purpose).

Definition is_ascii_uppercase (b : Byte.byte) : bool := in_range 65 90 b.

Definition address_parse (text : bytes) (network : CNet.CoreNetwork)
    (purpose : Purpose.AddressIdentityPurpose) : result PErr.ProtocolAdapterError WalletAddress :=
  fail_if (is_empty text || (MAX_ADDRESS_LEN <? len text) || negb (forallb is_ascii text)
           || existsb is_ascii_uppercase text || existsb is_ascii_whitespace text)
          PErr.NonCanonicalAddress ;?
  let? inner := ok_or (address_decode text) PErr.MalformedAddress in
  validate_address_shape inner network ;?
  validate_public_key inner.(ad_payload) ;?
  fail_if (negb (bool_decide (address_encode inner = text))) PErr.NonCanonicalAddress ;?
  Ok (mkWalletAddress inner purpose).

Definition wallet_address_network (self : WalletAddress)
    : result PErr.ProtocolAdapterError CNet.CoreNetwork :=
  ok_or (network_from_magic self.(wa_inner).(ad_network_magic)) PErr.MalformedAddress.

Definition validate_address_for_identity (address : WalletAddress) (identity : CoreChainIdentity)
    : result PErr.ProtocolAdapterError unit :=
  let? network := wallet_address_network address in
  fail_if (negb (bool_decide (network = identity.(cci_network)))) PErr.AddressNetworkMismatch.

Definition role_to_core (self : SRole.SlateParticipantRole) : N :=
  match self with
  | SRole.Sender => SLATE_ROLE_SENDER
  | SRole.Receiver => SLATE_ROLE_RECEIVER
  end.
Definition phase_from_core (value : N) : result PErr.ProtocolAdapterError Phase.SlatePhase :=
  if value =? SLATE_PHASE_SENDER_OFFER then Ok Phase.SenderOffer
  else if value =? SLATE_PHASE_RECEIVER_RESPONSE then Ok Phase.ReceiverResponse
  else if value =? SLATE_PHASE_FINALIZED then Ok Phase.Finalized
  else Err PErr.UnsupportedSlatePhase.
Definition phase_to_core (value : Phase.SlatePhase) : N :=
  match value with
  | Phase.SenderOffer => SLATE_PHASE_SENDER_OFFER
  | Phase.ReceiverResponse => SLATE_PHASE_RECEIVER_RESPONSE
  | Phase.Finalized => SLATE_PHASE_FINALIZED
  end.

Definition copy_sidecar (value : bytes) : result PErr.ProtocolAdapterError (option bytes) :=
  if is_empty value then Ok None
  else
    let? _ := ok_or (recovery_capsule_from_bytes value) PErr.InvalidRecoverySidecar in
    fail_if (negb (len value =? RECOVERY_CAPSULE_SIZE)) PErr.InvalidRecoverySidecar ;?
    Ok (Some value).

(** *** Slate bodies *)

Definition body_from_canonical_bytes (b : bytes) : result PErr.ProtocolAdapterError RecoverySlateBody :=
  let? inner := ok_or (slate_from_canonical_bytes b) PErr.InvalidSlateEncoding in
  fail_if (negb (inner.(sl_version) =? RECOVERY_SLATE_VERSION)) PErr.RecoverySlateRequired ;?
  fail_if (negb (slate_validate inner)) PErr.InvalidRecoverySidecar ;?
  let? canonical_bytes := ok_or (slate_to_canonical_bytes inner) PErr.InvalidSlateEncoding in
  fail_if (negb (bool_decide (canonical_bytes = b))) PErr.NonCanonicalSlate ;?
  Ok (mkRecoverySlateBody inner canonical_bytes).

Definition input_count (self : RecoverySlateBody) : N :=
  N.min u32_max (len self.(rsb_inner).(sl_sender_inputs)).
Definition has_sender_change (self : RecoverySlateBody) : bool :=
  is_some self.(rsb_inner).(sl_sender_change_output).
Definition manual_interaction_public_keys (self : RecoverySlateBody) : bytes * bytes :=
  (self.(rsb_inner).(sl_sender_public_excess), self.(rsb_inner).(sl_sender_public_nonce)).

(** *** Slate envelopes *)

Definition from_validated (inner : SlateEnvelope) (identity : CoreChainIdentity) (current_height : N)
    : result PErr.ProtocolAdapterError CanonicalSlate :=
  fail_if (negb (envelope_validate inner)) PErr.InvalidSlate ;?
  fail_if (negb (inner.(se_network_magic) =? identity.(cci_network_magic))) PErr.SlateNetworkMismatch ;?
  fail_if (negb (bool_decide (inner.(se_chain_id) = identity.(cci_chain_id)))
           || negb (bool_decide (inner.(se_body).(sl_chain_id) = identity.(cci_chain_id))))
          PErr.SlateChainMismatch ;?
  fail_if (negb (inner.(se_flow) =? SLATE_FLOW_STANDARD_SEND)) PErr.UnsupportedSlateFlow ;?
  fail_if (envelope_is_expired_at inner current_height) PErr.SlateExpired ;?
  let? canonical_bytes := ok_or (envelope_to_canonical_bytes inner) PErr.InvalidSlateEncoding in
  Ok (mkCanonicalSlate inner canonical_bytes).

Definition new_recoverable (identity : CoreChainIdentity) (slate_id replay_id : bytes)
    (phase : Phase.SlatePhase) (expires_at_height : N) (sender receiver : WalletAddress)
    (body : RecoverySlateBody) : result PErr.ProtocolAdapterError CanonicalSlate :=
  validate_address_for_identity sender identity ;?
  validate_address_for_identity receiver identity ;?
  let? inner := ok_or (envelope_new identity.(cci_network_magic) identity.(cci_chain_id) slate_id
                         replay_id (phase_to_core phase) expires_at_height sender.(wa_inner)
                         receiver.(wa_inner) body.(rsb_inner)) PErr.InvalidSlate in
  from_validated inner identity expires_at_height.

Definition from_recovery_bytes (b : bytes) (identity : CoreChainIdentity) (current_height : N)
    : result PErr.ProtocolAdapterError CanonicalSlate :=
  let? inner := ok_or (envelope_from_canonical_bytes b) PErr.InvalidSlateEncoding in
  let? value := from_validated inner identity current_height in
  fail_if (negb (value.(cs_inner).(se_envelope_version) =? RECOVERY_SLATE_ENVELOPE_VERSION)
           || negb (value.(cs_inner).(se_body).(sl_version) =? RECOVERY_SLATE_VERSION))
          PErr.RecoverySlateRequired ;?
  fail_if (negb (bool_decide (value.(cs_canonical_bytes) = b))) PErr.NonCanonicalSlate ;?
  Ok value.

Definition from_text (text : bytes) (identity : CoreChainIdentity) (current_height : N)
    : result PErr.ProtocolAdapterError CanonicalSlate :=
  let? encoded := ok_or (strip_prefix RECOVERY_SLATE_TEXT_PREFIX text) PErr.InvalidSlateText in
  fail_if (is_empty encoded || existsb is_ascii_whitespace encoded) PErr.InvalidSlateText ;?
  let? b := ok_or (url_safe_decode encoded) PErr.InvalidSlateText in
  fail_if (negb (bool_decide (url_safe_encode b = encoded))) PErr.InvalidSlateText ;?
  from_recovery_bytes b identity current_height.
Definition to_text (self : CanonicalSlate) : bytes :=
  RECOVERY_SLATE_TEXT_PREFIX ++ url_safe_encode self.(cs_canonical_bytes).

Definition signature_digest (self : CanonicalSlate) (role : SRole.SlateParticipantRole)
    : result PErr.ProtocolAdapterError bytes :=
  ok_or (envelope_signature_digest self.(cs_inner) (role_to_core role)) PErr.InvalidSlate.
Definition validate_signature_digest (self : CanonicalSlate) (role : SRole.SlateParticipantRole)
    (expected : bytes) : result PErr.ProtocolAdapterError unit :=
  let? digest := signature_digest self role in
  fail_if (negb (bool_decide (digest = expected))) PErr.SlateDomainMismatch.

Definition replay_key (self : CanonicalSlate) : SlateReplayKey :=
  mkSlateReplayKey self.(cs_inner).(se_slate_id) self.(cs_inner).(se_replay_id).
Definition record_replay {P} {protection : SlateReplayProtection P} (self : CanonicalSlate)
    : method P PErr.ProtocolAdapterError unit :=
  let! fresh := record_if_fresh (replay_key self) in
  mread (fun _ => fail_if (negb fresh) PErr.DuplicateReplay).

Definition recovery_sidecars (self : CanonicalSlate)
    : result PErr.ProtocolAdapterError RecoverySlateSidecars :=
  fail_if (negb (self.(cs_inner).(se_envelope_version) =? RECOVERY_SLATE_ENVELOPE_VERSION)
           || negb (self.(cs_inner).(se_body).(sl_version) =? RECOVERY_SLATE_VERSION))
          PErr.RecoverySlateRequired ;?
  fail_if (negb (slate_validate self.(cs_inner).(se_body))) PErr.InvalidRecoverySidecar ;?
  let? sender_change := copy_sidecar self.(cs_inner).(se_body).(sl_sender_change_recovery_capsule) in
  let? recipient := copy_sidecar self.(cs_inner).(se_body).(sl_recipient_recovery_capsule) in
  Ok (mkRecoverySlateSidecars sender_change recipient).

Definition validate_height (self : CanonicalSlate) (current_height : N)
    : result PErr.ProtocolAdapterError unit :=
  fail_if (envelope_is_expired_at self.(cs_inner) current_height) PErr.SlateExpired.
Definition resend_slate (self : CanonicalSlate) : bytes * SlateLifecycleAction :=
  (self.(cs_canonical_bytes), ResendUnmodified).
Definition cancel_slate (self : CanonicalSlate) : SlateLifecycleAction := Cancelled.
Definition phase (self : CanonicalSlate) : result PErr.ProtocolAdapterError Phase.SlatePhase :=
  phase_from_core self.(cs_inner).(se_phase).
Definition fee_noms (self : CanonicalSlate) : N := self.(cs_inner).(se_body).(sl_fee).
Definition expires_at_height (self : CanonicalSlate) : N := self.(cs_inner).(se_expires_at_height).

Definition recovery_body (self : CanonicalSlate) : result PErr.ProtocolAdapterError RecoverySlateBody :=
  let? b := ok_or (slate_to_canonical_bytes self.(cs_inner).(se_body)) PErr.InvalidSlateEncoding in
  body_from_canonical_bytes b.

Definition with_recovery_body (self : CanonicalSlate) (phase : Phase.SlatePhase)
    (body : RecoverySlateBody) (identity : CoreChainIdentity) (current_height : N)
    : result PErr.ProtocolAdapterError CanonicalSlate :=
  let? value := new_recoverable identity self.(cs_inner).(se_slate_id) self.(cs_inner).(se_replay_id)
                  phase self.(cs_inner).(se_expires_at_height)
                  (mkWalletAddress self.(cs_inner).(se_sender_address) Purpose.TransactionInteraction)
                  (mkWalletAddress self.(cs_inner).(se_receiver_address) Purpose.TransactionInteraction)
                  body in
  validate_height value current_height ;?
  Ok value.
End slates.

(** ** The text form *)

(** What is relied on of URL-safe base64 without padding: decoding inverts
    encoding, and an encoding has no white space and is empty for nothing only. *)
Class SlateLaws (code : SlateCode) : Prop := {
  url_safe_round : forall b, url_safe_decode (url_safe_encode b) = Some b;
  url_safe_plain : forall b, existsb is_ascii_whitespace (url_safe_encode b) = false;
  url_safe_empty : forall b, url_safe_encode b = [] <-> b = [];
}.

Section slate_theorems.
Context {codec : CoreCodec} {code : SlateCode} {laws : SlateLaws code}.

Lemma from_recovery_bytes_Ok b identity h s :
  from_recovery_bytes b identity h = Ok s ->
  s.(cs_canonical_bytes) = b /\ envelope_from_canonical_bytes b = Some s.(cs_inner)
  /\ from_validated s.(cs_inner) identity h = Ok s
  /\ s.(cs_inner).(se_envelope_version) = RECOVERY_SLATE_ENVELOPE_VERSION
  /\ s.(cs_inner).(se_body).(sl_version) = RECOVERY_SLATE_VERSION.
Proof.
  unfold from_recovery_bytes. intros H. res_inv. subst.
  match goal with H : from_validated _ _ _ = Ok _ |- _ => pose proof H as Hv; unfold from_validated in Hv end.
  res_inv. subst. simpl in *. bool_inv. auto.
Qed.

(** The text of a slate is exact.  A text is read as a slate exactly when it is
    the text of that slate and the slate's bytes are accepted as a recovery slate
    of the chain that has not expired: no other text is read as it, and nothing
    that is read differs from what was written. *)
Theorem slate_texts_are_exact text identity h s :
  from_text text identity h = Ok s
  <-> to_text s = text /\ s.(cs_canonical_bytes) <> []
      /\ from_recovery_bytes s.(cs_canonical_bytes) identity h = Ok s.
Proof.
  unfold from_text, to_text. split.
  - intros H. res_inv. bool_inv. subst.
    match goal with H : from_recovery_bytes _ _ _ = Ok _ |- _ =>
      pose proof (from_recovery_bytes_Ok _ _ _ _ H) as (E & _) end.
    match goal with H : strip_prefix _ _ = Some _ |- _ => apply strip_prefix_Some in H end.
    subst. split; [done|]. split; [|done]. intros Hnil. rewrite Hnil in *.
    assert (E : url_safe_encode [] = []) by (by apply url_safe_empty). rewrite E in *. done.
  - intros (<- & Hne & H). rewrite (proj2 (strip_prefix_Some _ _ _) eq_refl). simpl.
    rewrite url_safe_plain, url_safe_round. simpl. rewrite bool_decide_eq_true_2 by done. simpl.
    destruct (url_safe_encode _) eqn:E; [|exact H]. exfalso. by apply Hne, url_safe_empty.
Qed.
End slate_theorems.

(** ** Witnesses *)

Lemma base64_never_blank b : base64_char b = true -> is_ascii_whitespace b = false.
Proof. by destruct b. Qed.

(** Codecs that know the slates and the envelopes of a list. *)
Definition known {A} `{EqDecision A} (l : list A) (a : A) : option bytes :=
  (fun i => [byte_of (N.of_nat i)]) <$> position (fun x => bool_decide (x = a)) (take 256 l).
Definition known_at {A} (l : list A) (b : bytes) : option A :=
  match b with [i] => l !! N.to_nat (Byte.to_N i) | _ => None end.
Lemma known_round {A} `{EqDecision A} (l : list A) a b : known l a = Some b -> known_at l b = Some a.
Proof.
  unfold known. destruct (position _ _) as [i|] eqn:E; [|done]. intros [= <-].
  apply position_Some in E as [(x & Hx & Ha%bool_decide_eq_true) _]. subst x.
  apply lookup_take_Some in Hx as [Hx Hi]. simpl.
  assert (Eb : Byte.to_N (byte_of (N.of_nat i)) = N.of_nat i).
  { unfold byte_of. destruct (Byte.of_N (N.of_nat i)) as [c|] eqn:Ec; simpl; [by apply Byte.to_of_N|].
    apply Byte.of_N_None_iff in Ec. lia. }
  by rewrite Eb, Nat2N.id.
Qed.
Lemma known_at_elem {A} (l : list A) b a : known_at l b = Some a -> a ∈ l.
Proof. unfold known_at. destruct b as [|i [|]]; [done| |done]. apply list_elem_of_lookup_2. Qed.
Definition sample_slate_code (slates : list Slate) (envelopes : list SlateEnvelope) : SlateCode := {|
  ADDRESS_PAYLOAD_VERSION_V3 := 3;
  ADDRESS_TYPE_STANDARD := 0;
  ADDRESS_KEY_TYPE_SECP256K1_COMPRESSED := 0;
  ADDRESS_V3_PAYLOAD_LEN := 40;
  MAX_ADDRESS_LEN := 90;
  RECOVERY_SLATE_VERSION := 4;
  RECOVERY_SLATE_ENVELOPE_VERSION := 4;
  SLATE_FLOW_STANDARD_SEND := 0;
  SLATE_PHASE_SENDER_OFFER := 1;
  SLATE_PHASE_RECEIVER_RESPONSE := 2;
  SLATE_PHASE_FINALIZED := 3;
  SLATE_ROLE_SENDER := 1;
  SLATE_ROLE_RECEIVER := 2;
  network_from_magic n := match n with
                          | 1 => Some CNet.Mainnet
                          | 2 => Some CNet.Testnet
                          | 3 => Some CNet.Regtest
                          | _ => None
                          end;
  public_key_from_compressed_bytes := Some;
  recovery_capsule_from_bytes := Some;
  address_new_for_network key m := Some (mkAddress 3 m 0 0 key);
  address_decode text := Some (mkAddress 3 3 0 0 text);
  address_encode a := a.(ad_payload);
  address_payload_bytes _ := zeros 40;
  address_validate_for_network a m := a.(ad_network_magic) =? m;
  slate_from_canonical_bytes := known_at slates;
  slate_to_canonical_bytes := known slates;
  slate_validate _ := true;
  envelope_new m chain id replay phase expiry sender receiver body :=
    Some (mkSlateEnvelope 4 m chain id replay 0 phase expiry sender receiver body);
  envelope_from_canonical_bytes := known_at envelopes;
  envelope_to_canonical_bytes := known envelopes;
  envelope_validate _ := true;
  envelope_is_expired_at e h := e.(se_expires_at_height) <? h;
  envelope_signature_digest _ _ := Some (zeros 32);
  url_safe_encode := b64_encode;
  url_safe_decode := b64_decode;
|}.
Lemma sample_slate_laws slates envelopes : SlateLaws (sample_slate_code slates envelopes).
Proof.
  split.
  - exact b64_round.
  - intros b. apply not_true_iff_false. intros (c & Hc & Hw)%existsb_exists.
    pose proof (b64_alphabet b) as Ha. rewrite forallb_forall in Ha.
    by rewrite (base64_never_blank _ (Ha _ Hc)) in Hw.
  - intros b. split; [|by intros ->]. intros H. pose proof (b64_size b) as Hs. simpl in H. rewrite H in Hs.
    destruct b; [done|]. unfold len in Hs. simpl in Hs. lia.
Qed.

(** An offer of 500 from an input of 1900, with 300 in change, and the response. *)
Definition sample_offer : Slate :=
  mkSlate 4 (sample_bytes 32 Byte.x01) 500 1100 0 [sample_bytes 33 Byte.x05]
    (Some (mkSlateOutput (sample_bytes 33 Byte.x06) (sample_bytes 3 Byte.x62)))
    (sample_bytes 33 Byte.x0a) (sample_bytes 33 Byte.x0b) (sample_bytes 32 Byte.x0c)
    (sample_bytes 4 Byte.x0d) None None [] [].
Definition sample_response : Slate :=
  sample_offer <| sl_recipient_output := Some (mkSlateOutput (sample_bytes 33 Byte.x07) (sample_bytes 3 Byte.x62)) |>
    <| sl_recipient_public_excess := Some (sample_bytes 33 Byte.x0e) |>
    <| sl_recipient_recovery_capsule := sample_bytes 4 Byte.x0f |>.
Definition envelope_of (phase : N) (body : Slate) : SlateEnvelope :=
  mkSlateEnvelope 4 3 (sample_bytes 32 Byte.x01) (sample_bytes 32 Byte.x51) (sample_bytes 32 Byte.x52)
    0 phase 20 (mkAddress 3 3 0 0 (sample_bytes 33 Byte.x0a)) (mkAddress 3 3 0 0 (sample_bytes 33 Byte.x0b)) body.
#[export] Instance sample_slates : SlateCode :=
  sample_slate_code [sample_offer; sample_response] [envelope_of 1 sample_offer; envelope_of 2 sample_response].
#[export] Instance sample_slates_laws : SlateLaws sample_slates := sample_slate_laws _ _.
Definition offer_slate : CanonicalSlate := mkCanonicalSlate (envelope_of 1 sample_offer) [Byte.x00].
