(* ===== verification/Outputs.v ===== *)
(** * Seeds, recoverable outputs and their transactions

    crates/dom-wallet-core-recovery/src/lib.rs: the BIP-39 seed and the diagnosis of
    a phrase, the builder of recoverable outputs, the contributions and signing
    capabilities of Scriptless transactions, and the finalisation and verification
    of a transaction against its slates.  BIP-39, the commitments, proofs and
    capsules, and the slate arithmetic are code of other repositories and make the
    classes [SeedCode] and [OutputCode]; randomness is an argument. *)

From S2P Require Import Prelude Bytes Codecs DomainTypes WalletOps CoreTypes Projection Recovery.
From S2P Require Import Submission Fees Slates.

(** ** Errors *)

Module RmErr.
Inductive RecoveryMaterialError :=
| RandomnessUnavailable
| InvalidMnemonic
| RecoveryRootDerivation
| LegacyCoinbaseDerivation
| ChainIdentityMismatch
| ValueOutOfRange
| CoordinateDomainMismatch
| OutputConstruction
| CanonicalEncoding
| CanonicalSize
| RecoveryRequired
| InvalidCapsule
| ProofVerification
| CapsuleAuthentication
| SelfRecoveryMismatch
| SlateConstruction
| SlateBindingMismatch
| TransactionVerification
| ScriptlessFundingConstruction
| ScriptlessPayoutConstruction
| ScriptlessSigningBinding.
End RmErr.

(** ** Seeds *)

(** A mnemonic of the bip39 crate, as far as the wallet asks it. *)
Record Mnemonic := mkMnemonic { mn_word_count : N; mn_entropy : bytes }.

Module Bip39Err.
Inductive Error :=
| BadWordCount (got : N) | UnknownWord (index : N) | InvalidChecksum | Other.
End Bip39Err.

Class SeedCode := {
  (** [Mnemonic::from_entropy_in] and [parse_in], in English *)
  mnemonic_from_entropy : bytes -> option Mnemonic;
  mnemonic_parse : list N -> result Bip39Err.Error Mnemonic;
  mnemonic_to_seed : Mnemonic -> bytes;
  extended_from_seed : bytes -> option bytes;
  coinbase_blinding : bytes -> N -> option bytes;
  (** [derive_recovery_root] for a network magic and a chain *)
  derive_recovery_root : bytes -> N -> bytes -> option bytes;
}.

Definition CANONICAL_PHRASE_WORDS : N := 24.

Module Phrase.
Inductive PhraseProblem :=
| WrongWordCount (got : N) | UnknownWord (index : N) | ChecksumMismatch | Malformed.
End Phrase.

Record CanonicalWalletSeed := mkCanonicalWalletSeed {
  cws_mnemonic : Mnemonic;
  cws_seed : bytes;
  cws_legacy_root : bytes;
}.

(** [char::is_whitespace]: the Unicode property White_Space. *)
Definition is_whitespace (c : N) : bool :=
  ((9 <=? c) && (c <=? 13)) || (c =? 32) || (c =? 0x85) || (c =? 0xa0) || (c =? 0x1680)
  || ((0x2000 <=? c) && (c <=? 0x200a)) || (c =? 0x2028) || (c =? 0x2029) || (c =? 0x202f)
  || (c =? 0x205f) || (c =? 0x3000).
(** [phrase.split_whitespace().count()] of a string of characters; [inside] a word. *)
Fixpoint count_words (inside : bool) (phrase : list N) : N :=
  match phrase with
  | [] => 0
  | c :: phrase => if is_whitespace c then count_words false phrase
                   else (if inside then 0 else 1) + count_words true phrase
  end.

Section seeds.
Context {code : SeedCode}.

Definition canonical_mnemonic (m : Mnemonic) : bool :=
  (m.(mn_word_count) =? CANONICAL_PHRASE_WORDS) && (len m.(mn_entropy) =? 32).
Definition from_mnemonic (mnemonic : Mnemonic) : result RmErr.RecoveryMaterialError CanonicalWalletSeed :=
  fail_if (negb (canonical_mnemonic mnemonic)) RmErr.InvalidMnemonic ;?
  let seed := mnemonic_to_seed mnemonic in
  let? legacy_root := ok_or (extended_from_seed seed) RmErr.LegacyCoinbaseDerivation in
  Ok (mkCanonicalWalletSeed mnemonic seed legacy_root).
Definition seed_from_entropy (entropy : bytes)
    : result RmErr.RecoveryMaterialError CanonicalWalletSeed :=
  let? mnemonic := ok_or (mnemonic_from_entropy entropy) RmErr.InvalidMnemonic in
  from_mnemonic mnemonic.
(** [generate]; [entropy] is what the operating system gives. *)
Definition generate (entropy : option bytes) : result RmErr.RecoveryMaterialError CanonicalWalletSeed :=
  let? entropy := ok_or entropy RmErr.RandomnessUnavailable in seed_from_entropy entropy.
Definition parse (phrase : list N) : result RmErr.RecoveryMaterialError CanonicalWalletSeed :=
  match mnemonic_parse phrase with
  | Err _ => Err RmErr.InvalidMnemonic
  | Ok mnemonic =>
      fail_if (negb (canonical_mnemonic mnemonic)) RmErr.InvalidMnemonic ;?
      from_mnemonic mnemonic
  end.

Definition diagnose_phrase (phrase : list N) : result Phrase.PhraseProblem unit :=
  let words := count_words false phrase in
  fail_if (negb (words =? CANONICAL_PHRASE_WORDS)) (Phrase.WrongWordCount words) ;?
  match mnemonic_parse phrase with
  | Ok mnemonic => fail_if (negb (canonical_mnemonic mnemonic)) Phrase.Malformed
  | Err (Bip39Err.UnknownWord index) => Err (Phrase.UnknownWord index)
  | Err Bip39Err.InvalidChecksum => Err Phrase.ChecksumMismatch
  | Err (Bip39Err.BadWordCount got) => Err (Phrase.WrongWordCount got)
  | Err Bip39Err.Other => Err Phrase.Malformed
  end.

Definition recovery_root (self : CanonicalWalletSeed) (network_magic : N) (chain_id : bytes)
    : result RmErr.RecoveryMaterialError bytes :=
  ok_or (derive_recovery_root self.(cws_seed) network_magic chain_id) RmErr.RecoveryRootDerivation.
Definition seed_legacy_coinbase_blinding (self : CanonicalWalletSeed) (height : N)
    : result RmErr.RecoveryMaterialError bytes :=
  ok_or (coinbase_blinding self.(cws_legacy_root) height) RmErr.LegacyCoinbaseDerivation.

Definition state_uses_canonical_seed (state : WalletState) : bool :=
  is_some_and state.(ws_recovery) (fun value => String.eqb value.(rm_scheme) RECOVERY_SCHEME_BIP39_256_V1).
End seeds.

(** ** Code of dom-crypto, dom-tx, dom-slate and dom-adaptor *)

Record RecoveryChainContext := mkRecoveryChainContext {
  rcc_network_magic : N;
  rcc_chain_id : bytes;
}.
(** What a capsule gives back. *)
Record RecoveredOutput := mkRecoveredOutput {
  rcv_value : N;
  rcv_account : N;
  rcv_derivation_index : N;
  rcv_domain : ORD.OutputRecoveryDomain;
  rcv_blinding : bytes;
}.
Record RecoveryBuildContext := mkRecoveryBuildContext {
  rbc_root : bytes;
  rbc_chain : RecoveryChainContext;
  rbc_account : N;
  rbc_derivation_index : N;
}.
(** The sender's and the recipient's result of the slate builder. *)
Record SenderMaterial := mkSenderMaterial {
  sm_slate : Slate;
  sm_excess_blinding : bytes;
  sm_nonce : bytes;
  sm_change : option (bytes * N * bytes);
}.
Record RecipientMaterial := mkRecipientMaterial {
  rpm_slate : Slate;
  rpm_recipient_output_blinding : bytes;
}.
(** The authenticated share of a Scriptless session and its public binding. *)
Record SessionShareBinding := mkSessionShareBinding {
  sb_chain_id : bytes;
  sb_session_id : bytes;
  sb_roster : list bytes;
  sb_participant_index : N;
  sb_participant_id : bytes;
  sb_terms_hash : bytes;
  sb_capsule_hash : bytes;
  sb_share_point : bytes;
  sb_digest : bytes;
}.
Record SessionShare := mkSessionShare {
  ssh_binding : SessionShareBinding;
  ssh_public_key : bytes;
  (** the scalar, which the wallet never sees *)
  ssh_secret : bytes;
}.
#[global] Instance RecoveryOutputClass_eq_dec : EqDecision ROC.RecoveryOutputClass.
Proof. solve_decision. Defined.
#[global] Instance TransactionOutput_eq_dec : EqDecision TransactionOutput.
Proof. solve_decision. Defined.
#[global] Instance Transaction_eq_dec : EqDecision Transaction.
Proof. solve_decision. Defined.

Class OutputCode := {
  MAX_PROVABLE_VALUE : N;
  public_kind : ORD.OutputRecoveryDomain -> N;
  output_to_bytes : TransactionOutput -> option bytes;
  output_from_bytes : bytes -> option TransactionOutput;
  (** [TransactionOutput::with_recovery_capsule] *)
  with_recovery_capsule : bytes -> bytes -> bytes -> option TransactionOutput;
  range_proof_verify : bytes -> bytes -> bytes -> option bool;
  commitment_of : N -> bytes -> bytes;
  (** [build_recoverable_output] under some randomness: output and blinding *)
  build_recoverable_output : bytes -> bytes -> RecoveryChainContext -> N -> N -> N ->
    ORD.OutputRecoveryDomain -> option (TransactionOutput * bytes);
  recover_output_from_capsule : bytes -> RecoveryChainContext -> bytes -> N -> N -> N * bytes ->
    option (option RecoveredOutput);
  build_seed_recoverable_coinbase : bytes -> N -> N -> RecoveryBuildContext -> option CoinbaseTransaction;
  (** [sender_excess_blinding]: inputs, change and offset *)
  sender_excess_blinding : list bytes -> option bytes -> bytes -> option bytes;
  (** [SigningShareV1::from_be_bytes] and its public key *)
  signing_share : bytes -> option bytes;
  share_public_key : bytes -> bytes;
  funding_kernel_excess_point : SessionShare -> bytes -> option bytes;
  spend_kernel_excess_point : SessionShare -> bytes -> option bytes;
  compose_funding_signing_share : SessionShare -> bytes -> option bytes;
  compose_spend_signing_share : SessionShare -> bytes -> option bytes;
  (** [build_send_recoverable] and [respond_receive_recoverable] under some
      randomness *)
  build_send_recoverable : bytes -> list (bytes * bytes) -> N -> N -> N -> bytes ->
    RecoveryBuildContext -> option SenderMaterial;
  respond_receive_recoverable : bytes -> Slate -> bytes -> RecoveryBuildContext ->
    option RecipientMaterial;
  slate_from_bytes : bytes -> option Slate;
  slate_to_bytes : Slate -> option bytes;
  sender_phase_slate : Slate -> Slate;
  slate_finalize : Slate -> bytes -> bytes -> bytes -> option Transaction;
  slate_kernel_features : N -> N;
  schnorr_add_public_keys : list bytes -> option bytes;
  transaction_total_fee : Transaction -> option N;
  transaction_weight : Transaction -> N;
  (** [validate_transaction] at a height on a chain *)
  validate_transaction : Transaction -> N -> bytes -> bool;
}.

(** ** Data *)

Definition CANONICAL_TRANSACTION_OUTPUT_SIZE : N := 33 + 4 + 835.

Record RecoverableOutputResult := mkRecoverableOutputResult {
  ror_output : TransactionOutput;
  ror_canonical_bytes : bytes;
  ror_commitment : bytes;
  ror_range_proof : bytes;
  ror_recovery_capsule : bytes;
  ror_proof_envelope : bytes;
  ror_account : N;
  ror_derivation_index : N;
  ror_class : ROC.RecoveryOutputClass;
  ror_secret : bytes;
}.
Record RecoveredWalletOutput := mkRecoveredWalletOutput {
  rwo_value : N;
  rwo_account : N;
  rwo_derivation_index : N;
  rwo_class : ROC.RecoveryOutputClass;
  rwo_secret : bytes;
}.
Record RecoverableOutputBuilder := mkRecoverableOutputBuilder {
  rob_root : bytes;
  rob_chain : RecoveryChainContext;
}.
Record RecoverableOwnedOutput := mkRecoverableOwnedOutput {
  roo_commitment : bytes;
  roo_value : N;
  roo_blinding : bytes;
}.
Record WalletSlateInput := mkWalletSlateInput { wsi_commitment : bytes; wsi_blinding : bytes }.

Record ScriptlessFundingPublicComponentsV1 := mkScriptlessFundingPublicComponents {
  sfp_inputs : list bytes;
  sfp_other_outputs : list TransactionOutput;
  sfp_offset_contribution : bytes;
  sfp_wallet_excess_public_key : bytes;
}.
Record ScriptlessPayoutPublicComponentsV1 := mkScriptlessPayoutPublicComponents {
  spp_outputs : list TransactionOutput;
  spp_offset_contribution : bytes;
  spp_payout_excess_public_key : bytes;
}.
Record PreparedScriptlessFundingContributionV1 := mkPreparedScriptlessFunding {
  psf_public : ScriptlessFundingPublicComponentsV1;
  psf_change : option RecoverableOwnedOutput;
  psf_wallet_excess : bytes;
}.
Record PreparedScriptlessPayoutContributionV1 := mkPreparedScriptlessPayout {
  psp_public : ScriptlessPayoutPublicComponentsV1;
  psp_owned_output : option RecoverableOwnedOutput;
  psp_payout_excess : bytes;
}.
Record BoundScriptlessSigningContextV1 := mkBoundScriptlessSigningContext {
  bsc_chain_id : bytes;
  bsc_session_id : bytes;
  bsc_session_share_binding_digest : bytes;
  bsc_participant_position : N;
  bsc_template_hash : bytes;
}.
(** The signing capability of a funding and of a claim or refund have the same
    fields; they differ in the operation they offer. *)
Record ScriptlessSigningCapabilityV1 := mkScriptlessSigningCapability {
  ssc_share : bytes;
  ssc_context : BoundScriptlessSigningContextV1;
}.

Inductive SlatePrivateMaterial :=
| SenderPrivate (excess_blinding nonce : bytes) (change : option (bytes * N * bytes))
| RecipientPrivate (output_blinding : bytes).
Record RecoverableSlateMaterial := mkRecoverableSlateMaterial {
  rsm_body : RecoverySlateBody;
  rsm_sidecars : RecoverySlateSidecars;
  rsm_private : SlatePrivateMaterial;
}.
Record RecoverableSenderParts := mkRecoverableSenderParts {
  rsp_body : RecoverySlateBody;
  rsp_sidecars : RecoverySlateSidecars;
  rsp_change : option RecoverableOwnedOutput;
  rsp_excess_blinding : bytes;
  rsp_nonce : bytes;
}.
Record RecoverableRecipientParts := mkRecoverableRecipientParts {
  rrp_body : RecoverySlateBody;
  rrp_sidecars : RecoverySlateSidecars;
  rrp_output : RecoverableOwnedOutput;
}.
Record FinalizedRecoverableTransaction := mkFinalizedRecoverableTransaction {
  frt_canonical_bytes : bytes;
  frt_transaction_hash : bytes;
  frt_kernel_excess : bytes;
  frt_fee : N;
  frt_weight : N;
}.
Record VerifiedRecoverableTransaction := mkVerifiedRecoverableTransaction {
  vrt_transaction_hash : bytes;
  vrt_kernel_excess : bytes;
  vrt_fee : N;
  vrt_lock_height : N;
  vrt_weight : N;
}.

Definition domain_for_class (class : ROC.RecoveryOutputClass) : ORD.OutputRecoveryDomain :=
  match class with
  | ROC.ReceiveRequest | ROC.ReceiveSlate => ORD.Received
  | ROC.Change => ORD.Change
  | ROC.SelfTransfer => ORD.SelfTransfer
  | ROC.Coinbase => ORD.Coinbase
  end.
Definition class_for_domain (domain : ORD.OutputRecoveryDomain) : ROC.RecoveryOutputClass :=
  match domain with
  | ORD.Received => ROC.ReceiveSlate
  | ORD.Change => ROC.Change
  | ORD.SelfTransfer => ROC.SelfTransfer
  | ORD.Coinbase => ROC.Coinbase
  end.
#[global] Instance OutputRecoveryDomain_eq_dec : EqDecision ORD.OutputRecoveryDomain.
Proof. solve_decision. Defined.

(** ** Operations *)

Section outputs.
Context {codec : CoreCodec} {seed_code : SeedCode} {slate_code : SlateCode} {code : OutputCode}.
Abbreviation res := (result RmErr.RecoveryMaterialError).

Definition RECOVERY_PROOF_ENVELOPE_SIZE : N := RANGE_PROOF_SIZE + RECOVERY_CAPSULE_SIZE.

Definition validate_chain_identity (identity : CoreChainIdentity) : res unit :=
  fail_if (negb (identity.(cci_network_magic) =? magic identity.(cci_network))
           || is_zero32 identity.(cci_chain_id)
           || negb (identity.(cci_protocol_version) =? PROTOCOL_VERSION)
           || negb (identity.(cci_range_proof_serialization_version)
                    =? RANGE_PROOF_SERIALIZATION_VERSION))
          RmErr.ChainIdentityMismatch.

(** [RecoverableOutputBuilder::new] *)
Definition builder_new (seed : CanonicalWalletSeed) (identity : CoreChainIdentity)
    : res RecoverableOutputBuilder :=
  validate_chain_identity identity ;?
  let? root := recovery_root seed identity.(cci_network_magic) identity.(cci_chain_id) in
  Ok (mkRecoverableOutputBuilder root
        (mkRecoveryChainContext identity.(cci_network_magic) identity.(cci_chain_id))).

Definition validate_recovery (recovered : RecoveredOutput) (value account derivation_index : N)
    (domain : ORD.OutputRecoveryDomain) (commitment : bytes) : res unit :=
  let recomputed := commitment_of recovered.(rcv_value) recovered.(rcv_blinding) in
  fail_if (negb (recovered.(rcv_value) =? value)
           || negb (recovered.(rcv_account) =? account)
           || negb (recovered.(rcv_derivation_index) =? derivation_index)
           || negb (bool_decide (recovered.(rcv_domain) = domain))
           || negb (bool_decide (recomputed = commitment)))
          RmErr.SelfRecoveryMismatch.

(** No capsule, or a well-formed one. *)
Definition optional_capsule (b : bytes) : res (option bytes) :=
  if is_empty b then Ok None
  else let? c := ok_or (recovery_capsule_from_bytes b) RmErr.InvalidCapsule in Ok (Some c).

Section builder.
Context (self : RecoverableOutputBuilder).

(** The capsule of an output. *)
Definition capsule_of (output : TransactionOutput) : res (N * bytes) :=
  let? capsule := ok_or (recovery_capsule output) RmErr.InvalidCapsule in
  ok_or capsule RmErr.RecoveryRequired.
Definition recover_from (output : TransactionOutput) (domain : ORD.OutputRecoveryDomain)
    (capsule : N * bytes) : option (option RecoveredOutput) :=
  recover_output_from_capsule self.(rob_root) self.(rob_chain) output.(to_commitment)
    RANGE_PROOF_SERIALIZATION_VERSION (public_kind domain) capsule.

(** [build]; [random] is what the construction draws. *)
Definition build (random : bytes) (value : N) (coordinate : ReservedRecoveryCoordinate)
    : res RecoverableOutputResult :=
  fail_if (MAX_PROVABLE_VALUE <? value) RmErr.ValueOutOfRange ;?
  let domain := domain_for_class coordinate.(rrc_class) in
  let? material := ok_or (build_recoverable_output random self.(rob_root) self.(rob_chain) value
                            coordinate.(rrc_account) coordinate.(rrc_derivation_index) domain)
                         RmErr.OutputConstruction in
  let '(output, blinding) := material in
  let? canonical_bytes := ok_or (output_to_bytes output) RmErr.CanonicalEncoding in
  fail_if (negb (len canonical_bytes =? CANONICAL_TRANSACTION_OUTPUT_SIZE)) RmErr.CanonicalSize ;?
  let? decoded := ok_or (output_from_bytes canonical_bytes) RmErr.CanonicalEncoding in
  fail_if (negb (bool_decide (decoded = output))) RmErr.CanonicalEncoding ;?
  let? range_proof := ok_or (range_proof_bytes output) RmErr.CanonicalSize in
  fail_if (negb (len range_proof =? RANGE_PROOF_SIZE)) RmErr.CanonicalSize ;?
  let? capsule := capsule_of output in
  fail_if (negb (len output.(to_proof) =? RECOVERY_PROOF_ENVELOPE_SIZE)) RmErr.CanonicalSize ;?
  let? verified := ok_or (range_proof_verify output.(to_commitment) range_proof capsule.2)
                         RmErr.ProofVerification in
  fail_if (negb verified) RmErr.ProofVerification ;?
  let? recovered := ok_or (recover_from output domain capsule) RmErr.CapsuleAuthentication in
  let? recovered := ok_or recovered RmErr.CapsuleAuthentication in
  validate_recovery recovered value coordinate.(rrc_account) coordinate.(rrc_derivation_index) domain
    output.(to_commitment) ;?
  fail_if (negb (bool_decide (recovered.(rcv_blinding) = blinding))) RmErr.SelfRecoveryMismatch ;?
  Ok (mkRecoverableOutputResult output canonical_bytes output.(to_commitment) range_proof capsule.2
        output.(to_proof) coordinate.(rrc_account) coordinate.(rrc_derivation_index)
        coordinate.(rrc_class) blinding).

Definition build_context (coordinate : ReservedRecoveryCoordinate) : RecoveryBuildContext :=
  mkRecoveryBuildContext self.(rob_root) self.(rob_chain) coordinate.(rrc_account)
    coordinate.(rrc_derivation_index).

Definition build_coinbase (random : bytes) (height total_fees : N)
    (coordinate : ReservedRecoveryCoordinate) : res CoinbaseTransaction :=
  fail_if (negb (bool_decide (coordinate.(rrc_class) = ROC.Coinbase))) RmErr.CoordinateDomainMismatch ;?
  ok_or (build_seed_recoverable_coinbase random height total_fees (build_context coordinate))
        RmErr.OutputConstruction.

Definition recovered_wallet_output (recovered : RecoveredOutput)
    (requested_class : ROC.RecoveryOutputClass) : RecoveredWalletOutput :=
  mkRecoveredWalletOutput recovered.(rcv_value) recovered.(rcv_account)
    recovered.(rcv_derivation_index)
    (if bool_decide (recovered.(rcv_domain) = ORD.Received) then requested_class
     else class_for_domain recovered.(rcv_domain))
    recovered.(rcv_blinding).
Definition try_recover (output : TransactionOutput) (class : ROC.RecoveryOutputClass)
    : res (option RecoveredWalletOutput) :=
  let domain := domain_for_class class in
  let? capsule := capsule_of output in
  let? recovered := ok_or (recover_from output domain capsule) RmErr.CapsuleAuthentication in
  match recovered with
  | Some value => if bool_decide (value.(rcv_domain) = domain)
                  then Ok (Some (recovered_wallet_output value class))
                  else Err RmErr.CoordinateDomainMismatch
  | None => Ok None
  end.

(** *** Scriptless contributions *)

(** The output of a contribution: none for a zero value, else one of the class. *)
Definition contribution_output (random : bytes) (class : ROC.RecoveryOutputClass) (value : N)
    (coordinate : option ReservedRecoveryCoordinate)
    : res (option (TransactionOutput * RecoverableOwnedOutput)) :=
  match coordinate with
  | None => if value =? 0 then Ok None else Err RmErr.CoordinateDomainMismatch
  | Some coordinate =>
      fail_if ((value =? 0) || negb (bool_decide (coordinate.(rrc_class) = class)))
              RmErr.CoordinateDomainMismatch ;?
      let? r := build random value coordinate in
      Ok (Some (r.(ror_output), mkRecoverableOwnedOutput r.(ror_commitment) value r.(ror_secret)))
  end.
(** The excess [change - inputs - offset] and its public key. *)
Definition contribution_excess (error : RmErr.RecoveryMaterialError) (inputs : list bytes)
    (owned : option (TransactionOutput * RecoverableOwnedOutput)) (offset : bytes)
    : res (bytes * bytes) :=
  let? excess := ok_or (sender_excess_blinding inputs ((fun o => roo_blinding o.2) <$> owned) offset)
                       error in
  let? share := ok_or (signing_share excess) error in
  Ok (excess, share_public_key share).

(** [offset] is [BlindingFactor::random()]. *)
Definition build_scriptless_funding_contribution (random offset : bytes)
    (inputs : list WalletSlateInput) (change_value : N)
    (coordinate : option ReservedRecoveryCoordinate) : res PreparedScriptlessFundingContributionV1 :=
  fail_if (is_empty inputs && (negb (change_value =? 0) || is_some coordinate))
          RmErr.ScriptlessFundingConstruction ;?
  let? change := contribution_output random ROC.Change change_value coordinate in
  let? keys := contribution_excess RmErr.ScriptlessFundingConstruction (map wsi_blinding inputs)
                 change offset in
  let? canonical_inputs := foldM (fun done input =>
      let? c := ok_or (commitment_from_compressed_bytes input.(wsi_commitment))
                      RmErr.ScriptlessFundingConstruction in
      Ok (done ++ [c])) inputs [] in
  Ok (mkPreparedScriptlessFunding
        (mkScriptlessFundingPublicComponents canonical_inputs
           (match change with Some c => [c.1] | None => [] end) offset keys.2)
        (snd <$> change) keys.1).
Definition build_scriptless_shared_output_spend_contribution (random offset : bytes)
    (payout_value : N) (coordinate : option ReservedRecoveryCoordinate)
    : res PreparedScriptlessPayoutContributionV1 :=
  let? payout := contribution_output random ROC.SelfTransfer payout_value coordinate in
  let? keys := contribution_excess RmErr.ScriptlessPayoutConstruction [] payout offset in
  Ok (mkPreparedScriptlessPayout
        (mkScriptlessPayoutPublicComponents (match payout with Some c => [c.1] | None => [] end)
           offset keys.2)
        (snd <$> payout) keys.1).

(** *** Slates *)

Definition material_from_slate (slate : Slate) (private : SlatePrivateMaterial)
    : res RecoverableSlateMaterial :=
  let? sender_change := optional_capsule slate.(sl_sender_change_recovery_capsule) in
  let? recipient := optional_capsule slate.(sl_recipient_recovery_capsule) in
  let? canonical := ok_or (slate_to_bytes slate) RmErr.SlateConstruction in
  let? body := map_err (body_from_canonical_bytes canonical) RmErr.SlateConstruction in
  Ok (mkRecoverableSlateMaterial body (mkRecoverySlateSidecars sender_change recipient) private).

Definition build_sender_offer_with_lock_height (random : bytes) (inputs : list WalletSlateInput)
    (change_value amount fee lock_height : N) (coordinate : ReservedRecoveryCoordinate)
    : res RecoverableSlateMaterial :=
  fail_if (negb (bool_decide (coordinate.(rrc_class) = ROC.Change))) RmErr.CoordinateDomainMismatch ;?
  let? sender := ok_or (build_send_recoverable random
                          (map (fun i => (i.(wsi_commitment), i.(wsi_blinding))) inputs) change_value
                          amount fee self.(rob_chain).(rcc_chain_id) (build_context coordinate))
                       RmErr.SlateConstruction in
  material_from_slate (sender.(sm_slate) <| sl_lock_height := lock_height |>)
    (SenderPrivate sender.(sm_excess_blinding) sender.(sm_nonce) sender.(sm_change)).
Definition build_sender_offer (random : bytes) (inputs : list WalletSlateInput)
    (change_value amount fee : N) : ReservedRecoveryCoordinate -> res RecoverableSlateMaterial :=
  build_sender_offer_with_lock_height random inputs change_value amount fee 0.

Definition build_recipient_response (random : bytes) (offer : RecoverySlateBody)
    (coordinate : ReservedRecoveryCoordinate) : res RecoverableSlateMaterial :=
  fail_if (match coordinate.(rrc_class) with
           | ROC.ReceiveRequest | ROC.ReceiveSlate => false
           | _ => true
           end) RmErr.CoordinateDomainMismatch ;?
  let? slate := ok_or (slate_from_bytes offer.(rsb_canonical_bytes)) RmErr.SlateConstruction in
  let? response := ok_or (respond_receive_recoverable random slate self.(rob_chain).(rcc_chain_id)
                            (build_context coordinate)) RmErr.SlateConstruction in
  material_from_slate response.(rpm_slate) (RecipientPrivate response.(rpm_recipient_output_blinding)).
End builder.

Definition nonzero_bytes (b : bytes) : bool := existsb (fun c => negb (bool_decide (c = Byte.x00))) b.
Definition retains_private_material (self : RecoverableSlateMaterial) : bool :=
  match self.(rsm_private) with
  | SenderPrivate excess nonce change =>
      nonzero_bytes excess && nonzero_bytes nonce && is_none_or change (fun c => nonzero_bytes c.2)
  | RecipientPrivate output_blinding => nonzero_bytes output_blinding
  end.

Definition into_sender_parts (self : RecoverableSlateMaterial) : res RecoverableSenderParts :=
  match self.(rsm_private) with
  | SenderPrivate excess nonce change =>
      Ok (mkRecoverableSenderParts self.(rsm_body) self.(rsm_sidecars)
            ((fun c => mkRecoverableOwnedOutput c.1.1 c.1.2 c.2) <$> change) excess nonce)
  | RecipientPrivate _ => Err RmErr.CoordinateDomainMismatch
  end.

Definition recipient_public (body : RecoverySlateBody) : res (bytes * N) :=
  let? slate := ok_or (slate_from_bytes body.(rsb_canonical_bytes)) RmErr.SlateConstruction in
  let? output := ok_or slate.(sl_recipient_output) RmErr.SlateConstruction in
  Ok (output.(so_commitment), slate.(sl_amount)).
Definition into_recipient_parts (self : RecoverableSlateMaterial) : res RecoverableRecipientParts :=
  let? public := recipient_public self.(rsm_body) in
  match self.(rsm_private) with
  | RecipientPrivate output_blinding =>
      Ok (mkRecoverableRecipientParts self.(rsm_body) self.(rsm_sidecars)
            (mkRecoverableOwnedOutput public.1 public.2 output_blinding))
  | SenderPrivate _ _ _ => Err RmErr.CoordinateDomainMismatch
  end.

(** [RecoverableSenderParts::from_encrypted_context] *)
Definition from_encrypted_context (body : RecoverySlateBody) (excess_blinding nonce : bytes)
    : res RecoverableSenderParts :=
  let? slate := ok_or (slate_from_bytes body.(rsb_canonical_bytes)) RmErr.SlateConstruction in
  fail_if (negb (slate.(sl_version) =? RECOVERY_SLATE_VERSION) || is_zero32 excess_blinding
           || is_zero32 nonce) RmErr.SlateConstruction ;?
  let? sender_change := optional_capsule slate.(sl_sender_change_recovery_capsule) in
  let? recipient := optional_capsule slate.(sl_recipient_recovery_capsule) in
  Ok (mkRecoverableSenderParts body (mkRecoverySlateSidecars sender_change recipient) None
        excess_blinding nonce).

(** *** Transactions *)

Definition finalize_recoverable_transaction (response offer : RecoverySlateBody)
    (sender : RecoverableSenderParts) (chain_id : bytes) : res FinalizedRecoverableTransaction :=
  let? response_slate := ok_or (slate_from_bytes response.(rsb_canonical_bytes)) RmErr.SlateConstruction in
  let? offer_slate := ok_or (slate_from_bytes offer.(rsb_canonical_bytes)) RmErr.SlateConstruction in
  let? stripped := ok_or (slate_to_bytes (sender_phase_slate response_slate)) RmErr.SlateConstruction in
  let? expected := ok_or (slate_to_bytes offer_slate) RmErr.SlateConstruction in
  fail_if (negb (bool_decide (stripped = expected))
           || negb (bool_decide (sender.(rsp_body).(rsb_canonical_bytes) = offer.(rsb_canonical_bytes))))
          RmErr.SlateBindingMismatch ;?
  let? transaction := ok_or (slate_finalize response_slate sender.(rsp_excess_blinding)
                               sender.(rsp_nonce) chain_id) RmErr.SlateConstruction in
  let? canonical_bytes := ok_or (transaction_to_bytes transaction) RmErr.CanonicalEncoding in
  let? kernel := ok_or (head transaction.(txn_kernels)) RmErr.SlateConstruction in
  let? fee := ok_or (transaction_total_fee transaction) RmErr.SlateConstruction in
  Ok (mkFinalizedRecoverableTransaction canonical_bytes (blake2b_256 canonical_bytes)
        kernel.(sk_excess) fee (transaction_weight transaction)).

(** The outputs that the transaction of a response must have. *)
Definition response_transaction_outputs (slate : Slate) : res (list TransactionOutput) :=
  let? recipient := ok_or slate.(sl_recipient_output) RmErr.TransactionVerification in
  let output o capsule_bytes :=
    let? capsule := ok_or (recovery_capsule_from_bytes capsule_bytes) RmErr.InvalidCapsule in
    ok_or (with_recovery_capsule o.(so_commitment) o.(so_proof) capsule) RmErr.TransactionVerification in
  let? change := match slate.(sl_sender_change_output) with
                 | Some change =>
                     let? o := output change slate.(sl_sender_change_recovery_capsule) in Ok [o]
                 | None => Ok []
                 end in
  let? own := output recipient slate.(sl_recipient_recovery_capsule) in
  Ok (change ++ [own]).

Definition verify_recoverable_transaction_against_response (canonical_bytes : bytes)
    (response : RecoverySlateBody) (identity : CoreChainIdentity)
    : res VerifiedRecoverableTransaction :=
  validate_chain_identity identity ;?
  let? transaction := ok_or (transaction_from_bytes canonical_bytes) RmErr.TransactionVerification in
  let? again := ok_or (transaction_to_bytes transaction) RmErr.TransactionVerification in
  fail_if (negb (bool_decide (again = canonical_bytes))) RmErr.TransactionVerification ;?
  let? slate := ok_or (slate_from_bytes response.(rsb_canonical_bytes)) RmErr.TransactionVerification in
  fail_if (negb (bool_decide (slate.(sl_chain_id) = identity.(cci_chain_id)))
           || negb (bool_decide (transaction.(txn_inputs) = slate.(sl_sender_inputs)))
           || negb (bool_decide (transaction.(txn_offset) = slate.(sl_sender_offset_contribution))))
          RmErr.SlateBindingMismatch ;?
  let? expected_outputs := response_transaction_outputs slate in
  fail_if (negb (bool_decide (transaction.(txn_outputs) = expected_outputs))
           || negb (len transaction.(txn_kernels) =? 1)) RmErr.SlateBindingMismatch ;?
  let? recipient_excess := ok_or slate.(sl_recipient_public_excess) RmErr.TransactionVerification in
  let? aggregate_excess :=
    ok_or (schnorr_add_public_keys [slate.(sl_sender_public_excess); recipient_excess])
          RmErr.TransactionVerification in
  let? expected_excess := ok_or (commitment_from_compressed_bytes aggregate_excess)
                                RmErr.TransactionVerification in
  let? kernel := ok_or (head transaction.(txn_kernels)) RmErr.SlateBindingMismatch in
  fail_if (negb (kernel.(sk_features) =? slate_kernel_features slate.(sl_lock_height))
           || negb (kernel.(sk_fee) =? slate.(sl_fee))
           || negb (kernel.(sk_lock_height) =? slate.(sl_lock_height))
           || negb (bool_decide (kernel.(sk_excess) = expected_excess)))
          RmErr.SlateBindingMismatch ;?
  fail_if (negb (validate_transaction transaction identity.(cci_current_tip).(br_height)
                   identity.(cci_chain_id))) RmErr.TransactionVerification ;?
  Ok (mkVerifiedRecoverableTransaction (blake2b_256 canonical_bytes) kernel.(sk_excess)
        kernel.(sk_fee) kernel.(sk_lock_height) (transaction_weight transaction)).

(** *** Scriptless signing capabilities *)

(** [BoundScriptlessSigningContextV1::matches] *)
Definition context_matches (self : BoundScriptlessSigningContextV1) (session_share : SessionShare) : bool :=
  let binding := session_share.(ssh_binding) in
  bool_decide (self.(bsc_chain_id) = binding.(sb_chain_id))
  && bool_decide (self.(bsc_session_id) = binding.(sb_session_id))
  && bool_decide (self.(bsc_session_share_binding_digest) = binding.(sb_digest))
  && (self.(bsc_participant_position) =? binding.(sb_participant_index))
  && (len binding.(sb_roster) =? 2)
  && negb (is_zero32 binding.(sb_terms_hash)) && negb (is_zero32 binding.(sb_capsule_hash))
  && bool_decide (binding.(sb_roster) !! N.to_nat self.(bsc_participant_position)
                  = Some binding.(sb_participant_id))
  && bool_decide (session_share.(ssh_public_key) = binding.(sb_share_point))
  && negb (is_zero32 self.(bsc_template_hash)).

(** The capability from the encrypted context of a bound template. *)
Definition signing_capability (error : RmErr.RecoveryMaterialError) (contribution : bytes)
    (context : BoundScriptlessSigningContextV1) : res ScriptlessSigningCapabilityV1 :=
  let? share := ok_or (signing_share contribution) error in
  fail_if (is_zero32 context.(bsc_chain_id) || is_zero32 context.(bsc_session_id)
           || is_zero32 context.(bsc_session_share_binding_digest)
           || (2 <=? context.(bsc_participant_position)) || is_zero32 context.(bsc_template_hash))
          RmErr.ScriptlessSigningBinding ;?
  Ok (mkScriptlessSigningCapability share context).
Definition funding_signing_capability :=
  signing_capability RmErr.ScriptlessFundingConstruction.
Definition payout_signing_capability :=
  signing_capability RmErr.ScriptlessPayoutConstruction.

Definition compose_local_funding_share_v1 (self : ScriptlessSigningCapabilityV1)
    (session_share : SessionShare) : res bytes :=
  fail_if (negb (context_matches self.(ssc_context) session_share)) RmErr.ScriptlessSigningBinding ;?
  ok_or (compose_funding_signing_share session_share self.(ssc_share)) RmErr.ScriptlessFundingConstruction.
Definition compose_local_shared_output_spend_share_v1 (self : ScriptlessSigningCapabilityV1)
    (session_share : SessionShare) : res bytes :=
  fail_if (negb (context_matches self.(ssc_context) session_share)) RmErr.ScriptlessSigningBinding ;?
  ok_or (compose_spend_signing_share session_share self.(ssc_share)) RmErr.ScriptlessPayoutConstruction.

(** [public_key_bytes] of the opaque excesses of a funding and of a payout *)
Definition opaque_public_key (error : RmErr.RecoveryMaterialError) (contribution : bytes) : res bytes :=
  let? share := ok_or (signing_share contribution) error in Ok (share_public_key share).
End outputs.

(** ** Theorems *)

(** The diagnosis agrees with the parser, but for the derivation of the root of
    the old coinbases, which only the parser tries. *)
Lemma diagnosis_agrees {code : SeedCode} phrase :
  (forall m, mnemonic_parse phrase = Ok m -> m.(mn_word_count) = count_words false phrase) ->
  diagnose_phrase phrase = Ok tt
  <-> (exists seed, parse phrase = Ok seed) \/ parse phrase = Err RmErr.LegacyCoinbaseDerivation.
Proof.
  unfold diagnose_phrase, parse, from_mnemonic, canonical_mnemonic. intros Hw.
  destruct (mnemonic_parse phrase) as [m|e].
  - rewrite (Hw m eq_refl). destruct (count_words false phrase =? _); simpl.
    + destruct (len _ =? 32); simpl; [|split; [done|by intros [[? ?]|?]]].
      destruct (extended_from_seed _); simpl; split; eauto.
    + split; [done|by intros [[? ?]|?]].
  - split; [|by intros [[? ?]|?]]. destruct (count_words false phrase =? _); simpl; [|done]. by destruct e.
Qed.

Section output_theorems.
Context {codec : CoreCodec} {slate_code : SlateCode} {code : OutputCode}.

(** C40 A built output can be spent and recovered.  Whatever the construction
    returns, an output is only handed out when its value is provable, its bytes are
    of the canonical size and decode to it, its range proof verifies over its
    capsule, its commitment is that of its value and secret, and the wallet's own
    recovery finds it with the same value, coordinate, class and secret. *)
Theorem built_outputs_recover self random value coordinate r
    (Hbuild : build self random value coordinate = Ok r) :
  value <= MAX_PROVABLE_VALUE
  /\ output_to_bytes r.(ror_output) = Some r.(ror_canonical_bytes)
  /\ output_from_bytes r.(ror_canonical_bytes) = Some r.(ror_output)
  /\ len r.(ror_canonical_bytes) = CANONICAL_TRANSACTION_OUTPUT_SIZE
  /\ range_proof_verify r.(ror_commitment) r.(ror_range_proof) r.(ror_recovery_capsule) = Some true
  /\ commitment_of value r.(ror_secret) = r.(ror_commitment)
  /\ try_recover self r.(ror_output) coordinate.(rrc_class)
     = Ok (Some (mkRecoveredWalletOutput value coordinate.(rrc_account)
                   coordinate.(rrc_derivation_index) coordinate.(rrc_class) r.(ror_secret))).
Proof.
  unfold build in Hbuild. apply then_Ok in Hbuild as [Hv Hbuild].
  apply rbind_Ok in Hbuild as ([output blinding] & _ & Hbuild).
  apply rbind_Ok in Hbuild as (canonical & Hcan & Hbuild). apply then_Ok in Hbuild as [Hlen Hbuild].
  apply rbind_Ok in Hbuild as (decoded & Hdec & Hbuild). apply then_Ok in Hbuild as [Heq Hbuild].
  apply rbind_Ok in Hbuild as (proof & Hproof & Hbuild). apply then_Ok in Hbuild as [_ Hbuild].
  apply rbind_Ok in Hbuild as (capsule & Hcap & Hbuild). apply then_Ok in Hbuild as [_ Hbuild].
  apply rbind_Ok in Hbuild as (verified & Hver & Hbuild). apply then_Ok in Hbuild as [Hverb Hbuild].
  apply rbind_Ok in Hbuild as (rec & Hrec & Hbuild).
  apply rbind_Ok in Hbuild as (recovered & Hrec' & Hbuild). apply then_Ok in Hbuild as [Hval Hbuild].
  unfold validate_recovery in Hval. res_inv. bool_inv. subst. simpl.
  split; [lia|]. split; [done|]. split; [done|]. split; [done|]. split; [done|]. split; [done|].
  unfold try_recover. rewrite Hcap. simpl. rewrite Hrec. simpl.
  match goal with H : rcv_domain _ = _ |- _ => rewrite H end.
  rewrite bool_decide_eq_true_2 by done. unfold recovered_wallet_output.
  match goal with H : rcv_domain _ = _ |- _ => rewrite H end.
  rewrite H2, H3. by destruct (rrc_class coordinate).
Qed.
End output_theorems.

(** ** Witness *)

#[export] Instance sample_seeds : SeedCode := {|
  mnemonic_from_entropy e := Some (mkMnemonic 24 e);
  mnemonic_parse phrase := Ok (mkMnemonic (count_words false phrase) (zeros 32));
  mnemonic_to_seed := mn_entropy;
  extended_from_seed := Some;
  coinbase_blinding root _ := Some root;
  derive_recovery_root seed _ _ := Some seed;
|}.

(** The codec of Projection, but outputs have capsules, and transactions are those
    of a list. *)
Definition trade_codec (transactions : list Transaction) : CoreCodec := {|
  PROTOCOL_VERSION := 2;
  RANGE_PROOF_SERIALIZATION_VERSION := 1;
  RANGE_PROOF_SIZE := 3;
  RECOVERY_VERSION := 1;
  RECOVERY_CAPSULE_SIZE := 4;
  WALLET_SCAN_CURSOR_VERSION := 1;
  magic := sample_codec.(magic);
  required_block_version_for_network := sample_codec.(required_block_version_for_network);
  header_from_bytes := sample_codec.(header_from_bytes);
  header_to_bytes := sample_codec.(header_to_bytes);
  validate_header_syntax := sample_codec.(validate_header_syntax);
  canonical_header_identifier := sample_codec.(canonical_header_identifier);
  commitment_from_compressed_bytes := Some;
  coinbase_to_bytes := sample_codec.(coinbase_to_bytes);
  coinbase_from_bytes := sample_codec.(coinbase_from_bytes);
  blake2b_256 := sample_codec.(blake2b_256);
  transaction_from_bytes := known_at transactions;
  transaction_to_bytes := known transactions;
  range_proof_bytes o := Some (take 3 o.(to_proof));
  recovery_capsule o := Some (Some (1, drop 3 o.(to_proof)));
  total_fees := sample_codec.(total_fees);
  validate_pmmr_roots := sample_codec.(validate_pmmr_roots);
  cursor_new := sample_codec.(cursor_new);
  cursor_to_bytes := sample_codec.(cursor_to_bytes);
  cursor_from_bytes := sample_codec.(cursor_from_bytes);
  cursor_validate_shape := sample_codec.(cursor_validate_shape);
|}.

Definition sample_kind (d : ORD.OutputRecoveryDomain) : N :=
  match d with ORD.Received => 0 | ORD.Change => 1 | ORD.SelfTransfer => 2 | ORD.Coinbase => 3 end.
Definition sample_domain (n : N) : ORD.OutputRecoveryDomain :=
  match n with 0 => ORD.Received | 1 => ORD.Change | 2 => ORD.SelfTransfer | _ => ORD.Coinbase end.
Definition sample_commitment (value : N) (blinding : bytes) : bytes := byte_of value :: blinding.
Definition nth_byte (l : bytes) (n : nat) : N := Byte.to_N (nth n l Byte.x00).

(** The transaction of a response. *)
Definition sample_finalize (s : Slate) : option Transaction :=
  let output o capsule := mkTransactionOutput o.(so_commitment) (o.(so_proof) ++ capsule) in
  recipient ← s.(sl_recipient_output);
  Some (mkTransaction s.(sl_sender_inputs)
    ((match s.(sl_sender_change_output) with
      | Some change => [output change s.(sl_sender_change_recovery_capsule)]
      | None => []
      end) ++ [output recipient s.(sl_recipient_recovery_capsule)])
    [mkScanKernel s.(sl_sender_public_excess) (if s.(sl_lock_height) =? 0 then 0 else 2) s.(sl_fee)
       s.(sl_lock_height) (zeros 65)]
    s.(sl_sender_offset_contribution)).

(** A capsule holds the value, the account, the index and the domain; a
    commitment the value and the secret; an offer and a response are those of
    Slates. *)
#[export] Instance sample_outputs : OutputCode := {|
  MAX_PROVABLE_VALUE := 2 ^ 52;
  public_kind := sample_kind;
  output_to_bytes o := Some (o.(to_commitment) ++ o.(to_proof) ++ zeros 832);
  output_from_bytes b := Some (mkTransactionOutput (take 33 b) (take 7 (drop 33 b)));
  with_recovery_capsule c proof capsule := Some (mkTransactionOutput c (proof ++ capsule));
  range_proof_verify _ _ _ := Some true;
  commitment_of := sample_commitment;
  build_recoverable_output random root chain value account index domain :=
    Some (mkTransactionOutput (sample_commitment value (take 32 random))
            (sample_bytes 3 Byte.x62 ++ [byte_of value; byte_of account; byte_of index;
                                         byte_of (sample_kind domain)]), take 32 random);
  recover_output_from_capsule root chain c version kind capsule :=
    Some (Some (mkRecoveredOutput (nth_byte capsule.2 0) (nth_byte capsule.2 1) (nth_byte capsule.2 2)
                  (sample_domain (nth_byte capsule.2 3)) (drop 1 c)));
  build_seed_recoverable_coinbase _ _ _ _ := None;
  sender_excess_blinding inputs change offset := Some offset;
  signing_share := Some;
  share_public_key s := Byte.x02 :: s;
  funding_kernel_excess_point _ key := Some key;
  spend_kernel_excess_point _ key := Some key;
  compose_funding_signing_share share s := Some s;
  compose_spend_signing_share share s := Some s;
  build_send_recoverable random inputs change amount fee chain_id context :=
    Some (mkSenderMaterial (sample_offer <| sl_sender_inputs := map fst inputs |>
                              <| sl_amount := amount |> <| sl_fee := fee |>)
            (sample_bytes 32 Byte.x21) (sample_bytes 32 Byte.x22)
            (Some (sample_bytes 33 Byte.x06, change, sample_bytes 32 Byte.x23)));
  respond_receive_recoverable random slate chain_id context :=
    Some (mkRecipientMaterial sample_response (sample_bytes 32 Byte.x24));
  slate_from_bytes := slate_from_canonical_bytes;
  slate_to_bytes := slate_to_canonical_bytes;
  sender_phase_slate s := s <| sl_recipient_output := None |> <| sl_recipient_public_excess := None |>
                            <| sl_recipient_recovery_capsule := [] |>;
  slate_finalize s _ _ _ := sample_finalize s;
  slate_kernel_features lock_height := if lock_height =? 0 then 0 else 2;
  schnorr_add_public_keys := head;
  transaction_total_fee t := sk_fee <$> head t.(txn_kernels);
  transaction_weight _ := 1;
  validate_transaction _ _ _ := true;
|}.

Definition sample_builder : RecoverableOutputBuilder :=
  mkRecoverableOutputBuilder (zeros 32) (mkRecoveryChainContext 3 (sample_bytes 32 Byte.x01)).
Lemma built_outputs_recover_witness :
  exists r, build (codec := trade_codec []) sample_builder (sample_bytes 32 Byte.x33) 50
              (mkReservedRecoveryCoordinate 0 7 ROC.Change) = Ok r
  /\ try_recover (codec := trade_codec []) sample_builder r.(ror_output) ROC.Change
     = Ok (Some (mkRecoveredWalletOutput 50 0 7 ROC.Change (sample_bytes 32 Byte.x33))).
Proof.
  destruct (build (codec := trade_codec []) sample_builder (sample_bytes 32 Byte.x33) 50
              (mkReservedRecoveryCoordinate 0 7 ROC.Change)) as [r|e] eqn:E.
  - exists r. split; [done|].
    destruct (built_outputs_recover (codec := trade_codec []) _ _ _ _ _ E) as (_ & _ & _ & _ & _ & _ & H).
    assert (Hs : r.(ror_secret) = sample_bytes 32 Byte.x33) by (vm_compute in E; by injection E as <-).
    by rewrite Hs in H.
  - exfalso. apply (f_equal is_ok) in E. vm_compute in E. discriminate.
Defined.
