(* ===== verification/Backend.v ===== *)
(** * The production backend

    crates/dom-wallet-production-backend: the owner of the chain source, which
    passes the wallet's requests to the scan adapter, the submission service and
    the fee service.  The embedded node is reduced to what the backend asks of it,
    its lifecycle state and whether its interface exists
    (crates/dom-wallet-embedded-core); starting and stopping the process is not
    modelled. *)

From S2P Require Import Prelude DomainTypes CoreTypes CoreSync Recovery Submission Fees.

(** ** The embedded node *)

Module LC.
Inductive EmbeddedCoreLifecycleState :=
| Uninitialized | Starting | Running | Stopping | Stopped | Failed.
#[global] Instance EmbeddedCoreLifecycleState_eq_dec : EqDecision EmbeddedCoreLifecycleState.
Proof. solve_decision. Defined.
End LC.

(** The raw values of the atomic state. *)
Definition STATE_STARTING : N := 1.
Definition STATE_RUNNING : N := 2.
Definition STATE_STOPPING : N := 3.
Definition STATE_STOPPED : N := 4.
Definition STATE_FAILED : N := 5.

Definition from_raw (raw : N) : LC.EmbeddedCoreLifecycleState :=
  if raw =? STATE_STARTING then LC.Starting
  else if raw =? STATE_RUNNING then LC.Running
  else if raw =? STATE_STOPPING then LC.Stopping
  else if raw =? STATE_STOPPED then LC.Stopped
  else if raw =? STATE_FAILED then LC.Failed
  else LC.Uninitialized.

Module LErr.
Inductive EmbeddedCoreAdapterError :=
| InvalidConfiguration (code : string)
| InitializationFailed (code : string)
| StartupFailed (code : string)
| NotRunning
| ShutdownFailed (code : string)
| Internal (code : string).
End LErr.

Record EmbeddedCoreLifecycle := mkEmbeddedCoreLifecycle {
  lc_lifecycle : N;
  (** whether the handle exists *)
  lc_wallet_api : bool;
}.

Definition lifecycle_state (self : EmbeddedCoreLifecycle) : LC.EmbeddedCoreLifecycleState :=
  from_raw self.(lc_lifecycle).

Definition wallet_api (self : EmbeddedCoreLifecycle) : result LErr.EmbeddedCoreAdapterError unit :=
  fail_if (negb (bool_decide (lifecycle_state self = LC.Running))) LErr.NotRunning ;?
  fail_if (negb self.(lc_wallet_api)) (LErr.Internal "MISSING_WALLET_API").

(** ** The backend *)

Definition PRODUCTION_BACKEND_KIND : string := "EMBEDDED_WALLET_CORE_API_ONLY".
Definition REMOTE_BACKEND_KIND : string := "REMOTE_WALLET_CORE_API_SCAN_ONLY".
Definition DEFAULT_SCAN_BATCH_BLOCKS : N := 256.
Definition DEFAULT_REORG_DEPTH : N := 1024.

Module PBErr.
Inductive ProductionBackendError :=
| Lifecycle (e : LErr.EmbeddedCoreAdapterError)
| Scan (e : SErr.CoreScanError)
| Submission (e : SubErr.WalletSubmissionError)
| Fee (e : PErr.ProtocolAdapterError)
| Recovery
| Restore (e : RErr.SeedRestoreError)
| EmbeddedNodeRequired.
End PBErr.

Definition is_transient_sync_unavailability (self : PBErr.ProductionBackendError) : bool :=
  match self with PBErr.Scan SErr.CoreNotReady => true | _ => false end.

Record ProductionWalletBackend (W : Type) := mkProductionWalletBackend {
  pb_lifecycle : option EmbeddedCoreLifecycle;
  pb_chain : CoreChainAdapter;
  pb_submission : option CoreChainIdentity;
  pb_fees : option CoreChainIdentity;
  pb_identity : CoreChainIdentity;
  (** the world of the node behind [api] *)
  pb_api : W;
}.
Arguments mkProductionWalletBackend {W}.
Arguments pb_lifecycle {W}.
Arguments pb_chain {W}.
Arguments pb_submission {W}.
Arguments pb_fees {W}.
Arguments pb_identity {W}.
Arguments pb_api {W}.
#[global] Instance ProductionWalletBackend_fields {W} : FieldList (ProductionWalletBackend W) := fun r =>
  mkProductionWalletBackend r.(pb_lifecycle) r.(pb_chain) r.(pb_submission) r.(pb_fees)
    r.(pb_identity) r.(pb_api).

Section backend.
Context {W : Type} {codec : CoreCodec} {scan : WalletCoreApi W} {api : WalletSubmissionApi W}.
Context {fee_api : WalletFeeApi W}.
Abbreviation backend := (ProductionWalletBackend W).

(** A call of an adapter, with its error wrapped. *)
Definition through {E A} (wrap : E -> PBErr.ProductionBackendError) (m : method W E A)
    : method backend PBErr.ProductionBackendError A := fun self =>
  let '(w, r) := m self.(pb_api) in
  (self <| pb_api := w |>, match r with Ok a => Ok a | Err e => Err (wrap e) end).

(** The services [start_remote] connects. *)
Definition start_remote (w : W) (expected_identity : option CoreChainIdentity)
    : W * result PBErr.ProductionBackendError backend :=
  match connect expected_identity DEFAULT_SCAN_BATCH_BLOCKS DEFAULT_REORG_DEPTH w with
  | (w, Err e) => (w, Err (PBErr.Scan e))
  | (w, Ok chain) =>
      let identity := chain.(ad_identity) in
      match fee_connect identity w with
      | (w, Err e) => (w, Err (PBErr.Fee e))
      | (w, Ok fees) =>
          (w, Ok (mkProductionWalletBackend None chain None (Some fees) identity w))
      end
  end.

(** [start] after the node was started: [wallet_api] gave the interface. *)
Definition start_embedded (lifecycle : EmbeddedCoreLifecycle) (w : W)
    (expected_identity : option CoreChainIdentity)
    : W * result PBErr.ProductionBackendError backend :=
  match wallet_api lifecycle with
  | Err e => (w, Err (PBErr.Lifecycle e))
  | Ok _ =>
      match connect expected_identity DEFAULT_SCAN_BATCH_BLOCKS DEFAULT_REORG_DEPTH w with
      | (w, Err e) => (w, Err (PBErr.Scan e))
      | (w, Ok chain) =>
          let identity := chain.(ad_identity) in
          match submission_connect identity w with
          | (w, Err e) => (w, Err (PBErr.Submission e))
          | (w, Ok submission) =>
              match fee_connect identity w with
              | (w, Err e) => (w, Err (PBErr.Fee e))
              | (w, Ok fees) =>
                  (w, Ok (mkProductionWalletBackend (Some lifecycle) chain (Some submission)
                            (Some fees) identity w))
              end
          end
      end
  end.

Definition backend_kind (self : backend) : string :=
  if is_some self.(pb_lifecycle) then PRODUCTION_BACKEND_KIND else REMOTE_BACKEND_KIND.
Definition is_embedded (self : backend) : bool := is_some self.(pb_lifecycle).
Definition is_running (self : backend) : bool :=
  match self.(pb_lifecycle) with
  | Some lifecycle => bool_decide (lifecycle_state lifecycle = LC.Running)
  | None => true
  end.

Definition backend_current_identity : method backend PBErr.ProductionBackendError CoreChainIdentity :=
  fun self => through PBErr.Scan (current_identity self.(pb_chain)) self.

(** A remote source that fails is not ready; an embedded one reports an error. *)
Definition is_ready : method backend PBErr.ProductionBackendError bool := fun self =>
  match self.(pb_lifecycle) with
  | Some lifecycle =>
      match wallet_api lifecycle with
      | Err e => (self, Err (PBErr.Lifecycle e))
      | Ok _ =>
          through (fun _ => PBErr.Lifecycle (LErr.Internal "READINESS_QUERY"))
            api_is_ready_for_wallet_operations self
      end
  | None =>
      let '(w, r) := api_is_ready_for_wallet_operations self.(pb_api) in
      (self <| pb_api := w |>, Ok (match r with Ok ready => ready | Err _ => false end))
  end.

Definition fee_service : method backend PBErr.ProductionBackendError CoreChainIdentity :=
  mread (fun self => ok_or self.(pb_fees) PBErr.EmbeddedNodeRequired).
Definition submission_service : method backend PBErr.ProductionBackendError CoreChainIdentity :=
  mread (fun self => ok_or self.(pb_submission) PBErr.EmbeddedNodeRequired).

Definition backend_minimum_fee (shape : WalletTransactionShape)
    : method backend PBErr.ProductionBackendError WalletFeeEstimate :=
  let! fees := fee_service in through PBErr.Fee (fee_minimum_fee fees shape).
Definition backend_recommended_fee (shape : WalletTransactionShape)
    : method backend PBErr.ProductionBackendError WalletFeeEstimate :=
  let! fees := fee_service in through PBErr.Fee (fee_recommended_fee fees shape).

Definition backend_submit (transaction : CanonicalTransactionSubmission)
    : method backend PBErr.ProductionBackendError WOut.WalletSubmissionOutcome :=
  let! service := submission_service in through PBErr.Submission (service_submit service transaction).
Definition backend_rebroadcast (identifier : WalletTransactionIdentifier)
    : method backend PBErr.ProductionBackendError WOut.WalletSubmissionOutcome :=
  let! service := submission_service in
  through PBErr.Submission (service_rebroadcast service identifier).
Definition backend_query_submission (identifier : WalletTransactionIdentifier)
    : method backend PBErr.ProductionBackendError Query.WalletSubmissionQuery :=
  let! service := submission_service in
  through PBErr.Submission (service_query_submission service identifier).
Definition backend_transaction_status (identifier : WalletTransactionIdentifier)
    : method backend PBErr.ProductionBackendError WStatus.WalletTransactionStatus :=
  let! service := submission_service in
  through PBErr.Submission (service_transaction_status service identifier).

(** [reconcile_once] and [reconcile_page], over a sink. *)
Section with_sink.
Context {K Error : Type} {sink : CoreScanTransactionSink K Error}.

Definition over_sink {A} (m : CoreChainAdapter -> method (W * K) SErr.CoreScanError A)
    : method (backend * K) PBErr.ProductionBackendError A := fun s =>
  let '((w, k), r) := m s.1.(pb_chain) (s.1.(pb_api), s.2) in
  ((s.1 <| pb_api := w |>, k), match r with Ok a => Ok a | Err e => Err (PBErr.Scan e) end).

Definition backend_reconcile_once (fuel : nat)
    : method (backend * K) PBErr.ProductionBackendError (option CoreReconcileResult) :=
  over_sink (fun chain => reconcile_to_tip chain fuel).
Definition reconcile_page : method (backend * K) PBErr.ProductionBackendError CoreReconcileResult :=
  over_sink (fun chain => reconcile_wallet_once chain).
End with_sink.
End backend.
