(* ===== verification/Spending.v ===== *)
(** * Spending and cancelling

    The decisions of the wallet service in crates/dom-wallet-core/src/lib.rs about
    inputs: coin selection and reservation (the part of
    [transaction_send_create_with_identities] up to its first commit),
    [transaction_cancel] and [cancel_expired_unfinalized_reservations].  An
    operation works on a clone of the state and hands it to [commit]; the models
    return the states handed over.  The fee policy of the backend, the random
    identifiers and the clock are arguments. *)

From Stdlib Require Import Sorted.
From S2P Require Import Prelude DomainTypes Lifecycle WalletOps Reservations Restore Validation Recovery Storage.
From S2P Require Import Submission Fees Outputs Backend.

Definition MAX_TRANSACTION_LIFETIME_BLOCKS : N := 1440.

(** [CoreError] *)
Module CErr.
Inductive CoreError :=
| WalletNotOpen
| Locked
| InvalidLifecycleState
| InvalidPassword
| RandomnessUnavailable
| RecoveryCeremonyRequired
| RecoveryPhraseAlreadyConfirmed
| RecoveryPhraseInvalid
| RecoveryUnavailable
| InvalidBackupDestination
| EmbeddedCoreRequired
| NodeNotReady
| IdentityMismatch
| AddressIdentityRequired
| InvalidTransactionInput
| TransactionExpired
| TransactionLifetimeExceeded
| InsufficientFunds
| UnsupportedSpendingEvidence
| FeeTooLow
| ArithmeticOverflow
| ReservationConflict
| InvalidScriptlessFundingRequest
| ScriptlessFundingSessionConflict
| ScriptlessFundingShapeMismatch
| ScriptlessFundingReservationNotFound
| ScriptlessFundingNotPrepared
| ScriptlessFundingCannotExport
| ScriptlessFundingSigningNotAuthorized
| ScriptlessFundingContextMismatch
| ScriptlessFundingCannotRelease
| ScriptlessSessionBindingRequired
| ScriptlessSessionBindingMismatch
| ScriptlessTemplateBindingMismatch
| InvalidScriptlessPayoutRequest
| ScriptlessPayoutSessionConflict
| ScriptlessPayoutReservationNotFound
| ScriptlessPayoutNotPrepared
| ScriptlessPayoutCannotExport
| ScriptlessPayoutContextMismatch
| ScriptlessPayoutSigningNotAuthorized
| ScriptlessPayoutCannotRelease
| InvalidSlateTransport
| SlateReplayConflict
| InvalidTransactionTransition
| MissingPrivateContext
| ProtocolRejected
| CoverPolicyRejected
| FinalizedTransactionConflict
| MixedOutputRegime
| CannotCancelTransaction
| ConfirmationRequired
| TransactionNotFound
| InvalidCoreCursor
| Storage (e : StErr.StorageError)
| Domain (e : DErr.DomainError)
| Backend (e : PBErr.ProductionBackendError)
| Protocol (e : PErr.ProtocolAdapterError)
| Recovery (e : RmErr.RecoveryMaterialError)
| Restore (e : RErr.SeedRestoreError)
| Submission (e : SubErr.WalletSubmissionError).
End CErr.

(** The conversion of [DomainError] by the question mark. *)
Definition from_domain {A} (r : result DErr.DomainError A) : result CErr.CoreError A :=
  match r with Ok a => Ok a | Err e => Err (CErr.Domain e) end.

(** ** Coin selection *)

Definition validate_transaction_expiry (expires_at_height canonical_tip_height : N)
    : result CErr.CoreError unit :=
  fail_if (expires_at_height <=? canonical_tip_height) CErr.TransactionExpired ;?
  let? maximum := ok_or (checked_add u64_max canonical_tip_height MAX_TRANSACTION_LIFETIME_BLOCKS)
                        CErr.ArithmeticOverflow in
  fail_if (maximum <? expires_at_height) CErr.TransactionLifetimeExceeded.

Definition find_transaction_index (state : WalletState) (slate_id : uuid)
    (role : Role.TransactionRole) : result CErr.CoreError nat :=
  ok_or (position (fun t => bool_decide (t.(tx_slate_id) = Some slate_id)
                            && bool_decide (t.(tx_role) = Some role)) state.(ws_transactions))
        CErr.TransactionNotFound.

Definition spendable (state : WalletState) (o : OutputRecord) : bool :=
  selectable o && is_some o.(out_commitment) && is_some (output_blinding state o.(out_id)).

(** The derived order of byte arrays, and of [Option]s of them. *)
Fixpoint bytes_compare (a b : bytes) : comparison :=
  match a, b with
  | [], [] => Eq
  | [], _ => Lt
  | _, [] => Gt
  | x :: a, y :: b => match N.compare (Byte.to_N x) (Byte.to_N y) with
                      | Eq => bytes_compare a b
                      | c => c
                      end
  end.
Definition commitment_compare (a b : option bytes) : comparison :=
  match a, b with
  | None, None => Eq
  | None, Some _ => Lt
  | Some _, None => Gt
  | Some a, Some b => bytes_compare a b
  end.

(** By value, then commitment, then identifier. *)
Definition output_compare (left right : OutputRecord) : comparison :=
  match N.compare left.(out_value) right.(out_value) with
  | Eq => match commitment_compare left.(out_commitment) right.(out_commitment) with
          | Eq => N.compare left.(out_id) right.(out_id)
          | c => c
          end
  | c => c
  end.

(** [sort_by], a stable sort. *)
Fixpoint insert_output (o : OutputRecord) (l : list OutputRecord) : list OutputRecord :=
  match l with
  | [] => [o]
  | x :: l' => match output_compare o x with
               | Lt => o :: l
               | _ => x :: insert_output o l'
               end
  end.
Definition spendable_outputs (state : WalletState) : list OutputRecord :=
  fold_left (fun acc o => insert_output o acc) (List.filter (spendable state) state.(ws_outputs)) [].

(** The selection loop; [minimum_fee n] is the backend's minimum for [n]
    inputs, two outputs and one kernel. *)
Fixpoint select_inputs (minimum_fee : N -> result CErr.CoreError N) (requested_fee : option N)
    (amount : N) (candidates : list OutputRecord) (selected : list OutputRecord) (total fee : N)
    : result CErr.CoreError (list OutputRecord * N * N) :=
  match candidates with
  | [] => Ok (selected, total, fee)
  | output :: candidates =>
      let selected := selected ++ [output] in
      fail_if (u32_max <? len selected) CErr.ArithmeticOverflow ;?
      let? minimum := minimum_fee (len selected) in
      let fee := default minimum requested_fee in
      fail_if (fee <? minimum) CErr.FeeTooLow ;?
      let? total := ok_or (checked_add u64_max total output.(out_value)) CErr.ArithmeticOverflow in
      let? required := ok_or (checked_add u64_max amount fee) CErr.ArithmeticOverflow in
      if required <=? total then Ok (selected, total, fee)
      else select_inputs minimum_fee requested_fee amount candidates selected total fee
  end.

(** The body of the loop that reserves the selected outputs. *)
Definition reserve_output (transaction_id : uuid) (reserved_output_ids : list uuid)
    : method OutputRecord CErr.CoreError unit := fun output =>
  if bool_decide (output.(out_id) ∈ reserved_output_ids) then
    if is_some output.(out_reserved_by) then (output, Err CErr.ReservationConflict)
    else (output <| out_reserved_by := Some transaction_id |>
                 <| out_state := Out.PendingOutgoing |>, Ok tt)
  else (output, Ok tt).

Record ReservedSend := mkReservedSend {
  rsv_state : WalletState;
  rsv_selected : list OutputRecord;
  rsv_coordinate : ReservedRecoveryCoordinate;
  rsv_change_value : N;
  rsv_fee : N;
}.

(** The intent pushed for a new send. *)
Definition new_intent (transaction_id slate_id tip now amount fee : N)
    (reserved_output_ids : list uuid) (expires_at_height : N) : LocalTransactionIntent :=
  mkLocalTransactionIntent transaction_id tip now None None [] L.InputsReserved false
    Exp.NeverBroadcast (Some slate_id) (Some Role.Sender) amount fee reserved_output_ids [] [] []
    None 0 None None None expires_at_height.

(** The selected outputs are reserved and the intent is recorded.
    [transaction_id] is [Uuid::new_v4()], [slate_id] the identifier made of the
    first random bytes, [None] when no randomness is available. *)
Definition reserve_selected (selection : list OutputRecord * N * N) (transaction_id : uuid)
    (slate_id : option uuid) (tip now amount expires_at_height : N) (state : WalletState)
    : result CErr.CoreError ReservedSend :=
  let '(selected, total, fee) := selection in
  let? required := ok_or (checked_add u64_max amount fee) CErr.ArithmeticOverflow in
  fail_if (total <? required) CErr.InsufficientFunds ;?
  let change_value := total - required in
  let '(state, coordinate) := reserve_recovery_coordinate 0 ROC.Change state in
  let? coordinate := from_domain coordinate in
  let reserved_output_ids := map out_id selected in
  let '(outputs, r) := for_each_mut (reserve_output transaction_id reserved_output_ids)
                                    state.(ws_outputs) in
  let? _ := r in
  let? slate_id := ok_or slate_id CErr.RandomnessUnavailable in
  Ok (mkReservedSend
        (state <| ws_outputs := outputs |>
               <| ws_transactions ::= fun l =>
                    l ++ [new_intent transaction_id slate_id tip now amount fee reserved_output_ids
                            expires_at_height] |>)
        selected coordinate change_value fee).

(** The checks of a send that do not need the node's fees. *)
Definition check_send (amount tip lock_height expires_at_height : N) : result CErr.CoreError unit :=
  fail_if (amount =? 0) CErr.InvalidTransactionInput ;?
  fail_if (tip <? lock_height) CErr.CoverPolicyRejected ;?
  validate_transaction_expiry expires_at_height tip.

(** [transaction_send_create_with_identities] up to its first commit, for a
    backend whose minimum fees are a function. *)
Definition reserve_send (minimum_fee : N -> result CErr.CoreError N) (transaction_id : uuid)
    (slate_id : option uuid) (tip now amount : N) (requested_fee : option N)
    (lock_height expires_at_height : N) (state : WalletState)
    : result CErr.CoreError ReservedSend :=
  check_send amount tip lock_height expires_at_height ;?
  let? selection := select_inputs minimum_fee requested_fee amount (spendable_outputs state) [] 0 0 in
  reserve_selected selection transaction_id slate_id tip now amount expires_at_height state.

(** ** Cancelling *)

(** The reservation of an output is dropped. *)
Definition release (output : OutputRecord) : OutputRecord :=
  let output := output <| out_reserved_by := None |> in
  if bool_decide (output.(out_state) = Out.PendingOutgoing)
  then output <| out_state := Out.Confirmed |> else output.

(** Whether the request or response was exported, or the transaction finalised. *)
Definition needs_confirmation (t : LocalTransactionIntent) : bool :=
  match t.(tx_lifecycle) with
  | L.RequestExported | L.ResponseExported => true
  | _ => negb (is_empty t.(tx_finalized_transaction_bytes))
  end.

(** [transaction_cancel]: the states handed to [commit], and the result when
    every commit succeeds. *)
Definition transaction_cancel (state : WalletState) (slate_id : uuid) (confirm_exported : bool)
    : list WalletState * result CErr.CoreError uuid :=
  match position (fun t => bool_decide (t.(tx_slate_id) = Some slate_id)) state.(ws_transactions) with
  | None => ([], Err CErr.TransactionNotFound)
  | Some index =>
      match state.(ws_transactions) !! index with
      | None => ([], Err CErr.TransactionNotFound)
      | Some t =>
          match cancellation_decision t.(tx_exposure) with
          | Canc.DenyPossiblyBroadcast => ([], Err CErr.CannotCancelTransaction)
          | Canc.RequireReconciliation =>
              if bool_decide (t.(tx_lifecycle) = L.ReconciliationRequired)
              then ([], Err CErr.CannotCancelTransaction)
              else match transition t L.ReconciliationRequired Ev.ReconciliationEvidence with
              | Err e => ([], Err (CErr.Domain e))
              | Ok t => ([state <| ws_transactions ::= <[index := t]> |>],
                         Err CErr.CannotCancelTransaction)
              end
          | Canc.ReleaseNeverBroadcastReservations =>
              if needs_confirmation t && negb confirm_exported
              then ([], Err CErr.ConfirmationRequired)
              else
                let outputs := map (fun o => if bool_decide (o.(out_id) ∈ t.(tx_reserved_output_ids))
                                             then release o else o) state.(ws_outputs) in
                match transition t L.Cancelled Ev.Cancellation with
                | Err e => ([], Err (CErr.Domain e))
                | Ok t =>
                    let t := t <| tx_cancellation_reason := Some CancReason.Manual |>
                               <| tx_cancelled_at_height := None |> in
                    ([state <| ws_outputs := outputs |> <| ws_transactions ::= <[index := t]> |>],
                     Ok t.(tx_id))
                end
          end
      end
  end.

(** The filter of [cancel_expired_unfinalized_reservations]. *)
Definition expiring (canonical_tip_height : N) (t : LocalTransactionIntent) : bool :=
  bool_decide (t.(tx_role) = Some Role.Sender)
  && negb (is_empty t.(tx_reserved_output_ids))
  && is_empty t.(tx_finalized_transaction_bytes)
  && negb (t.(tx_expires_at_height) =? 0)
  && (t.(tx_expires_at_height) <=? canonical_tip_height)
  && bool_decide (t.(tx_exposure) = Exp.NeverBroadcast)
  && match t.(tx_lifecycle) with
     | L.Cancelled | L.Confirmed _ _ | L.Submitting | L.Submitted | L.AcceptedNotRelayed
     | L.InMempool | L.Reorged | L.RetransmitRequired | L.ReconciliationRequired => false
     | _ => true
     end.

(** The transaction holds the output. *)
Definition holds (t : LocalTransactionIntent) (o : OutputRecord) : bool :=
  bool_decide (o.(out_id) ∈ t.(tx_reserved_output_ids))
  && bool_decide (o.(out_reserved_by) = Some t.(tx_id)).

Definition expire_transaction (canonical_tip_height : N)
    : method LocalTransactionIntent CErr.CoreError unit := fun t =>
  match transition t L.Cancelled Ev.Cancellation with
  | Err e => (t, Err (CErr.Domain e))
  | Ok t => (t <| tx_cancellation_reason := Some CancReason.ExpiredBeforeFinalization |>
               <| tx_cancelled_at_height := Some canonical_tip_height |>, Ok tt)
  end.

Fixpoint cancel_expiring (canonical_tip_height : N) (indexes : list nat) (cancelled : list uuid)
    : method WalletState CErr.CoreError (list uuid) := fun state =>
  match indexes with
  | [] => (state, Ok cancelled)
  | index :: indexes =>
      match state.(ws_transactions) !! index with
      | None => (state, Ok cancelled)
      | Some t =>
          let state := state <| ws_outputs ::= map (fun o => if holds t o then release o else o) |> in
          let '(t', r) := expire_transaction canonical_tip_height t in
          let state := state <| ws_transactions ::= <[index := t']> |> in
          match r with
          | Err e => (state, Err e)
          | Ok _ => cancel_expiring canonical_tip_height indexes (cancelled ++ [t.(tx_id)]) state
          end
      end
  end.

Definition cancel_expired_unfinalized_reservations (canonical_tip_height : N)
    : method WalletState CErr.CoreError (list uuid) := fun state =>
  cancel_expiring canonical_tip_height
    (positions (expiring canonical_tip_height) state.(ws_transactions)) [] state.

(** ** Lemmas: coin selection *)

(** What outputs are worth together. *)
Definition total_value (l : list OutputRecord) : N := foldr (fun o t => o.(out_value) + t) 0 l.

Lemma total_value_snoc l o : total_value (l ++ [o]) = total_value l + o.(out_value).
Proof. apply sum_app. Qed.

Definition value_le (a b : OutputRecord) : Prop := a.(out_value) <= b.(out_value).

Lemma output_compare_value a b :
  if output_compare a b is Lt then value_le a b else value_le b a.
Proof.
  unfold output_compare, value_le. destruct (N.compare_spec (out_value a) (out_value b)); try lia.
  destruct (commitment_compare _ _); [destruct (N.compare _ _)|..]; lia.
Qed.

Lemma insert_output_perm o l : insert_output o l ≡ₚ o :: l.
Proof.
  induction l as [|x l IH]; simpl; [done|].
  destruct (output_compare o x); [rewrite IH; constructor|done|rewrite IH; constructor].
Qed.

Lemma insert_output_sorted o l :
  StronglySorted value_le l -> StronglySorted value_le (insert_output o l).
Proof.
  induction l as [|x l IH]; simpl; intros H; [by repeat constructor|].
  apply StronglySorted_inv in H as [H Hx]. pose proof (output_compare_value o x) as Hc.
  destruct (output_compare o x).
  2: { constructor; [by constructor|]. constructor; [done|].
       eapply Forall_impl; [exact Hx|]. unfold value_le in *. intros; lia. }
  all: constructor; [auto|]; rewrite insert_output_perm; by constructor.
Qed.

(** The candidates are the spendable outputs, the least valuable first. *)
Lemma spendable_outputs_spec s :
  spendable_outputs s ≡ₚ List.filter (spendable s) s.(ws_outputs)
  /\ StronglySorted value_le (spendable_outputs s).
Proof.
  unfold spendable_outputs. generalize (List.filter (spendable s) (ws_outputs s)). intros l.
  assert (H : forall acc, StronglySorted value_le acc ->
    fold_left (fun acc o => insert_output o acc) l acc ≡ₚ l ++ acc
    /\ StronglySorted value_le (fold_left (fun acc o => insert_output o acc) l acc)).
  { induction l as [|x l IH]; intros acc Hacc; simpl; [done|].
    destruct (IH _ (insert_output_sorted x acc Hacc)) as [P S]. split; [|done].
    rewrite P, insert_output_perm. symmetry. apply Permutation_middle. }
  destruct (H [] ltac:(constructor)) as [P S]. rewrite app_nil_r in P. done.
Qed.

Section selection.
Context (minimum_fee : N -> result CErr.CoreError N) (requested_fee : option N) (amount : N).

(** The inputs pay for the amount and the fee for as many inputs, at least the
    minimum; or they do not. *)
Definition pays (fee : N) (l : list OutputRecord) : Prop :=
  exists m, minimum_fee (len l) = Ok m /\ fee = default m requested_fee /\ m <= fee
            /\ amount + fee <= total_value l.
Definition falls_short (l : list OutputRecord) : Prop :=
  exists m, minimum_fee (len l) = Ok m /\ total_value l < amount + default m requested_fee.

(** The selection stops at the first prefix that pays, or takes everything. *)
Lemma select_inputs_Ok cands sel total fee sel' total' fee' :
  select_inputs minimum_fee requested_fee amount cands sel total fee = Ok (sel', total', fee') ->
  total = total_value sel ->
  total' = total_value sel'
  /\ exists n, (n <= length cands)%nat /\ sel' = sel ++ take n cands
  /\ (n = 0%nat -> cands = [] /\ fee' = fee)
  /\ (forall k, (0 < k < n)%nat -> falls_short (sel ++ take k cands))
  /\ ((0 < n)%nat -> pays fee' sel'
      \/ n = length cands /\ falls_short sel' /\ total' < amount + fee').
Proof.
  revert sel total fee. induction cands as [|o cands IH]; intros sel total fee H Ht; simpl in H.
  - res_inv. split; [done|]. exists 0%nat. simpl. rewrite app_nil_r.
    repeat split; try done; intros; lia.
  - apply then_Ok in H as [_ H]. apply rbind_Ok in H as (m & Hm & H).
    apply then_Ok in H as [Hf H]. res_inv. bool_inv.
    apply checked_add_Some in Hr as [-> _]. apply checked_add_Some in Hr0 as [-> _].
    assert (Hv : total_value sel + out_value o = total_value (sel ++ [o]))
      by (by rewrite total_value_snoc).
    rewrite Ht, Hv in H. destruct (_ <=? _) eqn:E; bool_inv.
    + res_inv. split; [done|]. exists 1%nat. simpl. split; [lia|]. split; [done|].
      split; [done|]. split; [intros; lia|]. intros _. left. by exists m.
    + apply IH in H as (-> & n & Hn & -> & H0 & Hk & Hp); [|done]. split; [done|].
      exists (S n). simpl. rewrite <- app_assoc in *. simpl in *.
      assert (Hs : falls_short (sel ++ [o])) by (exists m; split; [done|lia]).
      split; [lia|]. split; [done|]. split; [done|]. split.
      * intros [|[|k]] Hlt; [lia|done|]. specialize (Hk (S k) ltac:(lia)).
        by rewrite <- app_assoc in Hk.
      * intros _. destruct n as [|n].
        -- destruct (H0 eq_refl) as [-> ->]. right. simpl. split; [done|]. split; [done|lia].
        -- destruct (Hp ltac:(lia)) as [?|[-> ?]]; [by left|right; by split].
Qed.

Lemma select_inputs_Err cands sel total fee :
  select_inputs minimum_fee requested_fee amount cands sel total fee = Err CErr.InsufficientFunds ->
  exists n, minimum_fee n = Err CErr.InsufficientFunds.
Proof.
  revert sel total fee. induction cands as [|o cands IH]; intros sel total fee; simpl; [done|].
  destruct (u32_max <? _); simpl; [done|]. destruct (minimum_fee _) as [m|e] eqn:Em; simpl.
  - destruct (_ <? m); simpl; [done|]. destruct (checked_add _ total _); simpl; [|done].
    destruct (checked_add _ amount _); simpl; [|done]. destruct (_ <=? _); [done|]. apply IH.
  - intros [= ->]. eauto.
Qed.
End selection.

(** *** Reserving the selection *)

Definition reserved_for (id : uuid) (o : OutputRecord) : OutputRecord :=
  o <| out_reserved_by := Some id |> <| out_state := Out.PendingOutgoing |>.

Lemma reserve_outputs_Ok id ids outputs outputs' u :
  for_each_mut (reserve_output id ids) outputs = (outputs', Ok u) ->
  outputs' = map (fun o => if bool_decide (o.(out_id) ∈ ids) then reserved_for id o else o) outputs
  /\ forall o, o ∈ outputs -> o.(out_id) ∈ ids -> o.(out_reserved_by) = None.
Proof.
  revert outputs'. induction outputs as [|o l IH]; intros outputs' H; simpl in H.
  - res_inv. split; [done|]. intros o Ho. by apply not_elem_of_nil in Ho.
  - destruct (reserve_output id ids o) as [o' [[]|]] eqn:Eo; [|done].
    destruct (for_each_mut _ l) as [l' r] eqn:El. injection H as <- ->.
    destruct (IH _ eq_refl) as [-> Hfree]. unfold reserve_output in Eo. simpl.
    case_bool_decide as Hin.
    + destruct (out_reserved_by o) eqn:Er; [done|]. injection Eo as <-. split; [done|].
      intros x [->|Hx]%elem_of_cons; [by intros|by apply Hfree].
    + injection Eo as <-. split; [done|].
      intros x [->|Hx]%elem_of_cons; [done|by apply Hfree].
Qed.

Lemma validate_transaction_expiry_Ok expires tip u :
  validate_transaction_expiry expires tip = Ok u ->
  tip < expires <= tip + MAX_TRANSACTION_LIFETIME_BLOCKS.
Proof.
  unfold validate_transaction_expiry. intros H. res_inv. bool_inv.
  apply checked_add_Some in Hr0 as [-> _]. lia.
Qed.

Lemma validate_transaction_expiry_Err expires tip :
  validate_transaction_expiry expires tip <> Err CErr.InsufficientFunds.
Proof.
  unfold validate_transaction_expiry. destruct (_ <=? _); simpl; [done|].
  destruct (checked_add _ _ _); simpl; [|done]. by destruct (_ <? _).
Qed.

Lemma reserve_send_insufficient minimum_fee id slate_id tip now amount requested_fee lock expires state :
  reserve_send minimum_fee id slate_id tip now amount requested_fee lock expires state
  = Err CErr.InsufficientFunds ->
  (exists n, minimum_fee n = Err CErr.InsufficientFunds)
  \/ forall k, (0 < k <= length (spendable_outputs state))%nat ->
       falls_short minimum_fee requested_fee amount (take k (spendable_outputs state)).
Proof.
  unfold reserve_send, check_send, reserve_selected. intros H.
  apply rbind_Err in H as [H|(_ & _ & H)].
  { apply rbind_Err in H as [H|(_ & _ & H)]; [by apply fail_if_Err in H as [_ ?]|].
    apply rbind_Err in H as [H|(_ & _ & H)]; [by apply fail_if_Err in H as [_ ?]|].
    by apply validate_transaction_expiry_Err in H. }
  apply rbind_Err in H as [H|([[sel total] fee] & Hsel & H)]; [left; by eapply select_inputs_Err|].
  apply rbind_Err in H as [H|(req & Hreq & H)]; [by apply ok_or_Err in H as [_ ?]|].
  apply rbind_Err in H as [H|(_ & _ & H)].
  - right. apply fail_if_Err in H as [Hlt _]. bool_inv. res_inv.
    apply checked_add_Some in Hreq as [-> _].
    apply select_inputs_Ok in Hsel as (-> & n & Hn & -> & H0 & Hk & Hp); [|done]. simpl in *.
    intros k Hb. destruct n as [|n]; [destruct (H0 eq_refl) as [E _]; rewrite E in Hb; simpl in Hb; lia|].
    destruct (Hp ltac:(lia)) as [(_ & _ & _ & _ & ?)|(E & Hs & _)]; [lia|].
    destruct (decide (k = S n)) as [->|]; [done|]. apply Hk. lia.
  - destruct (reserve_recovery_coordinate _ _ _) as [state1 [coord|]]; simpl in H; [|done].
    destruct (for_each_mut _ _) as [outputs [u|e]] eqn:Ho; simpl in H.
    + by destruct slate_id.
    + injection H as ->. exfalso. revert outputs Ho.
      induction (ws_outputs state1) as [|o l IH]; intros outputs Ho; simpl in Ho; [done|].
      unfold reserve_output at 1 in Ho. destruct (bool_decide _), (out_reserved_by o); simpl in Ho;
        try done; destruct (for_each_mut _ l) as [l' r]; injection Ho as _ ->; by eapply IH.
Qed.

(** What a send that is reserved has done. *)
Definition reserves_exactly (minimum_fee : N -> result CErr.CoreError N) (transaction_id : uuid)
    (slate_id : option uuid) (tip now amount : N) (requested_fee : option N)
    (lock_height expires_at_height : N) (state : WalletState) (r : ReservedSend) : Prop :=
  let ids := map out_id r.(rsv_selected) in
  0 < amount /\ lock_height <= tip
  /\ tip < expires_at_height <= tip + MAX_TRANSACTION_LIFETIME_BLOCKS
  /\ r.(rsv_selected) = take (length r.(rsv_selected)) (spendable_outputs state)
  /\ StronglySorted value_le (spendable_outputs state)
  /\ Forall (fun o => o ∈ state.(ws_outputs) /\ spendable state o = true) r.(rsv_selected)
  /\ pays minimum_fee requested_fee amount r.(rsv_fee) r.(rsv_selected)
  /\ (forall k, (0 < k < length r.(rsv_selected))%nat ->
       falls_short minimum_fee requested_fee amount (take k (spendable_outputs state)))
  /\ r.(rsv_change_value) + (amount + r.(rsv_fee)) = total_value r.(rsv_selected)
  /\ (forall o, o ∈ state.(ws_outputs) -> o.(out_id) ∈ ids -> o.(out_reserved_by) = None)
  /\ exists state1 slate,
       slate_id = Some slate
       /\ reserve_recovery_coordinate 0 ROC.Change state = (state1, Ok r.(rsv_coordinate))
       /\ r.(rsv_state) = state1
            <| ws_outputs := map (fun o => if bool_decide (o.(out_id) ∈ ids)
                                  then reserved_for transaction_id o else o) state.(ws_outputs) |>
            <| ws_transactions := state.(ws_transactions)
                 ++ [new_intent transaction_id slate tip now amount r.(rsv_fee) ids
                       expires_at_height] |>.

Lemma reserve_send_Ok minimum_fee id slate_id tip now amount requested_fee lock expires state r :
  reserve_send minimum_fee id slate_id tip now amount requested_fee lock expires state = Ok r ->
  reserves_exactly minimum_fee id slate_id tip now amount requested_fee lock expires state r.
Proof.
  intros H. unfold reserve_send, reserve_selected, check_send in H. unfold reserves_exactly.
  apply then_Ok in H as [He H]. apply then_Ok in He as [Ha He]. apply then_Ok in He as [Hl He].
  apply rbind_Ok in H as ([[sel total] fee] & Hsel & H). apply rbind_Ok in H as (req & Hreq & H).
  apply then_Ok in H as [Hlt H].
  destruct (reserve_recovery_coordinate _ _ _) as [state1 [coord|]] eqn:Hc; simpl in H; [|done].
  destruct (for_each_mut _ _) as [outputs [u|]] eqn:Ho; simpl in H; [|done].
  res_inv. bool_inv. simpl in *. apply validate_transaction_expiry_Ok in He.
  apply checked_add_Some in Hreq as [-> _].
  apply select_inputs_Ok in Hsel as (-> & n & Hn & -> & H0 & Hk & Hp); [|done].
  pose proof (reserve_Ok _ _ _ _ _ Hc) as (_ & _ & Hs1).
  assert (ws_outputs state1 = ws_outputs state /\ ws_transactions state1 = ws_transactions state)
    as [Eo Et] by (by rewrite Hs1).
  rewrite Eo in Ho. apply reserve_outputs_Ok in Ho as [-> Hfree]. simpl in *.
  assert ((0 < n)%nat) as Hpos.
  { destruct n; [|lia]. destruct (H0 eq_refl) as [E ->]. simpl in Hlt. lia. }
  destruct (spendable_outputs_spec state) as [Pm Hsorted].
  rewrite length_take, Nat.min_l by done.
  repeat match goal with |- _ /\ _ => split end; try done; try lia.
  - apply Forall_forall. intros o [i Hi]%list_elem_of_lookup.
    apply lookup_take_Some in Hi as [Hi _]. apply list_elem_of_lookup_2 in Hi.
    rewrite Pm in Hi. apply list_elem_of_In, filter_In in Hi as [Hi ?].
    by rewrite list_elem_of_In.
  - destruct (Hp Hpos) as [?|(_ & _ & ?)]; [done|lia].
  - eexists state1, _. split; [reflexivity|]. split; [done|]. by rewrite Et.
Qed.

(** ** Theorems: spending *)

(** C27 A send reserves exactly what it needs.  On success the chosen inputs are
    the shortest run of the least valuable spendable outputs that pays the
    amount and the fee for their number, the fee is at least the minimum, the
    change is the exact difference, none of the inputs was reserved, and the
    state differs only by a fresh change coordinate, the inputs now pending for
    the new transaction and the new transaction itself.  Funds are called
    insufficient only when every such run falls short. *)
Theorem selection_reserves_exactly (minimum_fee : N -> result CErr.CoreError N) transaction_id
    slate_id tip now amount requested_fee lock_height expires_at_height state :
  match reserve_send minimum_fee transaction_id slate_id tip now amount requested_fee lock_height
          expires_at_height state with
  | Ok r => reserves_exactly minimum_fee transaction_id slate_id tip now amount requested_fee
              lock_height expires_at_height state r
  | Err CErr.InsufficientFunds =>
      (exists n, minimum_fee n = Err CErr.InsufficientFunds)
      \/ forall k, (0 < k <= length (spendable_outputs state))%nat ->
           falls_short minimum_fee requested_fee amount (take k (spendable_outputs state))
  | Err _ => True
  end.
Proof.
  destruct (reserve_send _ _ _ _ _ _ _ _ _ _) as [r|e] eqn:H; [by apply reserve_send_Ok|].
  destruct e; try done. by eapply reserve_send_insufficient.
Qed.

(** ** Lemmas: cancelling *)

(** The lifecycles from which a transaction can become cancelled. *)
Definition cancellable (l : L.TransactionLifecycle) : bool :=
  match l with
  | L.Draft | L.InputsReserved | L.RequestExported | L.RequestImported | L.ResponsePrepared
  | L.ResponseExported | L.ResponseImported | L.Finalized | L.Failed | L.Cancelled => true
  | _ => false
  end.

Lemma cancel_transition t :
  transition t L.Cancelled Ev.Cancellation
  = if cancellable t.(tx_lifecycle) then Ok (t <| tx_lifecycle := L.Cancelled |>)
    else Err DErr.InvalidTransactionTransition.
Proof.
  destruct t as [? ? ? ? ? ? l ? e ? ? ? ? ? ? ? ? ? ? ? ? ? ?].
  by destruct l; unfold transition; simpl; destruct e.
Qed.

Lemma release_unheld o :
  (release o).(out_reserved_by) = None /\ (release o).(out_state) <> Out.PendingOutgoing
  /\ (o.(out_state) = Out.PendingOutgoing -> selectable (release o) = true).
Proof.
  unfold release, selectable. simpl. case_bool_decide as E; simpl; [done|].
  split; [done|]. by split.
Qed.

Lemma release_same o :
  (release o).(out_id) = o.(out_id) /\ (release o).(out_value) = o.(out_value)
  /\ (release o).(out_commitment) = o.(out_commitment)
  /\ (o.(out_state) <> Out.PendingOutgoing -> (release o).(out_state) = o.(out_state)).
Proof. unfold release. simpl. by case_bool_decide; simpl. Qed.

(** The first transaction of an exchange. *)
Definition first_of_slate (state : WalletState) (slate_id : uuid) (i : nat)
    (t : LocalTransactionIntent) : Prop :=
  position (fun t => bool_decide (t.(tx_slate_id) = Some slate_id)) state.(ws_transactions) = Some i
  /\ state.(ws_transactions) !! i = Some t.

Definition cancelled_by_hand (t : LocalTransactionIntent) : LocalTransactionIntent :=
  t <| tx_lifecycle := L.Cancelled |> <| tx_cancellation_reason := Some CancReason.Manual |>
    <| tx_cancelled_at_height := None |>.
Definition inputs_released (t : LocalTransactionIntent) (state : WalletState) : list OutputRecord :=
  map (fun o => if bool_decide (o.(out_id) ∈ t.(tx_reserved_output_ids)) then release o else o)
      state.(ws_outputs).

Lemma transaction_cancel_never state slate_id confirm i t :
  first_of_slate state slate_id i t -> t.(tx_exposure) = Exp.NeverBroadcast ->
  cancellable t.(tx_lifecycle) = true -> (needs_confirmation t = true -> confirm = true) ->
  transaction_cancel state slate_id confirm
  = ([state <| ws_outputs := inputs_released t state |>
            <| ws_transactions ::= <[i := cancelled_by_hand t]> |>], Ok t.(tx_id)).
Proof.
  intros [Hp Ht] He Hl Hc. unfold transaction_cancel. rewrite Hp, Ht, He. simpl.
  rewrite cancel_transition, Hl.
  assert (needs_confirmation t && negb confirm = false) as ->; [|done].
  destruct (needs_confirmation t); [|done]. by rewrite Hc.
Qed.

Lemma transaction_cancel_refused state slate_id confirm i t :
  first_of_slate state slate_id i t -> t.(tx_exposure) = Exp.NeverBroadcast ->
  ~ (cancellable t.(tx_lifecycle) = true /\ (needs_confirmation t = true -> confirm = true)) ->
  exists e, transaction_cancel state slate_id confirm = ([], Err e).
Proof.
  intros [Hp Ht] He Hn. unfold transaction_cancel. rewrite Hp, Ht, He. simpl.
  destruct (needs_confirmation t && negb confirm) eqn:Hc; [by eexists|].
  rewrite cancel_transition. destruct (cancellable _) eqn:Hl; [|by eexists].
  exfalso. apply Hn. split; [done|]. intros E. rewrite E in Hc. by destruct confirm.
Qed.

Lemma transaction_cancel_exposed state slate_id confirm i t :
  first_of_slate state slate_id i t -> t.(tx_exposure) <> Exp.NeverBroadcast ->
  exists commits e, transaction_cancel state slate_id confirm = (commits, Err e)
  /\ forall s', s' ∈ commits ->
       exists t', transition t L.ReconciliationRequired Ev.ReconciliationEvidence = Ok t'
                  /\ s' = state <| ws_transactions ::= <[i := t']> |>.
Proof.
  intros [Hp Ht] He. unfold transaction_cancel. rewrite Hp, Ht.
  assert (cancellation_decision (tx_exposure t) = Canc.RequireReconciliation) as ->
    by (by destruct (tx_exposure t)).
  case_bool_decide as Hr; [|destruct (transition _ _ _) as [t'|e] eqn:Et];
    eexists _, _; (split; [reflexivity|]); intros s' Hs; try (by apply not_elem_of_nil in Hs).
  apply list_elem_of_singleton in Hs as ->. by exists t'.
Qed.

Lemma inputs_released_spec t state :
  Forall2 (fun o o' => if bool_decide (o.(out_id) ∈ t.(tx_reserved_output_ids))
     then o'.(out_id) = o.(out_id) /\ o'.(out_value) = o.(out_value)
          /\ o'.(out_reserved_by) = None /\ o'.(out_state) <> Out.PendingOutgoing
     else o' = o) state.(ws_outputs) (inputs_released t state).
Proof.
  unfold inputs_released. induction (ws_outputs state) as [|o l IH]; simpl; constructor; [|done].
  case_bool_decide; [|done].
  by destruct (release_unheld o) as (? & ? & _), (release_same o) as (? & ? & _).
Qed.

(** Cancelling by hand succeeds exactly for a known exchange whose
    transaction was never broadcast, can still be cancelled and, once exported
    or finalised, is confirmed by the user.  Then one state is committed: every
    listed input is released and every other output kept, the transaction is
    cancelled and no other one changes.  Whatever is committed by a refusal keeps
    every output, and at most moves the transaction to reconciliation. *)
Theorem cancellation_is_exact state slate_id confirm_exported :
  let '(commits, r) := transaction_cancel state slate_id confirm_exported in
  (is_ok r = true <-> exists i t, first_of_slate state slate_id i t
     /\ t.(tx_exposure) = Exp.NeverBroadcast /\ cancellable t.(tx_lifecycle) = true
     /\ (needs_confirmation t = true -> confirm_exported = true))
  /\ match r with
     | Ok id => exists i t s', first_of_slate state slate_id i t /\ id = t.(tx_id) /\ commits = [s']
         /\ Forall2 (fun o o' => if bool_decide (o.(out_id) ∈ t.(tx_reserved_output_ids))
              then o'.(out_id) = o.(out_id) /\ o'.(out_value) = o.(out_value)
                   /\ o'.(out_reserved_by) = None /\ o'.(out_state) <> Out.PendingOutgoing
              else o' = o) state.(ws_outputs) s'.(ws_outputs)
         /\ s'.(ws_transactions) = <[i := cancelled_by_hand t]> state.(ws_transactions)
         /\ s' <| ws_outputs := state.(ws_outputs) |>
               <| ws_transactions := state.(ws_transactions) |> = state
     | Err _ => forall s', s' ∈ commits -> exists i t t', first_of_slate state slate_id i t
         /\ t.(tx_exposure) <> Exp.NeverBroadcast
         /\ transition t L.ReconciliationRequired Ev.ReconciliationEvidence = Ok t'
         /\ s' = state <| ws_transactions ::= <[i := t']> |>
     end.
Proof.
  destruct (position (fun t => bool_decide (tx_slate_id t = Some slate_id)) (ws_transactions state))
    as [i|] eqn:Hp.
  2: { unfold transaction_cancel. rewrite Hp. split; [|intros s' Hs; by apply not_elem_of_nil in Hs].
       split; [done|]. intros (i & t & [Hi _] & _). congruence. }
  assert (exists t, first_of_slate state slate_id i t) as [t Hf].
  { pose proof Hp as Hp'. apply position_Some in Hp' as [(t & Ht & _) _]. by exists t. }
  assert (Huniq : forall i' t', first_of_slate state slate_id i' t' -> t' = t)
    by (intros i' t' [Hi Ht']; destruct Hf; congruence).
  destruct (decide (tx_exposure t = Exp.NeverBroadcast)) as [He|He].
  - destruct (decide (cancellable (tx_lifecycle t) = true
                      /\ (needs_confirmation t = true -> confirm_exported = true))) as [[Hl Hc]|Hn].
    + rewrite (transaction_cancel_never _ _ _ i t) by done. split.
      * split; [intros _; by exists i, t|done].
      * eexists i, t, _. split; [done|]. split; [done|]. split; [reflexivity|].
        split; [apply inputs_released_spec|]. split; [done|by destruct state].
    + destruct (transaction_cancel_refused _ _ _ _ _ Hf He Hn) as [e ->].
      split; [|intros s' Hs; by apply not_elem_of_nil in Hs].
      split; [done|]. intros (i' & t' & Hf' & _ & Hok). apply Huniq in Hf' as ->. done.
  - destruct (transaction_cancel_exposed _ _ confirm_exported _ _ Hf He) as (commits & e & -> & Hs).
    split.
    + split; [done|]. intros (i' & t' & Hf' & He' & _). apply Huniq in Hf' as ->. done.
    + intros s' (t' & Ht' & ->)%Hs. by exists i, t, t'.
Qed.

(** A transaction that was cancelled can be cancelled again, and that releases
    the inputs it once listed whoever holds them by now: an input pending for
    another transaction becomes selectable while that transaction goes on
    unchanged, since [transaction_cancel] does not compare [reserved_by] with
    the cancelled transaction. *)
Theorem repeated_cancellation_frees_foreign_inputs state slate_id i t j holder o
    (Hfirst : first_of_slate state slate_id i t)
    (Hcancelled : t.(tx_lifecycle) = L.Cancelled) (Hnever : t.(tx_exposure) = Exp.NeverBroadcast)
    (Hholder : state.(ws_transactions) !! j = Some holder)
    (Hother : holder.(tx_id) <> t.(tx_id))
    (Ho : o ∈ state.(ws_outputs)) (Hlisted : o.(out_id) ∈ t.(tx_reserved_output_ids))
    (Hpending : o.(out_state) = Out.PendingOutgoing)
    (Hheld : o.(out_reserved_by) = Some holder.(tx_id)) :
  exists s', transaction_cancel state slate_id true = ([s'], Ok t.(tx_id))
  /\ s'.(ws_transactions) !! j = Some holder
  /\ exists o', o' ∈ s'.(ws_outputs) /\ o'.(out_id) = o.(out_id)
                /\ o'.(out_value) = o.(out_value) /\ selectable o' = true.
Proof.
  assert (j <> i) as Hij by (intros ->; destruct Hfirst; congruence).
  eexists. split; [apply transaction_cancel_never; try done; by rewrite Hcancelled|].
  simpl. split; [by rewrite list_lookup_insert_ne|].
  exists (release o). destruct (release_unheld o) as (_ & _ & Hs), (release_same o) as (? & ? & _).
  split; [|auto]. unfold inputs_released. apply list_elem_of_fmap. exists o.
  by rewrite bool_decide_eq_true_2.
Qed.

(** ** Lemmas: expiry *)

(** A transaction that expired before it was finalised, at a tip height. *)
Definition expired_at (tip : N) (t : LocalTransactionIntent) : LocalTransactionIntent :=
  t <| tx_lifecycle := L.Cancelled |>
    <| tx_cancellation_reason := Some CancReason.ExpiredBeforeFinalization |>
    <| tx_cancelled_at_height := Some tip |>.

Lemma expire_transaction_expiring tip t :
  expiring tip t = true -> expire_transaction tip t = (expired_at tip t, Ok tt).
Proof.
  intros H. unfold expiring in H. bool_inv. unfold expire_transaction.
  rewrite cancel_transition. by destruct (tx_lifecycle t).
Qed.

Lemma holds_release t t' o : holds t' o = true -> holds t (release o) = false.
Proof.
  intros _. unfold holds. destruct (release_unheld o) as (-> & _). by rewrite andb_false_r.
Qed.

(** The outputs released for a list of transactions. *)
Definition release_for (ts : list LocalTransactionIntent) (o : OutputRecord) : OutputRecord :=
  if existsb (fun t => holds t o) ts then release o else o.

Lemma release_for_cons t ts o :
  release_for ts (if holds t o then release o else o) = release_for (t :: ts) o.
Proof.
  unfold release_for. simpl. destruct (holds t o) eqn:E; simpl; [|done].
  destruct (existsb _ ts) eqn:Ex; [|done].
  apply existsb_exists in Ex as (t' & _ & Ht'). by rewrite (holds_release _ t o E) in Ht'.
Qed.

Lemma cancel_expiring_suffix tip rest : forall pre cancelled s,
  s.(ws_transactions) = pre ++ rest ->
  cancel_expiring tip (map (Nat.add (length pre)) (positions (expiring tip) rest)) cancelled s
  = (s <| ws_outputs ::= map (release_for (List.filter (expiring tip) rest)) |>
       <| ws_transactions := pre ++ map (fun t => if expiring tip t then expired_at tip t else t) rest |>,
     Ok (cancelled ++ map tx_id (List.filter (expiring tip) rest))).
Proof.
  induction rest as [|t rest IH]; intros pre cancelled s Hs; simpl.
  - rewrite !app_nil_r in *. unfold release_for. simpl. rewrite map_id, <- Hs. by destruct s.
  - assert (Hshift : forall (l : list nat) t', map (Nat.add (length pre)) (map S l)
                       = map (Nat.add (length (pre ++ [t']))) l).
    { intros l t'. rewrite map_map. apply map_ext. intros n. rewrite length_app. simpl. lia. }
    destruct (expiring tip t) eqn:Et.
    + simpl. rewrite Nat.add_0_r, Hs, list_lookup_middle by done.
      rewrite (expire_transaction_expiring _ _ Et). simpl.
      rewrite (Hshift _ (expired_at tip t)), IH; simpl.
      2: { rewrite insert_app_r_alt, Nat.sub_diag by done. simpl. by rewrite <- app_assoc. }
      rewrite <- !app_assoc. simpl. f_equal. destruct s; simpl in *. f_equal.
      rewrite map_map. apply map_ext. intros o. apply release_for_cons.
    + rewrite (Hshift _ t), IH; [|by rewrite <- app_assoc]. by rewrite <- app_assoc.
Qed.

Lemma cancel_expired_run tip s :
  cancel_expired_unfinalized_reservations tip s
  = (s <| ws_outputs ::= map (release_for (List.filter (expiring tip) s.(ws_transactions))) |>
       <| ws_transactions ::= map (fun t => if expiring tip t then expired_at tip t else t) |>,
     Ok (map tx_id (List.filter (expiring tip) s.(ws_transactions)))).
Proof.
  unfold cancel_expired_unfinalized_reservations.
  pose proof (cancel_expiring_suffix tip (ws_transactions s) [] [] s eq_refl) as H.
  simpl in H. by rewrite map_id in H.
Qed.

(** Expiry at a canonical tip never fails and cancels exactly the unfinalised
    sends that were never broadcast and whose lifetime has passed: they get the
    reason and the height, their identifiers are returned in order, exactly the
    outputs still held by one of them are released, and nothing else changes;
    afterwards no output is held by an expired send and expiring again changes
    nothing. *)
Theorem expiry_cancels_exactly_the_expired tip state :
  let expired := List.filter (expiring tip) state.(ws_transactions) in
  exists s', cancel_expired_unfinalized_reservations tip state = (s', Ok (map tx_id expired))
  /\ s' = state
       <| ws_outputs ::= map (release_for expired) |>
       <| ws_transactions ::= map (fun t => if expiring tip t then expired_at tip t else t) |>
  /\ (forall o t, o ∈ s'.(ws_outputs) -> t ∈ expired -> holds t o = false)
  /\ cancel_expired_unfinalized_reservations tip s' = (s', Ok []).
Proof.
  intros expired. eexists. split; [apply cancel_expired_run|]. split; [reflexivity|]. simpl. split.
  - intros o t Ho Ht. apply list_elem_of_fmap in Ho as (o0 & -> & _). fold expired.
    unfold release_for. destruct (existsb _ expired) eqn:E.
    + unfold holds. destruct (release_unheld o0) as (-> & _). by rewrite andb_false_r.
    + destruct (holds t o0) eqn:Hh; [|done]. rewrite <- E. symmetry. apply existsb_exists.
      exists t. by rewrite <- list_elem_of_In.
  - rewrite cancel_expired_run. simpl.
    assert (Hno : forall t, expiring tip (if expiring tip t then expired_at tip t else t) = false).
    { intros t. destruct (expiring tip t) eqn:E; [|done]. unfold expiring. simpl. by rewrite andb_false_r. }
    assert (List.filter (expiring tip) (map (fun t => if expiring tip t then expired_at tip t else t)
              (ws_transactions state)) = []) as ->.
    { induction (ws_transactions state) as [|t l IH]; simpl; [done|]. by rewrite Hno. }
    simpl. unfold release_for at 1. simpl. f_equal. f_equal; [apply map_id|].
    rewrite map_map. apply map_ext. intros t. by rewrite Hno.
Qed.

(** ** Witnesses *)

(** A wallet with one spendable output; a send that is cancelled; a second send
    that reserves the same output. *)
Definition spending_wallet : WalletState :=
  fresh_wallet <| ws_outputs := [sample_output 5 Byte.x05 Out.Confirmed] |>
    <| ws_private_output_blindings := [mkPrivateOutputBlinding 5 (sample_bytes 32 Byte.x09)] |>.
Definition flat_fee (n : N) : result CErr.CoreError N := Ok 100.
Definition send_state (id slate : uuid) (state : WalletState) : WalletState :=
  match reserve_send flat_fee id (Some slate) 10 0 1000 None 0 20 state with
  | Ok r => r.(rsv_state)
  | Err _ => state
  end.
Definition cancel_state (slate : uuid) (state : WalletState) : WalletState :=
  default state (head (transaction_cancel state slate false).1).
Definition first_send : WalletState := send_state 21 31 spending_wallet.
Definition second_send : WalletState := send_state 22 32 (cancel_state 31 first_send).
Definition first_intent : LocalTransactionIntent :=
  cancelled_by_hand (new_intent 21 31 10 0 1000 100 [5] 20).
Definition second_intent : LocalTransactionIntent := new_intent 22 32 10 0 1000 100 [5] 20.
Definition second_input : OutputRecord :=
  reserved_for 22 (sample_output 5 Byte.x05 Out.Confirmed).

(** Every state on the way passes validation, and so does the state after the
    second cancellation, in which the input of the second send is selectable. *)
