(* ===== verification/SyncSink.v ===== *)
(** * The sink of the synchroniser

    [WalletRecoverySink] of crates/dom-wallet-core/src/lib.rs: the commit of one
    scan batch, which runs recovery, kernel evidence and expiry on a copy of the
    state and stores it as the next generation, as an instance of the interface
    [CoreScanTransactionSink] that the scan adapter (CoreSync) works against.
    The random identifiers and the randomness of the envelope are streams indexed
    by the number of commits so far, which the sink counts. *)

From stdpp Require Import sorting.
From S2P Require Import Prelude Bytes DomainTypes Lifecycle WalletOps Reservations Restore Validation.
From S2P Require Import CoreTypes Projection CoreSync Recovery Envelope Storage Spending.

Inductive StorageFailure :=
| LimitExceeded
| Transient
| FailedIo (kind : StErr.IoKind)
| FailedDomain (e : DErr.DomainError)
| OtherFailure.

Definition classify (error : StErr.StorageError) : StorageFailure :=
  match error with
  | StErr.StateTooLarge => LimitExceeded
  | StErr.ExpectedGenerationConflict _ | StErr.WriterActive => Transient
  | StErr.Io (StErr.Interrupted | StErr.TimedOut | StErr.WouldBlock) => Transient
  | StErr.Io kind => FailedIo kind
  | StErr.Domain domain => FailedDomain domain
  | _ => OtherFailure
  end.

Definition WALLET_STATE_STORAGE_LIMIT_EXCEEDED : string := "WALLET_STATE_STORAGE_LIMIT_EXCEEDED".
Definition WALLET_STORAGE_IO_FAILED : string := "WALLET_STORAGE_IO_FAILED".

(** The code (for I/O without the kind) and the error to surface. *)
Definition terminal_error (self : StorageFailure) : option (string * CErr.CoreError) :=
  match self with
  | Transient => None
  | LimitExceeded =>
      Some (WALLET_STATE_STORAGE_LIMIT_EXCEEDED, CErr.Storage StErr.StateTooLarge)
  | FailedIo kind => Some (WALLET_STORAGE_IO_FAILED, CErr.Storage (StErr.Io kind))
  | FailedDomain domain =>
      Some ("WALLET_STATE_VALIDATION_FAILED"%string, CErr.Storage (StErr.Domain domain))
  | OtherFailure => Some ("WALLET_STORAGE_FAILED"%string, CErr.Storage StErr.CanonicalEncoding)
  end.

Record WalletScanSinkError := mkWalletScanSinkError {
  wse_stage : ScanCommitStage;
  wse_source : CErr.CoreError;
}.

Record WalletRecoverySink := mkWalletRecoverySink {
  rs_directory : World;
  rs_state : WalletState;
  rs_password : bytes;
  rs_kdf : KdfParameters;
  rs_identity : CoreChainIdentity;
  rs_observed_tip_height : option N;
  rs_last_recovery_error : option RErr.SeedRestoreError;
  rs_last_generation_conflict : option N;
  rs_last_storage_failure : option StorageFailure;
  rs_encoding : StateEncoding;
  (** how many commits were tried *)
  rs_commits : nat;
}.
#[global] Instance WalletRecoverySink_fields : FieldList WalletRecoverySink := fun r =>
  mkWalletRecoverySink r.(rs_directory) r.(rs_state) r.(rs_password) r.(rs_kdf) r.(rs_identity)
    r.(rs_observed_tip_height) r.(rs_last_recovery_error) r.(rs_last_generation_conflict)
    r.(rs_last_storage_failure) r.(rs_encoding) r.(rs_commits).

(** A [BTreeSet] of kernel excesses, in its order. *)
Definition bytes_le (a b : bytes) : Prop := bytes_compare a b <> Gt.
#[global] Instance bytes_le_dec a b : Decision (bytes_le a b).
Proof. unfold bytes_le. destruct (bytes_compare a b); [left|left|right]; by try intros H. Defined.
Definition block_kernels (block : CoreScanBlock) : list bytes :=
  merge_sort bytes_le (remove_dups (map csk_excess block.(csb_kernels))).

(** The random values a sink may draw. *)
Class SinkRandom := {
  sink_fresh : nat -> nat -> uuid * uuid;
  sink_fresh_legacy : nat -> nat -> uuid * uuid;
  sink_seal_random : nat -> option (bytes * bytes);
}.

Section sink.
Context {codec : CoreCodec} {seed : RecoverySeed} {code : CryptoCode} {json : StateCode}.
Context {random : SinkRandom}.

Definition staged_error {A} (stage : ScanCommitStage) (r : result CErr.CoreError A)
    : result WalletScanSinkError A :=
  match r with Ok a => Ok a | Err e => Err (mkWalletScanSinkError stage e) end.

Definition apply_batch_kernels (block : CoreScanBlock) : method WalletState WalletScanSinkError unit :=
  fun next =>
  let '(next, r) := apply_kernel_evidence block.(csb_height) block.(csb_block_hash)
                      (block_kernels block) next in
  (next, staged_error KernelEvidence (from_domain r)).

(** The expiry of reservations, with the look-up its log message makes. *)
Definition expire_batch (tip_height : N) : method WalletState WalletScanSinkError unit := fun next =>
  let '(next, r) := cancel_expired_unfinalized_reservations tip_height next in
  (next, let? cancelled := staged_error ExpiryCleanup r in
         foldM (fun _ transaction_id =>
                  let? _ := staged_error ExpiryCleanup
                    (ok_or (find_first (fun t => t.(tx_id) =? transaction_id) next.(ws_transactions))
                           CErr.TransactionNotFound) in Ok tt) cancelled tt).

(** The cursor is stored; a restored wallet that has caught up is complete. *)
Definition store_cursor (cursor : CoreCursorBytes) (tip_height : N)
    : method WalletState WalletScanSinkError unit := fun next =>
  let next := next <| ws_core_scan_cursor := Some cursor.(cursor_bytes) |> in
  if bool_decide (next.(ws_seed_restore_status) = Some Seed.InProgress) then
    match cursor_decode cursor with
    | Err _ => (next, Err (mkWalletScanSinkError CursorEncode CErr.InvalidCoreCursor))
    | Ok decoded =>
        if tip_height <=? decoded.(wsc_anchor_height)
        then (next <| ws_seed_restore_status := Some Seed.Complete |>
                   <| ws_sync_status := Sync.Synced |>, Ok tt)
        else (next, Ok tt)
    end
  else (next, Ok tt).

(** What [commit] does to the copy of the state after recovery. *)
Definition settle_batch (batch : CoreScanBatch) (cursor : CoreCursorBytes)
    : method WalletState WalletScanSinkError unit :=
  let tip_height := batch.(cb_observed_tip).(br_height) in
  mfor batch.(cb_blocks) apply_batch_kernels ;;;
  expire_batch tip_height ;;;
  store_cursor cursor tip_height.

Definition rewind_batch (tip_height : N) (reorg : option CoreBlockReference)
    : method WalletState WalletScanSinkError unit := fun next =>
  match reorg with
  | None => (next, Ok tt)
  | Some anchor =>
      let '(next, r) := rewind_recovery_state anchor.(br_height) tip_height next in
      (next, match r with Ok u => Ok u | Err e => Err (mkWalletScanSinkError Rewind (CErr.Restore e)) end)
  end.

(** [WalletRecoverySink::commit] *)
Definition sink_commit (batch : CoreScanBatch) (cursor : CoreCursorBytes)
    (reorg : option CoreBlockReference) : method WalletRecoverySink WalletScanSinkError unit :=
  fun self =>
  let n := self.(rs_commits) in
  let self := self <| rs_commits ::= S |> in
  match rewind_batch batch.(cb_observed_tip).(br_height) reorg self.(rs_state) with
  | (_, Err e) => (self, Err e)
  | (next, Ok _) =>
      match apply_recovery_batch (sink_fresh n) (sink_fresh_legacy n)
              self.(rs_identity).(cci_coinbase_maturity) batch next with
      | (_, Err error) =>
          (self <| rs_last_recovery_error := Some error |>,
           Err (mkWalletScanSinkError RecoveryBatch (CErr.Restore error)))
      | (next, Ok _) =>
          match settle_batch batch cursor next with
          | (_, Err e) => (self, Err e)
          | (next, Ok _) =>
              let self := self <| rs_last_storage_failure := None |> in
              let '(directory, r) :=
                commit_with_encoding (sink_seal_random n) self.(rs_state).(ws_generation) next
                  self.(rs_password) self.(rs_kdf) self.(rs_encoding) self.(rs_directory) in
              let self := self <| rs_directory := directory |> in
              match r with
              | Err error =>
                  (self <| rs_last_storage_failure := Some (classify error) |>,
                   Err (mkWalletScanSinkError StorageCommit (CErr.Storage error)))
              | Ok state =>
                  (self <| rs_state := state |> <| rs_last_generation_conflict := None |>
                        <| rs_observed_tip_height := Some batch.(cb_observed_tip).(br_height) |>,
                   Ok tt)
              end
          end
      end
  end.

Definition sink_core_cursor_state (self : WalletRecoverySink)
    : result WalletScanSinkError PersistedCoreCursorState :=
  match self.(rs_state).(ws_core_scan_cursor) with
  | None => Ok Absent
  | Some b => match CoreCursorBytes_parse b self.(rs_identity) with
              | Ok c => Ok (Valid c)
              | Err _ => Err (mkWalletScanSinkError CursorEncode CErr.InvalidCoreCursor)
              end
  end.

Definition sink_committed_canonical_hash (self : WalletRecoverySink) (height : N)
    : result WalletScanSinkError (option bytes) :=
  Ok (rcb_block_hash <$> find_first (fun b => b.(rcb_height) =? height)
                                    self.(rs_state).(ws_recovery_canonical_blocks)).

Definition sink_recover_generation_conflict (error : WalletScanSinkError)
    : method WalletRecoverySink WalletScanSinkError bool := fun self =>
  match error.(wse_source) with
  | CErr.Storage (StErr.ExpectedGenerationConflict current) =>
      let self := self <| rs_last_generation_conflict := None |> in
      let '(directory, r) := load (sink_seal_random self.(rs_commits)) self.(rs_password)
                               self.(rs_directory) in
      let self := self <| rs_directory := directory |> in
      match r with
      | Err e => (self, Err (mkWalletScanSinkError StorageCommit (CErr.Storage e)))
      | Ok state =>
          (self <| rs_state := state |> <| rs_last_generation_conflict := Some current |>, Ok true)
      end
  | _ => (self <| rs_last_generation_conflict := None |>, Ok false)
  end.

(** The sink implements the interface of the scan adapter. *)
#[export] Instance wallet_recovery_sink : CoreScanTransactionSink WalletRecoverySink WalletScanSinkError := {|
  core_cursor_state := sink_core_cursor_state;
  committed_canonical_hash := sink_committed_canonical_hash;
  commit_core_batch batch cursor := sink_commit batch cursor None;
  commit_core_reorg safe_anchor batch cursor := sink_commit batch cursor (Some safe_anchor);
  persistence_stage := wse_stage;
  recover_generation_conflict := sink_recover_generation_conflict;
|}.

(** [committed_cursor_anchor] *)
Definition committed_cursor_anchor (state : WalletState) : option N :=
  match state.(ws_core_scan_cursor) with
  | None => None
  | Some b => match cursor_from_bytes b with
              | Ok cursor => Some cursor.(wsc_anchor_height)
              | Err _ => None
              end
  end.
End sink.

(** ** Lemmas: the batch *)

Section batch_lemmas.
Context {codec : CoreCodec} {seed : RecoverySeed} {random : SinkRandom}.

(** What a commit does to the copy of the state, before storing it. *)
Definition projected (n : nat) (maturity : N) (batch : CoreScanBatch) (cursor : CoreCursorBytes)
    (reorg : option CoreBlockReference) (s : WalletState) : option WalletState :=
  match rewind_batch batch.(cb_observed_tip).(br_height) reorg s with
  | (s1, Ok _) =>
      match apply_recovery_batch (sink_fresh n) (sink_fresh_legacy n) maturity batch s1 with
      | (s2, Ok _) => match settle_batch batch cursor s2 with
                      | (s3, Ok _) => Some s3
                      | _ => None
                      end
      | _ => None
      end
  | _ => None
  end.

Lemma kernel_loop_floors h b ks seen : moves floors_le (kernel_evidence_loop h b ks seen).
Proof.
  revert seen. induction ks as [|k ks IH]; intros seen s s' r; simpl.
  - intros [= <- _]. reflexivity.
  - case_bool_decide; [by intros [= <- _]|].
    destruct (positions _ _) as [|i [|]]; [apply IH| |by intros [= <- _]].
    revert s s' r. apply (moves_mthen floors_le); [|intros _; apply IH].
    intros s s' r. unfold at_transaction. destruct (ws_transactions s !! i) as [t|].
    + destruct (apply_kernel h b t) as [t' r']. intros [= <- _]. floors_kept.
    + by intros [= <- _].
Qed.

Lemma settle_floors batch cursor : moves floors_le (settle_batch batch cursor).
Proof.
  unfold settle_batch. apply (moves_mthen floors_le).
  { apply (moves_mfor floors_le). intros block s s' r. unfold apply_batch_kernels.
    destruct (apply_kernel_evidence _ _ _ s) as [s1 r1] eqn:E. intros [= <- _].
    by eapply kernel_loop_floors. }
  intros _. apply (moves_mthen floors_le).
  { intros s s' r. unfold expire_batch. rewrite cancel_expired_run. intros [= <- _]. floors_kept. }
  intros _ s s' r. unfold store_cursor.
  destruct (bool_decide _); [destruct (cursor_decode cursor) as [c|]; [destruct (_ <=? _)|]|];
    intros [= <- _]; floors_kept.
Qed.

Lemma settle_cursor batch cursor s s' u :
  settle_batch batch cursor s = (s', Ok u) -> s'.(ws_core_scan_cursor) = Some cursor.(cursor_bytes).
Proof.
  unfold settle_batch. intros H. apply mthen_Ok in H as (s1 & u1 & _ & H).
  apply mthen_Ok in H as (s2 & u2 & _ & H). unfold store_cursor in H.
  destruct (bool_decide _); [destruct (cursor_decode cursor) as [c|]; [destruct (_ <=? _)|]|];
    by injection H as <- _.
Qed.

Lemma settle_stage batch cursor s s' e :
  settle_batch batch cursor s = (s', Err e) -> e.(wse_stage) <> StorageCommit.
Proof.
  unfold settle_batch. intros [H|(s1 & u1 & _ & H)]%mthen_Err.
  { revert H. apply (mfor_Err (fun e => wse_stage e <> StorageCommit)). clear.
    intros block s s' e. unfold apply_batch_kernels.
    destruct (apply_kernel_evidence _ _ _ s) as [s1 [u|e1]]; simpl; [done|]. by intros [= _ <-]. }
  apply mthen_Err in H as [H|(s2 & u2 & _ & H)].
  - unfold expire_batch in H. rewrite cancel_expired_run in H. injection H as _ H.
    revert H. generalize (map tx_id (List.filter (expiring (br_height (cb_observed_tip batch))) (ws_transactions s1))).
    intros ids. generalize tt at 2. induction ids as [|id ids IH]; intros u; simpl; [done|].
    destruct (find_first _ _); simpl; [apply IH|]. by intros [= <-].
  - unfold store_cursor in H. destruct (bool_decide _); [|done].
    destruct (cursor_decode cursor) as [c|]; [by destruct (_ <=? _)|]. by injection H as _ <-.
Qed.

Lemma projected_spec n maturity batch cursor reorg s s' :
  projected n maturity batch cursor reorg s = Some s' ->
  floors_le s s' /\ s'.(ws_core_scan_cursor) = Some cursor.(cursor_bytes).
Proof.
  unfold projected. destruct (rewind_batch _ reorg s) as [s1 [u1|]] eqn:E1; [|done].
  destruct (apply_recovery_batch _ _ _ _ s1) as [s2 [u2|]] eqn:E2; [|done].
  destruct (settle_batch batch cursor s2) as [s3 [u3|]] eqn:E3; [|done]. intros [= <-].
  split; [|by eapply settle_cursor]. transitivity s1; [|transitivity s2].
  - unfold rewind_batch in E1. destruct reorg as [anchor|]; [|by injection E1 as <- _].
    destruct (recovery_never_lowers_floors (sink_fresh n) (sink_fresh_legacy n) maturity batch
                (br_height anchor) (br_height (cb_observed_tip batch)) s) as [_ Hf].
    destruct (rewind_recovery_state _ _ s). by injection E1 as <- _.
  - destruct (recovery_never_lowers_floors (sink_fresh n) (sink_fresh_legacy n) maturity batch
                0 0 s1) as [Hf _]. by rewrite E2 in Hf.
  - by eapply settle_floors.
Qed.
End batch_lemmas.

(** ** Theorems: the sink *)

Section sink_theorems.
Context {codec : CoreCodec} {seed : RecoverySeed} {code : CryptoCode} {json : StateCode}.
Context {random : SinkRandom} {claws : CryptoLaws code} {slaws : StateLaws json}.

(** The projection of a batch by a sink. *)
Definition sink_projected (batch : CoreScanBatch) (cursor : CoreCursorBytes)
    (reorg : option CoreBlockReference) (k : WalletRecoverySink) : option WalletState :=
  projected k.(rs_commits) k.(rs_identity).(cci_coinbase_maturity) batch cursor reorg k.(rs_state).

(** The sink's directory opens with its password to a state. *)
Definition sink_holds (k : WalletRecoverySink) (s : WalletState) : Prop :=
  published k.(rs_password) s k.(rs_directory).(w_disk).

(** Storing the projected state. *)
Definition sink_store (next : WalletState) (k : WalletRecoverySink)
    : World * result StErr.StorageError WalletState :=
  commit_with_encoding (sink_seal_random k.(rs_commits)) k.(rs_state).(ws_generation) next
    k.(rs_password) k.(rs_kdf) k.(rs_encoding) k.(rs_directory).

Lemma sink_commit_projected batch cursor reorg k next w r :
  sink_projected batch cursor reorg k = Some next -> sink_store next k = (w, r) ->
  exists k', sink_commit batch cursor reorg k
    = (k', match r with
           | Ok _ => Ok tt
           | Err e => Err (mkWalletScanSinkError StorageCommit (CErr.Storage e))
           end)
  /\ k'.(rs_directory) = w /\ k'.(rs_password) = k.(rs_password)
  /\ k'.(rs_state) = match r with Ok s => s | Err _ => k.(rs_state) end.
Proof.
  unfold sink_projected, projected, sink_store, sink_commit. intros H Hw.
  change (rs_state (k <| rs_commits ::= S |>)) with (rs_state k).
  change (rs_identity (k <| rs_commits ::= S |>)) with (rs_identity k).
  destruct (rewind_batch _ reorg (rs_state k)) as [s1 [u1|]]; [|done].
  destruct (apply_recovery_batch _ _ _ _ s1) as [s2 [u2|]]; [|done].
  destruct (settle_batch batch cursor s2) as [s3 [u3|]]; [|done]. injection H as ->.
  simpl. rewrite Hw. destruct r as [s|e]; eexists; (split; [reflexivity|]); done.
Qed.

Lemma sink_commit_refused batch cursor reorg k :
  sink_projected batch cursor reorg k = None ->
  exists k' e, sink_commit batch cursor reorg k = (k', Err e) /\ e.(wse_stage) <> StorageCommit
  /\ k'.(rs_directory) = k.(rs_directory) /\ k'.(rs_password) = k.(rs_password)
  /\ k'.(rs_state) = k.(rs_state).
Proof.
  unfold sink_projected, projected, sink_commit.
  change (rs_state (k <| rs_commits ::= S |>)) with (rs_state k).
  change (rs_identity (k <| rs_commits ::= S |>)) with (rs_identity k).
  assert (Hstage : forall e : WalletScanSinkError, wse_stage e <> StorageCommit -> exists k' e',
    (k <| rs_commits ::= S |>, Err (A := unit) e) = (k', Err e') /\ wse_stage e' <> StorageCommit
    /\ rs_directory k' = rs_directory k /\ rs_password k' = rs_password k /\ rs_state k' = rs_state k)
    by (intros e He; eexists _, _; split; [reflexivity|done]).
  destruct (rewind_batch _ reorg (rs_state k)) as [s1 [u1|e]] eqn:E1.
  2: { intros _. apply Hstage. unfold rewind_batch in E1. destruct reorg as [anchor|]; [|done].
       destruct (rewind_recovery_state _ _ _) as [? [|]]; simpl in E1; [done|by injection E1 as _ <-]. }
  destruct (apply_recovery_batch _ _ _ _ s1) as [s2 [u2|e]].
  2: { intros _. eexists _, _. split; [reflexivity|done]. }
  destruct (settle_batch batch cursor s2) as [s3 [u3|e]] eqn:E3; [done|]. intros _. apply Hstage.
  by eapply settle_stage.
Qed.

(** C4 A sink commit is atomic.  It succeeds only by storing the projection of
    the batch as the next generation: the sink then holds exactly that valid
    state, its directory opens to it, its cursor is the batch's and no
    allocation or recovery floor was lowered.  When it fails, at whatever stage
    and whatever file-system calls fail, the sink keeps its state and its
    directory opens to that state or to the projection; before the storage
    stage the directory was not touched at all. *)
Theorem sink_commits_are_atomic batch cursor reorg k k' r
    (Hholds : sink_holds k k.(rs_state)) (Htyped : typed_state k.(rs_state))
    (Hrun : sink_commit batch cursor reorg k = (k', r)) :
  match r with
  | Ok _ => exists next, sink_projected batch cursor reorg k = Some next
      /\ k'.(rs_state) = committed_state next k.(rs_state).(ws_generation)
      /\ WalletState_validate k'.(rs_state) = Ok tt
      /\ sink_holds k' k'.(rs_state) /\ typed_state k'.(rs_state)
      /\ k'.(rs_state).(ws_core_scan_cursor) = Some cursor.(cursor_bytes)
      /\ floors_le k.(rs_state) k'.(rs_state)
  | Err e => k'.(rs_state) = k.(rs_state)
      /\ (sink_holds k' k.(rs_state)
          \/ exists next, sink_projected batch cursor reorg k = Some next
             /\ sink_holds k' (committed_state next k.(rs_state).(ws_generation)))
      /\ (e.(wse_stage) <> StorageCommit -> k'.(rs_directory) = k.(rs_directory))
  end.
Proof.
  destruct (sink_projected batch cursor reorg k) as [next|] eqn:Hp.
  - destruct (sink_store next k) as [w r'] eqn:Hw. destruct Hholds as [m Hm].
    pose proof (triple_commit _ m _ _ _ _ _ _ _ _ _ Hw Hm) as Ht.
    destruct (sink_commit_projected _ _ _ _ _ _ _ Hp Hw) as (k1 & Hk & Hd & Hpw & Hs).
    rewrite Hk in Hrun. injection Hrun as <- <-. unfold sink_holds. rewrite Hd, Hpw.
    destruct r' as [s'|e].
    + destruct Ht as (-> & Hc & Hpub). rewrite Hs. exists next. split; [done|]. split; [done|].
      split; [apply Hc|]. split; [done|]. split; [by eapply committed_typed; [apply Hm|..]|].
      apply projected_spec in Hp as [Hf Hcur]. split; [exact Hcur|].
      transitivity next; [done|floors_kept].
    + split; [done|]. split; [|done]. destruct Ht as [Ho|[_ Hpub]]; [left; by exists m|right].
      by exists next.
  - destruct (sink_commit_refused _ _ _ _ Hp) as (k1 & e & Hk & He & Hd & Hpw & Hs).
    rewrite Hk in Hrun. injection Hrun as <- <-. unfold sink_holds. rewrite Hd, Hpw.
    split; [done|]. split; [by left|done].
Qed.

(** A sink that was left behind catches up.  When its directory opens to a
    state of another generation, as after a commit that moved the pointer and
    then failed, and no further call fails, the next commit reports exactly the
    generation conflict, and recovering from it reloads that state: the sink
    holds it, its directory is settled, and the retry loop goes on. *)
Theorem sink_recovers_from_conflicts batch cursor reorg k t next
    (Hholds : sink_holds k t) (Htyped : typed_state t)
    (Hclean : k.(rs_directory).(w_faults) = [])
    (Hbehind : t.(ws_generation) <> k.(rs_state).(ws_generation))
    (Hprojected : sink_projected batch cursor reorg k = Some next) :
  let conflict := mkWalletScanSinkError StorageCommit
                    (CErr.Storage (StErr.ExpectedGenerationConflict t.(ws_generation))) in
  exists k1 k2, sink_commit batch cursor reorg k = (k1, Err conflict)
  /\ k1.(rs_directory) = k.(rs_directory)
  /\ sink_recover_generation_conflict conflict k1 = (k2, Ok true)
  /\ k2.(rs_state) = t /\ sink_holds k2 t /\ k2.(rs_directory).(w_faults) = [].
Proof.
  intros conflict. destruct Hholds as [m Ho].
  assert (Hw : sink_store next k
    = (rs_directory k, Err (StErr.ExpectedGenerationConflict (ws_generation t)))).
  { unfold sink_store. destruct (rs_directory k) as [d faults]. simpl in *. subst faults.
    by apply stale_commit_refused with m. }
  destruct (sink_commit_projected _ _ _ _ _ _ _ Hprojected Hw) as (k1 & Hk & Hd & Hpw & Hs).
  destruct (load_again _ m _ _ (sink_seal_random (rs_commits k1)) Ho Htyped) as (w & Hl & Hf & Hpub).
  exists k1. eexists. split; [exact Hk|]. split; [exact Hd|].
  unfold sink_recover_generation_conflict. simpl. rewrite Hpw, Hd.
  destruct (rs_directory k) as [d faults] eqn:Edir. simpl in Hclean, Hl. subst faults. rewrite Hl.
  split; [reflexivity|]. split; [done|]. split; [|done]. unfold sink_holds. simpl. rewrite ?Hpw. exact Hpub.
Qed.
End sink_theorems.

(** ** Witnesses *)

#[export] Instance sample_draws : SinkRandom := {|
  sink_fresh n := sample_fresh (100 * N.of_nat (S n));
  sink_fresh_legacy n := sample_fresh (100 * N.of_nat (S n) + 50);
  sink_seal_random _ := sample_random;
|}.

(** A batch of two linked blocks with an output each, for a wallet that has
    scanned one. *)
Definition linked_block (h : N) (b previous : Byte.byte) : CoreScanBlock :=
  mkCoreScanBlock h (sample_bytes 32 b) (sample_bytes 32 previous) [] 1000 (sample_bytes 32 b)
    [mkCoreScanOutput (sample_bytes 33 b) [] [b] 1 false h (sample_bytes 32 b) 0] [] [] []
    (mkCoreCoinbaseMetadata (sample_bytes 33 Byte.x70) 50 [] 1 [] [] []) 0 2 1.
Definition linked_batch : CoreScanBatch :=
  mkCoreScanBatch (mkBlockReference 3 (sample_bytes 32 Byte.x83))
    [linked_block 2 Byte.x82 Byte.x81; linked_block 3 Byte.x83 Byte.x82] None.
Definition batch_cursor : CoreCursorBytes := mkCoreCursorBytes (zeros 86).
Definition batch_projection : WalletState :=
  from_option id recovering_wallet (projected 0 10 linked_batch batch_cursor None recovering_wallet).
#[export] Instance sink_json : StateCode :=
  sample_json [recovering_wallet; committed_state batch_projection 0].
#[export] Instance sink_json_laws : StateLaws sink_json := sample_json_laws _.

Definition sink_at (directory : World) : WalletRecoverySink :=
  mkWalletRecoverySink directory recovering_wallet sample_password DOM_CONTINUITY
    sample_core_identity None None None None CompactV2 0.
Definition scanning_world : World :=
  (publish_initial sample_random sample_random recovering_wallet sample_password DOM_CONTINUITY
     (mkWorld (mkDisk ∅ ∅) [])).1.
Definition committed_sink : WalletRecoverySink * result WalletScanSinkError unit :=
  sink_commit linked_batch batch_cursor None (sink_at scanning_world).
(** The pointer to the generation moves, and then a call fails. *)
Definition torn_sink : WalletRecoverySink * result WalletScanSinkError unit :=
  sink_commit linked_batch batch_cursor None
    (sink_at (mkWorld scanning_world.(w_disk) (replicate 20 Fine ++ [After StErr.OtherKind]))).
(** The same sink after its wallet was opened elsewhere. *)
Definition behind_sink : WalletRecoverySink :=
  torn_sink.1 <| rs_directory := (load None sample_password
                                    (mkWorld torn_sink.1.(rs_directory).(w_disk) [])).1 |>.

Lemma recovering_wallet_typed : typed_state recovering_wallet.
Proof. split; [done|]. split; [done|]. split; done. Qed.

Lemma sink_holds_loaded k s :
  (load None k.(rs_password) (mkWorld k.(rs_directory).(w_disk) [])
   = (mkWorld k.(rs_directory).(w_disk) [], Ok s)) -> sink_holds k s.
Proof. intros H. apply load_opens_with in H as [_ H]. exact H. Qed.

Lemma sink_commits_are_atomic_witness :
  committed_sink.2 = Ok tt /\ length committed_sink.1.(rs_state).(ws_outputs) = 2%nat
  /\ sink_holds committed_sink.1 committed_sink.1.(rs_state).
Proof.
  assert (Hholds : sink_holds (sink_at scanning_world) recovering_wallet)
    by (apply sink_holds_loaded; vm_compute; reflexivity).
  assert (E : committed_sink = (committed_sink.1, Ok tt)) by (vm_compute; reflexivity).
  destruct (sink_commits_are_atomic linked_batch batch_cursor None (sink_at scanning_world)
              committed_sink.1 (Ok tt) Hholds recovering_wallet_typed E) as (_ & _ & _ & _ & H & _).
  split; [by rewrite E|]. split; [vm_compute; reflexivity|exact H].
Defined.
