(* ===== verification/Service.v ===== *)
(** * The wallet service

    [WalletService] of crates/dom-wallet-core/src/lib.rs over its directory
    (Storage) and its backend (Backend): opening and locking, the commit every
    operation ends in, synchronisation passes, submission and reconciliation,
    cancellation, swap sessions and preferences.  An operation is a method on the
    service; the randomness of each commit is an argument.  Opening a path and
    stopping the node are arguments, too.  Sessions proves what they guarantee. *)

From stdpp Require Import sorting.
From S2P Require Import Prelude Bytes Codecs DomainTypes Lifecycle SwapSession WalletOps Validation.
From S2P Require Import CoreTypes CoreSync Recovery Envelope Storage Submission Fees Outputs Backend Spending SyncSink.

(** ** Answers and the transaction record *)

(** [transition(..)?] on a transaction. *)
Definition move (next : L.TransactionLifecycle) (ev : Ev.TransactionTransitionEvidence)
    : method LocalTransactionIntent CErr.CoreError unit := fun t =>
  let '(t, r) := transition_mut next ev t in (t, from_domain r).
Definition mark_submitted : method LocalTransactionIntent CErr.CoreError unit :=
  massign (fun t => t <| tx_submitted := true |>).

Definition apply_submission_outcome (outcome : WOut.WalletSubmissionOutcome)
    : method LocalTransactionIntent CErr.CoreError unit :=
  match outcome with
  | WOut.Accepted evidence =>
      mark_submitted ;;;
      move (if evidence.(ev_relayed) then L.Submitted else L.AcceptedNotRelayed) Ev.SubmissionOutcome
  | WOut.AlreadyKnown _ => mark_submitted ;;; move L.InMempool Ev.MempoolObservation
  | WOut.NodeNotReady _ | WOut.TemporaryFailure _ | WOut.InternalFailure _ =>
      move L.RetransmitRequired Ev.SubmissionOutcome
  | WOut.RejectedInvalid _ | WOut.RejectedFee _ | WOut.RejectedDoubleSpend _
  | WOut.RejectedImmatureCoinbase _ | WOut.RejectedExpired _ | WOut.RejectedPolicy _ =>
      move L.Failed Ev.SubmissionOutcome
  end.

Definition apply_submission_query (query : Query.WalletSubmissionQuery)
    (status : option WStatus.WalletTransactionStatus)
    : method LocalTransactionIntent CErr.CoreError unit :=
  match query with
  | Query.InMempool outcome =>
      apply_submission_outcome outcome ;;;
      mark_submitted ;;;
      move L.InMempool Ev.MempoolObservation
  | Query.Confirmed height block_hash _ =>
      mark_submitted ;;;
      move (L.Confirmed height block_hash) Ev.ConfirmationEvidence
  | Query.Rejected outcome | Query.TemporarilyUnavailable outcome => apply_submission_outcome outcome
  | Query.Unknown =>
      match status with
      | Some (WStatus.Confirmed height block_hash) =>
          mark_submitted ;;;
          move (L.Confirmed height block_hash) Ev.ConfirmationEvidence
      | Some WStatus.InMempool => mark_submitted ;;; move L.InMempool Ev.MempoolObservation
      | Some WStatus.Unknown => fun t =>
          if is_confirmed t.(tx_lifecycle) then move L.Reorged Ev.ReorgEvidence t
          else move L.ReconciliationRequired Ev.ReconciliationEvidence t
      | None => move L.ReconciliationRequired Ev.ReconciliationEvidence
      end
  end.

(** ** Summaries *)

Record TransactionSummary := mkTransactionSummary {
  sum_id : uuid;
  sum_slate_id : option uuid;
  sum_created_at_height : option N;
  sum_created_at_unix_seconds : option N;
  sum_role : option string;
  sum_state : string;
  sum_amount : N;
  sum_fee : N;
  sum_kernel_excess : option bytes;
  sum_transaction_hash : option bytes;
  sum_attempt_count : N;
  sum_expires_at_height : N;
  sum_has_finalized_transaction : bool;
  sum_manual_cancel_allowed : bool;
  sum_manual_cancel_warning : bool;
  sum_awaiting_broadcast_confirmation : bool;
  sum_cancellation_reason : option string;
  sum_cancelled_at_height : option N;
}.

Definition transaction_state_name (state : L.TransactionLifecycle) : string :=
  match state with
  | L.Draft => "DRAFT"
  | L.InputsReserved => "INPUTS_RESERVED"
  | L.RequestExported => "REQUEST_EXPORTED"
  | L.RequestImported => "REQUEST_IMPORTED"
  | L.ResponsePrepared => "RESPONSE_PREPARED"
  | L.ResponseExported => "RESPONSE_EXPORTED"
  | L.ResponseImported => "RESPONSE_IMPORTED"
  | L.Finalized => "FINALIZED"
  | L.Submitting => "SUBMITTING"
  | L.Submitted => "SUBMITTED"
  | L.AcceptedNotRelayed => "ACCEPTED_NOT_RELAYED"
  | L.InMempool => "IN_MEMPOOL"
  | L.Confirmed _ _ => "CONFIRMED"
  | L.Reorged => "REORGED"
  | L.RetransmitRequired => "RETRANSMIT_REQUIRED"
  | L.Cancelled => "CANCELLED"
  | L.Failed => "FAILED"
  | L.ReconciliationRequired => "RECONCILIATION_REQUIRED"
  end.

(** [matches!(lifecycle, Cancelled | Confirmed { .. })] *)
Definition settled (l : L.TransactionLifecycle) : bool :=
  match l with L.Cancelled | L.Confirmed _ _ => true | _ => false end.
(** The states in which the summary does not offer to cancel. *)
Definition beyond_cancelling (l : L.TransactionLifecycle) : bool :=
  match l with
  | L.Cancelled | L.Confirmed _ _ | L.Submitting | L.Submitted | L.AcceptedNotRelayed
  | L.InMempool | L.Reorged | L.RetransmitRequired | L.ReconciliationRequired => true
  | _ => false
  end.
(** [(value != 0).then_some(value)] *)
Definition nonzero (value : N) : option N := if value =? 0 then None else Some value.

Definition transaction_summary_from (transaction : LocalTransactionIntent) : TransactionSummary :=
  let never := bool_decide (transaction.(tx_exposure) = Exp.NeverBroadcast) in
  let finalized := negb (is_empty transaction.(tx_finalized_transaction_bytes)) in
  mkTransactionSummary transaction.(tx_id) transaction.(tx_slate_id)
    (nonzero transaction.(tx_created_at_height)) (nonzero transaction.(tx_created_at_unix_seconds))
    (match transaction.(tx_role) with
     | Some Role.Sender => Some "SENDER"%string
     | Some Role.Recipient => Some "RECIPIENT"%string
     | None => None
     end)
    (transaction_state_name transaction.(tx_lifecycle)) transaction.(tx_amount) transaction.(tx_fee)
    (if len transaction.(tx_kernel_excess) =? 33 then Some (hex transaction.(tx_kernel_excess)) else None)
    (hex <$> transaction.(tx_transaction_hash)) transaction.(tx_attempt_count)
    transaction.(tx_expires_at_height) finalized
    (never && negb (beyond_cancelling transaction.(tx_lifecycle)))
    (finalized && never && negb (settled transaction.(tx_lifecycle)))
    (finalized && negb (settled transaction.(tx_lifecycle)))
    (match transaction.(tx_cancellation_reason) with
     | Some CancReason.Manual => Some "MANUAL"%string
     | Some CancReason.ExpiredBeforeFinalization => Some "EXPIRED_BEFORE_FINALIZATION"%string
     | None => None
     end)
    transaction.(tx_cancelled_at_height).

Record WalletSummary := mkWalletSummary {
  wsm_wallet_id : uuid;
  wsm_network : Net.Network;
  wsm_generation : N;
  wsm_cursor_height : option N;
  wsm_tip_height : option N;
  wsm_seed_restore_status : option string;
  wsm_balance : BalanceProjection;
  wsm_state : string;
  wsm_experimental : bool;
  wsm_unaudited : bool;
}.

Module App.
Inductive ApplicationState :=
| Closed | Locked | Unlocking | Unlocked | Synchronizing
| Degraded (reason : string) | Error (reason : string).
#[global] Instance ApplicationState_eq_dec : EqDecision ApplicationState.
Proof. solve_decision. Defined.
End App.

Definition application_state_name (state : App.ApplicationState) : string :=
  match state with
  | App.Closed => "CLOSED"
  | App.Locked => "LOCKED"
  | App.Unlocking => "UNLOCKING"
  | App.Unlocked => "READY"
  | App.Synchronizing => "SYNCHRONIZING"
  | App.Degraded _ => "DEGRADED"
  | App.Error _ => "ERROR"
  end.
Definition seed_restore_status_name (status : Seed.SeedRestoreStatus) : string :=
  match status with Seed.InProgress => "in_progress" | Seed.Complete => "complete" end.

Definition summary_from_state {codec : CoreCodec} (state : WalletState) (application_state : string)
    (observed_tip_height : option N) : WalletSummary :=
  mkWalletSummary state.(ws_wallet_id) state.(ws_identity).(ni_network) state.(ws_generation)
    (committed_cursor_anchor state) observed_tip_height
    (seed_restore_status_name <$> state.(ws_seed_restore_status)) (balance state) application_state
    true true.

(** Whether a manual refund may be broadcast. *)
Module Gate.
Inductive SwapRefundGate :=
| NothingLocked | AlreadyTerminal | NotYetUnlocked (unlock_unix : N) | RefundUnknown | Broadcastable.
End Gate.

(** ** The service *)

Record ErrorDomainSnapshot := mkErrorDomainSnapshot {
  eds_authentication : option string;
  eds_storage : option string;
  eds_lifecycle : option string;
  eds_node : option string;
  eds_peer_bootstrap : option string;
  eds_synchronization : option string;
  eds_mining : option string;
  eds_submission : option string;
  eds_updater : option string;
}.
#[global] Instance ErrorDomainSnapshot_fields : FieldList ErrorDomainSnapshot := fun r =>
  mkErrorDomainSnapshot r.(eds_authentication) r.(eds_storage) r.(eds_lifecycle) r.(eds_node)
    r.(eds_peer_bootstrap) r.(eds_synchronization) r.(eds_mining) r.(eds_submission) r.(eds_updater).
Definition no_errors : ErrorDomainSnapshot :=
  mkErrorDomainSnapshot None None None None None None None None None.

Record WalletService (W : Type) := mkWalletService {
  sv_location : option World;
  sv_metadata : option WalletMetadata;
  sv_state : App.ApplicationState;
  sv_unlocked : option WalletState;
  sv_password : option bytes;
  sv_kdf : KdfParameters;
  sv_backend : option (ProductionWalletBackend W);
  sv_sender_secrets : option (uuid * RecoverableSenderParts);
  sv_errors : ErrorDomainSnapshot;
  sv_observed_tip_height : option N;
  sv_state_encoding : StateEncoding;
}.
Arguments mkWalletService {W}.
Arguments sv_location {W}.
Arguments sv_metadata {W}.
Arguments sv_state {W}.
Arguments sv_unlocked {W}.
Arguments sv_password {W}.
Arguments sv_kdf {W}.
Arguments sv_backend {W}.
Arguments sv_sender_secrets {W}.
Arguments sv_errors {W}.
Arguments sv_observed_tip_height {W}.
Arguments sv_state_encoding {W}.
#[global] Instance WalletService_fields {W} : FieldList (WalletService W) := fun r =>
  mkWalletService r.(sv_location) r.(sv_metadata) r.(sv_state) r.(sv_unlocked) r.(sv_password)
    r.(sv_kdf) r.(sv_backend) r.(sv_sender_secrets) r.(sv_errors) r.(sv_observed_tip_height)
    r.(sv_state_encoding).

Definition WalletService_default {W} : WalletService W :=
  mkWalletService None None App.Closed None None DOM_CONTINUITY None None no_errors None CompactV2.

Definition map_network (network : CNet.CoreNetwork) : Net.Network :=
  match network with
  | CNet.Mainnet => Net.Mainnet
  | CNet.Testnet => Net.PublicTestnet
  | CNet.Regtest => Net.PrivateTestnet
  end.
Definition require_domain_identity (expected : NetworkIdentity) (core : CoreChainIdentity)
    : result CErr.CoreError unit :=
  fail_if (negb (bool_decide (expected.(ni_network) = map_network core.(cci_network)))
           || negb (bool_decide (expected.(ni_chain_id) = core.(cci_chain_id)))
           || negb (bool_decide (expected.(ni_genesis_id) = core.(cci_genesis_hash))))
          CErr.IdentityMismatch.

Definition MAINNET_CHAIN_ID_HEX : bytes :=
  str "f9831fadabc8a4234beab35fbb6327e84581645f33e9f75ed2ea78e8bcf1165b".
Definition MAINNET_GENESIS_HASH_HEX : bytes :=
  str "182e10af28e7ec072f462e6044f580dc9dd8c866cb78dfc293bbfaee4e9325ce".
Definition require_mainnet_identity (identity : NetworkIdentity) : result CErr.CoreError unit :=
  fail_if (negb (bool_decide (identity.(ni_network) = Net.Mainnet))
           || negb (bool_decide (hex identity.(ni_chain_id) = MAINNET_CHAIN_ID_HEX))
           || negb (bool_decide (hex identity.(ni_genesis_id) = MAINNET_GENESIS_HASH_HEX)))
          CErr.IdentityMismatch.
Definition require_canonical_mainnet_when_applicable (identity : NetworkIdentity)
    : result CErr.CoreError unit :=
  if bool_decide (identity.(ni_network) = Net.Mainnet) then require_mainnet_identity identity
  else Ok tt.
Definition validate_password (password : bytes) : result CErr.CoreError unit :=
  fail_if (negb ((8 <=? len password) && (len password <=? 1024))) CErr.InvalidPassword.

(** The errors of other components, wrapped by the question mark. *)
Definition from_storage {A} (r : result StErr.StorageError A) : result CErr.CoreError A :=
  match r with Ok a => Ok a | Err e => Err (CErr.Storage e) end.
Definition from_backend {A} (r : result PBErr.ProductionBackendError A) : result CErr.CoreError A :=
  match r with Ok a => Ok a | Err e => Err (CErr.Backend e) end.

Definition redacted_code (self : CErr.CoreError) : string :=
  match self with
  | CErr.WalletNotOpen => "WALLET_NOT_OPEN"
  | CErr.Locked => "WALLET_LOCKED"
  | CErr.InvalidLifecycleState => "INVALID_WALLET_STATE"
  | CErr.InvalidPassword => "INVALID_PASSWORD"
  | CErr.RandomnessUnavailable => "RANDOMNESS_UNAVAILABLE"
  | CErr.RecoveryCeremonyRequired => "RECOVERY_CONFIRMATION_REQUIRED"
  | CErr.RecoveryPhraseAlreadyConfirmed => "RECOVERY_PHRASE_ALREADY_CONFIRMED"
  | CErr.RecoveryPhraseInvalid => "RECOVERY_PHRASE_INVALID"
  | CErr.RecoveryUnavailable => "RECOVERY_UNAVAILABLE"
  | CErr.InvalidBackupDestination => "BACKUP_DESTINATION_INVALID"
  | CErr.EmbeddedCoreRequired => "EMBEDDED_NODE_REQUIRED"
  | CErr.NodeNotReady => "EMBEDDED_NODE_NOT_READY"
  | CErr.IdentityMismatch => "CHAIN_IDENTITY_MISMATCH"
  | CErr.AddressIdentityRequired => "ADDRESS_IDENTITY_REQUIRED"
  | CErr.InvalidTransactionInput => "TRANSACTION_INPUT_INVALID"
  | CErr.TransactionExpired => "TRANSACTION_EXPIRED"
  | CErr.TransactionLifetimeExceeded => "TRANSACTION_LIFETIME_EXCEEDED"
  | CErr.InsufficientFunds => "INSUFFICIENT_FUNDS"
  | CErr.UnsupportedSpendingEvidence => "SPENDING_EVIDENCE_UNSUPPORTED"
  | CErr.FeeTooLow => "FEE_TOO_LOW"
  | CErr.ArithmeticOverflow => "ARITHMETIC_OVERFLOW"
  | CErr.ReservationConflict => "OUTPUT_RESERVATION_CONFLICT"
  | CErr.InvalidScriptlessFundingRequest => "SCRIPTLESS_FUNDING_REQUEST_INVALID"
  | CErr.ScriptlessFundingSessionConflict => "SCRIPTLESS_FUNDING_SESSION_CONFLICT"
  | CErr.ScriptlessFundingShapeMismatch => "SCRIPTLESS_FUNDING_SHAPE_MISMATCH"
  | CErr.ScriptlessFundingReservationNotFound => "SCRIPTLESS_FUNDING_RESERVATION_NOT_FOUND"
  | CErr.ScriptlessFundingNotPrepared => "SCRIPTLESS_FUNDING_NOT_PREPARED"
  | CErr.ScriptlessFundingCannotExport => "SCRIPTLESS_FUNDING_CANNOT_EXPORT"
  | CErr.ScriptlessFundingSigningNotAuthorized => "SCRIPTLESS_FUNDING_SIGNING_NOT_AUTHORIZED"
  | CErr.ScriptlessFundingContextMismatch => "SCRIPTLESS_FUNDING_CONTEXT_MISMATCH"
  | CErr.ScriptlessFundingCannotRelease => "SCRIPTLESS_FUNDING_CANNOT_RELEASE"
  | CErr.ScriptlessSessionBindingRequired => "SCRIPTLESS_SESSION_BINDING_REQUIRED"
  | CErr.ScriptlessSessionBindingMismatch => "SCRIPTLESS_SESSION_BINDING_MISMATCH"
  | CErr.ScriptlessTemplateBindingMismatch => "SCRIPTLESS_TEMPLATE_BINDING_MISMATCH"
  | CErr.InvalidScriptlessPayoutRequest => "SCRIPTLESS_PAYOUT_REQUEST_INVALID"
  | CErr.ScriptlessPayoutSessionConflict => "SCRIPTLESS_PAYOUT_SESSION_CONFLICT"
  | CErr.ScriptlessPayoutReservationNotFound => "SCRIPTLESS_PAYOUT_RESERVATION_NOT_FOUND"
  | CErr.ScriptlessPayoutNotPrepared => "SCRIPTLESS_PAYOUT_NOT_PREPARED"
  | CErr.ScriptlessPayoutCannotExport => "SCRIPTLESS_PAYOUT_CANNOT_EXPORT"
  | CErr.ScriptlessPayoutContextMismatch => "SCRIPTLESS_PAYOUT_CONTEXT_MISMATCH"
  | CErr.ScriptlessPayoutSigningNotAuthorized => "SCRIPTLESS_PAYOUT_SIGNING_NOT_AUTHORIZED"
  | CErr.ScriptlessPayoutCannotRelease => "SCRIPTLESS_PAYOUT_CANNOT_RELEASE"
  | CErr.InvalidSlateTransport => "SLATE_V4_TRANSPORT_INVALID"
  | CErr.SlateReplayConflict => "SLATE_REPLAY_CONFLICT"
  | CErr.InvalidTransactionTransition => "TRANSACTION_STATE_INVALID"
  | CErr.MissingPrivateContext => "SLATE_PRIVATE_CONTEXT_MISSING"
  | CErr.ProtocolRejected => "PROTOCOL_REJECTED"
  | CErr.CoverPolicyRejected => "COVER_POLICY_REJECTED"
  | CErr.FinalizedTransactionConflict => "FINALIZED_TRANSACTION_CONFLICT"
  | CErr.MixedOutputRegime => "MIXED_OUTPUT_REGIME"
  | CErr.CannotCancelTransaction => "TRANSACTION_CANNOT_CANCEL"
  | CErr.ConfirmationRequired => "CONFIRMATION_REQUIRED"
  | CErr.TransactionNotFound => "TRANSACTION_NOT_FOUND"
  | CErr.InvalidCoreCursor => "CURSOR_INVALID"
  | CErr.Storage StErr.WriterActive => "WALLET_WRITER_ACTIVE"
  | CErr.Storage (StErr.ExpectedGenerationConflict _) => "WALLET_STORAGE_GENERATION_CONFLICT"
  | CErr.Storage StErr.InvalidPassword => "INVALID_PASSWORD"
  | CErr.Storage StErr.AuthenticationDataCorrupt => "WALLET_AUTH_DATA_CORRUPT"
  | CErr.Storage StErr.AuthenticatedPayloadCorrupt => "WALLET_PAYLOAD_CORRUPT"
  | CErr.Storage StErr.InvalidMetadata => "WALLET_METADATA_CORRUPT"
  | CErr.Storage StErr.NotFound => "WALLET_NOT_FOUND"
  | CErr.Storage StErr.StateTooLarge => WALLET_STATE_STORAGE_LIMIT_EXCEEDED
  | CErr.Storage (StErr.Io _) => WALLET_STORAGE_IO_FAILED
  | CErr.Storage (StErr.Domain _) => "WALLET_STATE_VALIDATION_FAILED"
  | CErr.Storage _ => "WALLET_STORAGE_FAILED"
  | CErr.Domain DErr.SwapSessionNotFound => "SWAP_SESSION_NOT_FOUND"
  | CErr.Domain DErr.InvalidSwapTransition => "SWAP_TRANSITION_INVALID"
  | CErr.Domain _ => "WALLET_STATE_VALIDATION_FAILED"
  | CErr.Backend _ => "EMBEDDED_NODE_OPERATION_FAILED"
  | CErr.Protocol _ => "PROTOCOL_VALIDATION_FAILED"
  | CErr.Recovery _ => "RECOVERY_MATERIAL_FAILED"
  | CErr.Restore _ => "RESTORE_FAILED"
  | CErr.Submission _ => "TRANSACTION_SUBMISSION_FAILED"
  end.

(** The randomness of one envelope. *)
Abbreviation draw := (option (bytes * bytes)).

Section service.
Context {W : Type} {codec : CoreCodec} {code : CryptoCode} {json : StateCode}.
Context {scan : WalletCoreApi W} {api : WalletSubmissionApi W} {fee_api : WalletFeeApi W}.
(** [CanonicalWalletSeed::from_entropy] *)
Context (from_entropy : bytes -> option RecoverySeed).

Abbreviation service := (WalletService W).
Abbreviation op := (method service CErr.CoreError).

(** A fallible value. *)
Definition try {A} (r : result CErr.CoreError A) : op A := mread (fun _ => r).
(** [self.unlocked.as_ref().ok_or(CoreError::Locked)?] *)
Definition unlocked_state : op WalletState := mread (fun self => ok_or self.(sv_unlocked) CErr.Locked).
Definition the_backend : op (ProductionWalletBackend W) :=
  mread (fun self => ok_or self.(sv_backend) CErr.EmbeddedCoreRequired).

Definition password_text (self : service) : result CErr.CoreError bytes :=
  let? password := ok_or self.(sv_password) CErr.Locked in
  fail_if (negb (is_utf8 password)) CErr.InvalidPassword ;? Ok password.
Definition ensure_phrase_confirmed : op unit :=
  let! state := unlocked_state in
  try (fail_if (negb (is_some_and state.(ws_recovery) rm_phrase_confirmed)) CErr.RecoveryCeremonyRequired).
Definition ensure_closed : op unit :=
  mread (fun self => fail_if (negb (bool_decide (self.(sv_state) = App.Closed))) CErr.InvalidLifecycleState).

(** A call of the directory. *)
Definition on_directory {A} (m : io A) : op A := fun self =>
  match self.(sv_location) with
  | None => (self, Err CErr.WalletNotOpen)
  | Some directory =>
      let '(directory, r) := m directory in
      (self <| sv_location := Some directory |>, from_storage r)
  end.
(** A call of the backend. *)
Definition on_backend {A} (m : method (ProductionWalletBackend W) PBErr.ProductionBackendError A)
    : op A := fun self =>
  match self.(sv_backend) with
  | None => (self, Err CErr.EmbeddedCoreRequired)
  | Some backend =>
      let '(backend, r) := m backend in
      (self <| sv_backend := Some backend |>, from_backend r)
  end.

Definition commit (random : draw) (state : WalletState) : op unit :=
  let! current := unlocked_state in
  let! _ := mread (fun self => ok_or self.(sv_location) CErr.WalletNotOpen) in
  let! password := mread password_text in
  let! config := mread (fun self => Ok (self.(sv_kdf), self.(sv_state_encoding))) in
  let! committed := on_directory (commit_with_encoding random current.(ws_generation) state password
                                    config.1 config.2) in
  let! m := on_directory metadata in
  massign (fun self => self <| sv_metadata := Some m |>) ;;;
  massign (fun self => self <| sv_unlocked := Some committed |>).

(** *** Opening, unlocking, locking *)

Definition summary : op WalletSummary := mread (fun self =>
  let? state := ok_or self.(sv_unlocked) CErr.Locked in
  Ok (summary_from_state state (application_state_name self.(sv_state)) self.(sv_observed_tip_height))).
Definition summary_locked : op WalletSummary := mread (fun self =>
  let? m := ok_or self.(sv_metadata) CErr.WalletNotOpen in
  Ok (mkWalletSummary m.(wm_wallet_id) m.(wm_identity).(ni_network) m.(wm_active_generation) None
        self.(sv_observed_tip_height) None (mkBalanceProjection 0 0 0 0 0 0 0)
        (application_state_name self.(sv_state)) true true)).

(** [directory] is [WalletDirectory::open(path)]. *)
Definition service_open (directory : result StErr.StorageError World) : op WalletSummary :=
  ensure_closed ;;;
  fun self => match directory with
  | Err e => (self, Err (CErr.Storage e))
  | Ok directory =>
      let '(directory, r) := metadata directory in
      match r with
      | Err e => (self, Err (CErr.Storage e))
      | Ok m =>
          match match self.(sv_backend) with
                | Some backend =>
                    require_canonical_mainnet_when_applicable m.(wm_identity) ;?
                    require_domain_identity m.(wm_identity) backend.(pb_identity)
                | None => Ok tt
                end with
          | Err e => (self, Err e)
          | Ok _ =>
              summary_locked (self <| sv_metadata := Some m |> <| sv_location := Some directory |>
                                   <| sv_state := App.Locked |>)
          end
      end
  end.

(** The closure of [unlock]. *)
Definition unlock_inner (random : draw) (password : bytes) : op WalletSummary :=
  try (fail_if (is_empty password || (4096 <? len password)) CErr.InvalidPassword) ;;;
  let! state := on_directory (load random password) in
  let! backend := mread (fun self => Ok self.(sv_backend)) in
  try (match backend with
       | Some backend =>
           require_canonical_mainnet_when_applicable state.(ws_identity) ;?
           require_domain_identity state.(ws_identity) backend.(pb_identity)
       | None => Ok tt
       end) ;;;
  massign (fun self => self <| sv_password := Some password |> <| sv_unlocked := Some state |>
                            <| sv_state := App.Unlocked |>) ;;;
  summary.

Definition unlock (random : draw) (password : bytes) : op WalletSummary :=
  mread (fun self => fail_if (negb (bool_decide (self.(sv_state) = App.Locked)))
                             CErr.InvalidLifecycleState) ;;;
  massign (fun self => self <| sv_state := App.Unlocking |>) ;;;
  fun self =>
    let '(self, r) := unlock_inner random password self in
    match r with
    | Err error =>
        (self <| sv_state := App.Locked |>
              <| sv_errors ::= (fun e => e <| eds_authentication := Some (redacted_code error) |>) |>,
         Err error)
    | Ok summary =>
        (self <| sv_errors ::= (fun e => e <| eds_authentication := None |>) |>, Ok summary)
    end.

Definition lock : op unit :=
  mread (fun self => fail_if (negb (is_some self.(sv_location))) CErr.WalletNotOpen) ;;;
  massign (fun self => self <| sv_sender_secrets := None |> <| sv_unlocked := None |>
                            <| sv_password := None |> <| sv_state := App.Locked |>).

(** [shutdown] is the outcome of stopping the backend. *)
Definition close (shutdown : result PBErr.ProductionBackendError unit) : op unit :=
  (fun self => if is_some self.(sv_location) then lock self else (self, Ok tt)) ;;;
  (fun self => match self.(sv_backend) with
               | None => (self, Ok tt)
               | Some _ => (self <| sv_backend := None |>, from_backend shutdown)
               end) ;;;
  massign (fun self => self <| sv_location := None |> <| sv_metadata := None |>
                            <| sv_state := App.Closed |>).

Definition attach_backend (backend : ProductionWalletBackend W) : op (string * Net.Network * N) :=
  mread (fun self => fail_if (is_some self.(sv_backend)) CErr.InvalidLifecycleState) ;;;
  mread (fun self => match self.(sv_unlocked) with
                     | Some state => require_domain_identity state.(ws_identity) backend.(pb_identity)
                     | None => Ok tt
                     end) ;;;
  fun self =>
    let '(backend, r) := backend_current_identity backend in
    match from_backend r with
    | Err e => (self, Err e)
    | Ok identity =>
        let tip_height := identity.(cci_current_tip).(br_height) in
        (self <| sv_backend := Some backend |> <| sv_observed_tip_height := Some tip_height |>,
         Ok (if is_embedded backend then PRODUCTION_BACKEND_KIND else REMOTE_BACKEND_KIND,
             map_network identity.(cci_network), tip_height))
    end.

(** *** Synchronisation *)

Inductive SyncPass := OnePage | ToTip.

Definition CURSOR_SYNCHRONIZATION_FAILED : string := "CURSOR_SYNCHRONIZATION_FAILED".
Definition record_sync_failure (self : service) : service :=
  self <| sv_errors ::= (fun e => e <| eds_synchronization := Some CURSOR_SYNCHRONIZATION_FAILED |>) |>
       <| sv_state := App.Unlocked |>.
Definition finish_sync_failure (error : PBErr.ProductionBackendError) (self : service) : service :=
  if is_transient_sync_unavailability error then self <| sv_state := App.Unlocked |>
  else record_sync_failure self.

(** The reconciliation of a pass over a sink; [None] is fuel running out. *)
Definition reconcile_pass {random : SinkRandom} {seed : RecoverySeed} (pass : SyncPass) (fuel : nat)
    : method (ProductionWalletBackend W * WalletRecoverySink) PBErr.ProductionBackendError
        (option CoreReconcileResult) :=
  match pass with
  | OnePage => let! result := reconcile_page in mret (Some result)
  | ToTip => backend_reconcile_once fuel
  end.

(** What [run_sync_pass] does with the sink once reconciliation has ended. *)
Definition finish_pass (result : result PBErr.ProductionBackendError (option CoreReconcileResult))
    (sink : WalletRecoverySink) : op (option WalletSummary) := fun self =>
  match result with
  | Ok done =>
      (massign (fun self => self <| sv_errors ::= (fun e => e <| eds_synchronization := None |>) |>) ;;;
       let! m := on_directory metadata in
       massign (fun self => self <| sv_metadata := Some m |> <| sv_state := App.Unlocked |>) ;;;
       let! s := summary in
       mret (match done with Some _ => Some s | None => None end)) self
  | Err error =>
      match sink.(rs_last_storage_failure) ≫= terminal_error with
      | Some (storage_code, storage_error) =>
          (self <| sv_errors ::= (fun e => e <| eds_synchronization := Some storage_code |>) |>
                <| sv_state := App.Unlocked |>, Err storage_error)
      | None =>
          (finish_sync_failure error self,
           Err (match sink.(rs_last_generation_conflict), sink.(rs_last_recovery_error) with
                | Some current, _ => CErr.Storage (StErr.ExpectedGenerationConflict current)
                | None, Some error => CErr.Restore error
                | None, None => CErr.Backend error
                end))
      end
  end.

(** The checks of [run_sync_pass] before it takes the state and the backend. *)
Record PassSetup := mkPassSetup {
  ps_state : WalletState;
  ps_seed : RecoverySeed;
  ps_identity : CoreChainIdentity;
  ps_location : World;
  ps_password : bytes;
  ps_backend : ProductionWalletBackend W;
}.
Definition prepare_pass : op PassSetup :=
  let! ready := on_backend is_ready in
  try (fail_if (negb ready) CErr.NodeNotReady) ;;;
  let! state := unlocked_state in
  let! seed := try (ok_or (from_entropy state.(ws_root_material)) CErr.RecoveryPhraseInvalid) in
  let! identity := on_backend backend_current_identity in
  try (require_domain_identity state.(ws_identity) identity) ;;;
  mread (fun self =>
    let? location := ok_or self.(sv_location) CErr.WalletNotOpen in
    let? password := password_text self in
    let? backend := ok_or self.(sv_backend) CErr.EmbeddedCoreRequired in
    let? state := ok_or self.(sv_unlocked) CErr.Locked in
    Ok (mkPassSetup state seed identity location password backend)).

(** [run_sync_pass]; the pass to the tip follows a chain that may grow for ever,
    so it has fuel, and [None] is fuel running out. *)
Definition run_sync_pass (random : SinkRandom) (pass : SyncPass) (fuel : nat)
    : op (option WalletSummary) :=
  let! setup := prepare_pass in
  fun self =>
    let sink := mkWalletRecoverySink setup.(ps_location) setup.(ps_state) setup.(ps_password)
                  self.(sv_kdf) setup.(ps_identity) None None None None self.(sv_state_encoding) 0 in
    let '((backend, sink), result) :=
      reconcile_pass (seed := setup.(ps_seed)) pass fuel (setup.(ps_backend), sink) in
    finish_pass result sink
      (self <| sv_backend := Some backend |>
            <| sv_observed_tip_height ::= (fun observed =>
                 match sink.(rs_observed_tip_height), observed with
                 | Some h, _ => Some h
                 | None, Some h => Some h
                 | None, None => Some sink.(rs_identity).(cci_current_tip).(br_height)
                 end) |>
            <| sv_location := Some sink.(rs_directory) |>
            <| sv_unlocked := Some sink.(rs_state) |>
            <| sv_state := App.Synchronizing |>).

Definition synchronize (random : SinkRandom) (fuel : nat) : op (option WalletSummary) :=
  run_sync_pass random ToTip fuel.
Definition synchronize_live (random : SinkRandom) : op (option WalletSummary) :=
  run_sync_pass random OnePage 0.

Definition RESCAN_TRANSIENT_SYNC_ATTEMPTS : nat := 5.
(** Whether an attempt may be repeated. *)
Definition transient_sync_error (e : CErr.CoreError) : bool :=
  match e with
  | CErr.NodeNotReady => true
  | CErr.Backend error => is_transient_sync_unavailability error
  | _ => false
  end.
(** [for attempt in 1..=5]; the delay between attempts is not modelled. *)
Fixpoint retry_transient_rescan_synchronization {A} (n : nat) (attempts : nat -> op A) : op A :=
  match n with
  | O | S O => attempts n
  | S n' => fun self =>
      match attempts n self with
      | (self, Err e) => if transient_sync_error e
                         then retry_transient_rescan_synchronization n' attempts self
                         else (self, Err e)
      | (self, Ok a) => (self, Ok a)
      end
  end.

Definition reset_scan (state : WalletState) : WalletState :=
  state <| ws_core_scan_cursor := None |> <| ws_recovery_canonical_blocks := [] |>
        <| ws_recovery_scanned_blocks := 0 |> <| ws_recovery_scanned_outputs := 0 |>
        <| ws_legacy_proof_only_outputs := 0 |>.

(** [random n] is for the attempt with [n] attempts left. *)
Definition rescan_from_genesis (random : draw) (sync_random : nat -> SinkRandom) (fuel : nat)
    : op (option WalletSummary) :=
  let! identity := on_backend backend_current_identity in
  let tip := identity.(cci_current_tip).(br_height) in
  let! state := unlocked_state in
  let '(state, r) := rewind_recovery_state 0 tip state in
  try (match r with Ok u => Ok u | Err e => Err (CErr.Restore e) end) ;;;
  commit random (reset_scan state) ;;;
  retry_transient_rescan_synchronization RESCAN_TRANSIENT_SYNC_ATTEMPTS
    (fun n => synchronize (sync_random n) fuel).

(** *** Fees *)

Record ServiceFeeEstimate := mkServiceFeeEstimate {
  sfe_amount : N;
  sfe_selected_input_count : N;
  sfe_expected_output_count : N;
  sfe_weight : N;
  sfe_minimum_fee : N;
}.
Record FundingPreflight := mkFundingPreflight {
  fpf_amount : N;
  fpf_spendable : N;
  fpf_selected_input_count : N;
  fpf_estimated_fee : N;
  fpf_fundable : bool;
}.

Definition transaction_fee_estimate (amount selected_input_count : N) (change_output : bool)
    : op ServiceFeeEstimate :=
  try (fail_if ((amount =? 0) || (selected_input_count =? 0)) CErr.InvalidTransactionInput) ;;;
  let! _ := unlocked_state in
  let! estimate := on_backend (backend_minimum_fee
    (mkWalletTransactionShape selected_input_count (if change_output then 2 else 1) 1)) in
  let! weight := try (let total := estimate.(wfe_weight).(wtw_total_weight) in
                      fail_if (u32_max <? total) CErr.ArithmeticOverflow ;? Ok total) in
  mret (mkServiceFeeEstimate amount selected_input_count estimate.(wfe_shape).(wts_output_count)
          weight estimate.(wfe_minimum_fee_noms)).

Fixpoint preflight_loop (amount : N) (outputs : list OutputRecord) (total selected fee : N)
    : op (N * N * N) :=
  match outputs with
  | [] => mret (total, selected, fee)
  | output :: outputs =>
      let! selected := try (ok_or (checked_add u32_max selected 1) CErr.ArithmeticOverflow) in
      let! estimate := transaction_fee_estimate amount selected true in
      let fee := estimate.(sfe_minimum_fee) in
      let! total := try (ok_or (checked_add u64_max total output.(out_value)) CErr.ArithmeticOverflow) in
      let! required := try (ok_or (checked_add u64_max amount fee) CErr.ArithmeticOverflow) in
      if required <=? total then mret (total, selected, fee)
      else preflight_loop amount outputs total selected fee
  end.

Definition preflight_funding (amount : N) : op FundingPreflight :=
  let! state := unlocked_state in
  let! sums := preflight_loop amount (spendable_outputs state) 0 0 0 in
  let '(total, selected, fee) := sums in
  let! fundable := try (if 0 <? selected
                        then let? required := ok_or (checked_add u64_max amount fee)
                                                    CErr.ArithmeticOverflow in
                             Ok (required <=? total)
                        else Ok false) in
  mret (mkFundingPreflight amount (balance state).(bal_spendable) selected fee fundable).

(** *** Transactions *)

Definition transaction_summary (id : uuid) : op TransactionSummary :=
  let! state := unlocked_state in
  try (ok_or (transaction_summary_from <$>
              find_first (fun t => t.(tx_id) =? id) state.(ws_transactions)) CErr.TransactionNotFound).

(** A change of the transaction record at an index of a copy of the state. *)
Definition at_index {A} (index : nat) (state : WalletState)
    (m : method LocalTransactionIntent CErr.CoreError A)
    : result CErr.CoreError (WalletState * LocalTransactionIntent) :=
  let? t := ok_or (state.(ws_transactions) !! index) CErr.TransactionNotFound in
  let '(t, r) := m t in
  let? _ := r in
  Ok (state <| ws_transactions ::= <[index := t]> |>, t).

(** The record is finalised, or its submission may be repeated. *)
Definition submittable (retry : bool) (l : L.TransactionLifecycle) : bool :=
  match l with
  | L.Finalized => true
  | L.Submitting | L.RetransmitRequired => retry
  | _ => false
  end.

(** The submission of a record, checked before anything is stored. *)
Definition prepare_submission (tx : LocalTransactionIntent)
    : result CErr.CoreError (CanonicalTransactionSubmission * bytes) :=
  let? transaction := ok_or (transaction_from_bytes tx.(tx_finalized_transaction_bytes))
                            CErr.ProtocolRejected in
  let? hash := ok_or tx.(tx_transaction_hash) CErr.ProtocolRejected in
  let kernel := if len tx.(tx_kernel_excess) =? 33 then Some tx.(tx_kernel_excess) else None in
  let? submission := match CanonicalTransactionSubmission_new transaction hash kernel with
                     | Ok s => Ok s
                     | Err e => Err (CErr.Submission e)
                     end in
  Ok (submission, hash).

Definition start_submission : method LocalTransactionIntent CErr.CoreError unit :=
  move L.Submitting Ev.SubmissionStarted ;;;
  fun t => match checked_add u32_max t.(tx_attempt_count) 1 with
           | None => (t, Err CErr.ArithmeticOverflow)
           | Some n => (t <| tx_attempt_count := n |>, Ok tt)
           end.

(** [submit_transaction] up to and with its first commit. *)
Definition record_submission (random : draw) (slate_id : uuid) (retry : bool)
    : op (CanonicalTransactionSubmission * bytes) :=
  ensure_phrase_confirmed ;;;
  let! state := unlocked_state in
  let! index := try (find_transaction_index state slate_id Role.Sender) in
  let! tx := try (ok_or (state.(ws_transactions) !! index) CErr.TransactionNotFound) in
  try (fail_if (negb (submittable retry tx.(tx_lifecycle))) CErr.InvalidTransactionTransition) ;;;
  let! submission := try (prepare_submission tx) in
  let! next := try (at_index index state start_submission) in
  commit random next.1 ;;;
  mret submission.

(** The outcome is stored. *)
Definition record_outcome (random : draw) (slate_id : uuid) (outcome : WOut.WalletSubmissionOutcome)
    : op TransactionSummary :=
  let! state := unlocked_state in
  let! index := try (find_transaction_index state slate_id Role.Sender) in
  let! next := try (at_index index state (apply_submission_outcome outcome)) in
  commit random next.1 ;;;
  transaction_summary next.2.(tx_id).

Definition submit_transaction (random random' : draw) (slate_id : uuid) (retry : bool)
    : op TransactionSummary :=
  let! submission := record_submission random slate_id retry in
  let! outcome := on_backend (if retry then backend_rebroadcast (TransactionHash submission.2)
                              else backend_submit submission.1) in
  record_outcome random' slate_id outcome.

Definition transaction_submit (random random' : draw) (slate_id : uuid) : op TransactionSummary :=
  submit_transaction random random' slate_id false.
Definition transaction_retry_submission (random random' : draw) (slate_id : uuid) : op TransactionSummary :=
  submit_transaction random random' slate_id true.

Definition transaction_reconcile_submission (random : draw) (slate_id : uuid) : op TransactionSummary :=
  let! _ := the_backend in
  let! state := unlocked_state in
  let! index := try (find_transaction_index state slate_id Role.Sender) in
  let! tx := try (ok_or (state.(ws_transactions) !! index) CErr.TransactionNotFound) in
  let! hash := try (ok_or tx.(tx_transaction_hash) CErr.ProtocolRejected) in
  let identifier := if len tx.(tx_kernel_excess) =? 33 then KernelExcess tx.(tx_kernel_excess)
                    else TransactionHash hash in
  let! query := on_backend (backend_query_submission identifier) in
  let! status := match query with
                 | Query.Unknown => let! s := on_backend (backend_transaction_status identifier) in
                                    mret (Some s)
                 | _ => mret None
                 end in
  let! state := unlocked_state in
  let! index := try (find_transaction_index state slate_id Role.Sender) in
  let! next := try (at_index index state (apply_submission_query query status)) in
  commit random next.1 ;;;
  transaction_summary next.2.(tx_id).

(** [transaction_cancel]: Spending.[transaction_cancel] gives the states to commit. *)
Definition service_transaction_cancel (random : draw) (slate_id : uuid) (confirm_exported : bool)
    : op TransactionSummary :=
  let! state := unlocked_state in
  let '(states, r) := transaction_cancel state slate_id confirm_exported in
  mfor states (commit random) ;;;
  let! id := try r in
  transaction_summary id.
Definition slate_cancel : draw -> uuid -> bool -> op TransactionSummary := service_transaction_cancel.

Definition transaction_list : op (list TransactionSummary) :=
  let! state := unlocked_state in mret (map transaction_summary_from state.(ws_transactions)).
Definition transaction_detail_redacted (slate_id : uuid) : op TransactionSummary :=
  let! state := unlocked_state in
  try (ok_or (transaction_summary_from <$>
              find_first (fun t => bool_decide (t.(tx_slate_id) = Some slate_id)) state.(ws_transactions))
             CErr.TransactionNotFound).

(** *** Swap sessions *)

Definition swap_sessions : op (list SwapSessionRecord) :=
  let! state := unlocked_state in mret state.(ws_swap_sessions).
Definition swap_open_sessions : op (list SwapSessionRecord) :=
  let! state := unlocked_state in mret (List.filter swap_is_open state.(ws_swap_sessions)).
Definition swap_session (id : uuid) : op SwapSessionRecord :=
  let! state := unlocked_state in
  try (ok_or (find_first (fun s => s.(ss_id) =? id) state.(ws_swap_sessions))
             (CErr.Domain DErr.SwapSessionNotFound)).

Definition swap_session_create_draft (random : draw) (record : SwapSessionRecord)
    : op SwapSessionRecord :=
  let record := record <| ss_state := Swap.IntentDraft |> in
  let record := if is_empty record.(ss_state_history)
                then record <| ss_state_history :=
                       [mkSwapSessionTransition Swap.IntentDraft record.(ss_created_unix)] |>
                else record in
  let! state := unlocked_state in
  try (fail_if (existsb (fun s => s.(ss_id) =? record.(ss_id)) state.(ws_swap_sessions))
               (CErr.Domain DErr.InvalidState)) ;;;
  let record := record <| ss_leg_index := state.(ws_next_swap_leg_index) |> in
  let! next := try (match checked_add u32_max state.(ws_next_swap_leg_index) 1 with
                    | Some next => if next <=? MAX_SWAP_LEG_INDEX then Ok next
                                   else Err (CErr.Domain DErr.InvalidState)
                    | None => Err (CErr.Domain DErr.InvalidState)
                    end) in
  try (from_domain (swap_validate record)) ;;;
  commit random (state <| ws_next_swap_leg_index := next |>
                       <| ws_swap_sessions ::= (fun l => l ++ [record]) |>) ;;;
  mret record.

(** A change of the first session with the identifier, stored before it is
    returned. *)
Definition update_session (random : draw) (id : uuid) (m : method SwapSessionRecord DErr.DomainError unit)
    : op SwapSessionRecord :=
  let! state := unlocked_state in
  let! index := try (ok_or (position (fun s => s.(ss_id) =? id) state.(ws_swap_sessions))
                           (CErr.Domain DErr.SwapSessionNotFound)) in
  let! session := try (ok_or (state.(ws_swap_sessions) !! index) (CErr.Domain DErr.SwapSessionNotFound)) in
  let '(updated, r) := m session in
  try (from_domain r) ;;;
  commit random (state <| ws_swap_sessions ::= <[index := updated]> |>) ;;;
  mret updated.

Definition swap_session_transition (random : draw) (id : uuid) (next : Swap.SwapSessionState)
    (now_unix : N) : op SwapSessionRecord :=
  update_session random id (swap_transition next now_unix).
Definition swap_session_accept_quote (random : draw) (id : uuid) (quote : SwapAcceptedQuote)
    (fee_noms now_unix : N) : op SwapSessionRecord :=
  update_session random id (accept_quote quote fee_noms now_unix).

(** [String::truncate(256)]: nothing on a shorter text, a panic, [None], when the
    cut is inside a character. *)
Definition is_char_boundary (s : bytes) (n : nat) : bool :=
  match s !! n with
  | Some b => negb (in_range 128 191 b)
  | None => bool_decide (n <= length s)%nat
  end.
Definition truncate (n : nat) (s : bytes) : option bytes :=
  if bool_decide (length s <= n)%nat then Some s
  else if is_char_boundary s n then Some (take n s) else None.

(** The result [None] is the panic of [truncate]. *)
Definition swap_session_note_error (random : draw) (id : uuid) (error : string) (now_unix : N)
    : op (option SwapSessionRecord) :=
  let! state := unlocked_state in
  let! _ := try (ok_or (position (fun s => s.(ss_id) =? id) state.(ws_swap_sessions))
                       (CErr.Domain DErr.SwapSessionNotFound)) in
  match truncate 256 (str error) with
  | None => mret None
  | Some message =>
      let! updated := update_session random id (massign (fun session =>
        session <| ss_last_error := Some (String.string_of_list_byte message) |>
                <| ss_updated_unix := now_unix |>)) in
      mret (Some updated)
  end.

Definition swap_session_cancel_free (random : draw) (id : uuid) (now_unix : N) : op SwapSessionRecord :=
  swap_session_transition random id Swap.SafelyAborted now_unix.

(** The leg indices in use, ascending, with 0. *)
Definition swap_used_leg_indices : op (list N) :=
  let! state := unlocked_state in
  mret (merge_sort N.le (remove_dups (map ss_leg_index state.(ws_swap_sessions) ++ [0]))).
Definition swap_leg_scan_bounds : op (N * N) :=
  let! state := unlocked_state in
  let next := state.(ws_next_swap_leg_index) in
  mret (next, N.min (saturating_add u32_max next SWAP_LEG_GAP_LIMIT) MAX_SWAP_LEG_INDEX).

Definition swap_manual_refund_gate (id : uuid) (now_unix : N) : op Gate.SwapRefundGate :=
  let! session := swap_session id in
  if swap_is_terminal session.(ss_state) then mret Gate.AlreadyTerminal
  else if free_cancellation session.(ss_state) then mret Gate.NothingLocked
  else mret match session.(ss_refund_unlock_unix) with
            | None => Gate.RefundUnknown
            | Some unlock_unix => if now_unix <? unlock_unix then Gate.NotYetUnlocked unlock_unix
                                  else Gate.Broadcastable
            end.

(** *** Preferences and the recovery phrase *)

(** The ceremony is finished while the wallet is locked. *)
Definition recovery_phrase_confirmed (random random' : draw) (password : bytes) : op unit :=
  mread (fun self => fail_if (negb (bool_decide (self.(sv_state) = App.Locked)))
                             CErr.InvalidLifecycleState) ;;;
  try (validate_password password) ;;;
  let! state := on_directory (load random password) in
  let! recovery := try (ok_or state.(ws_recovery) CErr.RecoveryUnavailable) in
  let! kdf := mread (fun self => Ok self.(sv_kdf)) in
  let! _ := on_directory (commit_with_encoding random' state.(ws_generation)
              (state <| ws_recovery := Some (mkRecoveryMetadata recovery.(rm_scheme) true) |>)
              password kdf CompactV2) in
  let! m := on_directory metadata in
  massign (fun self => self <| sv_metadata := Some m |>).

Definition set_node_configuration (random : draw) (configuration : NodeConfiguration) : op unit :=
  try (from_domain (NodeConfiguration_validate configuration)) ;;;
  let! state := unlocked_state in
  try (fail_if (negb (bool_decide (configuration.(nc_expected_identity) = state.(ws_identity))))
               CErr.IdentityMismatch) ;;;
  commit random (state <| ws_node_configuration := configuration |>).

Definition mining_preferences : op MiningPreferences :=
  let! state := unlocked_state in mret state.(ws_mining_preferences).
Definition set_mining_preferences (random : draw) (enabled : bool) (cpu_threads : N)
    : op MiningPreferences :=
  try (fail_if ((cpu_threads =? 0) || (4096 <? cpu_threads)) CErr.InvalidTransactionInput) ;;;
  let! state := unlocked_state in
  commit random (state <| ws_mining_preferences := mkMiningPreferences enabled cpu_threads |>) ;;;
  mining_preferences.
End service.
