(* ===== verification/Exchange.v ===== *)
(** * The exchange of slates

    The operations of [WalletService] (crates/dom-wallet-core/src/lib.rs) that build
    a payment with its other party: creating a send, exporting and importing the
    request and the response, finalising, and passing the finalised transaction to
    the recipient.  New identifiers, randomness and the clock are arguments; the
    cover policy, code of another repository, is a function.  Payments proves what
    the operations guarantee. *)

From S2P Require Import Prelude Bytes Codecs DomainTypes Lifecycle WalletOps CoreTypes CoreSync Recovery.
From S2P Require Import Envelope Storage Submission Fees Slates Outputs Backend Spending Service.

Record SlateExport := mkSlateExport {
  sx_transaction_id : uuid;
  sx_slate_id : uuid;
  sx_text : bytes;
}.
Record FinalizedTransactionExport := mkFinalizedTransactionExport {
  fx_transaction_id : uuid;
  fx_slate_id : uuid;
  fx_canonical_bytes : bytes;
  fx_transaction_hash : bytes;
}.

Module Cover.
Inductive CoverSendDecision :=
| HeightLocked (lock_height : N) | NotSelectedPlain | NoSatisfiedHeightPlainFallback.
(** [CoverLockOutcomeV1] *)
Inductive CoverLockOutcome := Cover (lock_height : N) | NotSelected.
End Cover.
Record CoverSendResult := mkCoverSendResult {
  csr_transaction : TransactionSummary;
  csr_decision : Cover.CoverSendDecision;
}.

(** The errors of the slate and output code, wrapped by the question mark. *)
Definition from_protocol {A} (r : result PErr.ProtocolAdapterError A) : result CErr.CoreError A :=
  match r with Ok a => Ok a | Err e => Err (CErr.Protocol e) end.
Definition from_recovery {A} (r : result RmErr.RecoveryMaterialError A) : result CErr.CoreError A :=
  match r with Ok a => Ok a | Err e => Err (CErr.Recovery e) end.

Definition uuid_from_protocol_id (id : bytes) : uuid := uuid_from_bytes (take 16 id).

(** What the system gives a send: the random bytes of the slate and of the replay
    protection, two new identifiers, the time, and the randomness of the
    construction and of the two commits. *)
Record SendDraws := mkSendDraws {
  sd_slate_id : option bytes;
  sd_replay_id : option bytes;
  sd_transaction_id : uuid;
  sd_change_id : uuid;
  sd_unix_seconds : N;
  sd_construction : bytes;
  sd_first : draw;
  sd_second : draw;
}.
(** The slate's identifiers, when there is randomness for both. *)
Definition slate_draw (d : SendDraws) : option (bytes * bytes) :=
  match d.(sd_slate_id), d.(sd_replay_id) with
  | Some slate_id, Some replay_id => Some (slate_id, replay_id)
  | _, _ => None
  end.

(** *** Changes of the state *)

(** A pending output of the wallet and its secret. *)
Definition add_pending_output (output_id : uuid) (output : RecoverableOwnedOutput) (state : WalletState)
    : WalletState :=
  remember_output_blinding output_id output.(roo_blinding)
    (state <| ws_outputs ::= fun l => l ++
       [mkOutputRecord output_id state.(ws_default_account).(acc_id) (Some output.(roo_commitment))
          output.(roo_value) Out.PendingIncoming 0 None] |>).

(** The request of a send and the secrets that finish it. *)
Definition record_request (parts : RecoverableSenderParts) (request : bytes) (t : LocalTransactionIntent)
    : LocalTransactionIntent :=
  t <| tx_private_context := Some (mkPrivateTransactionContext (Some parts.(rsp_excess_blinding))
                                     (Some parts.(rsp_nonce)) None) |>
    <| tx_request_bytes := request |>.
Definition record_change (change_id : uuid) (t : LocalTransactionIntent) : LocalTransactionIntent :=
  t <| tx_change_output_id := Some change_id |>.
(** The change and the request of a send are recorded. *)
Definition record_offer (index : nat) (change_id : uuid) (parts : RecoverableSenderParts)
    (request : bytes) (state : WalletState) : WalletState :=
  let state := match parts.(rsp_change) with
               | Some change => add_pending_output change_id change state
                   <| ws_transactions ::= alter (record_change change_id) index |>
               | None => state
               end in
  state <| ws_transactions ::= alter (record_request parts request) index |>.

(** The new record of an imported request. *)
Definition imported_intent (id tip now slate_id amount fee : N) (request : bytes) (expires_at_height : N)
    : LocalTransactionIntent :=
  mkLocalTransactionIntent id tip now None None [] L.RequestImported false Exp.NeverBroadcast
    (Some slate_id) (Some Role.Recipient) amount fee [] request [] [] None 0 None None None
    expires_at_height.

(** The recipient's part of the record, before its transition. *)
Definition record_response (output_id : uuid) (blinding response : bytes) (t : LocalTransactionIntent)
    : LocalTransactionIntent :=
  t <| tx_recipient_output_id := Some output_id |>
    <| tx_private_context := Some (mkPrivateTransactionContext None None (Some blinding)) |>
    <| tx_response_bytes := response |>.
Definition record_finalized (canonical_bytes hash kernel_excess : bytes) (t : LocalTransactionIntent)
    : LocalTransactionIntent :=
  t <| tx_finalized_transaction_bytes := canonical_bytes |> <| tx_transaction_hash := Some hash |>
    <| tx_kernel_excess := kernel_excess |>.

Section exchange.
Context {W : Type} {codec : CoreCodec} {code : CryptoCode} {json : StateCode}.
Context {scan : WalletCoreApi W} {api : WalletSubmissionApi W} {fee_api : WalletFeeApi W}.
Context {slate_code : SlateCode} {seed_code : SeedCode} {output_code : OutputCode}.
Abbreviation op := (method (WalletService W) CErr.CoreError).

Definition core_identity : op CoreChainIdentity := on_backend backend_current_identity.
Definition tip_height (identity : CoreChainIdentity) : N := identity.(cci_current_tip).(br_height).

(** [ProductionWalletBackend::output_builder] *)
Definition output_builder (backend : ProductionWalletBackend W) (seed : CanonicalWalletSeed)
    : result PBErr.ProductionBackendError RecoverableOutputBuilder :=
  map_err (builder_new seed backend.(pb_identity)) PBErr.Recovery.
Definition canonical_seed (state : WalletState) : result CErr.CoreError CanonicalWalletSeed :=
  map_err (seed_from_entropy state.(ws_root_material)) CErr.RecoveryPhraseInvalid.

(** A recovery slate that has not expired. *)
Definition live_slate (identity : CoreChainIdentity)
    (r : result PErr.ProtocolAdapterError CanonicalSlate) : result CErr.CoreError CanonicalSlate :=
  let? slate := from_protocol r in
  validate_transaction_expiry (expires_at_height slate) (tip_height identity) ;?
  Ok slate.
Definition stored_slate (b : bytes) (identity : CoreChainIdentity)
    : result PErr.ProtocolAdapterError CanonicalSlate :=
  from_recovery_bytes b identity (tip_height identity).

(** *** Creating a send *)

(** The selection loop, over the fees of the node. *)
Fixpoint select_outputs (requested_fee : option N) (amount : N) (candidates : list OutputRecord)
    (selected : list OutputRecord) (total fee : N) : op (list OutputRecord * N * N) :=
  match candidates with
  | [] => mret (selected, total, fee)
  | output :: candidates =>
      let selected := selected ++ [output] in
      let! _ := the_backend in
      try (fail_if (u32_max <? len selected) CErr.ArithmeticOverflow) ;;;
      let! minimum := on_backend (backend_minimum_fee (mkWalletTransactionShape (len selected) 2 1)) in
      let minimum := minimum.(wfe_minimum_fee_noms) in
      let fee := default minimum requested_fee in
      try (fail_if (fee <? minimum) CErr.FeeTooLow) ;;;
      let! total := try (ok_or (checked_add u64_max total output.(out_value)) CErr.ArithmeticOverflow) in
      let! required := try (ok_or (checked_add u64_max amount fee) CErr.ArithmeticOverflow) in
      if required <=? total then mret (selected, total, fee)
      else select_outputs requested_fee amount candidates selected total fee
  end.

(** [transaction_send_create_with_identities] up to and with its first commit. *)
Definition reserve_inputs (d : SendDraws) (amount : N) (requested_fee : option N)
    (lock_height expires_at_height : N) : op (CoreChainIdentity * ReservedSend) :=
  try (fail_if (amount =? 0) CErr.InvalidTransactionInput) ;;;
  ensure_phrase_confirmed ;;;
  let! identity := core_identity in
  let tip := tip_height identity in
  try (fail_if (tip <? lock_height) CErr.CoverPolicyRejected) ;;;
  try (validate_transaction_expiry expires_at_height tip) ;;;
  let! state := unlocked_state in
  let! selection := select_outputs requested_fee amount (spendable_outputs state) [] 0 0 in
  let! reserved := try (reserve_selected selection d.(sd_transaction_id)
                          (uuid_from_protocol_id ∘ fst <$> slate_draw d) tip d.(sd_unix_seconds) amount
                          expires_at_height state) in
  commit d.(sd_first) reserved.(rsv_state) ;;;
  mret (identity, reserved).

(** The inputs of the slate: commitments and secrets of the selection. *)
Definition slate_inputs (state : WalletState) (selected : list OutputRecord)
    : result CErr.CoreError (list WalletSlateInput) :=
  foldM (fun done output =>
    let? commitment := ok_or output.(out_commitment) CErr.UnsupportedSpendingEvidence in
    let? blinding := ok_or (output_blinding state output.(out_id)) CErr.UnsupportedSpendingEvidence in
    Ok (done ++ [mkWalletSlateInput commitment blinding])) selected [].

(** Both given addresses, or two made of the body's keys. *)
Definition interaction_addresses (body : RecoverySlateBody) (network : CNet.CoreNetwork)
    (sender receiver : option WalletAddress) : result CErr.CoreError (WalletAddress * WalletAddress) :=
  match sender, receiver with
  | Some sender, Some receiver => Ok (sender, receiver)
  | None, None =>
      let keys := manual_interaction_public_keys body in
      let? sender := from_protocol (from_public_key keys.1 network Purpose.TransactionInteraction) in
      let? receiver := from_protocol (from_public_key keys.2 network Purpose.TransactionInteraction) in
      Ok (sender, receiver)
  | _, _ => Err CErr.AddressIdentityRequired
  end.

(** The offer, built of the reserved inputs. *)
Definition build_offer (d : SendDraws) (ids : bytes * bytes) (identity : CoreChainIdentity)
    (reserved : ReservedSend) (amount lock_height expires_at_height : N)
    (sender receiver : option WalletAddress) : op (RecoverableSenderParts * CanonicalSlate) :=
  let! state := unlocked_state in
  let! seed := try (canonical_seed state) in
  let! backend := the_backend in
  let! builder := try (from_backend (output_builder backend seed)) in
  let! inputs := try (slate_inputs state reserved.(rsv_selected)) in
  let! material := try (from_recovery (build_sender_offer_with_lock_height builder d.(sd_construction)
                          inputs reserved.(rsv_change_value) amount reserved.(rsv_fee) lock_height
                          reserved.(rsv_coordinate))) in
  let! parts := try (from_recovery (into_sender_parts material)) in
  let! addresses := try (interaction_addresses parts.(rsp_body) identity.(cci_network) sender receiver) in
  let! envelope := try (from_protocol (new_recoverable identity ids.1 ids.2 Phase.SenderOffer
                          expires_at_height addresses.1 addresses.2 parts.(rsp_body))) in
  mret (parts, envelope).

Definition transaction_send_create_with_identities (d : SendDraws) (amount : N) (requested_fee : option N)
    (sender receiver : option WalletAddress) (lock_height expires_at_height : N)
    : op TransactionSummary :=
  let! reserved := reserve_inputs d amount requested_fee lock_height expires_at_height in
  let '(identity, reserved) := reserved in
  let! ids := try (ok_or (slate_draw d) CErr.RandomnessUnavailable) in
  let slate_id := uuid_from_protocol_id ids.1 in
  let! offer := build_offer d ids identity reserved amount lock_height expires_at_height sender receiver in
  let '(parts, envelope) := offer in
  let! state := unlocked_state in
  let! index := try (find_transaction_index state slate_id Role.Sender) in
  commit d.(sd_second) (record_offer index d.(sd_change_id) parts envelope.(cs_canonical_bytes) state) ;;;
  massign (fun self => self <| sv_sender_secrets := Some (slate_id, parts) |>) ;;;
  transaction_summary d.(sd_transaction_id).

Definition transaction_send_create_recoverable (d : SendDraws) (amount : N) (requested_fee : option N)
    (sender receiver : WalletAddress) (expires_at_height : N) : op TransactionSummary :=
  transaction_send_create_with_identities d amount requested_fee (Some sender) (Some receiver) 0
    expires_at_height.

(** [policy] is [cover_lock_for_send] at a validated height; [None] is an error. *)
Definition cover_decision (policy : N -> option Cover.CoverLockOutcome) (tip : N)
    : result CErr.CoreError Cover.CoverSendDecision :=
  match policy tip with
  | Some (Cover.Cover lock_height) => Ok (Cover.HeightLocked lock_height)
  | Some Cover.NotSelected => Ok Cover.NotSelectedPlain
  | None => if tip =? 0 then Ok Cover.NoSatisfiedHeightPlainFallback else Err CErr.CoverPolicyRejected
  end.
Definition cover_lock_height (decision : Cover.CoverSendDecision) : N :=
  match decision with Cover.HeightLocked lock_height => lock_height | _ => 0 end.
Definition transaction_send_create_with_cover (d : SendDraws) (amount : N) (requested_fee : option N)
    (expires_at_height : N) (policy : N -> option Cover.CoverLockOutcome) : op CoverSendResult :=
  let! identity := core_identity in
  let! decision := try (cover_decision policy (tip_height identity)) in
  let! transaction := transaction_send_create_with_identities d amount requested_fee None None
                        (cover_lock_height decision) expires_at_height in
  mret (mkCoverSendResult transaction decision).

Definition transaction_send_create_with_addresses (d : SendDraws) (amount : N) (requested_fee : option N)
    (sender_address receiver_address : bytes) (expires_at_height : N) : op TransactionSummary :=
  let! backend := the_backend in
  let network := backend.(pb_identity).(cci_network) in
  let! sender := try (from_protocol (address_parse sender_address network Purpose.TransactionInteraction)) in
  let! receiver := try (from_protocol (address_parse receiver_address network
                                         Purpose.TransactionInteraction)) in
  transaction_send_create_recoverable d amount requested_fee sender receiver expires_at_height.

(** *** Requests and responses *)

(** The export of the slate that [bytes_of] finds in the record of a role. *)
Definition slate_export (role : Role.TransactionRole) (bytes_of : LocalTransactionIntent -> bytes)
    (slate_id : uuid) : op SlateExport :=
  ensure_phrase_confirmed ;;;
  let! identity := core_identity in
  let! state := unlocked_state in
  let! index := try (find_transaction_index state slate_id role) in
  let! transaction := try (ok_or (state.(ws_transactions) !! index) CErr.TransactionNotFound) in
  let! slate := try (live_slate identity (stored_slate (bytes_of transaction) identity)) in
  mret (mkSlateExport transaction.(tx_id) slate_id (to_text slate)).
Definition slate_request_export : uuid -> op SlateExport := slate_export Role.Sender tx_request_bytes.
Definition slate_response_export : uuid -> op SlateExport := slate_export Role.Recipient tx_response_bytes.

Definition slate_request_import (random : draw) (id now : N) (text : bytes) : op TransactionSummary :=
  let! identity := core_identity in
  let! slate := try (live_slate identity (from_text text identity (tip_height identity))) in
  let! p := try (from_protocol (phase slate)) in
  try (fail_if (negb (bool_decide (p = Phase.SenderOffer))) CErr.InvalidSlateTransport) ;;;
  let slate_id := uuid_from_protocol_id (replay_key slate).(srk_slate_id) in
  let! state := unlocked_state in
  try (fail_if (existsb (fun t => bool_decide (t.(tx_slate_id) = Some slate_id)) state.(ws_transactions))
               CErr.SlateReplayConflict) ;;;
  let! body := try (from_protocol (recovery_body slate)) in
  commit random (state <| ws_transactions ::= fun l => l ++
    [imported_intent id (tip_height identity) now slate_id body.(rsb_inner).(sl_amount) (fee_noms slate)
       slate.(cs_canonical_bytes) (expires_at_height slate)] |>) ;;;
  transaction_summary id.

(** The first half of [slate_response_create]: a coordinate is used up. *)
Definition reserve_response (random : draw) (slate_id : uuid)
    : op (CoreChainIdentity * nat * ReservedRecoveryCoordinate) :=
  let! identity := core_identity in
  let! state := unlocked_state in
  let! index := try (find_transaction_index state slate_id Role.Recipient) in
  let '(state, r) := reserve_recovery_coordinate 0 ROC.ReceiveSlate state in
  let! coordinate := try (from_domain r) in
  commit random state ;;;
  mret (identity, index, coordinate).

(** The response to the request of the record at an index. *)
Definition build_response (construction : bytes) (identity : CoreChainIdentity) (index : nat)
    (coordinate : ReservedRecoveryCoordinate) : op (RecoverableRecipientParts * CanonicalSlate) :=
  let! state := unlocked_state in
  let! transaction := try (ok_or (state.(ws_transactions) !! index) CErr.TransactionNotFound) in
  let! request := try (live_slate identity (stored_slate transaction.(tx_request_bytes) identity)) in
  let! seed := try (canonical_seed state) in
  let! builder := try (from_recovery (builder_new seed identity)) in
  let! body := try (from_protocol (recovery_body request)) in
  let! material := try (from_recovery (build_recipient_response builder construction body coordinate)) in
  let! recipient := try (from_recovery (into_recipient_parts material)) in
  let! response := try (from_protocol (with_recovery_body request Phase.ReceiverResponse
                          recipient.(rrp_body) identity (tip_height identity))) in
  mret (recipient, response).

Definition slate_response_create (random random' : draw) (construction : bytes) (output_id slate_id : uuid)
    : op TransactionSummary :=
  let! reserved := reserve_response random slate_id in
  let '(identity, index, coordinate) := reserved in
  let! parts := build_response construction identity index coordinate in
  let '(recipient, response) := parts in
  let! state := unlocked_state in
  let state := add_pending_output output_id recipient.(rrp_output) state in
  let! next := try (at_index index state
    (massign (record_response output_id recipient.(rrp_output).(roo_blinding)
                response.(cs_canonical_bytes)) ;;;
     move L.ResponsePrepared Ev.RecipientResponse)) in
  commit random' next.1 ;;;
  transaction_summary next.2.(tx_id).

Definition slate_response_import (random : draw) (text : bytes) : op TransactionSummary :=
  let! identity := core_identity in
  let! response := try (live_slate identity (from_text text identity (tip_height identity))) in
  let! p := try (from_protocol (phase response)) in
  try (fail_if (negb (bool_decide (p = Phase.ReceiverResponse))) CErr.InvalidSlateTransport) ;;;
  let slate_id := uuid_from_protocol_id (replay_key response).(srk_slate_id) in
  let! state := unlocked_state in
  let! index := try (find_transaction_index state slate_id Role.Sender) in
  let! transaction := try (ok_or (state.(ws_transactions) !! index) CErr.TransactionNotFound) in
  let! request := try (live_slate identity (stored_slate transaction.(tx_request_bytes) identity)) in
  try (fail_if (negb (bool_decide (replay_key request = replay_key response))) CErr.SlateReplayConflict) ;;;
  let! next := try (at_index index state
    (massign (fun t => t <| tx_response_bytes := response.(cs_canonical_bytes) |>) ;;;
     move L.ResponseImported Ev.RecipientResponse)) in
  commit random next.1 ;;;
  transaction_summary next.2.(tx_id).

(** *** Finalising *)

(** The sender's secrets as they are stored with the record. *)
Definition persisted_sender (transaction : LocalTransactionIntent) (request : CanonicalSlate)
    : result CErr.CoreError RecoverableSenderParts :=
  let? context := ok_or transaction.(tx_private_context) CErr.MissingPrivateContext in
  let? body := from_protocol (recovery_body request) in
  let? excess := ok_or context.(ptc_sender_excess_blinding) CErr.MissingPrivateContext in
  let? nonce := ok_or context.(ptc_sender_nonce) CErr.MissingPrivateContext in
  from_recovery (from_encrypted_context body excess nonce).
(** Those in memory are preferred. *)
Definition sender_parts (secrets : option (uuid * RecoverableSenderParts)) (slate_id : uuid)
    (transaction : LocalTransactionIntent) (request : CanonicalSlate)
    : result CErr.CoreError RecoverableSenderParts :=
  match secrets with
  | Some (id, sender) => if id =? slate_id then Ok sender else persisted_sender transaction request
  | None => persisted_sender transaction request
  end.

(** An output without a capsule, or of another size than one with. *)
Definition mixed_output (output : TransactionOutput) : bool :=
  match output_to_bytes output with
  | Some b => negb (len b =? CANONICAL_TRANSACTION_OUTPUT_SIZE)
  | None => true
  end
  || match recovery_capsule output with Some (Some _) => false | _ => true end.

(** The finalised transaction of a record, checked before anything is stored. *)
Definition finalize_record (secrets : option (uuid * RecoverableSenderParts)) (slate_id : uuid)
    (identity : CoreChainIdentity) (transaction : LocalTransactionIntent)
    : result CErr.CoreError FinalizedRecoverableTransaction :=
  let? request := live_slate identity (stored_slate transaction.(tx_request_bytes) identity) in
  let? response := live_slate identity (stored_slate transaction.(tx_response_bytes) identity) in
  let? sender := sender_parts secrets slate_id transaction request in
  let? response_body := from_protocol (recovery_body response) in
  let? request_body := from_protocol (recovery_body request) in
  let? finalized := from_recovery (finalize_recoverable_transaction response_body request_body sender
                                     identity.(cci_chain_id)) in
  let? _ := from_recovery (verify_recoverable_transaction_against_response
                             finalized.(frt_canonical_bytes) response_body identity) in
  let? decoded := ok_or (transaction_from_bytes finalized.(frt_canonical_bytes)) CErr.ProtocolRejected in
  fail_if (existsb mixed_output decoded.(txn_outputs)) CErr.MixedOutputRegime ;?
  Ok finalized.

(** [state_transaction_id] *)
Definition state_transaction_id (state : option WalletState) (index : nat) : result CErr.CoreError uuid :=
  ok_or (state ≫= fun state => tx_id <$> state.(ws_transactions) !! index) CErr.TransactionNotFound.

Definition transaction_finalize (random : draw) (slate_id : uuid) : op TransactionSummary :=
  ensure_phrase_confirmed ;;;
  let! identity := core_identity in
  let! state := unlocked_state in
  let! index := try (find_transaction_index state slate_id Role.Sender) in
  let! transaction := try (ok_or (state.(ws_transactions) !! index) CErr.TransactionNotFound) in
  if bool_decide (transaction.(tx_lifecycle) = L.Finalized) then mret (transaction_summary_from transaction)
  else
    let! finalized := mread (fun self => finalize_record self.(sv_sender_secrets) slate_id identity
                                           transaction) in
    let! next := try (at_index index state
      (massign (record_finalized finalized.(frt_canonical_bytes) finalized.(frt_transaction_hash)
                  finalized.(frt_kernel_excess)) ;;;
       move L.Finalized Ev.Finalization)) in
    commit random next.1 ;;;
    let! id := mread (fun self => state_transaction_id self.(sv_unlocked) index) in
    transaction_summary id.

(** The response of a record, read without looking at its expiry. *)
Definition response_body (identity : CoreChainIdentity) (transaction : LocalTransactionIntent)
    : result CErr.CoreError RecoverySlateBody :=
  let? response := from_protocol (stored_slate transaction.(tx_response_bytes) identity) in
  from_protocol (recovery_body response).

Definition transaction_finalized_export (slate_id : uuid) : op FinalizedTransactionExport :=
  let! identity := core_identity in
  let! state := unlocked_state in
  let! index := try (find_transaction_index state slate_id Role.Sender) in
  let! transaction := try (ok_or (state.(ws_transactions) !! index) CErr.TransactionNotFound) in
  try (fail_if (negb (bool_decide (transaction.(tx_lifecycle) = L.Finalized)))
               CErr.InvalidTransactionTransition) ;;;
  let! body := try (response_body identity transaction) in
  let! verified := try (from_recovery (verify_recoverable_transaction_against_response
                          transaction.(tx_finalized_transaction_bytes) body identity)) in
  try (fail_if (negb (bool_decide (transaction.(tx_transaction_hash) = Some verified.(vrt_transaction_hash))))
               CErr.ProtocolRejected) ;;;
  mret (mkFinalizedTransactionExport transaction.(tx_id) slate_id
          transaction.(tx_finalized_transaction_bytes) verified.(vrt_transaction_hash)).

Definition transaction_finalized_verify_and_import (random : draw) (slate_id : uuid)
    (canonical_bytes : bytes) : op VerifiedRecoverableTransaction :=
  let! identity := core_identity in
  let! state := unlocked_state in
  let! index := try (find_transaction_index state slate_id Role.Recipient) in
  let! transaction := try (ok_or (state.(ws_transactions) !! index) CErr.TransactionNotFound) in
  let! body := try (response_body identity transaction) in
  let! verified := try (from_recovery (verify_recoverable_transaction_against_response canonical_bytes
                          body identity)) in
  try (fail_if (negb (is_empty transaction.(tx_finalized_transaction_bytes))
                && negb (bool_decide (transaction.(tx_finalized_transaction_bytes) = canonical_bytes)))
               CErr.FinalizedTransactionConflict) ;;;
  let! next := try (at_index index state
    (massign (record_finalized canonical_bytes verified.(vrt_transaction_hash)
                verified.(vrt_kernel_excess)))) in
  commit random next.1 ;;;
  mret verified.
End exchange.
