(* ===== verification/Funding.v ===== *)
(** * Scriptless funding

    The funding side of a Scriptless contract in crates/dom-wallet-core/src/lib.rs:
    reserving inputs for a session, preparing the wallet's contribution, binding it
    to the session and to the template, exporting it, and the ways out.  What both
    sides share (the session's binding and the template's participants) is here,
    too; Payout is the other side and Contracts proves what they guarantee.  The
    templates and the keys are code of other repositories. *)

From S2P Require Import Prelude Bytes Codecs DomainTypes Lifecycle WalletOps CoreTypes CoreSync Recovery.
From S2P Require Import Envelope Storage Submission Fees Slates Outputs Backend Spending Service Exchange.

(** ** Code of dom-adaptor, dom-tx and dom-crypto *)

Module CRole.
Inductive ContractTxRoleV1 := Funding | Claim | Refund.
#[global] Instance ContractTxRoleV1_eq_dec : EqDecision ContractTxRoleV1.
Proof. solve_decision. Defined.
End CRole.

(** [ScriptlessTransactionTemplateV1] *)
Record ContractTemplate := mkContractTemplate {
  ct_role : CRole.ContractTxRoleV1;
  ct_shared_output_commitment : bytes;
  ct_template_hash : bytes;
  ct_transaction : Transaction;
}.

Class ContractCode := {
  KERNEL_FEAT_PLAIN : N;
  KERNEL_FEAT_HEIGHT_LOCKED : N;
  (** [BlindingFactor::from_bytes] *)
  blinding_factor_from_bytes : bytes -> option bytes;
  aggregate_offset_contributions : list bytes -> option bytes;
  add_public_points : list bytes -> option bytes;
}.

(** ** Data *)

Record ScriptlessFundingReservationRequestV1 := mkScriptlessFundingRequest {
  frq_session_id : bytes;
  frq_shared_output_commitment : bytes;
  frq_local_debit_noms : N;
  frq_funding_fee_noms : N;
  frq_expected_input_count : N;
  frq_expected_output_count : N;
}.
Record ScriptlessFundingReservationSummaryV1 := mkScriptlessFundingSummary {
  fsm_reservation_id : uuid;
  fsm_state : FundSt.ScriptlessFundingReservationState;
  fsm_selected_input_count : N;
  fsm_has_change : bool;
  fsm_template_bound : bool;
}.
Record ScriptlessFundingCompositionV1 := mkScriptlessFundingComposition {
  fcp_reservation_id : uuid;
  fcp_session_id : bytes;
  fcp_chain_id : bytes;
  fcp_shared_output_commitment : bytes;
  fcp_inputs : list bytes;
  fcp_other_outputs : list TransactionOutput;
  fcp_offset_contribution : bytes;
  fcp_wallet_excess_public_key : bytes;
  fcp_funding_fee_noms : N;
  fcp_expected_input_count : N;
  fcp_expected_output_count : N;
}.
(** The arrays of two are pairs, in the order of the roster. *)
Record ScriptlessTemplateParticipantSetV1 := mkTemplateParticipantSet {
  tps_ordered_offset_contributions : bytes * bytes;
  tps_ordered_kernel_excess_points : bytes * bytes;
}.
Definition pair_list {A} (p : A * A) : list A := [p.1; p.2].

(** ** Sessions and templates *)

Section shared.
Context {codec : CoreCodec} {slate_code : SlateCode} {code : ContractCode}.
Abbreviation res := (result CErr.CoreError).

Definition validate_session_share_binding (chain_id session_id : bytes) (session_share : SessionShare)
    : res (bytes * N) :=
  let binding := session_share.(ssh_binding) in
  let participant_position := binding.(sb_participant_index) in
  let binding_digest := binding.(sb_digest) in
  fail_if (is_zero32 chain_id || is_zero32 session_id
           || negb (bool_decide (binding.(sb_chain_id) = chain_id))
           || negb (bool_decide (binding.(sb_session_id) = session_id))
           || negb (len binding.(sb_roster) =? SCRIPTLESS_PARTICIPANT_COUNT_V1)
           || (SCRIPTLESS_PARTICIPANT_COUNT_V1 <=? participant_position)
           || is_zero32 binding.(sb_terms_hash) || is_zero32 binding.(sb_capsule_hash)
           || is_zero32 binding_digest
           || negb (bool_decide (binding.(sb_roster) !! N.to_nat participant_position
                                 = Some binding.(sb_participant_id)))
           || negb (bool_decide (binding.(sb_share_point) = session_share.(ssh_public_key))))
          CErr.ScriptlessSessionBindingMismatch ;?
  Ok (binding_digest, participant_position).

(** [require_persisted_session_binding] and its payout twin, of the record's two
    fields. *)
Definition require_persisted_binding (digest : option bytes) (position : option N)
    (binding : bytes * N) : res unit :=
  fail_if (negb (bool_decide (digest = Some binding.1)) || negb (bool_decide (position = Some binding.2)))
          CErr.ScriptlessSessionBindingMismatch.

(** [bound_signing_context] and its payout twin, of the record's fields. *)
Definition bound_context (chain_id session_id : bytes) (digest : option bytes) (position : option N)
    (template_hash : option bytes) : res BoundScriptlessSigningContextV1 :=
  let? digest := ok_or digest CErr.ScriptlessSessionBindingRequired in
  let? position := ok_or position CErr.ScriptlessSessionBindingRequired in
  fail_if (u16_max <? position) CErr.ScriptlessSessionBindingMismatch ;?
  let? template_hash := ok_or template_hash CErr.ScriptlessTemplateBindingMismatch in
  Ok (mkBoundScriptlessSigningContext chain_id session_id digest position template_hash).

(** [parse_funding_public_key] and [parse_payout_public_key] *)
Definition parse_excess_public_key (error : CErr.CoreError) (b : bytes) : res bytes :=
  fail_if (negb (len b =? 33)) error ;?
  ok_or (public_key_from_compressed_bytes b) error.

Definition validate_scriptless_funding_local_shape (local_input_count local_other_output_count
    expected_input_count expected_output_count : N) : res unit :=
  let? minimum_global_output_count := ok_or (checked_add u64_max local_other_output_count 1)
                                            CErr.ArithmeticOverflow in
  fail_if ((expected_input_count <? local_input_count)
           || (expected_output_count <? minimum_global_output_count))
          CErr.ScriptlessFundingShapeMismatch.

Definition validate_template_participant_set (transaction : Transaction)
    (local_offset local_kernel_excess_point : bytes) (participant_position : N)
    (participants : ScriptlessTemplateParticipantSetV1) : res ScriptlessTemplateParticipantBindingV1 :=
  let position := N.to_nat participant_position in
  let offsets := pair_list participants.(tps_ordered_offset_contributions) in
  let points := pair_list participants.(tps_ordered_kernel_excess_points) in
  fail_if (negb (bool_decide (offsets !! position = Some local_offset))
           || negb (bool_decide (points !! position = Some local_kernel_excess_point))
           || negb (len transaction.(txn_kernels) =? 1))
          CErr.ScriptlessTemplateBindingMismatch ;?
  let? aggregate_offset := ok_or (aggregate_offset_contributions offsets)
                                 CErr.ScriptlessTemplateBindingMismatch in
  fail_if (negb (bool_decide (transaction.(txn_offset) = aggregate_offset)))
          CErr.ScriptlessTemplateBindingMismatch ;?
  let? keys := foldM (fun done point =>
      let? key := ok_or (public_key_from_compressed_bytes point) CErr.ScriptlessTemplateBindingMismatch in
      Ok (done ++ [key])) points [] in
  let? aggregate_point := ok_or (add_public_points keys) CErr.ScriptlessTemplateBindingMismatch in
  let? kernel := ok_or (head transaction.(txn_kernels)) CErr.ScriptlessTemplateBindingMismatch in
  fail_if (negb (bool_decide (kernel.(sk_excess) = aggregate_point)))
          CErr.ScriptlessTemplateBindingMismatch ;?
  Ok (ScriptlessTemplateParticipantBindingV1_new participants.(tps_ordered_offset_contributions)
        participants.(tps_ordered_kernel_excess_points)).

(** How often a value occurs in a list. *)
Definition occurrences {A} `{EqDecision A} (x : A) (l : list A) : N :=
  len (List.filter (fun y => bool_decide (y = x)) l).

(** The output of some stored bytes, whose commitment is also stored: canonical,
    with a capsule and a proof that verifies. *)
Definition stored_output {output_code : OutputCode} (error : CErr.CoreError) (output_bytes : bytes)
    (commitment : option bytes) : res TransactionOutput :=
  let? output := ok_or (output_from_bytes output_bytes) error in
  let? again := ok_or (output_to_bytes output) error in
  fail_if (negb (bool_decide (again = output_bytes))
           || negb (bool_decide (commitment = Some output.(to_commitment)))) error ;?
  let? capsule := ok_or (recovery_capsule output) error in
  let? capsule := ok_or capsule error in
  let? proof := ok_or (range_proof_bytes output) error in
  let? verified := ok_or (range_proof_verify output.(to_commitment) proof capsule.2) error in
  fail_if (negb verified) error ;?
  Ok output.
End shared.

(** A change of the record at an index of a list of reservations. *)
Definition set_funding (index : nat) (f : ScriptlessFundingReservation -> ScriptlessFundingReservation)
    (state : WalletState) : WalletState :=
  state <| ws_scriptless_funding_reservations ::= alter f index |>.

(** ** The funding operations *)

(** The request asks for something. *)
Definition funding_request_invalid (r : ScriptlessFundingReservationRequestV1) : bool :=
  is_zero32 r.(frq_session_id) || is_zero33 r.(frq_shared_output_commitment)
  || (r.(frq_funding_fee_noms) =? 0) || (r.(frq_expected_output_count) =? 0)
  || (negb (r.(frq_local_debit_noms) =? 0) && (r.(frq_expected_input_count) =? 0)).
Definition funding_request_differs (existing : ScriptlessFundingReservation)
    (r : ScriptlessFundingReservationRequestV1) : bool :=
  negb (bool_decide (existing.(fr_shared_output_commitment) = r.(frq_shared_output_commitment)))
  || negb (existing.(fr_local_debit_noms) =? r.(frq_local_debit_noms))
  || negb (existing.(fr_funding_fee_noms) =? r.(frq_funding_fee_noms))
  || negb (existing.(fr_expected_input_count) =? r.(frq_expected_input_count))
  || negb (existing.(fr_expected_output_count) =? r.(frq_expected_output_count)).

Definition find_scriptless_funding_index (state : WalletState) (reservation_id : uuid)
    : result CErr.CoreError nat :=
  ok_or (position (fun r => r.(fr_id) =? reservation_id) state.(ws_scriptless_funding_reservations))
        CErr.ScriptlessFundingReservationNotFound.
Definition funding_record (state : WalletState) (reservation_id : uuid)
    : result CErr.CoreError (nat * ScriptlessFundingReservation) :=
  let? index := find_scriptless_funding_index state reservation_id in
  let? record := ok_or (state.(ws_scriptless_funding_reservations) !! index)
                       CErr.ScriptlessFundingReservationNotFound in
  Ok (index, record).

(** The least valuable spendable outputs that cover the debit. *)
Fixpoint select_debit (debit : N) (candidates selected : list OutputRecord) (total : N)
    : result CErr.CoreError (list OutputRecord * N) :=
  match candidates with
  | [] => Ok (selected, total)
  | output :: candidates =>
      let selected := selected ++ [output] in
      let? total := ok_or (checked_add u64_max total output.(out_value)) CErr.ArithmeticOverflow in
      if debit <=? total then Ok (selected, total) else select_debit debit candidates selected total
  end.

(** The body of the loop that reserves the selected outputs. *)
Definition reserve_input (reservation_id : uuid) (reserved_output_ids : list uuid)
    : method OutputRecord CErr.CoreError unit := fun output =>
  if bool_decide (output.(out_id) ∈ reserved_output_ids) then
    if is_some output.(out_reserved_by) || negb (bool_decide (output.(out_state) = Out.Confirmed))
    then (output, Err CErr.ReservationConflict)
    else (output <| out_reserved_by := Some reservation_id |>
                 <| out_state := Out.PendingOutgoing |>, Ok tt)
  else (output, Ok tt).

(** The new reservation of a request. *)
Definition reserved_funding (id tip : N) (r : ScriptlessFundingReservationRequestV1)
    (selected : list OutputRecord) (input_commitments : list bytes) (change_value : N)
    (change_derivation_index : option N) (change_output_id : option uuid)
    : ScriptlessFundingReservation :=
  mkScriptlessFundingReservation SCRIPTLESS_FUNDING_RESERVATION_VERSION id r.(frq_session_id)
    r.(frq_shared_output_commitment) tip r.(frq_local_debit_noms) r.(frq_funding_fee_noms)
    r.(frq_expected_input_count) r.(frq_expected_output_count) (map out_id selected) input_commitments
    change_value change_derivation_index change_output_id None [] None [] None None None None None
    FundSt.Reserved.

(** The state with the inputs of a new request reserved; [id] and [change_id] are
    the new identifiers. *)
Definition reserve_funding (request : ScriptlessFundingReservationRequestV1) (id change_id tip : N)
    (state : WalletState) : result CErr.CoreError WalletState :=
  let debit := request.(frq_local_debit_noms) in
  let? selection := if debit =? 0 then Ok ([], 0)
                    else select_debit debit (spendable_outputs state) [] 0 in
  let '(selected, total) := selection in
  fail_if (total <? debit) CErr.InsufficientFunds ;?
  let change_value := total - debit in
  validate_scriptless_funding_local_shape (len selected) (if change_value =? 0 then 0 else 1)
    request.(frq_expected_input_count) request.(frq_expected_output_count) ;?
  let? change := if change_value =? 0 then Ok (state, None)
                 else let '(state, r) := reserve_recovery_coordinate 0 ROC.Change state in
                      let? coordinate := from_domain r in
                      Ok (state, Some coordinate.(rrc_derivation_index)) in
  let '(state, change_index) := change in
  let? input_commitments := foldM (fun done output =>
      let? c := ok_or output.(out_commitment) CErr.UnsupportedSpendingEvidence in
      Ok (done ++ [c])) selected [] in
  let '(outputs, r) := for_each_mut (reserve_input id (map out_id selected)) state.(ws_outputs) in
  let? _ := r in
  Ok (state <| ws_outputs := outputs |>
            <| ws_scriptless_funding_reservations ::= fun l => l ++
                 [reserved_funding id tip request selected input_commitments change_value change_index
                    ((fun _ => change_id) <$> change_index)] |>).

(** *** Preparation *)

(** The inputs of a reservation, if they are still held by it. *)
Definition resumed_inputs (state : WalletState) (reservation_id : uuid)
    (record : ScriptlessFundingReservation) : result CErr.CoreError (list WalletSlateInput) :=
  foldM (fun done input =>
      let? output := ok_or (find_first (fun o => o.(out_id) =? input.1) state.(ws_outputs))
                           CErr.ScriptlessFundingContextMismatch in
      fail_if (negb (bool_decide (output.(out_reserved_by) = Some reservation_id))
               || negb (bool_decide (output.(out_state) = Out.PendingOutgoing))
               || negb (bool_decide (output.(out_commitment) = Some input.2)))
              CErr.ScriptlessFundingContextMismatch ;?
      fail_if (negb (len input.2 =? 33)) CErr.ScriptlessFundingContextMismatch ;?
      let? blinding := ok_or (output_blinding state input.1) CErr.UnsupportedSpendingEvidence in
      Ok (done ++ [mkWalletSlateInput input.2 blinding]))
    (combine record.(fr_reserved_output_ids) record.(fr_input_commitments)) [].

Definition resumed_coordinate (state : WalletState) (class : ROC.RecoveryOutputClass) (index : option N)
    : result CErr.CoreError (option ReservedRecoveryCoordinate) :=
  match index with
  | None => Ok None
  | Some i => let? c := from_domain (resume_recovery_coordinate state 0 i class) in Ok (Some c)
  end.

(** The contribution is what was reserved for. *)
Definition funding_contribution_mismatch (record : ScriptlessFundingReservation)
    (public : ScriptlessFundingPublicComponentsV1) : bool :=
  negb (bool_decide (public.(sfp_inputs) = record.(fr_input_commitments)))
  || negb (len public.(sfp_other_outputs) =? (if record.(fr_change_value_noms) =? 0 then 0 else 1)).

Definition prepared_funding (change : option (bytes * bytes)) (public : ScriptlessFundingPublicComponentsV1)
    (context : PrivateScriptlessFundingContext) (r : ScriptlessFundingReservation)
    : ScriptlessFundingReservation :=
  r <| fr_change_commitment := fst <$> change |>
    <| fr_change_output_bytes := from_option snd [] change |>
    <| fr_offset_contribution := Some public.(sfp_offset_contribution) |>
    <| fr_wallet_excess_public_key := public.(sfp_wallet_excess_public_key) |>
    <| fr_private_context := Some context |>
    <| fr_state := FundSt.Prepared |>.

Section funding.
Context {W : Type} {codec : CoreCodec} {code : CryptoCode} {json : StateCode}.
Context {scan : WalletCoreApi W} {api : WalletSubmissionApi W} {fee_api : WalletFeeApi W}.
Context {slate_code : SlateCode} {seed_code : SeedCode} {output_code : OutputCode}.
Context {contract : ContractCode}.
Abbreviation op := (method (WalletService W) CErr.CoreError).

(** The change and the contribution are recorded in the state. *)
Definition record_funding (record : ScriptlessFundingReservation) (reservation_id : uuid)
    (prepared : PreparedScriptlessFundingContributionV1) (state : WalletState)
    : result CErr.CoreError WalletState :=
  let? found := funding_record state reservation_id in
  fail_if (negb (bool_decide (found.2.(fr_state) = FundSt.Reserved)))
          CErr.ScriptlessFundingContextMismatch ;?
  let public := prepared.(psf_public) in
  let context := mkPrivateScriptlessFundingContext prepared.(psf_wallet_excess)
                   (roo_blinding <$> prepared.(psf_change)) in
  match public.(sfp_other_outputs) with
  | output :: _ =>
      let? output_id := ok_or record.(fr_change_output_id) CErr.ScriptlessFundingContextMismatch in
      let? canonical_bytes := ok_or (output_to_bytes output) CErr.ProtocolRejected in
      let? change := ok_or prepared.(psf_change) CErr.ScriptlessFundingContextMismatch in
      Ok (set_funding found.1
            (prepared_funding (Some (output.(to_commitment), canonical_bytes)) public context)
            (add_pending_output output_id
               (mkRecoverableOwnedOutput output.(to_commitment) record.(fr_change_value_noms)
                  change.(roo_blinding)) state))
  | [] => Ok (set_funding found.1 (prepared_funding None public context) state)
  end.

(** What the system gives a preparation: the randomness of the construction, the
    blinding offset and the randomness of the commit. *)
Record PrepareDraws := mkPrepareDraws {
  pd_construction : bytes;
  pd_offset : bytes;
  pd_commit : draw;
}.

Definition scriptless_funding_resume_preparation (d : PrepareDraws) (reservation_id : uuid) : op unit :=
  let! state := unlocked_state in
  let! found := try (funding_record state reservation_id) in
  let record := found.2 in
  match record.(fr_state) with
  | FundSt.Prepared | FundSt.SessionBound | FundSt.Exported | FundSt.TemplateBound => mret tt
  | FundSt.AbandonedRetained | FundSt.Cancelled => try (Err CErr.ScriptlessFundingCannotExport)
  | FundSt.Reserved =>
      let! seed := try (canonical_seed state) in
      let! backend := the_backend in
      let! builder := try (from_backend (output_builder backend seed)) in
      let! inputs := try (resumed_inputs state reservation_id record) in
      let! coordinate := try (resumed_coordinate state ROC.Change record.(fr_change_derivation_index)) in
      let! prepared := try (from_recovery (build_scriptless_funding_contribution builder
        d.(pd_construction) d.(pd_offset) inputs record.(fr_change_value_noms) coordinate)) in
      try (fail_if (funding_contribution_mismatch record prepared.(psf_public))
                   CErr.ScriptlessFundingContextMismatch) ;;;
      let! next := try (record_funding record reservation_id prepared state) in
      commit d.(pd_commit) next
  end.

Definition scriptless_funding_summary (reservation_id : uuid) : op ScriptlessFundingReservationSummaryV1 :=
  let! state := unlocked_state in
  let! found := try (funding_record state reservation_id) in
  let record := found.2 in
  try (fail_if (u32_max <? len record.(fr_reserved_output_ids)) CErr.ArithmeticOverflow) ;;;
  mret (mkScriptlessFundingSummary reservation_id record.(fr_state) (len record.(fr_reserved_output_ids))
          (negb (record.(fr_change_value_noms) =? 0)) (is_some record.(fr_template_hash))).
Definition scriptless_funding_status := scriptless_funding_summary.

(** [random] is for the commit of a new reservation, [d] for its preparation. *)
Definition scriptless_funding_prepare (random : draw) (d : PrepareDraws) (id change_id : uuid)
    (request : ScriptlessFundingReservationRequestV1) : op ScriptlessFundingReservationSummaryV1 :=
  try (fail_if (funding_request_invalid request) CErr.InvalidScriptlessFundingRequest) ;;;
  ensure_phrase_confirmed ;;;
  let! _ := try (ok_or (commitment_from_compressed_bytes request.(frq_shared_output_commitment))
                       CErr.InvalidScriptlessFundingRequest) in
  let! identity := core_identity in
  let! minimum := on_backend (backend_minimum_fee (mkWalletTransactionShape
                    request.(frq_expected_input_count) request.(frq_expected_output_count) 1)) in
  try (fail_if (request.(frq_funding_fee_noms) <? minimum.(wfe_minimum_fee_noms)) CErr.FeeTooLow) ;;;
  let! state := unlocked_state in
  match find_first (fun r => bool_decide (r.(fr_session_id) = request.(frq_session_id)))
          state.(ws_scriptless_funding_reservations) with
  | Some existing =>
      try (fail_if (funding_request_differs existing request) CErr.ScriptlessFundingSessionConflict) ;;;
      match existing.(fr_state) with
      | FundSt.Cancelled | FundSt.AbandonedRetained => mret tt
      | _ => scriptless_funding_resume_preparation d existing.(fr_id)
      end ;;;
      scriptless_funding_summary existing.(fr_id)
  | None =>
      let! next := try (reserve_funding request id change_id (tip_height identity) state) in
      commit random next ;;;
      scriptless_funding_resume_preparation d id ;;;
      scriptless_funding_summary id
  end.

(** *** Binding and exposure *)

Definition bind_session (binding : bytes * N) (r : ScriptlessFundingReservation)
    : ScriptlessFundingReservation :=
  r <| fr_session_share_binding_digest := Some binding.1 |>
    <| fr_participant_position := Some binding.2 |>
    <| fr_state := FundSt.SessionBound |>.

Definition scriptless_funding_prepare_kernel_excess_point (d : PrepareDraws) (random : draw)
    (reservation_id : uuid) (session_share : SessionShare) : op bytes :=
  scriptless_funding_resume_preparation d reservation_id ;;;
  let! identity := core_identity in
  let! state := unlocked_state in
  let! found := try (funding_record state reservation_id) in
  let record := found.2 in
  let! binding := try (validate_session_share_binding identity.(cci_chain_id) record.(fr_session_id)
                         session_share) in
  match record.(fr_state) with
  | FundSt.Prepared => commit random (set_funding found.1 (bind_session binding) state)
  | FundSt.SessionBound | FundSt.Exported | FundSt.TemplateBound =>
      try (require_persisted_binding record.(fr_session_share_binding_digest)
             record.(fr_participant_position) binding)
  | FundSt.Reserved => try (Err CErr.ScriptlessFundingNotPrepared)
  | FundSt.AbandonedRetained | FundSt.Cancelled => try (Err CErr.ScriptlessFundingSigningNotAuthorized)
  end ;;;
  let! state := unlocked_state in
  let! found := try (funding_record state reservation_id) in
  let record := found.2 in
  try (require_persisted_binding record.(fr_session_share_binding_digest)
         record.(fr_participant_position) binding) ;;;
  let! point := try (parse_excess_public_key CErr.ScriptlessFundingContextMismatch
                       record.(fr_wallet_excess_public_key)) in
  try (ok_or (funding_kernel_excess_point session_share point) CErr.ScriptlessSessionBindingMismatch).

Definition composable (s : FundSt.ScriptlessFundingReservationState) : bool :=
  match s with FundSt.Exported | FundSt.TemplateBound => true | _ => false end.

Definition scriptless_funding_composition (record : ScriptlessFundingReservation) (chain_id : bytes)
    : result CErr.CoreError ScriptlessFundingCompositionV1 :=
  let mismatch := CErr.ScriptlessFundingContextMismatch in
  fail_if (negb (composable record.(fr_state)) || negb (is_some record.(fr_offset_contribution))
           || negb (len record.(fr_wallet_excess_public_key) =? 33)
           || negb (len record.(fr_reserved_output_ids) =? len record.(fr_input_commitments)))
          CErr.ScriptlessFundingNotPrepared ;?
  let? inputs := foldM (fun done commitment =>
      fail_if (negb (len commitment =? 33)) mismatch ;?
      let? c := ok_or (commitment_from_compressed_bytes commitment) mismatch in
      Ok (done ++ [c])) record.(fr_input_commitments) [] in
  let? other_outputs := if is_empty record.(fr_change_output_bytes) then Ok []
                        else let? o := stored_output mismatch record.(fr_change_output_bytes)
                                         record.(fr_change_commitment) in
                             Ok [o] in
  validate_scriptless_funding_local_shape (len inputs) (len other_outputs)
    record.(fr_expected_input_count) record.(fr_expected_output_count) ;?
  let? _ := ok_or (commitment_from_compressed_bytes record.(fr_shared_output_commitment)) mismatch in
  let? offset := ok_or record.(fr_offset_contribution) CErr.ScriptlessFundingNotPrepared in
  let? _ := ok_or (blinding_factor_from_bytes offset) mismatch in
  let? _ := parse_excess_public_key mismatch record.(fr_wallet_excess_public_key) in
  let? context := ok_or record.(fr_private_context) CErr.ScriptlessFundingNotPrepared in
  let? key := from_recovery (opaque_public_key RmErr.ScriptlessFundingConstruction
                               context.(fctx_wallet_excess_contribution)) in
  fail_if (negb (bool_decide (key = record.(fr_wallet_excess_public_key)))) mismatch ;?
  Ok (mkScriptlessFundingComposition record.(fr_id) record.(fr_session_id) chain_id
        record.(fr_shared_output_commitment) inputs other_outputs offset
        record.(fr_wallet_excess_public_key) record.(fr_funding_fee_noms)
        record.(fr_expected_input_count) record.(fr_expected_output_count)).

Definition set_funding_state (s : FundSt.ScriptlessFundingReservationState)
    (r : ScriptlessFundingReservation) : ScriptlessFundingReservation := r <| fr_state := s |>.

Definition scriptless_funding_export (d : PrepareDraws) (random : draw) (reservation_id : uuid)
    : op ScriptlessFundingCompositionV1 :=
  scriptless_funding_resume_preparation d reservation_id ;;;
  let! identity := core_identity in
  let! state := unlocked_state in
  let! found := try (funding_record state reservation_id) in
  match found.2.(fr_state) with
  | FundSt.SessionBound => commit random (set_funding found.1 (set_funding_state FundSt.Exported) state)
  | FundSt.Exported | FundSt.TemplateBound => mret tt
  | FundSt.Reserved | FundSt.Prepared => try (Err CErr.ScriptlessSessionBindingRequired)
  | FundSt.AbandonedRetained | FundSt.Cancelled => try (Err CErr.ScriptlessFundingCannotExport)
  end ;;;
  let! state := unlocked_state in
  let! found := try (funding_record state reservation_id) in
  try (scriptless_funding_composition found.2 identity.(cci_chain_id)).

(** The template is the one agreed on: its shape, kernel and fee, and this
    wallet's part of it exactly once. *)
Definition check_funding_template (record : ScriptlessFundingReservation) (template : ContractTemplate)
    (chain_id : bytes) : result CErr.CoreError unit :=
  fail_if (negb (bool_decide (template.(ct_role) = CRole.Funding))
           || negb (bool_decide (template.(ct_shared_output_commitment)
                                 = record.(fr_shared_output_commitment)))
           || is_zero32 template.(ct_template_hash))
          CErr.ScriptlessTemplateBindingMismatch ;?
  let transaction := template.(ct_transaction) in
  fail_if (is_empty transaction.(txn_inputs)
           || negb (len transaction.(txn_inputs) =? record.(fr_expected_input_count))
           || negb (len transaction.(txn_outputs) =? record.(fr_expected_output_count))
           || negb (len transaction.(txn_kernels) =? 1))
          CErr.ScriptlessFundingShapeMismatch ;?
  let? kernel := ok_or (head transaction.(txn_kernels)) CErr.ScriptlessFundingShapeMismatch in
  fail_if (negb (kernel.(sk_features) =? KERNEL_FEAT_PLAIN) || negb (kernel.(sk_lock_height) =? 0)
           || negb (kernel.(sk_fee) =? record.(fr_funding_fee_noms))
           || negb (bool_decide (kernel.(sk_excess_signature) = zeros 65)))
          CErr.ScriptlessTemplateBindingMismatch ;?
  let? composition := scriptless_funding_composition record chain_id in
  fail_if (existsb (fun i => negb (occurrences i transaction.(txn_inputs) =? 1)) composition.(fcp_inputs)
           || existsb (fun o => negb (occurrences o transaction.(txn_outputs) =? 1))
                composition.(fcp_other_outputs)
           || negb (occurrences record.(fr_shared_output_commitment)
                      (map to_commitment transaction.(txn_outputs)) =? 1))
          CErr.ScriptlessTemplateBindingMismatch.

Definition bind_template (hash : bytes) (participants : ScriptlessTemplateParticipantBindingV1)
    (r : ScriptlessFundingReservation) : ScriptlessFundingReservation :=
  r <| fr_template_hash := Some hash |> <| fr_template_participants := Some participants |>
    <| fr_state := FundSt.TemplateBound |>.

Definition scriptless_funding_bind_template (random : draw) (reservation_id : uuid)
    (template : ContractTemplate) (session_share : SessionShare)
    (participants : ScriptlessTemplateParticipantSetV1) : op ScriptlessFundingReservationSummaryV1 :=
  let! identity := core_identity in
  let! state := unlocked_state in
  let! found := try (funding_record state reservation_id) in
  let record := found.2 in
  try (fail_if (negb (composable record.(fr_state))) CErr.ScriptlessFundingSigningNotAuthorized) ;;;
  let! binding := try (validate_session_share_binding identity.(cci_chain_id) record.(fr_session_id)
                         session_share) in
  try (require_persisted_binding record.(fr_session_share_binding_digest)
         record.(fr_participant_position) binding) ;;;
  try (check_funding_template record template identity.(cci_chain_id)) ;;;
  let! point := try (parse_excess_public_key CErr.ScriptlessFundingContextMismatch
                       record.(fr_wallet_excess_public_key)) in
  let! local_kernel_point := try (ok_or (funding_kernel_excess_point session_share point)
                                        CErr.ScriptlessSessionBindingMismatch) in
  let! offset := try (ok_or record.(fr_offset_contribution) CErr.ScriptlessFundingNotPrepared) in
  let! participant_binding := try (validate_template_participant_set template.(ct_transaction) offset
                                     local_kernel_point binding.2 participants) in
  if bool_decide (record.(fr_state) = FundSt.TemplateBound) then
    try (fail_if (negb (bool_decide (record.(fr_template_hash) = Some template.(ct_template_hash)))
                  || negb (bool_decide (record.(fr_template_participants) = Some participant_binding)))
                 CErr.ScriptlessTemplateBindingMismatch) ;;;
    scriptless_funding_summary reservation_id
  else
    commit random (set_funding found.1 (bind_template template.(ct_template_hash) participant_binding)
                     state) ;;;
    scriptless_funding_summary reservation_id.

Definition scriptless_funding_signing_capability (reservation_id : uuid)
    : op ScriptlessSigningCapabilityV1 :=
  let! identity := core_identity in
  let! state := unlocked_state in
  let! found := try (funding_record state reservation_id) in
  let record := found.2 in
  try (fail_if (negb (bool_decide (record.(fr_state) = FundSt.TemplateBound)))
               CErr.ScriptlessFundingSigningNotAuthorized) ;;;
  let! context := try (ok_or record.(fr_private_context) CErr.ScriptlessFundingNotPrepared) in
  let! bound := try (bound_context identity.(cci_chain_id) record.(fr_session_id)
                       record.(fr_session_share_binding_digest) record.(fr_participant_position)
                       record.(fr_template_hash)) in
  let! capability := try (from_recovery (funding_signing_capability
                            context.(fctx_wallet_excess_contribution) bound)) in
  try (fail_if (negb (bool_decide (share_public_key capability.(ssc_share)
                                   = record.(fr_wallet_excess_public_key))))
               CErr.ScriptlessFundingContextMismatch) ;;;
  mret capability.

(** *** The ways out *)

(** An input that the reservation holds is released. *)
Definition release_input (reservation_id : uuid) (outputs : list OutputRecord) (output_id : uuid)
    : result CErr.CoreError (list OutputRecord) :=
  let? index := ok_or (position (fun o => o.(out_id) =? output_id) outputs)
                      CErr.ScriptlessFundingContextMismatch in
  let? output := ok_or (outputs !! index) CErr.ScriptlessFundingContextMismatch in
  fail_if (negb (bool_decide (output.(out_reserved_by) = Some reservation_id))
           || negb (bool_decide (output.(out_state) = Out.PendingOutgoing)))
          CErr.ScriptlessFundingCannotRelease ;?
  Ok (<[index := output <| out_reserved_by := None |> <| out_state := Out.Confirmed |>]> outputs).

(** The output and its secret are forgotten. *)
Definition forget_output (output_id : uuid) (state : WalletState) : WalletState :=
  state <| ws_outputs ::= List.filter (fun o => negb (o.(out_id) =? output_id)) |>
        <| ws_private_output_blindings ::= List.filter (fun s => negb (s.(pob_output_id) =? output_id)) |>.

Definition cancelled_funding (r : ScriptlessFundingReservation) : ScriptlessFundingReservation :=
  r <| fr_change_commitment := None |> <| fr_change_output_bytes := [] |>
    <| fr_offset_contribution := None |> <| fr_wallet_excess_public_key := [] |>
    <| fr_template_hash := None |> <| fr_session_share_binding_digest := None |>
    <| fr_participant_position := None |> <| fr_template_participants := None |>
    <| fr_private_context := None |> <| fr_state := FundSt.Cancelled |>.

(** The state with a reservation cancelled. *)
Definition cancel_funding (reservation_id : uuid) (state : WalletState)
    : result CErr.CoreError WalletState :=
  let? found := funding_record state reservation_id in
  let record := found.2 in
  fail_if (negb (FundSt.may_cancel_and_release record.(fr_state))) CErr.ScriptlessFundingCannotRelease ;?
  let? outputs := foldM (release_input reservation_id) record.(fr_reserved_output_ids) state.(ws_outputs) in
  let state := state <| ws_outputs := outputs |> in
  let state := match record.(fr_change_output_id) with
               | Some change_output_id => forget_output change_output_id state
               | None => state
               end in
  Ok (set_funding found.1 cancelled_funding state).

Definition scriptless_funding_cancel_unexposed (random : draw) (reservation_id : uuid)
    : op ScriptlessFundingReservationSummaryV1 :=
  let! state := unlocked_state in
  let! next := try (cancel_funding reservation_id state) in
  commit random next ;;;
  scriptless_funding_summary reservation_id.

Definition scriptless_funding_abandon_exposed (random : draw) (reservation_id : uuid)
    : op ScriptlessFundingReservationSummaryV1 :=
  let! state := unlocked_state in
  let! found := try (funding_record state reservation_id) in
  match found.2.(fr_state) with
  | FundSt.SessionBound | FundSt.Exported | FundSt.TemplateBound =>
      commit random (set_funding found.1 (set_funding_state FundSt.AbandonedRetained) state)
  | FundSt.AbandonedRetained => mret tt
  | _ => try (Err CErr.ScriptlessFundingCannotRelease)
  end ;;;
  scriptless_funding_summary reservation_id.
End funding.

(** The instance of the witnesses: sums of two parts are the first. *)
#[export] Instance sample_contracts : ContractCode := {|
  KERNEL_FEAT_PLAIN := 0;
  KERNEL_FEAT_HEIGHT_LOCKED := 2;
  blinding_factor_from_bytes := Some;
  aggregate_offset_contributions := head;
  add_public_points := head;
|}.
