(* ===== verification/Payout.v ===== *)
(** * Scriptless payouts

    The payout side of a Scriptless contract in crates/dom-wallet-core/src/lib.rs:
    the wallet's output of the claim and of the refund, reserved, prepared, bound to
    the session and to the template, exported, and the ways out.  What it shares
    with the funding side is in Funding; Contracts proves what both guarantee. *)

From S2P Require Import Prelude Bytes Codecs DomainTypes Lifecycle WalletOps CoreTypes CoreSync Recovery.
From S2P Require Import Envelope Storage Submission Fees Slates Outputs Backend Spending Service Exchange Funding.

(** ** Data *)

Record ScriptlessPayoutReservationRequestV1 := mkScriptlessPayoutRequest {
  prq_session_id : bytes;
  prq_role : PayRole.ScriptlessPayoutRoleV1;
  prq_shared_output_commitment : bytes;
  prq_payout_value_noms : N;
  prq_kernel_fee_noms : N;
  prq_expected_output_count : N;
  prq_refund_lock_height : N;
}.
Record ScriptlessPayoutReservationSummaryV1 := mkScriptlessPayoutSummary {
  psm_reservation_id : uuid;
  psm_role : PayRole.ScriptlessPayoutRoleV1;
  psm_state : PaySt.ScriptlessPayoutReservationState;
  psm_template_bound : bool;
}.
Record ScriptlessPayoutCompositionV1 := mkScriptlessPayoutComposition {
  pcp_reservation_id : uuid;
  pcp_session_id : bytes;
  pcp_chain_id : bytes;
  pcp_role : PayRole.ScriptlessPayoutRoleV1;
  pcp_shared_output_commitment : bytes;
  pcp_outputs : list TransactionOutput;
  pcp_offset_contribution : bytes;
  pcp_payout_excess_public_key : bytes;
  pcp_kernel_fee_noms : N;
  pcp_expected_output_count : N;
  pcp_refund_lock_height : N;
}.

Definition set_payout (index : nat) (f : ScriptlessPayoutReservation -> ScriptlessPayoutReservation)
    (state : WalletState) : WalletState :=
  state <| ws_scriptless_payout_reservations ::= alter f index |>.

(** ** The payout operations *)

Definition payout_role_lock_is_valid (role : PayRole.ScriptlessPayoutRoleV1) (refund_lock_height : N) : bool :=
  match role with
  | PayRole.Claim => refund_lock_height =? 0
  | PayRole.Refund => negb (refund_lock_height =? 0)
  end.
Definition payout_request_differs (existing : ScriptlessPayoutReservation)
    (r : ScriptlessPayoutReservationRequestV1) : bool :=
  negb (bool_decide (existing.(pr_shared_output_commitment) = r.(prq_shared_output_commitment)))
  || negb (existing.(pr_payout_value_noms) =? r.(prq_payout_value_noms))
  || negb (existing.(pr_kernel_fee_noms) =? r.(prq_kernel_fee_noms))
  || negb (existing.(pr_expected_output_count) =? r.(prq_expected_output_count))
  || negb (existing.(pr_refund_lock_height) =? r.(prq_refund_lock_height)).

Definition find_scriptless_payout_index (state : WalletState) (reservation_id : uuid)
    : result CErr.CoreError nat :=
  ok_or (position (fun r => r.(pr_id) =? reservation_id) state.(ws_scriptless_payout_reservations))
        CErr.ScriptlessPayoutReservationNotFound.
Definition payout_record (state : WalletState) (reservation_id : uuid)
    : result CErr.CoreError (nat * ScriptlessPayoutReservation) :=
  let? index := find_scriptless_payout_index state reservation_id in
  let? record := ok_or (state.(ws_scriptless_payout_reservations) !! index)
                       CErr.ScriptlessPayoutReservationNotFound in
  Ok (index, record).

(** The state with the coordinate of a new request used up; [id] and [output_id]
    are the new identifiers. *)
Definition reserve_payout (request : ScriptlessPayoutReservationRequestV1) (id output_id tip : N)
    (state : WalletState) : result CErr.CoreError WalletState :=
  let? output := if request.(prq_payout_value_noms) =? 0 then Ok (state, None)
                 else let '(state, r) := reserve_recovery_coordinate 0 ROC.SelfTransfer state in
                      let? coordinate := from_domain r in
                      Ok (state, Some coordinate.(rrc_derivation_index)) in
  let '(state, derivation_index) := output in
  Ok (state <| ws_scriptless_payout_reservations ::= fun l => l ++
        [mkScriptlessPayoutReservation SCRIPTLESS_PAYOUT_RESERVATION_VERSION id
           request.(prq_session_id) request.(prq_role) tip request.(prq_shared_output_commitment)
           request.(prq_payout_value_noms) request.(prq_kernel_fee_noms)
           request.(prq_expected_output_count) request.(prq_refund_lock_height)
           ((fun _ => output_id) <$> derivation_index) derivation_index None [] None [] None None None
           None None PaySt.Reserved] |>).

(** The contribution has one output of the reserved value, or none. *)
Definition payout_contribution_mismatch (record : ScriptlessPayoutReservation)
    (prepared : PreparedScriptlessPayoutContributionV1) : bool :=
  let has_output := negb (record.(pr_payout_value_noms) =? 0) in
  negb (len prepared.(psp_public).(spp_outputs) =? (if has_output then 1 else 0))
  || negb (Bool.eqb (is_some prepared.(psp_owned_output)) has_output)
  || match prepared.(psp_owned_output), prepared.(psp_public).(spp_outputs) with
     | Some owned, output :: _ =>
         negb (bool_decide (owned.(roo_commitment) = output.(to_commitment)))
         || negb (owned.(roo_value) =? record.(pr_payout_value_noms))
     | _, _ => false
     end.

Definition prepared_payout (output_bytes : bytes) (prepared : PreparedScriptlessPayoutContributionV1)
    (r : ScriptlessPayoutReservation) : ScriptlessPayoutReservation :=
  let public := prepared.(psp_public) in
  r <| pr_output_commitment := to_commitment <$> head public.(spp_outputs) |>
    <| pr_output_bytes := output_bytes |>
    <| pr_offset_contribution := Some public.(spp_offset_contribution) |>
    <| pr_payout_excess_public_key := public.(spp_payout_excess_public_key) |>
    <| pr_private_context := Some (mkPrivateScriptlessPayoutContext prepared.(psp_payout_excess)
                                     (roo_blinding <$> prepared.(psp_owned_output))) |>
    <| pr_state := PaySt.Prepared |>.

Section payout.
Context {W : Type} {codec : CoreCodec} {code : CryptoCode} {json : StateCode}.
Context {scan : WalletCoreApi W} {api : WalletSubmissionApi W} {fee_api : WalletFeeApi W}.
Context {slate_code : SlateCode} {seed_code : SeedCode} {output_code : OutputCode}.
Context {contract : ContractCode}.
Abbreviation op := (method (WalletService W) CErr.CoreError).

(** The output and the contribution are recorded in the state.  The secret of an
    output is that of [psp_owned_output], zeros without one. *)
Definition record_payout (record : ScriptlessPayoutReservation) (reservation_id : uuid)
    (output_bytes : bytes) (prepared : PreparedScriptlessPayoutContributionV1) (state : WalletState)
    : result CErr.CoreError WalletState :=
  let? found := payout_record state reservation_id in
  let output := head prepared.(psp_public).(spp_outputs) in
  fail_if (negb (bool_decide (found.2.(pr_state) = PaySt.Reserved))
           || is_some_and record.(pr_output_id)
                (fun id => existsb (fun o => o.(out_id) =? id) state.(ws_outputs))
           || is_some_and output (fun public =>
                existsb (fun o => bool_decide (o.(out_commitment) = Some public.(to_commitment)))
                  state.(ws_outputs)))
          CErr.ScriptlessPayoutContextMismatch ;?
  let state := match record.(pr_output_id), output with
               | Some output_id, Some public =>
                   add_pending_output output_id
                     (mkRecoverableOwnedOutput public.(to_commitment) record.(pr_payout_value_noms)
                        (from_option roo_blinding (zeros 32) prepared.(psp_owned_output))) state
               | _, _ => state
               end in
  Ok (set_payout found.1 (prepared_payout output_bytes prepared) state).

Definition scriptless_payout_resume_preparation (d : PrepareDraws) (reservation_id : uuid) : op unit :=
  let! state := unlocked_state in
  let! found := try (payout_record state reservation_id) in
  let record := found.2 in
  match record.(pr_state) with
  | PaySt.Prepared | PaySt.SessionBound | PaySt.ComponentsExposed | PaySt.TemplateBound => mret tt
  | PaySt.AbandonedRetained | PaySt.Cancelled => try (Err CErr.ScriptlessPayoutCannotExport)
  | PaySt.Reserved =>
      let! seed := try (canonical_seed state) in
      let! backend := the_backend in
      let! builder := try (from_backend (output_builder backend seed)) in
      let! coordinate := try (resumed_coordinate state ROC.SelfTransfer record.(pr_derivation_index)) in
      let! prepared := try (from_recovery (build_scriptless_shared_output_spend_contribution builder
        d.(pd_construction) d.(pd_offset) record.(pr_payout_value_noms) coordinate)) in
      try (fail_if (payout_contribution_mismatch record prepared) CErr.ScriptlessPayoutContextMismatch) ;;;
      let! output_bytes := try (match prepared.(psp_public).(spp_outputs) with
                                | output :: _ => ok_or (output_to_bytes output) CErr.ProtocolRejected
                                | [] => Ok []
                                end) in
      let! next := try (record_payout record reservation_id output_bytes prepared state) in
      commit d.(pd_commit) next
  end.

Definition scriptless_payout_summary (reservation_id : uuid) : op ScriptlessPayoutReservationSummaryV1 :=
  let! state := unlocked_state in
  let! found := try (payout_record state reservation_id) in
  mret (mkScriptlessPayoutSummary reservation_id found.2.(pr_role) found.2.(pr_state)
          (is_some found.2.(pr_template_hash))).
Definition scriptless_payout_status := scriptless_payout_summary.

Definition payout_request_invalid (r : ScriptlessPayoutReservationRequestV1) : bool :=
  is_zero32 r.(prq_session_id) || is_zero33 r.(prq_shared_output_commitment)
  || (MAX_PROVABLE_VALUE <? r.(prq_payout_value_noms)) || (r.(prq_kernel_fee_noms) =? 0)
  || (r.(prq_expected_output_count) =? 0)
  || negb (payout_role_lock_is_valid r.(prq_role) r.(prq_refund_lock_height)).

(** [random] is for the commit of a new reservation, [d] for its preparation. *)
Definition scriptless_payout_prepare (random : draw) (d : PrepareDraws) (id output_id : uuid)
    (request : ScriptlessPayoutReservationRequestV1) : op ScriptlessPayoutReservationSummaryV1 :=
  try (fail_if (payout_request_invalid request) CErr.InvalidScriptlessPayoutRequest) ;;;
  ensure_phrase_confirmed ;;;
  let! identity := core_identity in
  let! _ := try (ok_or (commitment_from_compressed_bytes request.(prq_shared_output_commitment))
                       CErr.InvalidScriptlessPayoutRequest) in
  let! state := unlocked_state in
  match find_first (fun r => bool_decide (r.(pr_session_id) = request.(prq_session_id))
                             && bool_decide (r.(pr_role) = request.(prq_role)))
          state.(ws_scriptless_payout_reservations) with
  | Some existing =>
      try (fail_if (payout_request_differs existing request) CErr.ScriptlessPayoutSessionConflict) ;;;
      match existing.(pr_state) with
      | PaySt.Cancelled | PaySt.AbandonedRetained => mret tt
      | _ => scriptless_payout_resume_preparation d existing.(pr_id)
      end ;;;
      scriptless_payout_summary existing.(pr_id)
  | None =>
      try (fail_if (bool_decide (request.(prq_role) = PayRole.Refund)
                    && (request.(prq_refund_lock_height) <=? tip_height identity))
                   CErr.InvalidScriptlessPayoutRequest) ;;;
      let! minimum := on_backend (backend_minimum_fee (mkWalletTransactionShape 1
                        request.(prq_expected_output_count) 1)) in
      try (fail_if (request.(prq_kernel_fee_noms) <? minimum.(wfe_minimum_fee_noms)) CErr.FeeTooLow) ;;;
      let! state := unlocked_state in
      let! next := try (reserve_payout request id output_id (tip_height identity) state) in
      commit random next ;;;
      scriptless_payout_resume_preparation d id ;;;
      scriptless_payout_summary id
  end.

(** *** Binding and exposure *)

Definition bind_payout_session (binding : bytes * N) (r : ScriptlessPayoutReservation)
    : ScriptlessPayoutReservation :=
  r <| pr_session_share_binding_digest := Some binding.1 |>
    <| pr_participant_position := Some binding.2 |>
    <| pr_state := PaySt.SessionBound |>.

Definition scriptless_payout_prepare_kernel_excess_point (d : PrepareDraws) (random : draw)
    (reservation_id : uuid) (session_share : SessionShare) : op bytes :=
  scriptless_payout_resume_preparation d reservation_id ;;;
  let! identity := core_identity in
  let! state := unlocked_state in
  let! found := try (payout_record state reservation_id) in
  let record := found.2 in
  let! binding := try (validate_session_share_binding identity.(cci_chain_id) record.(pr_session_id)
                         session_share) in
  match record.(pr_state) with
  | PaySt.Prepared => commit random (set_payout found.1 (bind_payout_session binding) state)
  | PaySt.SessionBound | PaySt.ComponentsExposed | PaySt.TemplateBound =>
      try (require_persisted_binding record.(pr_session_share_binding_digest)
             record.(pr_participant_position) binding)
  | PaySt.Reserved => try (Err CErr.ScriptlessPayoutNotPrepared)
  | PaySt.AbandonedRetained | PaySt.Cancelled => try (Err CErr.ScriptlessPayoutSigningNotAuthorized)
  end ;;;
  let! state := unlocked_state in
  let! found := try (payout_record state reservation_id) in
  let record := found.2 in
  try (require_persisted_binding record.(pr_session_share_binding_digest)
         record.(pr_participant_position) binding) ;;;
  let! point := try (parse_excess_public_key CErr.ScriptlessPayoutContextMismatch
                       record.(pr_payout_excess_public_key)) in
  try (ok_or (spend_kernel_excess_point session_share point) CErr.ScriptlessSessionBindingMismatch).

Definition payout_composable (s : PaySt.ScriptlessPayoutReservationState) : bool :=
  match s with PaySt.ComponentsExposed | PaySt.TemplateBound => true | _ => false end.

Definition scriptless_payout_composition (record : ScriptlessPayoutReservation) (chain_id : bytes)
    : result CErr.CoreError ScriptlessPayoutCompositionV1 :=
  let mismatch := CErr.ScriptlessPayoutContextMismatch in
  let has_output := negb (record.(pr_payout_value_noms) =? 0) in
  fail_if (negb (payout_composable record.(pr_state))
           || Bool.eqb (is_empty record.(pr_output_bytes)) has_output
           || negb (Bool.eqb (is_some record.(pr_output_commitment)) has_output)
           || negb (is_some record.(pr_offset_contribution))
           || negb (len record.(pr_payout_excess_public_key) =? 33)
           || (record.(pr_expected_output_count) =? 0))
          CErr.ScriptlessPayoutNotPrepared ;?
  let? outputs := if has_output
                  then let? o := stored_output mismatch record.(pr_output_bytes)
                                   record.(pr_output_commitment) in
                       Ok [o]
                  else Ok [] in
  fail_if (record.(pr_expected_output_count) <? len outputs) mismatch ;?
  let? _ := ok_or (commitment_from_compressed_bytes record.(pr_shared_output_commitment)) mismatch in
  let? offset := ok_or record.(pr_offset_contribution) CErr.ScriptlessPayoutNotPrepared in
  let? _ := ok_or (blinding_factor_from_bytes offset) mismatch in
  let? _ := parse_excess_public_key mismatch record.(pr_payout_excess_public_key) in
  let? context := ok_or record.(pr_private_context) CErr.ScriptlessPayoutNotPrepared in
  fail_if (negb (Bool.eqb (is_some context.(pctx_output_blinding)) has_output)) mismatch ;?
  let output_blinding := default (zeros 32) context.(pctx_output_blinding) in
  let? _ := match outputs with
            | output :: _ =>
                let? factor := ok_or (blinding_factor_from_bytes output_blinding) mismatch in
                fail_if (negb (bool_decide (commitment_of record.(pr_payout_value_noms) factor
                                            = output.(to_commitment)))) mismatch
            | [] => Ok tt
            end in
  let? recomputed := ok_or (sender_excess_blinding [] (if has_output then Some output_blinding else None)
                              offset) mismatch in
  fail_if (negb (bool_decide (recomputed = context.(pctx_payout_excess_contribution)))) mismatch ;?
  let? key := from_recovery (opaque_public_key RmErr.ScriptlessPayoutConstruction
                               context.(pctx_payout_excess_contribution)) in
  fail_if (negb (bool_decide (key = record.(pr_payout_excess_public_key)))) mismatch ;?
  Ok (mkScriptlessPayoutComposition record.(pr_id) record.(pr_session_id) chain_id record.(pr_role)
        record.(pr_shared_output_commitment) outputs offset record.(pr_payout_excess_public_key)
        record.(pr_kernel_fee_noms) record.(pr_expected_output_count) record.(pr_refund_lock_height)).

Definition set_payout_state (s : PaySt.ScriptlessPayoutReservationState)
    (r : ScriptlessPayoutReservation) : ScriptlessPayoutReservation := r <| pr_state := s |>.

Definition scriptless_payout_export (d : PrepareDraws) (random : draw) (reservation_id : uuid)
    : op ScriptlessPayoutCompositionV1 :=
  scriptless_payout_resume_preparation d reservation_id ;;;
  let! identity := core_identity in
  let! state := unlocked_state in
  let! found := try (payout_record state reservation_id) in
  match found.2.(pr_state) with
  | PaySt.SessionBound => commit random (set_payout found.1 (set_payout_state PaySt.ComponentsExposed) state)
  | PaySt.ComponentsExposed | PaySt.TemplateBound => mret tt
  | PaySt.Reserved | PaySt.Prepared => try (Err CErr.ScriptlessSessionBindingRequired)
  | PaySt.AbandonedRetained | PaySt.Cancelled => try (Err CErr.ScriptlessPayoutCannotExport)
  end ;;;
  let! state := unlocked_state in
  let! found := try (payout_record state reservation_id) in
  try (scriptless_payout_composition found.2 identity.(cci_chain_id)).

Definition contract_role (role : PayRole.ScriptlessPayoutRoleV1) : CRole.ContractTxRoleV1 :=
  match role with PayRole.Claim => CRole.Claim | PayRole.Refund => CRole.Refund end.

(** The template spends the shared output with the agreed kernel, and has this
    wallet's output exactly once. *)
Definition check_payout_template (record : ScriptlessPayoutReservation) (template : ContractTemplate)
    (chain_id : bytes) : result CErr.CoreError unit :=
  let mismatch := CErr.ScriptlessTemplateBindingMismatch in
  fail_if (negb (bool_decide (template.(ct_role) = contract_role record.(pr_role)))
           || negb (bool_decide (template.(ct_shared_output_commitment)
                                 = record.(pr_shared_output_commitment)))
           || is_zero32 template.(ct_template_hash)) mismatch ;?
  let transaction := template.(ct_transaction) in
  fail_if (negb (bool_decide (transaction.(txn_inputs) = [record.(pr_shared_output_commitment)]))
           || is_empty transaction.(txn_outputs)
           || negb (len transaction.(txn_outputs) =? record.(pr_expected_output_count))
           || negb (len transaction.(txn_kernels) =? 1)) mismatch ;?
  let? kernel := ok_or (head transaction.(txn_kernels)) mismatch in
  let expected_kernel := match record.(pr_role) with
    | PayRole.Claim => (kernel.(sk_features) =? KERNEL_FEAT_PLAIN) && (kernel.(sk_lock_height) =? 0)
    | PayRole.Refund => (kernel.(sk_features) =? KERNEL_FEAT_HEIGHT_LOCKED)
                        && (kernel.(sk_lock_height) =? record.(pr_refund_lock_height))
    end in
  fail_if (negb expected_kernel || negb (kernel.(sk_fee) =? record.(pr_kernel_fee_noms))
           || negb (bool_decide (kernel.(sk_excess_signature) = zeros 65))) mismatch ;?
  let? composition := scriptless_payout_composition record chain_id in
  fail_if (existsb (fun o => negb (occurrences o transaction.(txn_outputs) =? 1))
             composition.(pcp_outputs)) mismatch.

Definition bind_payout_template (hash : bytes) (participants : ScriptlessTemplateParticipantBindingV1)
    (r : ScriptlessPayoutReservation) : ScriptlessPayoutReservation :=
  r <| pr_template_hash := Some hash |> <| pr_template_participants := Some participants |>
    <| pr_state := PaySt.TemplateBound |>.

Definition scriptless_payout_bind_template (random : draw) (reservation_id : uuid)
    (template : ContractTemplate) (session_share : SessionShare)
    (participants : ScriptlessTemplateParticipantSetV1) : op ScriptlessPayoutReservationSummaryV1 :=
  let! identity := core_identity in
  let! state := unlocked_state in
  let! found := try (payout_record state reservation_id) in
  let record := found.2 in
  try (fail_if (negb (payout_composable record.(pr_state))) CErr.ScriptlessPayoutSigningNotAuthorized) ;;;
  let! binding := try (validate_session_share_binding identity.(cci_chain_id) record.(pr_session_id)
                         session_share) in
  try (require_persisted_binding record.(pr_session_share_binding_digest)
         record.(pr_participant_position) binding) ;;;
  try (check_payout_template record template identity.(cci_chain_id)) ;;;
  let! point := try (parse_excess_public_key CErr.ScriptlessPayoutContextMismatch
                       record.(pr_payout_excess_public_key)) in
  let! local_kernel_point := try (ok_or (spend_kernel_excess_point session_share point)
                                        CErr.ScriptlessSessionBindingMismatch) in
  let! offset := try (ok_or record.(pr_offset_contribution) CErr.ScriptlessPayoutNotPrepared) in
  let! participant_binding := try (validate_template_participant_set template.(ct_transaction) offset
                                     local_kernel_point binding.2 participants) in
  if bool_decide (record.(pr_state) = PaySt.TemplateBound) then
    try (fail_if (negb (bool_decide (record.(pr_template_hash) = Some template.(ct_template_hash)))
                  || negb (bool_decide (record.(pr_template_participants) = Some participant_binding)))
                 CErr.ScriptlessTemplateBindingMismatch) ;;;
    scriptless_payout_summary reservation_id
  else
    commit random (set_payout found.1 (bind_payout_template template.(ct_template_hash)
                                         participant_binding) state) ;;;
    scriptless_payout_summary reservation_id.

Definition scriptless_payout_signing_capability (reservation_id : uuid)
    : op ScriptlessSigningCapabilityV1 :=
  let! identity := core_identity in
  let! state := unlocked_state in
  let! found := try (payout_record state reservation_id) in
  let record := found.2 in
  try (fail_if (negb (bool_decide (record.(pr_state) = PaySt.TemplateBound)))
               CErr.ScriptlessPayoutSigningNotAuthorized) ;;;
  let! context := try (ok_or record.(pr_private_context) CErr.ScriptlessPayoutNotPrepared) in
  let! bound := try (bound_context identity.(cci_chain_id) record.(pr_session_id)
                       record.(pr_session_share_binding_digest) record.(pr_participant_position)
                       record.(pr_template_hash)) in
  let! capability := try (from_recovery (payout_signing_capability
                            context.(pctx_payout_excess_contribution) bound)) in
  try (fail_if (negb (bool_decide (share_public_key capability.(ssc_share)
                                   = record.(pr_payout_excess_public_key))))
               CErr.ScriptlessPayoutContextMismatch) ;;;
  mret capability.

(** *** The ways out *)

Definition cancelled_payout (r : ScriptlessPayoutReservation) : ScriptlessPayoutReservation :=
  r <| pr_output_commitment := None |> <| pr_output_bytes := [] |>
    <| pr_offset_contribution := None |> <| pr_payout_excess_public_key := [] |>
    <| pr_template_hash := None |> <| pr_session_share_binding_digest := None |>
    <| pr_participant_position := None |> <| pr_template_participants := None |>
    <| pr_private_context := None |> <| pr_state := PaySt.Cancelled |>.

(** The state with a payout cancelled. *)
Definition cancel_payout (reservation_id : uuid) (state : WalletState)
    : result CErr.CoreError WalletState :=
  let? found := payout_record state reservation_id in
  let record := found.2 in
  fail_if (negb (PaySt.may_cancel_unexposed record.(pr_state))) CErr.ScriptlessPayoutCannotRelease ;?
  let state := match record.(pr_output_id) with
               | Some output_id => forget_output output_id state
               | None => state
               end in
  Ok (set_payout found.1 cancelled_payout state).

Definition scriptless_payout_cancel_unexposed (random : draw) (reservation_id : uuid)
    : op ScriptlessPayoutReservationSummaryV1 :=
  let! state := unlocked_state in
  let! next := try (cancel_payout reservation_id state) in
  commit random next ;;;
  scriptless_payout_summary reservation_id.

Definition scriptless_payout_abandon_exposed (random : draw) (reservation_id : uuid)
    : op ScriptlessPayoutReservationSummaryV1 :=
  let! state := unlocked_state in
  let! found := try (payout_record state reservation_id) in
  match found.2.(pr_state) with
  | PaySt.SessionBound | PaySt.ComponentsExposed | PaySt.TemplateBound =>
      commit random (set_payout found.1 (set_payout_state PaySt.AbandonedRetained) state)
  | PaySt.AbandonedRetained => mret tt
  | _ => try (Err CErr.ScriptlessPayoutCannotRelease)
  end ;;;
  scriptless_payout_summary reservation_id.
End payout.
