(* ===== verification/Answers.v ===== *)
(** * What the node's answers do to a send

    A node's answer to a submission is checked against the request before it is
    used (Submission), and then moves the record of the send (Service).  Which
    answers are used, which records a user may still cancel, and which records can
    no longer be moved by anything but evidence from the chain. *)

From S2P Require Import Prelude Bytes DomainTypes Lifecycle WalletOps CoreTypes Submission Fees Backend.
From S2P Require Import Spending Service.

(** ** Lemmas *)

Lemma mismatch_false expected actual :
  mismatch expected actual = false
  <-> forall e a, expected = Some e -> actual = Some a -> a = e.
Proof.
  destruct expected as [e|], actual as [a|]; simpl; [|naive_solver..].
  rewrite negb_false_iff, bool_decide_eq_true. naive_solver.
Qed.

(** What the answer of a node must satisfy to be used. *)
Record consistent_answer (expected_hash expected_kernel : option bytes) (r : SubmissionResult) : Prop := {
  ca_relay : r.(sr_relayed) = true -> r.(sr_broadcast_attempted) = true;
  ca_hash : forall h, expected_hash = Some h -> r.(sr_tx_hash) = h;
  ca_kernel : forall k k', expected_kernel = Some k -> r.(sr_primary_kernel_excess) = Some k' -> k' = k;
  ca_accepted : r.(sr_kind) = Kind.Accepted -> r.(sr_accepted_to_mempool) = true;
  ca_rejected : rejected_kind r.(sr_kind) = true ->
    r.(sr_accepted_to_mempool) = false /\ r.(sr_broadcast_attempted) = false /\ r.(sr_relayed) = false;
}.

(** The node reports that it holds the transaction. *)
Definition sighting (query : Query.WalletSubmissionQuery) (status : option WStatus.WalletTransactionStatus)
    : bool :=
  match query with
  | Query.InMempool _ | Query.Confirmed _ _ _ => true
  | Query.Rejected outcome | Query.TemporarilyUnavailable outcome =>
      match outcome with WOut.AlreadyKnown _ => true | _ => false end
  | Query.Unknown => match status with
                     | Some WStatus.InMempool | Some (WStatus.Confirmed _ _) => true
                     | _ => false
                     end
  end.

Lemma move_refused next ev t :
  t.(tx_lifecycle) <> next -> transition_table t.(tx_lifecycle) next ev = false ->
  move next ev t = (t, Err (CErr.Domain DErr.InvalidTransactionTransition)).
Proof.
  intros Hne Ht. unfold move, transition_mut, transition.
  rewrite bool_decide_eq_false_2, Ht by done. done.
Qed.

Lemma outcome_refused outcome t t' r :
  t.(tx_lifecycle) = L.ReconciliationRequired -> apply_submission_outcome outcome t = (t', r) ->
  (if outcome is WOut.AlreadyKnown _ then true else false) = false ->
  t'.(tx_lifecycle) = L.ReconciliationRequired /\ r = Err (CErr.Domain DErr.InvalidTransactionTransition).
Proof.
  intros Ht. unfold apply_submission_outcome, mthen, mark_submitted, massign.
  destruct outcome; intros H Hs; try done; try (rewrite move_refused in H by (by rewrite Ht); by injection H as <- <-).
  destruct (ev_relayed value); rewrite move_refused in H by (simpl; by rewrite Ht); by injection H as <- <-.
Qed.

(** ** Properties *)

(** Only consistent answers are used.  The answer of a node to a submission,
    a repetition or a query is used exactly when it names the transaction that was
    asked for, a relay was a broadcast, an acceptance reached the mempool and a
    rejection touched nothing; what the wallet then learns is the answer's kind and
    facts, unchanged.  Any other answer is an inconsistency error. *)
Theorem answers_match_their_requests result expected_hash expected_kernel :
  let r := map_submission_result result expected_hash expected_kernel in
  let consistent := consistent_answer expected_hash expected_kernel result in
  (consistent -> r = Ok (outcome_of result.(sr_kind)
     (mkWalletSubmissionEvidence result.(sr_tx_hash) result.(sr_primary_kernel_excess)
        result.(sr_accepted_to_mempool) result.(sr_broadcast_attempted) result.(sr_relayed)
        (diagnostic_from <$> result.(sr_diagnostic)))))
  /\ (~ consistent -> exists code, r = Err (SubErr.InconsistentResult code)).
Proof.
  intros r consistent. unfold r, consistent, map_submission_result.
  match goal with |- context [Ok ?x] => set (answer := x) end. cbv zeta.
  split.
  - intros [H1 H2 H3 H4 H5]. repeat match goal with |- (fail_if ?b _ ;? _) = _ =>
      replace b with false; [simpl|symmetry] end; try done.
    + destruct (rejected_kind _) eqn:Er; [|done]. by destruct (H5 eq_refl) as (_ & -> & ->).
    + destruct (rejected_kind _) eqn:Er; [|done]. by destruct (H5 eq_refl) as (-> & _).
    + destruct (bool_decide_reflect (sr_kind result = Kind.Accepted)) as [Hk|]; [by rewrite H4|done].
    + apply mismatch_false. intros e a He Ha. by eapply H3.
    + apply mismatch_false. intros e a He [= <-]. by apply H2.
    + destruct (sr_relayed result) eqn:Er; [by rewrite H1|done].
  - intros Hno. repeat match goal with |- context [fail_if ?b (SubErr.InconsistentResult ?c)] =>
      let E := fresh "E" in destruct b eqn:E; [by exists c|simpl] end.
    exfalso. apply Hno. split.
    + intros Hr. rewrite Hr in E. by apply negb_false_iff in E.
    + intros h Hh. eapply mismatch_false in E0; done.
    + intros k k' Hk Hk'. eapply mismatch_false in E1; done.
    + intros Hk. rewrite (bool_decide_eq_true_2 _ Hk) in E2. by apply negb_false_iff in E2.
    + intros Hk. rewrite Hk in E3, E4. simpl in *. apply orb_false_iff in E4 as []. auto.
Qed.

(** What is offered is what is possible.  The summary of a record offers to
    cancel it exactly when the record is not cancelled yet and cancelling it, once
    confirmed, would succeed. *)
Theorem cancel_is_offered_when_possible state slate i t
    (Hfound : first_of_slate state slate i t) :
  (transaction_summary_from t).(sum_manual_cancel_allowed) = true
  <-> t.(tx_lifecycle) <> L.Cancelled
      /\ (transaction_cancel state slate true).2 = Ok t.(tx_id).
Proof.
  destruct Hfound as [Hfound Hrecord]. unfold transaction_cancel. rewrite Hfound, Hrecord. simpl.
  rewrite andb_true_iff, bool_decide_eq_true, negb_true_iff. unfold transition.
  destruct (tx_exposure t) eqn:Ee; simpl;
    [|split; [by intros [[=] _]|intros [_ H]; exfalso; revert H; repeat case_match; done]..].
  rewrite andb_false_r. destruct (tx_lifecycle t) eqn:El; simpl; repeat case_bool_decide; simpl; naive_solver.
Qed.

(** C30 A stalled send waits for the chain.  Once the record of a send requires
    reconciliation, it can neither be submitted again nor cancelled, so its inputs
    stay reserved; and no answer to a reconciliation moves it, or is even
    accepted if it reports a failure or a rejection, unless the node reports to
    hold the transaction in its mempool or its chain. *)
Theorem stalled_sends_wait_for_the_chain state slate i t query status t' r
    (Hfound : first_of_slate state slate i t)
    (Hstalled : t.(tx_lifecycle) = L.ReconciliationRequired)
    (Hexposed : t.(tx_exposure) <> Exp.NeverBroadcast)
    (Hquery : apply_submission_query query status t = (t', r))
    (Hsighting : sighting query status = false) :
  (forall retry, submittable retry t.(tx_lifecycle) = false)
  /\ (forall confirm, transaction_cancel state slate confirm = ([], Err CErr.CannotCancelTransaction))
  /\ t'.(tx_lifecycle) = L.ReconciliationRequired
  /\ (query = Query.Unknown -> r = Ok tt)
  /\ (query <> Query.Unknown -> r = Err (CErr.Domain DErr.InvalidTransactionTransition)).
Proof.
  destruct Hfound as [Hfound Hrecord]. split; [by rewrite Hstalled|]. split.
  { intros confirm. unfold transaction_cancel. rewrite Hfound, Hrecord.
    destruct (tx_exposure t) eqn:Ee; [done|..]; simpl; by rewrite ?bool_decide_eq_true_2. }
  unfold apply_submission_query in Hquery.
  assert (Hrefused : forall outcome, apply_submission_outcome outcome t = (t', r) ->
    (if outcome is WOut.AlreadyKnown _ then true else false) = false ->
    t'.(tx_lifecycle) = L.ReconciliationRequired
    /\ r = Err (CErr.Domain DErr.InvalidTransactionTransition)).
  { intros outcome H Hs. by eapply outcome_refused. }
  destruct query as [outcome|h b o|outcome| |outcome]; [done|done|..].
  - by apply Hrefused in Hquery as [-> ->].
  - assert (H : move L.ReconciliationRequired Ev.ReconciliationEvidence t = (t', r)).
    { destruct status as [[]|]; try done. by rewrite Hstalled in Hquery. }
    unfold move, transition_mut, transition in H. rewrite Hstalled in H. injection H as <- <-. done.
  - by apply Hrefused in Hquery as [-> ->].
Qed.

(** ** Witnesses *)

Definition answer_evidence : WalletSubmissionEvidence :=
  mkWalletSubmissionEvidence (sample_bytes 32 Byte.x77) None false false false None.
Definition stalled_tx : LocalTransactionIntent :=
  kernel_tx <| tx_slate_id := Some 61 |> <| tx_lifecycle := L.ReconciliationRequired |>.
Definition stalled_wallet : WalletState := fresh_wallet <| ws_transactions := [stalled_tx] |>.

Lemma stalled_sends_wait_for_the_chain_witness :
  transaction_cancel stalled_wallet 61 true = ([], Err CErr.CannotCancelTransaction)
  /\ (apply_submission_query (Query.TemporarilyUnavailable (WOut.TemporaryFailure answer_evidence)) None
        stalled_tx).2 = Err (CErr.Domain DErr.InvalidTransactionTransition).
Proof.
  destruct (stalled_sends_wait_for_the_chain stalled_wallet 61 0 stalled_tx
              (Query.TemporarilyUnavailable (WOut.TemporaryFailure answer_evidence)) None stalled_tx
              (Err (CErr.Domain DErr.InvalidTransactionTransition))) as (_ & H & _);
    [vm_compute; (done || split; reflexivity)..|].
  split; [apply H|vm_compute; reflexivity].
Defined.
