(* ===== verification/Sessions.v ===== *)
(** * Sessions of the wallet service

    What the operations of the service (Service) guarantee together: whatever
    file-system calls fail, the directory of an unlocked wallet always opens with
    its password, never to an earlier generation, and nothing is stored on top of a
    generation the service does not hold; a submission is on disk before the node
    hears of it, and can never be cancelled afterwards. *)

From S2P Require Import Prelude Bytes DomainTypes Lifecycle SwapSession WalletOps Validation CoreTypes.
From S2P Require Import Projection CoreSync Recovery Envelope Storage Reload Submission Fees Backend Spending SyncSink.
From S2P Require Import Slates Outputs Service Exchange Funding Payout.

(** ** Lemmas: the directory *)

Section directory.
Context {code : CryptoCode} {json : StateCode} {claws : CryptoLaws code} {slaws : StateLaws json}.
Implicit Types (p : bytes) (g : N) (s t : WalletState) (d : Disk) (w : World).

(** The directory opens with the password, to generation [g] or a later one. *)
Definition stored p g d : Prop :=
  exists t, typed_state t /\ published p t d /\ g <= t.(ws_generation).
(** It opens to the state in memory, or to one of another generation. *)
Definition backed p g s d : Prop :=
  exists t, typed_state t /\ published p t d /\ g <= t.(ws_generation)
            /\ (t = s \/ t.(ws_generation) <> s.(ws_generation)).

Lemma backed_stored p g s d : backed p g s d -> stored p g d.
Proof. intros (t & ? & ? & ? & _). by exists t. Qed.
Lemma backed_self p g s d : typed_state s -> published p s d -> g <= s.(ws_generation) -> backed p g s d.
Proof. intros. exists s. auto. Qed.

(** A commit of [state] over [s], when the directory opens to [t]. *)
Lemma commit_exact p s t random state kdf encoding w w' r :
  commit_with_encoding random s.(ws_generation) state p kdf encoding w = (w', r) ->
  typed_state t -> published p t w.(w_disk) -> t = s \/ t.(ws_generation) <> s.(ws_generation) ->
  let new := committed_state state s.(ws_generation) in
  let done := t = s /\ WalletState_validate new = Ok tt /\ typed_state new
              /\ published p new w'.(w_disk) in
  match r with
  | Ok s' => s' = new /\ done
  | Err _ => published p t w'.(w_disk) \/ done
  end.
Proof.
  intros Hrun Ht [m Hm] Hst. simpl.
  pose proof (triple_commit p m t state _ random kdf encoding _ _ _ Hrun Hm) as H.
  assert (Hc : committable m t state (ws_generation s) ->
    t = s /\ WalletState_validate (committed_state state (ws_generation s)) = Ok tt
    /\ typed_state (committed_state state (ws_generation s))).
  { intros Hc. pose proof Hc as (E & _ & _ & Hv & _). split; [destruct Hst; congruence|].
    split; [done|]. eapply committed_typed; [apply Hm|done|done]. }
  destruct r as [s'|e].
  - destruct H as (-> & H & Hp). split; [done|]. destruct (Hc H) as (? & ? & ?). auto.
  - destruct H as [H|[H Hp]]; [left; by exists m|right]. destruct (Hc H) as (? & ? & ?). auto.
Qed.

Lemma commit_backed p g s random state kdf encoding w w' r :
  commit_with_encoding random s.(ws_generation) state p kdf encoding w = (w', r) ->
  typed_state s -> backed p g s w.(w_disk) ->
  match r with
  | Ok s' => typed_state s' /\ backed p g s' w'.(w_disk)
  | Err _ => backed p g s w'.(w_disk)
  end.
Proof.
  intros Hrun Hs (t & Ht & Hp & Hg & Hst).
  pose proof (commit_exact _ _ _ _ _ _ _ _ _ _ Hrun Ht Hp Hst) as H. simpl in H.
  set (new := committed_state state (ws_generation s)) in *.
  assert (Hgen : ws_generation new = ws_generation s + 1) by done.
  destruct r as [s'|e].
  - destruct H as (-> & -> & _ & Hn & Hp'). split; [done|]. apply backed_self; try done. lia.
  - destruct H as [H|(-> & _ & Hn & Hp')]; [by exists t|]. exists new.
    split; [done|]. split; [done|]. split; [lia|right; lia].
Qed.

Lemma load_exact p t random w w' r :
  load random p w = (w', r) -> published p t w.(w_disk) ->
  published p t w'.(w_disk) /\ match r with Ok s => s = t | Err _ => True end.
Proof.
  intros Hrun [m Hm]. pose proof (triple_load p m t random _ _ _ Hrun Hm) as H.
  destruct r; [by destruct H|done].
Qed.

Lemma load_backed p g random w w' r :
  load random p w = (w', r) -> stored p g w.(w_disk) ->
  match r with
  | Ok s => typed_state s /\ backed p g s w'.(w_disk)
  | Err _ => stored p g w'.(w_disk)
  end.
Proof.
  intros Hrun (t & Ht & Hp & Hg). destruct (load_exact _ _ _ _ _ _ Hrun Hp) as [Hp' H].
  destruct r as [s|]; [|by exists t]. subst s. split; [done|]. by apply backed_self.
Qed.

Lemma metadata_keeps p t w w' r :
  metadata w = (w', r) -> published p t w.(w_disk) -> published p t w'.(w_disk).
Proof.
  intros Hrun [m Hm]. pose proof (triple_metadata p m t _ _ _ Hrun Hm) as H.
  destruct r; [destruct H|]; by exists m.
Qed.
Lemma metadata_backed p g s w w' r :
  metadata w = (w', r) -> backed p g s w.(w_disk) -> backed p g s w'.(w_disk).
Proof. intros Hrun (t & ? & Hp & ?). exists t. eauto using metadata_keeps. Qed.
Lemma metadata_stored p g w w' r :
  metadata w = (w', r) -> stored p g w.(w_disk) -> stored p g w'.(w_disk).
Proof. intros Hrun (t & ? & Hp & ?). exists t. eauto using metadata_keeps. Qed.
End directory.

(** ** Lemmas: the sink of a pass *)

Section sink.
Context {codec : CoreCodec} {code : CryptoCode} {json : StateCode}.
Context {claws : CryptoLaws code} {slaws : StateLaws json}.
Context {seed : RecoverySeed} {random : SinkRandom}.

(** The sink's directory backs its state. *)
Definition sink_backed (p : bytes) (g : N) (k : WalletRecoverySink) : Prop :=
  k.(rs_password) = p /\ typed_state k.(rs_state) /\ backed p g k.(rs_state) k.(rs_directory).(w_disk).

Lemma sink_commit_backed batch cursor reorg k k' r p g :
  sink_commit batch cursor reorg k = (k', r) -> sink_backed p g k -> sink_backed p g k'.
Proof.
  intros Hrun (<- & Ht & Hb). destruct (sink_projected batch cursor reorg k) as [next|] eqn:Hp.
  - destruct (sink_store next k) as [w r'] eqn:Hw.
    destruct (sink_commit_projected _ _ _ _ _ _ _ Hp Hw) as (k1 & Hk & Hd & Hpw & Hs).
    rewrite Hk in Hrun. injection Hrun as <- _. split; [done|]. rewrite Hd, Hs.
    pose proof (commit_backed _ _ _ _ _ _ _ _ _ _ Hw Ht Hb) as H. by destruct r'.
  - destruct (sink_commit_refused _ _ _ _ Hp) as (k1 & e & Hk & _ & Hd & Hpw & Hs).
    rewrite Hk in Hrun. injection Hrun as <- _. unfold sink_backed. by rewrite Hd, Hpw, Hs.
Qed.

Lemma sink_recover_backed error k k' r p g :
  sink_recover_generation_conflict error k = (k', r) -> sink_backed p g k -> sink_backed p g k'.
Proof.
  intros Hrun Hk. unfold sink_recover_generation_conflict in Hrun.
  assert (Hother : forall k1, k1 = k <| rs_last_generation_conflict := None |> -> sink_backed p g k1)
    by (intros ? ->; exact Hk).
  destruct (wse_source error) as []; try (injection Hrun as <- _; by apply Hother).
  match goal with e : StErr.StorageError |- _ => destruct e end;
    try (injection Hrun as <- _; by apply Hother).
  simpl in Hrun. destruct (load _ _ _) as [w r'] eqn:Hl. destruct Hk as (<- & Ht & t & Htt & Hp & Hg & Hst).
  destruct (load_exact _ _ _ _ _ _ Hl Hp) as [Hp' Hr]. destruct r' as [s|e].
  - subst s. injection Hrun as <- _. split; [done|]. split; [done|]. by apply backed_self.
  - injection Hrun as <- _. split; [done|]. split; [done|]. by exists t.
Qed.
End sink.

(** ** Lemmas: reconciliation keeps what its sink keeps *)

Section reconcile.
Context {codec : CoreCodec} {W : Type} {api : WalletCoreApi W}.
Context {K Error : Type} {sink : CoreScanTransactionSink K Error} (I : K -> Prop).
Context (Hbatch : forall batch c k k' r, commit_core_batch batch c k = (k', r) -> I k -> I k').
Context (Hreorg : forall anchor batch c k k' r, commit_core_reorg anchor batch c k = (k', r) -> I k -> I k').
Context (Hrecover : forall e k k' r, recover_generation_conflict e k = (k', r) -> I k -> I k').
Implicit Types (self : CoreChainAdapter).

Definition sink_kept (s s' : W * K) : Prop := I s.2 -> I s'.2.
#[local] Instance sink_kept_preorder : PreOrder sink_kept.
Proof. split; [intros s H; exact H|intros s1 s2 s3 H1 H2 H; exact (H2 (H1 H))]. Qed.

Lemma kept_pure {A} (r : result SErr.CoreScanError A) : moves sink_kept (pure r).
Proof. intros s s' r' [= <- _] H. exact H. Qed.
Lemma kept_ret {A} (a : A) : moves (E := SErr.CoreScanError) sink_kept (mret a).
Proof. intros s s' r' [= <- _] H. exact H. Qed.
Lemma kept_api {A} (m : method W SErr.CoreScanError A) : moves sink_kept (on_api m).
Proof. intros s s' r. unfold on_api. destruct (m s.1). intros [= <- _] H. exact H. Qed.
Lemma kept_read {A} stage (f : K -> result Error A) : moves sink_kept (read_sink stage f).
Proof. intros s s' r [= <- _] H. exact H. Qed.

Lemma kept_attempts n commit k k' r :
  (forall k k' r, commit k = (k', r) -> I k -> I k') ->
  commit_attempts n commit k = (k', r) -> I k -> I k'.
Proof.
  intros Hc. revert k. induction n as [|n IH]; intros k H Hk; simpl in H; [by injection H as <- _|].
  destruct (commit k) as [k1 [u|e]] eqn:E1; [injection H as <- _; eauto|].
  destruct (recover_generation_conflict e k1) as [k2 [b|e']] eqn:E2; [|injection H as <- _; eauto].
  destruct (negb b || _); [injection H as <- _; eauto|]. eapply IH; eauto.
Qed.
Lemma kept_retry commit :
  (forall k k' r, commit k = (k', r) -> I k -> I k') ->
  moves sink_kept (commit_with_generation_retry commit).
Proof.
  intros Hc s s' r. unfold commit_with_generation_retry.
  destruct (commit_attempts _ commit s.2) as [k1 r1] eqn:E. intros [= <- _] Hs.
  by eapply kept_attempts.
Qed.

Create HintDb kept discriminated.
Hint Resolve kept_pure kept_ret kept_api kept_read kept_retry : kept.
Hint Extern 1 (moves _ (mthen _ _)) => apply (moves_mthen sink_kept); [|intros ?] : kept.
Hint Extern 2 (moves _ (if ?b then _ else _)) => destruct b : kept.
Hint Extern 2 (moves _ (match ?b with _ => _ end)) => destruct b : kept.

Lemma kept_find_anchor heights : moves sink_kept (find_anchor heights).
Proof. induction heights; simpl; eauto with kept. Qed.
Hint Resolve kept_find_anchor : kept.

Lemma kept_normal batch : moves sink_kept (commit_normal batch).
Proof.
  unfold commit_normal. destruct (cb_commit_cursor batch) as [c|]; [|auto with kept].
  apply (moves_mthen sink_kept); [|auto with kept]. apply kept_retry, Hbatch.
Qed.
Lemma kept_reorg self cursor : moves sink_kept (reconcile_reorg self cursor).
Proof.
  unfold reconcile_reorg, find_safe_anchor.
  do 5 (apply (moves_mthen sink_kept); [eauto 8 with kept|intros ?]).
  apply (moves_mthen sink_kept); [|auto with kept]. apply kept_retry, Hreorg.
Qed.
Hint Resolve kept_normal kept_reorg : kept.

Lemma kept_once self : moves sink_kept (reconcile_once self).
Proof.
  unfold reconcile_once. apply (moves_mthen sink_kept); [auto with kept|].
  intros [|cursor| |cursor]; [eauto with kept| |auto with kept..].
  intros s s' r. destruct (on_api _ s) as [s1 r1] eqn:E. apply kept_api in E. intros H.
  transitivity s1; [exact E|]. clear E. destruct r1 as [a|e].
  - revert H. apply (moves_mthen sink_kept); auto with kept.
  - destruct e; try (by injection H as <- _); by eapply kept_reorg.
Qed.
Hint Resolve kept_once : kept.

Lemma kept_wallet_once self : moves sink_kept (reconcile_wallet_once self).
Proof.
  unfold reconcile_wallet_once, bootstrap_batch.
  apply (moves_mthen sink_kept); [auto with kept|]. intros []; eauto 12 with kept.
Qed.
Hint Resolve kept_wallet_once : kept.

Lemma kept_to_tip self fuel : moves sink_kept (reconcile_to_tip self fuel).
Proof.
  induction fuel as [|fuel IH]; simpl; [auto with kept|]. apply (moves_mthen sink_kept).
  - unfold tip_step. eauto 15 with kept.
  - intros []; auto with kept.
Qed.
End reconcile.

(** ** Lemmas: the operations of the service *)

Section operations.
Context {W : Type} {codec : CoreCodec} {code : CryptoCode} {json : StateCode}.
Context {claws : CryptoLaws code} {slaws : StateLaws json}.
Context {scan : WalletCoreApi W} {api : WalletSubmissionApi W} {fee_api : WalletFeeApi W}.
Context {slate_code : SlateCode} {seed_code : SeedCode} {output_code : OutputCode}.
Context {contract : ContractCode}.
Context (from_entropy : bytes -> option RecoverySeed).
Abbreviation service := (WalletService W).
Implicit Types (self : service) (p : bytes) (g : N).

Definition open_state (st : App.ApplicationState) : Prop := st <> App.Locked /\ st <> App.Closed.

(** The service tracks its directory: it opens with the password to generation
    [g] or a later one, and an unlocked state is what it opens to, or of another
    generation; a locked service holds no state. *)
Record tracks p g self : Prop := {
  tr_stored : forall w, self.(sv_location) = Some w -> stored p g w.(w_disk);
  tr_unlocked : forall s, self.(sv_unlocked) = Some s ->
    self.(sv_password) = Some p /\ typed_state s
    /\ exists w, self.(sv_location) = Some w /\ backed p g s w.(w_disk);
  tr_open : self.(sv_unlocked) <> None -> open_state self.(sv_state);
}.

Definition kept_tracking self self' : Prop := forall p g, tracks p g self -> tracks p g self'.
#[export] Instance kept_tracking_preorder : PreOrder kept_tracking.
Proof. split; [intros s p g H; exact H|intros s1 s2 s3 H1 H2 p g H; exact (H2 p g (H1 p g H))]. Qed.
Abbreviation tracking := (moves kept_tracking).

Lemma tracks_frame self self' :
  self'.(sv_location) = self.(sv_location) -> self'.(sv_unlocked) = self.(sv_unlocked) ->
  self'.(sv_password) = self.(sv_password) ->
  self'.(sv_state) = self.(sv_state) \/ open_state self'.(sv_state) -> kept_tracking self self'.
Proof.
  intros H1 H2 H3 H4 p g []. split; rewrite ?H1, ?H2, ?H3; try done.
  intros Hu. destruct H4 as [->|H4]; auto.
Qed.
Ltac frame := apply tracks_frame; [done|done|done|first [by left|by right]].

Lemma tracking_read {A} (f : service -> result CErr.CoreError A) : tracking (mread f).
Proof. apply (moves_mread kept_tracking). Qed.
Lemma tracking_assign (f : service -> service) :
  (forall self, kept_tracking self (f self)) -> moves (E := CErr.CoreError) kept_tracking (massign f).
Proof. apply moves_massign. Qed.
Lemma tracking_ret {A} (a : A) : moves (E := CErr.CoreError) kept_tracking (mret a).
Proof. intros self self' r [= <- _]. reflexivity. Qed.
Lemma tracking_then {A B} (m : method service CErr.CoreError A) (k : A -> method service CErr.CoreError B) :
  tracking m -> (forall a, tracking (k a)) -> tracking (mthen m k).
Proof. apply (moves_mthen kept_tracking). Qed.
Lemma tracking_backend {A} (m : method (ProductionWalletBackend W) PBErr.ProductionBackendError A) :
  tracking (on_backend m).
Proof.
  intros self self' r. unfold on_backend. destruct (sv_backend self) as [b|]; [|by intros [= <- _]].
  destruct (m b) as [b' r']. intros [= <- _]. frame.
Qed.

Lemma tracking_metadata : tracking (on_directory metadata).
Proof.
  intros self self' r. unfold on_directory. destruct (sv_location self) as [w|] eqn:Hl; [|by intros [= <- _]].
  destruct (metadata w) as [w' r'] eqn:E. intros [= <- _] p g [Hs Hu Ho]. split; [| |exact Ho].
  - intros w1 [= <-]. eapply metadata_stored; [exact E|]. by apply Hs.
  - intros s Hs'. simpl in *. destruct (Hu s Hs') as (? & ? & w1 & Hw & Hb). split; [done|]. split; [done|].
    exists w'. split; [done|]. rewrite Hl in Hw. injection Hw as <-. eapply metadata_backed; eauto.
Qed.

(** What a commit of the service does. *)
Lemma commit_run random state self self' r :
  commit random state self = (self', r) ->
  (self' = self /\ exists e, r = Err e)
  \/ exists s w p w1 r1, self.(sv_unlocked) = Some s /\ self.(sv_location) = Some w
     /\ self.(sv_password) = Some p
     /\ commit_with_encoding random s.(ws_generation) state p self.(sv_kdf) self.(sv_state_encoding) w
        = (w1, r1)
     /\ match r1 with
        | Err e => self' = self <| sv_location := Some w1 |> /\ r = Err (CErr.Storage e)
        | Ok new => exists w2 r2, metadata w1 = (w2, r2)
            /\ match r2 with
               | Err e => self' = self <| sv_location := Some w2 |> /\ r = Err (CErr.Storage e)
               | Ok m => self' = self <| sv_location := Some w2 |> <| sv_metadata := Some m |>
                                      <| sv_unlocked := Some new |> /\ r = Ok tt
               end
        end.
Proof.
  unfold commit, unlocked_state, mthen, mread. destruct (sv_unlocked self) as [s|] eqn:Hu; simpl;
    [|by intros [= <- <-]; left; eauto].
  destruct (sv_location self) as [w|] eqn:Hl; simpl; [|by intros [= <- <-]; left; eauto].
  unfold password_text. destruct (sv_password self) as [p|] eqn:Hp; simpl; [|by intros [= <- <-]; left; eauto].
  destruct (negb (is_utf8 p)); simpl; [by intros [= <- <-]; left; eauto|].
  unfold on_directory at 1. rewrite Hl. destruct (commit_with_encoding _ _ _ _ _ _ w) as [w1 r1] eqn:E.
  intros H. right. exists s, w, p, w1, r1. split; [done|]. split; [done|]. split; [done|].
  split; [done|]. destruct r1 as [new|e]; simpl in H;
    [|by injection H as <- <-; split; [destruct self; simpl in *; subst|]].
  unfold on_directory in H. simpl in H. destruct (metadata w1) as [w2 r2] eqn:E2.
  exists w2, r2. split; [done|]. destruct r2; simpl in H; injection H as <- <-;
    (split; [by destruct self; simpl in *; subst|done]).
Qed.

Lemma tracking_commit random state : tracking (commit random state).
Proof.
  intros self self' r Hrun p g [Hs Hu Ho].
  apply commit_run in Hrun as [(-> & _)|(s & w & p' & w1 & r1 & Hus & Hl & Hp & Hrun & H)]; [done|].
  destruct (Hu s Hus) as (Hpp & Ht & w' & Hw & Hb). rewrite Hl in Hw. injection Hw as <-.
  rewrite Hp in Hpp. injection Hpp as ->. pose proof (commit_backed _ _ _ _ _ _ _ _ _ _ Hrun Ht Hb) as Hc.
  destruct r1 as [new|e].
  - destruct H as (w2 & r2 & Hm & H). destruct Hc as [Htn Hbn].
    apply (metadata_backed _ _ _ _ _ _ Hm) in Hbn.
    assert (Hb' : backed p g s w2.(w_disk)).
    { destruct Hb as (t & Htt & Hpt & Hg & Hst).
      destruct (commit_exact _ _ _ _ _ _ _ _ _ _ Hrun Htt Hpt Hst) as (-> & -> & _ & _ & Hpub).
      exists (committed_state state (ws_generation s)). split; [done|].
      split; [by eapply metadata_keeps|]. simpl. split; [lia|right; lia]. }
    destruct r2 as [m|e]; destruct H as [-> _].
    + split; simpl; [intros w3 [= <-]; by eapply backed_stored| |by intros _; apply Ho; rewrite Hus].
      intros s3 [= <-]. split; [done|]. split; [done|]. by exists w2.
    + split; simpl; [intros w3 [= <-]; by eapply backed_stored| |exact Ho].
      intros s3 Hs3. rewrite Hus in Hs3. injection Hs3 as <-. split; [done|]. split; [done|]. by exists w2.
  - destruct H as [-> _]. split; simpl; [intros w3 [= <-]; by eapply backed_stored| |exact Ho].
    intros s3 Hs3. rewrite Hus in Hs3. injection Hs3 as <-. split; [done|]. split; [done|]. by exists w1.
Qed.

(** *** A synchronisation pass *)

(** Neither the directory nor the unlocked state changes. *)
Definition framed self self' : Prop :=
  self'.(sv_location) = self.(sv_location) /\ self'.(sv_unlocked) = self.(sv_unlocked)
  /\ self'.(sv_password) = self.(sv_password) /\ self'.(sv_state) = self.(sv_state).
#[export] Instance framed_preorder : PreOrder framed.
Proof.
  split; [done|]. intros s1 s2 s3 (? & ? & ? & ?) (? & ? & ? & ?). repeat split; congruence.
Qed.
Lemma framed_tracking self self' : framed self self' -> kept_tracking self self'.
Proof. intros (? & ? & ? & ?). apply tracks_frame; auto. Qed.
Lemma framed_backend {A} (m : method (ProductionWalletBackend W) PBErr.ProductionBackendError A) :
  moves framed (on_backend m).
Proof.
  intros self self' r. unfold on_backend. destruct (sv_backend self) as [b|]; [|by intros [= <- _]].
  destruct (m b) as [b' r']. by intros [= <- _].
Qed.

Lemma prepare_pass_run self self' r :
  prepare_pass from_entropy self = (self', r) ->
  framed self self'
  /\ match r with
     | Ok setup => self'.(sv_unlocked) = Some setup.(ps_state)
                   /\ self'.(sv_location) = Some setup.(ps_location)
                   /\ self'.(sv_password) = Some setup.(ps_password)
     | Err _ => True
     end.
Proof.
  intros H. split.
  - revert H. revert self self' r. unfold prepare_pass.
    do 6 (apply (moves_mthen framed); [apply framed_backend || apply (moves_mread framed)|intros ?]).
    apply (moves_mread framed).
  - destruct r as [setup|e]; [|done]. unfold prepare_pass in H.
    do 6 (apply mthen_Ok in H as (? & ? & _ & H)). injection H as <- H.
    apply rbind_Ok in H as (location & Hl%ok_or_Ok & H).
    apply rbind_Ok in H as (password & Hp & H). apply rbind_Ok in H as (backend & _ & H).
    apply rbind_Ok in H as (state & Hs%ok_or_Ok & [= <-]). simpl. split; [done|]. split; [done|].
    unfold password_text in Hp. apply rbind_Ok in Hp as (p & Hp%ok_or_Ok & Hq).
    apply then_Ok in Hq as [_ [= <-]]. done.
Qed.

Lemma reconcile_pass_backed {random : SinkRandom} {seed : RecoverySeed} pass fuel b k b' k' r p g :
  reconcile_pass pass fuel (b, k) = ((b', k'), r) -> sink_backed p g k -> sink_backed p g k'.
Proof.
  intros H. assert (Hover : forall {A} (m : CoreChainAdapter -> method (W * WalletRecoverySink) SErr.CoreScanError A) r,
    (forall chain, moves (sink_kept (W := W) (sink_backed p g)) (m chain)) ->
    over_sink m (b, k) = ((b', k'), r) -> sink_backed p g k -> sink_backed p g k').
  { intros A m r0 Hm Hrun Hk. unfold over_sink in Hrun. simpl in Hrun.
    destruct (m (pb_chain b) (pb_api b, k)) as [[w1 k1] r1] eqn:E. injection Hrun as <- <- _.
    by apply (Hm _ _ _ _ E). }
  assert (Hc : forall batch c k k' r, sink_commit batch c None k = (k', r) ->
                 sink_backed p g k -> sink_backed p g k') by (intros *; apply sink_commit_backed).
  assert (Hr : forall anchor batch c k k' r, sink_commit batch c (Some anchor) k = (k', r) ->
                 sink_backed p g k -> sink_backed p g k') by (intros *; apply sink_commit_backed).
  assert (He : forall e k k' r, sink_recover_generation_conflict e k = (k', r) ->
                 sink_backed p g k -> sink_backed p g k') by (intros *; apply sink_recover_backed).
  destruct pass; simpl in H.
  - unfold mthen in H. destruct (reconcile_page (b, k)) as [[b1 k1] r1] eqn:E.
    assert ((b1, k1) = (b', k')) as [= -> ->] by (by destruct r1; injection H as <- <-).
    eapply Hover; [|exact E]. intros chain. by apply kept_wallet_once.
  - eapply Hover; [|exact H]. intros chain. apply (kept_to_tip (sink_backed p g)); assumption.
Qed.

Lemma tracking_finish result sink : tracking (finish_pass result sink).
Proof.
  unfold finish_pass. destruct result as [done_|error].
  - repeat first [apply tracking_then; [|intros ?] | apply tracking_metadata | apply tracking_read
                 | apply tracking_ret | apply tracking_assign; intros; frame].
  - intros self self' r. destruct (rs_last_storage_failure sink ≫= terminal_error) as [[c e]|].
    + intros [= <- _]. frame.
    + intros [= <- _]. unfold finish_sync_failure, record_sync_failure.
      destruct (is_transient_sync_unavailability error); frame.
Qed.

Lemma tracking_pass random pass fuel : tracking (run_sync_pass from_entropy random pass fuel).
Proof.
  intros self self' r H. unfold run_sync_pass, mthen in H.
  destruct (prepare_pass from_entropy self) as [self1 [setup|e]] eqn:E;
    apply prepare_pass_run in E as [Hf Hs]; [|injection H as <- _; by apply framed_tracking].
  transitivity self1; [by apply framed_tracking|]. clear Hf. destruct Hs as (Hu & Hl & Hp).
  destruct (reconcile_pass _ _ _) as [[b k] result] eqn:E. intros p g [Hst Hun Ho].
  apply (tracking_finish _ _ _ _ _ H). destruct (Hun _ Hu) as (Hpp & Ht & w & Hw & Hb).
  rewrite Hl in Hw. injection Hw as <-. rewrite Hp in Hpp. injection Hpp as Hpp.
  eapply reconcile_pass_backed in E; [|split; [exact Hpp|]; split; [exact Ht|exact Hb]].
  destruct E as (_ & Htk & Hbk). split; simpl; [| |done].
  - intros w [= <-]. by eapply backed_stored.
  - intros s [= <-]. split; [by rewrite Hp, Hpp|]. split; [done|]. by eexists.
Qed.

(** *** The other operations *)

Lemma tracking_try {A} (r : result CErr.CoreError A) : tracking (try r).
Proof. apply tracking_read. Qed.
Lemma tracking_commits random states : tracking (mfor states (commit random)).
Proof. apply (moves_mfor kept_tracking). intros s. apply tracking_commit. Qed.

Create HintDb tracking discriminated.
Hint Resolve tracking_read tracking_try tracking_ret tracking_backend tracking_metadata tracking_commit
  tracking_commits tracking_pass : tracking.
Hint Extern 1 (moves _ (mthen _ _)) => apply tracking_then; [|intros ?] : tracking.
Hint Extern 2 (moves _ (match ?b with _ => _ end)) => destruct b : tracking.
Ltac track := eauto 20 with tracking.

Lemma tracking_summary id : tracking (transaction_summary id).
Proof. unfold transaction_summary, unlocked_state. track. Qed.
Hint Resolve tracking_summary : tracking.
Lemma tracking_record_submission random slate retry : tracking (record_submission random slate retry).
Proof. unfold record_submission, ensure_phrase_confirmed, unlocked_state. track. Qed.
Lemma tracking_record_outcome random slate outcome : tracking (record_outcome random slate outcome).
Proof. unfold record_outcome, unlocked_state. track. Qed.
Hint Resolve tracking_record_submission tracking_record_outcome : tracking.
Lemma tracking_submit random random' slate retry : tracking (submit_transaction random random' slate retry).
Proof. unfold submit_transaction. track. Qed.
Lemma tracking_reconcile random slate : tracking (transaction_reconcile_submission random slate).
Proof. unfold transaction_reconcile_submission, the_backend, unlocked_state. track. Qed.
Lemma tracking_cancel random slate confirm : tracking (service_transaction_cancel random slate confirm).
Proof.
  unfold service_transaction_cancel, unlocked_state. apply tracking_then; [track|intros state].
  destruct (transaction_cancel state slate confirm). track.
Qed.
Lemma tracking_update random id m : tracking (update_session random id m).
Proof.
  unfold update_session, unlocked_state. do 3 (apply tracking_then; [track|intros ?]).
  destruct (m _). track.
Qed.
Hint Resolve tracking_update : tracking.
Lemma tracking_draft random record : tracking (swap_session_create_draft random record).
Proof. unfold swap_session_create_draft, unlocked_state. cbv zeta. track. Qed.
Lemma tracking_note random id error now : tracking (swap_session_note_error random id error now).
Proof. unfold swap_session_note_error, unlocked_state. track. Qed.
Lemma tracking_node_configuration random configuration :
  tracking (set_node_configuration random configuration).
Proof. unfold set_node_configuration, unlocked_state. track. Qed.
Lemma tracking_mining random enabled threads : tracking (set_mining_preferences random enabled threads).
Proof. unfold set_mining_preferences, mining_preferences, unlocked_state. track. Qed.

Lemma tracking_retry {A} n (attempts : nat -> method service CErr.CoreError A) :
  (forall n, tracking (attempts n)) -> tracking (retry_transient_rescan_synchronization n attempts).
Proof.
  intros Ha. induction n as [|n IH]; [apply Ha|]. destruct n as [|n]; [apply Ha|].
  intros self self' r H. simpl in H. destruct (attempts (S (S n)) self) as [self1 [a|e]] eqn:E;
    apply Ha in E; [by injection H as <- _|].
  destruct (transient_sync_error e); [|by injection H as <- _].
  transitivity self1; [done|]. by eapply IH.
Qed.
Lemma tracking_rescan random sync_random fuel :
  tracking (rescan_from_genesis from_entropy random sync_random fuel).
Proof.
  unfold rescan_from_genesis, unlocked_state. do 2 (apply tracking_then; [track|intros ?]).
  destruct (rewind_recovery_state _ _ _). do 2 (apply tracking_then; [track|intros ?]).
  apply tracking_retry. intros n. apply tracking_pass.
Qed.
Lemma tracking_attach backend : tracking (attach_backend backend).
Proof.
  unfold attach_backend. do 2 (apply tracking_then; [track|intros ?]).
  intros self self' r. destruct (backend_current_identity backend) as [b r1].
  destruct (from_backend r1); intros [= <- _]; frame.
Qed.
Lemma tracking_lock : tracking lock.
Proof.
  unfold lock. apply tracking_then; [track|intros ?]. apply tracking_assign. intros self p g [Hs Hu Ho].
  by split.
Qed.
Lemma tracking_close shutdown : tracking (close shutdown).
Proof.
  intros self self' r H p g [Hs Hu Ho].
  set (self1 := if is_some (sv_location self) then (lock self).1 else self).
  assert (E : (if is_some (sv_location self) then lock self else (self, Ok tt)) = (self1, Ok tt)).
  { unfold self1, lock, mthen, mread, massign. by destruct (sv_location self). }
  assert (Hn : sv_unlocked self1 = None).
  { unfold self1, lock, mthen, mread, massign. destruct (sv_location self) as [w|] eqn:El; [done|].
    destruct (sv_unlocked self) as [s|] eqn:Eu; [|done].
    destruct (Hu s eq_refl) as (_ & _ & w & Hw & _). done. }
  assert (Hl : sv_location self1 = sv_location self).
  { unfold self1, lock, mthen, mread, massign. by destruct (sv_location self) eqn:El. }
  unfold close, mthen in H. rewrite E in H. destruct (sv_backend self1) as [b|].
  - destruct shutdown as [[]|e]; injection H as <- _; (split; simpl; rewrite ?Hl, ?Hn; done).
  - injection H as <- _. split; simpl; rewrite ?Hl, ?Hn; done.
Qed.

(** *** Slates and contracts *)

Lemma tracking_assigned (f : service -> service) :
  (forall self, framed self (f self)) -> moves (E := CErr.CoreError) kept_tracking (massign f).
Proof. intros H. apply tracking_assign. intros self. by apply framed_tracking. Qed.
Lemma tracking_ensure : tracking ensure_phrase_confirmed.
Proof. unfold ensure_phrase_confirmed, unlocked_state. track. Qed.
Lemma tracking_core_identity : tracking core_identity.
Proof. unfold core_identity. track. Qed.
Lemma tracking_unlocked : tracking unlocked_state.
Proof. apply tracking_read. Qed.
Lemma tracking_the_backend : tracking the_backend.
Proof. apply tracking_read. Qed.
Hint Resolve tracking_ensure tracking_core_identity tracking_unlocked tracking_the_backend : tracking.

Lemma tracking_select requested amount cands sel total fee :
  tracking (select_outputs requested amount cands sel total fee).
Proof. revert sel total fee. induction cands as [|o cands IH]; intros sel total fee; simpl; track. Qed.
Hint Resolve tracking_select : tracking.
Lemma tracking_reserve d amount requested lock expires :
  tracking (reserve_inputs d amount requested lock expires).
Proof. unfold reserve_inputs. cbv zeta. track. Qed.
Lemma tracking_build_offer d ids identity reserved amount lock expires sender receiver :
  tracking (build_offer d ids identity reserved amount lock expires sender receiver).
Proof. unfold build_offer. eauto 40 with tracking. Qed.
Hint Resolve tracking_reserve tracking_build_offer : tracking.
Lemma tracking_send d amount requested sender receiver lock expires :
  tracking (transaction_send_create_with_identities d amount requested sender receiver lock expires).
Proof.
  unfold transaction_send_create_with_identities. apply tracking_then; [track|intros [identity reserved]].
  apply tracking_then; [track|intros ids]. cbv zeta. apply tracking_then; [track|intros [parts envelope]].
  do 3 (apply tracking_then; [track|intros ?]). apply tracking_then; [|intros ?; track].
  by apply tracking_assigned.
Qed.
Hint Resolve tracking_send : tracking.
Lemma tracking_cover d amount requested expires policy :
  tracking (transaction_send_create_with_cover d amount requested expires policy).
Proof. unfold transaction_send_create_with_cover. track. Qed.
Lemma tracking_addresses d amount requested sender receiver expires :
  tracking (transaction_send_create_with_addresses d amount requested sender receiver expires).
Proof. unfold transaction_send_create_with_addresses, transaction_send_create_recoverable. track. Qed.
Lemma tracking_slate_export role f slate : tracking (slate_export role f slate).
Proof. unfold slate_export. track. Qed.
Lemma tracking_request random id now text : tracking (slate_request_import random id now text).
Proof. unfold slate_request_import. cbv zeta. eauto 30 with tracking. Qed.
Lemma tracking_response random random' construction output slate :
  tracking (slate_response_create random random' construction output slate).
Proof.
  unfold slate_response_create. apply tracking_then.
  - unfold reserve_response. do 3 (apply tracking_then; [track|intros ?]).
    destruct (reserve_recovery_coordinate _ _ _). track.
  - intros [[identity index] coordinate]. apply tracking_then; [unfold build_response; eauto 40 with tracking|].
    intros [recipient response]. cbv zeta. track.
Qed.
Lemma tracking_response_import random text : tracking (slate_response_import random text).
Proof. unfold slate_response_import. cbv zeta. eauto 40 with tracking. Qed.
Lemma tracking_finalize random slate : tracking (transaction_finalize random slate).
Proof. unfold transaction_finalize. eauto 30 with tracking. Qed.
Lemma tracking_finalized_export slate : tracking (transaction_finalized_export slate).
Proof. unfold transaction_finalized_export. eauto 30 with tracking. Qed.
Lemma tracking_finalized_import random slate b :
  tracking (transaction_finalized_verify_and_import random slate b).
Proof. unfold transaction_finalized_verify_and_import. eauto 30 with tracking. Qed.

Lemma tracking_funding_summary id : tracking (scriptless_funding_summary id).
Proof. unfold scriptless_funding_summary. cbv zeta. track. Qed.
Lemma tracking_funding_resume d id : tracking (scriptless_funding_resume_preparation d id).
Proof. unfold scriptless_funding_resume_preparation. cbv zeta. eauto 50 with tracking. Qed.
Hint Resolve tracking_funding_summary tracking_funding_resume : tracking.
Lemma tracking_funding_prepare random d id change request :
  tracking (scriptless_funding_prepare random d id change request).
Proof. unfold scriptless_funding_prepare. eauto 50 with tracking. Qed.
Lemma tracking_funding_point d random id share :
  tracking (scriptless_funding_prepare_kernel_excess_point d random id share).
Proof. unfold scriptless_funding_prepare_kernel_excess_point. cbv zeta. eauto 50 with tracking. Qed.
Lemma tracking_funding_export d random id : tracking (scriptless_funding_export d random id).
Proof. unfold scriptless_funding_export. eauto 50 with tracking. Qed.
Lemma tracking_funding_bind random id template share participants :
  tracking (scriptless_funding_bind_template random id template share participants).
Proof. unfold scriptless_funding_bind_template. cbv zeta. eauto 50 with tracking. Qed.
Lemma tracking_funding_capability id : tracking (scriptless_funding_signing_capability id).
Proof. unfold scriptless_funding_signing_capability. cbv zeta. eauto 50 with tracking. Qed.
Lemma tracking_funding_cancel random id : tracking (scriptless_funding_cancel_unexposed random id).
Proof. unfold scriptless_funding_cancel_unexposed. track. Qed.
Lemma tracking_funding_abandon random id : tracking (scriptless_funding_abandon_exposed random id).
Proof. unfold scriptless_funding_abandon_exposed. track. Qed.

Lemma tracking_payout_summary id : tracking (scriptless_payout_summary id).
Proof. unfold scriptless_payout_summary. track. Qed.
Lemma tracking_payout_resume d id : tracking (scriptless_payout_resume_preparation d id).
Proof. unfold scriptless_payout_resume_preparation. cbv zeta. eauto 50 with tracking. Qed.
Hint Resolve tracking_payout_summary tracking_payout_resume : tracking.
Lemma tracking_payout_prepare random d id output request :
  tracking (scriptless_payout_prepare random d id output request).
Proof. unfold scriptless_payout_prepare. eauto 50 with tracking. Qed.
Lemma tracking_payout_point d random id share :
  tracking (scriptless_payout_prepare_kernel_excess_point d random id share).
Proof. unfold scriptless_payout_prepare_kernel_excess_point. cbv zeta. eauto 50 with tracking. Qed.
Lemma tracking_payout_export d random id : tracking (scriptless_payout_export d random id).
Proof. unfold scriptless_payout_export. eauto 50 with tracking. Qed.
Lemma tracking_payout_bind random id template share participants :
  tracking (scriptless_payout_bind_template random id template share participants).
Proof. unfold scriptless_payout_bind_template. cbv zeta. eauto 50 with tracking. Qed.
Lemma tracking_payout_capability id : tracking (scriptless_payout_signing_capability id).
Proof. unfold scriptless_payout_signing_capability. cbv zeta. eauto 50 with tracking. Qed.
Lemma tracking_payout_cancel random id : tracking (scriptless_payout_cancel_unexposed random id).
Proof. unfold scriptless_payout_cancel_unexposed. track. Qed.
Lemma tracking_payout_abandon random id : tracking (scriptless_payout_abandon_exposed random id).
Proof. unfold scriptless_payout_abandon_exposed. track. Qed.

(** *** Operations of a locked service *)

Lemma tracks_put p g w self :
  stored p g w.(w_disk) -> self.(sv_unlocked) = None -> tracks p g (self <| sv_location := Some w |>).
Proof. intros Hw Hn. split; simpl; [by intros ? [= <-]|by rewrite Hn|by rewrite Hn]. Qed.

Lemma load_run random p g self self' r :
  on_directory (load random p) self = (self', r) -> tracks p g self -> self.(sv_unlocked) = None ->
  tracks p g self' /\ self'.(sv_unlocked) = None
  /\ match r with
     | Ok s => typed_state s /\ exists w, self'.(sv_location) = Some w /\ backed p g s w.(w_disk)
     | Err _ => True
     end.
Proof.
  intros H Htr Hn. unfold on_directory in H. pose proof (tr_stored _ _ _ Htr) as Hs.
  destruct (sv_location self) as [w|]; [|by injection H as <- <-].
  destruct (load random p w) as [w' r'] eqn:E.
  pose proof (load_backed _ _ _ _ _ _ E (Hs _ eq_refl)) as Hb.
  injection H as <- <-. destruct r' as [s|e]; simpl.
  - destruct Hb as [Ht Hb]. split; [apply tracks_put; [by eapply backed_stored|done]|]. eauto.
  - split; [by apply tracks_put|done].
Qed.

Lemma locked_holds_nothing p g self :
  tracks p g self -> self.(sv_state) = App.Locked -> self.(sv_unlocked) = None.
Proof.
  intros Htr Hl. destruct (sv_unlocked self) eqn:E; [|done].
  destruct (tr_open _ _ _ Htr) as [Hne _]; [by rewrite E|done].
Qed.

(** Unlocking with the password of the directory. *)
Lemma unlock_inner_tracks random p g self self' r :
  unlock_inner random p self = (self', r) -> tracks p g self -> self.(sv_unlocked) = None ->
  tracks p g self' /\ (self'.(sv_unlocked) = None \/ exists a, r = Ok a).
Proof.
  intros H Htr Hn. unfold unlock_inner in H.
  apply mthen_inv in H as [(e & [= <- _] & ->)|(self1 & u & [= <- _] & H)]; [by split; [|left]|].
  apply mthen_inv in H as [(e & H & ->)|(self1 & state & H & H')];
    apply load_run with (g := g) in H as (Htr1 & Hn1 & Hs); try done; [by split; [|left]|].
  apply mthen_inv in H' as [(e & [=] & ->)|(self2 & backend & [= <- <-] & H')].
  apply mthen_inv in H' as [(e & [= <- _] & ->)|(self2 & u' & [= <- _] & H')]; [by split; [|left]|].
  injection H' as <- <-. split; [|right; by eexists]. destruct Hs as (Ht & w & Hw & Hb).
  split; simpl; [apply Htr1| |done]. intros ? [= <-]. eauto.
Qed.

Lemma unlock_tracks random p g self self' r :
  unlock random p self = (self', r) -> tracks p g self -> tracks p g self'.
Proof.
  intros H Htr. unfold unlock in H.
  apply mthen_inv in H as [(e & [= <- _] & ->)|(self1 & u & H & H')]; [done|].
  injection H as <- H. apply fail_if_Ok, negb_false_iff, bool_decide_eq_true in H.
  pose proof (locked_holds_nothing _ _ _ Htr H) as Hn.
  apply mthen_inv in H' as [(e & [=] & ->)|(self2 & u' & [= <- _] & H'')].
  destruct (unlock_inner random p _) as [self3 r3] eqn:E.
  apply unlock_inner_tracks with (g := g) in E as [[Hs Hu Ho] Hr]; [| |done].
  - destruct r3 as [summary|error]; injection H'' as <- _; [by split|].
    destruct Hr as [Hr|[a [=]]]. split; simpl; [done|by rewrite Hr|by rewrite Hr].
  - destruct Htr as [Hs Hu Ho]. split; simpl; [done|by rewrite Hn|by rewrite Hn].
Qed.

Lemma tracking_refresh :
  tracking (let! m := on_directory metadata in massign (fun self => self <| sv_metadata := Some m |>)).
Proof. apply tracking_then; [apply tracking_metadata|intros m]. apply tracking_assign. intros self. frame. Qed.

(** The ceremony of the recovery phrase commits while the wallet is locked. *)
Lemma phrase_tracks random random' p g self self' r :
  recovery_phrase_confirmed random random' p self = (self', r) -> tracks p g self -> tracks p g self'.
Proof.
  intros H Htr. unfold recovery_phrase_confirmed in H.
  apply mthen_inv in H as [(e & [= <- _] & ->)|(self1 & u & H & H')]; [done|].
  injection H as <- H. apply fail_if_Ok, negb_false_iff, bool_decide_eq_true in H.
  pose proof (locked_holds_nothing _ _ _ Htr H) as Hn.
  apply mthen_inv in H' as [(e & [= <- _] & ->)|(self1 & u' & [= <- _] & H1)]; [done|].
  apply mthen_inv in H1 as [(e & H1 & ->)|(self1 & state & H1 & H2)];
    apply load_run with (g := g) in H1 as (Htr1 & Hn1 & Hs); try done.
  destruct Hs as (Ht & w & Hw & Hb).
  apply mthen_inv in H2 as [(e & [= <- _] & ->)|(self2 & recovery & [= <- _] & H3)]; [done|].
  apply mthen_inv in H3 as [(e & [=] & ->)|(self2 & kdf & [= <- _] & H4)].
  assert (Hcommit : forall self2 r2, on_directory (commit_with_encoding random' (ws_generation state)
            (state <| ws_recovery := Some (mkRecoveryMetadata (rm_scheme recovery) true) |>) p kdf CompactV2)
            self1 = (self2, r2) -> tracks p g self2).
  { intros self2 r2 Hr. unfold on_directory in Hr. rewrite Hw in Hr.
    destruct (commit_with_encoding _ _ _ _ _ _ w) as [w1 r1] eqn:Ec. injection Hr as <- _.
    pose proof (commit_backed _ _ _ _ _ _ _ _ _ _ Ec Ht Hb) as Hc. apply tracks_put; [|done].
    destruct r1; [destruct Hc as [_ Hc]|]; by eapply backed_stored. }
  apply mthen_inv in H4 as [(e & H4 & ->)|(self2 & s' & H4 & H5)]; apply Hcommit in H4; [done|].
  by apply (tracking_refresh _ _ _ H5).
Qed.

Lemma open_tracks p g directory self self' r :
  service_open directory self = (self', r) -> (forall w, directory = Ok w -> stored p g w.(w_disk)) ->
  tracks p g self -> tracks p g self'.
Proof.
  intros H Hd Htr. unfold service_open in H.
  apply mthen_inv in H as [(e & [= <- _] & ->)|(self1 & u & H & H')]; [done|].
  injection H as <- H. apply fail_if_Ok, negb_false_iff, bool_decide_eq_true in H.
  assert (Hn : sv_unlocked self = None).
  { destruct (sv_unlocked self) eqn:E; [|done].
    destruct (tr_open _ _ _ Htr) as [_ Hne]; [by rewrite E|done]. }
  destruct directory as [w|e]; [|by injection H' as <- _]. specialize (Hd w eq_refl).
  destruct (metadata w) as [w1 [m|e]] eqn:Em; [|by injection H' as <- _].
  apply (metadata_stored _ _ _ _ _ Em) in Hd.
  destruct (match sv_backend self with Some _ => _ | None => _ end) as [u'|e]; [|by injection H' as <- _].
  injection H' as <- _. split; simpl; [by intros ? [= <-]|by rewrite Hn|by rewrite Hn].
Qed.

(** ** Sessions *)

(** The operations on the reservations of Scriptless contracts. *)
Inductive contract_op : forall A, method service CErr.CoreError A -> Prop :=
| op_funding_prepare random d id change request :
    contract_op _ (scriptless_funding_prepare random d id change request)
| op_funding_point d random id share :
    contract_op _ (scriptless_funding_prepare_kernel_excess_point d random id share)
| op_funding_export d random id : contract_op _ (scriptless_funding_export d random id)
| op_funding_bind random id template share participants :
    contract_op _ (scriptless_funding_bind_template random id template share participants)
| op_funding_capability id : contract_op _ (scriptless_funding_signing_capability id)
| op_funding_cancel random id : contract_op _ (scriptless_funding_cancel_unexposed random id)
| op_funding_abandon random id : contract_op _ (scriptless_funding_abandon_exposed random id)
| op_payout_prepare random d id output request :
    contract_op _ (scriptless_payout_prepare random d id output request)
| op_payout_point d random id share :
    contract_op _ (scriptless_payout_prepare_kernel_excess_point d random id share)
| op_payout_export d random id : contract_op _ (scriptless_payout_export d random id)
| op_payout_bind random id template share participants :
    contract_op _ (scriptless_payout_bind_template random id template share participants)
| op_payout_capability id : contract_op _ (scriptless_payout_signing_capability id)
| op_payout_cancel random id : contract_op _ (scriptless_payout_cancel_unexposed random id)
| op_payout_abandon random id : contract_op _ (scriptless_payout_abandon_exposed random id).

(** The operations that work on the wallet of an unlocked service. *)
Inductive wallet_op : forall A, method service CErr.CoreError A -> Prop :=
| op_synchronize random pass fuel : wallet_op _ (run_sync_pass from_entropy random pass fuel)
| op_rescan random sync_random fuel :
    wallet_op _ (rescan_from_genesis from_entropy random sync_random fuel)
| op_submit random random' slate retry : wallet_op _ (submit_transaction random random' slate retry)
| op_reconcile random slate : wallet_op _ (transaction_reconcile_submission random slate)
| op_cancel random slate confirm : wallet_op _ (service_transaction_cancel random slate confirm)
| op_draft random record : wallet_op _ (swap_session_create_draft random record)
| op_swap_transition random id next now : wallet_op _ (swap_session_transition random id next now)
| op_swap_quote random id quote fee now :
    wallet_op _ (swap_session_accept_quote random id quote fee now)
| op_swap_error random id error now : wallet_op _ (swap_session_note_error random id error now)
| op_node_configuration random configuration :
    wallet_op _ (set_node_configuration random configuration)
| op_mining random enabled threads : wallet_op _ (set_mining_preferences random enabled threads)
| op_send d amount fee sender receiver lock expires :
    wallet_op _ (transaction_send_create_with_identities d amount fee sender receiver lock expires)
| op_send_cover d amount fee expires policy :
    wallet_op _ (transaction_send_create_with_cover d amount fee expires policy)
| op_send_addresses d amount fee sender receiver expires :
    wallet_op _ (transaction_send_create_with_addresses d amount fee sender receiver expires)
| op_slate_export role f slate : wallet_op _ (slate_export role f slate)
| op_request_import random id now text : wallet_op _ (slate_request_import random id now text)
| op_response random random' construction output slate :
    wallet_op _ (slate_response_create random random' construction output slate)
| op_response_import random text : wallet_op _ (slate_response_import random text)
| op_finalize random slate : wallet_op _ (transaction_finalize random slate)
| op_finalized_export slate : wallet_op _ (transaction_finalized_export slate)
| op_finalized_import random slate b :
    wallet_op _ (transaction_finalized_verify_and_import random slate b)
| op_contract A m : contract_op A m -> wallet_op A m.

(** The operations of a session of a user who knows the password. *)
Inductive session_op (p : bytes) : forall A, method service CErr.CoreError A -> Prop :=
| op_unlock random : session_op p _ (unlock random p)
| op_confirm_phrase random random' : session_op p _ (recovery_phrase_confirmed random random' p)
| op_lock : session_op p _ lock
| op_close shutdown : session_op p _ (close shutdown)
| op_attach backend : session_op p _ (attach_backend backend)
| op_wallet A m : wallet_op A m -> session_op p A m.

(** A step: an operation; opening a directory that opens with the password to
    generation [g] or a later one; or the file system, whose next calls may fail in
    any way from now on. *)
Inductive session_step p g self self' : Prop :=
| step_operation A (m : method service CErr.CoreError A) r :
    session_op p A m -> m self = (self', r) -> session_step p g self self'
| step_open directory r :
    (forall w, directory = Ok w -> stored p g w.(w_disk)) ->
    service_open directory self = (self', r) -> session_step p g self self'
| step_faults faults :
    self' = self <| sv_location ::= fmap (fun w => mkWorld w.(w_disk) faults) |> ->
    session_step p g self self'.

Hint Resolve tracking_submit tracking_reconcile tracking_cancel tracking_draft tracking_note
  tracking_node_configuration tracking_mining tracking_rescan tracking_attach tracking_lock
  tracking_close tracking_cover tracking_addresses tracking_slate_export tracking_request
  tracking_response tracking_response_import tracking_finalize tracking_finalized_export
  tracking_finalized_import tracking_funding_prepare tracking_funding_point tracking_funding_export
  tracking_funding_bind tracking_funding_capability tracking_funding_cancel tracking_funding_abandon
  tracking_payout_prepare tracking_payout_point tracking_payout_export tracking_payout_bind
  tracking_payout_capability tracking_payout_cancel tracking_payout_abandon : tracking.

Lemma contract_op_tracks A (m : method service CErr.CoreError A) : contract_op A m -> tracking m.
Proof. destruct 1; auto with tracking. Qed.
Hint Resolve contract_op_tracks : tracking.

Lemma session_op_tracks p A (m : method service CErr.CoreError A) g self self' r :
  session_op p A m -> m self = (self', r) -> tracks p g self -> tracks p g self'.
Proof.
  intros Hop Hrun. revert g. assert (Hm : tracking m -> forall g, tracks p g self -> tracks p g self').
  { intros Ht g. by apply (Ht _ _ _ Hrun). }
  destruct Hop as [| | | | |A m Hop]; [intros g; by eapply unlock_tracks|intros g; by eapply phrase_tracks|..];
    apply Hm; auto with tracking.
  destruct Hop; unfold swap_session_transition, swap_session_accept_quote; auto with tracking.
Qed.

Lemma session_tracks p g self self' :
  rtc (session_step p g) self self' -> tracks p g self -> tracks p g self'.
Proof.
  induction 1 as [|self1 self2 self3 Hstep _ IH]; [done|]. intros Htr. apply IH. clear IH.
  destruct Hstep as [A m r Hop Hrun|directory r Hd Hrun|faults ->].
  - by eapply session_op_tracks.
  - by eapply open_tracks.
  - destruct Htr as [Hs Hu Ho]. split; simpl; [| |exact Ho].
    + destruct (sv_location self1) as [w|]; [|done]. intros ? [= <-]. by apply (Hs w).
    + intros s Hs'. destruct (Hu s Hs') as (? & ? & w & Hw & Hb). split; [done|]. split; [done|].
      rewrite Hw. by eexists.
Qed.

(** C1 A session can always be resumed.  Whatever a user who knows the password
    does with the service, in any order, and whichever file-system calls fail, its
    directory always opens with the password to a valid state of the generation
    the session was opened at or a later one, so nothing stored is lost or rolled
    back; a state held in memory is the one the directory opens to, or every
    commit of the service is refused as a conflict with the generation that is
    stored and changes nothing. *)
Theorem sessions_can_always_be_resumed p g self
    (Hsession : rtc (session_step p g) WalletService_default self) :
  (forall w, self.(sv_location) = Some w ->
    exists t, opens_to p t w.(w_disk) /\ WalletState_validate t = Ok tt /\ g <= t.(ws_generation))
  /\ forall s, self.(sv_unlocked) = Some s ->
     exists w t, self.(sv_location) = Some w /\ self.(sv_password) = Some p /\ opens_to p t w.(w_disk)
     /\ (t = s \/ forall random state kdf encoding,
           commit_with_encoding random s.(ws_generation) state p kdf encoding (mkWorld w.(w_disk) [])
           = (mkWorld w.(w_disk) [], Err (StErr.ExpectedGenerationConflict t.(ws_generation)))).
Proof.
  apply session_tracks in Hsession as [Hs Hu _]; [|by split]. split.
  - intros w Hw. destruct (Hs w Hw) as (t & Ht & [m Hm] & Hg). exists t.
    split; [by eapply opens_with_loads|]. split; [by apply Hm|done].
  - intros s Hs'. destruct (Hu s Hs') as (Hp & _ & w & Hw & t & Ht & [m Hm] & _ & Hst).
    exists w, t. split; [done|]. split; [done|]. split; [by eapply opens_with_loads|].
    destruct Hst as [->|Hne]; [by left|right]. intros. by apply stale_commit_refused with m.
Qed.

(** *** Locked services *)

(** [m] leaves the wallet of a locked service alone; [refused] ones also fail. *)
Definition inert self self' : Prop :=
  self.(sv_unlocked) = None -> self'.(sv_unlocked) = None
  /\ self'.(sv_location) = self.(sv_location) /\ self'.(sv_password) = self.(sv_password).
#[local] Instance inert_preorder : PreOrder inert.
Proof.
  split; [done|]. intros s1 s2 s3 H1 H2 H. destruct (H1 H) as (H1' & E1 & E2).
  destruct (H2 H1') as (? & E3 & E4). split; [done|]. split; congruence.
Qed.
Definition refused {A} (m : method service CErr.CoreError A) : Prop :=
  forall self self' r, m self = (self', r) -> self.(sv_unlocked) = None ->
  inert self self' /\ exists e, r = Err e.

Lemma refused_then {A B} (m : method service CErr.CoreError A) (k : A -> method service CErr.CoreError B) :
  refused m -> refused (mthen m k).
Proof.
  intros Hm self self' r H Hn. unfold mthen in H. destruct (m self) as [self1 [a|e]] eqn:E;
    destruct (Hm _ _ _ E Hn) as [Hi [e' He]]; [done|]. injection H as <- <-. eauto.
Qed.
Lemma inert_then {A B} (m : method service CErr.CoreError A) (k : A -> method service CErr.CoreError B) :
  moves inert m -> (forall a, refused (k a)) -> refused (mthen m k).
Proof.
  intros Hm Hk self self' r H Hn. apply mthen_inv in H as [(e & H & ->)|(self1 & a & H & H')].
  - split; [by eapply Hm|eauto].
  - pose proof (Hm _ _ _ H) as Hi. destruct (Hi Hn) as (Hn1 & _).
    destruct (Hk a _ _ _ H' Hn1) as [Hi' He]. split; [by transitivity self1|done].
Qed.
Lemma refused_unlocked : refused unlocked_state.
Proof. intros self self' r [= <- <-] Hn. rewrite Hn. split; [done|]. by eexists. Qed.
Lemma inert_backend {A} (m : method (ProductionWalletBackend W) PBErr.ProductionBackendError A) :
  moves inert (on_backend m).
Proof.
  intros self self' r H. unfold on_backend in H.
  destruct (sv_backend self) as [b|]; [destruct (m b)|]; by injection H as <- _.
Qed.
Create HintDb locked discriminated.
Hint Resolve refused_unlocked inert_backend : locked.
Hint Extern 3 (refused (mthen _ _)) => apply refused_then : locked.
Hint Extern 4 (refused (mthen _ _)) => apply inert_then; [|intros ?] : locked.
Hint Extern 1 (moves _ (try _)) => apply (moves_mread inert) : locked.
Hint Extern 1 (moves _ (mread _)) => apply (moves_mread inert) : locked.

Lemma contract_op_refused A (m : method service CErr.CoreError A) : contract_op A m -> refused m.
Proof.
  destruct 1; unfold scriptless_funding_prepare, scriptless_funding_prepare_kernel_excess_point,
    scriptless_funding_export, scriptless_funding_resume_preparation, scriptless_funding_bind_template,
    scriptless_funding_signing_capability, scriptless_funding_cancel_unexposed,
    scriptless_funding_abandon_exposed, scriptless_payout_prepare,
    scriptless_payout_prepare_kernel_excess_point, scriptless_payout_export,
    scriptless_payout_resume_preparation, scriptless_payout_bind_template,
    scriptless_payout_signing_capability, scriptless_payout_cancel_unexposed,
    scriptless_payout_abandon_exposed, core_identity, ensure_phrase_confirmed; eauto 12 with locked.
Qed.
Lemma refused_send d amount fee sender receiver lock expires :
  refused (transaction_send_create_with_identities d amount fee sender receiver lock expires).
Proof.
  unfold transaction_send_create_with_identities, reserve_inputs, ensure_phrase_confirmed.
  eauto 12 with locked.
Qed.
Hint Resolve contract_op_refused refused_send : locked.
Hint Extern 1 (moves _ the_backend) => apply (moves_mread inert) : locked.
Lemma wallet_op_refused A (m : method service CErr.CoreError A) : wallet_op A m -> refused m.
Proof.
  destruct 1; unfold run_sync_pass, prepare_pass, rescan_from_genesis, submit_transaction, record_submission,
    ensure_phrase_confirmed, transaction_reconcile_submission, service_transaction_cancel,
    swap_session_create_draft, swap_session_transition, swap_session_accept_quote, update_session,
    swap_session_note_error, set_node_configuration, set_mining_preferences,
    transaction_send_create_with_addresses, transaction_send_create_recoverable,
    transaction_send_create_with_cover,
    slate_export, slate_request_import, slate_response_create, reserve_response, slate_response_import,
    transaction_finalize, transaction_finalized_export, transaction_finalized_verify_and_import,
    ensure_phrase_confirmed, core_identity; eauto 14 with locked.
Qed.

(** A locked wallet is inert.  Locking forgets the wallet, its password and the
    secrets of a pending send; afterwards every operation on the wallet fails and
    leaves the directory untouched and the wallet locked. *)
Theorem locked_wallets_are_inert A (m : method service CErr.CoreError A) self self1 self2 r
    (Hlock : lock self = (self1, Ok tt)) (Hop : wallet_op A m) (Hrun : m self1 = (self2, r)) :
  self1.(sv_unlocked) = None /\ self1.(sv_password) = None /\ self1.(sv_sender_secrets) = None
  /\ (exists e, r = Err e)
  /\ self2.(sv_unlocked) = None /\ self2.(sv_password) = None /\ self2.(sv_location) = self.(sv_location).
Proof.
  assert (Hl : self1.(sv_unlocked) = None /\ self1.(sv_password) = None /\ self1.(sv_sender_secrets) = None
               /\ self1.(sv_location) = self.(sv_location)).
  { unfold lock in Hlock. apply mthen_Ok in Hlock as (s & u & [= <- _] & [= <-]). done. }
  destruct Hl as (Hn & Hp & Hs & Hl). destruct (wallet_op_refused _ _ Hop _ _ _ Hrun Hn) as [Hi He].
  destruct (Hi Hn) as (Hn2 & Hl2 & Hp2). rewrite Hl2, Hp2. auto 8.
Qed.
End operations.

(** ** Submissions *)

(** What answers of the node, and starting a submission, may change in a record:
    its lifecycle, its marks and a growing exposure. *)
Definition without_progress (t : LocalTransactionIntent) : LocalTransactionIntent :=
  t <| tx_exposure := Exp.NeverBroadcast |> <| tx_lifecycle := L.Draft |> <| tx_submitted := false |>
    <| tx_attempt_count := 0 |>.
Definition tx_kept (t t' : LocalTransactionIntent) : Prop :=
  without_progress t' = without_progress t /\ Exp.rank t.(tx_exposure) <= Exp.rank t'.(tx_exposure).
#[export] Instance tx_kept_preorder : PreOrder tx_kept.
Proof.
  split; [intros t; split; [done|lia]|]. intros t1 t2 t3 [H1 R1] [H2 R2]. split; [congruence|lia].
Qed.

Lemma move_Ok next ev t t' u :
  move next ev t = (t', Ok u) -> transition t next ev = Ok t'.
Proof. unfold move, transition_mut. destruct (transition t next ev); simpl; [by intros [= <- _]|done]. Qed.
Lemma kept_move next ev : moves tx_kept (move next ev).
Proof.
  intros t t' r H. unfold move, transition_mut in H. destruct (transition t next ev) as [t1|] eqn:E.
  - injection H as <- _. split; [by apply transition_inv in E as (-> & _)|].
    rewrite (transition_exposure _ _ _ _ E). lia.
  - by injection H as <- _.
Qed.
Lemma kept_mark : moves tx_kept mark_submitted.
Proof. apply moves_massign. intros t. split; [done|simpl; lia]. Qed.
Lemma kept_outcome outcome : moves tx_kept (apply_submission_outcome outcome).
Proof.
  unfold apply_submission_outcome. destruct outcome;
    repeat first [apply (moves_mthen tx_kept); [|intros ?] | apply kept_move | apply kept_mark].
Qed.
Lemma kept_query query status : moves tx_kept (apply_submission_query query status).
Proof.
  unfold apply_submission_query. destruct query; [..|destruct status as [[]|]|];
    repeat first [apply (moves_mthen tx_kept); [|intros ?] | apply kept_move | apply kept_mark
                 | apply kept_outcome].
  intros t t' r. destruct (is_confirmed _); apply kept_move.
Qed.
Lemma kept_start : moves tx_kept start_submission.
Proof.
  unfold start_submission. apply (moves_mthen tx_kept); [apply kept_move|intros ?].
  intros t t' r. destruct (checked_add _ _ _); intros [= <- _]; [|reflexivity].
  split; [done|simpl; lia].
Qed.

(** The record cannot be cancelled any more. *)
Definition exposed (t : LocalTransactionIntent) : Prop :=
  cancellation_decision t.(tx_exposure) = Canc.RequireReconciliation.
Lemma exposed_rank t : exposed t <-> 1 <= Exp.rank t.(tx_exposure).
Proof. unfold exposed. destruct (tx_exposure t); simpl; split; (done || lia). Qed.
Lemma exposed_kept t t' : tx_kept t t' -> exposed t -> exposed t'.
Proof. rewrite !exposed_rank. intros [_ H]. lia. Qed.
Lemma start_exposes t t' u :
  start_submission t = (t', Ok u) -> exposed t' /\ t'.(tx_lifecycle) = L.Submitting.
Proof.
  unfold start_submission. intros (t1 & u1 & H%move_Ok & Hn)%mthen_Ok.
  destruct (checked_add _ _ _); [|done]. injection Hn as <- _. simpl. split.
  - apply exposed_rank. simpl. rewrite (transition_exposure _ _ _ _ H). simpl. lia.
  - by eapply transition_lifecycle.
Qed.

(** [t] is [s] with the record of the send at [i] changed within [tx_kept], and
    exposed. *)
Definition records (slate : uuid) (s t : WalletState) : Prop :=
  exists i tx tx', find_transaction_index s slate Role.Sender = Ok i
  /\ s.(ws_transactions) !! i = Some tx
  /\ find_transaction_index t slate Role.Sender = Ok i
  /\ t.(ws_transactions) = <[i := tx']> s.(ws_transactions)
  /\ tx_kept tx tx' /\ exposed tx' /\ t.(ws_outputs) = s.(ws_outputs).

Lemma found_after s s' slate i tx tx' :
  find_transaction_index s slate Role.Sender = Ok i -> s.(ws_transactions) !! i = Some tx ->
  tx_kept tx tx' -> s'.(ws_transactions) = <[i := tx']> s.(ws_transactions) ->
  find_transaction_index s' slate Role.Sender = Ok i.
Proof.
  unfold find_transaction_index. intros Hi%ok_or_Ok Hx [Hk _] ->.
  rewrite (position_insert_same _ _ _ _ _ Hx), Hi; [done|].
  assert (E : tx_slate_id tx' = tx_slate_id tx /\ tx_role tx' = tx_role tx)
    by (split; [exact (f_equal tx_slate_id Hk)|exact (f_equal tx_role Hk)]).
  by destruct E as [-> ->].
Qed.

Lemma at_index_Ok {A} i s (m : method LocalTransactionIntent CErr.CoreError A) s' tx' :
  at_index i s m = Ok (s', tx') ->
  exists tx a, s.(ws_transactions) !! i = Some tx /\ m tx = (tx', Ok a)
  /\ s' = s <| ws_transactions ::= <[i := tx']> |>.
Proof.
  unfold at_index. intros (tx & Hx%ok_or_Ok & H)%rbind_Ok. destruct (m tx) as [t1 r] eqn:E.
  apply rbind_Ok in H as (a & -> & [= <- <-]). eauto.
Qed.

Section submissions.
Context {W : Type} {codec : CoreCodec} {code : CryptoCode} {json : StateCode}.
Context {claws : CryptoLaws code} {slaws : StateLaws json}.
Context {scan : WalletCoreApi W} {api : WalletSubmissionApi W} {fee_api : WalletFeeApi W}.
Abbreviation service := (WalletService W).
Implicit Types (self : service) (p : bytes) (g : N).

(** The directory opens to the state in memory. *)
Definition in_step p s self : Prop :=
  self.(sv_unlocked) = Some s /\ self.(sv_password) = Some p /\ typed_state s
  /\ exists w, self.(sv_location) = Some w /\ published p s w.(w_disk).
(** The directory opens to [t]. *)
Definition holds_stored p t self : Prop :=
  typed_state t /\ exists w, self.(sv_location) = Some w /\ published p t w.(w_disk).

Lemma in_step_stored p s self : in_step p s self -> holds_stored p s self.
Proof. intros (_ & _ & Ht & H). by split. Qed.

Lemma commit_steps p g random state self self' s u :
  tracks p g self -> self.(sv_unlocked) = Some s -> commit random state self = (self', Ok u) ->
  in_step p (committed_state state s.(ws_generation)) self' /\ self'.(sv_backend) = self.(sv_backend).
Proof.
  intros [_ Hu _] Hs Hrun.
  apply commit_run in Hrun as [(_ & e & [=])|(s' & w & p' & w1 & r1 & Hs' & Hl & Hp & Hrun & H)].
  rewrite Hs in Hs'. injection Hs' as <-. destruct (Hu s Hs) as (Hpp & _ & w' & Hw & t & Ht & Hpub & _ & Hst).
  rewrite Hl in Hw. injection Hw as <-. rewrite Hp in Hpp. injection Hpp as ->.
  destruct r1 as [new|e]; [|by destruct H as [_ [=]]]. destruct H as (w2 & r2 & Hm & H).
  destruct r2 as [m|e]; [|by destruct H as [_ [=]]]. destruct H as [-> _]. split; [|done].
  destruct (commit_exact _ _ _ _ _ _ _ _ _ _ Hrun Ht Hpub Hst) as (-> & _ & _ & Hn & Hp').
  split; [done|]. split; [done|]. split; [done|]. exists w2. split; [done|]. by eapply metadata_keeps.
Qed.

Lemma commit_in_step p random state self self' s r :
  in_step p s self -> commit random state self = (self', r) ->
  holds_stored p s self' \/ holds_stored p (committed_state state s.(ws_generation)) self'.
Proof.
  intros Hin Hrun. pose proof Hin as (Hs & Hpw & Ht & w & Hl & Hpub).
  apply commit_run in Hrun as [(-> & _)|(s' & w' & p' & w1 & r1 & Hs' & Hl' & Hp & Hrun & H)];
    [left; by apply in_step_stored|].
  rewrite Hs in Hs'. injection Hs' as <-. rewrite Hl in Hl'. injection Hl' as <-.
  rewrite Hpw in Hp. injection Hp as <-.
  pose proof (commit_exact _ _ _ _ _ _ _ _ _ _ Hrun Ht Hpub (or_introl eq_refl)) as Hc.
  destruct r1 as [new|e].
  - destruct Hc as (-> & _ & _ & Hn & Hp'). destruct H as (w2 & r2 & Hm & H).
    apply (metadata_keeps _ _ _ _ _ Hm) in Hp'. right.
    destruct r2 as [m|e]; destruct H as [-> _]; (split; [done|by exists w2]).
  - destruct H as [-> _]. destruct Hc as [Hc|(_ & _ & Hn & Hc)]; [left|right]; (split; [done|by exists w1]).
Qed.

Definition same_backend self self' : Prop := self'.(sv_backend) = self.(sv_backend).
#[local] Instance same_backend_preorder : PreOrder same_backend.
Proof. split; [done|]. intros s1 s2 s3 H1 H2. unfold same_backend in *. congruence. Qed.
Lemma commit_same_backend random state : moves same_backend (commit random state).
Proof.
  intros self self' r H.
  apply commit_run in H as [(-> & _)|(s' & w' & p' & w1 & r1 & _ & _ & _ & _ & H)]; [done|].
  destruct r1; [destruct H as (w2 & r2 & _ & H); destruct r2; destruct H as [-> _]|destruct H as [-> _]]; done.
Qed.

(** The first half of a submission. *)
Lemma record_submission_backend random slate retry : moves same_backend (record_submission random slate retry).
Proof.
  unfold record_submission, ensure_phrase_confirmed, unlocked_state.
  repeat first [apply commit_same_backend | apply (moves_mthen same_backend); [|intros ?]
               | apply (moves_mread same_backend)].
Qed.

Lemma record_submission_run p g random slate retry self self' x :
  record_submission random slate retry self = (self', Ok x) -> tracks p g self ->
  exists s t, self.(sv_unlocked) = Some s /\ records slate s t /\ in_step p t self'.
Proof.
  intros H Htr. unfold record_submission in H.
  apply mthen_Ok in H as (s1 & u & He & H). assert (s1 = self) as -> by (by unfold ensure_phrase_confirmed,
    unlocked_state, mthen, mread, try in He; destruct (ok_or _ _); injection He as <- _).
  apply mthen_Ok in H as (s1 & s & [= <- Hs%ok_or_Ok] & H).
  apply mthen_Ok in H as (s1 & i & [= <- Hi] & H).
  apply mthen_Ok in H as (s1 & tx & [= <- _] & H). apply mthen_Ok in H as (s1 & u1 & [= <- _] & H).
  apply mthen_Ok in H as (s1 & sub & [= <- _] & H). apply mthen_Ok in H as (s1 & [next tx'] & [= <- Hn] & H).
  apply mthen_Ok in H as (s1 & u2 & Hc & [= <- _]).
  apply at_index_Ok in Hn as (tx0 & a & Hx & Hstart & ->). simpl in Hc.
  destruct (commit_steps _ _ _ _ _ _ _ _ Htr Hs Hc) as [Hin _]. exists s. eexists. split; [done|].
  split; [|exact Hin]. pose proof (kept_start _ _ _ Hstart) as Hk.
  exists i, tx0, tx'. split; [done|]. split; [done|].
  split; [by eapply (found_after s)|]. split; [done|]. split; [done|].
  split; [by apply start_exposes in Hstart as [He' _]|done].
Qed.

Lemma records_again slate s t i tx tx' t' :
  records slate s t -> find_transaction_index t slate Role.Sender = Ok i ->
  t.(ws_transactions) !! i = Some tx -> tx_kept tx tx' ->
  t'.(ws_transactions) = <[i := tx']> t.(ws_transactions) -> t'.(ws_outputs) = t.(ws_outputs) ->
  records slate s t'.
Proof.
  intros (i0 & tx0 & tx1 & Hi0 & Hx0 & Hi1 & Ht & Hk & He & Ho) Hi Hx Hkk Ht' Ho'.
  assert (i = i0) as -> by congruence.
  assert (tx = tx1) as ->.
  { rewrite Ht, list_lookup_insert_eq in Hx by (by eapply lookup_lt_Some). by injection Hx. }
  exists i0, tx0, tx'. split; [done|]. split; [done|]. split; [by eapply (found_after t)|].
  split; [by rewrite Ht', Ht, list_insert_insert_eq|]. split; [by transitivity tx1|].
  split; [by eapply exposed_kept|congruence].
Qed.

Lemma record_outcome_run p random slate outcome self self' r s t :
  record_outcome random slate outcome self = (self', r) -> in_step p t self -> records slate s t ->
  exists t', holds_stored p t' self' /\ records slate s t'.
Proof.
  intros H Hin Hr. pose proof Hin as (Hu & _). unfold record_outcome in H.
  assert (Hsame : exists t', holds_stored p t' self /\ records slate s t')
    by (exists t; split; [by apply in_step_stored|done]).
  apply mthen_inv in H as [(e & [= <- _] & _)|(s1 & t1 & [= <- Ht] & H)]; [done|].
  rewrite Hu in Ht. injection Ht as <-.
  apply mthen_inv in H as [(e & [= <- _] & _)|(s1 & i & [= <- Hi] & H)]; [done|].
  apply mthen_inv in H as [(e & [= <- _] & _)|(s1 & [next tx'] & [= <- Hn] & H)]; [done|].
  apply at_index_Ok in Hn as (tx0 & a & Hx & Happly & ->). pose proof (kept_outcome _ _ _ _ Happly) as Hk.
  assert (Hgo : forall self2 r2, commit random (t <| ws_transactions ::= <[i := tx']> |>) self = (self2, r2) ->
    exists t', holds_stored p t' self2 /\ records slate s t').
  { intros self2 r2 Hc. destruct (commit_in_step _ _ _ _ _ _ _ Hin Hc) as [Hh|Hh]; eexists;
      (split; [exact Hh|]); [done|]. by eapply records_again. }
  apply mthen_inv in H as [(e & Hc & _)|(s1 & u2 & Hc & H)]; [by eapply Hgo|].
  unfold transaction_summary in H.
  apply mthen_inv in H as [(e & [= <- _] & _)|(s2 & t2 & [= <- _] & [= <- _])]; by eapply Hgo.
Qed.

(** C2 A submission is on disk before the node hears of it.  Whatever file-system
    calls fail, and whatever the node answers, when submitting or retrying ends
    it failed before the backend was called at all, or the directory opens with the password to
    a state in which the record of this send, its inputs still reserved, is marked
    as possibly broadcast, so that cancelling it releases nothing; nothing else of
    the transactions and outputs has changed. *)
Theorem submissions_are_recorded_first p g random random' slate retry self self' r
    (Htracks : tracks p g self)
    (Hrun : submit_transaction random random' slate retry self = (self', r)) :
  (exists e, record_submission random slate retry self = (self', Err e) /\ r = Err e
             /\ self'.(sv_backend) = self.(sv_backend))
  \/ exists s t w, self.(sv_unlocked) = Some s /\ self'.(sv_location) = Some w
     /\ opens_to p t w.(w_disk) /\ records slate s t.
Proof.
  unfold submit_transaction in Hrun.
  apply mthen_inv in Hrun as [(e & H & ->)|(s1 & sub & H & Hrun)];
    pose proof (record_submission_backend _ _ _ _ _ _ H) as Hb; [left; by exists e|right].
  destruct (record_submission_run _ _ _ _ _ _ _ _ H Htracks) as (s & t & Hs & Hr & Hin).
  assert (Hend : forall t', holds_stored p t' self' -> records slate s t' -> exists s0 t0 w,
    sv_unlocked self = Some s0 /\ sv_location self' = Some w /\ opens_to p t0 (w_disk w) /\ records slate s0 t0).
  { intros t' (Ht & w & Hw & [m Hm]) Hr'. exists s, t', w. split; [done|]. split; [done|].
    split; [by eapply opens_with_loads|done]. }
  assert (Hback : forall {A} (m : method (ProductionWalletBackend W) PBErr.ProductionBackendError A) s2 r2,
    on_backend m s1 = (s2, r2) -> in_step p t s2).
  { intros A m s2 r2 Hm. unfold on_backend in Hm. destruct (sv_backend s1) as [b|]; [|by injection Hm as <- _].
    destruct (m b). by injection Hm as <- _. }
  apply mthen_inv in Hrun as [(e & Hc & _)|(s2 & outcome & Hc & Hrun)]; apply Hback in Hc.
  - apply (Hend t); [by apply in_step_stored|done].
  - destruct (record_outcome_run _ _ _ _ _ _ _ _ _ Hrun Hc Hr) as (t' & Ht' & Hr'). by apply (Hend t').
Qed.
End submissions.

(** ** Witnesses *)

(** The node of CoreSync answers the chain's identity, and is ready for wallets;
    it never answers what becomes of a transaction. *)
#[global] Instance sample_submission : WalletSubmissionApi unit := {|
  api_sync_status := fun w => (w, Ok NSync.Ready);
  api_is_ready_for_wallet_operations := fun w => (w, Ok true);
  api_mempool_policy_snapshot := fun w => (w, Ok (mkMempoolPolicySnapshot 1 CNet.Regtest 1 1 0));
  api_submit_transaction := fun _ w => (w, Err WErr.NodeNotReady);
  api_rebroadcast_transaction := fun _ w => (w, Err WErr.NodeNotReady);
  api_query_submission := fun _ w => (w, Err WErr.NodeNotReady);
  api_transaction_status := fun _ w => (w, Ok NStatus.Unknown);
|}.
Definition sample_backend : ProductionWalletBackend unit :=
  mkProductionWalletBackend None sample_adapter (Some sample_core_identity) (Some sample_core_identity)
    sample_core_identity tt.

(** A wallet whose phrase is confirmed, with a finalized send. *)
Definition ready_tx : LocalTransactionIntent :=
  finalized_tx <| tx_id := 41 |> <| tx_kernel_excess := sample_bytes 33 Byte.x03 |> <| tx_slate_id := Some 51 |> <| tx_role := Some Role.Sender |>
    <| tx_finalized_transaction_bytes := [Byte.x01] |>
    <| tx_transaction_hash := Some (sample_bytes 32 Byte.x77) |>.
Definition sending_wallet : WalletState :=
  fresh_wallet <| ws_recovery := Some (mkRecoveryMetadata RECOVERY_SCHEME_BIP39_256_V1 true) |>
    <| ws_transactions := [ready_tx] |>.
Definition started_wallet : WalletState :=
  from_option fst sending_wallet
    (match at_index 0 sending_wallet start_submission with Ok x => Some x | Err _ => None end).
Definition mining_wallet : WalletState :=
  sending_wallet <| ws_mining_preferences := mkMiningPreferences true 4 |>.
#[export] Instance session_json : StateCode :=
  sample_json [sending_wallet; committed_state started_wallet 0; committed_state mining_wallet 0].
#[export] Instance session_json_laws : StateLaws session_json := sample_json_laws _.

Definition session_world : World :=
  (publish_initial sample_random sample_random sending_wallet sample_password DOM_CONTINUITY
     (mkWorld (mkDisk ∅ ∅) [])).1.
Definition opened_service : WalletService unit := (service_open (Ok session_world) WalletService_default).1.
Definition unlocked_service : WalletService unit := (unlock None sample_password opened_service).1.

Lemma session_stored : stored sample_password 0 session_world.(w_disk).
Proof.
  exists sending_wallet. split; [split; [done|]; split; [done|]; split; done|]. split; [|done].
  assert (H : load None sample_password (mkWorld session_world.(w_disk) [])
              = (mkWorld session_world.(w_disk) [], Ok sending_wallet)) by (vm_compute; reflexivity).
  apply load_opens_with in H as [_ H]. exact H.
Qed.
Definition no_seed (entropy : bytes) : option RecoverySeed := None.
Lemma opened_session : rtc (session_step no_seed sample_password 0) WalletService_default unlocked_service.
Proof.
  eapply rtc_l; [|apply rtc_once].
  - apply (step_open (W := unit) _ _ _ _ opened_service (Ok session_world) (service_open (W := unit) (Ok session_world) WalletService_default).2).
    + intros w H%Ok_inj. subst w. apply session_stored.
    + vm_compute. reflexivity.
  - eapply (step_operation _ _ _ _ _ _ (unlock None sample_password) (unlock None sample_password opened_service).2);
      [constructor|vm_compute; reflexivity].
Qed.

(** The pointer to the new generation moves, and then a call fails: the state in
    memory is that of the old generation, and cannot be stored again. *)
Definition torn_service : WalletService unit :=
  unlocked_service <| sv_location ::= fmap (fun w => mkWorld w.(w_disk)
                        (replicate 20 Fine ++ [After StErr.OtherKind])) |>.
Definition stale_service : WalletService unit := (set_mining_preferences sample_random true 4 torn_service).1.

Lemma sessions_can_always_be_resumed_witness :
  stale_service.(sv_unlocked) = Some sending_wallet
  /\ exists w t, stale_service.(sv_location) = Some w /\ opens_to sample_password t w.(w_disk)
     /\ (t = sending_wallet \/ forall random state kdf encoding,
          commit_with_encoding random 0 state sample_password kdf encoding (mkWorld w.(w_disk) [])
          = (mkWorld w.(w_disk) [], Err (StErr.ExpectedGenerationConflict t.(ws_generation)))).
Proof.
  assert (Hs : stale_service.(sv_unlocked) = Some sending_wallet) by (vm_compute; reflexivity).
  assert (Hsession : rtc (session_step no_seed sample_password 0) WalletService_default stale_service).
  { eapply rtc_r; [eapply rtc_r; [apply opened_session|]|].
    - eapply (step_faults _ _ _ _ torn_service). reflexivity.
    - eapply (step_operation _ _ _ _ _ _ (set_mining_preferences sample_random true 4)
                (set_mining_preferences sample_random true 4 torn_service).2);
        [repeat constructor|vm_compute; reflexivity]. }
  split; [exact Hs|].
  destruct (sessions_can_always_be_resumed no_seed sample_password 0 stale_service Hsession)
    as [_ H]. destruct (H _ Hs) as (w & t & Hw & _ & Ht & Hor). exists w, t. auto.
Defined.

Definition sending_service : WalletService unit := (attach_backend sample_backend unlocked_service).1.
Definition submitted_service : WalletService unit :=
  (submit_transaction sample_random sample_random 51 false sending_service).1.
Lemma submissions_are_recorded_first_witness :
  exists t w, submitted_service.(sv_location) = Some w /\ opens_to sample_password t w.(w_disk)
  /\ records 51 sending_wallet t.
Proof.
  assert (Htracks : tracks sample_password 0 sending_service).
  { apply (session_tracks no_seed _ _ WalletService_default).
    - eapply rtc_r; [apply opened_session|].
      eapply (step_operation _ _ _ _ _ _ (attach_backend sample_backend) (attach_backend sample_backend unlocked_service).2);
        [constructor|vm_compute; reflexivity].
    - by split. }
  assert (Hrun : submit_transaction sample_random sample_random 51 false sending_service
    = (submitted_service, (submit_transaction sample_random sample_random 51 false sending_service).2))
    by (unfold submitted_service; apply surjective_pairing).
  pose proof (submissions_are_recorded_first _ _ _ _ _ _ _ _ _ Htracks Hrun) as H.
  destruct H as [(e & H & _)|(s & t & w & Hs & Hw & Ht & Hr)].
  - exfalso. apply (f_equal (fun x => is_ok x.2)) in H. revert H. vm_compute. discriminate.
  - exists t, w. assert (s = sending_wallet) as -> by (vm_compute in Hs; by injection Hs as <-). auto.
Defined.

Definition locked_service : WalletService unit := (lock unlocked_service).1.
