(* ===== verification/SeedRestore.v ===== *)
(** * Restoring a wallet from its phrase

    [SeedRestoreService] and [SeedRestoreSession] of
    crates/dom-wallet-core-restore/src/lib.rs: a session scans the chain into an
    encrypted checkpoint in a staging directory, page by page through the scan
    adapter (CoreSync), and publishes the complete wallet with one rename.  The
    directory operations are those of Directories, so every file-system call may
    fail; the projection of a page is the one of Recovery.  The randomness of
    commits and the fresh identifiers are streams, as for the synchroniser. *)

From stdpp Require Import sorting.
From S2P Require Import Prelude Bytes Codecs DomainTypes Lifecycle WalletOps Restore Validation Envelope Storage Reload Directories.
From S2P Require Import CoreTypes Projection CoreSync Recovery Slates Outputs SyncSink Sessions.

(** ** Types *)

Definition DEFAULT_RESTORE_BATCH_BLOCKS : N := 256.
Definition DEFAULT_RESTORE_REORG_DEPTH : N := 1024.
Definition DEFAULT_RESTORE_BUSY_RETRY_ATTEMPTS : N := 12.
(** Durations are counted in nanoseconds. *)
Definition DEFAULT_RESTORE_BUSY_RETRY_INITIAL_DELAY : N := 10000000.
Definition DEFAULT_RESTORE_BUSY_RETRY_MAX_DELAY : N := 250000000.
Definition DURATION_MAX : N := u64_max * 1000000000 + 999999999.

Inductive SeedRestoreCompletion := OwnedOutputsRecovered | NoOwnedOutputs.
Inductive SeedRestoreWarning := LegacyBackupRequired | OffChainMetadataNotRecoverableWithSeed.

Record RecoveredAccountBalance := mkRecoveredAccountBalance {
  rab_recovery_account : N;
  rab_balance : BalanceProjection;
}.
Record SeedRestoreResult := mkSeedRestoreResult {
  srr_completion : SeedRestoreCompletion;
  srr_network : CNet.CoreNetwork;
  srr_chain_id : bytes;
  srr_scanned_blocks : N;
  srr_scanned_outputs : N;
  srr_owned_outputs : N;
  srr_spent_outputs : N;
  srr_unspent_outputs : N;
  srr_coinbase_outputs : N;
  srr_legacy_outputs : N;
  srr_balance : BalanceProjection;
  srr_accounts : list RecoveredAccountBalance;
  srr_floors : RecoveryAllocationFloors;
  srr_final_cursor_anchor : CoreBlockReference;
  srr_warnings : list SeedRestoreWarning;
}.
Inductive SeedRestoreProgress :=
| BatchCommitted (anchor : CoreBlockReference)
| RestoreReorgCommitted (safe_anchor new_anchor : CoreBlockReference)
| ReadyToPublish.

Record SeedRestoreService := mkSeedRestoreService {
  srs_expected_identity : CoreChainIdentity;
  srs_batch_blocks : N;
  srs_reorg_depth : N;
  srs_busy_retry_attempts : N;
  srs_busy_retry_initial_delay : N;
  srs_busy_retry_max_delay : N;
  srs_kdf : KdfParameters;
}.
#[global] Instance SeedRestoreService_fields : FieldList SeedRestoreService := fun r =>
  mkSeedRestoreService r.(srs_expected_identity) r.(srs_batch_blocks) r.(srs_reorg_depth)
    r.(srs_busy_retry_attempts) r.(srs_busy_retry_initial_delay) r.(srs_busy_retry_max_delay) r.(srs_kdf).

Definition SeedRestoreService_new (expected_identity : CoreChainIdentity) (kdf : KdfParameters) : SeedRestoreService :=
  mkSeedRestoreService expected_identity DEFAULT_RESTORE_BATCH_BLOCKS DEFAULT_RESTORE_REORG_DEPTH
    DEFAULT_RESTORE_BUSY_RETRY_ATTEMPTS DEFAULT_RESTORE_BUSY_RETRY_INITIAL_DELAY
    DEFAULT_RESTORE_BUSY_RETRY_MAX_DELAY kdf.
Definition with_limits (batch_blocks reorg_depth : N) (self : SeedRestoreService) : SeedRestoreService :=
  self <| srs_batch_blocks := batch_blocks |> <| srs_reorg_depth := reorg_depth |>.
Definition with_busy_retry_policy (attempts initial_delay max_delay : N) (self : SeedRestoreService)
    : SeedRestoreService :=
  self <| srs_busy_retry_attempts := attempts |> <| srs_busy_retry_initial_delay := initial_delay |>
       <| srs_busy_retry_max_delay := N.max max_delay initial_delay |>.

(** A session, with the place its directory is in, the error its sink saw last and
    the number of commits it tried. *)
Record SeedRestoreSession := mkSeedRestoreSession {
  rss_adapter : CoreChainAdapter;
  rss_seed : CanonicalWalletSeed;
  rss_chain : RecoveryChainContext;
  rss_identity : CoreChainIdentity;
  rss_place : Place;
  rss_state : option WalletState;
  rss_password : bytes;
  rss_kdf : KdfParameters;
  rss_destination : bytes;
  rss_staging : bytes;
  rss_ready_to_publish : bool;
  rss_last_error : option RErr.SeedRestoreError;
  rss_commits : nat;
}.
#[global] Instance SeedRestoreSession_fields : FieldList SeedRestoreSession := fun r =>
  mkSeedRestoreSession r.(rss_adapter) r.(rss_seed) r.(rss_chain) r.(rss_identity) r.(rss_place) r.(rss_state)
    r.(rss_password) r.(rss_kdf) r.(rss_destination) r.(rss_staging) r.(rss_ready_to_publish)
    r.(rss_last_error) r.(rss_commits).

(** ** Helpers *)

Definition map_scan_error (error : SErr.CoreScanError) : RErr.SeedRestoreError :=
  match error with
  | SErr.InvalidIdentity _ | SErr.IdentityMismatch _ | SErr.CursorIdentityMismatch => RErr.ChainIdentityMismatch
  | SErr.Persistence _ => RErr.Storage
  | SErr.CoreNotReady => RErr.CoreBusy
  | _ => RErr.CanonicalScan
  end.

Definition validate_restore_password (password : bytes) : result RErr.SeedRestoreError unit :=
  if (8 <=? len password) && (len password <=? 1024) then Ok tt else Err RErr.InvalidPassword.

Definition domain_identity (identity : CoreChainIdentity) : NetworkIdentity :=
  mkNetworkIdentity
    match identity.(cci_network) with
    | CNet.Mainnet => Net.Mainnet
    | CNet.Testnet => Net.PublicTestnet
    | CNet.Regtest => Net.PrivateTestnet
    end identity.(cci_chain_id) identity.(cci_genesis_hash).

Definition default_node_configuration (identity : NetworkIdentity) : NodeConfiguration :=
  mkNodeConfiguration "https://example.invalid/dom-rpc" identity "configured-dom-node" 1 5000 10000 5000 6 60000 3
    true None.

Definition restore_staging_path (destination : bytes) : bytes := str "." ++ destination ++ str ".seed-restore".

(** [staging_path]: [parent.is_dir()] hides errors. *)
Definition staging_path (destination : bytes) : fs (option bytes) := fun p =>
  if is_empty destination || negb (is_utf8 destination) then (p, Ok None)
  else match peek (fun _ => Ok tt) p with
       | (p, Ok _) => (p, Ok (Some (restore_staging_path destination)))
       | (p, Err _) => (p, Ok None)
       end.

(** The state of an offline restore; the two identifiers are drawn. *)
Definition offline_restore_state (ids : uuid * uuid) (seed : CanonicalWalletSeed) (identity : NetworkIdentity)
    : WalletState :=
  (WalletState_new ids.1 ids.2 identity seed.(cws_mnemonic).(mn_entropy) (default_node_configuration identity))
    <| ws_recovery := Some (mkRecoveryMetadata RECOVERY_SCHEME_BIP39_256_V1 true) |>
    <| ws_seed_restore_status := Some Seed.InProgress |>
    <| ws_sync_status := Sync.Synchronizing |>.
Definition initial_restore_state (ids : uuid * uuid) (seed : CanonicalWalletSeed) (identity : CoreChainIdentity)
    : WalletState :=
  offline_restore_state ids seed (domain_identity identity).

Definition restoring_status (state : WalletState) : bool :=
  match state.(ws_seed_restore_status) with
  | Some (Seed.InProgress | Seed.Complete) => true
  | _ => false
  end.
Definition restore_complete (state : WalletState) : bool :=
  bool_decide (state.(ws_seed_restore_status) = Some Seed.Complete).

Definition validate_checkpoint (state : WalletState) (seed : CanonicalWalletSeed) (identity : CoreChainIdentity)
    : result RErr.SeedRestoreError unit :=
  fail_if (negb (bool_decide (state.(ws_root_material) = seed.(cws_mnemonic).(mn_entropy)))
           || negb (bool_decide (state.(ws_identity) = domain_identity identity))
           || negb (restoring_status state)
           || restore_complete state && (negb (is_some state.(ws_core_scan_cursor))
                                         || negb (bool_decide (state.(ws_sync_status) = Sync.Synced)))
           || is_none_or state.(ws_recovery)
                (fun recovery => negb (String.eqb recovery.(rm_scheme) RECOVERY_SCHEME_BIP39_256_V1)))
          RErr.IncompatibleCheckpoint.

(** Totals over the whole history. *)
Definition durable_scan_totals (state : WalletState) : result RErr.SeedRestoreError (N * N) :=
  if negb (state.(ws_recovery_scanned_blocks) =? 0)
  then Ok (state.(ws_recovery_scanned_blocks), state.(ws_recovery_scanned_outputs))
  else
    let? outputs := foldM (fun total block =>
      ok_or (checked_add u64_max total block.(rcb_output_count)) RErr.CoordinateOverflow)
      state.(ws_recovery_canonical_blocks) 0 in
    Ok (len state.(ws_recovery_canonical_blocks), outputs).

(** A [BTreeMap] from account to outputs: keys in ascending order. *)
Fixpoint push_account (account : N) (output : OutputRecord) (accounts : list (N * list OutputRecord))
    : list (N * list OutputRecord) :=
  match accounts with
  | [] => [(account, [output])]
  | (a, outputs) :: rest =>
      if account =? a then (a, outputs ++ [output]) :: rest
      else if account <? a then (account, [output]) :: accounts
      else (a, outputs) :: push_account account output rest
  end.
Definition account_outputs (state : WalletState) : result RErr.SeedRestoreError (list (N * list OutputRecord)) :=
  foldM (fun accounts output =>
    let? metadata := ok_or (find_first (fun m => m.(rom_output_id) =? output.(out_id))
                                       (rev state.(ws_recovered_output_metadata))) RErr.MalformedRecovery in
    Ok (push_account metadata.(rom_recovery_account) output accounts)) state.(ws_outputs) [].

Definition output_is_spent (output : OutputRecord) : bool :=
  match output.(out_state) with Out.Spent _ => true | _ => false end.

Section restore.
Context {codec : CoreCodec} {code : CryptoCode} {json : StateCode} {seed_code : SeedCode}.
Context {W : Type} {api : WalletCoreApi W} {random : SinkRandom}.
(** The canonical scan of a seed on a chain, of dom-wallet-recovery. *)
Context (recovery_seed_of : CanonicalWalletSeed -> RecoveryChainContext -> RecoverySeed).

Definition cursor_anchor (cursor : CoreCursorBytes) : result RErr.SeedRestoreError CoreBlockReference :=
  let? cursor := match cursor_decode cursor with Ok cursor => Ok cursor | Err e => Err (map_scan_error e) end in
  Ok (mkBlockReference cursor.(wsc_anchor_height) cursor.(wsc_anchor_hash)).

Definition result_from_state (state : WalletState) (identity : CoreChainIdentity)
    : result RErr.SeedRestoreError SeedRestoreResult :=
  let? b := ok_or state.(ws_core_scan_cursor) RErr.Incomplete in
  let? cursor := match CoreCursorBytes_parse b identity with
                 | Ok cursor => Ok cursor
                 | Err error => Err (map_scan_error error)
                 end in
  let? final_cursor_anchor := cursor_anchor cursor in
  let? grouped := account_outputs state in
  let owned_outputs := len state.(ws_outputs) in
  let spent_outputs := len (List.filter output_is_spent state.(ws_outputs)) in
  let? '(scanned_blocks, scanned_outputs) := durable_scan_totals state in
  Ok (mkSeedRestoreResult
        (if is_empty state.(ws_outputs) then NoOwnedOutputs else OwnedOutputsRecovered)
        identity.(cci_network) identity.(cci_chain_id) scanned_blocks scanned_outputs owned_outputs spent_outputs
        (owned_outputs - spent_outputs) (len (List.filter rom_is_coinbase state.(ws_recovered_output_metadata)))
        state.(ws_legacy_proof_only_outputs) (balance state)
        (map (fun '(a, outputs) => mkRecoveredAccountBalance a (from_outputs outputs)) grouped)
        state.(ws_recovery_allocation_floors) final_cursor_anchor
        (OffChainMetadataNotRecoverableWithSeed
         :: (if state.(ws_legacy_proof_only_outputs) =? 0 then [] else [LegacyBackupRequired]))).

(** ** The sink of a session *)

Definition commit_error (error : StErr.StorageError) : RErr.SeedRestoreError :=
  match error with
  | StErr.StateTooLarge => RErr.StateStorageLimitExceeded
  | _ => RErr.Storage
  end.

(** What a commit stores on top of a state: the page applied, after the rewind. *)
Definition rewind_to (tip_height : N) (reorg_anchor : option CoreBlockReference)
    : method WalletState RErr.SeedRestoreError unit :=
  match reorg_anchor with
  | Some anchor => rewind_recovery_state anchor.(br_height) tip_height
  | None => mret tt
  end.
Definition checkpoint (n : nat) (self : SeedRestoreSession) (batch : CoreScanBatch) (cursor : CoreCursorBytes)
    (reorg_anchor : option CoreBlockReference) : method WalletState RErr.SeedRestoreError unit :=
  rewind_to batch.(cb_observed_tip).(br_height) reorg_anchor ;;;
  apply_recovery_batch (seed := recovery_seed_of self.(rss_seed) self.(rss_chain)) (sink_fresh n)
    (sink_fresh_legacy n) self.(rss_identity).(cci_coinbase_maturity) batch ;;;
  massign (fun state => state <| ws_core_scan_cursor := Some cursor.(cursor_bytes) |>
                              <| ws_seed_restore_status := Some Seed.InProgress |>
                              <| ws_sync_status := Sync.Synchronizing |>) ;;;
  mread (fun state => map_err (WalletState_validate state) RErr.MalformedRecovery).

(** [RestoreSink::commit] *)
Definition restore_commit (batch : CoreScanBatch) (cursor : CoreCursorBytes)
    (reorg_anchor : option CoreBlockReference) : method SeedRestoreSession RErr.SeedRestoreError unit := fun self =>
  match self.(rss_state) with
  | None => (self, Err RErr.Storage)
  | Some state =>
      let n := self.(rss_commits) in
      let self := self <| rss_commits ::= S |> in
      let '(place, r) :=
        match checkpoint n self batch cursor reorg_anchor state with
        | (next, Ok _) =>
            let '(place, r) := inside self.(rss_staging)
              (commit_with_encoding (sink_seal_random n) state.(ws_generation) next self.(rss_password)
                 self.(rss_kdf) CompactV2) self.(rss_place) in
            (place, match r with Ok committed => Ok committed | Err error => Err (commit_error error) end)
        | (_, Err error) => (self.(rss_place), Err error)
        end in
      match r with
      | Ok committed => (self <| rss_place := place |> <| rss_state := Some committed |>, Ok tt)
      | Err error =>
          let '(place, loaded) := inside self.(rss_staging) (load (sink_seal_random n) self.(rss_password)) place in
          (self <| rss_place := place |>
                <| rss_state := match loaded with Ok state => Some state | Err _ => None end |>
                <| rss_last_error := Some error |>, Err error)
      end
  end.

Definition restore_cursor_state (self : SeedRestoreSession) : result RErr.SeedRestoreError PersistedCoreCursorState :=
  let? state := ok_or self.(rss_state) RErr.Storage in
  match state.(ws_core_scan_cursor) with
  | None => Ok Absent
  | Some b => map_err (let? cursor := CoreCursorBytes_parse b self.(rss_identity) in Ok (Valid cursor))
                      RErr.IncompatibleCheckpoint
  end.
Definition restore_canonical_hash (self : SeedRestoreSession) (height : N)
    : result RErr.SeedRestoreError (option bytes) :=
  let? state := ok_or self.(rss_state) RErr.Storage in
  Ok (rcb_block_hash <$> find_first (fun b => b.(rcb_height) =? height) state.(ws_recovery_canonical_blocks)).

(** The methods the trait provides are left at their defaults. *)
#[export] Instance restore_sink : CoreScanTransactionSink SeedRestoreSession RErr.SeedRestoreError := {|
  core_cursor_state := restore_cursor_state;
  committed_canonical_hash := restore_canonical_hash;
  commit_core_batch batch cursor := restore_commit batch cursor None;
  commit_core_reorg safe_anchor batch cursor := restore_commit batch cursor (Some safe_anchor);
  persistence_stage _ := StorageCommit;
  recover_generation_conflict _ := mret false;
|}.

(** ** Sessions *)

Definition advance_once : method (W * SeedRestoreSession) RErr.SeedRestoreError SeedRestoreProgress := fun s =>
  if s.2.(rss_ready_to_publish) then (s, Ok ReadyToPublish) else
  let self := s.2 <| rss_last_error := None |> in
  match reconcile_once self.(rss_adapter) (s.1, self) with
  | (s, Err error) =>
      (s, Err match s.2.(rss_last_error) with Some e => e | None => map_scan_error error end)
  | ((w, self), Ok NoChanges) => ((w, self <| rss_ready_to_publish := true |>), Ok ReadyToPublish)
  | (s, Ok (Committed cursor)) => (s, let? anchor := cursor_anchor cursor in Ok (BatchCommitted anchor))
  | (s, Ok (ReorgCommitted safe_anchor cursor)) =>
      (s, let? new_anchor := cursor_anchor cursor in Ok (RestoreReorgCommitted safe_anchor new_anchor))
  end.

(** A call of the place, with its error translated. *)
Definition at_place {A} (error : StErr.StorageError -> RErr.SeedRestoreError) (m : fs A)
    : method SeedRestoreSession RErr.SeedRestoreError A := fun self =>
  let '(place, r) := m self.(rss_place) in
  (self <| rss_place := place |>, match r with Ok a => Ok a | Err e => Err (error e) end).
Definition as_storage (_ : StErr.StorageError) : RErr.SeedRestoreError := RErr.Storage.

(** [publish] of the session [self], whose place changes. *)
Definition publish_session (self : SeedRestoreSession)
    : method SeedRestoreSession RErr.SeedRestoreError SeedRestoreResult :=
  mread (fun _ => fail_if (negb self.(rss_ready_to_publish)) RErr.Incomplete) ;;;
  let! state := mread (fun _ => ok_or self.(rss_state) RErr.Storage) in
  mread (fun _ => fail_if (negb (is_some state.(ws_core_scan_cursor))) RErr.Incomplete) ;;;
  let! state :=
    if restore_complete state then mret state
    else
      let state := state <| ws_seed_restore_status := Some Seed.Complete |> <| ws_sync_status := Sync.Synced |> in
      at_place as_storage (inside self.(rss_staging)
        (commit_with_encoding (sink_seal_random self.(rss_commits)) state.(ws_generation) state
           self.(rss_password) self.(rss_kdf) CompactV2)) in
  let! outcome := mread (fun _ => result_from_state state self.(rss_identity)) in
  let! present := at_place as_storage (exists_at self.(rss_destination)) in
  mread (fun _ => fail_if present RErr.InvalidDestination) ;;;
  at_place as_storage (rename_directory self.(rss_staging) self.(rss_destination)) ;;;
  at_place as_storage sync_parent ;;;
  mret outcome.
Definition publish : method SeedRestoreSession RErr.SeedRestoreError SeedRestoreResult :=
  fun self => publish_session self self.

(** A state loaded from a staging directory: a wrong password is told apart. *)
Definition load_error (error : StErr.StorageError) : RErr.SeedRestoreError :=
  match error with
  | StErr.InvalidPassword => RErr.InvalidPassword
  | _ => RErr.IncompatibleCheckpoint
  end.

(** A step of the node or of the place before there is a session. *)
Definition at_node {A} (m : method W SErr.CoreScanError A) : method (W * Place) RErr.SeedRestoreError A := fun s =>
  let '(w, r) := m s.1 in
  ((w, s.2), match r with Ok a => Ok a | Err e => Err (map_scan_error e) end).
Definition at_entries {A} (error : StErr.StorageError -> RErr.SeedRestoreError) (m : fs A)
    : method (W * Place) RErr.SeedRestoreError A := fun s =>
  let '(p, r) := m s.2 in
  ((s.1, p), match r with Ok a => Ok a | Err e => Err (error e) end).

(** The two ways to a checkpoint: the one of a stage, and a new one. *)
Definition resume_stage (seed : CanonicalWalletSeed) (expected_identity : CoreChainIdentity)
    (fresh : option (bytes * bytes)) (staging password : bytes)
    : method (W * Place) RErr.SeedRestoreError (WalletState * bool) :=
  at_entries as_storage (open_directory staging) ;;;
  let! state := at_entries load_error (inside staging (load fresh password)) in
  mread (fun _ => validate_checkpoint state seed expected_identity) ;;;
  mret (state, restore_complete state).
Definition create_stage (seed : CanonicalWalletSeed) (expected_identity : CoreChainIdentity) (ids : uuid * uuid)
    (fresh fresh' : option (bytes * bytes)) (staging password : bytes) (kdf : KdfParameters)
    : method (W * Place) RErr.SeedRestoreError (WalletState * bool) :=
  let state := initial_restore_state ids seed expected_identity in
  at_entries as_storage (create_directory fresh fresh' staging state password kdf) ;;;
  at_entries as_storage (change (fun e => e)) ;;;
  mret (state, false).

(** [begin]; [ids] are the identifiers of a new wallet, [fresh] the randomness of
    its files. *)
Definition begin (self : SeedRestoreService) (ids : uuid * uuid) (fresh fresh' : option (bytes * bytes))
    (mnemonic : list N) (password destination : bytes)
    : method (W * Place) RErr.SeedRestoreError SeedRestoreSession :=
  mread (fun _ => validate_restore_password password) ;;;
  let! seed := mread (fun _ => map_err (parse mnemonic) RErr.InvalidMnemonic) in
  let! adapter := at_node (connect (Some self.(srs_expected_identity)) self.(srs_batch_blocks)
                             self.(srs_reorg_depth)) in
  let! present := at_entries as_storage (exists_at destination) in
  mread (fun _ => fail_if present RErr.InvalidDestination) ;;;
  let! staging := at_entries as_storage (staging_path destination) in
  let! staging := mread (fun _ => ok_or staging RErr.InvalidDestination) in
  let chain := mkRecoveryChainContext self.(srs_expected_identity).(cci_network_magic)
                                      self.(srs_expected_identity).(cci_chain_id) in
  let! present := at_entries as_storage (exists_at staging) in
  let! '(state, ready_to_publish) :=
    if present : bool then resume_stage seed self.(srs_expected_identity) fresh staging password
    else create_stage seed self.(srs_expected_identity) ids fresh fresh' staging password self.(srs_kdf) in
  fun s => (s, Ok (mkSeedRestoreSession adapter seed chain self.(srs_expected_identity) s.2 (Some state) password
                     self.(srs_kdf) destination staging ready_to_publish None 0)).

(** ** The loop *)

(** [busy_delay.checked_mul(2).unwrap_or(max).min(max)] *)
Definition next_delay (self : SeedRestoreService) (busy_delay : N) : N :=
  N.min (match checked_mul DURATION_MAX busy_delay 2 with
         | Some delay => delay
         | None => self.(srs_busy_retry_max_delay)
         end) self.(srs_busy_retry_max_delay).

(** The loop of [restore]: the session, the delays slept, and the result unless the
    fuel runs out. *)
Fixpoint restore_loop (self : SeedRestoreService) (fuel : nat) (busy_attempts busy_delay : N)
    (s : W * SeedRestoreSession)
    : (W * SeedRestoreSession) * list N * option (result RErr.SeedRestoreError SeedRestoreResult) :=
  match fuel with
  | O => (s, [], None)
  | S fuel =>
      match advance_once s with
      | ((w, session), Ok ReadyToPublish) =>
          let '(session, r) := publish session in ((w, session), [], Some r)
      | (s, Ok _) => restore_loop self fuel 0 self.(srs_busy_retry_initial_delay) s
      | (s, Err error) =>
          if bool_decide (error = RErr.CoreBusy) && (busy_attempts <? self.(srs_busy_retry_attempts)) then
            let '(s, slept, r) := restore_loop self fuel (busy_attempts + 1) (next_delay self busy_delay) s in
            (s, (if busy_delay =? 0 then slept else busy_delay :: slept), r)
          else (s, [], Some (Err error))
      end
  end.

(** [restore], with the fuel of its loop. *)
Definition restore (self : SeedRestoreService) (fuel : nat) (ids : uuid * uuid)
    (fresh fresh' : option (bytes * bytes)) (mnemonic : list N) (password destination : bytes) (s : W * Place)
    : (W * Place) * option (result RErr.SeedRestoreError SeedRestoreResult) :=
  match begin self ids fresh fresh' mnemonic password destination s with
  | (s, Err error) => (s, Some (Err error))
  | ((w, _), Ok session) =>
      let '(s, _, r) := restore_loop self fuel 0 self.(srs_busy_retry_initial_delay) (w, session) in
      ((s.1, s.2.(rss_place)), r)
  end.

(** ** Stages found at startup *)

Definition without_suffix (suffix b : bytes) : option bytes :=
  match strip_prefix (rev suffix) (rev b) with Some rest => Some (rev rest) | None => None end.
Definition stage_destination (name : bytes) : option bytes :=
  if negb (is_utf8 name) then None else
  match strip_prefix (str ".") name with
  | Some rest => without_suffix (str ".seed-restore") rest
  | None => None
  end.
(** One directory entry: the destination it is a stage of. *)
Definition stage_at (name : bytes) : fs (option bytes) := fun p =>
  match stage_destination name with
  | None => (p, Ok None)
  | Some destination =>
      match inspect_structure name p with
      | (p, Ok _) => (p, Ok (Some destination))
      | (p, Err _) => (p, Ok None)
      end
  end.
(** [discover_restore_stages]; the entries come in the order of the map. *)
Definition discover_restore_stages : fs (list bytes) := fun p =>
  match peek (fun e => Ok (map fst (map_to_list e))) p with
  | (p, Err _) => (p, Ok [])
  | (p, Ok names) =>
      let '(p, stages) := fold_left (fun '(p, stages) name =>
        match stage_at name p with
        | (p, Ok (Some destination)) => (p, stages ++ [destination])
        | (p, _) => (p, stages)
        end) names (p, []) in
      (p, Ok (merge_sort bytes_le stages))
  end.

(** [abort_restore_stage] *)
Definition abort_restore_stage (fresh : option (bytes * bytes)) (destination password : bytes)
    : method (W * Place) RErr.SeedRestoreError unit :=
  mread (fun _ => validate_restore_password password) ;;;
  let! present := at_entries as_storage (exists_at destination) in
  mread (fun _ => fail_if present RErr.InvalidDestination) ;;;
  let! staging := at_entries as_storage (staging_path destination) in
  let! staging := mread (fun _ => ok_or staging RErr.InvalidDestination) in
  at_entries as_storage (open_directory staging) ;;;
  let! state := at_entries load_error (inside staging (load fresh password)) in
  mread (fun _ => fail_if (negb (restoring_status state)) RErr.IncompatibleCheckpoint) ;;;
  at_entries as_storage (remove_dir_all staging) ;;;
  at_entries as_storage sync_parent.
End restore.

(** ** Restored outputs as inputs *)

Record RestoredSpendSource := mkRestoredSpendSource {
  rsp_commitment : bytes;
  rsp_value : N;
  rsp_blinding : bytes;
  rsp_block_height : N;
  rsp_is_coinbase : bool;
}.
Definition RestoredSpendSource_load (state : WalletState) (commitment : bytes)
    : result RErr.SeedRestoreError RestoredSpendSource :=
  let? output := ok_or (find_first (fun o => bool_decide (o.(out_commitment) = Some commitment)) state.(ws_outputs))
                       RErr.MalformedRecovery in
  fail_if (negb (bool_decide (output.(out_state) = Out.Confirmed))) RErr.MalformedRecovery ;?
  let? metadata := ok_or (find_metadata state output.(out_id)) RErr.MalformedRecovery in
  let? blinding := ok_or (output_blinding state output.(out_id)) RErr.MalformedRecovery in
  Ok (mkRestoredSpendSource commitment output.(out_value) blinding output.(out_discovered_height)
        metadata.(rom_is_coinbase)).

(** ** Lemmas: what recovery leaves of a wallet *)

(** The parts of a wallet that make a checkpoint resumable. *)
Record same_root (s s' : WalletState) : Prop := {
  sr_root : s'.(ws_root_material) = s.(ws_root_material);
  sr_identity : s'.(ws_identity) = s.(ws_identity);
  sr_wallet : s'.(ws_wallet_id) = s.(ws_wallet_id);
  sr_recovery : s'.(ws_recovery) = s.(ws_recovery);
}.
#[export] Instance same_root_preorder : PreOrder same_root.
Proof. split; [by intros s; split|]. intros s1 s2 s3 [] []. split; congruence. Qed.
Ltac root_kept := split; reflexivity.

Lemma restoring_root s s' : restoring s s' -> same_root s s'.
Proof.
  intros H. pose proof (restoring_unrelated _ _ H) as E.
  split; [pose proof (f_equal ws_root_material E) as E1|pose proof (f_equal ws_identity E) as E1
    |pose proof (f_equal ws_wallet_id E) as E1|pose proof (f_equal ws_recovery E) as E1]; simpl in E1; congruence.
Qed.

Lemma account_id_root fresh a : moves same_root (account_id_for fresh a).
Proof. intros s s' r H. apply account_id_frame in H as ->. root_kept. Qed.

Lemma merge_output_root fresh r pos tip mat : moves same_root (merge_restored_output fresh r pos tip mat).
Proof.
  intros s s' res. rewrite merge_unfold. intros H. transitivity (merge_floors r s); [root_kept|].
  destruct (position _ _); [unfold merge_known in H|unfold merge_new in H]; run_method;
    repeat match goal with E : account_id_for _ _ _ = _ |- _ => apply account_id_root in E end;
    try done; try root_kept.
  all: (etransitivity; [eassumption|]); first [root_kept|rewrite remember_frame; root_kept].
Qed.

Lemma spend_inputs_root h inputs seen : moves same_root (spend_inputs h inputs seen).
Proof.
  revert seen. induction inputs as [|x inputs IH]; intros seen s s' r H; cbn [spend_inputs] in H.
  - by injection H as <- _.
  - destruct (bool_decide _); [by injection H as <- _|].
    destruct (position _ _) as [i|]; [|by eapply IH].
    destruct (_ !! i) as [o|]; [|by injection H as <- _].
    destruct (spend_output h o) as [o' [u|e]].
    + etransitivity; [|by eapply IH]. root_kept.
    + injection H as <- _. root_kept.
Qed.

Lemma apply_blocks_root blocks seen : moves same_root (apply_blocks blocks seen).
Proof.
  revert seen. induction blocks as [|b blocks IH]; intros seen; simpl.
  - intros s s' r [= <- _]. done.
  - apply (moves_mthen same_root).
    { intros s s' res H. unfold record_block in H. run_method; root_kept. }
    intros _. apply (moves_mthen same_root); [apply spend_inputs_root|auto].
Qed.

Lemma refresh_maturity_root tip mat : moves same_root (refresh_maturity tip mat).
Proof. intros s s' r. unfold refresh_maturity. destruct (for_each_mut _ _). intros [= <- _]. root_kept. Qed.

Lemma domain_root {A} (m : method WalletState DErr.DomainError A) :
  moves restoring m -> moves same_root (domain m).
Proof.
  intros Hm s s' r. unfold domain. destruct (m s) as [s1 r1] eqn:E. intros [= <- _].
  by eapply restoring_root, Hm.
Qed.

Lemma prune_root s : same_root s (prune_recovery_canonical_window s).
Proof.
  unfold prune_recovery_canonical_window. destruct (last _); [|done].
  destruct (is_some_and _ _); [|done]. root_kept.
Qed.

Lemma apply_batch_root {seed : RecoverySeed} fresh fresh' mat batch :
  moves same_root (apply_recovery_batch fresh fresh' mat batch).
Proof.
  unfold apply_recovery_batch.
  apply (moves_mthen same_root); [apply (moves_mread same_root)|]. intros restored.
  apply (moves_mthen same_root).
  { apply (moves_mfor same_root). intros [i r]. unfold merge_next. apply (moves_mthen same_root).
    - apply (moves_mread same_root).
    - intros pos. apply merge_output_root. }
  intros _. apply (moves_mthen same_root).
  { apply (moves_mfor same_root). intros [i block]. apply (moves_mthen same_root).
    - apply (moves_mread same_root).
    - intros [[r pos]|]; [apply merge_output_root|]. intros s s' res [= <- _]. done. }
  intros _. apply (moves_mthen same_root).
  { intros s s' r H. unfold migrate_durable_scan_counters in H. run_method; root_kept. }
  intros _. apply (moves_mthen same_root); [apply apply_blocks_root|].
  intros _. apply (moves_mthen same_root).
  { apply moves_massign. intros s. etransitivity; [|apply prune_root]. root_kept. }
  intros _. apply (moves_mthen same_root); [apply refresh_maturity_root|].
  intros _. apply (moves_mthen same_root); [apply domain_root, restore_funding_moves|].
  intros _. apply domain_root, restore_payout_moves.
Qed.

Lemma rewind_root safe tip : moves same_root (rewind_recovery_state safe tip).
Proof.
  unfold rewind_recovery_state. apply (moves_mthen same_root).
  { apply moves_massign. intros s. root_kept. }
  intros _. apply (moves_mthen same_root); [apply refresh_maturity_root|]. intros _ s s' r. unfold domain.
  destruct (rollback_confirmations_after_height safe s) as [s1 r1] eqn:E. intros [= <- _]. revert s s1 r1 E.
  unfold rollback_confirmations_after_height. apply (moves_mthen same_root).
  - intros s s' r1 H. unfold on_transactions in H. destruct (for_each_mut _ _). injection H as <- _. root_kept.
  - intros _ s s' r1 H. by eapply restoring_root, restore_reorged_moves.
Qed.

(** ** Lemmas: sessions *)

Section sessions.
Context {codec : CoreCodec} {code : CryptoCode} {json : StateCode} {seed_code : SeedCode}.
Context {claws : CryptoLaws code} {slaws : StateLaws json}.
Context {W : Type} {api : WalletCoreApi W} {random : SinkRandom}.
Context (recovery_seed_of : CanonicalWalletSeed -> RecoveryChainContext -> RecoverySeed).
Context (E : entries) (staging destination password : bytes) (seed : CanonicalWalletSeed) (identity : CoreChainIdentity).
Implicit Types (st : WalletState) (self : SeedRestoreSession) (d : Disk).

(** A directory that holds a checkpoint of the restore, and one that holds some. *)
Definition stage_of st d : Prop :=
  published password st d /\ typed_state st /\ validate_checkpoint st seed identity = Ok tt.
Definition some_stage d : Prop := exists st, stage_of st d.

Lemma validate_checkpoint_Ok st :
  validate_checkpoint st seed identity = Ok tt <->
  st.(ws_root_material) = seed.(cws_mnemonic).(mn_entropy) /\ st.(ws_identity) = domain_identity identity
  /\ restoring_status st = true
  /\ (restore_complete st = true -> is_some st.(ws_core_scan_cursor) = true /\ st.(ws_sync_status) = Sync.Synced)
  /\ is_none_or st.(ws_recovery)
       (fun recovery => negb (String.eqb recovery.(rm_scheme) RECOVERY_SCHEME_BIP39_256_V1)) = false.
Proof.
  unfold validate_checkpoint. rewrite fail_if_Ok, !orb_false_iff, andb_false_iff, !negb_false_iff, !bool_decide_eq_true.
  rewrite orb_false_iff, !negb_false_iff, bool_decide_eq_true.
  split.
  - intros ((((H1 & H2) & H3) & H4) & H5). do 3 (split; [done|]). split; [|done].
    intros Hc. destruct H4 as [H4|H4]; [congruence|exact H4].
  - intros (H1 & H2 & H3 & H4 & H5). repeat split; try done. destruct (restore_complete st); [right; by apply H4|by left].
Qed.

Lemma checkpoint_resumable n self batch cursor anchor st st' u :
  checkpoint recovery_seed_of n self batch cursor anchor st = (st', Ok u) ->
  validate_checkpoint st seed identity = Ok tt ->
  validate_checkpoint st' seed identity = Ok tt.
Proof.
  intros H (Hr & Hi & _ & _ & Hs)%validate_checkpoint_Ok. unfold checkpoint in H.
  apply mthen_Ok in H as (s1 & u1 & H1 & H). apply mthen_Ok in H as (s2 & u2 & H2 & H).
  assert (R1 : same_root st s1).
  { unfold rewind_to in H1. destruct anchor; [by eapply rewind_root|]. by injection H1 as <- _. }
  pose proof (apply_batch_root _ _ _ _ _ _ _ H2) as R2.
  assert (R : same_root st s2) by by transitivity s1. destruct R as [E1 E2 _ E4].
  apply mthen_Ok in H as (s3 & u3 & H3 & H). injection H3 as <- _. injection H as <- _.
  apply validate_checkpoint_Ok. simpl. by rewrite E1, E2, E4.
Qed.

Lemma triple_load_published st rnd :
  triple (published password st) (load rnd password) (fun st' d => st' = st /\ published password st d)
    (published password st).
Proof. intros w w' r H [m Ho]. exact (triple_load _ _ _ _ _ _ _ H Ho). Qed.

Lemma triple_commit_stage st next rnd kdf :
  validate_checkpoint next seed identity = Ok tt ->
  triple (stage_of st)
    (commit_with_encoding rnd st.(ws_generation) next password kdf CompactV2)
    (fun st' => stage_of st') some_stage.
Proof.
  intros Hn w w' r H ([m Ho] & Ht & Hc).
  assert (Hnew : committable m st next (ws_generation st) -> published password (committed_state next (ws_generation st)) (w_disk w') ->
    stage_of (committed_state next (ws_generation st)) (w_disk w')).
  { intros Hcm Hp. split; [done|]. split; [eapply committed_typed; [apply Ho|done|done]|]. exact Hn. }
  pose proof (triple_commit password m st next (ws_generation st) rnd kdf CompactV2 _ _ _ H Ho) as HQ.
  destruct r as [st'|e]; [destruct HQ as (-> & ? & ?); auto|]. destruct HQ as [HQ|[? ?]].
  - exists st. split; [by exists m|done].
  - eexists. by apply Hnew.
Qed.

(** The session works on a checkpoint in its staging directory, and holds its state
    or none. *)
Record session_params self : Prop := {
  sa_staging : self.(rss_staging) = staging;
  sa_destination : self.(rss_destination) = destination;
  sa_password : self.(rss_password) = password;
  sa_seed : self.(rss_seed) = seed;
  sa_identity : self.(rss_identity) = identity;
}.
Definition session_at self : Prop :=
  session_params self
  /\ exists st, held E staging (stage_of st) self.(rss_place).(pl_entries)
      /\ (self.(rss_state) = None \/ self.(rss_state) = Some st).

Lemma reload_stage st rnd p p' r :
  inside staging (load rnd password) p = (p', r) -> held E staging (stage_of st) p.(pl_entries) ->
  held E staging (stage_of st) p'.(pl_entries) /\ match r with Ok st' => st' = st | Err _ => True end.
Proof.
  intros H Hh. assert (Htr : triple (stage_of st) (load rnd password) (fun st' d => st' = st /\ stage_of st d) (stage_of st)).
  { intros w w' r' Hr (Hp & Hs). pose proof (triple_load_published _ _ _ _ _ Hr Hp) as HQ.
    destruct r'; [destruct HQ as [-> ?]; by split|by split]. }
  pose proof (ptriple_inside staging E _ _ _ _ Htr _ _ _ H Hh) as HQ.
  destruct r; [|by split]. destruct HQ as (d & He & -> & Hd). split; [by exists d|done].
Qed.

Lemma restore_commit_keeps batch cursor anchor self self' r :
  restore_commit recovery_seed_of batch cursor anchor self = (self', r) -> session_at self -> session_at self'.
Proof.
  intros H [Hparams (st & Hh & Hs)]. pose proof Hparams as [Hst Hd Hpw Hse Hid]. unfold restore_commit in H.
  destruct (rss_state self) as [s|] eqn:Hself; [|injection H as <- _; split; [done|]; exists st; split; [done|by left]].
  destruct Hs as [|[= ->]]; [done|].
  set (self1 := self <| rss_commits ::= S |>) in *. cbn zeta in H.
  assert (Hrun : forall p r1, held E staging some_stage p.(pl_entries) ->
    (forall c, r1 = Ok c -> held E staging (stage_of c) p.(pl_entries)) ->
    match r1 with
    | Ok committed => (self1 <| rss_place := p |> <| rss_state := Some committed |>, Ok tt)
    | Err error =>
        let '(place, loaded) := inside (rss_staging self1) (load (sink_seal_random (rss_commits self)) (rss_password self1)) p in
        (self1 <| rss_place := place |>
              <| rss_state := match loaded with Ok state => Some state | Err _ => None end |>
              <| rss_last_error := Some error |>, Err error)
    end = (self', r) -> session_at self').
  { intros p r1 (d1 & He1 & st1 & Hst1) Hok Hr. destruct r1 as [c|e].
    - injection Hr as <- _. split; [by split|]. exists c. split; [by apply Hok|by right].
    - change (rss_staging self1) with (rss_staging self) in Hr. change (rss_password self1) with (rss_password self) in Hr.
      rewrite Hst, Hpw in Hr. destruct (inside staging _ p) as [p' loaded] eqn:El.
      destruct (reload_stage st1 _ _ _ _ El) as [Hh1 Hl]; [by exists d1|].
      injection Hr as <- _. split; [by split|]. exists st1. split; [exact Hh1|]. simpl. destruct loaded; [right; by subst|by left]. }
  destruct (checkpoint _ _ self1 batch cursor anchor st) as [next [u|error]] eqn:Ec.
  - change (rss_staging self1) with (rss_staging self) in H. change (rss_password self1) with (rss_password self) in H.
    change (rss_place self1) with (rss_place self) in H. change (rss_kdf self1) with (rss_kdf self) in H.
    rewrite Hst, Hpw in H. destruct (inside staging _ (rss_place self)) as [p rc] eqn:Ei.
    destruct Hh as (d & He & Hsd). pose proof Hsd as (_ & _ & Hv).
    pose proof (ptriple_inside staging E _ _ _ _ (triple_commit_stage st next _ _ (checkpoint_resumable _ _ _ _ _ _ _ _ Ec Hv)) _ _ _ Ei
      (ex_intro _ d (conj He Hsd))) as HQ.
    destruct rc as [c|e].
    + apply (Hrun p (Ok c)); [|by intros c' [= <-]|exact H]. eapply held_mono; [|exact HQ]. intros d'. by exists c.
    + apply (Hrun p (Err (commit_error e))); [exact HQ|done|].
      change (rss_staging self1) with (rss_staging self). change (rss_password self1) with (rss_password self).
      by rewrite Hst, Hpw.
  - apply (Hrun (rss_place self1) (Err error)); [|done|exact H]. eapply held_mono; [|exact Hh]. intros d'. by exists st.
Qed.

Lemma advance_keeps (s s' : W * SeedRestoreSession) r :
  advance_once recovery_seed_of s = (s', r) -> session_at s.2 -> session_at s'.2.
Proof.
  unfold advance_once. destruct (rss_ready_to_publish s.2); [by intros [= <- _]|]. intros H Hat.
  set (self := s.2 <| rss_last_error := None |>) in *. assert (Hself : session_at self) by (destruct Hat as [[] Hst]; by split).
  destruct (reconcile_once _ _) as [s1 r1] eqn:Er.
  assert (H1 : session_at s1.2).
  { eapply (kept_once session_at); [| | |exact Er|exact Hself].
    - intros batch c k k' r'. apply restore_commit_keeps.
    - intros anchor batch c k k' r'. apply restore_commit_keeps.
    - intros e k k' r' [= <- _]. done. }
  destruct s1 as [w1 k1], r1 as [[| |]|]; injection H as <- _; try exact H1. destruct H1 as [[] ?]. by split.
Qed.
End sessions.

(** ** Lemmas: triples of methods *)

Definition hoare {S Er A : Type} (P : S -> Prop) (m : method S Er A) (Q : A -> S -> Prop) (C : S -> Prop) : Prop :=
  forall s s' r, m s = (s', r) -> P s -> match r with Ok a => Q a s' | Err _ => C s' end.

Section hoare.
Context {S Er A B : Type}.
Implicit Types (P C : S -> Prop).

Lemma hoare_bind P C (m : method S Er A) (k : A -> method S Er B) Q R :
  hoare P m Q C -> (forall a, hoare (Q a) (k a) R C) -> hoare P (mthen m k) R C.
Proof.
  intros Hm Hk s s' r H HP. unfold mthen in H. destruct (m s) as [s1 [a|e]] eqn:Em.
  - apply (Hk a _ _ _ H). by apply (Hm _ _ _ Em).
  - injection H as <- <-. by apply (Hm _ _ _ Em).
Qed.
Lemma hoare_ret P C (a : A) (Q : A -> S -> Prop) : (forall s, P s -> Q a s) -> hoare P (mret (E := Er) a) Q C.
Proof. intros H s s' r [= <- <-]. apply H. Qed.
Lemma hoare_read P C (f : S -> result Er A) (Q : A -> S -> Prop) :
  (forall a s, f s = Ok a -> P s -> Q a s) -> (forall s, P s -> C s) -> hoare P (mread f) Q C.
Proof. intros HQ HC s s' r [= <- <-] HP. destruct (f s) eqn:E; auto. Qed.
Lemma hoare_const (F : Prop) P C (m : method S Er A) Q :
  (F -> hoare P m Q C) -> hoare (fun s => P s /\ F) m Q C.
Proof. intros H s s' r Hr [HP HF]. by apply (H HF _ _ _ Hr). Qed.
Lemma hoare_weaken P P' C C' (m : method S Er A) Q Q' :
  hoare P' m Q' C' -> (forall s, P s -> P' s) -> (forall a s, Q' a s -> Q a s) -> (forall s, C' s -> C s) ->
  hoare P m Q C.
Proof. intros Hm HP HQ HC s s' r H Hs. specialize (Hm _ _ _ H (HP _ Hs)). destruct r; auto. Qed.
End hoare.

Section publishing.
Context {codec : CoreCodec} {code : CryptoCode} {json : StateCode} {seed_code : SeedCode}.
Context {claws : CryptoLaws code} {slaws : StateLaws json}.
Context {W : Type} {api : WalletCoreApi W} {random : SinkRandom}.
Context (recovery_seed_of : CanonicalWalletSeed -> RecoveryChainContext -> RecoverySeed).
Context (E : entries) (staging destination password : bytes) (seed : CanonicalWalletSeed) (identity : CoreChainIdentity).
Implicit Types (st : WalletState) (self : SeedRestoreSession) (d : Disk).
Abbreviation stage := (stage_of password seed identity).
Abbreviation params := (session_params staging destination password seed identity).

(** The checkpoint is in its staging directory, or the complete wallet is in place. *)
Definition in_place st (e : entries) : Prop := held E destination (stage st) e /\ restore_complete st = true.
Definition staged_or_published (e : entries) : Prop :=
  (exists st, held E staging (stage st) e) \/ exists st, in_place st e.

(** The complete checkpoint is in its staging directory. *)
Definition complete_stage st d : Prop := stage st d /\ restore_complete st = true.
Definition in_stage st (e : entries) : Prop := held E staging (complete_stage st) e.
Lemma in_stage_held st e : in_stage st e -> held E staging (stage st) e /\ restore_complete st = true.
Proof. intros (d & He & Hd & Hc). split; [by exists d|done]. Qed.

(** Marking a checkpoint complete. *)
Lemma triple_complete st rnd kdf :
  is_some st.(ws_core_scan_cursor) = true ->
  triple (stage st)
    (commit_with_encoding rnd st.(ws_generation)
       (st <| ws_seed_restore_status := Some Seed.Complete |> <| ws_sync_status := Sync.Synced |>) password kdf CompactV2)
    complete_stage (fun d => exists st', stage st' d).
Proof.
  intros Hcursor w w' r Hw Hh.
  set (next := st <| ws_seed_restore_status := Some Seed.Complete |> <| ws_sync_status := Sync.Synced |>) in *.
  assert (Hv : validate_checkpoint next seed identity = Ok tt).
  { destruct Hh as (_ & _ & (H1 & H2 & H3 & H4 & H5)%validate_checkpoint_Ok). apply validate_checkpoint_Ok. by simpl. }
  pose proof (triple_commit_stage password seed identity st next _ _ Hv _ _ _ Hw Hh) as HQ.
  destruct r as [st'|]; [|exact HQ]. split; [exact HQ|]. destruct Hh as ([m Ho] & _).
  by destruct (triple_commit password m st next _ _ _ _ _ _ _ Hw Ho) as (-> & _).
Qed.

Lemma hoare_at_place {A} error (m : fs A) P Q C :
  ptriple P m Q C ->
  hoare (fun self => params self /\ P self.(rss_place).(pl_entries)) (at_place error m)
    (fun a self => params self /\ Q a self.(rss_place).(pl_entries))
    (fun self => params self /\ C self.(rss_place).(pl_entries)).
Proof.
  intros Hm self self' r H [Hp HP]. unfold at_place in H. destruct (m (rss_place self)) as [p r1] eqn:Em.
  injection H as <- <-. specialize (Hm _ _ _ Em HP). destruct Hp. by destruct r1.
Qed.

Lemma publish_session_leaves session st :
  E !! staging = None -> params session -> (session.(rss_state) = None \/ session.(rss_state) = Some st) ->
  hoare (fun self => params self /\ held E staging (stage st) self.(rss_place).(pl_entries)) (publish_session session)
    (fun outcome self => params self /\ exists st, in_place st self.(rss_place).(pl_entries)
                         /\ result_from_state st identity = Ok outcome)
    (fun self => params self /\ staged_or_published self.(rss_place).(pl_entries)).
Proof.
  intros Hst [Hstg Hdst Hpw _ Hid] Hstate.
  set (C := fun self => params self /\ staged_or_published self.(rss_place).(pl_entries)).
  set (H0 := fun st self => params self /\ held E staging (stage st) self.(rss_place).(pl_entries)).
  assert (Hs : forall st e, held E staging (stage st) e -> staged_or_published e) by (intros st' e ?; left; by exists st').
  assert (HC : forall st self, H0 st self -> C self) by (intros st' self [? ?]; split; [done|by eapply Hs]).
  assert (Hi : forall st e, in_place st e -> staged_or_published e) by (intros st' e ?; right; by exists st').
  unfold publish_session. rewrite Hstg, Hdst, Hpw, Hid.
  apply (hoare_bind _ _ _ _ (fun _ => H0 st)); [apply hoare_read; eauto|intros ?].
  apply (hoare_bind _ _ _ _ (fun st' self => H0 st self /\ st' = st)).
  { apply hoare_read; [|apply HC]. intros st' self Hok%ok_or_Ok Hh. split; [done|]. destruct Hstate; congruence. }
  intros st1. apply hoare_const. intros ->.
  apply (hoare_bind _ _ _ _ (fun _ self => H0 st self /\ is_some st.(ws_core_scan_cursor) = true)).
  { apply hoare_read; [|apply HC]. intros u self Hc%fail_if_Ok Hh. split; [done|]. by apply negb_false_iff. }
  intros _. apply hoare_const. intros Hcursor.
  apply (hoare_bind _ _ _ _ (fun st' self => params self /\ in_stage st' self.(rss_place).(pl_entries))).
  { destruct (restore_complete st) eqn:Ec.
    { apply hoare_ret. intros self [? (d & He & Hd)]. split; [done|]. by exists d. }
    apply (hoare_at_place as_storage _ _ in_stage staged_or_published).
    eapply ptriple_weaken; [by apply ptriple_inside, (triple_complete st)|done|done|].
    intros e (d & He & st' & Hd). left. by exists st', d. }
  intros st'. apply (hoare_bind _ _ _ _ (fun outcome self => (params self /\ in_stage st' self.(rss_place).(pl_entries))
    /\ result_from_state st' identity = Ok outcome)).
  { apply hoare_read; [done|]. intros self [? [? _]%in_stage_held]. split; [done|]. by eapply Hs. }
  intros outcome. apply hoare_const. intros Hout.
  assert (Hsp : forall e, in_stage st' e -> staged_or_published e).
  { intros e [He _]%in_stage_held. by eapply Hs. }
  apply (hoare_bind _ _ _ _ (fun _ self => params self /\ in_stage st' self.(rss_place).(pl_entries))).
  { apply (hoare_at_place as_storage _ _ (fun _ => in_stage st') staged_or_published). by apply ptriple_exists. }
  intros present. apply (hoare_bind _ _ _ _ (fun _ self => params self /\ in_stage st' self.(rss_place).(pl_entries))).
  { apply hoare_read; [done|]. intros self [? ?]. split; auto. }
  intros _. apply (hoare_bind _ _ _ _ (fun _ self => params self /\ in_place st' self.(rss_place).(pl_entries))).
  { apply (hoare_at_place as_storage _ _ (fun _ => in_place st') staged_or_published).
    assert (Hp : forall e, held E destination (complete_stage st') e -> in_place st' e).
    { intros e (d & He & Hd & Hc). split; [by exists d|done]. }
    eapply ptriple_weaken;
      [apply (ptriple_rename staging destination E (complete_stage st') staged_or_published)| | |]; try done; eauto. }
  intros _. apply (hoare_bind _ _ _ _ (fun _ self => params self /\ in_place st' self.(rss_place).(pl_entries))).
  { apply (hoare_at_place as_storage _ _ (fun _ => in_place st') staged_or_published). apply ptriple_change; eauto. }
  intros _. apply hoare_ret. intros self [? ?]. split; [done|]. by exists st'.
Qed.

Lemma publish_leaves :
  E !! staging = None ->
  hoare (session_at E staging destination password seed identity) publish
    (fun outcome self => params self /\ exists st, in_place st self.(rss_place).(pl_entries)
                         /\ result_from_state st identity = Ok outcome)
    (fun self => params self /\ staged_or_published self.(rss_place).(pl_entries)).
Proof.
  intros Hst self self' r H [Hp (st & Hh & Hstate)].
  exact (publish_session_leaves self st Hst Hp Hstate _ _ _ H (conj Hp Hh)).
Qed.

Lemma restore_loop_leaves (service : SeedRestoreService) fuel attempts delay (s s' : W * SeedRestoreSession) slept r :
  E !! staging = None ->
  restore_loop recovery_seed_of service fuel attempts delay s = (s', slept, r) ->
  session_at E staging destination password seed identity s.2 ->
  match r with
  | Some (Ok outcome) => exists st, in_place st s'.2.(rss_place).(pl_entries) /\ result_from_state st identity = Ok outcome
  | _ => staged_or_published s'.2.(rss_place).(pl_entries)
  end.
Proof.
  intros Hst. revert attempts delay s s' slept r. induction fuel as [|fuel IH]; intros attempts delay s s' slept r H Hat; simpl in H.
  - injection H as <- <- <-. destruct Hat as [_ (st & Hh & _)]. left. by exists st.
  - destruct (advance_once recovery_seed_of s) as [s1 r1] eqn:Ea. pose proof (advance_keeps _ _ _ _ _ _ _ _ _ _ Ea Hat) as H1.
    destruct r1 as [[| |]|error].
    + destruct s1. by eapply IH.
    + destruct s1. by eapply IH.
    + destruct s1 as [w1 k1]. destruct (publish k1) as [k2 r2] eqn:Ep. injection H as <- <- <-.
      pose proof (publish_leaves Hst _ _ _ Ep H1) as HQ. destruct r2; by destruct HQ.
    + assert (Hleft : staged_or_published s1.2.(rss_place).(pl_entries)).
      { destruct H1 as [_ (st & Hh & _)]. left. by exists st. }
      destruct s1 as [w1 k1]. destruct (_ && _).
      * destruct (restore_loop _ _ _ _ _ _) as [[s2 sl2] r2] eqn:El. injection H as <- _ <-. by eapply IH.
      * by injection H as <- _ <-.
Qed.
End publishing.

(** ** Lemmas: beginning *)

Section beginning.
Context {codec : CoreCodec} {code : CryptoCode} {json : StateCode} {seed_code : SeedCode}.
Context {claws : CryptoLaws code} {slaws : StateLaws json}.
Context {W : Type} {api : WalletCoreApi W} {random : SinkRandom}.
Context (E : entries) (destination password : bytes) (seed : CanonicalWalletSeed) (service : SeedRestoreService).
Implicit Types (st : WalletState) (self : SeedRestoreSession) (d : Disk).
Let staging : bytes := restore_staging_path destination.
Let identity : CoreChainIdentity := service.(srs_expected_identity).
Abbreviation stage := (stage_of password seed identity).

Lemma initial_checkpoint ids :
  validate_checkpoint (initial_restore_state ids seed identity) seed identity = Ok tt.
Proof. by apply validate_checkpoint_Ok. Qed.

Lemma create_directory_taken rnd rnd' (name : bytes) s kdf (P : entries -> Prop) :
  (forall e, P e -> exists d, e !! name = Some (Directory d)) ->
  ptriple P (create_directory rnd rnd' name s password kdf) (fun _ _ => False) P.
Proof.
  intros HP. unfold create_directory.
  apply (ptriple_bind _ _ _ _ (fun found e => P e /\ exists d, found = Some (Directory d))).
  { apply ptriple_entry; [|done]. intros e He. split; [done|]. destruct (HP _ He) as [d Hd]. by exists d. }
  intros found. apply ptriple_const. intros [d ->]. by apply ptriple_raise.
Qed.

(** What beginning a restore may leave of the entries. *)
Definition begin_left (e : entries) : Prop :=
  e = E \/ held E (create_staging_path staging) (fun _ => True) e \/ exists st, held E staging (stage st) e.
Definition begins_at (e : entries) : Prop := e = E \/ exists st, held E staging (stage st) e.

Lemma hoare_at_entries {A} error (m : fs A) P Q C :
  ptriple P m Q C ->
  hoare (fun s : W * Place => P s.2.(pl_entries)) (at_entries error m) (fun a s => Q a s.2.(pl_entries))
    (fun s => C s.2.(pl_entries)).
Proof.
  intros Hm s s' r H HP. unfold at_entries in H. destruct (m s.2) as [p r1] eqn:Em.
  injection H as <- <-. specialize (Hm _ _ _ Em HP). by destruct r1.
Qed.

Lemma staging_path_keeps (P C : entries -> Prop) :
  ptriple P (staging_path destination) (fun x e => P e /\ (x = None \/ x = Some staging)) C.
Proof.
  intros p p' r H HP. unfold staging_path in H. destruct (_ || _); [injection H as <- <-; auto|].
  destruct (peek (fun _ => Ok tt) p) as [p1 r1] eqn:Ep.
  pose proof (ptriple_peek P P (fun _ => Ok tt) (fun _ => P) (fun _ _ _ H => H) (fun _ H => H) _ _ _ Ep HP) as HQ.
  destruct r1; injection H as <- <-; auto.
Qed.

Lemma open_stage_leaves :
  E !! staging = None ->
  ptriple begins_at (open_directory staging) (fun _ e => exists st, held E staging (stage st) e) begins_at.
Proof.
  intros Hst p p' r H [HE|(st & Hh)].
  - assert (Htr : ptriple (eq E) (open_directory staging) (fun _ _ => False) (eq E)).
    { unfold open_directory. eapply ptriple_bind; [apply (ptriple_found _ _ staging None); [by intros e <-|done]|].
      intros found. apply ptriple_const. intros ->. by apply ptriple_raise. }
    pose proof (Htr _ _ _ H (eq_sym HE)) as HQ. destruct r; [done|]. by left.
  - pose proof (open_directory_keeps staging E (stage st) _ _ _ H Hh) as HQ. destruct r; [|right]; by exists st.
Qed.

Lemma load_stage_leaves rnd :
  ptriple (fun e => exists st, held E staging (stage st) e) (inside staging (load rnd password))
    (fun st => held E staging (stage st)) begins_at.
Proof.
  intros p p' r H (st & Hh). destruct (reload_stage E staging password seed identity st _ _ _ _ H Hh) as [Hh' Hr].
  destruct r; [by subst|]. right. by exists st.
Qed.

Lemma resume_stage_leaves rnd :
  E !! staging = None ->
  hoare (fun s : W * Place => begins_at s.2.(pl_entries)) (resume_stage seed identity rnd staging password)
    (fun x s => held E staging (stage x.1) s.2.(pl_entries)) (fun s => begin_left s.2.(pl_entries)).
Proof.
  intros Hst. assert (Hl : forall e, begins_at e -> begin_left e) by (intros e [?|H]; [by left|by right; right]).
  assert (Hh : forall st e, held E staging (stage st) e -> begin_left e) by (intros st e H; right; right; by exists st).
  unfold resume_stage. apply (hoare_bind _ _ _ _ (fun _ s => exists st, held E staging (stage st) s.2.(pl_entries))).
  { apply (hoare_at_entries as_storage _ begins_at (fun _ e => exists st, held E staging (stage st) e) begin_left).
    eapply ptriple_weaken; [by apply open_stage_leaves|done|done|exact Hl]. }
  intros _. apply (hoare_bind _ _ _ _ (fun st s => held E staging (stage st) s.2.(pl_entries))).
  { apply (hoare_at_entries load_error _ (fun e => exists st, held E staging (stage st) e) (fun st => held E staging (stage st)) begin_left).
    eapply ptriple_weaken; [apply load_stage_leaves|done|done|exact Hl]. }
  intros st. apply (hoare_bind _ _ _ _ (fun _ s => held E staging (stage st) s.2.(pl_entries))).
  { apply hoare_read; [done|]. intros s. apply Hh. }
  intros _. by apply hoare_ret.
Qed.

Lemma create_stage_leaves ids rnd rnd' kdf :
  E !! staging = None -> E !! create_staging_path staging = None ->
  typed_state (initial_restore_state ids seed identity) ->
  hoare (fun s : W * Place => begins_at s.2.(pl_entries)) (create_stage seed identity ids rnd rnd' staging password kdf)
    (fun x s => held E staging (stage x.1) s.2.(pl_entries)) (fun s => begin_left s.2.(pl_entries)).
Proof.
  intros Hst Hst' Ht. set (st := initial_restore_state ids seed identity) in *.
  assert (Hh : forall e, held E staging (created password st) e -> held E staging (stage st) e).
  { intros e. apply held_mono. intros d [Hp _]. split; [done|]. split; [done|]. apply initial_checkpoint. }
  assert (Hs : forall e, held E staging (stage st) e -> begin_left e) by (intros e H; right; right; by exists st).
  unfold create_stage. fold st. apply (hoare_bind _ _ _ _ (fun _ s => held E staging (stage st) s.2.(pl_entries))).
  { apply (hoare_at_entries as_storage _ begins_at (fun _ => held E staging (stage st)) begin_left).
    intros p p' r H [HE|Hheld].
    - pose proof (create_directory_leaves rnd rnd' staging st password kdf E Hst Hst' Ht _ _ _ H (eq_sym HE)) as HQ.
      destruct r; [by apply Hh|]. destruct HQ as [HQ|[HQ|HQ]]; [by left|by right; left|by apply Hs, Hh].
    - assert (Htr : ptriple (fun e => exists st, held E staging (stage st) e)
                (create_directory rnd rnd' staging st password kdf) (fun _ _ => False) (fun e => exists st, held E staging (stage st) e)).
      { apply create_directory_taken. intros e (st' & d & -> & _). exists d. by rewrite lookup_insert_eq. }
      pose proof (Htr _ _ _ H Hheld) as HQ. destruct r; [done|]. by right; right. }
  intros _. apply (hoare_bind _ _ _ _ (fun _ s => held E staging (stage st) s.2.(pl_entries))).
  { apply (hoare_at_entries as_storage _ (held E staging (stage st)) (fun _ => held E staging (stage st)) begin_left). apply ptriple_change; auto. }
  intros _. by apply hoare_ret.
Qed.

(** Beginning keeps what its two ways to a checkpoint keep. *)
Lemma begin_from (P C : entries -> Prop) (Q : WalletState * bool -> W * Place -> Prop) ids rnd rnd' mnemonic :
  (forall e, P e -> C e) -> parse mnemonic = Ok seed ->
  hoare (fun s : W * Place => P s.2.(pl_entries)) (resume_stage seed identity rnd staging password) Q
    (fun s => C s.2.(pl_entries)) ->
  hoare (fun s : W * Place => P s.2.(pl_entries))
    (create_stage seed identity ids rnd rnd' staging password service.(srs_kdf)) Q (fun s => C s.2.(pl_entries)) ->
  hoare (fun s : W * Place => P s.2.(pl_entries)) (begin service ids rnd rnd' mnemonic password destination)
    (fun session s => session_params staging destination password seed identity session
                      /\ session.(rss_place) = s.2 /\ exists x, Q x s /\ session.(rss_state) = Some x.1)
    (fun s => C s.2.(pl_entries)).
Proof.
  intros HC Hparse Hresume Hcreate. set (P' := fun s : W * Place => P s.2.(pl_entries)).
  assert (Hl : forall s, P' s -> C s.2.(pl_entries)) by (intros s; apply HC).
  unfold begin. apply (hoare_bind _ _ _ _ (fun _ => P')); [by apply hoare_read|intros _].
  apply (hoare_bind _ _ _ _ (fun x s => P' s /\ x = seed)).
  { apply hoare_read; [|done]. intros x s Hx Hs. rewrite Hparse in Hx. simpl in Hx. by injection Hx as ->. }
  intros x. apply hoare_const. intros ->. apply (hoare_bind _ _ _ _ (fun _ => P')).
  { intros s s' r H Hs. unfold at_node in H. destruct (connect _ _ _ s.1). injection H as <- <-.
    destruct r0; [exact Hs|by apply Hl]. }
  intros adapter. apply (hoare_bind _ _ _ _ (fun _ => P')).
  { eapply hoare_weaken; [apply (hoare_at_entries as_storage _ P (fun _ => P) P); by apply ptriple_exists|done|done|exact Hl]. }
  intros present. apply (hoare_bind _ _ _ _ (fun _ => P')); [by apply hoare_read|intros _].
  apply (hoare_bind _ _ _ _ (fun x s => P' s /\ (x = None \/ x = Some staging))).
  { eapply hoare_weaken; [apply (hoare_at_entries as_storage), (staging_path_keeps P P)|done|done|exact Hl]. }
  intros x. apply hoare_const. intros Hx. apply (hoare_bind _ _ _ _ (fun y s => P' s /\ y = staging)).
  { apply hoare_read; [|exact Hl]. intros y s Hy%ok_or_Ok Hs. split; [done|]. destruct Hx; congruence. }
  intros y. apply hoare_const. intros ->. apply (hoare_bind _ _ _ _ (fun _ => P')).
  { eapply hoare_weaken; [apply (hoare_at_entries as_storage _ P (fun _ => P) P); by apply ptriple_exists|done|done|exact Hl]. }
  intros here. apply (hoare_bind _ _ _ _ Q); [by destruct here|].
  intros [st ready] s s' r [= <- <-] Hq. split; [by split|]. split; [done|]. by exists (st, ready).
Qed.

Lemma begin_leaves ids rnd rnd' mnemonic :
  E !! staging = None -> E !! create_staging_path staging = None ->
  typed_state (initial_restore_state ids seed identity) -> parse mnemonic = Ok seed ->
  hoare (fun s : W * Place => begins_at s.2.(pl_entries)) (begin service ids rnd rnd' mnemonic password destination)
    (fun session s => session_at E staging destination password seed identity session /\ session.(rss_place) = s.2)
    (fun s => begin_left s.2.(pl_entries)).
Proof.
  intros Hst Hst' Ht Hparse. eapply hoare_weaken.
  - apply (begin_from begins_at begin_left (fun x s => held E staging (stage x.1) s.2.(pl_entries))); [|exact Hparse| |].
    + intros e [H|H]; [by left|by right; right].
    + by apply resume_stage_leaves.
    + by apply create_stage_leaves.
  - done.
  - intros session s (Hp & Hs & x & Hh & Hx). split; [|done]. split; [done|]. exists x.1. rewrite Hs. auto.
  - done.
Qed.

(** What an unfinished creation of the staging directory left in the way is never
    taken for one that can go on, and never removed. *)
Lemma stranded_restores_stay ids rnd rnd' mnemonic d :
  E !! staging = None -> parse mnemonic = Ok seed ->
  hoare (fun s : W * Place => s.2.(pl_entries) = <[create_staging_path staging := Directory d]> E)
    (begin service ids rnd rnd' mnemonic password destination)
    (fun _ _ => False) (fun s => s.2.(pl_entries) = <[create_staging_path staging := Directory d]> E).
Proof.
  intros Hst Hparse. set (P := fun e : entries => e = <[create_staging_path staging := Directory d]> E).
  assert (Hnone : forall e, P e -> e !! staging = None).
  { intros e ->. rewrite lookup_insert_ne; [done|apply staging_differs]. }
  eapply hoare_weaken.
  - apply (begin_from P P (fun _ _ => False)); [done|exact Hparse| |].
    + unfold resume_stage. apply (hoare_bind _ _ _ _ (fun _ _ => False)); [|by intros a s1 s2 r H F].
      apply (hoare_at_entries as_storage _ P (fun _ _ => False) P). unfold open_directory.
      eapply ptriple_bind; [by apply (ptriple_found _ P staging None)|].
      intros found. apply ptriple_const. intros ->. by apply ptriple_raise.
    + unfold create_stage. apply (hoare_bind _ _ _ _ (fun _ _ => False)); [|by intros a s1 s2 r H F].
      apply (hoare_at_entries as_storage _ P (fun _ _ => False) P). unfold create_directory.
      eapply ptriple_bind; [by apply (ptriple_found _ P staging None)|].
      intros found. apply ptriple_const. intros ->.
      eapply ptriple_bind; [by apply (ptriple_peek _ P _ (fun _ => P))|]. intros u0.
      eapply ptriple_bind; [apply (ptriple_found _ P (create_staging_path staging) (Some (Directory d))); [|done]|].
      { intros e ->. apply lookup_insert_eq. }
      intros found. apply ptriple_const. intros ->. by apply ptriple_raise.
  - done.
  - by intros session s (_ & _ & x & [] & _).
  - done.
Qed.
End beginning.

(** ** Theorems *)

Section theorems.
Context {codec : CoreCodec} {code : CryptoCode} {json : StateCode} {seed_code : SeedCode}.
Context {claws : CryptoLaws code} {slaws : StateLaws json}.
Context {W : Type} {api : WalletCoreApi W} {random : SinkRandom}.
Context (recovery_seed_of : CanonicalWalletSeed -> RecoveryChainContext -> RecoverySeed).

Lemma restore_leaves (service : SeedRestoreService) fuel ids rnd rnd' mnemonic (password destination : bytes)
    seed (E : entries) (s s' : W * Place) r :
  let staging := restore_staging_path destination in
  let identity := service.(srs_expected_identity) in
  E !! staging = None -> E !! create_staging_path staging = None ->
  typed_state (initial_restore_state ids seed identity) -> parse mnemonic = Ok seed ->
  begins_at E destination password seed service s.2.(pl_entries) ->
  restore recovery_seed_of service fuel ids rnd rnd' mnemonic password destination s = (s', r) ->
  match r with
  | Some (Ok outcome) =>
      exists st, in_place E destination password seed identity st s'.2.(pl_entries)
                 /\ result_from_state st identity = Ok outcome
  | _ => begin_left E destination password seed service s'.2.(pl_entries)
         \/ exists st, in_place E destination password seed identity st s'.2.(pl_entries)
  end.
Proof.
  intros staging identity Hst Hst' Ht Hparse Hbegin H. unfold restore in H.
  destruct (begin _ _ _ _ _ _ _ s) as [[w1 p1] r1] eqn:Eb.
  pose proof (begin_leaves E destination password seed service ids rnd rnd' mnemonic Hst Hst' Ht Hparse _ _ _ Eb Hbegin) as HQ.
  destruct r1 as [session|e]; [|injection H as <- <-; by left]. destruct HQ as [Hat _].
  destruct (restore_loop _ _ _ _ _ _) as [[s2 slept] r2] eqn:El. injection H as <- <-.
  pose proof (restore_loop_leaves recovery_seed_of E _ _ _ _ _ _ _ _ _ _ _ _ _ Hst El Hat) as HQ. cbn [fst snd].
  destruct r2 as [[outcome|e]|]; [exact HQ|destruct HQ as [HQ|HQ]; [left; by right; right|by right]..].
Qed.

Lemma stranded_restores_refuse (service : SeedRestoreService) fuel ids rnd rnd' mnemonic (password destination : bytes)
    seed (E : entries) (s s' : W * Place) r d :
  E !! restore_staging_path destination = None -> parse mnemonic = Ok seed ->
  s.2.(pl_entries) = <[create_staging_path (restore_staging_path destination) := Directory d]> E ->
  restore recovery_seed_of service fuel ids rnd rnd' mnemonic password destination s = (s', r) ->
  (exists e, r = Some (Err e)) /\ s'.2.(pl_entries) = s.2.(pl_entries).
Proof.
  intros Hst Hparse Hd H. unfold restore in H. destruct (begin _ _ _ _ _ _ _ s) as [[w1 p1] r1] eqn:Eb.
  pose proof (stranded_restores_stay E destination password seed service ids rnd rnd' mnemonic d Hst Hparse _ _ _ Eb Hd) as HQ.
  destruct r1 as [session|e]; [done|]. injection H as <- <-. split; [by exists e|]. by rewrite Hd.
Qed.

(** C7 A seed restore publishes the complete wallet or nothing, from whatever an
    earlier attempt left: started afresh, from its checkpoint, or beside its creation
    of the staging directory that did not finish, whatever the chain answers, however
    long it runs and whatever file-system calls fail, the place keeps its entries,
    besides which there is exactly one of: nothing; a creation that did not finish; a
    staging directory with a checkpoint from which the restore can go on; or, at the
    destination, a wallet that is marked complete, opens with the password, has the
    seed of the phrase and the identity of the chain.  A restore that reports a result
    leaves the latter, and reports its contents.  A creation that did not finish is in
    the way of every later restore: it is refused, and nothing changes. *)
Theorem restores_publish_complete_wallets (service : SeedRestoreService) fuel ids rnd rnd' mnemonic
    (password destination : bytes) seed (E : entries) (s s' : W * Place) r :
  let staging := restore_staging_path destination in
  let identity := service.(srs_expected_identity) in
  let checkpoint_at name st := exists d, s'.2.(pl_entries) = <[name := Directory d]> E
      /\ opens_to password st d /\ validate_checkpoint st seed identity = Ok tt in
  let wallet_at st := checkpoint_at destination st /\ restore_complete st = true
      /\ st.(ws_root_material) = seed.(cws_mnemonic).(mn_entropy)
      /\ st.(ws_identity) = domain_identity identity in
  forall (Hst : E !! staging = None) (Hst' : E !! create_staging_path staging = None)
    (Htyped : typed_state (initial_restore_state ids seed identity)) (Hparse : parse mnemonic = Ok seed)
    (Hbegin : begin_left E destination password seed service s.2.(pl_entries))
    (Hrun : restore recovery_seed_of service fuel ids rnd rnd' mnemonic password destination s = (s', r)),
  match r with
  | Some (Ok outcome) => exists st, wallet_at st /\ result_from_state st identity = Ok outcome
  | _ => s'.2.(pl_entries) = E
         \/ (exists d, s'.2.(pl_entries) = <[create_staging_path staging := Directory d]> E)
         \/ (exists st, checkpoint_at staging st)
         \/ (exists st, wallet_at st)
  end
  /\ ((exists d, s.2.(pl_entries) = <[create_staging_path staging := Directory d]> E) ->
      (exists e, r = Some (Err e)) /\ s'.2.(pl_entries) = s.2.(pl_entries)).
Proof.
  intros staging identity checkpoint_at wallet_at Hst Hst' Htyped Hparse Hbegin Hrun.
  assert (Hstranded : (exists d, s.2.(pl_entries) = <[create_staging_path staging := Directory d]> E) ->
    (exists e, r = Some (Err e)) /\ s'.2.(pl_entries) = s.2.(pl_entries)).
  { intros [d Hd]. eapply stranded_restores_refuse; eassumption. }
  split; [|exact Hstranded].
  assert (Hc : forall name st, held E name (stage_of password seed identity st) (pl_entries s'.2) -> checkpoint_at name st).
  { intros name st (d & He & [m Ho] & Ht & Hv). exists d. split; [done|]. split; [by eapply opens_with_loads|done]. }
  assert (Hw : forall st, in_place E destination password seed identity st (pl_entries s'.2) -> wallet_at st).
  { intros st [Hh Hcomplete]. split; [by apply Hc|]. split; [done|].
    destruct Hh as (d & _ & _ & _ & (H1 & H2 & _)%validate_checkpoint_Ok). done. }
  assert (Hbegin' : begins_at E destination password seed service s.2.(pl_entries)
                    \/ exists d, s.2.(pl_entries) = <[create_staging_path staging := Directory d]> E)
    by (destruct Hbegin as [H|[(d & H & _)|H]]; [left; by left|right; by exists d|left; by right]).
  destruct Hbegin' as [Hb|[d Hd]]; [|destruct Hstranded as [[e ->] ->]; [by exists d|right; left; by exists d]].
  pose proof (restore_leaves service fuel ids rnd rnd' mnemonic password destination seed E s s' r Hst Hst' Htyped
                Hparse Hb Hrun) as HQ.
  assert (Hleft : begin_left E destination password seed service (pl_entries s'.2)
      \/ (exists st, in_place E destination password seed identity st (pl_entries s'.2)) ->
    pl_entries s'.2 = E \/ (exists d, pl_entries s'.2 = <[create_staging_path staging := Directory d]> E)
    \/ (exists st, checkpoint_at staging st) \/ (exists st, wallet_at st)).
  { intros [[H|[(d & H & _)|[st H]]]|[st H]]; [by left|right; left; by exists d|right; right; left|right; right; right];
      exists st; auto. }
  destruct r as [[outcome|e]|]; [|auto..]. destruct HQ as (st & Hp & Hr). exists st. auto.
Qed.

(** An interrupted restore resumes where it stopped: from the checkpoint in the
    staging directory, when the node answers for the expected chain and no call
    fails, beginning again gives a session on exactly the state of the checkpoint,
    ready to publish if it is complete. *)
Theorem interrupted_restores_resume (service : SeedRestoreService) ids rnd rnd' mnemonic (password destination : bytes)
    seed adapter (E : entries) d st (w w' : W)
    (Hdest : E !! destination = None) (Hname : is_empty destination = false) (Hutf8 : is_utf8 destination = true)
    (Hpassword : validate_restore_password password = Ok tt) (Hparse : parse mnemonic = Ok seed)
    (Hconnect : connect (Some service.(srs_expected_identity)) service.(srs_batch_blocks) service.(srs_reorg_depth) w
                = (w', Ok adapter))
    (Hstage : stage_of password seed service.(srs_expected_identity) st d) :
  exists place session,
    begin service ids rnd rnd' mnemonic password destination
      (w, mkPlace (<[restore_staging_path destination := Directory d]> E) []) = ((w', place), Ok session)
    /\ session.(rss_state) = Some st /\ session.(rss_ready_to_publish) = restore_complete st
    /\ session_at E (restore_staging_path destination) destination password seed service.(srs_expected_identity) session.
Proof.
  set (staging := restore_staging_path destination). set (e := <[staging := Directory d]> E).
  assert (Hne : staging <> destination).
  { intros H. apply (f_equal length) in H. unfold staging, restore_staging_path in H. rewrite !length_app in H. simpl in H. lia. }
  assert (He : e !! staging = Some (Directory d)) by (unfold e; by rewrite lookup_insert_eq).
  assert (Hed : e !! destination = None) by (unfold e; by rewrite lookup_insert_ne).
  destruct Hstage as ([m Ho] & Ht & Hv). pose proof (opens_with_loads _ _ _ _ Ho Ht rnd) as Hl.
  unfold run in Hl. destruct (load rnd password (mkWorld d [])) as [[d' f'] r] eqn:Hr. simpl in Hl. subst r.
  destruct (load_opens_with _ _ _ _ _ Hr) as (Hf & m' & Ho'). simpl in Hf, Ho'. subst f'.
  assert (Hresume : resume_stage seed (srs_expected_identity service) rnd staging password (w', mkPlace e [])
    = ((w', mkPlace (<[staging := Directory d']> e) []), Ok (st, restore_complete st))).
  { unfold resume_stage, mthen, at_entries. cbn [fst snd].
    rewrite (open_directory_clean password m st staging e d He Ho). cbn [fst snd].
    rewrite (inside_run staging e d _ d' _ He Hr). cbn [fst snd]. unfold mread. by rewrite Hv. }
  eexists _, _. unfold begin, mthen at 1, mread at 1. rewrite Hpassword. unfold mthen at 1, mread at 1. rewrite Hparse.
  cbn [map_err]. unfold mthen at 1, at_node at 1. cbn [fst snd]. rewrite Hconnect.
  unfold mthen at 1, at_entries at 1, exists_at at 1, peek at 1. cbn [fst snd pl_entries pl_faults]. rewrite Hed.
  unfold mthen at 1, mread at 1. cbn [is_there fail_if].
  unfold mthen at 1, at_entries at 1, staging_path at 1. cbn [fst snd]. rewrite Hname, Hutf8. cbn [orb negb peek pl_faults].
  unfold mthen at 1, mread at 1. cbn [ok_or]. fold staging.
  unfold mthen at 1, at_entries at 1, exists_at at 1, peek at 1. cbn [fst snd pl_entries pl_faults]. rewrite He.
  cbn [is_there]. unfold mthen at 1. rewrite Hresume. split; [reflexivity|]. split; [done|]. split; [done|].
  split; [by split|]. exists st. split; [|by right]. exists d'. cbn [rss_place pl_entries]. unfold e.
  rewrite insert_insert_eq. split; [done|]. split; [by exists m'|]. by split.
Qed.

(** The [i]-th delay of the back-off. *)
Definition backoff (service : SeedRestoreService) (i : N) : N :=
  N.min (service.(srs_busy_retry_initial_delay) * 2 ^ i) service.(srs_busy_retry_max_delay).

Lemma next_backoff service i :
  service.(srs_busy_retry_max_delay) <= DURATION_MAX ->
  next_delay service (backoff service i) = backoff service (i + 1).
Proof.
  intros Hmax. unfold next_delay, backoff, checked_mul. rewrite N.pow_add_r. change (2 ^ 1) with 2.
  rewrite N.mul_assoc. set (x := srs_busy_retry_initial_delay service * 2 ^ i).
  destruct (N.leb_spec (N.min x (srs_busy_retry_max_delay service) * 2) DURATION_MAX); lia.
Qed.

(** A restore gives up on a busy node: as long as every step answers that the node
    is busy, the loop tries again exactly as often as the policy allows, sleeping
    the initial delay and twice as long after each try, up to the maximal delay,
    and then reports the node as busy. *)
Theorem busy_retries_are_bounded (service : SeedRestoreService) (I : W * SeedRestoreSession -> Prop) fuel s
    (Hbusy : forall s, I s -> exists s', advance_once recovery_seed_of s = (s', Err RErr.CoreBusy) /\ I s')
    (Hs : I s) (Hfuel : (N.to_nat service.(srs_busy_retry_attempts) < fuel)%nat)
    (Hdelay : service.(srs_busy_retry_initial_delay) <= service.(srs_busy_retry_max_delay))
    (Hmax : service.(srs_busy_retry_max_delay) <= DURATION_MAX) :
  exists s', I s'
    /\ restore_loop recovery_seed_of service fuel 0 service.(srs_busy_retry_initial_delay) s
       = (s', List.filter (fun delay => negb (delay =? 0))
                (map (fun i => backoff service (N.of_nat i)) (seq 0 (N.to_nat service.(srs_busy_retry_attempts)))),
          Some (Err RErr.CoreBusy)).
Proof.
  set (attempts := srs_busy_retry_attempts service) in *.
  assert (Hgen : forall fuel k s, I s -> k <= attempts -> (N.to_nat (attempts - k) < fuel)%nat ->
    exists s', I s' /\ restore_loop recovery_seed_of service fuel k (backoff service k) s
      = (s', List.filter (fun delay => negb (delay =? 0))
               (map (fun i => backoff service (N.of_nat i)) (seq (N.to_nat k) (N.to_nat (attempts - k)))),
         Some (Err RErr.CoreBusy))).
  { clear s Hs Hfuel fuel. induction fuel as [|fuel IH]; intros k s Hs Hk Hfuel; [lia|]. simpl.
    destruct (Hbusy s Hs) as (s1 & -> & H1). rewrite bool_decide_eq_true_2 by done. fold attempts. simpl.
    destruct (N.ltb_spec k attempts) as [Hlt|Hge].
    - rewrite next_backoff by done. destruct (IH (k + 1) s1 H1) as (s2 & H2 & ->); [lia|lia|].
      exists s2. split; [done|]. replace (N.to_nat (attempts - k)) with (S (N.to_nat (attempts - (k + 1)))) by lia.
      simpl. rewrite N2Nat.id. replace (N.to_nat (k + 1)) with (S (N.to_nat k)) by lia.
      by destruct s1; destruct (backoff service k =? 0).
    - exists s1. split; [done|]. replace (N.to_nat (attempts - k)) with 0%nat by lia. simpl. by destruct s1. }
  destruct (Hgen fuel 0 s Hs) as (s' & H' & Hr); [lia|lia|]. exists s'. split; [done|]. rewrite N.sub_0_r in Hr.
  unfold backoff at 1 in Hr. change (2 ^ 0) with 1 in Hr. rewrite N.mul_1_r, N.min_l in Hr by done. exact Hr.
Qed.
End theorems.

(** ** Witnesses *)

(** A node whose chain is a genesis block. *)
Definition lonely_tip : CoreBlockReference := mkBlockReference 0 (sample_bytes 32 Byte.x60).
Definition lonely_node : WalletCoreApi unit := {|
  api_chain_identity := fun w => (w, Ok (mkChainIdentity CNet.Regtest 3 (sample_bytes 32 Byte.x01)
                                           (sample_bytes 32 Byte.x02) 2 1 10 lonely_tip));
  api_scan_range := fun _ w => (w, Ok (mkScanResult lonely_tip [] None));
  api_scan_next := fun _ _ w => (w, Ok (mkScanResult lonely_tip [] None));
  api_validate_cursor := fun cursor w =>
    (w, Ok (mkCursorValidation true (mkBlockReference cursor.(wsc_anchor_height) cursor.(wsc_anchor_hash))));
  api_canonical_hash_at_height := fun h w => (w, Ok (if h =? 0 then Some lonely_tip.(br_hash) else None));
|}.
Definition lonely_identity : CoreChainIdentity :=
  mkCoreChainIdentity CNet.Regtest 3 (sample_bytes 32 Byte.x01) (sample_bytes 32 Byte.x02) 2 1 10 lonely_tip.
Definition lonely_service : SeedRestoreService := SeedRestoreService_new lonely_identity DOM_CONTINUITY.

(** The sample codec with cursors of 86 bytes. *)
Definition cursor_fields (b : bytes) : WalletScanCursor :=
  mkWalletScanCursor (of_le_bytes (take 2 b)) (of_le_bytes (take 4 (drop 2 b))) (take 32 (drop 6 b))
    (of_le_bytes (take 8 (drop 38 b))) (of_le_bytes (take 8 (drop 46 b))) (drop 54 b).
Definition restore_codec : CoreCodec := {|
  PROTOCOL_VERSION := sample_codec.(PROTOCOL_VERSION);
  RANGE_PROOF_SERIALIZATION_VERSION := sample_codec.(RANGE_PROOF_SERIALIZATION_VERSION);
  RANGE_PROOF_SIZE := sample_codec.(RANGE_PROOF_SIZE);
  RECOVERY_VERSION := sample_codec.(RECOVERY_VERSION);
  RECOVERY_CAPSULE_SIZE := sample_codec.(RECOVERY_CAPSULE_SIZE);
  WALLET_SCAN_CURSOR_VERSION := sample_codec.(WALLET_SCAN_CURSOR_VERSION);
  magic := sample_codec.(magic);
  required_block_version_for_network := sample_codec.(required_block_version_for_network);
  header_from_bytes := sample_codec.(header_from_bytes);
  header_to_bytes := sample_codec.(header_to_bytes);
  validate_header_syntax := sample_codec.(validate_header_syntax);
  canonical_header_identifier := sample_codec.(canonical_header_identifier);
  commitment_from_compressed_bytes := sample_codec.(commitment_from_compressed_bytes);
  coinbase_to_bytes := sample_codec.(coinbase_to_bytes);
  coinbase_from_bytes := sample_codec.(coinbase_from_bytes);
  blake2b_256 := sample_codec.(blake2b_256);
  transaction_from_bytes := sample_codec.(transaction_from_bytes);
  transaction_to_bytes := sample_codec.(transaction_to_bytes);
  range_proof_bytes := sample_codec.(range_proof_bytes);
  recovery_capsule := sample_codec.(recovery_capsule);
  total_fees := sample_codec.(total_fees);
  validate_pmmr_roots := sample_codec.(validate_pmmr_roots);
  cursor_new := sample_codec.(cursor_new);
  cursor_validate_shape := sample_codec.(cursor_validate_shape);
  cursor_to_bytes c := le_bytes 2 c.(wsc_version) ++ le_bytes 4 c.(wsc_network_magic) ++ c.(wsc_chain_id)
    ++ le_bytes 8 c.(wsc_next_height) ++ le_bytes 8 c.(wsc_anchor_height) ++ c.(wsc_anchor_hash);
  cursor_from_bytes b := Ok (cursor_fields b);
|}.
#[local] Existing Instance restore_codec.

(** A phrase of 24 words of one letter. *)
Definition sample_phrase : list N := concat (replicate 24 [97; 32]).
Definition phrase_seed : CanonicalWalletSeed :=
  match parse sample_phrase with Ok seed => seed | Err _ => mkCanonicalWalletSeed (mkMnemonic 0 []) [] [] end.
Definition restored_wallet : WalletState := initial_restore_state (11, 12) phrase_seed lonely_identity.
Definition lonely_cursor : CoreCursorBytes :=
  mkCoreCursorBytes (cursor_to_bytes (cursor_new CNet.Regtest (sample_bytes 32 Byte.x01) 1 lonely_tip)).
Definition scanned_wallet : WalletState :=
  committed_state
    ((apply_recovery_batch (sink_fresh 0) (sink_fresh_legacy 0) 10 (mkCoreScanBatch lonely_tip [] (Some lonely_cursor))
        restored_wallet).1 <| ws_core_scan_cursor := Some lonely_cursor.(cursor_bytes) |>) 0.
Definition complete_wallet : WalletState :=
  committed_state (scanned_wallet <| ws_seed_restore_status := Some Seed.Complete |>
                                  <| ws_sync_status := Sync.Synced |>) 1.
Definition restore_json : StateCode := sample_json [restored_wallet; scanned_wallet; complete_wallet].
Definition restore_json_laws : StateLaws restore_json := sample_json_laws _.

Definition restore_run (faults : list Fault) :=
  restore (json := restore_json) (api := lonely_node) (fun _ _ => sample_seed) lonely_service 5 (11, 12) sample_random
    sample_random sample_phrase sample_password wallet_name (tt, mkPlace ∅ faults).

Lemma restores_publish_complete_wallets_witness :
  exists outcome, (restore_run []).2 = Some (Ok outcome)
  /\ exists st,
     ((exists d, (restore_run []).1.2.(pl_entries) = <[wallet_name := Directory d]> ∅
        /\ opens_to (json := restore_json) sample_password st d
        /\ validate_checkpoint st phrase_seed lonely_identity = Ok tt)
      /\ restore_complete st = true /\ st.(ws_root_material) = phrase_seed.(cws_mnemonic).(mn_entropy)
      /\ st.(ws_identity) = domain_identity lonely_identity)
     /\ result_from_state st lonely_identity = Ok outcome.
Proof.
  pose (r := match (restore_run []).2 with Some (Ok outcome) => Some outcome | _ => None end).
  assert (H : exists outcome, r = Some outcome) by (eexists; vm_compute; reflexivity).
  destruct H as [outcome Hr]. exists outcome.
  assert (Hout : (restore_run []).2 = Some (Ok outcome)).
  { unfold r in Hr. destruct (restore_run []).2 as [[o|]|]; congruence. }
  split; [exact Hout|].
  assert (Hrun : restore_run [] = ((restore_run []).1, Some (Ok outcome))) by (rewrite <- Hout; apply surjective_pairing).
  refine (proj1 (restores_publish_complete_wallets (json := restore_json) (slaws := restore_json_laws) (api := lonely_node)
           (fun _ _ => sample_seed) lonely_service 5 (11, 12) sample_random sample_random sample_phrase sample_password
           wallet_name phrase_seed ∅ (tt, mkPlace ∅ []) (restore_run []).1 (Some (Ok outcome)) _ _ _ _ _ _)).
  - vm_compute. reflexivity.
  - vm_compute. reflexivity.
  - split; [vm_compute; reflexivity|]. split; [vm_compute; discriminate|]. split; vm_compute; reflexivity.
  - vm_compute. reflexivity.
  - left. reflexivity.
  - exact Hrun.
Defined.

(** A restore that stops after the first page was stored. *)
Definition stopped_place : Place := (restore_run (crash 85)).1.2.
Definition stopped_disk : Disk :=
  match stopped_place.(pl_entries) !! restore_staging_path wallet_name with Some (Directory d) => d | _ => empty_disk end.

Lemma stopped_stage : stage_of (json := restore_json) sample_password phrase_seed lonely_identity scanned_wallet stopped_disk.
Proof.
  assert (H : load (json := restore_json) None sample_password (mkWorld stopped_disk [])
              = (mkWorld stopped_disk [], Ok scanned_wallet)) by (vm_compute; reflexivity).
  split; [|split].
  - destruct (load_opens_with (slaws := restore_json_laws) _ _ _ _ _ H) as (_ & m & Ho). by exists m.
  - split; [vm_compute; reflexivity|]. split; [vm_compute; discriminate|]. split; vm_compute; reflexivity.
  - vm_compute. reflexivity.
Qed.

(** A node that is never ready. *)
Definition busy_node : WalletCoreApi unit := {|
  api_chain_identity := fun w => (w, Err WErr.NodeNotReady);
  api_scan_range := fun _ w => (w, Err WErr.NodeNotReady);
  api_scan_next := fun _ _ w => (w, Err WErr.NodeNotReady);
  api_validate_cursor := fun _ w => (w, Err WErr.NodeNotReady);
  api_canonical_hash_at_height := fun _ w => (w, Err WErr.NodeNotReady);
|}.
Definition waiting_session : SeedRestoreSession :=
  mkSeedRestoreSession (mkCoreChainAdapter lonely_identity 256 1024) phrase_seed
    (mkRecoveryChainContext 3 (sample_bytes 32 Byte.x01)) lonely_identity (mkPlace ∅ []) (Some restored_wallet)
    sample_password DOM_CONTINUITY wallet_name (restore_staging_path wallet_name) false None 0.
