(* ===== verification/Ceremonies.v ===== *)
(** * Creating, restoring and backing up wallets

    The operations of [WalletService] in crates/dom-wallet-core/src/lib.rs that make
    wallets or copies of them: the ceremony that creates a wallet and shows its
    phrase, its resumption, the restores from a phrase, with and without a node,
    and the export and import of backups, with the read-only operations around
    them.  They act on the service and on the place that holds the wallets
    (Directories); once a wallet is installed, the service holds its directory. *)

From S2P Require Import Prelude Bytes Codecs DomainTypes Lifecycle WalletOps Validation Envelope Storage Reload Directories.
From S2P Require Import CoreTypes Projection CoreSync Recovery Submission Fees Slates Outputs Backend Spending SyncSink.
From S2P Require Import Service Exchange Sessions SeedRestore.

Record RecoveryCreateResult := mkRecoveryCreateResult {
  rcr_wallet : WalletSummary;
  rcr_mnemonic : list N;
}.
Record RecoveryRestoreResult := mkRecoveryRestoreResult {
  rrr_wallet : WalletSummary;
  rrr_recovery : SeedRestoreResult;
}.
Record BackupStatus := mkBackupStatus {
  bks_format_version : N;
  bks_destination_name : bytes;
}.
Record DiagnosticSnapshot := mkDiagnosticSnapshot {
  dgs_application_state : string;
  dgs_connection_state : string;
  dgs_generation : option N;
  dgs_cursor_height : option N;
  dgs_cursor_hash : option bytes;
  dgs_last_error : option string;
}.

#[global] Instance WalletSummary_fields : FieldList WalletSummary := fun r =>
  mkWalletSummary r.(wsm_wallet_id) r.(wsm_network) r.(wsm_generation) r.(wsm_cursor_height) r.(wsm_tip_height)
    r.(wsm_seed_restore_status) r.(wsm_balance) r.(wsm_state) r.(wsm_experimental) r.(wsm_unaudited).

(** [mainnet_network_identity] *)
Definition mainnet_network_identity : result CErr.CoreError NetworkIdentity :=
  let? chain_id := ok_or (unhex MAINNET_CHAIN_ID_HEX) CErr.IdentityMismatch in
  let? genesis_id := ok_or (unhex MAINNET_GENESIS_HASH_HEX) CErr.IdentityMismatch in
  Ok (mkNetworkIdentity Net.Mainnet chain_id genesis_id).

Section ceremonies.
Context {W : Type} {codec : CoreCodec} {code : CryptoCode} {json : StateCode} {backup : BackupCode}.
Context {scan : WalletCoreApi W} {api : WalletSubmissionApi W} {fee_api : WalletFeeApi W}.
Context {slate_code : SlateCode} {seed_code : SeedCode} {output_code : OutputCode} {random : SinkRandom}.
(** The text of a phrase, and the scan of a seed. *)
Context (mnemonic_text : CanonicalWalletSeed -> list N).
Context (recovery_seed_of : CanonicalWalletSeed -> RecoveryChainContext -> RecoverySeed).
Abbreviation service := (WalletService W).
Abbreviation desk := (method (service * Place) CErr.CoreError).

Definition on_service {A} (m : method service CErr.CoreError A) : desk A := fun s =>
  let '(self, r) := m s.1 in ((self, s.2), r).
Definition on_place {A} (m : fs A) : desk A := fun s =>
  let '(p, r) := m s.2 in ((s.1, p), from_storage r).

(** The service takes the directory that was made at [path], locked:
    [self.metadata = Some(directory.metadata()?)] and the two lines after it. *)
Definition install (path : bytes) : desk unit :=
  let! m := on_place (inside path metadata) in
  fun s => match s.2.(pl_entries) !! path with
           | Some (Directory d) =>
               ((s.1 <| sv_metadata := Some m |> <| sv_location := Some (mkWorld d s.2.(pl_faults)) |>
                     <| sv_state := App.Locked |>, s.2), Ok tt)
           | _ => (s, Err (CErr.Storage (StErr.Io StErr.OtherKind)))
           end.

(** *** The creation ceremony *)

(** The state of a new wallet, whose phrase is not confirmed yet. *)
Definition ceremony_state (ids : uuid * uuid) (seed : CanonicalWalletSeed) (identity : NetworkIdentity) : WalletState :=
  (WalletState_new ids.1 ids.2 identity seed.(cws_mnemonic).(mn_entropy) (default_node_configuration identity))
    <| ws_recovery := Some (mkRecoveryMetadata RECOVERY_SCHEME_BIP39_256_V1 false) |>.

(** [create] is disabled. *)
Definition service_create : desk WalletSummary := mread (fun _ => Err CErr.RecoveryCeremonyRequired).

(** [entropy] is what the operating system gives. *)
Definition create_recoverable (ids : uuid * uuid) (entropy : option bytes) (fresh fresh' : option (bytes * bytes))
    (path password : bytes) (identity : NetworkIdentity) : desk RecoveryCreateResult :=
  on_service ensure_closed ;;;
  mread (fun _ => validate_password password) ;;;
  let! seed := mread (fun _ => map_err (generate entropy) CErr.RecoveryPhraseInvalid) in
  let! kdf := mread (fun s => Ok s.1.(sv_kdf)) in
  on_place (create_directory fresh fresh' path (ceremony_state ids seed identity) password kdf) ;;;
  install path ;;;
  let! wallet := on_service summary_locked in
  mret (mkRecoveryCreateResult wallet (mnemonic_text seed)).

Definition create_recoverable_for_embedded (ids : uuid * uuid) (entropy : option bytes)
    (fresh fresh' : option (bytes * bytes)) (path password : bytes) : desk RecoveryCreateResult :=
  let! backend := on_service the_backend in
  let identity := backend.(pb_identity) in
  create_recoverable ids entropy fresh fresh' path password
    (mkNetworkIdentity (map_network identity.(cci_network)) identity.(cci_chain_id) identity.(cci_genesis_hash)).

Definition resume_recoverable_creation (fresh : option (bytes * bytes)) (path password : bytes)
    : desk RecoveryCreateResult :=
  on_service ensure_closed ;;;
  mread (fun _ => validate_password password) ;;;
  let! state := on_place (resume_create fresh path password) in
  mread (fun _ => fail_if (negb (unconfirmed state)) CErr.RecoveryPhraseAlreadyConfirmed) ;;;
  let! seed := mread (fun _ => canonical_seed state) in
  install path ;;;
  let! wallet := on_service summary_locked in
  mret (mkRecoveryCreateResult wallet (mnemonic_text seed)).

Definition abort_recoverable_creation (fresh : option (bytes * bytes)) (path password : bytes) : desk unit :=
  on_service ensure_closed ;;;
  mread (fun _ => validate_password password) ;;;
  on_place (abort_create fresh path password).

(** The phrase of the open wallet, shown again until it is confirmed. *)
Definition recovery_phrase_resume (fresh : option (bytes * bytes)) (password : bytes)
    : method service CErr.CoreError RecoveryCreateResult :=
  let! application := mread (fun self => Ok self.(sv_state)) in
  try (match application with
       | App.Locked | App.Unlocked => Ok tt
       | _ => Err CErr.InvalidLifecycleState
       end) ;;;
  try (validate_password password) ;;;
  let! state := on_directory (load fresh password) in
  let! recovery := try (ok_or state.(ws_recovery) CErr.RecoveryUnavailable) in
  try (fail_if (negb (String.eqb recovery.(rm_scheme) RECOVERY_SCHEME_BIP39_256_V1)) CErr.RecoveryPhraseInvalid) ;;;
  try (fail_if recovery.(rm_phrase_confirmed) CErr.RecoveryPhraseAlreadyConfirmed) ;;;
  let! seed := try (canonical_seed state) in
  let! wallet := if bool_decide (application = App.Unlocked) then summary else summary_locked in
  mret (mkRecoveryCreateResult wallet (mnemonic_text seed)).

(** *** Restoring *)

Definition restore_from_mnemonic_offline_with_identity (ids : uuid * uuid) (fresh fresh' : option (bytes * bytes))
    (path password : bytes) (phrase : list N) (identity : NetworkIdentity) : desk WalletSummary :=
  on_service ensure_closed ;;;
  mread (fun _ => validate_password password) ;;;
  mread (fun s => match s.1.(sv_backend) with
                  | Some backend => require_domain_identity identity backend.(pb_identity)
                  | None => Ok tt
                  end) ;;;
  let! seed := mread (fun _ => map_err (parse phrase) CErr.RecoveryPhraseInvalid) in
  let! kdf := mread (fun s => Ok s.1.(sv_kdf)) in
  on_place (create_directory fresh fresh' path (offline_restore_state ids seed identity) password kdf) ;;;
  install path ;;;
  let! wallet := on_service summary_locked in
  mret (wallet <| wsm_seed_restore_status := Some (seed_restore_status_name Seed.InProgress) |>).

Definition restore_from_mnemonic_offline (ids : uuid * uuid) (fresh fresh' : option (bytes * bytes))
    (path password : bytes) (phrase : list N) : desk WalletSummary :=
  let! identity := mread (fun _ => mainnet_network_identity) in
  restore_from_mnemonic_offline_with_identity ids fresh fresh' path password phrase identity.

(** [ProductionWalletBackend::restore]: the node of the backend scans; [None] when
    the fuel runs out. *)
Definition backend_restore (fuel : nat) (ids : uuid * uuid) (fresh fresh' : option (bytes * bytes))
    (phrase : list N) (password destination : bytes) (kdf : KdfParameters) (backend : ProductionWalletBackend W)
    (p : Place) : (ProductionWalletBackend W * Place)
                  * option (result PBErr.ProductionBackendError SeedRestoreResult) :=
  let '((w, p), r) :=
    SeedRestore.restore recovery_seed_of (SeedRestoreService_new backend.(pb_identity) kdf) fuel ids fresh fresh'
      phrase password destination (backend.(pb_api), p) in
  ((backend <| pb_api := w |>, p), (fun r => match r with Ok x => Ok x | Err e => Err (PBErr.Restore e) end) <$> r).

Definition restore_error (error : PBErr.ProductionBackendError) : CErr.CoreError :=
  match error with PBErr.Restore error => CErr.Restore error | other => CErr.Backend other end.

Definition restore_from_mnemonic (fuel : nat) (ids : uuid * uuid) (fresh fresh' : option (bytes * bytes))
    (path password : bytes) (phrase : list N) : desk (option RecoveryRestoreResult) :=
  on_service ensure_closed ;;;
  let! backend := on_service the_backend in
  let! recovery := (fun s =>
    let '((backend, p), r) := backend_restore fuel ids fresh fresh' phrase password path s.1.(sv_kdf) backend s.2 in
    ((s.1 <| sv_backend := Some backend |>, p),
     match r with
     | None => Ok None
     | Some (Ok recovery) => Ok (Some recovery)
     | Some (Err error) => Err (restore_error error)
     end)) in
  match recovery with
  | None => mret None
  | Some recovery =>
      on_place (open_directory path) ;;;
      install path ;;;
      let! wallet := on_service summary_locked in
      mret (Some (mkRecoveryRestoreResult wallet recovery))
  end.

(** *** Backups *)

(** [WalletDirectory::export_backup] of the directory the service holds. *)
Definition export_location (fresh fresh' : option (bytes * bytes)) (now : option N)
    (wallet_password backup_password : bytes) (kdf : KdfParameters) (destination : bytes) : desk unit :=
  let! present := on_place (exists_at destination) in
  mread (fun _ => fail_if present (CErr.Storage StErr.BackupDestinationExists)) ;;;
  let! state := on_service (on_directory (load fresh wallet_password)) in
  let! plan := on_service (on_directory (load_rescan_plan state wallet_password)) in
  let! created := mread (fun _ => ok_or now (CErr.Storage StErr.Clock)) in
  let! encoded := mread (fun _ => from_storage (backup_bytes fresh' created state plan backup_password kdf)) in
  on_place (write_file destination encoded MAX_BACKUP_BYTES).

Definition backup_export (fresh fresh' : option (bytes * bytes)) (now : option N) (destination backup_password : bytes)
    : desk BackupStatus :=
  mread (fun _ => validate_password backup_password) ;;;
  on_service ensure_phrase_confirmed ;;;
  let! _ := on_service unlocked_state in
  let! wallet_password := mread (fun s => password_text s.1) in
  mread (fun _ => fail_if (is_empty destination || negb (is_utf8 destination)) CErr.InvalidBackupDestination) ;;;
  let! _ := mread (fun s => ok_or s.1.(sv_location) CErr.WalletNotOpen) in
  let! kdf := mread (fun s => Ok s.1.(sv_kdf)) in
  export_location fresh fresh' now wallet_password backup_password kdf destination ;;;
  mret (mkBackupStatus BACKUP_FORMAT_VERSION destination).

Definition backup_import (fresh fresh' fresh'' : option (bytes * bytes))
    (destination backup_path backup_password wallet_password : bytes) (expected_identity : NetworkIdentity)
    : desk WalletSummary :=
  on_service ensure_closed ;;;
  mread (fun _ => validate_password backup_password) ;;;
  mread (fun _ => validate_password wallet_password) ;;;
  let! kdf := mread (fun s => Ok s.1.(sv_kdf)) in
  on_place (import_backup fresh fresh' fresh'' destination backup_path backup_password wallet_password
              expected_identity kdf) ;;;
  install destination ;;;
  on_service summary_locked.

(** *** Mining and read-only operations *)

(** The coordinate is stored before the coinbase output is built. *)
Definition mining_coinbase_candidate (fresh : option (bytes * bytes)) (proof_random : bytes) (height : N)
    : method service CErr.CoreError CoinbaseTransaction :=
  ensure_phrase_confirmed ;;;
  let! _ := the_backend in
  let! state := unlocked_state in
  try (require_canonical_mainnet_when_applicable state.(ws_identity)) ;;;
  let '(state, r) := reserve_recovery_coordinate 0 ROC.Coinbase state in
  let! coordinate := try (from_domain r) in
  commit fresh state ;;;
  let! state := unlocked_state in
  let! seed := try (canonical_seed state) in
  let! backend := the_backend in
  let! builder := try (from_backend (output_builder backend seed)) in
  try (match build_coinbase builder proof_random height 0 coordinate with
       | Ok candidate => Ok candidate
       | Err e => Err (CErr.Recovery e)
       end).

Definition mining_reward_destination (uuid_text : uuid -> bytes) : method service CErr.CoreError bytes :=
  let! state := unlocked_state in mret (str "DOM-MAINNET-RECOVERY:" ++ uuid_text state.(ws_wallet_id)).

Definition validate_wallet_address (address : bytes) : method service CErr.CoreError bytes :=
  let! backend := the_backend in
  let! parsed := try (from_protocol (address_parse address backend.(pb_identity).(cci_network)
                                       Purpose.TransactionInteraction)) in
  mret (address_encode parsed.(wa_inner)).

Definition accounts (self : service) : result CErr.CoreError (list (uuid * string)) :=
  let? state := ok_or self.(sv_unlocked) CErr.Locked in
  Ok [(state.(ws_default_account).(acc_id), state.(ws_default_account).(acc_label))].
Definition node_configuration (self : service) : result CErr.CoreError RedactedNodeConfiguration :=
  let? state := ok_or self.(sv_unlocked) CErr.Locked in
  Ok (NodeConfiguration_redacted state.(ws_node_configuration)).

Definition diagnostics (self : service) : DiagnosticSnapshot :=
  let cursor := match self.(sv_unlocked) with
                | Some state =>
                    match state.(ws_core_scan_cursor) with
                    | Some b => match cursor_from_bytes b with Ok cursor => Some cursor | Err _ => None end
                    | None => None
                    end
                | None => None
                end in
  mkDiagnosticSnapshot (application_state_name self.(sv_state))
    (if is_some self.(sv_backend) then PRODUCTION_BACKEND_KIND else "EMBEDDED_CORE_STOPPED")
    (ws_generation <$> self.(sv_unlocked)) (wsc_anchor_height <$> cursor)
    ((fun c => hex c.(wsc_anchor_hash)) <$> cursor) self.(sv_errors).(eds_synchronization).
End ceremonies.

(** ** Lemmas *)

Section ceremony_proofs.
Context {W : Type} {codec : CoreCodec} {code : CryptoCode} {json : StateCode} {backup : BackupCode}.
Context {scan : WalletCoreApi W} {api : WalletSubmissionApi W} {fee_api : WalletFeeApi W}.
Context {slate_code : SlateCode} {seed_code : SeedCode} {output_code : OutputCode} {random : SinkRandom}.
Context {claws : CryptoLaws code} {slaws : StateLaws json}.
Context (mnemonic_text : CanonicalWalletSeed -> list N).
Abbreviation service := (WalletService W).
Implicit Types (self : service) (p : Place) (E : entries).

(** A computation that only reads either fails and leaves the state, or goes on. *)
Lemma mread_step {S Er A B} (f : S -> result Er A) (k : A -> method S Er B) s s' r :
  mthen (mread f) k s = (s', r) ->
  (s' = s /\ exists e, f s = Err e /\ r = Err e) \/ exists a, f s = Ok a /\ k a s = (s', r).
Proof.
  unfold mthen, mread. destruct (f s) as [a|e]; intros H; [right; by exists a|left].
  injection H as <- <-. split; [done|]. by exists e.
Qed.
Lemma closed_step {A} (k : unit -> method (service * Place) CErr.CoreError A) s s' r :
  mthen (on_service ensure_closed) k s = (s', r) ->
  (s' = s /\ exists e, r = Err e) \/ s.1.(sv_state) = App.Closed /\ k tt s = (s', r).
Proof.
  unfold mthen, on_service, ensure_closed, mread. destruct s as [self p]. cbn [fst snd].
  destruct (fail_if _ _) as [[]|e] eqn:Ef; intros H.
  - right. apply fail_if_Ok, negb_false_iff, bool_decide_eq_true in Ef. done.
  - left. injection H as <- <-. split; [done|]. by exists e.
Qed.
Lemma place_step {A B} (m : fs A) (k : A -> method (service * Place) CErr.CoreError B) self p s' r :
  mthen (on_place m) k (self, p) = (s', r) ->
  exists p1 x, m p = (p1, x) /\
    match x with Ok a => k a (self, p1) = (s', r) | Err e => s' = (self, p1) /\ r = Err (CErr.Storage e) end.
Proof.
  unfold mthen, on_place. cbn [fst snd]. destruct (m p) as [p1 x]. intros H. exists p1, x.
  split; [done|]. destruct x; simpl in H; [done|]. by injection H as <- <-.
Qed.

(** What the service has of the directory [d] it installed. *)
Definition installed (m : WalletMetadata) d p self : service :=
  self <| sv_metadata := Some m |> <| sv_location := Some (mkWorld d p.(pl_faults)) |> <| sv_state := App.Locked |>.

Lemma install_leaves (path password : bytes) st E self p s' r :
  install path (self, p) = (s', r) -> held E path (created password st) p.(pl_entries) ->
  held E path (created password st) s'.2.(pl_entries)
  /\ match r with
     | Ok _ => exists m d, s'.2.(pl_entries) = <[path := Directory d]> E /\ created password st d
                 /\ m.(wm_wallet_id) = st.(ws_wallet_id) /\ m.(wm_identity) = st.(ws_identity)
                 /\ s'.1 = installed m d s'.2 self
     | Err _ => s'.1 = self
     end.
Proof.
  intros H Hh. unfold install in H. apply place_step in H as (p1 & x & Hm & H).
  assert (Ht : triple (created password st) metadata
    (fun m d => created password st d /\ m.(wm_wallet_id) = st.(ws_wallet_id) /\ m.(wm_identity) = st.(ws_identity))
    (created password st)).
  { intros w w' y Hw [[m Ho] Hp]. pose proof (triple_metadata password m st _ _ _ Hw Ho) as H1.
    pose proof (keeps_metadata planless _ _ _ Hw Hp) as H2.
    destruct y as [m'|]; [|split; [by exists m|done]]. destruct H1 as [Ho' ->].
    split; [split; [by exists m|done]|]. apply ow_same in Ho as (_ & -> & ->)%same_wallet_spec. done. }
  pose proof (ptriple_inside path E _ _ _ _ Ht _ _ _ Hm Hh) as HQ. destruct x as [m|e].
  - destruct HQ as (d & He & Hd & Hid & Hn). cbn [snd] in H. rewrite He, lookup_insert_eq in H. injection H as <- <-.
    cbn [fst snd]. split; [by exists d|]. exists m, d. by split_and!.
  - destruct H as [-> ->]. by split.
Qed.

Definition locked_summary (m : WalletMetadata) self : WalletSummary :=
  mkWalletSummary m.(wm_wallet_id) m.(wm_identity).(ni_network) m.(wm_active_generation) None
    self.(sv_observed_tip_height) None (mkBalanceProjection 0 0 0 0 0 0 0) (application_state_name App.Locked) true true.

(** What the creation of a wallet leaves; [m] is the metadata the service keeps. *)
Definition created_at (path password : bytes) st E self (s' : service * Place) m d : Prop :=
  s'.2.(pl_entries) = <[path := Directory d]> E /\ created password st d
    /\ m.(wm_wallet_id) = st.(ws_wallet_id) /\ m.(wm_identity) = st.(ws_identity)
    /\ s'.1 = installed m d s'.2 self.

Lemma create_and_install {B} fresh fresh' (path password : bytes) kdf st E self p s' (k : WalletSummary -> B) r :
  E !! path = None -> E !! create_staging_path path = None -> typed_state st -> p.(pl_entries) = E ->
  (on_place (create_directory fresh fresh' path st password kdf) ;;;
   install path ;;;
   let! wallet := on_service summary_locked in mret (k wallet)) (self, p) = (s', r) ->
  s'.1 = self /\ creation_left path password st E s'.2.(pl_entries) /\ (exists e, r = Err e)
  \/ exists m d, created_at path password st E self s' m d /\ r = Ok (k (locked_summary m self)).
Proof.
  intros Hp Hs Ht HE H. apply place_step in H as (p1 & x & Hm & H).
  pose proof (create_directory_leaves fresh fresh' path st password kdf E Hp Hs Ht _ _ _ Hm (eq_sym HE)) as HQ.
  destruct x as [u|e]; [|left; destruct H as [-> ->]; split_and!; [done|done|by eexists]].
  unfold mthen at 1 in H. destruct (install path (self, p1)) as [s1 y] eqn:Hi.
  pose proof (install_leaves _ _ _ _ _ _ _ _ Hi HQ) as [Hh Hy]. destruct y as [u'|e].
  - right. destruct Hy as (m & d & He & Hd & Hid & Hn & Hs1).
    unfold mthen, on_service, summary_locked, mread in H. rewrite Hs1 in H. simpl in H. injection H as <- <-.
    exists m, d. split; [by split_and!|reflexivity].
  - injection H as <- <-. left. split_and!; [done|by right; right|by eexists].
Qed.

(** The phrase of a wallet that is not confirmed is shown again. *)
Lemma resume_shows fresh password st d self m seed :
  opens_to password st d -> unconfirmed st = true -> canonical_seed st = Ok seed ->
  validate_password password = Ok tt -> self.(sv_state) = App.Locked -> self.(sv_metadata) = Some m ->
  (recovery_phrase_resume mnemonic_text fresh password (self <| sv_location := Some (mkWorld d []) |>)).2
  = Ok (mkRecoveryCreateResult (locked_summary m self) (mnemonic_text seed)).
Proof.
  intros Ho Hu Hs Hp Hl Hm. specialize (Ho fresh). unfold run in Ho.
  unfold recovery_phrase_resume, try, mthen, mread, on_directory. simpl. rewrite Hl, Hp. simpl.
  destruct (load fresh password (mkWorld d [])) as [w x]. simpl in Ho |- *. subst x. simpl.
  unfold unconfirmed in Hu. destruct (ws_recovery st) as [[scheme confirmed]|]; [|done]. simpl in Hu |- *.
  apply andb_true_iff in Hu as [H1%bool_decide_eq_true H2%negb_true_iff]. subst scheme confirmed.
  rewrite String.eqb_refl. simpl. rewrite Hs. simpl.
  unfold summary_locked, mread. simpl. by rewrite Hm, ?Hl.
Qed.

Lemma generated_entropy entropy seed :
  (forall e m, mnemonic_from_entropy e = Some m -> m.(mn_entropy) = e) ->
  generate entropy = Ok seed -> seed_from_entropy seed.(cws_mnemonic).(mn_entropy) = Ok seed.
Proof.
  intros Hlaw H. unfold generate in H. apply rbind_Ok in H as (e & _ & H). pose proof H as H0. unfold seed_from_entropy in H.
  apply rbind_Ok in H as (mn & Hm%ok_or_Ok & H). unfold from_mnemonic in H. apply then_Ok in H as [_ H].
  apply rbind_Ok in H as (root & _ & [= <-]). simpl. by rewrite (Hlaw _ _ Hm).
Qed.

(** C8 The creation ceremony shows the phrase of the wallet it made: from a place
    where nothing has the wallet's name, and whatever file-system calls fail, either
    it reports a phrase, and then the place has one new wallet, which opens with the
    password to the seed of that phrase, unconfirmed, the service holds it locked,
    and asking again shows the same phrase; or it fails, the service is as it was,
    and the place holds at most a staging directory, to resume or abort, or the
    wallet. *)
Theorem ceremonies_show_the_phrase_of_the_wallet ids entropy fresh fresh' (path password : bytes) identity self E faults
    seed s' r
    (Hpath : E !! path = None) (Hstaging : E !! create_staging_path path = None)
    (Htyped : typed_state (ceremony_state ids seed identity))
    (Hlaw : forall e m, mnemonic_from_entropy e = Some m -> m.(mn_entropy) = e)
    (Hgenerate : generate entropy = Ok seed)
    (Hrun : create_recoverable mnemonic_text ids entropy fresh fresh' path password identity (self, mkPlace E faults)
            = (s', r)) :
  let state := ceremony_state ids seed identity in
  (exists result d, r = Ok result /\ result.(rcr_mnemonic) = mnemonic_text seed
     /\ result.(rcr_wallet).(wsm_wallet_id) = ids.1
     /\ s'.2.(pl_entries) = <[path := Directory d]> E /\ opens_to password state d
     /\ canonical_seed state = Ok seed /\ unconfirmed state = true
     /\ s'.1.(sv_location) = Some (mkWorld d s'.2.(pl_faults))
     /\ s'.1.(sv_state) = App.Locked /\ s'.1.(sv_unlocked) = self.(sv_unlocked)
     /\ forall fresh'', (recovery_phrase_resume mnemonic_text fresh'' password
                           (s'.1 <| sv_location := Some (mkWorld d []) |>)).2 = Ok result)
  \/ (exists e, r = Err e) /\ s'.1 = self /\ creation_left path password state E s'.2.(pl_entries).
Proof.
  intros state. assert (Hnothing : creation_left path password state E E) by by left.
  unfold create_recoverable in Hrun. apply closed_step in Hrun as [[-> [e ->]]|[_ Hrun]]; [right; eauto|].
  apply mread_step in Hrun as [[-> [e [_ ->]]]|(u & Hpw & Hrun)]; [right; eauto|destruct u].
  apply mread_step in Hrun as [[-> [e [_ ->]]]|(seed' & Hs & Hrun)]; [right; eauto|].
  rewrite Hgenerate in Hs. injection Hs as <-.
  apply mread_step in Hrun as [[-> [e [_ ->]]]|(kdf & _ & Hrun)]; [right; eauto|].
  pose proof (create_and_install fresh fresh' path password kdf state E self (mkPlace E faults) s'
                (fun wallet => mkRecoveryCreateResult wallet (mnemonic_text seed)) r Hpath Hstaging Htyped eq_refl Hrun)
    as [(? & ? & [e ->])|(m & d & (He & [[m' Ho] Hpl] & Hid & Hn & Hs') & ->)]; [right; eauto|left].
  pose proof (opens_with_loads _ _ _ _ Ho Htyped) as Hopens.
  assert (Hseed : canonical_seed state = Ok seed).
  { unfold canonical_seed. simpl. by rewrite (generated_entropy _ _ Hlaw Hgenerate). }
  exists (mkRecoveryCreateResult (locked_summary m self) (mnemonic_text seed)), d. rewrite Hs'.
  split_and!; try done. intros fresh''. by apply (resume_shows fresh'' password state d (installed m d s'.2 self)).
Qed.

(** The wallet after its phrase is confirmed. *)
Definition confirmed st : WalletState :=
  committed_state (st <| ws_recovery ::= fmap (fun recovery => mkRecoveryMetadata recovery.(rm_scheme) true) |>)
    st.(ws_generation).
Definition keeps_wallet (password : bytes) st self : Prop :=
  exists w, self.(sv_location) = Some w /\ published password st w.(w_disk) /\ typed_state st.

Lemma confirmed_hidden fresh password st self :
  keeps_wallet password st self -> is_some_and st.(ws_recovery) rm_phrase_confirmed = true ->
  forall result, (recovery_phrase_resume mnemonic_text fresh password self).2 <> Ok result.
Proof.
  intros (w & Hw & Hp & _) Hc result H.
  destruct (recovery_phrase_resume mnemonic_text fresh password self) as [self' x] eqn:Hrun. simpl in H. subst x.
  unfold recovery_phrase_resume in Hrun. apply mthen_Ok in Hrun as (s1 & a & [= <- _] & Hrun).
  apply mthen_Ok in Hrun as (s1 & u & [= <- _] & Hrun). apply mthen_Ok in Hrun as (s1 & u' & [= <- _] & Hrun).
  apply mthen_Ok in Hrun as (s1 & state & Hl & Hrun). unfold on_directory in Hl. rewrite Hw in Hl.
  destruct (load fresh password w) as [w' x] eqn:El. destruct x as [state'|]; [|discriminate Hl]. injection Hl as <- <-.
  apply load_exact with (t := st) in El as [_ ->]; [|exact Hp].
  apply mthen_Ok in Hrun as (s1 & recovery & [= <- Hr%ok_or_Ok] & Hrun). rewrite Hr in Hc. simpl in Hc.
  apply mthen_Ok in Hrun as (s1 & u2 & [= <- _] & Hrun). apply mthen_Ok in Hrun as (s1 & u3 & [= <- Hf] & Hrun).
  by rewrite Hc in Hf.
Qed.

(** The confirmation stores the confirmed wallet, or fails and stores that or the old one. *)
Lemma confirmation_leaves rnd rnd' password st self self' r :
  keeps_wallet password st self -> recovery_phrase_confirmed rnd rnd' password self = (self', r) ->
  keeps_wallet password (confirmed st) self' /\ is_some st.(ws_recovery) = true \/ (exists e, r = Err e) /\ keeps_wallet password st self'.
Proof.
  intros (w & Hw & Hp & Ht) H. assert (Hk : keeps_wallet password st self) by by exists w.
  unfold recovery_phrase_confirmed in H.
  apply mread_step in H as [[-> [e [_ ->]]]|(u & _ & H)]; [right; eauto|].
  apply mread_step in H as [[-> [e [_ ->]]]|(u' & _ & H)]; [right; eauto|].
  unfold mthen at 1, on_directory at 1 in H. rewrite Hw in H. destruct (load rnd password w) as [w1 x] eqn:El.
  apply load_exact with (t := st) in El as [Hp1 Hx]; [|exact Hp].
  assert (Hk1 : keeps_wallet password st (self <| sv_location := Some w1 |>)) by by exists w1.
  destruct x as [state|e]; simpl in H; [|injection H as <- <-; right; eauto]. subst state.
  apply mread_step in H as [[-> [e [_ ->]]]|(recovery & Hr%ok_or_Ok & H)]; [right; eauto|].
  apply mread_step in H as [[-> [e [_ ->]]]|(kdf & _ & H)]; [right; eauto|].
  unfold mthen at 1, on_directory at 1 in H. simpl in H.
  destruct (commit_with_encoding _ _ _ _ _ _ w1) as [w2 y] eqn:Ec.
  pose proof (commit_exact password st st _ _ _ _ _ _ _ Ec Ht Hp1 (or_introl eq_refl)) as Hc. simpl in Hc.
  set (new := committed_state _ _) in Hc. assert (Hnew : new = confirmed st).
  { unfold confirmed, set_field. simpl. rewrite Hr. done. }
  rewrite Hnew in Hc. clearbody new. destruct y as [s2|e]; simpl in H.
  - destruct Hc as [-> (_ & _ & Ht2 & Hp2)]. left. rewrite Hr. split; [|done].
    unfold mthen at 1, on_directory in H. simpl in H. destruct (metadata w2) as [w3 z] eqn:Em.
    pose proof (metadata_keeps _ _ _ _ _ Em Hp2) as Hp3. exists w3.
    destruct z; injection H as <- _; done.
  - injection H as <- <-. destruct Hc as [Hp2|(_ & _ & Ht2 & Hp2)]; [right|left].
    + split; [eauto|]. by exists w2.
    + rewrite Hr. split; [|done]. by exists w2.
Qed.

(** C9 A phrase that was confirmed is never shown again: a confirmation that
    succeeds leaves the wallet stored with the phrase marked as confirmed, nothing
    else of it changed; one that fails leaves that or the wallet as it was, whatever
    file-system calls fail; and from a wallet that is marked no request to see the
    phrase is answered, whatever else goes wrong. *)
Theorem confirmed_phrases_are_hidden rnd rnd' password st self self' r
    (Hst : keeps_wallet password st self)
    (Hrun : recovery_phrase_confirmed rnd rnd' password self = (self', r)) :
  exists st', keeps_wallet password st' self' /\ (st' = st \/ st' = confirmed st)
    /\ (r = Ok tt -> st' = confirmed st)
    /\ (st' = confirmed st -> forall faults fresh result,
          (recovery_phrase_resume mnemonic_text fresh password
             (self' <| sv_location ::= fmap (fun w => mkWorld w.(w_disk) faults) |>)).2 <> Ok result).
Proof.
  destruct (confirmation_leaves _ _ _ _ _ _ _ Hst Hrun) as [[Hk Hr]|[[e ->] Hk]].
  - exists (confirmed st). split_and!; [done|by right|done|]. intros _ faults fresh.
    apply (confirmed_hidden fresh password (confirmed st)).
    + destruct Hk as (w & Hw & Hp). exists (mkWorld w.(w_disk) faults). simpl. by rewrite Hw.
    + unfold confirmed. simpl. by destruct (ws_recovery st).
  - exists st. split_and!; [done|by left|done|]. intros Heq. exfalso.
    apply (f_equal ws_generation) in Heq. simpl in Heq. lia.
Qed.
End ceremony_proofs.

(** ** Witnesses *)

Definition sample_entropy : bytes := sample_bytes 32 Byte.x07.
Definition ceremony_seed : CanonicalWalletSeed :=
  match generate (Some sample_entropy) with Ok seed => seed | Err _ => mkCanonicalWalletSeed (mkMnemonic 0 []) [] [] end.
Definition ceremony_wallet : WalletState := ceremony_state (11, 12) ceremony_seed sample_identity.
Definition ceremony_json : StateCode := sample_json [ceremony_wallet; confirmed ceremony_wallet].
Definition ceremony_json_laws : StateLaws ceremony_json := sample_json_laws _.
(** A phrase as the values of its bytes. *)
Definition sample_phrase_text (seed : CanonicalWalletSeed) : list N := map Byte.to_N seed.(cws_mnemonic).(mn_entropy).
Definition ceremony_run (faults : list Fault) :=
  create_recoverable (json := ceremony_json) sample_phrase_text (11, 12) (Some sample_entropy) sample_random sample_random
    wallet_name sample_password sample_identity (WalletService_default (W := unit), mkPlace ∅ faults).
Definition ceremony_disk : Disk :=
  match (ceremony_run []).1.2.(pl_entries) !! wallet_name with Some (Directory d) => d | _ => empty_disk end.

Lemma ceremonies_show_the_phrase_of_the_wallet_witness :
  (exists result d, (ceremony_run []).2 = Ok result /\ result.(rcr_mnemonic) = replicate 32 7
     /\ result.(rcr_wallet).(wsm_wallet_id) = 11
     /\ (ceremony_run []).1.2.(pl_entries) = <[wallet_name := Directory d]> ∅
     /\ opens_to (json := ceremony_json) sample_password ceremony_wallet d
     /\ canonical_seed ceremony_wallet = Ok ceremony_seed /\ unconfirmed ceremony_wallet = true
     /\ (ceremony_run []).1.1.(sv_location) = Some (mkWorld d (ceremony_run []).1.2.(pl_faults))
     /\ (ceremony_run []).1.1.(sv_state) = App.Locked /\ (ceremony_run []).1.1.(sv_unlocked) = None
     /\ forall fresh, (recovery_phrase_resume (json := ceremony_json) sample_phrase_text fresh sample_password
                         ((ceremony_run []).1.1 <| sv_location := Some (mkWorld d []) |>)).2 = Ok result)
  \/ (exists e, (ceremony_run []).2 = Err e) /\ (ceremony_run []).1.1 = WalletService_default
     /\ creation_left (json := ceremony_json) wallet_name sample_password ceremony_wallet ∅
          (ceremony_run []).1.2.(pl_entries).
Proof.
  apply (ceremonies_show_the_phrase_of_the_wallet (json := ceremony_json) (slaws := ceremony_json_laws)
           sample_phrase_text (11, 12) (Some sample_entropy) sample_random sample_random wallet_name sample_password
           sample_identity (WalletService_default (W := unit)) ∅ [] ceremony_seed).
  - vm_compute. reflexivity.
  - vm_compute. reflexivity.
  - split; [vm_compute; reflexivity|]. split; [vm_compute; discriminate|]. split; vm_compute; reflexivity.
  - intros e m [= <-]. reflexivity.
  - vm_compute. reflexivity.
  - apply surjective_pairing.
Defined.

Definition confirm_run (faults : list Fault) :=
  recovery_phrase_confirmed (json := ceremony_json) None sample_random sample_password
    ((ceremony_run []).1.1 <| sv_location := Some (mkWorld ceremony_disk faults) |>).
Lemma ceremony_stored :
  keeps_wallet (json := ceremony_json) sample_password ceremony_wallet
    ((ceremony_run []).1.1 <| sv_location := Some (mkWorld ceremony_disk []) |>).
Proof.
  exists (mkWorld ceremony_disk []). split; [reflexivity|].
  assert (H : load (json := ceremony_json) None sample_password (mkWorld ceremony_disk [])
              = (mkWorld ceremony_disk [], Ok ceremony_wallet)) by (vm_compute; reflexivity).
  apply (load_opens_with (slaws := ceremony_json_laws)) in H as [_ H]. split; [exact H|].
  split; [vm_compute; reflexivity|]. split; [vm_compute; discriminate|]. split; vm_compute; reflexivity.
Qed.

Lemma confirmed_phrases_are_hidden_witness :
  (confirm_run []).2 = Ok tt
  /\ exists st', keeps_wallet (json := ceremony_json) sample_password st' (confirm_run []).1
     /\ (st' = ceremony_wallet \/ st' = confirmed ceremony_wallet)
     /\ ((confirm_run []).2 = Ok tt -> st' = confirmed ceremony_wallet)
     /\ (st' = confirmed ceremony_wallet -> forall faults fresh result,
           (recovery_phrase_resume (json := ceremony_json) sample_phrase_text fresh sample_password
              ((confirm_run []).1 <| sv_location ::= fmap (fun w => mkWorld w.(w_disk) faults) |>)).2 <> Ok result).
Proof.
  split; [vm_compute; reflexivity|].
  apply (confirmed_phrases_are_hidden (json := ceremony_json) (slaws := ceremony_json_laws) sample_phrase_text None
           sample_random sample_password ceremony_wallet
           ((ceremony_run []).1.1 <| sv_location := Some (mkWorld ceremony_disk []) |>)).
  - apply ceremony_stored.
  - apply surjective_pairing.
Defined.
