(* ===== verification/Peers.v ===== *)
(** * Peer addresses

    The addresses of crates/dom-wallet-updater/src/lib.rs: [is_public_routable_peer]
    and what it rests on, and the parser of the standard library's [SocketAddr] that
    [validate_peer_manifest] applies to every peer of a manifest. *)

From S2P Require Import Prelude Bytes.

Definition u8_max : N := 255.

(** ** Addresses *)

Record Ipv4Addr := mkIpv4Addr { v4_a : N; v4_b : N; v4_c : N; v4_d : N }.
(** The eight segments of an address. *)
Record Ipv6Addr := mkIpv6Addr { v6_segments : list N }.
Inductive SocketAddr :=
| SocketV4 (ip : Ipv4Addr) (port : N)
| SocketV6 (ip : Ipv6Addr) (port scope_id : N).
#[global] Instance Ipv4Addr_eq_dec : EqDecision Ipv4Addr.
Proof. solve_decision. Defined.
#[global] Instance Ipv6Addr_eq_dec : EqDecision Ipv6Addr.
Proof. solve_decision. Defined.
#[global] Instance SocketAddr_eq_dec : EqDecision SocketAddr.
Proof. solve_decision. Defined.

(** [Ipv6Addr::is_unspecified], [is_loopback], [is_multicast] and [to_ipv4]. *)
Definition segment (i : nat) (ip : Ipv6Addr) : N := nth i ip.(v6_segments) 0.
Definition is_unspecified (ip : Ipv6Addr) : bool := bool_decide (ip.(v6_segments) = [0; 0; 0; 0; 0; 0; 0; 0]).
Definition is_loopback (ip : Ipv6Addr) : bool := bool_decide (ip.(v6_segments) = [0; 0; 0; 0; 0; 0; 0; 1]).
Definition is_multicast (ip : Ipv6Addr) : bool := N.land (segment 0 ip) 0xff00 =? 0xff00.
Definition to_ipv4 (ip : Ipv6Addr) : option Ipv4Addr :=
  match ip.(v6_segments) with
  | [0; 0; 0; 0; 0; mark; ab; cd] =>
      if (mark =? 0) || (mark =? 0xffff)
      then Some (mkIpv4Addr (ab / 256) (ab mod 256) (cd / 256) (cd mod 256))
      else None
  | _ => None
  end.

(** ** Public addresses *)

Definition is_public_ipv4 (ip : Ipv4Addr) : bool :=
  let '(mkIpv4Addr a b c d) := ip in
  if (a =? 0) || (a =? 10) || (a =? 127) || (224 <=? a)
     || ((a =? 100) && ((64 <=? b) && (b <=? 127)))
     || ((a =? 169) && (b =? 254))
     || ((a =? 172) && ((16 <=? b) && (b <=? 31)))
     || ((a =? 192) && (b =? 0) && (c =? 0))
     || ((a =? 192) && (b =? 0) && (c =? 2))
     || ((a =? 192) && (b =? 88) && (c =? 99))
     || ((a =? 192) && (b =? 168))
     || ((a =? 198) && ((b =? 18) || (b =? 19)))
     || ((a =? 198) && (b =? 51) && (c =? 100))
     || ((a =? 203) && (b =? 0) && (c =? 113))
  then false
  else negb ((a =? 255) && (b =? 255) && (c =? 255) && (d =? 255)).

Definition is_public_ipv6 (ip : Ipv6Addr) : bool :=
  if is_unspecified ip || is_loopback ip || is_multicast ip || is_some (to_ipv4 ip)
     || (N.land (segment 0 ip) 0xfe00 =? 0xfc00)
     || (N.land (segment 0 ip) 0xffc0 =? 0xfe80)
     || (N.land (segment 0 ip) 0xffc0 =? 0xfec0)
  then false
  else
    let discard_only := (segment 0 ip =? 0x0100) && forallb (fun segment => segment =? 0) (tail ip.(v6_segments)) in
    let documentation := (segment 0 ip =? 0x2001) && (segment 1 ip =? 0x0db8) in
    let benchmark := (segment 0 ip =? 0x2001) && (segment 1 ip =? 0x0002) in
    negb (discard_only || documentation || benchmark).

Definition is_public_routable_peer (address : SocketAddr) : bool :=
  match address with
  | SocketV4 ip port => if port =? 0 then false else is_public_ipv4 ip
  | SocketV6 ip port _ => if port =? 0 then false else is_public_ipv6 ip
  end.

(** ** The parser of the standard library *)

(** Every reader puts back what it read when it fails. *)
Abbreviation reader A := (bytes -> option (A * bytes)).

Definition to_digit (radix : N) (b : Byte.byte) : option N :=
  let n := Byte.to_N b in
  let v := if in_range 48 57 b then n - 48
           else if in_range 97 122 b then n - 87
           else if in_range 65 90 b then n - 55
           else radix in
  if v <? radix then Some v else None.

Definition read_given_char (c : Byte.byte) (s : bytes) : option bytes :=
  match s with b :: s => if bool_decide (b = c) then Some s else None | [] => None end.

(** The digits of a number: at most [limit] of them, or as long as it fits [max]. *)
Fixpoint read_digits (radix max : N) (limit : option N) (count result : N) (s : bytes) : option (N * N * bytes) :=
  match s with
  | [] => Some (result, count, s)
  | b :: rest =>
      match to_digit radix b with
      | None => Some (result, count, s)
      | Some digit =>
          let next := result * radix + digit in
          if match limit with Some limit => limit <? count + 1 | None => max <? next end then None
          else read_digits radix max limit (count + 1) next rest
      end
  end.
Definition read_number (radix max : N) (limit : option N) (allow_zero_prefix : bool) : reader N := fun s =>
  match read_digits radix max limit 0 0 s with
  | None => None
  | Some (result, count, rest) =>
      let has_leading_zero := match s with b :: _ => bool_decide (b = Byte.x30) | [] => false end in
      if count =? 0 then None
      else if negb allow_zero_prefix && has_leading_zero && (1 <? count) then None
      else if result <=? max then Some (result, rest) else None
  end.

Definition read_separator {A} (separator : Byte.byte) (index : N) (inner : reader A) : reader A := fun s =>
  if 0 <? index then match read_given_char separator s with Some s => inner s | None => None end else inner s.

Definition read_octet (index : N) : reader N := read_separator Byte.x2e index (read_number 10 u8_max (Some 3) false).
Definition read_ipv4_addr : reader Ipv4Addr := fun s =>
  match read_octet 0 s with
  | None => None
  | Some (a, s) =>
      match read_octet 1 s with
      | None => None
      | Some (b, s) =>
          match read_octet 2 s with
          | None => None
          | Some (c, s) => match read_octet 3 s with
                           | None => None
                           | Some (d, s) => Some (mkIpv4Addr a b c d, s)
                           end
          end
      end
  end.

(** At most [limit] groups, numbered from [i]; the flag says that they end with an
    embedded IPv4 address, which needs two of them. *)
Fixpoint read_groups (limit : nat) (i : N) (s : bytes) : list N * bool * bytes :=
  match limit with
  | O => ([], false, s)
  | S limit =>
      match (match limit with O => None | S _ => read_separator Byte.x3a i read_ipv4_addr s end) with
      | Some (mkIpv4Addr a b c d, s) => ([a * 256 + b; c * 256 + d], true, s)
      | None =>
          match read_separator Byte.x3a i (read_number 16 u16_max (Some 4) true) s with
          | None => ([], false, s)
          | Some (group, s) => let '(groups, ipv4, s) := read_groups limit (i + 1) s in (group :: groups, ipv4, s)
          end
      end
  end.
Definition read_ipv6_addr : reader Ipv6Addr := fun s =>
  let '(head, head_ipv4, s) := read_groups 8 0 s in
  if (length head =? 8)%nat then Some (mkIpv6Addr head, s)
  else if head_ipv4 then None
  else match read_given_char Byte.x3a s with
       | None => None
       | Some s =>
           match read_given_char Byte.x3a s with
           | None => None
           | Some s =>
               let '(tail, _, s) := read_groups (8 - (length head + 1)) 0 s in
               Some (mkIpv6Addr (head ++ replicate (8 - length head - length tail) 0 ++ tail), s)
           end
       end.

Definition read_port : reader N := fun s =>
  match read_given_char Byte.x3a s with Some s => read_number 10 u16_max None true s | None => None end.
Definition read_scope_id : reader N := fun s =>
  match read_given_char Byte.x25 s with Some s => read_number 10 u32_max None true s | None => None end.

Definition read_socket_addr_v4 : reader SocketAddr := fun s =>
  match read_ipv4_addr s with
  | None => None
  | Some (ip, s) => match read_port s with Some (port, s) => Some (SocketV4 ip port, s) | None => None end
  end.
Definition read_socket_addr_v6 : reader SocketAddr := fun s =>
  match read_given_char Byte.x5b s with
  | None => None
  | Some s =>
      match read_ipv6_addr s with
      | None => None
      | Some (ip, s) =>
          let '(scope_id, s) := match read_scope_id s with Some (scope_id, s) => (scope_id, s) | None => (0, s) end in
          match read_given_char Byte.x5d s with
          | None => None
          | Some s => match read_port s with Some (port, s) => Some (SocketV6 ip port scope_id, s) | None => None end
          end
      end
  end.
(** [str::parse::<SocketAddr>] *)
Definition parse_socket_addr (s : bytes) : option SocketAddr :=
  let read := match read_socket_addr_v4 s with Some x => Some x | None => read_socket_addr_v6 s end in
  match read with Some (address, []) => Some address | _ => None end.


(** ** Address blocks *)

Definition wf_ipv4 (ip : Ipv4Addr) : Prop :=
  ip.(v4_a) <= u8_max /\ ip.(v4_b) <= u8_max /\ ip.(v4_c) <= u8_max /\ ip.(v4_d) <= u8_max.
Definition wf_ipv6 (ip : Ipv6Addr) : Prop :=
  length ip.(v6_segments) = 8%nat /\ Forall (fun segment => segment <= u16_max) ip.(v6_segments).
Definition ipv4_value (ip : Ipv4Addr) : N :=
  let '(mkIpv4Addr a b c d) := ip in ((a * 256 + b) * 256 + c) * 256 + d.
Definition ipv6_value (ip : Ipv6Addr) : N := fold_left (fun value segment => value * 65536 + segment) ip.(v6_segments) 0.

(** The block of the first [length] bits of [base], among addresses of [width] bits. *)
Record block := mkBlock { bl_base : N; bl_length : N }.
Definition in_block (width value : N) (b : block) : bool :=
  N.shiftr value (width - b.(bl_length)) =? N.shiftr b.(bl_base) (width - b.(bl_length)).
Definition v4_block (a b c d length : N) : block := mkBlock (ipv4_value (mkIpv4Addr a b c d)) length.
Definition v6_block (segments : list N) (length : N) : block := mkBlock (ipv6_value (mkIpv6Addr segments)) length.

(** The blocks that are kept out of peer lists. *)
Definition reserved_ipv4 : list block :=
  [v4_block 0 0 0 0 8; v4_block 10 0 0 0 8; v4_block 127 0 0 0 8; v4_block 224 0 0 0 3; v4_block 100 64 0 0 10;
   v4_block 169 254 0 0 16; v4_block 172 16 0 0 12; v4_block 192 0 0 0 24; v4_block 192 0 2 0 24;
   v4_block 192 88 99 0 24; v4_block 192 168 0 0 16; v4_block 198 18 0 0 15; v4_block 198 51 100 0 24;
   v4_block 203 0 113 0 24].
Definition reserved_ipv6 : list block :=
  [v6_block [0; 0; 0; 0; 0; 0; 0; 0] 96; v6_block [0; 0; 0; 0; 0; 0xffff; 0; 0] 96; v6_block [0xff00; 0; 0; 0; 0; 0; 0; 0] 8;
   v6_block [0xfc00; 0; 0; 0; 0; 0; 0; 0] 7; v6_block [0xfe80; 0; 0; 0; 0; 0; 0; 0] 10;
   v6_block [0xfec0; 0; 0; 0; 0; 0; 0; 0] 10; v6_block [0x0100; 0; 0; 0; 0; 0; 0; 0] 128;
   v6_block [0x2001; 0x0db8; 0; 0; 0; 0; 0; 0] 32; v6_block [0x2001; 0x0002; 0; 0; 0; 0; 0; 0] 32].

(** ** Lemmas *)

(** Comparisons, as propositions. *)
Ltac block_props :=
  repeat first [rewrite andb_true_iff | rewrite negb_true_iff | rewrite orb_false_iff | rewrite andb_false_iff
               | rewrite orb_true_iff | rewrite N.eqb_neq | rewrite N.leb_gt | rewrite N.ltb_ge | rewrite N.eqb_eq
               | rewrite N.leb_le | rewrite N.ltb_lt].
(** An aligned block is an interval. *)
Lemma in_block_range width value b lo hi :
  b.(bl_base) = lo -> lo + 2 ^ (width - b.(bl_length)) = hi -> lo mod 2 ^ (width - b.(bl_length)) = 0 ->
  in_block width value b = (lo <=? value) && (value <? hi).
Proof.
  intros <- <- Hb. unfold in_block. rewrite !N.shiftr_div_pow2. set (k := 2 ^ (width - bl_length b)) in *.
  assert (Hk : k <> 0) by by apply N.pow_nonzero.
  pose proof (N.div_mod value k Hk). pose proof (N.mod_lt value k Hk). pose proof (N.div_mod (bl_base b) k Hk).
  rewrite Hb in *. set (q := value / k) in *. set (r := bl_base b / k) in *. set (m := value mod k) in *.
  clearbody q r m k.
  apply eq_true_iff_eq. rewrite andb_true_iff, N.eqb_eq, N.leb_le, N.ltb_lt. split.
  - intros ->. lia.
  - intros [? ?]. destruct (N.lt_trichotomy q r) as [Hlt|[Heq|Hgt]]; [|done|]; exfalso; nia.
Qed.
Ltac block_range := erewrite in_block_range; [|vm_compute; reflexivity..].

Ltac v4_range := block_range; apply eq_true_iff_eq; block_props; lia.

Lemma existsb_false {A} (p : A -> bool) l : existsb p l = false <-> Forall (fun x => p x = false) l.
Proof.
  induction l as [|x l IH]; simpl; [by split|]. rewrite orb_false_iff, Forall_cons, IH. done.
Qed.

Lemma public_ipv4_blocks ip :
  wf_ipv4 ip -> is_public_ipv4 ip = negb (existsb (in_block 32 (ipv4_value ip)) reserved_ipv4).
Proof.
  destruct ip as [a b c d]. intros (Ha & Hb & Hc & Hd). unfold u8_max in *. cbn [v4_a v4_b v4_c v4_d] in *.
  set (v := ipv4_value (mkIpv4Addr a b c d)).
  assert (Hv : v = ((a * 256 + b) * 256 + c) * 256 + d) by done. clearbody v.
  assert (block_is : forall b x, in_block 32 v b = x -> in_block 32 v b = x) by auto.
  unfold reserved_ipv4, existsb.
  rewrite (block_is (v4_block 0 0 0 0 8) (a =? 0)) by v4_range.
  rewrite (block_is (v4_block 10 0 0 0 8) (a =? 10)) by v4_range.
  rewrite (block_is (v4_block 127 0 0 0 8) (a =? 127)) by v4_range.
  rewrite (block_is (v4_block 224 0 0 0 3) (224 <=? a)) by v4_range.
  rewrite (block_is (v4_block 100 64 0 0 10) ((a =? 100) && ((64 <=? b) && (b <=? 127)))) by v4_range.
  rewrite (block_is (v4_block 169 254 0 0 16) ((a =? 169) && (b =? 254))) by v4_range.
  rewrite (block_is (v4_block 172 16 0 0 12) ((a =? 172) && ((16 <=? b) && (b <=? 31)))) by v4_range.
  rewrite (block_is (v4_block 192 0 0 0 24) ((a =? 192) && (b =? 0) && (c =? 0))) by v4_range.
  rewrite (block_is (v4_block 192 0 2 0 24) ((a =? 192) && (b =? 0) && (c =? 2))) by v4_range.
  rewrite (block_is (v4_block 192 88 99 0 24) ((a =? 192) && (b =? 88) && (c =? 99))) by v4_range.
  rewrite (block_is (v4_block 192 168 0 0 16) ((a =? 192) && (b =? 168))) by v4_range.
  rewrite (block_is (v4_block 198 18 0 0 15) ((a =? 198) && ((b =? 18) || (b =? 19)))) by v4_range.
  rewrite (block_is (v4_block 198 51 100 0 24) ((a =? 198) && (b =? 51) && (c =? 100))) by v4_range.
  rewrite (block_is (v4_block 203 0 113 0 24) ((a =? 203) && (b =? 0) && (c =? 113))) by v4_range.
  unfold is_public_ipv4. destruct (224 <=? a) eqn:E; [by rewrite ?orb_true_r, ?orb_true_l; simpl; rewrite ?orb_true_r|].
  replace (a =? 255) with false by (symmetry; apply N.eqb_neq; apply N.leb_gt in E; lia).
  rewrite !orb_assoc. simpl. rewrite !orb_false_r. by match goal with |- context [if ?x then _ else _] => destruct x end.
Qed.

(** Bits of a segment. *)
Definition segments_agree (p q : N -> bool) : bool :=
  forallb (fun h => forallb (fun l => let s := Z.to_N (h * 256 + l) in Bool.eqb (p s) (q s)) (seqZ 0 256)) (seqZ 0 256).
Lemma segment_bits (p q : N -> bool) s : segments_agree p q = true -> s <= u16_max -> p s = q s.
Proof.
  intros H Hs. unfold segments_agree in H. rewrite forallb_forall in H. unfold u16_max in Hs.
  specialize (H (Z.of_N (s / 256))). rewrite forallb_forall in H. pose proof (N.div_mod s 256).
  pose proof (N.mod_lt s 256). pose proof (N.Div0.div_lt_upper_bound s 256 256). set (h := s / 256) in *.
  set (l := s mod 256) in *. clearbody h l.
  specialize (H ltac:(apply list_elem_of_In, elem_of_seqZ; lia) (Z.of_N l) ltac:(apply list_elem_of_In, elem_of_seqZ; lia)).
  replace (Z.to_N (Z.of_N h * 256 + Z.of_N l)) with s in H by lia. by apply eqb_true_iff.
Qed.
Lemma multicast_bits s : s <= u16_max -> (N.land s 0xff00 =? 0xff00) = (0xff00 <=? s).
Proof. apply (segment_bits (fun s => N.land s 0xff00 =? 0xff00) (fun s => 0xff00 <=? s)). vm_compute. reflexivity. Qed.
Lemma local_bits s : s <= u16_max -> (N.land s 0xfe00 =? 0xfc00) = ((0xfc00 <=? s) && (s <? 0xfe00)).
Proof.
  apply (segment_bits (fun s => N.land s 0xfe00 =? 0xfc00) (fun s => (0xfc00 <=? s) && (s <? 0xfe00))). vm_compute. reflexivity.
Qed.
Lemma link_bits s : s <= u16_max -> (N.land s 0xffc0 =? 0xfe80) = ((0xfe80 <=? s) && (s <? 0xfec0)).
Proof.
  apply (segment_bits (fun s => N.land s 0xffc0 =? 0xfe80) (fun s => (0xfe80 <=? s) && (s <? 0xfec0))). vm_compute. reflexivity.
Qed.
Lemma site_bits s : s <= u16_max -> (N.land s 0xffc0 =? 0xfec0) = ((0xfec0 <=? s) && (s <? 0xff00)).
Proof.
  apply (segment_bits (fun s => N.land s 0xffc0 =? 0xfec0) (fun s => (0xfec0 <=? s) && (s <? 0xff00))). vm_compute. reflexivity.
Qed.

Lemma to_ipv4_some s0 s1 s2 s3 s4 s5 s6 s7 :
  is_some (to_ipv4 (mkIpv6Addr [s0; s1; s2; s3; s4; s5; s6; s7]))
  = (s0 =? 0) && (s1 =? 0) && (s2 =? 0) && (s3 =? 0) && (s4 =? 0) && ((s5 =? 0) || (s5 =? 0xffff)).
Proof.
  unfold to_ipv4. cbn [v6_segments]. destruct s0; [|done]. destruct s1; [|done]. destruct s2; [|done].
  destruct s3; [|done]. destruct s4; [|done]. by destruct (_ || _).
Qed.

Lemma public_ipv6_blocks ip :
  wf_ipv6 ip -> is_public_ipv6 ip = negb (existsb (in_block 128 (ipv6_value ip)) reserved_ipv6).
Proof.
  destruct ip as [segments]. intros [Hl Hs]. cbn [v6_segments] in *.
  destruct segments as [|s0 [|s1 [|s2 [|s3 [|s4 [|s5 [|s6 [|s7 [|]]]]]]]]]; try done.
  repeat (apply Forall_cons in Hs as [? Hs]). unfold is_public_ipv6.
  rewrite to_ipv4_some. unfold is_multicast, segment. cbn [v6_segments nth tail forallb].
  rewrite multicast_bits, local_bits, link_bits, site_bits by done.
  set (v := ipv6_value _).
  assert (Hv : v = ((((((s0 * 65536 + s1) * 65536 + s2) * 65536 + s3) * 65536 + s4) * 65536 + s5) * 65536 + s6) * 65536 + s7)
    by done.
  clearbody v. unfold u16_max in *.
  assert (block_is : forall b x, in_block 128 v b = x -> in_block 128 v b = x) by auto.
  unfold reserved_ipv6, existsb.
  rewrite (block_is (v6_block [0; 0; 0; 0; 0; 0; 0; 0] 96)
             ((s0 =? 0) && (s1 =? 0) && (s2 =? 0) && (s3 =? 0) && (s4 =? 0) && (s5 =? 0))) by v4_range.
  rewrite (block_is (v6_block [0; 0; 0; 0; 0; 0xffff; 0; 0] 96)
             ((s0 =? 0) && (s1 =? 0) && (s2 =? 0) && (s3 =? 0) && (s4 =? 0) && (s5 =? 0xffff))) by v4_range.
  rewrite (block_is (v6_block [0xff00; 0; 0; 0; 0; 0; 0; 0] 8) (0xff00 <=? s0)) by v4_range.
  rewrite (block_is (v6_block [0xfc00; 0; 0; 0; 0; 0; 0; 0] 7) ((0xfc00 <=? s0) && (s0 <? 0xfe00))) by v4_range.
  rewrite (block_is (v6_block [0xfe80; 0; 0; 0; 0; 0; 0; 0] 10) ((0xfe80 <=? s0) && (s0 <? 0xfec0))) by v4_range.
  rewrite (block_is (v6_block [0xfec0; 0; 0; 0; 0; 0; 0; 0] 10) ((0xfec0 <=? s0) && (s0 <? 0xff00))) by v4_range.
  rewrite (block_is (v6_block [0x0100; 0; 0; 0; 0; 0; 0; 0] 128)
             ((s0 =? 0x0100) && ((s1 =? 0) && ((s2 =? 0) && ((s3 =? 0) && ((s4 =? 0) && ((s5 =? 0) && ((s6 =? 0) && ((s7 =? 0) && true)))))))))
    by v4_range.
  rewrite (block_is (v6_block [0x2001; 0x0db8; 0; 0; 0; 0; 0; 0] 32) ((s0 =? 0x2001) && (s1 =? 0x0db8))) by v4_range.
  rewrite (block_is (v6_block [0x2001; 0x0002; 0; 0; 0; 0; 0; 0] 32) ((s0 =? 0x2001) && (s1 =? 0x0002))) by v4_range.
  clear block_is Hv v.
  destruct (is_unspecified _) eqn:E; [apply bool_decide_eq_true in E; simpl in E; by injection E as -> -> -> -> -> -> -> ->|].
  clear E.
  destruct (is_loopback _) eqn:E; [apply bool_decide_eq_true in E; simpl in E; by injection E as -> -> -> -> -> -> -> ->|].
  clear E.
  set (x0 := (s0 =? 0) && (s1 =? 0) && (s2 =? 0) && (s3 =? 0) && (s4 =? 0)).
  set (x1 := (s0 =? 0x0100) && _). set (x2 := (s0 =? 0x2001) && (s1 =? 0x0db8)). set (x3 := (s0 =? 0x2001) && (s1 =? 2)).
  set (x4 := (0xfc00 <=? s0) && _). set (x5 := (0xfe80 <=? s0) && _). set (x6 := (0xfec0 <=? s0) && _).
  generalize x0, x1, x2, x3, x4, x5, x6, (0xff00 <=? s0), (s5 =? 0), (s5 =? 0xffff). clear.
  intros [] [] [] [] [] [] [] [] [] []; reflexivity.
Qed.

(** The addresses that are let through are exactly those outside the reserved
    blocks: whatever the address, a peer is kept when its port is not zero and the
    value of its address lies in none of the blocks of the list, each given by a
    base and a prefix length - private, loopback, link-local, multicast,
    documentation, benchmarking and the like.  The discard-only block 100::/64 is in
    the list with its first address alone. *)
Theorem peers_are_outside_reserved_blocks address :
  match address with SocketV4 ip _ => wf_ipv4 ip | SocketV6 ip _ _ => wf_ipv6 ip end ->
  is_public_routable_peer address =
    match address with
    | SocketV4 ip port => negb (port =? 0) && negb (existsb (in_block 32 (ipv4_value ip)) reserved_ipv4)
    | SocketV6 ip port _ => negb (port =? 0) && negb (existsb (in_block 128 (ipv6_value ip)) reserved_ipv6)
    end
  /\ is_public_ipv6 (mkIpv6Addr [0x0100; 0; 0; 0; 0; 0; 0; 1]) = true.
Proof.
  intros H. split; [|reflexivity]. destruct address; unfold is_public_routable_peer.
  - rewrite public_ipv4_blocks by done. by destruct (_ =? 0).
  - rewrite public_ipv6_blocks by done. by destruct (_ =? 0).
Qed.

(** ** Witnesses *)

Definition sample_peer : SocketAddr := SocketV6 (mkIpv6Addr [0x2a01; 0x4f8; 0; 0; 0; 0; 0; 7]) 8333 0.

Example parses_v4 : parse_socket_addr (str "1.2.3.4:8333") = Some (SocketV4 (mkIpv4Addr 1 2 3 4) 8333).
Proof. reflexivity. Qed.
Example parses_embedded : parse_socket_addr (str "[2001:db8::1.2.3.4%7]:1") = Some (SocketV6 (mkIpv6Addr [0x2001; 0xdb8; 0; 0; 0; 0; 258; 772]) 1 7).
Proof. reflexivity. Qed.
Example rejects_octal : parse_socket_addr (str "01.2.3.4:8333") = None.
Proof. reflexivity. Qed.
