(* ===== verification/Updater.v ===== *)
(** * Updates

    crates/dom-wallet-updater/src/lib.rs: the policies for the manifests of the
    wallet, of the node and of the peers, the download of an artifact into its
    staging file, the schedule of the checks and the state machine of a node update.
    Semantic versions, URLs, time stamps, SHA-256, signatures and JSON are other
    code: classes whose values are the parameters of the model. *)

From S2P Require Import Prelude Bytes Codecs DomainTypes Envelope Storage Directories Peers.

(** ** Constants and errors *)

Definition UPDATE_INTERVAL_SECONDS : N := 60 * 60.
Definition MAX_INITIAL_JITTER_SECONDS : N := 5 * 60.
Definition UPDATE_CHANNEL : bytes := str "stable".
Definition MAX_UPDATE_ARTIFACT_BYTES : N := 512 * 1024 * 1024.
Definition ALLOWED_DOWNLOAD_HOSTS : list bytes :=
  [str "github.com"; str "objects.githubusercontent.com"; str "release-assets.githubusercontent.com";
   str "dom-protocol.org"].

Module UErr.
Inductive UpdateError :=
| CheckFailed | ManifestInvalid | SignatureInvalid | HashMismatch | SizeMismatch | UnsupportedPlatform
| DowngradeRejected | ChannelInvalid | Expired | OriginRejected | BusyCriticalOperation | MinerStopFailed
| NodeStopFailed | WalletPersistFailed | InstallFailed | RestartFailed | NodeIdentityMismatch | NodeIncompatible
| PeerManifestInvalid | PeerManifestExpired | PeerManifestIdentityMismatch | ConcurrentCheck | StateIo | UnsafePath
| ConnectTimeout | HeaderTimeout | InactivityTimeout | TotalTimeout | ArtifactTooLarge | ArtifactSizeMismatch.
#[global] Instance UpdateError_eq_dec : EqDecision UpdateError.
Proof. solve_decision. Defined.
End UErr.
Import UErr.
Abbreviation res := (result UErr.UpdateError).

(** ** What other crates provide *)

(** [url::Url] *)
Class UrlCode := {
  Url : Type;
  url_scheme : Url -> bytes;
  url_port_or_known_default : Url -> option N;
  url_username : Url -> bytes;
  url_password : Url -> option bytes;
  url_host_str : Url -> option bytes;
}.
(** [semver] *)
Class VersionCode := {
  Version : Type;
  version_parse : bytes -> option Version;
  version_cmp : Version -> Version -> comparison;
  VersionReq : Type;
  version_req_parse : bytes -> option VersionReq;
  version_req_matches : VersionReq -> Version -> bool;
}.
(** The order of versions is total, and says equal for equal versions only. *)
Class VersionLaws (code : VersionCode) : Prop := {
  version_cmp_eq : forall a b, version_cmp a b = Eq <-> a = b;
  version_cmp_antisym : forall a b, version_cmp a b = CompOpp (version_cmp b a);
}.
(** [OffsetDateTime], as nanoseconds since the epoch, and its parser; [SHA-256] and base64. *)
Class TimeCode := { rfc3339_parse : bytes -> option Z }.
Class DigestCode := { sha256 : bytes -> bytes; base64_standard_decode : bytes -> option bytes }.
(** [SignatureVerifier] *)
Class SignatureVerifier := { verify : bytes -> bytes -> bool }.
(** [minisign_verify] *)
Class MinisignCode := {
  MinisignKey : Type;
  MinisignSignature : Type;
  public_key_from_base64 : bytes -> option MinisignKey;
  signature_decode : bytes -> option MinisignSignature;
  public_key_verify : MinisignKey -> bytes -> MinisignSignature -> bool -> bool;
}.

Definition MinisignVerifier_from_base64 {minisign : MinisignCode} (public_key : bytes) : res SignatureVerifier :=
  let? key := ok_or (public_key_from_base64 public_key) SignatureInvalid in
  Ok {| verify payload signature :=
          match signature_decode signature with
          | Some signature => public_key_verify key payload signature false
          | None => false
          end |}.

(** ** Text *)

Definition is_ascii_hexdigit (b : Byte.byte) : bool := is_ascii_digit b || in_range 97 102 b || in_range 65 70 b.
Definition to_ascii_lowercase (b : Byte.byte) : Byte.byte := if in_range 65 90 b then byte_of (Byte.to_N b + 32) else b.
Definition eq_ignore_ascii_case (a b : bytes) : bool :=
  bool_decide (map to_ascii_lowercase a = map to_ascii_lowercase b).
(** [trim().is_empty()] of UTF-8 text: white space, encoded, and nothing else. *)
Fixpoint is_blank (s : bytes) : bool :=
  match s with
  | [] => true
  | a :: s1 =>
      if in_range 9 13 a || in_range 32 32 a then is_blank s1
      else match s1 with
           | [] => false
           | b :: s2 =>
               if in_range 0xc2 0xc2 a && (in_range 0x85 0x85 b || in_range 0xa0 0xa0 b) then is_blank s2
               else match s2 with
                    | [] => false
                    | c :: s3 =>
                        let code := (N.land (Byte.to_N a) 15 * 64 + N.land (Byte.to_N b) 63) * 64 + N.land (Byte.to_N c) 63 in
                        if in_range 0xe0 0xef a
                           && ((code =? 0x1680) || ((0x2000 <=? code) && (code <=? 0x200a)) || (code =? 0x2028)
                               || (code =? 0x2029) || (code =? 0x202f) || (code =? 0x205f) || (code =? 0x3000))
                        then is_blank s3 else false
                    end
           end
  end.

(** ** Manifests *)

Section manifests.
Context {url : UrlCode}.

Record ArtifactDescriptor := mkArtifactDescriptor {
  ad_target : bytes;
  ad_architecture : bytes;
  ad_url : Url;
  ad_sha256 : bytes;
  ad_size : N;
  ad_signature : bytes;
}.
Record WalletManifest := mkWalletManifest {
  wman_schema_version : N;
  wman_channel : bytes;
  wman_version : bytes;
  wman_published_at : bytes;
  wman_expires_at : bytes;
  wman_minimum_supported_version : bytes;
  wman_critical_update : bool;
  wman_draft : bool;
  wman_prerelease : bool;
  wman_release_url : Url;
  wman_release_notes : bytes;
  wman_wallet_revision : bytes;
  wman_embedded_node_version : bytes;
  wman_embedded_node_revision : bytes;
  wman_network : bytes;
  wman_minimum_wallet_schema : N;
  wman_artifacts : list ArtifactDescriptor;
  wman_manifest_signature : bytes;
}.
#[global] Instance WalletManifest_fields : FieldList WalletManifest := fun r =>
  mkWalletManifest r.(wman_schema_version) r.(wman_channel) r.(wman_version) r.(wman_published_at) r.(wman_expires_at)
    r.(wman_minimum_supported_version) r.(wman_critical_update) r.(wman_draft) r.(wman_prerelease) r.(wman_release_url)
    r.(wman_release_notes) r.(wman_wallet_revision) r.(wman_embedded_node_version) r.(wman_embedded_node_revision)
    r.(wman_network) r.(wman_minimum_wallet_schema) r.(wman_artifacts) r.(wman_manifest_signature).
Record NodeManifest := mkNodeManifest {
  nman_schema_version : N;
  nman_channel : bytes;
  nman_node_version : bytes;
  nman_node_revision : bytes;
  nman_sequence : N;
  nman_published_at : bytes;
  nman_expires_at : bytes;
  nman_network : bytes;
  nman_chain_id : bytes;
  nman_genesis_hash : bytes;
  nman_rpc_protocol_version : N;
  nman_p2p_protocol_version : N;
  nman_storage_schema_version : N;
  nman_compatible_wallet_versions : bytes;
  nman_requires_wallet_update : bool;
  nman_node_only_compatible : bool;
  nman_critical_update : bool;
  nman_artifact : ArtifactDescriptor;
  nman_manifest_signature : bytes;
}.
#[global] Instance NodeManifest_fields : FieldList NodeManifest := fun r =>
  mkNodeManifest r.(nman_schema_version) r.(nman_channel) r.(nman_node_version) r.(nman_node_revision) r.(nman_sequence)
    r.(nman_published_at) r.(nman_expires_at) r.(nman_network) r.(nman_chain_id) r.(nman_genesis_hash)
    r.(nman_rpc_protocol_version) r.(nman_p2p_protocol_version) r.(nman_storage_schema_version)
    r.(nman_compatible_wallet_versions) r.(nman_requires_wallet_update) r.(nman_node_only_compatible)
    r.(nman_critical_update) r.(nman_artifact) r.(nman_manifest_signature).
End manifests.

Record WalletPolicy := mkWalletPolicy {
  wpol_installed_version : bytes;
  wpol_update_channel : bytes;
  wpol_target : bytes;
  wpol_architecture : bytes;
  wpol_network : bytes;
  wpol_wallet_schema : N;
}.
Record NodeCompatibility := mkNodeCompatibility {
  nc_wallet_version : bytes;
  nc_active_node_version : bytes;
  nc_active_node_revision : bytes;
  nc_update_sequence : N;
  nc_network : bytes;
  nc_chain_id : bytes;
  nc_genesis_hash : bytes;
  nc_rpc_protocol_version : N;
  nc_p2p_protocol_version : N;
  nc_storage_schema_version : N;
  nc_target : bytes;
  nc_architecture : bytes;
}.
Record NodeIdentity := mkNodeIdentity {
  nid_node_version : bytes;
  nid_node_revision : bytes;
  nid_network : bytes;
  nid_chain_id : bytes;
  nid_genesis_hash : bytes;
  nid_rpc_protocol_version : N;
  nid_p2p_protocol_version : N;
  nid_storage_schema_version : N;
}.
#[global] Instance NodeIdentity_eq_dec : EqDecision NodeIdentity.
Proof. solve_decision. Defined.
Record NodeRpcIdentityCapabilities := mkNodeRpcIdentityCapabilities {
  cap_build_revision : bool;
  cap_network : bool;
  cap_chain_id : bool;
  cap_genesis_hash : bool;
  cap_rpc_protocol_version : bool;
  cap_p2p_protocol_version : bool;
  cap_storage_schema_version : bool;
  cap_graceful_shutdown : bool;
}.
Definition permits_node_only_update (self : NodeRpcIdentityCapabilities) : bool :=
  self.(cap_build_revision) && self.(cap_network) && self.(cap_chain_id) && self.(cap_genesis_hash)
  && self.(cap_rpc_protocol_version) && self.(cap_p2p_protocol_version) && self.(cap_storage_schema_version)
  && self.(cap_graceful_shutdown).
Record PeerManifestPayload := mkPeerManifestPayload {
  pmp_schema_version : N;
  pmp_network : bytes;
  pmp_chain_id : bytes;
  pmp_genesis_hash : bytes;
  pmp_generated_at : bytes;
  pmp_expires_at : bytes;
  pmp_sequence : N;
  pmp_peers : list bytes;
}.
Record SignedPeerManifest := mkSignedPeerManifest {
  spm_payload : PeerManifestPayload;
  spm_signature : bytes;
}.

(** [serde_json] *)
Class FeedCode (url : UrlCode) := {
  wallet_manifest_to_json : WalletManifest -> option bytes;
  node_manifest_to_json : NodeManifest -> option bytes;
  peer_payload_to_json : PeerManifestPayload -> option bytes;
  signed_peers_to_json : SignedPeerManifest -> option bytes;
  signed_peers_from_json : bytes -> option SignedPeerManifest;
}.

(** ** Policies *)

Definition FIVE_MINUTES : Z := 300000000000%Z.
(** [!=] of two texts. *)
Abbreviation differs a b := (negb (bool_decide (a = b))).

Section policies.
Context {url : UrlCode} {version : VersionCode} {time : TimeCode} {digest : DigestCode} {feed : FeedCode url}.
Context {verifier : SignatureVerifier}.

Definition version_lt (a b : Version) : bool := match version_cmp a b with Lt => true | _ => false end.
Definition version_eq (a b : Version) : bool := match version_cmp a b with Eq => true | _ => false end.
Definition version_le (a b : Version) : bool := version_lt a b || version_eq a b.

Definition validate_release_url (u : Url) : res unit :=
  fail_if (negb (bool_decide (url_scheme u = str "https")
                 && bool_decide (url_port_or_known_default u = Some 443)
                 && is_empty (url_username u)
                 && negb (is_some (url_password u))
                 && is_some_and (url_host_str u) (fun host => existsb (fun h => bool_decide (h = host)) ALLOWED_DOWNLOAD_HOSTS)))
          OriginRejected.

Definition validate_artifact (artifact : ArtifactDescriptor) (target architecture : bytes) : res unit :=
  fail_if (differs artifact.(ad_target) target || differs artifact.(ad_architecture) architecture) UnsupportedPlatform ;?
  validate_release_url artifact.(ad_url) ;?
  fail_if ((artifact.(ad_size) =? 0) || is_blank artifact.(ad_signature) || negb (len artifact.(ad_sha256) =? 64)
           || negb (forallb is_ascii_hexdigit artifact.(ad_sha256))) ManifestInvalid.

Definition validate_time_window (published_at expires_at : bytes) (now : Z) : res unit :=
  let? published := ok_or (rfc3339_parse published_at) ManifestInvalid in
  let? expires := ok_or (rfc3339_parse expires_at) ManifestInvalid in
  fail_if (((expires <=? published) || (expires <=? now) || (now + FIVE_MINUTES <? published))%Z) Expired.
Definition validate_schema_channel_time (schema_version : N) (channel expected_channel published_at expires_at : bytes)
    (now : Z) : res unit :=
  fail_if (negb (schema_version =? 1)) ManifestInvalid ;?
  fail_if (differs channel expected_channel) ChannelInvalid ;?
  validate_time_window published_at expires_at now.

Definition select_artifact (manifest : WalletManifest) (target architecture : bytes) : option ArtifactDescriptor :=
  match List.filter (fun artifact => bool_decide (artifact.(ad_target) = target)
                                     && bool_decide (artifact.(ad_architecture) = architecture))
          manifest.(wman_artifacts) with
  | [selected] => Some selected
  | _ => None
  end.

Inductive WalletDecision := UpToDate | Available (v : Version).

Definition validate_wallet_manifest (manifest : WalletManifest) (policy : WalletPolicy) (now : Z) : res WalletDecision :=
  validate_schema_channel_time manifest.(wman_schema_version) manifest.(wman_channel) policy.(wpol_update_channel)
    manifest.(wman_published_at) manifest.(wman_expires_at) now ;?
  fail_if (manifest.(wman_draft)
           || (bool_decide (policy.(wpol_update_channel) = UPDATE_CHANNEL) && manifest.(wman_prerelease))) ManifestInvalid ;?
  fail_if (differs manifest.(wman_network) policy.(wpol_network)
           || (policy.(wpol_wallet_schema) <? manifest.(wman_minimum_wallet_schema))
           || is_empty manifest.(wman_wallet_revision) || is_empty manifest.(wman_embedded_node_revision)
           || is_empty manifest.(wman_manifest_signature)) ManifestInvalid ;?
  validate_release_url manifest.(wman_release_url) ;?
  fail_if (is_empty manifest.(wman_artifacts)) ManifestInvalid ;?
  foldM (fun _ artifact => validate_release_url artifact.(ad_url)) manifest.(wman_artifacts) tt ;?
  let? artifact := ok_or (select_artifact manifest policy.(wpol_target) policy.(wpol_architecture)) UnsupportedPlatform in
  validate_artifact artifact policy.(wpol_target) policy.(wpol_architecture) ;?
  let? installed := ok_or (version_parse policy.(wpol_installed_version)) ManifestInvalid in
  let? available := ok_or (version_parse manifest.(wman_version)) ManifestInvalid in
  let? minimum := ok_or (version_parse manifest.(wman_minimum_supported_version)) ManifestInvalid in
  if version_le available installed
  then if version_eq available installed then Ok UpToDate else Err DowngradeRejected
  else fail_if (version_lt installed minimum) ManifestInvalid ;? Ok (Available available).

Definition verify_wallet_manifest_signature (manifest : WalletManifest) : res unit :=
  let? canonical := ok_or (wallet_manifest_to_json (manifest <| wman_manifest_signature := [] |>)) ManifestInvalid in
  fail_if (negb (verify canonical manifest.(wman_manifest_signature))) SignatureInvalid.

Inductive NodeDecision := NodeUpToDate | NodeAvailable (v : Version) | WalletUpdateRequired.

Definition node_incompatible (manifest : NodeManifest) (compatibility : NodeCompatibility) (wallet : Version)
    (wallet_range : VersionReq) : bool :=
  manifest.(nman_requires_wallet_update)
  || negb manifest.(nman_node_only_compatible)
  || negb (version_req_matches wallet_range wallet)
  || differs manifest.(nman_network) compatibility.(nc_network)
  || differs manifest.(nman_chain_id) compatibility.(nc_chain_id)
  || differs manifest.(nman_genesis_hash) compatibility.(nc_genesis_hash)
  || negb (manifest.(nman_rpc_protocol_version) =? compatibility.(nc_rpc_protocol_version))
  || negb (manifest.(nman_p2p_protocol_version) =? compatibility.(nc_p2p_protocol_version))
  || negb (manifest.(nman_storage_schema_version) =? compatibility.(nc_storage_schema_version)).

Definition validate_node_manifest (manifest : NodeManifest) (compatibility : NodeCompatibility) (now : Z)
    : res NodeDecision :=
  validate_schema_channel_time manifest.(nman_schema_version) manifest.(nman_channel) UPDATE_CHANNEL
    manifest.(nman_published_at) manifest.(nman_expires_at) now ;?
  fail_if (is_empty manifest.(nman_node_revision) || is_empty manifest.(nman_manifest_signature)
           || (manifest.(nman_sequence) <=? compatibility.(nc_update_sequence))) DowngradeRejected ;?
  validate_artifact manifest.(nman_artifact) compatibility.(nc_target) compatibility.(nc_architecture) ;?
  let? installed := ok_or (version_parse compatibility.(nc_active_node_version)) ManifestInvalid in
  let? available := ok_or (version_parse manifest.(nman_node_version)) ManifestInvalid in
  fail_if (version_lt available installed) DowngradeRejected ;?
  if version_eq available installed && bool_decide (manifest.(nman_node_revision) = compatibility.(nc_active_node_revision))
  then Ok NodeUpToDate
  else
    let? wallet := ok_or (version_parse compatibility.(nc_wallet_version)) ManifestInvalid in
    let? wallet_range := ok_or (version_req_parse manifest.(nman_compatible_wallet_versions)) ManifestInvalid in
    if node_incompatible manifest compatibility wallet wallet_range then Ok WalletUpdateRequired
    else Ok (NodeAvailable available).

Definition verify_node_manifest_signature (manifest : NodeManifest) : res unit :=
  let? canonical := ok_or (node_manifest_to_json (manifest <| nman_manifest_signature := [] |>)) ManifestInvalid in
  fail_if (negb (verify canonical manifest.(nman_manifest_signature))) SignatureInvalid.

(** [NodeBuildInfoResponse] holds its [commit]. *)
Definition validate_node_build_info (commit expected_revision : bytes) : res unit :=
  fail_if (negb (len commit =? 40) || negb (forallb is_ascii_hexdigit commit)
           || negb (eq_ignore_ascii_case commit expected_revision)) NodeIdentityMismatch.
Definition validate_node_identity (actual : NodeIdentity) (manifest : NodeManifest) : res unit :=
  fail_if (differs actual.(nid_node_version) manifest.(nman_node_version)
           || differs actual.(nid_node_revision) manifest.(nman_node_revision)
           || differs actual.(nid_network) manifest.(nman_network)
           || differs actual.(nid_chain_id) manifest.(nman_chain_id)
           || differs actual.(nid_genesis_hash) manifest.(nman_genesis_hash)
           || negb (actual.(nid_rpc_protocol_version) =? manifest.(nman_rpc_protocol_version))
           || negb (actual.(nid_p2p_protocol_version) =? manifest.(nman_p2p_protocol_version))
           || negb (actual.(nid_storage_schema_version) =? manifest.(nman_storage_schema_version))) NodeIdentityMismatch.
End policies.

(** ** Peers *)

Section peers.
Context {url : UrlCode} {time : TimeCode} {feed : FeedCode url} {verifier : SignatureVerifier}.

(** [filter(|peer| seen.insert(peer))] *)
Fixpoint keep_new (seen peers : list SocketAddr) : list SocketAddr :=
  match peers with
  | [] => []
  | peer :: peers => if bool_decide (peer ∈ seen) then keep_new seen peers else peer :: keep_new (peer :: seen) peers
  end.
Definition parse_peers (peers : list bytes) : res (list SocketAddr) :=
  foldM (fun parsed peer => let? p := ok_or (parse_socket_addr peer) PeerManifestInvalid in Ok (parsed ++ [p])) peers [].

Definition peer_window_error (error : UpdateError) : UpdateError :=
  match error with Expired => PeerManifestExpired | _ => PeerManifestInvalid end.

Definition validate_peer_manifest (manifest : SignedPeerManifest) (expected_chain_id expected_genesis_hash : bytes)
    (previous_sequence : N) (now : Z) : res (list SocketAddr) :=
  let payload := manifest.(spm_payload) in
  let? canonical := ok_or (peer_payload_to_json payload) PeerManifestInvalid in
  fail_if (negb (verify canonical manifest.(spm_signature))) SignatureInvalid ;?
  fail_if (negb (payload.(pmp_schema_version) =? 1) || differs payload.(pmp_network) (str "mainnet")
           || differs payload.(pmp_chain_id) expected_chain_id
           || differs payload.(pmp_genesis_hash) expected_genesis_hash) PeerManifestIdentityMismatch ;?
  match validate_time_window payload.(pmp_generated_at) payload.(pmp_expires_at) now with
  | Ok _ => Ok tt
  | Err error => Err (peer_window_error error)
  end ;?
  fail_if (payload.(pmp_sequence) <=? previous_sequence) DowngradeRejected ;?
  let? parsed := parse_peers payload.(pmp_peers) in
  let peers := keep_new [] (List.filter is_public_routable_peer parsed) in
  fail_if (is_empty peers) PeerManifestInvalid ;?
  Ok peers.

(** [contents] is what reading the file gives. *)
Definition load_valid_peer_manifest_cache (contents : option bytes) (expected_chain_id expected_genesis_hash : bytes)
    (previous_sequence : N) (now : Z) : res (N * list SocketAddr) :=
  let? bytes := ok_or contents StateIo in
  let? manifest := ok_or (signed_peers_from_json bytes) PeerManifestInvalid in
  let? peers := validate_peer_manifest manifest expected_chain_id expected_genesis_hash previous_sequence now in
  Ok (manifest.(spm_payload).(pmp_sequence), peers).
End peers.

(** ** Schedule *)

(** Seconds since the epoch, which stay far below the range of [u64]. *)

Record UpdateSchedule := mkUpdateSchedule { us_next_check_seconds : N; us_check_in_progress : bool }.
#[global] Instance UpdateSchedule_fields : FieldList UpdateSchedule := fun r =>
  mkUpdateSchedule r.(us_next_check_seconds) r.(us_check_in_progress).
Definition UpdateSchedule_new (now_seconds initial_jitter_seconds : N) : UpdateSchedule :=
  mkUpdateSchedule (now_seconds + N.min initial_jitter_seconds MAX_INITIAL_JITTER_SECONDS) false.
Definition is_due (now_seconds : N) (self : UpdateSchedule) : bool := self.(us_next_check_seconds) <=? now_seconds.
Definition begin_check : method UpdateSchedule UpdateError unit := fun self =>
  if self.(us_check_in_progress) then (self, Err ConcurrentCheck)
  else (self <| us_check_in_progress := true |>, Ok tt).
Definition finish_check (now_seconds : N) (self : UpdateSchedule) : UpdateSchedule :=
  self <| us_next_check_seconds := now_seconds + UPDATE_INTERVAL_SECONDS |> <| us_check_in_progress := false |>.
Definition on_resume (now_seconds : N) (self : UpdateSchedule) : UpdateSchedule :=
  self <| us_next_check_seconds := now_seconds |>.

(** ** Node updates *)

Inductive NodeUpdaterState :=
| NodeIdle | NodeChecking | NodeIsUpToDate | NodeUpdateAvailable | NodeDownloading | NodeVerifying
| WaitingForSafePoint | StoppingMiner | StoppingNode | Promoting | StartingNode | HealthCheck | Succeeded
| RollingBack | RolledBack | NodeRequiresWalletUpdate | NodeFailed.

(** What the update needs of the process that runs the node. *)
Class NodeUpdateBackend (B : Type) := {
  critical_operation_active : B -> B * bool;
  stop_miner : method B UpdateError unit;
  persist_wallet_cursor_and_journal : method B UpdateError unit;
  stop_node : method B UpdateError N;
  process_is_stopped : N -> B -> B * bool;
  local_ports_released : B -> B * bool;
  promote_staged_node : method B UpdateError unit;
  start_node : method B UpdateError N;
  handshake : method B UpdateError NodeIdentity;
  node_ready : B -> B * bool;
  cursor_is_canonical : B -> B * bool;
  connected_peers : B -> B * N;
  rollback : method B UpdateError unit;
  expected_previous_identity : B -> B * NodeIdentity;
}.

Section node_updates.
Context {url : UrlCode} {B : Type} {backend : NodeUpdateBackend B}.
Abbreviation update := (method B UpdateError).

(** An answer that cannot be an error. *)
Definition answer {A} (f : B -> B * A) : update A := fun b => let '(b, a) := f b in (b, Ok a).
(** [first && second], where [second] is asked only if needed. *)
Definition and_then (first second : B -> B * bool) : update bool :=
  let! a := answer first in if a : bool then answer second else mret false.
(** [map_err(|_| cause)] *)
Definition or_cause {A} (m : update A) (cause : UpdateError) : update A := fun b =>
  match m b with (b, Ok a) => (b, Ok a) | (b, Err _) => (b, Err cause) end.
(** The outcome of a call, as a value. *)
Definition outcome {A} (m : update A) : update (res A) := fun b => let '(b, r) := m b in (b, Ok r).

Definition rollback_node (cause : UpdateError) : update NodeUpdaterState :=
  or_cause rollback cause ;;;
  let! _ := or_cause start_node cause in
  let! expected := answer expected_previous_identity in
  let! identity := outcome handshake in
  let! healthy := if bool_decide (identity = Ok expected) then answer node_ready else mret false in
  if healthy : bool then mret RolledBack else mread (fun _ => Err cause).

Definition apply_node_update (manifest : NodeManifest) : update NodeUpdaterState :=
  let! critical := answer critical_operation_active in
  if critical : bool then mret WaitingForSafePoint
  else
    stop_miner ;;;
    persist_wallet_cursor_and_journal ;;;
    let! previous_pid := stop_node in
    let! stopped := and_then (process_is_stopped previous_pid) local_ports_released in
    mread (fun _ => fail_if (negb stopped) NodeStopFailed) ;;;
    promote_staged_node ;;;
    let! started := outcome start_node in
    match started with
    | Err _ => rollback_node RestartFailed
    | Ok pid =>
        if pid =? previous_pid then rollback_node RestartFailed
        else
          let! identity := outcome handshake in
          match identity with
          | Err error => rollback_node error
          | Ok identity =>
              match validate_node_identity identity manifest with
              | Err error => rollback_node error
              | Ok _ =>
                  let! ready := answer node_ready in
                  let! canonical := if ready : bool then answer cursor_is_canonical else mret false in
                  let! connected := if canonical : bool then answer connected_peers else mret 0 in
                  if connected =? 0 then rollback_node NodeIncompatible else mret Succeeded
              end
          end
    end.
End node_updates.

(** ** Paths *)

Inductive Component := Normal (name : bytes) | ParentDir | CurDir | RootDir | Prefix (name : bytes).
#[global] Instance Component_eq_dec : EqDecision Component.
Proof. solve_decision. Defined.
Abbreviation path := (list Component).

Inductive FileKind := IsFile | IsDirectory | IsSymlink | IsOther.
(** What the file system answers: [symlink_metadata] and [canonicalize]. *)
Class PathWorld := {
  symlink_metadata : path -> option FileKind;
  canonicalize : path -> option path;
}.

Definition is_absolute (p : path) : bool := match p with RootDir :: _ | Prefix _ :: RootDir :: _ => true | _ => false end.
Definition parent (p : path) : option path :=
  match last p with Some (Normal _ | CurDir | ParentDir) => Some (removelast p) | _ => None end.
Fixpoint strip_components (base p : path) : option path :=
  match base, p with
  | [], p => Some p
  | c :: base, d :: p => if bool_decide (c = d) then strip_components base p else None
  | _ :: _, [] => None
  end.
Definition is_normal (c : Component) : bool := match c with Normal _ => true | _ => false end.
Definition real_directory (kind : option FileKind) : bool := match kind with Some IsDirectory => true | _ => false end.

Section paths.
Context {world : PathWorld}.

(** The directories between the root and the destination. *)
Fixpoint validate_between (current destination relative : path) : res unit :=
  match relative with
  | [] => Ok tt
  | Normal name :: relative =>
      let current := current ++ [Normal name] in
      if bool_decide (current = destination) then Ok tt
      else fail_if (negb (real_directory (symlink_metadata current))) UnsafePath ;?
           validate_between current destination relative
  | _ => Err UnsafePath
  end.
Definition validate_artifact_staging_destination (staging_root destination : path) : res unit :=
  fail_if (negb (real_directory (symlink_metadata staging_root))) UnsafePath ;?
  let? relative := ok_or (strip_components staging_root destination) UnsafePath in
  fail_if (is_empty relative || is_absolute relative || negb (forallb is_normal relative)) UnsafePath ;?
  let? canonical_root := ok_or (canonicalize staging_root) UnsafePath in
  let? up := ok_or (parent destination) UnsafePath in
  fail_if (negb (real_directory (symlink_metadata up))) UnsafePath ;?
  let? canonical_parent := ok_or (canonicalize up) UnsafePath in
  fail_if (negb (is_some (strip_components canonical_root canonical_parent))) UnsafePath ;?
  validate_between staging_root destination relative ;?
  fail_if (match symlink_metadata destination with Some IsFile | None => false | Some _ => true end) UnsafePath.

Fixpoint no_symlink_below (current relative : path) : bool :=
  match relative with
  | [] => true
  | Normal name :: relative =>
      let current := current ++ [Normal name] in
      match symlink_metadata current with Some IsSymlink => false | _ => no_symlink_below current relative end
  | _ :: relative => no_symlink_below current relative
  end.
Definition validate_runtime_destination (root relative : path) : res unit :=
  fail_if (is_absolute relative || negb (forallb is_normal relative)) UnsafePath ;?
  fail_if (negb (no_symlink_below root relative)) UnsafePath.
End paths.

(** ** Downloads *)

Definition artifact_digest {digest : DigestCode} (b : bytes) : bytes := hex (sha256 b).

(** The staging file of a download: what it holds, if it is there, and what becomes
    of the calls on it. *)
Record StagingFile := mkStagingFile { sf_content : option bytes; sf_faults : list Fault }.
Definition file_call (f : option bytes -> option (option bytes)) : method StagingFile UpdateError unit := fun s =>
  let change := match f s.(sf_content) with
                | Some content => fun faults => (mkStagingFile content faults, Ok tt)
                | None => fun faults => (mkStagingFile s.(sf_content) faults, Err StateIo)
                end in
  match s.(sf_faults) with
  | [] => change []
  | Fine :: faults => change faults
  | Before _ :: faults => (mkStagingFile s.(sf_content) faults, Err StateIo)
  | After _ :: faults => ((change faults).1, Err StateIo)
  end.
(** [create_new], appending a chunk, [sync_all] and [sync_directory], and the removal
    whose failure is not looked at. *)
Definition create_new : method StagingFile UpdateError unit :=
  file_call (fun content => match content with None => Some (Some []) | Some _ => None end).
Definition append_chunk (chunk : bytes) : method StagingFile UpdateError unit :=
  file_call (fun content => Some ((fun b => b ++ chunk) <$> content)).
Definition sync_file : method StagingFile UpdateError unit := file_call Some.
Definition remove_staging_file (s : StagingFile) : StagingFile := (file_call (fun _ => Some None) s).1.

(** What waiting for the next chunk of a stream ends with. *)
Inductive NextChunk := TimedOut | StreamFailed (is_timeout : bool) | StreamEnded | StreamChunk (chunk : bytes).

Section downloads.
Context {url : UrlCode} {digest : DigestCode} {verifier : SignatureVerifier}.
(** The sender and the clock: the next read gives a chunk, empty at the end, or
    fails; the clock gives what elapsed since the start, in nanoseconds. *)
Context {R : Type} (read : R -> R * option bytes) (elapsed : R -> R * N).
(** The same for the asynchronous client: the next chunk within a deadline. *)
Context (next_within : N -> R -> R * NextChunk).

Definition validate_download (b : bytes) (artifact : ArtifactDescriptor) : res unit :=
  fail_if (negb (len b =? artifact.(ad_size))) SizeMismatch ;?
  fail_if (negb (eq_ignore_ascii_case (artifact_digest b) artifact.(ad_sha256))) HashMismatch.
Definition artifact_signature_matches_feed (dom_signature feed_signature : bytes) : bool :=
  bool_decide (dom_signature = feed_signature)
  || is_some_and (base64_standard_decode feed_signature) (fun decoded => is_utf8 decoded && bool_decide (decoded = dom_signature)).

Definition check_announced (content_length : option N) (artifact : ArtifactDescriptor) : res unit :=
  match content_length with
  | Some length =>
      fail_if ((artifact.(ad_size) <? length) || (MAX_UPDATE_ARTIFACT_BYTES <? length)) ArtifactTooLarge ;?
      fail_if (negb (length =? artifact.(ad_size))) ArtifactSizeMismatch
  | None => Ok tt
  end.
(** One more chunk, counted, hashed, written and kept. *)
Definition take_chunk (artifact : ArtifactDescriptor) (received chunk : bytes) : method StagingFile UpdateError bytes :=
  let! downloaded := mread (fun _ => ok_or (checked_add u64_max (len received) (len chunk)) ArtifactTooLarge) in
  mread (fun _ => fail_if ((artifact.(ad_size) <? downloaded) || (MAX_UPDATE_ARTIFACT_BYTES <? downloaded)) ArtifactTooLarge) ;;;
  append_chunk chunk ;;;
  mret (received ++ chunk).
(** After the last chunk. *)
Definition finish_download (artifact : ArtifactDescriptor) (received : bytes) : method StagingFile UpdateError bytes :=
  mread (fun _ => fail_if (negb (len received =? artifact.(ad_size))) ArtifactSizeMismatch) ;;;
  mread (fun _ => fail_if (negb (eq_ignore_ascii_case (artifact_digest received) artifact.(ad_sha256))) HashMismatch) ;;;
  mread (fun _ => fail_if (negb (verify received artifact.(ad_signature))) SignatureInvalid) ;;;
  sync_file ;;;
  sync_file ;;;
  mret received.

(** The loop of [stream_and_verify_artifact]; [None] when the fuel runs out. *)
Fixpoint receive (fuel : nat) (artifact : ArtifactDescriptor) (total_timeout : N) (received : bytes)
    (s : R * StagingFile) : (R * StagingFile) * option (res bytes) :=
  match fuel with
  | O => (s, None)
  | S fuel =>
      let '(r, file) := s in
      let '(r, passed) := elapsed r in
      if total_timeout <? passed then ((r, file), Some (Err TotalTimeout))
      else
        let '(r, chunk) := read r in
        match chunk with
        | None => ((r, file), Some (Err InactivityTimeout))
        | Some [] => let '(file, x) := finish_download artifact received file in ((r, file), Some x)
        | Some chunk =>
            match take_chunk artifact received chunk file with
            | (file, Err e) => ((r, file), Some (Err e))
            | (file, Ok received) => receive fuel artifact total_timeout received (r, file)
            end
        end
  end.
(** The loop of [download_verified_artifact_async]. *)
Fixpoint receive_async (fuel : nat) (artifact : ArtifactDescriptor) (inactivity total : N) (received : bytes)
    (s : R * StagingFile) : (R * StagingFile) * option (res bytes) :=
  match fuel with
  | O => (s, None)
  | S fuel =>
      let '(r, file) := s in
      let '(r, passed) := elapsed r in
      match checked_sub total passed with
      | None => ((r, file), Some (Err TotalTimeout))
      | Some remaining =>
          let '(r, chunk) := next_within (N.min remaining inactivity) r in
          match chunk with
          | TimedOut =>
              let '(r, passed) := elapsed r in
              ((r, file), Some (Err (if total <=? passed then TotalTimeout else InactivityTimeout)))
          | StreamFailed is_timeout => ((r, file), Some (Err (if is_timeout : bool then InactivityTimeout else CheckFailed)))
          | StreamEnded => let '(file, x) := finish_download artifact received file in ((r, file), Some x)
          | StreamChunk chunk =>
              match take_chunk artifact received chunk file with
              | (file, Err e) => ((r, file), Some (Err e))
              | (file, Ok received) => receive_async fuel artifact inactivity total received (r, file)
              end
          end
      end
  end.

(** The file is created, filled by [loop], and removed when that fails. *)
Definition into_staging_file (loop : R * StagingFile -> (R * StagingFile) * option (res bytes)) (s : R * StagingFile)
    : (R * StagingFile) * option (res bytes) :=
  match create_new s.2 with
  | (file, Err e) => ((s.1, file), Some (Err e))
  | (file, Ok _) =>
      match loop (s.1, file) with
      | ((r, file), Some (Err e)) => ((r, remove_staging_file file), Some (Err e))
      | x => x
      end
  end.

Definition stream_and_verify_artifact {world : PathWorld} (fuel : nat) (content_length : option N)
    (artifact : ArtifactDescriptor) (staging_root destination : path) (total_timeout : N) (s : R * StagingFile)
    : (R * StagingFile) * option (res bytes) :=
  match (fail_if ((artifact.(ad_size) =? 0) || (MAX_UPDATE_ARTIFACT_BYTES <? artifact.(ad_size))) ArtifactTooLarge ;?
         check_announced content_length artifact ;?
         validate_artifact_staging_destination staging_root destination) with
  | Err e => (s, Some (Err e))
  | Ok _ => into_staging_file (receive fuel artifact total_timeout []) s
  end.

(** The answer of the server, and how asking for it may fail. *)
Record Response := mkResponse { rsp_success : bool; rsp_url : Url; rsp_content_length : option N }.
Record SendError := mkSendError { se_is_timeout : bool; se_is_connect : bool }.
Record ArtifactDownloadTimeouts := mkArtifactDownloadTimeouts {
  adt_connect : N; adt_headers : N; adt_inactivity : N; adt_total : N }.
Definition SECOND : N := 1000000000.
Definition ArtifactDownloadTimeouts_default : ArtifactDownloadTimeouts :=
  mkArtifactDownloadTimeouts (10 * SECOND) (15 * SECOND) (20 * SECOND) (15 * 60 * SECOND).

(** The redirect policy: [previous] redirects were followed. *)
Definition follows_redirect (previous : N) (u : Url) : bool :=
  negb ((5 <=? previous) || negb (is_ok (validate_release_url u))).
Definition send_error (error : SendError) : UpdateError :=
  if error.(se_is_timeout) && error.(se_is_connect) then ConnectTimeout
  else if error.(se_is_timeout) then HeaderTimeout else CheckFailed.

(** The client is built, or not ([build]), asks the server and answers. *)
Context (build : bool) (send : R -> R * result SendError Response).
(** [None] when the headers do not arrive in time. *)
Context (send_within : N -> R -> R * option (result SendError Response)).

Definition download_verified_artifact {world : PathWorld} (fuel : nat) (artifact : ArtifactDescriptor)
    (staging_root destination : path) (timeouts : ArtifactDownloadTimeouts) (s : R * StagingFile)
    : (R * StagingFile) * option (res bytes) :=
  match (validate_release_url artifact.(ad_url) ;? fail_if (negb build) CheckFailed) with
  | Err e => (s, Some (Err e))
  | Ok _ =>
      let '(r, response) := send s.1 in
      match response with
      | Err error => ((r, s.2), Some (Err (send_error error)))
      | Ok response =>
          let '(r, passed) := elapsed r in
          match (fail_if (timeouts.(adt_headers) <? passed) HeaderTimeout ;?
                 fail_if (negb response.(rsp_success)) CheckFailed ;?
                 validate_release_url response.(rsp_url)) with
          | Err e => ((r, s.2), Some (Err e))
          | Ok _ =>
              let '(r, passed) := elapsed r in
              match checked_sub timeouts.(adt_total) passed with
              | None => ((r, s.2), Some (Err TotalTimeout))
              | Some remaining =>
                  stream_and_verify_artifact fuel response.(rsp_content_length) artifact staging_root destination
                    remaining (r, s.2)
              end
          end
      end
  end.

Definition download_verified_artifact_async {world : PathWorld} (fuel : nat) (artifact : ArtifactDescriptor)
    (staging_root destination : path) (timeouts : ArtifactDownloadTimeouts) (s : R * StagingFile)
    : (R * StagingFile) * option (res bytes) :=
  match (validate_release_url artifact.(ad_url) ;?
         fail_if ((artifact.(ad_size) =? 0) || (MAX_UPDATE_ARTIFACT_BYTES <? artifact.(ad_size))) ArtifactTooLarge ;?
         fail_if (negb build) CheckFailed) with
  | Err e => (s, Some (Err e))
  | Ok _ =>
      let '(r, response) := send_within timeouts.(adt_headers) s.1 in
      match response with
      | None => ((r, s.2), Some (Err HeaderTimeout))
      | Some (Err error) => ((r, s.2), Some (Err (send_error error)))
      | Some (Ok response) =>
          match (fail_if (negb response.(rsp_success)) CheckFailed ;?
                 validate_release_url response.(rsp_url) ;?
                 check_announced response.(rsp_content_length) artifact ;?
                 validate_artifact_staging_destination staging_root destination) with
          | Err e => ((r, s.2), Some (Err e))
          | Ok _ =>
              into_staging_file
                (receive_async fuel artifact timeouts.(adt_inactivity) timeouts.(adt_total) []) (r, s.2)
          end
      end
  end.

(** [length] is what the metadata says, [contents] what reading the file gives. *)
Definition verify_staged_artifact {world : PathWorld} (staging_root file : path) (artifact : ArtifactDescriptor)
    (length : N) (contents : option bytes) : res bytes :=
  validate_artifact_staging_destination staging_root file ;?
  match symlink_metadata file with Some IsFile => Ok tt | Some _ => Err UnsafePath | None => Err StateIo end ;?
  fail_if ((MAX_UPDATE_ARTIFACT_BYTES <? length) || (artifact.(ad_size) <? length)) ArtifactTooLarge ;?
  fail_if (negb (length =? artifact.(ad_size))) ArtifactSizeMismatch ;?
  let? b := ok_or contents StateIo in
  validate_download b artifact ;?
  fail_if (negb (verify b artifact.(ad_signature))) SignatureInvalid ;?
  Ok b.
End downloads.

(** ** State files and the node runtime *)

Inductive WalletUpdaterState :=
| WalletIdle | WalletChecking | WalletIsUpToDate | WalletUpdateAvailable | WalletDownloading | WalletVerifying
| ReadyToApply | WalletWaitingForSafePoint | Installing | Restarting | WalletFailed.
Record UpdateMetadataState := mkUpdateMetadataState {
  ums_schema_version : N;
  ums_last_check_at : option bytes;
  ums_last_successful_check_at : option bytes;
  ums_installed_version : bytes;
  ums_installed_wallet_revision : bytes;
  ums_installed_node_revision : bytes;
  ums_latest_seen_version : option bytes;
  ums_pending_version : option bytes;
  ums_channel : bytes;
  ums_wallet_state : WalletUpdaterState;
  ums_node_state : NodeUpdaterState;
  ums_last_sanitized_error : option bytes;
  ums_etag : option bytes;
  ums_successful_update_at : option bytes;
}.
Record NodeRuntimeState := mkNodeRuntimeState {
  nrs_schema_version : N;
  nrs_active_version : bytes;
  nrs_active_revision : bytes;
  nrs_previous_version : option bytes;
  nrs_previous_revision : option bytes;
  nrs_installed_at : bytes;
  nrs_binary_sha256 : bytes;
  nrs_signature_identity : bytes;
  nrs_compatibility : NodeCompatibility;
  nrs_update_sequence : N;
  nrs_temporarily_denied_revision : option bytes;
}.
Class UpdaterStateCode := {
  update_state_to_json : UpdateMetadataState -> option bytes;
  runtime_state_to_json : NodeRuntimeState -> option bytes;
}.

(** The names and files of one directory, as in Directories. *)
Abbreviation disk_op := (method Place UpdateError).
Definition as_state_io {A} (m : fs A) : disk_op A := fun p =>
  match m p with (p, Ok a) => (p, Ok a) | (p, Err _) => (p, Err StateIo) end.
Definition rename_file (from to : bytes) : fs unit :=
  let! found := peek (fun e =>
    fail_if (match e !! to with Some (Directory _) => true | _ => false end) (StErr.Io StErr.OtherKind) ;?
    ok_or (e !! from) (StErr.Io StErr.OtherKind)) in
  change (fun e => <[to := found]> (delete from e)).
Definition remove_file (name : bytes) : fs unit := change (delete name).
(** A new file, written, synchronised and renamed over [name]; [let _ =] the removal. *)
Definition create_new_at (temporary : bytes) : fs unit :=
  peek (fun e => fail_if (is_some (e !! temporary)) (StErr.Io StErr.OtherKind)) ;;;
  change (<[temporary := Regular []]>).
Definition replace_file (temporary name b : bytes) : fs unit :=
  create_new_at temporary ;;;
  or_clean_up
    (change (<[temporary := Regular b]>) ;;;
     change (fun e => e) ;;;
     rename_file temporary name ;;;
     sync_parent)
    (remove_file temporary).
(** The name of a temporary file of process [pid]. *)
Definition temporary_name (stem : bytes) (pid sequence : N) : bytes :=
  str "." ++ stem ++ str "." ++ show pid ++ str "." ++ show sequence ++ str ".tmp".

Section state_files.
Context {url : UrlCode} {feed : FeedCode url} {state_code : UpdaterStateCode}.

Definition persist_peer_manifest_cache (pid sequence : N) (name : bytes) (manifest : SignedPeerManifest) : disk_op unit :=
  as_state_io (change (fun e => e)) ;;;
  let! b := mread (fun _ => ok_or (signed_peers_to_json manifest) PeerManifestInvalid) in
  as_state_io (replace_file (temporary_name (str "peer-manifest") pid sequence) name b).
Definition persist_update_state (pid sequence : N) (name : bytes) (state : UpdateMetadataState) : disk_op unit :=
  as_state_io (change (fun e => e)) ;;;
  mread (fun _ => fail_if (negb (is_utf8 name)) StateIo) ;;;
  let! b := mread (fun _ => ok_or (update_state_to_json state) StateIo) in
  as_state_io (replace_file (temporary_name name pid sequence) name b).
Definition NODE_STATE_FILE : bytes := str "node-state.json".
Definition persist_node_runtime_state (pid sequence : N) (state : NodeRuntimeState) : disk_op unit :=
  let! b := mread (fun _ => ok_or (runtime_state_to_json state) StateIo) in
  as_state_io (replace_file (temporary_name (str "node-state") pid sequence) NODE_STATE_FILE b).
End state_files.

Section runtime.
Context {version : VersionCode}.

Definition validated_node_directory_name (node_version revision : bytes) : res bytes :=
  let? _ := ok_or (version_parse node_version) ManifestInvalid in
  fail_if (negb (len revision =? 40) || negb (forallb is_ascii_hexdigit revision)) ManifestInvalid ;?
  Ok (node_version ++ str "-" ++ map to_ascii_lowercase revision).
End runtime.

(** ** The protocol of a node update *)

(** The calls an update makes, with their outcomes. *)
Inductive UpdateCall :=
| CallCritical (b : bool) | CallStopMiner (r : res unit) | CallPersist (r : res unit) | CallStopNode (r : res N)
| CallStopped (pid : N) (b : bool) | CallPorts (b : bool) | CallPromote (r : res unit) | CallStart (r : res N)
| CallHandshake (r : res NodeIdentity) | CallReady (b : bool) | CallCanonical (b : bool) | CallPeers (n : N)
| CallRollback (r : res unit) | CallPrevious (identity : NodeIdentity).

Section protocol.
Context {url : UrlCode} {B : Type} {backend : NodeUpdateBackend B}.
Implicit Types (manifest : NodeManifest) (calls log : list UpdateCall).

(** The backend, and a record of the calls made to it. *)
Definition logging {A} (call : A -> UpdateCall) (m : B -> B * A) : B * list UpdateCall -> (B * list UpdateCall) * A := fun s =>
  let '(b, a) := m s.1 in ((b, s.2 ++ [call a]), a).
#[local] Instance logged : NodeUpdateBackend (B * list UpdateCall) := {|
  critical_operation_active := logging CallCritical critical_operation_active;
  stop_miner := logging CallStopMiner stop_miner;
  persist_wallet_cursor_and_journal := logging CallPersist persist_wallet_cursor_and_journal;
  stop_node := logging CallStopNode stop_node;
  process_is_stopped pid := logging (CallStopped pid) (process_is_stopped pid);
  local_ports_released := logging CallPorts local_ports_released;
  promote_staged_node := logging CallPromote promote_staged_node;
  start_node := logging CallStart start_node;
  handshake := logging CallHandshake handshake;
  node_ready := logging CallReady node_ready;
  cursor_is_canonical := logging CallCanonical cursor_is_canonical;
  connected_peers := logging CallPeers connected_peers;
  rollback := logging CallRollback rollback;
  expected_previous_identity := logging CallPrevious expected_previous_identity;
|}.

(** What precedes a promotion: the node of process [pid] is known to be stopped. *)
Definition at_rest (pid : N) : list UpdateCall :=
  [CallCritical false; CallStopMiner (Ok tt); CallPersist (Ok tt); CallStopNode (Ok pid); CallStopped pid true;
   CallPorts true].

(** The calls after a promotion that end in a rollback. *)
Inductive unhealthy manifest (old : N) : list UpdateCall -> UpdateError -> Prop :=
| unhealthy_start e : unhealthy manifest old [CallStart (Err e)] RestartFailed
| unhealthy_same : unhealthy manifest old [CallStart (Ok old)] RestartFailed
| unhealthy_handshake pid e : unhealthy manifest old [CallStart (Ok pid); CallHandshake (Err e)] e
| unhealthy_identity pid identity e : validate_node_identity identity manifest = Err e ->
    unhealthy manifest old [CallStart (Ok pid); CallHandshake (Ok identity)] e
| unhealthy_ready pid identity :
    unhealthy manifest old [CallStart (Ok pid); CallHandshake (Ok identity); CallReady false] NodeIncompatible
| unhealthy_cursor pid identity :
    unhealthy manifest old [CallStart (Ok pid); CallHandshake (Ok identity); CallReady true; CallCanonical false]
      NodeIncompatible
| unhealthy_peers pid identity :
    unhealthy manifest old
      [CallStart (Ok pid); CallHandshake (Ok identity); CallReady true; CallCanonical true; CallPeers 0] NodeIncompatible.

Inductive rolled_back cause : list UpdateCall -> res NodeUpdaterState -> Prop :=
| rolled_back_not e : rolled_back cause [CallRollback (Err e)] (Err cause)
| rolled_back_start e : rolled_back cause [CallRollback (Ok tt); CallStart (Err e)] (Err cause)
| rolled_back_identity pid expected identity : identity <> Ok expected ->
    rolled_back cause [CallRollback (Ok tt); CallStart (Ok pid); CallPrevious expected; CallHandshake identity] (Err cause)
| rolled_back_ready pid expected ready :
    rolled_back cause
      [CallRollback (Ok tt); CallStart (Ok pid); CallPrevious expected; CallHandshake (Ok expected); CallReady ready]
      (if ready : bool then Ok RolledBack else Err cause).

(** The runs of the update. *)
Inductive update_log manifest : list UpdateCall -> res NodeUpdaterState -> Prop :=
| log_busy : update_log manifest [CallCritical true] (Ok WaitingForSafePoint)
| log_miner e : update_log manifest [CallCritical false; CallStopMiner (Err e)] (Err e)
| log_persist e : update_log manifest [CallCritical false; CallStopMiner (Ok tt); CallPersist (Err e)] (Err e)
| log_stop e : update_log manifest
    [CallCritical false; CallStopMiner (Ok tt); CallPersist (Ok tt); CallStopNode (Err e)] (Err e)
| log_running pid : update_log manifest
    [CallCritical false; CallStopMiner (Ok tt); CallPersist (Ok tt); CallStopNode (Ok pid); CallStopped pid false]
    (Err NodeStopFailed)
| log_ports pid : update_log manifest
    [CallCritical false; CallStopMiner (Ok tt); CallPersist (Ok tt); CallStopNode (Ok pid); CallStopped pid true;
     CallPorts false] (Err NodeStopFailed)
| log_promote pid e : update_log manifest (at_rest pid ++ [CallPromote (Err e)]) (Err e)
| log_rollback pid calls cause back r : unhealthy manifest pid calls cause -> rolled_back cause back r ->
    update_log manifest (at_rest pid ++ CallPromote (Ok tt) :: calls ++ back) r
| log_done pid pid' identity peers : pid' <> pid -> validate_node_identity identity manifest = Ok tt -> peers <> 0 ->
    update_log manifest
      (at_rest pid ++ [CallPromote (Ok tt); CallStart (Ok pid'); CallHandshake (Ok identity); CallReady true;
                       CallCanonical true; CallPeers peers]) (Ok Succeeded).

Lemma rollback_runs cause b log b' log' r :
  rollback_node cause (b, log) = ((b', log'), r) -> exists back, log' = log ++ back /\ rolled_back cause back r.
Proof.
  unfold rollback_node, mthen, or_cause, answer, outcome, mret, mread. simpl. unfold logging. simpl.
  destruct (rollback b) as [b1 [[]|e]]; [|by intros [= <- <- <-]; eexists; split; [|constructor]].
  simpl. rewrite <- ?app_assoc. simpl. destruct (start_node b1) as [b2 [pid|e]]; simpl; rewrite <- ?app_assoc; simpl;
    [|by intros [= <- <- <-]; eexists; split; [|constructor]].
  destruct (expected_previous_identity b2) as [b3 expected]. simpl. rewrite <- ?app_assoc. simpl.
  destruct (handshake b3) as [b4 identity]. simpl. rewrite <- ?app_assoc. simpl.
  destruct (bool_decide (identity = Ok expected)) eqn:E.
  - apply bool_decide_eq_true in E. subst identity. simpl. destruct (node_ready b4) as [b5 ready]. simpl. rewrite <- ?app_assoc. simpl.
    destruct ready; simpl; intros [= <- <- <-]; (eexists; split; [reflexivity|]); [apply (rolled_back_ready _ _ _ true)|apply (rolled_back_ready _ _ _ false)].
  - apply bool_decide_eq_false in E. simpl. intros [= <- <- <-]. eexists. split; [reflexivity|]. by constructor.
Qed.

Lemma update_runs manifest b b' log r :
  apply_node_update manifest (b, []) = ((b', log), r) -> update_log manifest log r.
Proof.
  unfold apply_node_update, and_then, mthen, answer, outcome, mret, mread. simpl. unfold logging. simpl.
  destruct (critical_operation_active b) as [b1 critical]. destruct critical; simpl; [intros [= <- <- <-]; constructor|].
  destruct (stop_miner b1) as [b2 [[]|e]]; simpl; [|intros [= <- <- <-]; constructor].
  destruct (persist_wallet_cursor_and_journal b2) as [b3 [[]|e]]; simpl; [|intros [= <- <- <-]; constructor].
  destruct (stop_node b3) as [b4 [pid|e]]; simpl; [|intros [= <- <- <-]; constructor].
  destruct (process_is_stopped pid b4) as [b5 stopped]. simpl. destruct stopped; simpl; [|intros [= <- <- <-]; constructor].
  destruct (local_ports_released b5) as [b6 ports]. simpl. destruct ports; simpl; [|intros [= <- <- <-]; constructor].
  destruct (promote_staged_node b6) as [b7 [[]|e]]; simpl; [|intros [= <- <- <-]; apply (log_promote _ pid)].
  assert (Hback : forall calls cause b8, unhealthy manifest pid calls cause ->
    rollback_node cause (b8, at_rest pid ++ CallPromote (Ok tt) :: calls) = ((b', log), r) -> update_log manifest log r).
  { intros calls cause b8 Hu (back & -> & Hb)%rollback_runs. simpl. by apply (log_rollback _ pid calls cause back). }
  destruct (start_node b7) as [b8 [new|e]]; simpl; [|apply Hback; constructor].
  destruct (new =? pid) eqn:Ep; [apply N.eqb_eq in Ep; subst new; apply Hback; constructor|apply N.eqb_neq in Ep].
  simpl. destruct (handshake b8) as [b9 [identity|e]]; simpl; [|apply Hback; constructor].
  destruct (validate_node_identity identity manifest) as [[]|e] eqn:Ei; simpl; [|apply Hback; by constructor].
  destruct (node_ready b9) as [b10 ready]. simpl. destruct ready; simpl; [|apply Hback; constructor].
  destruct (cursor_is_canonical b10) as [b11 canonical]. simpl. destruct canonical; simpl; [|apply Hback; constructor].
  destruct (connected_peers b11) as [b12 peers]. simpl. destruct (peers =? 0) eqn:E0.
  - apply N.eqb_eq in E0. subst peers. apply Hback. constructor.
  - apply N.eqb_neq in E0. intros [= <- <- <-]. by apply (log_done _ pid).
Qed.

(** What a run through a rollback never makes and how it ends. *)
Lemma rollback_facts manifest pid calls cause back r :
  unhealthy manifest pid calls cause -> rolled_back cause back r ->
  (forall x, ~ In (CallPromote x) (calls ++ back)) /\ (exists x, In (CallRollback x) (calls ++ back))
  /\ r <> Ok Succeeded /\ r <> Ok WaitingForSafePoint
  /\ (r = Ok RolledBack -> exists pid expected,
        back = [CallRollback (Ok tt); CallStart (Ok pid); CallPrevious expected; CallHandshake (Ok expected);
                CallReady true])
  /\ (forall pid' identity peers,
        calls ++ back <> [CallStart (Ok pid'); CallHandshake (Ok identity); CallReady true; CallCanonical true; CallPeers peers]).
Proof.
  intros Hu Hb. assert (Hlast : exists x rest, back = CallRollback x :: rest) by (destruct Hb; eauto).
  split_and!.
  - intros x. rewrite in_app_iff. destruct Hu, Hb; simpl; intuition discriminate.
  - destruct Hlast as (x & rest & ->). exists x. rewrite in_app_iff. right. by left.
  - destruct Hb as [| | |? ? []]; discriminate.
  - destruct Hb as [| | |? ? []]; discriminate.
  - destruct Hb as [| | |? ? []]; try discriminate. eauto.
  - intros pid' identity peers H. destruct Hlast as (x & rest & ->). destruct Hu; discriminate H.
Qed.

(** No such call was made. *)
Ltac nothing := let H := fresh in intros ? H || intros H; simpl in H; exfalso; intuition discriminate.

(** C12 A node update follows its protocol, whatever the backend answers: nothing is
    promoted before the miner and the node are stopped, the wallet is stored and the
    node is known to be at rest; success is reported exactly after a new process gave
    the identity of the manifest, was ready on the canonical chain and had peers; a
    rollback is reported only after the process started again gave the previous
    identity and was ready; after a promotion anything but success was answered by a
    rollback; a critical operation defers the update without a call; and a promotion
    that fails returns its error with the node stopped, neither rolled back nor
    started again. *)
Theorem node_updates_follow_their_protocol manifest b b' log r
    (Hrun : apply_node_update manifest (b, []) = ((b', log), r)) :
  (forall x, In (CallPromote x) log -> exists pid calls, log = at_rest pid ++ CallPromote x :: calls)
  /\ (r = Ok Succeeded <-> exists pid pid' identity peers,
        pid' <> pid /\ validate_node_identity identity manifest = Ok tt /\ peers <> 0
        /\ log = at_rest pid ++ [CallPromote (Ok tt); CallStart (Ok pid'); CallHandshake (Ok identity); CallReady true;
                                 CallCanonical true; CallPeers peers])
  /\ (r = Ok RolledBack -> exists calls pid expected,
        log = calls ++ [CallRollback (Ok tt); CallStart (Ok pid); CallPrevious expected; CallHandshake (Ok expected);
                        CallReady true])
  /\ (In (CallPromote (Ok tt)) log -> r = Ok Succeeded \/ exists x, In (CallRollback x) log)
  /\ (r = Ok WaitingForSafePoint <-> log = [CallCritical true])
  /\ (forall e, In (CallPromote (Err e)) log -> r = Err e /\ forall x y, ~ In (CallStart x) log /\ ~ In (CallRollback y) log).
Proof.
  apply update_runs in Hrun.
  assert (Hrest : forall pid c, In c (at_rest pid) ->
    match c with CallPromote _ | CallStart _ | CallRollback _ => False | _ => True end).
  { intros pid c H. simpl in H. intuition (subst; done). }
  destruct Hrun as [|e|e|e|pid|pid|pid e|pid calls cause back r Hu Hb|pid pid' identity peers Hp Hi Hn];
    try (split_and!; [nothing|split; [discriminate|by intros (? & ? & ? & ? & _ & _ & _ & [=])]|discriminate
      |nothing|split; by intros [=]|nothing]; fail).
  - split_and!; [|split; [discriminate|by intros (? & ? & ? & ? & _ & _ & _ & [=])]|discriminate
      |simpl; intuition discriminate|by split|].
    + intros x H. exists pid, []. apply in_app_iff in H as [H|[<-|[]]]; [|done]. by destruct (Hrest _ _ H).
    + intros e' H. apply in_app_iff in H as [H|[[= <-]|[]]]; [by destruct (Hrest _ _ H)|].
      split; [done|]. intros x y. split; intros H; apply in_app_iff in H as [H|[H|[]]]; try discriminate;
        by destruct (Hrest _ _ H).
  - destruct (rollback_facts _ _ _ _ _ _ Hu Hb) as (Hprom & (x & Hx) & Hs & Hw & Hback & Hlog).
    split_and!.
    + intros y H. exists pid, (calls ++ back). apply in_app_iff in H as [H|[[= <-]|H]]; [|done|by destruct (Hprom y)].
      by destruct (Hrest _ _ H).
    + split; [done|]. intros (p & p' & identity & peers & _ & _ & _ & [= _ _ H]). by destruct (Hlog p' identity peers).
    + intros H. destruct (Hback H) as (p & expected & ->).
      exists (at_rest pid ++ CallPromote (Ok tt) :: calls), p, expected. by rewrite <- app_assoc.
    + intros _. right. exists x. apply in_app_iff. right. by right.
    + split; [done|intros [=]].
    + intros e H. apply in_app_iff in H as [H|[[=]|H]]; [by destruct (Hrest _ _ H)|by destruct (Hprom (Err e))].
  - split_and!; [|split; [|done]|discriminate|by left|by split|].
    + intros x H. exists pid. eexists. apply in_app_iff in H as [H|[[= <-]|H]]; [by destruct (Hrest _ _ H)|done|].
      simpl in H. intuition discriminate.
    + intros _. by exists pid, pid', identity, peers.
    + intros e H. apply in_app_iff in H as [H|H]; [by destruct (Hrest _ _ H)|]. simpl in H. intuition discriminate.
Qed.
End protocol.

(** ** Policies: lemmas *)

Section policy_proofs.
Context {url : UrlCode} {version : VersionCode} {time : TimeCode} {digest : DigestCode} {feed : FeedCode url}.
Context {verifier : SignatureVerifier} {laws : VersionLaws version}.

(** A window that is open at [now]. *)
Definition open_window (published_at expires_at : bytes) (now : Z) : Prop :=
  exists published expires, rfc3339_parse published_at = Some published /\ rfc3339_parse expires_at = Some expires
    /\ (published < expires /\ now < expires /\ published <= now + FIVE_MINUTES)%Z.
Lemma time_window_Ok published_at expires_at now u :
  validate_time_window published_at expires_at now = Ok u <-> open_window published_at expires_at now.
Proof.
  unfold validate_time_window, open_window. split.
  - intros (published & Hp%ok_or_Ok & H)%rbind_Ok. apply rbind_Ok in H as (expires & He%ok_or_Ok & H).
    apply fail_if_Ok in H. apply orb_false_iff in H as [[H1 H2]%orb_false_iff H3]. exists published, expires.
    split_and!; [done|done|lia|lia|lia].
  - intros (published & expires & -> & -> & H). simpl. destruct u. apply fail_if_Ok.
    rewrite !orb_false_iff. split_and!; lia.
Qed.

Definition approved_url (u : Url) : Prop :=
  url_scheme u = str "https" /\ url_port_or_known_default u = Some 443 /\ url_username u = [] /\ url_password u = None
  /\ exists host, url_host_str u = Some host /\ In host ALLOWED_DOWNLOAD_HOSTS.
Lemma release_url_Ok u x : validate_release_url u = Ok x -> approved_url u.
Proof.
  intros H%fail_if_Ok%negb_false_iff. unfold approved_url. repeat (apply andb_true_iff in H as [H ?]).
  destruct (url_username u) eqn:Eu; [|done]. destruct (url_password u); [done|].
  destruct (url_host_str u) as [host|]; [|done]. cbn [is_some_and] in *.
  repeat match goal with H : bool_decide _ = true |- _ => apply bool_decide_eq_true in H end.
  split_and!; try done. exists host. split; [done|].
  match goal with H : existsb _ _ = true |- _ => apply existsb_exists in H as (h & Hin & Hh) end.
  apply bool_decide_eq_true in Hh. by subst h.
Qed.

(** An artifact for the platform that may be downloaded. *)
Definition approved_artifact (artifact : ArtifactDescriptor) (target architecture : bytes) : Prop :=
  artifact.(ad_target) = target /\ artifact.(ad_architecture) = architecture /\ approved_url artifact.(ad_url)
  /\ artifact.(ad_size) <> 0 /\ is_blank artifact.(ad_signature) = false
  /\ len artifact.(ad_sha256) = 64 /\ forallb is_ascii_hexdigit artifact.(ad_sha256) = true.
Lemma artifact_Ok artifact target architecture u :
  validate_artifact artifact target architecture = Ok u -> approved_artifact artifact target architecture.
Proof.
  intros [H1%fail_if_Ok H]%then_Ok. apply then_Ok in H as [H2%release_url_Ok H3%fail_if_Ok].
  apply orb_false_iff in H1 as [?%negb_false_iff%bool_decide_eq_true ?%negb_false_iff%bool_decide_eq_true].
  repeat (apply orb_false_iff in H3 as [H3 ?]). apply N.eqb_neq in H3.
  unfold approved_artifact. split_and!; try done; [by apply N.eqb_eq, negb_false_iff|by apply negb_false_iff].
Qed.

Lemma select_unique (manifest : WalletManifest) target architecture a b :
  select_artifact manifest target architecture = Some a -> In b manifest.(wman_artifacts) ->
  b.(ad_target) = target -> b.(ad_architecture) = architecture -> b = a.
Proof.
  unfold select_artifact. intros H Hb Ht Ha.
  set (p := fun artifact => bool_decide (artifact.(ad_target) = target) && bool_decide (artifact.(ad_architecture) = architecture)) in H.
  assert (Hin : In b (List.filter p (wman_artifacts manifest))).
  { apply filter_In. split; [done|]. unfold p. by rewrite !bool_decide_eq_true_2. }
  destruct (List.filter p _) as [|x [|]]; [done| |done]. injection H as ->. by destruct Hin as [->|[]].
Qed.

Lemma version_order a b :
  (version_le a b = false -> version_cmp b a = Lt) /\ (version_eq a b = true -> a = b) /\ (version_lt a b = false -> version_cmp a b <> Lt).
Proof.
  unfold version_le, version_eq, version_lt. rewrite (version_cmp_antisym b a).
  destruct (version_cmp a b) eqn:E; simpl; split_and!; try done. intros _. by apply version_cmp_eq.
Qed.

(** Updates never go back: a manifest is accepted for the wallet only inside its
    time window, on its channel and network, for a supported schema, with one
    artifact of the platform, signed, of a size and digest, at an approved address;
    it is offered only when its version is newer than the installed one, which is
    not below its minimum, and reported as installed only when the versions are
    equal.  The same holds for the node, where the sequence number also has to grow
    and what is offered agrees with the wallet in network, chain and protocols. *)
Theorem updates_never_go_back :
  (forall manifest policy now decision, validate_wallet_manifest manifest policy now = Ok decision ->
     open_window manifest.(wman_published_at) manifest.(wman_expires_at) now
     /\ manifest.(wman_channel) = policy.(wpol_update_channel) /\ manifest.(wman_network) = policy.(wpol_network)
     /\ manifest.(wman_minimum_wallet_schema) <= policy.(wpol_wallet_schema) /\ manifest.(wman_draft) = false
     /\ (exists artifact, approved_artifact artifact policy.(wpol_target) policy.(wpol_architecture)
          /\ forall other, In other manifest.(wman_artifacts) -> other.(ad_target) = policy.(wpol_target) ->
               other.(ad_architecture) = policy.(wpol_architecture) -> other = artifact)
     /\ exists installed available, version_parse policy.(wpol_installed_version) = Some installed
          /\ version_parse manifest.(wman_version) = Some available
          /\ match decision with
             | UpToDate => available = installed
             | Available v => v = available /\ version_cmp installed available = Lt
                 /\ exists minimum, version_parse manifest.(wman_minimum_supported_version) = Some minimum
                      /\ version_cmp installed minimum <> Lt
             end)
  /\ (forall manifest compatibility now decision, validate_node_manifest manifest compatibility now = Ok decision ->
     open_window manifest.(nman_published_at) manifest.(nman_expires_at) now
     /\ compatibility.(nc_update_sequence) < manifest.(nman_sequence)
     /\ approved_artifact manifest.(nman_artifact) compatibility.(nc_target) compatibility.(nc_architecture)
     /\ exists installed available, version_parse compatibility.(nc_active_node_version) = Some installed
          /\ version_parse manifest.(nman_node_version) = Some available /\ version_cmp available installed <> Lt
          /\ match decision with
             | NodeUpToDate => available = installed
                 /\ manifest.(nman_node_revision) = compatibility.(nc_active_node_revision)
             | NodeAvailable v => v = available /\ manifest.(nman_requires_wallet_update) = false
                 /\ manifest.(nman_network) = compatibility.(nc_network)
                 /\ manifest.(nman_chain_id) = compatibility.(nc_chain_id)
                 /\ manifest.(nman_genesis_hash) = compatibility.(nc_genesis_hash)
                 /\ manifest.(nman_storage_schema_version) = compatibility.(nc_storage_schema_version)
             | WalletUpdateRequired => True
             end).
Proof.
  split.
  - intros manifest policy now decision H. unfold validate_wallet_manifest, validate_schema_channel_time in H.
    apply then_Ok in H as [Hw H]. apply then_Ok in Hw as [_ Hw]. apply then_Ok in Hw as [Hc%fail_if_Ok Hw%time_window_Ok].
    apply then_Ok in H as [Hd%fail_if_Ok H]. apply then_Ok in H as [Hn%fail_if_Ok H]. apply then_Ok in H as [_ H].
    apply then_Ok in H as [_ H]. apply then_Ok in H as [_ H]. apply rbind_Ok in H as (artifact & Hsel%ok_or_Ok & H).
    apply then_Ok in H as [Ha%artifact_Ok H]. apply rbind_Ok in H as (installed & Hi%ok_or_Ok & H).
    apply rbind_Ok in H as (available & Hv%ok_or_Ok & H). apply rbind_Ok in H as (minimum & Hm%ok_or_Ok & H).
    repeat (apply orb_false_iff in Hn as [Hn ?]). apply orb_false_iff in Hd as [Hd _].
    apply negb_false_iff, bool_decide_eq_true in Hc, Hn.
    split_and!; try done; [by apply N.ltb_ge| |].
    + exists artifact. split; [done|]. intros other Ho Ht Har. by eapply select_unique.
    + exists installed, available. split_and!; [done|done|].
      destruct (version_order available installed) as (Hle & Heq & _). destruct (version_le available installed) eqn:E.
      * destruct (version_eq available installed); [|done]. injection H as <-. by apply Heq.
      * apply then_Ok in H as [Hmin%fail_if_Ok [= <-]]. split_and!; [done|by apply Hle|]. exists minimum.
        split; [done|]. by apply version_order.
  - intros manifest compatibility now decision H. unfold validate_node_manifest, validate_schema_channel_time in H.
    apply then_Ok in H as [Hw H]. apply then_Ok in Hw as [_ Hw]. apply then_Ok in Hw as [_ Hw%time_window_Ok].
    apply then_Ok in H as [Hs%fail_if_Ok H]. apply orb_false_iff in Hs as [_ Hs%N.leb_gt].
    apply then_Ok in H as [Ha%artifact_Ok H]. apply rbind_Ok in H as (installed & Hi%ok_or_Ok & H).
    apply rbind_Ok in H as (available & Hv%ok_or_Ok & H). apply then_Ok in H as [Hd%fail_if_Ok H].
    split_and!; try done. exists installed, available. split_and!; [done|done|by apply version_order|].
    destruct (version_eq available installed && _) eqn:E.
    + apply andb_true_iff in E as [E1 E2%bool_decide_eq_true]. injection H as <-. split; [by apply version_order|done].
    + apply rbind_Ok in H as (wallet & _ & H). apply rbind_Ok in H as (range & _ & H).
      destruct (node_incompatible _ _ _ _) eqn:En; injection H as <-; [done|]. unfold node_incompatible in En.
      repeat (apply orb_false_iff in En as [En ?]).
      repeat match goal with H : negb (bool_decide _) = false |- _ => apply negb_false_iff, bool_decide_eq_true in H end.
      split_and!; try done. by apply N.eqb_eq, negb_false_iff.
Qed.
End policy_proofs.

(** ** Peers: lemmas *)

Section peer_proofs.
Context {url : UrlCode} {time : TimeCode} {feed : FeedCode url} {verifier : SignatureVerifier}.

Lemma parse_peers_Ok peers parsed :
  parse_peers peers = Ok parsed <-> Forall2 (fun text peer => parse_socket_addr text = Some peer) peers parsed.
Proof.
  unfold parse_peers.
  assert (H : forall acc, foldM (fun parsed peer => let? p := ok_or (parse_socket_addr peer) PeerManifestInvalid in Ok (parsed ++ [p]))
    peers acc = Ok parsed <-> exists rest, parsed = acc ++ rest /\ Forall2 (fun text peer => parse_socket_addr text = Some peer) peers rest).
  { induction peers as [|peer peers IH]; intros acc; simpl.
    - split; [intros [= ->]; exists []; by rewrite app_nil_r|]. intros (rest & -> & H). inversion H; subst. by rewrite app_nil_r.
    - destruct (parse_socket_addr peer) as [p|] eqn:E; simpl.
      + rewrite IH. split; intros (rest & -> & H).
        * exists (p :: rest). rewrite <- app_assoc. auto.
        * inversion H as [|? p' ? rest' Hp Hr]; subst. exists rest'. rewrite <- app_assoc.
          assert (p = p') by congruence. by subst.
      + split; [done|]. intros (rest & -> & H). inversion H; subst. congruence. }
  rewrite H. simpl. split; [by intros (rest & -> & ?)|eauto].
Qed.

Lemma keep_new_spec peers : forall seen,
  NoDup (keep_new seen peers) /\ sublist (keep_new seen peers) peers
  /\ forall peer, peer ∈ keep_new seen peers <-> peer ∈ peers /\ peer ∉ seen.
Proof.
  induction peers as [|p peers IH]; intros seen; simpl.
  - split_and!; [constructor|constructor|]. intros peer. split; [by intros ?%not_elem_of_nil|by intros [? _]].
  - case_bool_decide as Hp.
    + destruct (IH seen) as (Hd & Hs & Hm). split_and!; [done|by constructor|]. intros peer. rewrite Hm, elem_of_cons. set_solver.
    + destruct (IH (p :: seen)) as (Hd & Hs & Hm). split_and!.
      * constructor; [|done]. rewrite Hm. set_solver.
      * by constructor.
      * intros peer. rewrite !elem_of_cons, Hm, elem_of_cons. destruct (decide (peer = p)); naive_solver.
Qed.

(** A peer list that is accepted was signed as a whole, is meant for this network,
    chain and genesis, is inside its time window and newer than the last one; the
    peers used are the public ones among its entries, all of them, each once and in
    the order of the manifest; and a single entry that is no socket address, or the
    lack of any public peer, rejects the manifest. *)
Theorem accepted_peers_are_the_public_ones manifest chain genesis previous now peers
    (Haccepted : validate_peer_manifest manifest chain genesis previous now = Ok peers) :
  let payload := manifest.(spm_payload) in
  (exists canonical, peer_payload_to_json payload = Some canonical /\ verify canonical manifest.(spm_signature) = true)
  /\ payload.(pmp_network) = str "mainnet" /\ payload.(pmp_chain_id) = chain /\ payload.(pmp_genesis_hash) = genesis
  /\ open_window payload.(pmp_generated_at) payload.(pmp_expires_at) now /\ previous < payload.(pmp_sequence)
  /\ peers <> [] /\ NoDup peers
  /\ exists parsed, Forall2 (fun text peer => parse_socket_addr text = Some peer) payload.(pmp_peers) parsed
       /\ sublist peers parsed
       /\ forall peer, peer ∈ peers <-> peer ∈ parsed /\ is_public_routable_peer peer = true.
Proof.
  intros payload. unfold validate_peer_manifest in Haccepted. fold payload in Haccepted.
  apply rbind_Ok in Haccepted as (canonical & Hc%ok_or_Ok & H). apply then_Ok in H as [Hv%fail_if_Ok%negb_false_iff H].
  apply then_Ok in H as [Hid%fail_if_Ok H]. apply then_Ok in H as [Hw H]. apply then_Ok in H as [Hs%fail_if_Ok H].
  apply rbind_Ok in H as (parsed & Hp%parse_peers_Ok & H). apply then_Ok in H as [He%fail_if_Ok [= <-]].
  apply orb_false_iff in Hid as [Hid Hg]. apply orb_false_iff in Hid as [Hid Hch]. apply orb_false_iff in Hid as [_ Hn].
  apply negb_false_iff, bool_decide_eq_true in Hg, Hch, Hn.
  destruct (validate_time_window _ _ _) as [u|] eqn:Ew; [apply time_window_Ok in Ew|done].
  destruct (keep_new_spec (List.filter is_public_routable_peer parsed) []) as (Hd & Hsub & Hm).
  split_and!; try done; [by exists canonical|by apply N.leb_gt|by destruct (keep_new _ _)|].
  exists parsed. split_and!; [done| |].
  - etrans; [exact Hsub|]. clear. induction parsed as [|p parsed IH]; simpl; [done|].
    destruct (is_public_routable_peer p); by constructor.
  - intros peer. rewrite Hm, !list_elem_of_In, filter_In. set_solver.
Qed.
End peer_proofs.

(** ** Downloads: lemmas *)

Section download_proofs.
Context {url : UrlCode} {digest : DigestCode} {verifier : SignatureVerifier} {world : PathWorld}.
Context {R : Type} (read : R -> R * option bytes) (elapsed : R -> R * N).
Context (next_within : N -> R -> R * NextChunk).
Context (build : bool) (send : R -> R * result SendError Response).
Context (send_within : N -> R -> R * option (result SendError Response)).
Implicit Types (artifact : ArtifactDescriptor) (file : StagingFile).

(** What was asked for: its size, digest and signature. *)
Definition genuine artifact (b : bytes) : Prop :=
  len b = artifact.(ad_size) /\ eq_ignore_ascii_case (artifact_digest b) artifact.(ad_sha256) = true
  /\ verify b artifact.(ad_signature) = true.
(** No call on the file fails. *)
Definition calm file : Prop := Forall (fun fault => fault = Fine) file.(sf_faults).

Lemma file_call_run f file file' r :
  file_call f file = (file', r) ->
  (r = Ok tt -> exists content, f file.(sf_content) = Some content /\ file'.(sf_content) = content)
  /\ (calm file -> calm file' /\ forall e, r = Err e -> f file.(sf_content) = None)
  /\ (file'.(sf_content) = file.(sf_content) \/ f file.(sf_content) = Some file'.(sf_content)).
Proof.
  unfold file_call, calm. destruct (sf_faults file) as [|fault faults]; [|destruct fault]; destruct (f _) eqn:E;
    intros [= <- <-]; simpl; rewrite ?Forall_cons; (split_and!; [intros; try done; eauto| |auto]);
    intros Hc; try (destruct Hc as [Hc Hcs]); try done; by split.
Qed.

(** The file holds what was received, or no more than the artifact has. *)
Definition holding file (received : bytes) : Prop := file.(sf_content) = Some received.
Definition part_of artifact file : Prop := exists part, holding file part /\ len part <= artifact.(ad_size).
Definition filling artifact file (received : bytes) : Prop := holding file received /\ len received <= artifact.(ad_size).
Lemma take_chunk_run artifact received chunk file file' r :
  take_chunk artifact received chunk file = (file', r) -> filling artifact file received ->
  (calm file -> calm file') /\ part_of artifact file'
  /\ match r with
     | Ok received' => received' = received ++ chunk /\ filling artifact file' received'
     | Err _ => True
     end.
Proof.
  unfold take_chunk. intros H [Hf Hl]. assert (Hp : part_of artifact file) by (by exists received).
  apply mthen_inv in H as [(e & [= <- _] & ->)|(f1 & downloaded & [= <- Hd%ok_or_Ok] & H)]; [done|].
  apply checked_add_Some in Hd as [-> _].
  apply mthen_inv in H as [(e & [= <- _] & ->)|(f1 & u & [= <- Hs%fail_if_Ok] & H)]; [done|].
  apply orb_false_iff in Hs as [Hs%N.ltb_ge _]. rewrite <-len_app in Hs.
  apply mthen_inv in H as [(e & H & ->)|(f1 & u' & H & [= <- <-])]; unfold append_chunk in H;
    apply file_call_run in H as (Hok & Hcalm & Hx); (split; [by intros ?; apply Hcalm|]); rewrite Hf in Hx.
  - split; [|done]. destruct Hx as [Hx|Hx]; [by exists received|]. injection Hx as Hx.
    by exists (received ++ chunk).
  - destruct u'. destruct (Hok eq_refl) as (content & Hc & Hc'). rewrite Hf in Hc. injection Hc as <-.
    split; [by exists (received ++ chunk)|done].
Qed.
Lemma finish_download_run artifact received file file' r :
  finish_download artifact received file = (file', r) -> filling artifact file received ->
  (calm file -> calm file') /\ part_of artifact file'
  /\ match r with Ok b => holding file' b /\ genuine artifact b | Err _ => True end.
Proof.
  unfold finish_download. intros H [Hf Hl].
  assert (Hp : forall f, f.(sf_content) = file.(sf_content) -> part_of artifact f).
  { intros f Hc. exists received. split; [unfold holding; congruence|done]. }
  apply mthen_inv in H as [(e & [= <- _] & ->)|(f1 & u1 & [= <- H1%fail_if_Ok] & H)]; [auto|].
  apply mthen_inv in H as [(e & [= <- _] & ->)|(f1 & u2 & [= <- H2%fail_if_Ok] & H)]; [auto|].
  apply mthen_inv in H as [(e & [= <- _] & ->)|(f1 & u3 & [= <- H3%fail_if_Ok] & H)]; [auto|].
  assert (Hsync : forall f f' r, sync_file f = (f', r) -> (calm f -> calm f') /\ f'.(sf_content) = f.(sf_content)).
  { intros f f' r' Hs. apply file_call_run in Hs as (_ & Hcalm & Hx). split; [by intros ?; apply Hcalm|].
    destruct Hx as [Hx|[= Hx]]; congruence. }
  apply mthen_inv in H as [(e & H & ->)|(f1 & u4 & H & H')]; apply Hsync in H as [Hc1 E1]; [auto|].
  apply mthen_inv in H' as [(e & H' & ->)|(f2 & u5 & H' & [= <- <-])]; apply Hsync in H' as [Hc2 E2];
    (split; [auto|]; split; [apply Hp; congruence|]); [done|].
  split; [unfold holding; congruence|]. unfold genuine. by rewrite <- N.eqb_eq, <- 3!negb_false_iff, H1, H2, H3.
Qed.

(** What a loop that fills the file ends with. *)
Definition filled artifact file (x : (R * StagingFile) * option (res bytes)) : Prop :=
  (calm file -> calm x.1.2) /\ part_of artifact x.1.2
  /\ match x.2 with Some (Ok b) => holding x.1.2 b /\ genuine artifact b | _ => True end.
Lemma filling_filled artifact file received r x :
  filling artifact file received -> match x with Some (Ok _) => False | _ => True end -> filled artifact file ((r, file), x).
Proof. intros [Hf Hl] Hx. split; [done|]. split; [by exists received|]. by destruct x as [[]|]. Qed.

Lemma receive_run artifact total fuel : forall received r file,
  filling artifact file received -> filled artifact file (receive read elapsed fuel artifact total received (r, file)).
Proof.
  induction fuel as [|fuel IH]; intros received r file Hf; simpl; [by eapply filling_filled|].
  destruct (elapsed r) as [r1 passed]. destruct (total <? passed); [by eapply filling_filled|].
  destruct (read r1) as [r2 [[|b chunk]|]]; [| |by eapply filling_filled].
  - destruct (finish_download artifact received file) as [file' x] eqn:E.
    pose proof (finish_download_run _ _ _ _ _ E Hf) as (Hc & Hp & Hx). by destruct x.
  - destruct (take_chunk artifact received (b :: chunk) file) as [file' x] eqn:E.
    pose proof (take_chunk_run _ _ _ _ _ _ E Hf) as (Hc & Hp & Hx). destruct x as [received'|e]; [|done].
    destruct Hx as (-> & Hf'). destruct (IH (received ++ b :: chunk) r2 file' Hf') as [Hc' Hx]. by split; [auto|].
Qed.
Lemma receive_async_run artifact inactivity total fuel : forall received r file,
  filling artifact file received -> filled artifact file (receive_async elapsed next_within fuel artifact inactivity total received (r, file)).
Proof.
  induction fuel as [|fuel IH]; intros received r file Hf; simpl; [by eapply filling_filled|].
  destruct (elapsed r) as [r1 passed]. destruct (checked_sub _ _) as [remaining|]; [|by eapply filling_filled].
  destruct (next_within _ r1) as [r2 [|t| |chunk]];
    [destruct (elapsed r2); by eapply filling_filled|by eapply filling_filled| |].
  - destruct (finish_download artifact received file) as [file' x] eqn:E.
    pose proof (finish_download_run _ _ _ _ _ E Hf) as (Hc & Hp & Hx). by destruct x.
  - destruct (take_chunk artifact received chunk file) as [file' x] eqn:E.
    pose proof (take_chunk_run _ _ _ _ _ _ E Hf) as (Hc & Hp & Hx). destruct x as [received'|e]; [|done].
    destruct Hx as (-> & Hf'). destruct (IH (received ++ chunk) r2 file' Hf') as [Hc' Hx]. by split; [auto|].
Qed.

(** Every chunk that is taken is new, so the reads are bounded by the size. *)
Lemma receive_ends artifact total fuel : forall received r file,
  filling artifact file received ->
  artifact.(ad_size) < N.of_nat fuel + len received -> (receive read elapsed fuel artifact total received (r, file)).2 <> None.
Proof.
  induction fuel as [|fuel IH]; intros received r file Hf Hn; [destruct Hf; simpl in Hn; lia|]. simpl.
  destruct (elapsed r) as [r1 passed]. destruct (total <? passed); [done|]. destruct (read r1) as [r2 [[|b chunk]|]]; [| |done].
  - by destruct (finish_download artifact received file).
  - destruct (take_chunk artifact received (b :: chunk) file) as [file' x] eqn:E.
    pose proof (take_chunk_run _ _ _ _ _ _ E Hf) as (Hc & _ & Hx). destruct x as [received'|e]; [|done].
    destruct Hx as (-> & Hf'). apply IH; [done|]. rewrite len_app. unfold len in *. simpl length. lia.
Qed.

(** What an error leaves of the staging file: it is as it was; or a call on it
    failed, and it was not there and has a part of at most the announced size. *)
Definition left_by_error artifact file file' : Prop :=
  file'.(sf_content) = file.(sf_content)
  \/ ~ calm file /\ file.(sf_content) = None /\ part_of artifact file'.

Lemma into_staging_file_run artifact loop (s : R * StagingFile) s' x :
  into_staging_file loop s = (s', x) -> (forall r file, holding file [] -> filled artifact file (loop (r, file))) ->
  match x with
  | Some (Ok b) => s.2.(sf_content) = None /\ holding s'.2 b /\ genuine artifact b
  | Some (Err _) => left_by_error artifact s.2 s'.2
  | None => s.2.(sf_content) = None
  end.
Proof.
  unfold into_staging_file. intros H Hloop.
  destruct (create_new s.2) as [file r0] eqn:Ec; unfold create_new in Ec.
  apply file_call_run in Ec as (Hok & Hcalm & Hcontent). destruct r0 as [[]|e].
  - destruct (Hok eq_refl) as (content & Hc & Hc'). destruct (sf_content s.2) eqn:Es; [done|]. injection Hc as <-.
    specialize (Hloop s.1 file Hc') as (Hcl & Hp & Hx).
    destruct (loop (s.1, file)) as [[r' file'] [[b|e]|]]; [by injection H as <- <-| |by injection H as <- <-].
    injection H as <- <-. simpl in Hcl, Hp |- *.
    destruct (file_call (fun _ => Some None) file') as [file'' rm] eqn:Erm. unfold remove_staging_file. rewrite Erm.
    simpl. apply file_call_run in Erm as (Hrm & Hrmc & Hrmx). unfold left_by_error. rewrite Es.
    destruct Hrmx as [Hrmx|[= Hrmx]]; [|by left].
    destruct rm as [[]|e']; [destruct (Hrm eq_refl) as (c & [= <-] & Hc); by left|].
    right. split; [|split; [done|]].
    + intros Hs. destruct (Hcalm Hs) as [Hcf _]. destruct (Hrmc (Hcl Hcf)) as [_ Hk]. by specialize (Hk e' eq_refl).
    + destruct Hp as (part & Hh & Hl). exists part. split; [unfold holding in *; congruence|done].
  - injection H as <- <-. simpl. unfold left_by_error. destruct Hcontent as [Hx|Hx]; [by left|]. right.
    destruct (sf_content s.2) eqn:Es; [done|]. injection Hx as Hx. split; [|split; [done|]].
    + intros Hs. destruct (Hcalm Hs) as [_ Hu]. by specialize (Hu e eq_refl).
    + exists []. split; [done|]. unfold len. simpl. lia.
Qed.

Lemma strip_components_Some base p r : strip_components base p = Some r <-> p = base ++ r.
Proof.
  revert p. induction base as [|c base IH]; intros [|d p]; simpl; [split; congruence..|by split|].
  case_bool_decide as Hc; [subst d; rewrite IH|]; split; congruence.
Qed.

(** A destination beneath the root, reached through real directories only. *)
Definition beneath (staging_root destination : path) : Prop :=
  exists relative, destination = staging_root ++ relative /\ relative <> [] /\ forallb is_normal relative = true
    /\ (forall between rest, relative = between ++ rest -> rest <> [] ->
          symlink_metadata (staging_root ++ between) = Some IsDirectory)
    /\ (symlink_metadata destination = None \/ symlink_metadata destination = Some IsFile)
    /\ exists root' rest', canonicalize staging_root = Some root'
         /\ canonicalize (removelast destination) = Some (root' ++ rest').

Lemma real_directory_Some kind : negb (real_directory kind) = false -> kind = Some IsDirectory.
Proof. by destruct kind as [[]|]. Qed.

Lemma validate_between_Ok relative : forall current destination u,
  validate_between current destination relative = Ok u -> destination = current ++ relative ->
  forall between rest, relative = between ++ rest -> between <> [] -> rest <> [] ->
    symlink_metadata (current ++ between) = Some IsDirectory.
Proof.
  induction relative as [|c relative IH]; intros current destination u H -> between rest Hr Hb Hne.
  { by destruct between. }
  destruct between as [|c' between]; [done|]. injection Hr as <- ->. destruct c; try done. simpl in H.
  case_bool_decide as Hd.
  - apply (f_equal length) in Hd. rewrite !length_app in Hd. simpl in Hd. rewrite length_app in Hd.
    destruct rest; [done|]. simpl in Hd. lia.
  - apply then_Ok in H as [Hk%fail_if_Ok%real_directory_Some H].
    destruct (decide (between = [])) as [->|Hbn]; [done|].
    assert (Heq : current ++ Normal name :: between ++ rest = (current ++ [Normal name]) ++ between ++ rest) by by rewrite <- app_assoc.
    rewrite Heq in H. pose proof (IH _ _ _ H eq_refl between rest eq_refl Hbn Hne) as HQ. by rewrite <- app_assoc in HQ.
Qed.

Lemma staging_destination_Ok staging_root destination u :
  validate_artifact_staging_destination staging_root destination = Ok u -> beneath staging_root destination.
Proof.
  intros [Hroot%fail_if_Ok%real_directory_Some H]%then_Ok.
  apply rbind_Ok in H as (relative & Hr%ok_or_Ok%strip_components_Some & H).
  apply then_Ok in H as [Hn%fail_if_Ok H]. apply orb_false_iff in Hn as [Hn Hnorm%negb_false_iff].
  apply orb_false_iff in Hn as [Hne _].
  apply rbind_Ok in H as (root' & Hcr%ok_or_Ok & H). apply rbind_Ok in H as (up & Hup%ok_or_Ok & H).
  apply then_Ok in H as [_ H]. apply rbind_Ok in H as (up' & Hcp%ok_or_Ok & H).
  apply then_Ok in H as [Hst%fail_if_Ok H]. apply then_Ok in H as [Hb Hk%fail_if_Ok].
  exists relative. split_and!; [done|by destruct relative|done| | |].
  - intros between rest Hs Hrest. destruct (decide (between = [])) as [->|Hbn]; [by rewrite app_nil_r|].
    by apply (validate_between_Ok relative staging_root destination _ Hb Hr between rest).
  - destruct (symlink_metadata destination) as [[]|]; try done; auto.
  - destruct (strip_components root' up') as [rest|] eqn:Es; [|done]. apply strip_components_Some in Es. subst up'.
    exists root', rest. split; [done|]. unfold parent in Hup. destruct (last destination) as [[]|]; congruence.
Qed.

Lemma announced_Ok content_length artifact u :
  check_announced content_length artifact = Ok u ->
  content_length = None \/ content_length = Some artifact.(ad_size).
Proof.
  destruct content_length as [length|]; [|by left]. simpl. intros [_ H%fail_if_Ok]%then_Ok. right. bool_inv.
  by subst.
Qed.

(** The two ways to download. *)
Definition download (asynchronous : bool) :=
  if asynchronous then download_verified_artifact_async elapsed next_within build send_within
  else download_verified_artifact read elapsed build send.

(** The server answered. *)
Definition answered (asynchronous : bool) timeouts (r : R) (response : Response) : Prop :=
  if asynchronous then (send_within timeouts.(adt_headers) r).2 = Some (Ok response) else (send r).2 = Ok response.

(** C13 A download ends with the signed artifact or with nothing: whatever the server
    sends, however slowly, whatever calls on the staging file fail, and both for the
    blocking and the asynchronous client, bytes are returned only if they have the
    announced size, at most the ceiling, the digest and the signature of the
    manifest, were answered with success from an approved address to the request of an
    approved address, with no other length announced, and are what the staging file
    holds, which was not there before and lies beneath the staging directory with no
    symbolic link on the way.  After an error the staging file is as it was, unless a
    call on it failed: then, if it was not there, a part of at most the size of the
    artifact may be left.  A file that was there is never touched.  The blocking
    download ends after at most as many reads as the artifact has bytes and one more. *)
Theorem downloads_are_verified asynchronous fuel artifact staging_root destination timeouts (s s' : R * StagingFile) x
    (Hrun : download asynchronous fuel artifact staging_root destination timeouts s = (s', x)) :
  match x with
  | Some (Ok b) => holding s'.2 b /\ genuine artifact b /\ 0 < artifact.(ad_size) <= MAX_UPDATE_ARTIFACT_BYTES
                   /\ approved_url artifact.(ad_url) /\ beneath staging_root destination
                   /\ s.2.(sf_content) = None
                   /\ exists response, answered asynchronous timeouts s.1 response
                        /\ response.(rsp_success) = true /\ approved_url response.(rsp_url)
                        /\ (response.(rsp_content_length) = None
                            \/ response.(rsp_content_length) = Some artifact.(ad_size))
  | Some (Err _) => left_by_error artifact s.2 s'.2
  | None => s.2.(sf_content) = None /\ (asynchronous = true \/ N.of_nat fuel <= artifact.(ad_size))
  end.
Proof.
  assert (Hsame : forall file, left_by_error artifact file file) by (by left).
  assert (Hstart : forall file, holding file [] -> filling artifact file []).
  { intros file Hf. split; [done|]. unfold len. simpl. lia. }
  destruct asynchronous; simpl in Hrun.
  - unfold download_verified_artifact_async in Hrun.
    destruct (_ ;? _) as [u|e] eqn:E1; [|by injection Hrun as <- <-].
    apply then_Ok in E1 as [Hu%release_url_Ok E1]. apply then_Ok in E1 as [Hs%fail_if_Ok _].
    apply orb_false_iff in Hs as [Hs0%N.eqb_neq Hsm%N.ltb_ge].
    destruct (send_within _ s.1) as [r [[response|error]|]] eqn:Esend; [|by injection Hrun as <- <-..].
    destruct (_ ;? _) as [u2|e] eqn:E2; [|by injection Hrun as <- <-].
    apply then_Ok in E2 as [Hok%fail_if_Ok%negb_false_iff E2]. apply then_Ok in E2 as [Hru%release_url_Ok E2].
    apply then_Ok in E2 as [Hl%announced_Ok Hb%staging_destination_Ok].
    apply into_staging_file_run with (artifact := artifact) in Hrun; [|intros; by apply receive_async_run, Hstart].
    destruct x as [[b|e]|]; [|done|by split; [|left]]. destruct Hrun as (Hn & Hh & Hg). split_and!; try done; [lia|].
    exists response. simpl. by rewrite Esend.
  - unfold download_verified_artifact in Hrun.
    destruct (_ ;? _) as [u|e] eqn:E1; [|by injection Hrun as <- <-]. apply then_Ok in E1 as [Hu%release_url_Ok _].
    destruct (send s.1) as [r [response|error]] eqn:Esend; [|by injection Hrun as <- <-]. destruct (elapsed r) as [r1 p1].
    destruct (_ ;? _) as [u2|e] eqn:E2; [|by injection Hrun as <- <-]. destruct (elapsed r1) as [r2 p2].
    apply then_Ok in E2 as [_ E2]. apply then_Ok in E2 as [Hok%fail_if_Ok%negb_false_iff Hru%release_url_Ok].
    destruct (checked_sub _ _) as [remaining|]; [|by injection Hrun as <- <-].
    unfold stream_and_verify_artifact in Hrun. destruct (fail_if ((ad_size artifact =? 0) || _) _ ;? _) as [u3|e] eqn:E3; [|by injection Hrun as <- <-].
    apply then_Ok in E3 as [Hs%fail_if_Ok E3]. apply then_Ok in E3 as [Hl%announced_Ok Hb%staging_destination_Ok].
    apply orb_false_iff in Hs as [Hs0%N.eqb_neq Hsm%N.ltb_ge]. pose proof Hrun as Hrun'.
    apply into_staging_file_run with (artifact := artifact) in Hrun; [|intros; by apply receive_run, Hstart].
    destruct x as [[b|e]|]; [|done|].
    + destruct Hrun as (Hn & Hh & Hg). split_and!; try done; [lia|]. exists response. simpl. by rewrite Esend.
    + split; [done|]. right. apply N.le_ngt. intros Hf. unfold into_staging_file in Hrun'.
      destruct (create_new (r2, s.2).2) as [file [[]|e]] eqn:Ec; [|done]. unfold create_new in Ec.
      apply file_call_run in Ec as [Hok' _]. destruct (Hok' eq_refl) as (content & Hc & Hc'). simpl in Hc.
      destruct (sf_content s.2); [done|]. injection Hc as <-.
      assert (Hends : (receive read elapsed fuel artifact remaining [] (r2, file)).2 <> None).
      { apply receive_ends; [by apply Hstart|unfold len; simpl; lia]. }
      simpl in Hrun'. destruct (receive _ _ _ _ _ _ _) as [[r' f'] [[]|]]; done.
Qed.
End download_proofs.

(** ** State files and the schedule: lemmas *)

(** Everything but the named entries is as before. *)
Definition untouched_but (names : list bytes) (E e : entries) : Prop := forall n, n ∉ names -> e !! n = E !! n.

(** A state file is replaced whole or not at all, whatever calls fail; what else may
    be left is the temporary file. *)
Lemma state_files_are_replaced_whole (temporary name b : bytes) (E : entries) p' r faults :
  temporary <> name -> E !! temporary = None ->
  replace_file temporary name b (mkPlace E faults) = (p', r) ->
  untouched_but [temporary; name] E p'.(pl_entries)
  /\ match r with
     | Ok _ => p'.(pl_entries) !! name = Some (Regular b) /\ p'.(pl_entries) !! temporary = None
     | Err _ => p'.(pl_entries) !! name = E !! name \/ p'.(pl_entries) !! name = Some (Regular b)
     end.
Proof.
  intros Hne Ht Hrun.
  set (left := fun e : entries => untouched_but [temporary; name] E e /\ (e !! name = E !! name \/ e !! name = Some (Regular b))).
  set (done := fun e : entries => untouched_but [temporary; name] E e /\ e !! name = Some (Regular b) /\ e !! temporary = None).
  assert (H0 : left E) by (split; [by intros n _|by left]).
  assert (Hwrite : forall e c, left e -> left (<[temporary := Regular c]> e)).
  { intros e c [Hu Hl]. split; [|by rewrite lookup_insert_ne]. intros n Hn. rewrite lookup_insert_ne; [by apply Hu|set_solver]. }
  assert (Hdone : forall e, done e -> left e) by (intros e (? & ? & _); split; [done|by right]).
  enough (Htr : ptriple (eq E) (replace_file temporary name b) (fun _ => done) left).
  { specialize (Htr _ _ _ Hrun eq_refl). destruct r; destruct Htr as [? ?]; by split. }
  set (held := fun e : entries => left e /\ e !! temporary = Some (Regular b)).
  unfold replace_file, create_new_at, rename_file, remove_file, sync_parent.
  apply (ptriple_bind _ _ _ _ (fun _ => left)).
  { apply (ptriple_bind _ _ _ _ (fun _ => left)); [by apply ptriple_peek; [intros ? ? _ <-|intros ? <-]|].
    intros ?. apply ptriple_change; auto. }
  intros ?. apply ptriple_clean.
  - apply (ptriple_bind _ _ _ _ (fun _ => held)).
    { apply ptriple_change; [|done|auto]. intros e He. split; [auto|by rewrite lookup_insert_eq]. }
    intros ?. apply (ptriple_bind _ _ _ _ (fun _ => held)); [by apply ptriple_change; [|intros ? []..]|].
    intros ?. apply (ptriple_bind _ _ _ _ (fun _ => done)); [|by intros ?; apply ptriple_change; [|apply Hdone..]].
    apply (ptriple_bind _ _ _ _ (fun x e => held e /\ x = Regular b)).
    { apply ptriple_peek; [|by intros ? []]. intros x e Hx [He Hb]. apply then_Ok in Hx as [_ Hl%ok_or_Ok]. split; [by split|]. congruence. }
    intros x. assert (Hm : forall e, held e /\ x = Regular b -> done (<[name := x]> (delete temporary e))).
    { intros e [[[Hu _] _] ->]. split_and!.
      - intros n Hn. rewrite lookup_insert_ne, lookup_delete_ne by set_solver. by apply Hu.
      - by rewrite lookup_insert_eq.
      - by rewrite lookup_insert_ne, lookup_delete_eq. }
    apply ptriple_change; [done|by intros e [[? _] _]|]. intros e He. by apply Hdone, Hm.
  - assert (Hd : forall e, left e -> left (delete temporary e)).
    { intros e [Hu Hl]. split; [|by rewrite lookup_delete_ne]. intros n Hn. rewrite lookup_delete_ne by set_solver. by apply Hu. }
    by apply ptriple_change.
Qed.

(** One check at a time, and the next an hour after the last ended. *)
Lemma one_check_at_a_time schedule schedule' now :
  begin_check schedule = (schedule', Ok tt) ->
  (begin_check schedule').2 = Err ConcurrentCheck
  /\ (begin_check (finish_check now schedule')).2 = Ok tt
  /\ forall later, is_due later (finish_check now schedule') = true <-> now + UPDATE_INTERVAL_SECONDS <= later.
Proof.
  unfold begin_check. destruct (us_check_in_progress schedule); intros [= <-]. simpl. split_and!; [done|done|].
  intros later. apply N.leb_le.
Qed.

(** ** Witnesses *)

(** URLs given by their parts, versions that are numbers, times in nanoseconds, a
    digest of zeros, and a signature that repeats the bytes. *)
Record SampleUrl := mkSampleUrl { su_scheme : bytes; su_host : option bytes }.
#[local] Instance sample_urls : UrlCode := {|
  Url := SampleUrl;
  url_scheme := su_scheme;
  url_port_or_known_default _ := Some 443;
  url_username _ := [];
  url_password _ := None;
  url_host_str := su_host;
|}.
#[local] Instance sample_versions : VersionCode := {|
  Version := N;
  version_parse := parse_uint u64_max;
  version_cmp := N.compare;
  VersionReq := N;
  version_req_parse := parse_uint u64_max;
  version_req_matches range v := range <=? v;
|}.
#[local] Instance sample_version_laws : VersionLaws sample_versions.
Proof. split; intros a b; [apply N.compare_eq_iff|apply N.compare_antisym]. Defined.
#[local] Instance sample_times : TimeCode := {| rfc3339_parse s := Z.of_N <$> parse_uint u64_max s |}.
#[local] Instance sample_digests : DigestCode := {| sha256 _ := zeros 32; base64_standard_decode := Some |}.
#[local] Instance sample_verifier : SignatureVerifier := {| verify b signature := bool_decide (b = signature) |}.
#[local] Instance sample_feed : FeedCode sample_urls := {|
  wallet_manifest_to_json _ := Some [];
  node_manifest_to_json _ := Some [];
  peer_payload_to_json p := Some (show p.(pmp_sequence));
  signed_peers_to_json _ := None;
  signed_peers_from_json _ := None;
|}.

Definition sample_bytes_sent : bytes := str "binary".
Definition sample_artifact : ArtifactDescriptor :=
  mkArtifactDescriptor (str "linux") (str "x86_64") (mkSampleUrl (str "https") (Some (str "github.com")))
    (hex (zeros 32)) 6 sample_bytes_sent.
Definition sample_manifest (v : bytes) : WalletManifest :=
  mkWalletManifest 1 UPDATE_CHANNEL v (str "10") (str "1000") (str "1") false false false
    (mkSampleUrl (str "https") (Some (str "github.com"))) [] (str "r") (str "1") (str "n") (str "mainnet") 1
    [sample_artifact] (str "s").
Definition sample_policy : WalletPolicy :=
  mkWalletPolicy (str "2") UPDATE_CHANNEL (str "linux") (str "x86_64") (str "mainnet") 4.
Definition sample_node_identity : NodeIdentity :=
  mkNodeIdentity (str "3") (str "rev") (str "mainnet") (str "chain") (str "genesis") 1 1 1.
Definition sample_node_manifest : NodeManifest :=
  mkNodeManifest 1 UPDATE_CHANNEL (str "3") (str "rev") 8 (str "10") (str "1000") (str "mainnet") (str "chain")
    (str "genesis") 1 1 1 (str "1") false true false sample_artifact (str "s").

Definition sample_peers : SignedPeerManifest :=
  mkSignedPeerManifest
    (mkPeerManifestPayload 1 (str "mainnet") (str "chain") (str "genesis") (str "10") (str "1000") 7
       [str "8.8.8.8:33369"; str "10.0.0.1:33369"; str "8.8.8.8:33369"; str "[2a01:4f8::7]:33369"]) (str "7").

(** A staging directory of the root, and a sender that gives two chunks; each read
    takes one unit of time. *)
Definition sample_root : path := [RootDir; Normal (str "staging")].
Definition sample_target : path := sample_root ++ [Normal (str "artifact")].
#[local] Instance sample_world_paths : PathWorld := {|
  symlink_metadata p := if bool_decide (p = sample_root) then Some IsDirectory else None;
  canonicalize p := Some p;
|}.
Definition sample_read (r : N * list bytes) : (N * list bytes) * option bytes :=
  match r.2 with [] => ((r.1 + 1, []), Some []) | chunk :: chunks => ((r.1 + 1, chunks), Some chunk) end.
Definition sample_elapsed (r : N * list bytes) : (N * list bytes) * N := (r, r.1).
Definition sample_next (_ : N) (r : N * list bytes) : (N * list bytes) * NextChunk :=
  match r.2 with [] => (r, StreamEnded) | chunk :: chunks => ((r.1 + 1, chunks), StreamChunk chunk) end.
Definition sample_response : result SendError Response :=
  Ok (mkResponse true (mkSampleUrl (str "https") (Some (str "objects.githubusercontent.com"))) (Some 6)).
Definition download_run (asynchronous : bool) (chunks : list bytes) :=
  download sample_read sample_elapsed sample_next true (fun r => (r, sample_response)) (fun _ r => (r, Some sample_response))
    asynchronous 8 sample_artifact sample_root sample_target ArtifactDownloadTimeouts_default
    ((0, chunks), mkStagingFile None []).

Lemma downloads_are_verified_witness :
  (download_run false [str "bin"; str "ary"]).2 = Some (Ok sample_bytes_sent)
  /\ (download_run false [str "bin"; str "aries"]) = ((2, []), mkStagingFile None [], Some (Err ArtifactTooLarge))
  /\ holding (download_run false [str "bin"; str "ary"]).1.2 sample_bytes_sent
  /\ genuine sample_artifact sample_bytes_sent.
Proof.
  assert (H : download_run false [str "bin"; str "ary"]
              = ((3, []), mkStagingFile (Some sample_bytes_sent) [], Some (Ok sample_bytes_sent))) by (vm_compute; reflexivity).
  split; [by rewrite H|]. split; [vm_compute; reflexivity|].
  pose proof (downloads_are_verified sample_read sample_elapsed sample_next true (fun r => (r, sample_response))
                (fun _ r => (r, Some sample_response)) false 8 sample_artifact sample_root sample_target
                ArtifactDownloadTimeouts_default ((0, [str "bin"; str "ary"]), mkStagingFile None [])
                ((3, []), mkStagingFile (Some sample_bytes_sent) []) (Some (Ok sample_bytes_sent)) H) as (Hh & Hg & _).
  rewrite H. split; [exact Hh|exact Hg].
Defined.

(** A backend whose new node comes up with [healthy] health. *)
#[local] Instance sample_node (healthy : bool) : NodeUpdateBackend bool := {|
  critical_operation_active b := (b, false);
  stop_miner b := (b, Ok tt);
  persist_wallet_cursor_and_journal b := (b, Ok tt);
  stop_node b := (b, Ok 10);
  process_is_stopped _ b := (b, true);
  local_ports_released b := (b, true);
  promote_staged_node _ := (true, Ok tt);
  start_node b := (b, Ok 11);
  handshake b := (b, Ok sample_node_identity);
  node_ready b := (b, negb b || healthy);
  cursor_is_canonical b := (b, true);
  connected_peers b := (b, 3);
  rollback _ := (false, Ok tt);
  expected_previous_identity b := (b, sample_node_identity);
|}.

Lemma node_updates_follow_their_protocol_witness :
  exists log, apply_node_update (backend := logged (backend := sample_node false)) sample_node_manifest (false, [])
              = ((false, log), Ok RolledBack)
    /\ (exists calls pid expected,
          log = calls ++ [CallRollback (Ok tt); CallStart (Ok pid); CallPrevious expected; CallHandshake (Ok expected);
                          CallReady true])
    /\ (exists log', apply_node_update (backend := logged (backend := sample_node true)) sample_node_manifest (false, [])
                     = ((true, log'), Ok Succeeded)).
Proof.
  eexists. split; [vm_compute; reflexivity|]. split; [|eexists; vm_compute; reflexivity].
  eapply (node_updates_follow_their_protocol (backend := sample_node false) sample_node_manifest false false);
    [vm_compute; reflexivity|reflexivity].
Defined.
