(* ===== verification/NodeRuntime.v ===== *)
(** * The directories of the node runtime

    [stage_verified_node] and [promote_staged_node] of [NodeRuntimeLayout] in
    crates/dom-wallet-updater/src/lib.rs: a verified binary is written to a directory
    of its own below staging, and moved as a whole below nodes.  Every call may fail,
    before or after its effect, as in Directories. *)

From S2P Require Import Prelude Bytes Codecs DomainTypes Storage Directories Updater.
Import UErr.

(** ** The tree *)

(** What a name below staging or nodes stands for. *)
Inductive StagedEntry :=
| StagedDirectory (files : gmap bytes bytes)
| StagedFile
| StagedLink (target_exists : bool).
(** [rt_staging_linked]: staging itself is a symbolic link; [rt_root_binary]: a file
    with the name of the node's binary lies in the root. *)
Record RuntimeTree := mkRuntimeTree {
  rt_staging : gmap bytes StagedEntry;
  rt_nodes : gmap bytes StagedEntry;
  rt_staging_linked : bool;
  rt_root_binary : bool;
  rt_faults : list Fault;
}.
#[global] Instance RuntimeTree_fields : FieldList RuntimeTree := fun r =>
  mkRuntimeTree r.(rt_staging) r.(rt_nodes) r.(rt_staging_linked) r.(rt_root_binary) r.(rt_faults).
Abbreviation runtime_op := (method RuntimeTree UpdateError).

(** A call that changes the tree, or cannot. *)
Definition tree_call (f : RuntimeTree -> option RuntimeTree) : runtime_op unit := fun t =>
  let change (faults : list Fault) (r : res unit) :=
    match f (t <| rt_faults := faults |>) with
    | Some t => (t, r)
    | None => (t <| rt_faults := faults |>, Err StateIo)
    end in
  match t.(rt_faults) with
  | [] => change [] (Ok tt)
  | Fine :: faults => change faults (Ok tt)
  | Before _ :: faults => (t <| rt_faults := faults |>, Err StateIo)
  | After _ :: faults => change faults (Err StateIo)
  end.
Definition no_effect : runtime_op unit := tree_call Some.

(** Work on the files of one directory below staging. *)
Definition in_stage (name : bytes) (f : gmap bytes bytes -> option (gmap bytes bytes)) : RuntimeTree -> option RuntimeTree := fun t =>
  match t.(rt_staging) !! name with
  | Some (StagedDirectory files) =>
      match f files with
      | Some files => Some (t <| rt_staging := <[name := StagedDirectory files]> t.(rt_staging) |>)
      | None => None
      end
  | _ => None
  end.

Definition node_binary_name : bytes := str "dom-node".
Definition staging_directory (root : path) : path := root ++ [Normal (str "staging")].
Definition nodes_directory (root : path) : path := root ++ [Normal (str "nodes")].

(** What [symlink_metadata] finds below the root. *)
Definition entry_kind (e : StagedEntry) : FileKind :=
  match e with StagedDirectory _ => IsDirectory | StagedFile => IsFile | StagedLink _ => IsSymlink end.
Definition runtime_metadata (root : path) (t : RuntimeTree) (p : path) : option FileKind :=
  match strip_components root p with
  | Some [Normal d] => if bool_decide (d = str "staging") then Some (if t.(rt_staging_linked) then IsSymlink else IsDirectory)
                       else if bool_decide (d = str "nodes") then Some IsDirectory else None
  | Some [Normal d; Normal name] =>
      if bool_decide (d = str "staging") then entry_kind <$> t.(rt_staging) !! name
      else if bool_decide (d = str "nodes") then entry_kind <$> t.(rt_nodes) !! name else None
  | _ => None
  end.
(** [path.exists()] *)
Definition entry_exists (e : option StagedEntry) : bool :=
  match e with Some (StagedLink b) => b | Some _ => true | None => false end.

(** ** Staging and promoting *)

Section runtime.
Context {version : VersionCode} {url : UrlCode} {digest : DigestCode}.
Context (pid : N) (root : path).

Definition stage_name (directory_name : bytes) (sequence : N) : bytes :=
  directory_name ++ str "." ++ show pid ++ str "." ++ show sequence.

(** The components of [stage] below the root; a version has no separator. *)
Definition validate_stage (name : bytes) (t : RuntimeTree) : res unit :=
  let world := {| symlink_metadata := runtime_metadata root t; canonicalize := Some |} in
  validate_runtime_destination (world := world) root [Normal (str "staging"); Normal name].

Definition stage_verified_node (sequence : N) (node_version revision b : bytes) (artifact : ArtifactDescriptor)
    : runtime_op path :=
  mread (fun _ => validate_download b artifact) ;;;
  let! directory_name := mread (fun _ => validated_node_directory_name node_version revision) in
  let name := stage_name directory_name sequence in
  mread (validate_stage name) ;;;
  tree_call (fun t => if is_some (t.(rt_staging) !! name) then None
                      else Some (t <| rt_staging := <[name := StagedDirectory ∅]> t.(rt_staging) |>)) ;;;
  no_effect ;;;
  tree_call (in_stage name (fun files => if is_some (files !! node_binary_name) then None
                                         else Some (<[node_binary_name := []]> files))) ;;;
  (fun t =>
     match (tree_call (in_stage name (fun files => Some (<[node_binary_name := b]> files))) ;;; no_effect) t with
     | (t, Err error) =>
         let t := (tree_call (in_stage name (fun files => Some (delete node_binary_name files))) t).1 in
         let t := (tree_call (fun t => match t.(rt_staging) !! name with
                                       | Some (StagedDirectory files) =>
                                           if bool_decide (files = ∅)
                                           then Some (t <| rt_staging := delete name t.(rt_staging) |>) else None
                                       | _ => None
                                       end) t).1 in
         (t, Err error)
     | (t, Ok _) => (t, Ok tt)
     end) ;;;
  no_effect ;;;
  mret (staging_directory root ++ [Normal name]).

(** The entry that [stage] names; [..] names the root, which cannot be moved into
    itself. *)
Definition promote_staged_node (stage : path) (node_version revision : bytes) : runtime_op path :=
  let! directory_name := mread (fun _ => validated_node_directory_name node_version revision) in
  mread (fun _ => fail_if (negb (bool_decide (parent stage = Some (staging_directory root)))) UnsafePath) ;;;
  match last stage with
  | Some (Normal name) =>
      mread (fun t => fail_if (match t.(rt_staging) !! name with
                               | Some (StagedDirectory files) => negb (is_some (files !! node_binary_name))
                               | _ => true
                               end) UnsafePath) ;;;
      mread (fun t => fail_if (entry_exists (t.(rt_nodes) !! directory_name)) UnsafePath) ;;;
      tree_call (fun t =>
        match t.(rt_staging) !! name, t.(rt_nodes) !! directory_name with
        | Some e, None => Some (t <| rt_staging := delete name t.(rt_staging) |>
                                  <| rt_nodes := <[directory_name := e]> t.(rt_nodes) |>)
        | _, _ => None
        end) ;;;
      no_effect ;;;
      mret (nodes_directory root ++ [Normal directory_name])
  | _ =>
      mread (fun t => fail_if (negb t.(rt_root_binary)) UnsafePath) ;;;
      mread (fun t => fail_if (entry_exists (t.(rt_nodes) !! directory_name)) UnsafePath) ;;;
      mread (fun _ => Err StateIo)
  end.
End runtime.

(** ** What is staged and promoted *)

Section proofs.
Context {version : VersionCode} {url : UrlCode} {digest : DigestCode}.
Context (pid : N) (root : path).

(** The names below nodes, and those below staging but for one. *)
Definition nodes_kept (t t' : RuntimeTree) : Prop := t'.(rt_nodes) = t.(rt_nodes).
#[export] Instance nodes_kept_preorder : PreOrder nodes_kept.
Proof. split; [by intros t|]. unfold nodes_kept. intros x y z -> ->. done. Qed.

Lemma tree_call_run f t t' r :
  tree_call f t = (t', r) ->
  exists faults, (r = Err StateIo /\ t' = t <| rt_faults := faults |>) \/ f (t <| rt_faults := faults |>) = Some t'.
Proof.
  unfold tree_call. intros H. destruct t.(rt_faults) as [|[|kind|kind] faults].
  - exists []. destruct (f _) eqn:E; injection H as <- <-; auto.
  - exists faults. destruct (f _) eqn:E; injection H as <- <-; auto.
  - exists faults. left. by injection H as <- <-.
  - exists faults. destruct (f _) eqn:E; injection H as <- <-; auto.
Qed.
Lemma tree_call_Ok f t t' :
  tree_call f t = (t', Ok tt) -> exists faults, f (t <| rt_faults := faults |>) = Some t'.
Proof. intros (faults & [[[=] _]|H])%tree_call_run. by exists faults. Qed.
Lemma no_effect_Ok t t' : no_effect t = (t', Ok tt) -> exists faults, t' = t <| rt_faults := faults |>.
Proof. intros (faults & [= <-])%tree_call_Ok. by exists faults. Qed.

Lemma tree_call_keeps f :
  (forall t t', f t = Some t' -> nodes_kept t t') -> moves nodes_kept (tree_call f).
Proof.
  intros Hf t t' r (faults & [[_ ->]|H])%tree_call_run; [done|]. apply Hf in H. exact H.
Qed.
Lemma in_stage_keeps name f t t' : in_stage name f t = Some t' -> nodes_kept t t'.
Proof.
  unfold in_stage. destruct (_ !! name) as [[files| |]|]; try done. destruct (f files); [|done]. by intros [= <-].
Qed.
Lemma in_stage_run name f t t' files files' :
  in_stage name f t = Some t' -> t.(rt_staging) !! name = Some (StagedDirectory files) -> f files = Some files' ->
  t'.(rt_staging) = <[name := StagedDirectory files']> t.(rt_staging).
Proof. unfold in_stage. intros H Hf E. rewrite Hf, E in H. by injection H as <-. Qed.
End proofs.

Lemma mread_keeps {A} (f : RuntimeTree -> res A) : moves nodes_kept (mread f).
Proof. by intros t t' r [= <- _]. Qed.

Section staging.
Context {version : VersionCode} {url : UrlCode} {digest : DigestCode}.
Context (pid : N) (root : path).

(** Staging touches no promoted node, whatever fails. *)
Lemma staging_keeps_nodes sequence node_version revision b artifact :
  moves nodes_kept (stage_verified_node pid root sequence node_version revision b artifact).
Proof.
  assert (Hn : moves nodes_kept no_effect) by (apply tree_call_keeps; by intros t t' [= <-]).
  unfold stage_verified_node. apply (moves_mthen nodes_kept); [apply mread_keeps|intros _].
  apply (moves_mthen nodes_kept); [apply mread_keeps|intros d]. cbv zeta.
  apply (moves_mthen nodes_kept); [apply mread_keeps|intros _].
  apply (moves_mthen nodes_kept).
  { apply tree_call_keeps. intros t t'. destruct (is_some _); [done|]. by intros [= <-]. }
  intros _. apply (moves_mthen nodes_kept); [done|intros _].
  apply (moves_mthen nodes_kept); [apply tree_call_keeps, in_stage_keeps|intros _].
  apply (moves_mthen nodes_kept).
  2:{ intros _. apply (moves_mthen nodes_kept); [done|intros _]. by intros t t' r [= <- _]. }
  intros t t' r. destruct (mthen _ _ t) as [t1 [u|e]] eqn:E;
    (eapply (moves_mthen nodes_kept) in E; [|apply tree_call_keeps, in_stage_keeps|by intros _]).
  - by intros [= <- _].
  - destruct (tree_call _ t1) as [t2 r2] eqn:E2. apply tree_call_keeps in E2; [|apply in_stage_keeps].
    simpl. destruct (tree_call _ t2) as [t3 r3] eqn:E3. intros [= <- _].
    apply tree_call_keeps in E3; [unfold nodes_kept in *; congruence|].
    intros t4 t5. destruct (_ !! _) as [[files| |]|]; try done. destruct (bool_decide _); [|done].
    by intros [= <-].
Qed.

(** A staged directory is new and holds the binary alone. *)
Lemma staged_run sequence node_version revision b artifact t t' stage :
  stage_verified_node pid root sequence node_version revision b artifact t = (t', Ok stage) ->
  validate_download b artifact = Ok tt
  /\ exists d, validated_node_directory_name node_version revision = Ok d
       /\ let name := stage_name pid d sequence in
          stage = staging_directory root ++ [Normal name] /\ t.(rt_staging) !! name = None
          /\ t'.(rt_staging) = <[name := StagedDirectory {[node_binary_name := b]}]> t.(rt_staging).
Proof.
  unfold stage_verified_node. intros (t1 & [] & [= <- Hd] & H)%mthen_Ok.
  apply mthen_Ok in H as (t2 & d & [= <- Hname] & H). cbv zeta in H.
  apply mthen_Ok in H as (t3 & [] & [= <- _] & H). apply mthen_Ok in H as (t4 & [] & H4 & H).
  apply tree_call_Ok in H4 as (f4 & H4). simpl in H4. destruct (t.(rt_staging) !! _) eqn:Hnew; [done|].
  injection H4 as <-. apply mthen_Ok in H as (t5 & [] & H5 & H). apply no_effect_Ok in H5 as (f5 & ->).
  apply mthen_Ok in H as (t6 & [] & H6 & H). apply tree_call_Ok in H6 as (f6 & H6).
  eapply in_stage_run in H6; [|apply lookup_insert_eq|done].
  apply mthen_Ok in H as (t7 & [] & H7 & H). destruct (mthen _ _ t6) as [t8 [[]|e]] eqn:H8; [|done].
  injection H7 as <-. apply mthen_Ok in H8 as (t9 & [] & H9 & H8). apply tree_call_Ok in H9 as (f9 & H9).
  apply no_effect_Ok in H8 as (f8 & ->).
  eapply in_stage_run in H9; [|simpl; rewrite H6; apply lookup_insert_eq|done].
  apply mthen_Ok in H as (t10 & [] & H10 & H). apply no_effect_Ok in H10 as (f10 & ->). injection H as <- <-.
  split; [done|]. exists d. split; [done|]. split; [done|]. split; [done|].
  simpl in *. rewrite H9, H6. by rewrite !insert_insert_eq.
Qed.

Lemma staging_parent name : parent (staging_directory root ++ [Normal name]) = Some (staging_directory root).
Proof. unfold parent. rewrite last_snoc. by rewrite removelast_last. Qed.

(** A promotion moves a whole staged directory to a name that was free. *)
Lemma promoted_run name node_version revision t t' destination :
  promote_staged_node root (staging_directory root ++ [Normal name]) node_version revision t = (t', Ok destination) ->
  exists d e, validated_node_directory_name node_version revision = Ok d
    /\ destination = nodes_directory root ++ [Normal d]
    /\ t.(rt_staging) !! name = Some e /\ t.(rt_nodes) !! d = None
    /\ t'.(rt_nodes) = <[d := e]> t.(rt_nodes) /\ t'.(rt_staging) = delete name t.(rt_staging).
Proof.
  unfold promote_staged_node. intros (t1 & d & [= <- Hname] & H)%mthen_Ok.
  apply mthen_Ok in H as (t2 & [] & [= <- _] & H). rewrite last_snoc in H.
  apply mthen_Ok in H as (t3 & [] & [= <- _] & H). apply mthen_Ok in H as (t4 & [] & [= <- _] & H).
  apply mthen_Ok in H as (t5 & [] & H5 & H). apply tree_call_Ok in H5 as (f5 & H5). simpl in H5.
  destruct (t.(rt_staging) !! name) as [e|] eqn:He; [|done].
  destruct (t.(rt_nodes) !! d) eqn:Hn; [done|]. injection H5 as <-.
  apply mthen_Ok in H as (t6 & [] & H6 & H). apply no_effect_Ok in H6 as (f6 & ->). injection H as <- <-.
  exists d, e. repeat (split; [done|]). done.
Qed.

(** A node that was staged and then promoted, with anything else done in between, is
    the directory named by its version and revision, and holds nothing but the bytes
    whose size and digest were those of the artifact. *)
Theorem promoted_nodes_hold_the_verified_binary sequence node_version revision b artifact t t1 t2 t' stage destination :
  stage_verified_node pid root sequence node_version revision b artifact t = (t1, Ok stage) ->
  (forall name, stage = staging_directory root ++ [Normal name] -> t2.(rt_staging) !! name = t1.(rt_staging) !! name) ->
  promote_staged_node root stage node_version revision t2 = (t', Ok destination) ->
  validate_download b artifact = Ok tt
  /\ exists d, validated_node_directory_name node_version revision = Ok d
       /\ destination = nodes_directory root ++ [Normal d] /\ t2.(rt_nodes) !! d = None
       /\ t'.(rt_nodes) = <[d := StagedDirectory {[node_binary_name := b]}]> t2.(rt_nodes).
Proof.
  intros (Hd & d & Hname & -> & _ & E1)%staged_run Hkept
    (d' & e & Hname' & -> & He & Hn & E2 & _)%promoted_run.
  rewrite Hname in Hname'. injection Hname' as <-. rewrite (Hkept _ eq_refl), E1, lookup_insert_eq in He.
  injection He as <-. split; [done|]. exists d. auto.
Qed.
End staging.
