(* ===== verification/NodeManager.v ===== *)
(** * The sidecar node manager

    [NodeManager] of crates/dom-wallet-node-manager/src/lib.rs, as built for Unix:
    enabling the experiment, starting and stopping the node process, and promoting a
    signed release with its rollback.  Files, processes and requests are calls of a
    host, and so is the store of dom-sidecar; the runtime's own state file lies in a
    [Place]. *)

From S2P Require Import Prelude Bytes Codecs DomainTypes Storage Directories Peers Updater.
Import UErr.

(** ** Data *)

Definition EXPERIMENTAL_ENABLE_CONFIRMATION : bytes := str "ENABLE EXPERIMENTAL DOM SIDECAR FOR THIS SESSION".
(** Milliseconds. *)
Definition STARTUP_TIMEOUT : N := 30000.
Definition SHUTDOWN_TIMEOUT : N := 30000.
Definition PORTS_TIMEOUT : N := 5000.
Definition POLL_INTERVAL : N := 50.
Definition PRIMARY_MINISIGN_KEY : bytes := str "RWTwnDDKlXoZdG3obVRiLPfVRHr17E0Fj2GN8IZ2rBkipRZvIIW6PLJ3".
Definition RESERVE_MINISIGN_KEY : bytes := str "RWRRwawN8s3VG9LgG8OAHG62mtfF/udZJ7OblMXpcDiHh74inGACfwKC".

Module Side.
Inductive SidecarLifecycle :=
| Disabled | Enabled | Starting | Ready | Stopping | Promoting | RollingBack | RolledBack | Failed.
#[global] Instance SidecarLifecycle_eq_dec : EqDecision SidecarLifecycle.
Proof. solve_decision. Defined.
End Side.

Module NErr.
Inductive NodeManagerError :=
| Disabled | WalletLocked | ConfirmationMismatch | RuntimeNotConfigured | AlreadyRunning | NoActiveSidecar
| InvalidConfiguration | UnsafeBinary | StartupFailed | StartupTimeout | IdentityMismatch | ShutdownFailed
| TrustRootMismatch | MissingNodeFeed | NodeFeedMismatch | NodeUpdateNotAvailable
| Update (error : UpdateError) | Release | Io | Rpc.
End NErr.
Abbreviation nres := (result NErr.NodeManagerError).

(** [NodeIdentity] of this crate. *)
Record SidecarIdentity := mkSidecarIdentity {
  sid_node_version : bytes;
  sid_node_revision : bytes;
  sid_network : bytes;
  sid_chain_id : bytes;
  sid_genesis_hash : bytes;
  sid_rpc_protocol_version : N;
  sid_p2p_protocol_version : N;
  sid_storage_schema_version_supported : N;
  sid_storage_schema_version_on_disk : N;
  sid_height : N;
}.

(** [RunningIdentity] and [SidecarManifest] of dom-sidecar. *)
Record RunningIdentity := mkRunningIdentity {
  rid_network : bytes;
  rid_chain_id : bytes;
  rid_genesis_hash : bytes;
  rid_storage_schema_version_on_disk : N;
  rid_rpc_protocol_version : N;
  rid_p2p_protocol_version : N;
}.
Record SidecarArtifact := mkSidecarArtifact {
  sda_platform : bytes;
  sda_sha256 : bytes;
  sda_url : bytes;
}.
Record SidecarManifest := mkSidecarManifest {
  sdm_version : bytes;
  sdm_revision : bytes;
  sdm_network : bytes;
  sdm_chain_id : bytes;
  sdm_genesis_hash : bytes;
  sdm_rpc_protocol_version : N;
  sdm_p2p_protocol_version : N;
  sdm_storage_schema_version_supported : N;
  sdm_published_at : bytes;
  sdm_artifacts : list SidecarArtifact;
}.

Definition promotion_identity (self : SidecarIdentity) : RunningIdentity :=
  mkRunningIdentity self.(sid_network) self.(sid_chain_id) self.(sid_genesis_hash)
    self.(sid_storage_schema_version_on_disk) self.(sid_rpc_protocol_version)
    self.(sid_p2p_protocol_version).

Record ManagedNodeConfig := mkManagedNodeConfig {
  mnc_network : bytes;
  mnc_data_directory : path;
  mnc_rpc_address : SocketAddr;
  mnc_p2p_address : SocketAddr;
  mnc_seed_peers : list SocketAddr;
}.

(** [IpAddr::is_loopback] and the port. *)
Definition loopback_with_port (address : SocketAddr) : bool :=
  match address with
  | SocketV4 ip port => (ip.(v4_a) =? 127) && negb (port =? 0)
  | SocketV6 ip port _ => is_loopback ip && negb (port =? 0)
  end.

(** [ManagedNodeConfig::validate] *)
Definition configuration_validate (self : ManagedNodeConfig) : nres unit :=
  fail_if (negb (bool_decide (self.(mnc_network) ∈ [str "mainnet"; str "testnet"; str "regtest"])))
          NErr.InvalidConfiguration ;?
  fail_if (negb (loopback_with_port self.(mnc_rpc_address))) NErr.InvalidConfiguration ;?
  fail_if (negb (loopback_with_port self.(mnc_p2p_address))) NErr.InvalidConfiguration ;?
  fail_if (is_empty self.(mnc_data_directory)) NErr.InvalidConfiguration.

(** A process is known by its number. *)
Record RunningNode := mkRunningNode {
  rn_child : N;
  rn_token : bytes;
  rn_config : ManagedNodeConfig;
  rn_identity : SidecarIdentity;
}.

Record NodeManager := mkNodeManager {
  nm_enabled_for_session : bool;
  nm_runtime_root : option path;
  nm_lifecycle : Side.SidecarLifecycle;
  nm_running : option RunningNode;
  nm_previous_revision : option bytes;
  nm_last_identity : option SidecarIdentity;
  nm_sanitized_error : option string;
}.
#[global] Instance NodeManager_fields : FieldList NodeManager := fun r =>
  mkNodeManager r.(nm_enabled_for_session) r.(nm_runtime_root) r.(nm_lifecycle) r.(nm_running)
    r.(nm_previous_revision) r.(nm_last_identity) r.(nm_sanitized_error).
Definition NodeManager_default : NodeManager :=
  mkNodeManager false None Side.Disabled None None None None.

Record SidecarStatus := mkSidecarStatus {
  sst_enabled_for_session : bool;
  sst_lifecycle : Side.SidecarLifecycle;
  sst_pid : option N;
  sst_active_revision : option bytes;
  sst_previous_revision : option bytes;
  sst_identity : option SidecarIdentity;
  sst_sanitized_error : option string;
}.

Record NodeReleaseMetadata := mkNodeReleaseMetadata {
  nrm_node_version : bytes;
  nrm_node_revision : bytes;
  nrm_sequence : N;
}.

(** [NodeManagerError::code] *)
Definition error_code (self : NErr.NodeManagerError) : string :=
  match self with
  | NErr.StartupFailed | NErr.StartupTimeout => "NODE_START_FAILED"
  | NErr.IdentityMismatch => "NODE_IDENTITY_MISMATCH"
  | NErr.ShutdownFailed => "NODE_SHUTDOWN_FAILED"
  | NErr.UnsafeBinary => "NODE_BINARY_UNSAFE"
  | NErr.TrustRootMismatch => "NODE_TRUST_ROOT_MISMATCH"
  | NErr.MissingNodeFeed | NErr.NodeFeedMismatch => "NODE_FEED_INVALID"
  | NErr.NodeUpdateNotAvailable => "NODE_UPDATE_NOT_AVAILABLE"
  | NErr.Update DowngradeRejected => "UPDATE_DOWNGRADE_REJECTED"
  | NErr.Update _ => "NODE_UPDATE_POLICY_REJECTED"
  | NErr.Release => "NODE_RELEASE_REJECTED"
  | _ => "NODE_MANAGER_FAILED"
  end.

(** ** The runtime tree *)

Record Metadata := mkMetadata { md_kind : FileKind; md_uid : N; md_mode : N }.
(** What [symlink_metadata] and [read_dir] find below a path. *)
Inductive Tree := mkTree (metadata : Metadata) (entries : list (bytes * Tree)).
Definition tree_metadata (t : Tree) : Metadata := let 'mkTree m _ := t in m.

Definition is_symlink (m : Metadata) : bool := match m.(md_kind) with IsSymlink => true | _ => false end.
Definition is_dir (m : Metadata) : bool := match m.(md_kind) with IsDirectory => true | _ => false end.
Definition is_file (m : Metadata) : bool := match m.(md_kind) with IsFile => true | _ => false end.
(** [mode & 0o022 != 0] *)
Definition writable_by_others (m : Metadata) : bool := negb (N.land m.(md_mode) 0x12 =? 0).
Definition unsafe_path_kind (m : Metadata) : bool := is_symlink m.

Fixpoint validate_runtime_entries (expected_owner : N) (t : Tree) : nres unit :=
  let 'mkTree _ entries := t in
  (fix go entries :=
     match entries with
     | [] => Ok tt
     | (_, entry) :: entries =>
         let metadata := tree_metadata entry in
         fail_if (unsafe_path_kind metadata) NErr.UnsafeBinary ;?
         fail_if (negb (metadata.(md_uid) =? expected_owner) || writable_by_others metadata)
                 NErr.UnsafeBinary ;?
         (if is_dir metadata then validate_runtime_entries expected_owner entry else Ok tt) ;?
         go entries
     end) entries.

(** ** What surrounds the manager *)

(** The command that is spawned: its environment is cleared and has only these. *)
Record NodeCommand := mkNodeCommand {
  cmd_binary : path;
  cmd_network : bytes;
  cmd_data_directory : path;
  cmd_rpc_address : SocketAddr;
  cmd_rpc_token : bytes;
  cmd_p2p_address : SocketAddr;
  cmd_seed_peers : list SocketAddr;
}.
Record BuildInfo := mkBuildInfo {
  bi_node_version : bytes;
  bi_node_revision : bytes;
  bi_rpc_protocol_version : N;
  bi_p2p_protocol_version : N;
  bi_storage_schema_version_supported : N;
}.
Record NetworkInfo := mkNetworkInfo {
  ni_network : bytes;
  ni_chain_id : bytes;
  ni_genesis_hash : bytes;
  ni_storage_schema_version_on_disk : N;
  ni_height : N;
}.

Inductive IoFailure := IoFailed.
Inductive SidecarFailure := SidecarFailed.

(** Calls of the operating system, of the store of dom-sidecar and of the node's
    RPC.  [clock] is in milliseconds and [sleep] lasts at least as long as asked. *)
Class NodeHost (B : Type) := {
  look : path -> method B IoFailure Tree;
  path_exists : path -> B -> B * bool;
  create_directories : path -> method B IoFailure unit;
  set_permissions : path -> N -> method B IoFailure unit;
  probe_owner : path -> method B IoFailure N;
  store_current_revision : path -> method B SidecarFailure (option bytes);
  store_binary_path : path -> bytes -> method B SidecarFailure path;
  store_install : path -> bytes -> bytes -> method B SidecarFailure unit;
  store_promote : path -> bytes -> method B SidecarFailure unit;
  store_rollback : path -> bytes -> method B SidecarFailure unit;
  store_backup : path -> path -> method B SidecarFailure path;
  store_restore : path -> path -> path -> method B SidecarFailure unit;
  spawn : NodeCommand -> method B IoFailure N;
  has_exited : N -> method B IoFailure bool;
  kill : N -> method B IoFailure unit;
  wait : N -> method B IoFailure unit;
  http_client : N -> B -> B * bool;
  rpc_health : SocketAddr -> B -> B * bool;
  rpc_build_info : SocketAddr -> bytes -> B -> B * option BuildInfo;
  rpc_network_info : SocketAddr -> bytes -> B -> B * option NetworkInfo;
  rpc_shutdown : SocketAddr -> bytes -> B -> B * option N;
  port_is_free : SocketAddr -> B -> B * bool;
  clock : B -> B * N;
  sleep : N -> B -> B;
  draw_token : B -> B * bytes;
  now_utc : B -> B * Z;
  next_sequence : B -> B * N;
  process_id : N;
}.

(** The pure functions of dom-sidecar, the formats and the build's constants. *)
Class SidecarCode (url : UrlCode) := {
  verify_minisign : bytes -> bytes -> bool;
  verify_manifest : option bytes -> option bytes -> option SidecarManifest;
  verify_release : option bytes -> option bytes -> bytes -> bytes -> bytes -> RunningIdentity ->
    option SidecarManifest;
  verify_promotion_identity : SidecarManifest -> RunningIdentity -> bool;
  sidecar_primary_key : bytes;
  sidecar_reserve_key : bytes;
  node_manifest_from_json : bytes -> option (@NodeManifest url);
  runtime_state_from_json : bytes -> option NodeRuntimeState;
  rfc3339_format : Z -> option bytes;
  url_as_str : @Url url -> bytes;
  package_version : bytes;
  target_os : bytes;
  target_architecture : bytes;
}.

(** ** Processes *)

Record ValidatedNodeFeed {url : UrlCode} := mkValidatedNodeFeed { vnf_manifest : NodeManifest }.
Arguments mkValidatedNodeFeed {url} _.
Arguments vnf_manifest {url} _.

Section manager.
Context {url : UrlCode} {B : Type} {host : NodeHost B} {sidecar : SidecarCode url}.
Context {version : VersionCode} {time : TimeCode} {digest : DigestCode} {feed : FeedCode url}.
Context {state_code : UpdaterStateCode}.

(** Work on the host, and on the manager beside the host and its state file. *)
Abbreviation hosted A := (method B NErr.NodeManagerError A) (only parsing).
Definition Surroundings : Type := B * Place.
Definition Desk : Type := NodeManager * Surroundings.
Abbreviation managed A := (method Desk NErr.NodeManagerError A) (only parsing).

(** An error converted by the question mark. *)
Definition host_io {A} (m : method B IoFailure A) : hosted A := fun b =>
  let '(b, r) := m b in (b, map_err r NErr.Io).
Definition from_store {A} (m : method B SidecarFailure A) : hosted A := fun b =>
  let '(b, r) := m b in (b, map_err r NErr.Release).
(** A call without an error, and [let _ =]. *)
Definition ask_host {A} (f : B -> B * A) : hosted A := fun b => let '(b, a) := f b in (b, Ok a).
Definition ignoring {A} (m : hosted A) : hosted unit := fun b => ((m b).1, Ok tt).
Definition lift_host {A} (r : nres A) : hosted A := fun b => (b, r).

Definition validate_runtime_tree (root : path) : hosted unit :=
  let! tree := host_io (look root) in
  let metadata := tree_metadata tree in
  lift_host (fail_if (negb (is_dir metadata) || unsafe_path_kind metadata) NErr.UnsafeBinary) ;;;
  let! process_owner := host_io (probe_owner root) in
  lift_host (fail_if (negb (process_owner =? metadata.(md_uid)) || writable_by_others metadata)
                 NErr.UnsafeBinary) ;;;
  lift_host (validate_runtime_entries metadata.(md_uid) tree).

(** Directories get 0700, executables 0700 and other files 0600. *)
Fixpoint harden (root : path) (t : Tree) : hosted unit :=
  let 'mkTree metadata entries := t in
  lift_host (fail_if (unsafe_path_kind metadata) NErr.UnsafeBinary) ;;;
  host_io (set_permissions root 0x1c0) ;;;
  (fix go entries :=
     match entries with
     | [] => mret tt
     | (name, entry) :: entries =>
         let entry_path := root ++ [Normal name] in
         lift_host (fail_if (unsafe_path_kind (tree_metadata entry)) NErr.UnsafeBinary) ;;;
         (if is_dir (tree_metadata entry) then
            host_io (set_permissions entry_path 0x1c0) ;;; harden entry_path entry
          else host_io (set_permissions entry_path
                     (if starts_with (str "dom-node-") name then 0x1c0 else 0x180))) ;;;
         go entries
     end) entries ;;;
  validate_runtime_tree root.
Definition harden_runtime_permissions (root : path) : hosted unit :=
  let! tree := host_io (look root) in harden root tree.

(** The parent lies in the tree that was validated just before, so it is no link. *)
Definition validate_binary (binary : path) : hosted unit :=
  let! tree := host_io (look binary) in
  let metadata := tree_metadata tree in
  lift_host (fail_if (is_symlink metadata || negb (is_file metadata)) NErr.UnsafeBinary) ;;;
  let! directory := lift_host (ok_or (parent binary) NErr.UnsafeBinary) in
  let! parent_tree := host_io (look directory) in
  lift_host (fail_if (writable_by_others metadata
                  || negb (metadata.(md_uid) =? (tree_metadata parent_tree).(md_uid)))
                 NErr.UnsafeBinary).

(** A loop that polls every fifty milliseconds until a deadline has no more turns
    than this: after that many sleeps the deadline has passed. *)
Definition turns (timeout : N) : nat := N.to_nat (timeout / POLL_INTERVAL).

Definition identity_of (build : BuildInfo) (network : NetworkInfo) : SidecarIdentity :=
  mkSidecarIdentity build.(bi_node_version) build.(bi_node_revision) network.(ni_network)
    network.(ni_chain_id) network.(ni_genesis_hash) build.(bi_rpc_protocol_version)
    build.(bi_p2p_protocol_version) build.(bi_storage_schema_version_supported)
    network.(ni_storage_schema_version_on_disk) network.(ni_height).

Fixpoint poll_identity (n : nat) (child : N) (rpc_address : SocketAddr) (token : bytes) (deadline : N)
    : hosted SidecarIdentity :=
  let! exited := host_io (has_exited child) in
  lift_host (fail_if exited NErr.StartupFailed) ;;;
  let! healthy := ask_host (rpc_health rpc_address) in
  let! found :=
    if healthy : bool then
      let! build := ask_host (rpc_build_info rpc_address token) in
      let! network := ask_host (rpc_network_info rpc_address token) in
      mret (match build, network with
            | Some build, Some network => Some (identity_of build network)
            | _, _ => None
            end)
    else mret None in
  match found with
  | Some identity => mret identity
  | None =>
      let! now := ask_host clock in
      if deadline <=? now then lift_host (Err NErr.StartupTimeout)
      else match n with
      | O => lift_host (Err NErr.StartupTimeout)
      | S n => fun b => poll_identity n child rpc_address token deadline (sleep POLL_INTERVAL b)
      end
  end.
Definition wait_for_identity (child : N) (rpc_address : SocketAddr) (token : bytes) (timeout : N)
    : hosted SidecarIdentity :=
  let! built := ask_host (http_client 2000) in
  lift_host (fail_if (negb built) NErr.Rpc) ;;;
  let! now := ask_host clock in
  poll_identity (turns timeout) child rpc_address token (now + timeout).

(** [addresses.iter().all(..)] stops at the first port in use. *)
Fixpoint all_free (addresses : list SocketAddr) : hosted bool :=
  match addresses with
  | [] => mret true
  | address :: addresses =>
      let! free := ask_host (port_is_free address) in
      if free : bool then all_free addresses else mret false
  end.
Fixpoint poll_ports (n : nat) (addresses : list SocketAddr) (deadline : N) : hosted unit :=
  let! free := all_free addresses in
  if free : bool then mret tt
  else
    let! now := ask_host clock in
    if deadline <=? now then lift_host (Err NErr.ShutdownFailed)
    else match n with
    | O => lift_host (Err NErr.ShutdownFailed)
    | S n => fun b => poll_ports n addresses deadline (sleep POLL_INTERVAL b)
    end.
Definition wait_until_ports_released (addresses : list SocketAddr) (timeout : N) : hosted unit :=
  let! now := ask_host clock in
  poll_ports (turns timeout) addresses (now + timeout).

Fixpoint poll_exit (n : nat) (child deadline : N) : hosted unit :=
  let! exited := host_io (has_exited child) in
  if exited : bool then mret tt
  else
    let! now := ask_host clock in
    let kill_it := host_io (kill child) ;;; host_io (wait child) ;;; lift_host (Err NErr.ShutdownFailed) in
    if deadline <=? now then kill_it
    else match n with
    | O => kill_it
    | S n => fun b => poll_exit n child deadline (sleep POLL_INTERVAL b)
    end.
Definition stop_process (running : RunningNode) : hosted unit :=
  let child := running.(rn_child) in
  let! built := ask_host (http_client 3000) in
  lift_host (fail_if (negb built) NErr.Rpc) ;;;
  let! response := ask_host (rpc_shutdown running.(rn_config).(mnc_rpc_address) running.(rn_token)) in
  if negb (bool_decide (response = Some 202)) then
    ignoring (host_io (kill child)) ;;; ignoring (host_io (wait child)) ;;; lift_host (Err NErr.ShutdownFailed)
  else
    let! now := ask_host clock in
    poll_exit (turns SHUTDOWN_TIMEOUT) child (now + SHUTDOWN_TIMEOUT) ;;;
    wait_until_ports_released [running.(rn_config).(mnc_rpc_address); running.(rn_config).(mnc_p2p_address)]
      PORTS_TIMEOUT.

Definition node_command (binary : path) (configuration : ManagedNodeConfig) (token : bytes) : NodeCommand :=
  mkNodeCommand binary configuration.(mnc_network) configuration.(mnc_data_directory)
    configuration.(mnc_rpc_address) token configuration.(mnc_p2p_address) configuration.(mnc_seed_peers).

Definition start_process (runtime_root binary : path) (configuration : ManagedNodeConfig)
    (expected_revision : option bytes) : hosted RunningNode :=
  validate_runtime_tree runtime_root ;;;
  lift_host (fail_if (negb (is_some (strip_components runtime_root binary))) NErr.UnsafeBinary) ;;;
  validate_binary binary ;;;
  let! token := ask_host draw_token in
  host_io (create_directories configuration.(mnc_data_directory)) ;;;
  let! child := host_io (spawn (node_command binary configuration token)) in
  let awaited := wait_for_identity child configuration.(mnc_rpc_address) token STARTUP_TIMEOUT in
  fun b => match awaited b with
  | (b, Err error) => (ignoring (host_io (kill child)) ;;; ignoring (host_io (wait child)) ;;; lift_host (Err error)) b
  | (b, Ok identity) =>
      let running := mkRunningNode child token configuration identity in
      (if is_some_and expected_revision (fun revision => differs identity.(sid_node_revision) revision)
       then ignoring (stop_process running) ;;; lift_host (Err NErr.IdentityMismatch)
       else mret running) b
  end.

(** ** The manager *)

Definition on_host {A} (m : hosted A) : managed A := fun s =>
  let '(self, (b, p)) := s in let '(b, r) := m b in ((self, (b, p)), r).
Definition on_state_file {A} (m : disk_op A) : managed A := fun s =>
  let '(self, (b, p)) := s in
  let '(p, r) := m p in
  ((self, (b, p)), match r with Ok a => Ok a | Err e => Err (NErr.Update e) end).
Definition read_self {A} (f : NodeManager -> nres A) : managed A := fun s => (s, f s.1).
Definition assign (f : NodeManager -> NodeManager) : managed unit := fun s => ((f s.1, s.2), Ok tt).
Definition updated {A} (r : res A) : managed A := fun s =>
  (s, match r with Ok a => Ok a | Err e => Err (NErr.Update e) end).

Definition enforce_canonical_key_match : nres unit :=
  fail_if (differs PRIMARY_MINISIGN_KEY sidecar_primary_key
           || differs RESERVE_MINISIGN_KEY sidecar_reserve_key) NErr.TrustRootMismatch.

Definition require_enabled : managed unit :=
  read_self (fun self => fail_if (negb self.(nm_enabled_for_session)) NErr.Disabled).
Definition runtime_root_path : managed path :=
  read_self (fun self => ok_or self.(nm_runtime_root) NErr.RuntimeNotConfigured).
(** [SidecarStore::new(root)], which is its root. *)
Definition runtime_store : managed path :=
  let! root := runtime_root_path in
  on_host (validate_runtime_tree root) ;;;
  mret root.

Definition configure_runtime (runtime_root : path) : managed unit :=
  on_host (let! exists_ := ask_host (path_exists runtime_root) in
           (if exists_ : bool then
              let! tree := host_io (look runtime_root) in
              lift_host (fail_if (is_symlink (tree_metadata tree)) NErr.UnsafeBinary)
            else mret tt) ;;;
           host_io (create_directories runtime_root) ;;;
           host_io (set_permissions runtime_root 0x1c0) ;;;
           validate_runtime_tree runtime_root) ;;;
  assign (fun self => self <| nm_runtime_root := Some runtime_root |>).

Definition enable_for_session (confirmation : bytes) (wallet_is_unlocked : bool) : managed unit :=
  read_self (fun _ =>
    fail_if (negb wallet_is_unlocked) NErr.WalletLocked ;?
    fail_if (differs confirmation EXPERIMENTAL_ENABLE_CONFIRMATION) NErr.ConfirmationMismatch ;?
    enforce_canonical_key_match) ;;;
  assign (fun self => self <| nm_enabled_for_session := true |> <| nm_lifecycle := Side.Enabled |>
                           <| nm_sanitized_error := None |>).

Definition shutdown : managed unit := fun s =>
  match s.1.(nm_running) with
  | None => (s, Ok tt)
  | Some running =>
      let self := s.1 <| nm_running := None |> <| nm_lifecycle := Side.Stopping |> in
      match on_host (stop_process running) (self, s.2) with
      | ((self, w), Ok _) =>
          ((self <| nm_lifecycle := if self.(nm_enabled_for_session) then Side.Enabled else Side.Disabled |>
                 <| nm_sanitized_error := None |>, w), Ok tt)
      | ((self, w), Err error) =>
          ((self <| nm_lifecycle := Side.Failed |> <| nm_sanitized_error := Some "NODE_SHUTDOWN_FAILED"%string |>, w),
           Err error)
      end
  end.

Definition disable_for_session : managed unit :=
  let! running := read_self (fun self => Ok (is_some self.(nm_running))) in
  (if running : bool then shutdown else mret tt) ;;;
  assign (fun self => self <| nm_enabled_for_session := false |> <| nm_lifecycle := Side.Disabled |>).

(** [store().ok().and_then(|store| store.current_revision().ok().flatten())] *)
Definition active_revision : managed (option bytes) := fun s =>
  match (let! root := runtime_store in on_host (from_store (store_current_revision root))) s with
  | (s, Ok revision) => (s, Ok revision)
  | (s, Err _) => (s, Ok None)
  end.

Definition manager_status : managed SidecarStatus :=
  let! running := read_self (fun self => Ok self.(nm_running)) in
  match running with
  | None => mret tt
  | Some running => fun s =>
      match on_host (host_io (has_exited running.(rn_child))) s with
      | ((self, w), Ok true) =>
          ((self <| nm_running := None |> <| nm_lifecycle := Side.Failed |>
                 <| nm_sanitized_error := Some "NODE_PROCESS_EXITED"%string |>, w), Ok tt)
      | (s, Ok false) => (s, Ok tt)
      | ((self, w), Err _) =>
          ((self <| nm_lifecycle := Side.Failed |>
                 <| nm_sanitized_error := Some "NODE_PROCESS_STATUS_FAILED"%string |>, w), Ok tt)
      end
  end ;;;
  let! revision := active_revision in
  read_self (fun self =>
    Ok (mkSidecarStatus self.(nm_enabled_for_session) self.(nm_lifecycle) (rn_child <$> self.(nm_running))
          revision self.(nm_previous_revision)
          (match self.(nm_running) with
           | Some running => Some running.(rn_identity)
           | None => self.(nm_last_identity)
           end) self.(nm_sanitized_error))).

(** A process that was started and answers. *)
Definition take_over (running : RunningNode) (lifecycle : Side.SidecarLifecycle) (error : option string)
    : managed unit :=
  assign (fun self => self <| nm_last_identity := Some running.(rn_identity) |>
                           <| nm_running := Some running |> <| nm_lifecycle := lifecycle |>
                           <| nm_sanitized_error := error |>).
Definition fail_with {A} (error : NErr.NodeManagerError) : managed A :=
  assign (fun self => self <| nm_lifecycle := Side.Failed |>
                           <| nm_sanitized_error := Some (error_code error) |>) ;;;
  read_self (fun _ => Err error).
(** The outcome of work, as a value. *)
Definition attempt_call {A} (m : managed A) : managed (nres A) := fun s => let '(s, r) := m s in (s, Ok r).

Definition start_active (configuration : ManagedNodeConfig) : managed SidecarIdentity :=
  require_enabled ;;;
  read_self (fun self => fail_if (is_some self.(nm_running)) NErr.AlreadyRunning) ;;;
  read_self (fun _ => configuration_validate configuration) ;;;
  let! root := runtime_store in
  let! current := on_host (from_store (store_current_revision root)) in
  let! revision := read_self (fun _ => ok_or current NErr.NoActiveSidecar) in
  let! binary := on_host (from_store (store_binary_path root revision)) in
  assign (fun self => self <| nm_lifecycle := Side.Starting |>) ;;;
  let! started := attempt_call (on_host (start_process root binary configuration (Some revision))) in
  match started with
  | Ok running => take_over running Side.Ready None ;;; mret running.(rn_identity)
  | Err error => fail_with error
  end.

(** *** Feeds *)

(** [NodeRuntimeLayout::initialize] of dom-wallet-updater. *)
Definition runtime_layout_initialize (root : path) : method B UpdateError unit := fun b =>
  let state_io {A} (m : method B IoFailure A) : method B UpdateError A :=
    fun b => let '(b, r) := m b in (b, map_err r StateIo) in
  let linked : method B UpdateError bool := fun b =>
    match look root b with
    | (b, Ok tree) => (b, Ok (is_symlink (tree_metadata tree)))
    | (b, Err _) => (b, Ok false)
    end in
  (let! link := linked in
   mread (fun _ => fail_if link UnsafePath) ;;;
   state_io (create_directories (root ++ [Normal (str "staging")])) ;;;
   state_io (create_directories (root ++ [Normal (str "nodes")])) ;;;
   state_io (set_permissions root 0x1c0) ;;;
   state_io (set_permissions (root ++ [Normal (str "staging")]) 0x1c0) ;;;
   state_io (set_permissions (root ++ [Normal (str "nodes")]) 0x1c0)) b.
Definition runtime_layout : managed unit :=
  let! root := runtime_root_path in
  fun s => let '(self, (b, p)) := s in
           let '(b, r) := runtime_layout_initialize root b in
           ((self, (b, p)), match r with Ok a => Ok a | Err e => Err (NErr.Update e) end).

(** The state file of the runtime, read whole. *)
Definition load_runtime_state : managed (option NodeRuntimeState) :=
  runtime_layout ;;;
  on_state_file (fun p =>
    match entry NODE_STATE_FILE p with
    | (p, Ok None) => (p, Ok None)
    | (p, Ok (Some (Regular b))) =>
        (p, let? state := ok_or (runtime_state_from_json b) StateIo in Ok (Some state))
    | (p, _) => (p, Err StateIo)
    end).

Definition compatibility_of (current_identity : SidecarIdentity) (update_sequence : N) : NodeCompatibility :=
  mkNodeCompatibility package_version current_identity.(sid_node_version)
    current_identity.(sid_node_revision) update_sequence current_identity.(sid_network)
    current_identity.(sid_chain_id) current_identity.(sid_genesis_hash)
    current_identity.(sid_rpc_protocol_version) current_identity.(sid_p2p_protocol_version)
    current_identity.(sid_storage_schema_version_on_disk) target_os target_architecture.

Definition validate_node_feed_policy (manifest : NodeManifest) (current_identity : SidecarIdentity) (now : Z)
    : managed NodeManifest :=
  let! previous_state := load_runtime_state in
  read_self (fun _ => fail_if (is_some_and previous_state (fun state =>
    differs state.(nrs_active_revision) current_identity.(sid_node_revision)
    || differs state.(nrs_active_version) current_identity.(sid_node_version))) NErr.NodeFeedMismatch) ;;;
  let! decision := updated (validate_node_manifest manifest
    (compatibility_of current_identity (from_option nrs_update_sequence 0 previous_state)) now) in
  match decision with
  | NodeAvailable _ => mret manifest
  | NodeUpToDate | WalletUpdateRequired => read_self (fun _ => Err NErr.NodeUpdateNotAvailable)
  end.

Definition evaluate_signed_node_feed (node_feed_bytes : option bytes) (current_identity : SidecarIdentity)
    : managed ValidatedNodeFeed :=
  let! manifest := read_self (fun _ =>
    let? b := ok_or node_feed_bytes NErr.MissingNodeFeed in
    let? manifest := ok_or (node_manifest_from_json b) (NErr.Update ManifestInvalid) in
    let signature := manifest.(nman_manifest_signature) in
    fail_if (is_blank signature) (NErr.Update SignatureInvalid) ;?
    let? canonical := ok_or (node_manifest_to_json (manifest <| nman_manifest_signature := [] |>))
                            (NErr.Update ManifestInvalid) in
    fail_if (negb (verify_minisign canonical signature)) NErr.Release ;?
    Ok manifest) in
  let! now := on_host (ask_host now_utc) in
  let! manifest := validate_node_feed_policy manifest current_identity now in
  mret (mkValidatedNodeFeed manifest).

Definition bind_node_feed_to_sidecar (node_feed : NodeManifest) (manifest : SidecarManifest)
    (platform artifact_signature : bytes) : nres unit :=
  let artifact := node_feed.(nman_artifact) in
  let? sidecar_artifact := ok_or (List.find (fun a => bool_decide (a.(sda_platform) = platform))
                                    manifest.(sdm_artifacts)) NErr.NodeFeedMismatch in
  fail_if (differs platform (artifact.(ad_target) ++ str "-" ++ artifact.(ad_architecture))
           || differs node_feed.(nman_node_version) manifest.(sdm_version)
           || differs node_feed.(nman_node_revision) manifest.(sdm_revision)
           || differs node_feed.(nman_network) manifest.(sdm_network)
           || differs node_feed.(nman_chain_id) manifest.(sdm_chain_id)
           || differs node_feed.(nman_genesis_hash) manifest.(sdm_genesis_hash)
           || negb (node_feed.(nman_rpc_protocol_version) =? manifest.(sdm_rpc_protocol_version))
           || negb (node_feed.(nman_p2p_protocol_version) =? manifest.(sdm_p2p_protocol_version))
           || negb (node_feed.(nman_storage_schema_version)
                    =? manifest.(sdm_storage_schema_version_supported))
           || differs node_feed.(nman_published_at) manifest.(sdm_published_at)
           || differs artifact.(ad_sha256) sidecar_artifact.(sda_sha256)
           || differs (url_as_str artifact.(ad_url)) sidecar_artifact.(sda_url)
           || differs artifact.(ad_signature) artifact_signature) NErr.NodeFeedMismatch.

Definition next_runtime_state (node_feed : NodeManifest) (current_identity : SidecarIdentity)
    (installed_at : Z) : res NodeRuntimeState :=
  let artifact := node_feed.(nman_artifact) in
  let compatibility :=
    mkNodeCompatibility package_version node_feed.(nman_node_version) node_feed.(nman_node_revision)
      node_feed.(nman_sequence) node_feed.(nman_network) node_feed.(nman_chain_id)
      node_feed.(nman_genesis_hash) node_feed.(nman_rpc_protocol_version)
      node_feed.(nman_p2p_protocol_version) node_feed.(nman_storage_schema_version)
      artifact.(ad_target) artifact.(ad_architecture) in
  let? installed := ok_or (rfc3339_format installed_at) StateIo in
  Ok (mkNodeRuntimeState 1 node_feed.(nman_node_version) node_feed.(nman_node_revision)
        (Some current_identity.(sid_node_version)) (Some current_identity.(sid_node_revision)) installed
        artifact.(ad_sha256) (str "PINNED_DOM_SIDECAR_RELEASE_KEYS") compatibility
        node_feed.(nman_sequence) None).

Definition evaluate_running_signed_release_metadata (node_feed_bytes manifest_bytes manifest_signature : option bytes)
    (platform : bytes) : managed NodeReleaseMetadata :=
  let! manifest := read_self (fun _ => ok_or (verify_manifest manifest_bytes manifest_signature) NErr.Release) in
  let! current := read_self (fun self => ok_or (rn_identity <$> self.(nm_running)) NErr.NoActiveSidecar) in
  let! validated := evaluate_signed_node_feed node_feed_bytes current in
  let node_feed := validated.(vnf_manifest) in
  read_self (fun _ => bind_node_feed_to_sidecar node_feed manifest platform
                        node_feed.(nman_artifact).(ad_signature)) ;;;
  mret (mkNodeReleaseMetadata node_feed.(nman_node_version) node_feed.(nman_node_revision)
          node_feed.(nman_sequence)).

(** *** Promotions *)

(** The candidate after its start: what it says it is, and the record of the
    promotion.  A layout that fails leaves the whole promotion by its question mark,
    with the candidate running and known to nobody. *)
Definition check_candidate (manifest : SidecarManifest) (runtime_state : option NodeRuntimeState)
    (running : RunningNode) : managed (nres RunningNode) :=
  if negb (verify_promotion_identity manifest (promotion_identity running.(rn_identity))) then
    on_host (ignoring (stop_process running)) ;;; mret (Err NErr.Release)
  else match runtime_state with
  | None => mret (Ok running)
  | Some state =>
      runtime_layout ;;;
      let! sequence := on_host (ask_host next_sequence) in
      let! persisted := attempt_call (on_state_file (persist_node_runtime_state process_id sequence state)) in
      match persisted with
      | Err error => on_host (ignoring (stop_process running)) ;;; mret (Err error)
      | Ok _ => mret (Ok running)
      end
  end.

(** After a candidate that failed: back to the previous revision and its data. *)
Definition roll_back (root : path) (previous : option bytes) (backup : option path)
    (configuration : ManagedNodeConfig) (candidate_error : NErr.NodeManagerError) : managed unit :=
  assign (fun self => self <| nm_lifecycle := Side.RollingBack |>) ;;;
  let! failed := read_self (fun self => Ok self.(nm_running)) in
  match failed with
  | Some failed =>
      assign (fun self => self <| nm_running := None |>) ;;; on_host (ignoring (stop_process failed))
  | None => mret tt
  end ;;;
  let restore :=
    match backup with
    | Some backup => on_host (from_store (store_restore root backup configuration.(mnc_data_directory)))
    | None => mret tt
    end in
  match previous with
  | Some previous =>
      on_host (from_store (store_rollback root previous)) ;;;
      on_host (harden_runtime_permissions root) ;;;
      restore ;;;
      let! binary := on_host (from_store (store_binary_path root previous)) in
      let! restored := on_host (start_process root binary configuration (Some previous)) in
      take_over restored Side.RolledBack (Some (error_code candidate_error))
  | None =>
      restore ;;;
      assign (fun self => self <| nm_lifecycle := Side.Failed |>
                               <| nm_sanitized_error := Some (error_code candidate_error) |>)
  end.

Definition promote_verified (manifest : SidecarManifest) (artifact : bytes) (configuration : ManagedNodeConfig)
    (runtime_state : option NodeRuntimeState) : managed SidecarIdentity :=
  let! root := runtime_store in
  let! previous := on_host (from_store (store_current_revision root)) in
  let! running := read_self (fun self => Ok (is_some self.(nm_running))) in
  (if running : bool then shutdown else mret tt) ;;;
  let! has_data := on_host (ask_host (path_exists configuration.(mnc_data_directory))) in
  let! backup := if has_data : bool then
                   let! b := on_host (from_store (store_backup root configuration.(mnc_data_directory))) in
                   mret (Some b)
                 else mret None in
  on_host (from_store (store_install root manifest.(sdm_revision) artifact)) ;;;
  assign (fun self => self <| nm_lifecycle := Side.Promoting |> <| nm_previous_revision := previous |>) ;;;
  on_host (from_store (store_promote root manifest.(sdm_revision))) ;;;
  on_host (harden_runtime_permissions root) ;;;
  let! binary := on_host (from_store (store_binary_path root manifest.(sdm_revision))) in
  let! started := attempt_call (on_host (start_process root binary configuration (Some manifest.(sdm_revision)))) in
  let! candidate := match started with
                    | Ok running => check_candidate manifest runtime_state running
                    | Err error => mret (Err error)
                    end in
  match candidate with
  | Ok running => take_over running Side.Ready None ;;; mret running.(rn_identity)
  | Err candidate_error =>
      roll_back root previous backup configuration candidate_error ;;;
      read_self (fun _ => Err candidate_error)
  end.

Definition promote_signed_release (node_feed : ValidatedNodeFeed) (manifest_bytes manifest_signature : option bytes)
    (platform artifact artifact_signature : bytes) (current_identity : SidecarIdentity)
    (configuration : ManagedNodeConfig) : managed SidecarIdentity :=
  require_enabled ;;;
  read_self (fun _ => enforce_canonical_key_match) ;;;
  read_self (fun _ => configuration_validate configuration) ;;;
  let! now := on_host (ask_host now_utc) in
  let! node_feed := validate_node_feed_policy node_feed.(vnf_manifest) current_identity now in
  updated (validate_download artifact node_feed.(nman_artifact)) ;;;
  let! manifest := read_self (fun _ =>
    ok_or (verify_release manifest_bytes manifest_signature platform artifact artifact_signature
             (promotion_identity current_identity)) NErr.Release) in
  read_self (fun _ => bind_node_feed_to_sidecar node_feed manifest platform artifact_signature) ;;;
  let! now := on_host (ask_host now_utc) in
  let! runtime_state := updated (next_runtime_state node_feed current_identity now) in
  promote_verified manifest artifact configuration (Some runtime_state).

(** What the wallet can ask of its manager, in any order. *)
Inductive ManagerCall :=
| ConfigureRuntime (runtime_root : path)
| EnableForSession (confirmation : bytes) (wallet_is_unlocked : bool)
| DisableForSession
| Shutdown
| Status
| StartActive (configuration : ManagedNodeConfig)
| EvaluateFeed (node_feed_bytes : option bytes) (current_identity : SidecarIdentity)
| EvaluateRelease (node_feed_bytes manifest_bytes manifest_signature : option bytes) (platform : bytes)
| PromoteSignedRelease (node_feed : ValidatedNodeFeed) (manifest_bytes manifest_signature : option bytes)
    (platform artifact artifact_signature : bytes) (current_identity : SidecarIdentity)
    (configuration : ManagedNodeConfig).

(** A call, without its answer. *)
Definition unanswered {A} (m : managed A) : managed unit := let! _ := m in mret tt.
Definition manager_call (call : ManagerCall) : managed unit :=
  match call with
  | ConfigureRuntime root => configure_runtime root
  | EnableForSession confirmation unlocked => enable_for_session confirmation unlocked
  | DisableForSession => disable_for_session
  | Shutdown => shutdown
  | Status => unanswered manager_status
  | StartActive configuration => unanswered (start_active configuration)
  | EvaluateFeed b current => unanswered (evaluate_signed_node_feed b current)
  | EvaluateRelease b manifest signature platform =>
      unanswered (evaluate_running_signed_release_metadata b manifest signature platform)
  | PromoteSignedRelease node_feed manifest signature platform artifact asig current configuration =>
      unanswered (promote_signed_release node_feed manifest signature platform artifact asig current configuration)
  end.
Definition run_manager_calls (calls : list ManagerCall) (s : Desk) : Desk :=
  fold_left (fun s call => (manager_call call s).1) calls s.
End manager.

(** ** What the manager keeps *)

(** What every step keeps: the session is not switched, and a running node stays or
    is let go. *)
Definition settles (self self' : NodeManager) : Prop :=
  self'.(nm_enabled_for_session) = self.(nm_enabled_for_session)
  /\ self'.(nm_runtime_root) = self.(nm_runtime_root)
  /\ (self'.(nm_running) = self.(nm_running) \/ self'.(nm_running) = None).
#[global] Instance settles_preorder : PreOrder settles.
Proof.
  split; [by intros self; repeat split; left|].
  intros x y z (A1 & A2 & A3) (B1 & B2 & B3). split; [congruence|]. split; [congruence|].
  destruct B3 as [->| ->]; auto.
Qed.

Section proofs.
Context {url : UrlCode} {B : Type} {host : NodeHost B} {sidecar : SidecarCode url}.
Context {version : VersionCode} {time : TimeCode} {digest : DigestCode} {feed : FeedCode url}.
Context {state_code : UpdaterStateCode}.

(** Steps that leave the manager itself alone. *)
Definition same_self (s s' : Desk (B := B)) : Prop := s'.1 = s.1.
#[export] Instance same_self_preorder : PreOrder same_self.
Proof. split; [by intros s|]. unfold same_self. intros x y z -> ->. done. Qed.
Definition settling (s s' : Desk (B := B)) : Prop := settles s.1 s'.1.
#[export] Instance settling_preorder : PreOrder settling.
Proof. split; [intros s; unfold settling; reflexivity|]. intros x y z. unfold settling. apply transitivity. Qed.

Lemma on_host_same {A} (m : method B NErr.NodeManagerError A) : moves same_self (on_host m).
Proof.
  intros [self [b p]] s' r. unfold on_host. destruct (m b) as [b' r']. by intros [= <- _].
Qed.
Lemma on_state_file_same {A} (m : disk_op A) : moves same_self (on_state_file (B := B) m).
Proof.
  intros [self [b p]] s' r. unfold on_state_file. destruct (m p) as [p' r']. by intros [= <- _].
Qed.
Lemma read_self_same {A} (f : NodeManager -> nres A) : moves same_self (read_self (B := B) f).
Proof. by intros s s' r [= <- _]. Qed.
Lemma updated_same {A} (r : res A) : moves same_self (updated (B := B) r).
Proof. by intros s s' r' [= <- _]. Qed.
Lemma mret_same {A} (a : A) : moves (E := NErr.NodeManagerError) same_self (mret a).
Proof. by intros s s' r' [= <- _]. Qed.
Lemma attempt_same {A} (m : method Desk NErr.NodeManagerError A) :
  moves same_self m -> moves same_self (attempt_call m).
Proof. intros H s s' r. unfold attempt_call. destruct (m s) as [s1 r1] eqn:E. intros [= <- _]. by apply H in E. Qed.
Lemma same_settles {A} (m : method Desk NErr.NodeManagerError A) : moves same_self m -> moves settling m.
Proof. intros H s s' r Hr. apply H in Hr. unfold settling. rewrite Hr. reflexivity. Qed.

Ltac quiet := repeat first
  [ apply on_host_same | apply on_state_file_same | apply read_self_same | apply updated_same
  | apply mret_same | apply attempt_same
  | lazymatch goal with |- moves _ (mthen _ _) => apply (moves_mthen same_self); [|intros ?] end
  | case_match ].

Lemma store_same : moves same_self runtime_store.
Proof. unfold runtime_store, runtime_root_path. quiet. Qed.
Lemma store_Ok s s' root : runtime_store s = (s', Ok root) -> s.1.(nm_runtime_root) = Some root.
Proof.
  unfold runtime_store, runtime_root_path. intros (s1 & root' & Hr & H)%mthen_Ok. injection Hr as <- Hr%ok_or_Ok.
  apply mthen_Ok in H as (s2 & u & _ & H). injection H as _ <-. exact Hr.
Qed.
Lemma runtime_layout_same : moves same_self runtime_layout.
Proof.
  unfold runtime_layout, runtime_root_path. apply (moves_mthen same_self); [quiet|].
  intros root [self [b p]] s' r. destruct (runtime_layout_initialize root b) as [b' r']. by intros [= <- _].
Qed.
Lemma load_runtime_state_same : moves same_self load_runtime_state.
Proof. unfold load_runtime_state. apply (moves_mthen same_self); [apply runtime_layout_same|]. intros _. quiet. Qed.
Lemma policy_same manifest current now : moves same_self (validate_node_feed_policy manifest current now).
Proof.
  unfold validate_node_feed_policy. apply (moves_mthen same_self); [apply load_runtime_state_same|].
  intros ?. quiet.
Qed.
Lemma evaluate_same b current : moves same_self (evaluate_signed_node_feed b current).
Proof.
  unfold evaluate_signed_node_feed. quiet. apply policy_same.
Qed.
Lemma check_candidate_same manifest state running : moves same_self (check_candidate manifest state running).
Proof. unfold check_candidate. case_match; [quiet|]. case_match; quiet. apply runtime_layout_same. Qed.

(** Follow a run step by step: it stops at the first step, or goes on. *)
Ltac step H s1 a H1 := apply mthen_inv in H as [(? & H & ->)|(s1 & a & H1 & H)].

Lemma assign_run f s s' u : assign (B := B) f s = (s', u) -> s' = (f s.1, s.2) /\ u = Ok tt.
Proof. by intros [= <- <-]. Qed.

Lemma shutdown_run s s' r :
  shutdown s = (s', r) -> settling s s' /\ s'.1.(nm_running) = None.
Proof.
  unfold shutdown. destruct (nm_running s.1) as [running|] eqn:Hr;
    [|intros [= <- _]; split; [reflexivity|done]].
  destruct (on_host (stop_process running) _) as [[self w] [u|e]] eqn:E; intros [= <- _];
    apply on_host_same in E; unfold same_self in E; simpl in E; subst self; unfold settling, settles; simpl; auto.
Qed.
Lemma shutdown_settles : moves settling shutdown.
Proof. intros s s' r H. by apply shutdown_run in H as [? _]. Qed.

Lemma start_process_Ok root binary configuration revision b b' running :
  start_process root binary configuration (Some revision) b = (b', Ok running) ->
  running.(rn_config) = configuration /\ running.(rn_identity).(sid_node_revision) = revision.
Proof.
  unfold start_process. intros (b1 & u1 & _ & H)%mthen_Ok. apply mthen_Ok in H as (b2 & u2 & _ & H).
  apply mthen_Ok in H as (b3 & u3 & _ & H). apply mthen_Ok in H as (b4 & token & _ & H).
  apply mthen_Ok in H as (b5 & u5 & _ & H). apply mthen_Ok in H as (b6 & child & _ & H).
  destruct (wait_for_identity _ _ _ _ _) as [b7 [identity|e]].
  - simpl in H. destruct (differs _ _) eqn:E.
    + by apply mthen_Ok in H as (? & ? & _ & [=]).
    + injection H as _ <-. by bool_inv.
  - apply mthen_Ok in H as (? & ? & _ & H). by apply mthen_Ok in H as (? & ? & _ & [=]).
Qed.

Lemma on_host_Ok {A} (m : method B NErr.NodeManagerError A) s s' a :
  on_host m s = (s', Ok a) -> s'.1 = s.1 /\ s'.2.2 = s.2.2 /\ exists b b', m b = (b', Ok a).
Proof.
  destruct s as [self [b p]]. unfold on_host. destruct (m b) as [b' r] eqn:E. intros [= <- ->]. eauto.
Qed.

Lemma from_store_Ok {A} (m : method B SidecarFailure A) b b' a :
  from_store m b = (b', Ok a) -> m b = (b', Ok a).
Proof. unfold from_store. destruct (m b) as [b1 [x|e]]; by intros [= -> ->]. Qed.

(** A promotion that was undone: the store points back to the previous revision,
    whose node runs again. *)
Definition rolled_back_to_previous (self self' : NodeManager) (configuration : ManagedNodeConfig)
    (error : NErr.NodeManagerError) : Prop :=
  self'.(nm_enabled_for_session) = self.(nm_enabled_for_session)
  /\ self'.(nm_runtime_root) = self.(nm_runtime_root)
  /\ self'.(nm_lifecycle) = Side.RolledBack /\ self'.(nm_sanitized_error) = Some (error_code error)
  /\ exists running, self'.(nm_running) = Some running /\ running.(rn_config) = configuration
       /\ self'.(nm_previous_revision) = Some running.(rn_identity).(sid_node_revision)
       /\ exists root b b', self.(nm_runtime_root) = Some root
            /\ store_rollback root running.(rn_identity).(sid_node_revision) b = (b', Ok tt).

Lemma settles_lifecycle self lifecycle : settles self (self <| nm_lifecycle := lifecycle |>).
Proof. unfold settles. auto. Qed.

(** A quiet step either ends the run, with the manager as it was, or is passed. *)
Lemma then_same {A C} (m : method Desk NErr.NodeManagerError A) (k : A -> method Desk NErr.NodeManagerError C) s s' r :
  moves same_self m -> mthen m k s = (s', r) ->
  s'.1 = s.1 \/ exists s1 a, m s = (s1, Ok a) /\ s1.1 = s.1 /\ k a s1 = (s', r).
Proof.
  intros Hm H. apply mthen_inv in H as [(e & H & ->)|(s1 & a & H1 & H)].
  - left. by apply Hm in H.
  - right. exists s1, a. split; [done|]. split; [by apply Hm in H1|done].
Qed.
Lemma then_assign {C} f (k : unit -> method Desk NErr.NodeManagerError C) s :
  mthen (assign (B := B) f) k s = k tt (f s.1, s.2).
Proof. done. Qed.
Lemma settling_same (s s1 s2 : Desk (B := B)) : s2.1 = s1.1 -> settling s s1 -> settling s s2.
Proof. unfold settling. by intros ->. Qed.

(** The way back to the previous revision and its data. *)
Definition restore_data (root : path) (backup : option path) (configuration : ManagedNodeConfig) :=
  match backup with
  | Some backup => on_host (from_store (store_restore root backup configuration.(mnc_data_directory)))
  | None => mret tt
  end.
Lemma restore_data_same root backup configuration : moves same_self (restore_data root backup configuration).
Proof. unfold restore_data. quiet. Qed.

Lemma let_failed_go s s' r :
  (match nm_running s.1 with
   | Some failed => assign (fun self => self <| nm_running := None |>) ;;;
                    on_host (ignoring (stop_process failed))
   | None => mret tt
   end) (s.1 <| nm_lifecycle := Side.RollingBack |>, s.2) = (s', r) ->
  settling s s' /\ s'.1.(nm_previous_revision) = s.1.(nm_previous_revision).
Proof.
  destruct (nm_running s.1) as [failed|].
  - intros H. unfold mthen, assign in H. apply on_host_same in H. unfold settling. rewrite H.
    unfold settles. simpl. auto.
  - intros [= <- _]. split; [apply settles_lifecycle|done].
Qed.

Lemma roll_back_run root backup configuration error s s' r :
  s.1.(nm_runtime_root) = Some root ->
  roll_back root s.1.(nm_previous_revision) backup configuration error s = (s', r) ->
  settling s s' \/ r = Ok tt /\ rolled_back_to_previous s.1 s'.1 configuration error.
Proof.
  unfold roll_back. rewrite then_assign. unfold mthen at 1, read_self at 1. intros Hroot H.
  change (nm_running _) with (nm_running s.1) in H at 1.
  apply mthen_inv in H as [(e & H & ->)|(s2 & u & H2 & H)]; [left; by apply let_failed_go in H as [? _]|].
  apply let_failed_go in H2 as [Hs Hp]. fold (restore_data root backup configuration) in H.
  assert (Hquiet : forall s3, s3.1 = s2.1 -> settling s s3) by (intros s3 E; by eapply settling_same).
  destruct (nm_previous_revision s.1) as [previous|] eqn:Eprev.
  - apply then_same in H as [H|(s3 & u3 & Hroll & E3 & H)]; [auto| |apply on_host_same].
    apply on_host_Ok in Hroll as (_ & _ & b3 & b3' & Hroll%from_store_Ok). destruct u3.
    apply then_same in H as [H|(s4 & u4 & _ & E4 & H)]; [left; apply Hquiet; congruence| |apply on_host_same].
    apply then_same in H as [H|(s5 & u5 & _ & E5 & H)];
      [left; apply Hquiet; congruence| |apply restore_data_same].
    apply then_same in H as [H|(s6 & u6 & _ & E6 & H)]; [left; apply Hquiet; congruence| |apply on_host_same].
    apply then_same in H as [H|(s7 & restored & Hst & E7 & H)];
      [left; apply Hquiet; congruence| |apply on_host_same].
    apply on_host_Ok in Hst as (_ & _ & b & b' & [Hc Hrev]%start_process_Ok).
    injection H as <- <-. right. split; [done|]. assert (E : s7.1 = s2.1) by congruence.
    destruct Hs as (E1 & E2 & _). unfold rolled_back_to_previous. simpl. rewrite E.
    repeat (split; [done|]). exists restored. split; [done|]. split; [done|]. split; [congruence|].
    exists root, b3, b3'. split; [done|]. by rewrite Hrev.
  - left. apply then_same in H as [H|(s3 & u3 & _ & E3 & H)]; [auto| |apply restore_data_same].
    injection H as <- _. unfold settling, settles in *. simpl. by rewrite E3.
Qed.

(** What a promotion promises. *)
Definition promoted (self self' : NodeManager) (place : Place) (manifest : SidecarManifest)
    (configuration : ManagedNodeConfig) (runtime_state : option NodeRuntimeState)
    (identity : SidecarIdentity) : Prop :=
  self'.(nm_enabled_for_session) = self.(nm_enabled_for_session)
  /\ self'.(nm_runtime_root) = self.(nm_runtime_root)
  /\ self'.(nm_lifecycle) = Side.Ready
  /\ identity.(sid_node_revision) = manifest.(sdm_revision)
  /\ verify_promotion_identity manifest (promotion_identity identity) = true
  /\ (exists running, self'.(nm_running) = Some running /\ running.(rn_config) = configuration
       /\ running.(rn_identity) = identity)
  /\ forall state, runtime_state = Some state -> exists json,
       runtime_state_to_json state = Some json
       /\ place.(pl_entries) !! NODE_STATE_FILE = Some (Regular json).

Lemma persisted_state pid sequence state p p' u :
  persist_node_runtime_state pid sequence state p = (p', Ok u) ->
  exists json, runtime_state_to_json state = Some json
    /\ p'.(pl_entries) !! NODE_STATE_FILE = Some (Regular json).
Proof.
  unfold persist_node_runtime_state. intros (p1 & json & Hj & H)%mthen_Ok. injection Hj as <- Hj.
  apply ok_or_Ok in Hj. exists json. split; [done|]. unfold as_state_io in H.
  destruct p as [E faults]. destruct (replace_file _ _ _ _) as [p2 [u2|e]] eqn:Hr; [|done].
  injection H as <- _. set (temporary := temporary_name _ _ _) in Hr.
  destruct (E !! temporary) as [x|] eqn:Ht.
  - exfalso. unfold replace_file, create_new_at in Hr. apply mthen_Ok in Hr as (p3 & u3 & Hr & _).
    apply mthen_Ok in Hr as (p4 & u4 & Hr & _). unfold peek in Hr. simpl in Hr. rewrite Ht in Hr.
    by destruct faults as [|[]].
  - apply state_files_are_replaced_whole in Hr as [_ [? _]]; [done| |done].
    unfold temporary, temporary_name, NODE_STATE_FILE, str. discriminate.
Qed.

Lemma check_candidate_Ok manifest state running s s' checked :
  check_candidate manifest state running s = (s', Ok (Ok checked)) ->
  checked = running
  /\ verify_promotion_identity manifest (promotion_identity running.(rn_identity)) = true
  /\ forall st, state = Some st -> exists json, runtime_state_to_json st = Some json
      /\ s'.2.2.(pl_entries) !! NODE_STATE_FILE = Some (Regular json).
Proof.
  unfold check_candidate. destruct (verify_promotion_identity _ _) eqn:Hv; simpl.
  2:{ intros (s1 & u & _ & H)%mthen_Ok. by injection H. }
  destruct state as [st|].
  - intros (s1 & u & _ & H)%mthen_Ok. apply mthen_Ok in H as (s2 & sequence & _ & H).
    apply mthen_Ok in H as (s3 & persisted & Hp & H). destruct persisted as [u3|e].
    + injection H as <- <-. split; [done|]. split; [done|]. intros st' [= <-].
      unfold attempt_call, on_state_file in Hp. destruct s2 as [self [b p]].
      destruct (persist_node_runtime_state _ _ _ _) as [p' [v|e]] eqn:E; [|done].
      injection Hp as <- _. simpl. by eapply persisted_state.
    + by apply mthen_Ok in H as (? & ? & _ & [=]).
  - intros [= <- <-]. split; [done|]. split; [done|]. by intros st [=].
Qed.

(** A step that settles ends the run with an error, or is passed. *)
Lemma then_settles {A C} (m : method Desk NErr.NodeManagerError A) (k : A -> method Desk NErr.NodeManagerError C)
    (s0 s s' : Desk (B := B)) r :
  moves settling m -> settling s0 s -> mthen m k s = (s', r) ->
  (settling s0 s' /\ exists e, r = Err e)
  \/ exists s1 a, m s = (s1, Ok a) /\ settling s0 s1 /\ k a s1 = (s', r).
Proof.
  intros Hm H0 H. apply mthen_inv in H as [(e & H & ->)|(s1 & a & H1 & H)].
  - left. apply Hm in H. split; [by etransitivity|by eexists].
  - right. exists s1, a. split; [done|]. apply Hm in H1. split; [by etransitivity|done].
Qed.

(** The outcome of a promotion. *)
Definition promotion_outcome (s s' : Desk (B := B)) (manifest : SidecarManifest) (configuration : ManagedNodeConfig)
    (runtime_state : option NodeRuntimeState) (r : nres SidecarIdentity) : Prop :=
  match r with
  | Ok identity => promoted s.1 s'.1 s'.2.2 manifest configuration runtime_state identity
  | Err e => settling s s' \/ rolled_back_to_previous s.1 s'.1 configuration e
  end.

Lemma ended s s' manifest configuration runtime_state (r : nres SidecarIdentity) :
  settling s s' /\ (exists e, r = Err e) -> promotion_outcome s s' manifest configuration runtime_state r.
Proof. intros [H [e ->]]. by left. Qed.

(** From the switch of the pointer on. *)
Lemma candidate_run root previous backup manifest configuration runtime_state binary s0 s s' r :
  settling s0 s -> s.1.(nm_runtime_root) = Some root -> s.1.(nm_previous_revision) = previous ->
  (let! started := attempt_call (on_host (start_process root binary configuration (Some manifest.(sdm_revision)))) in
   let! candidate := match started with
                     | Ok running => check_candidate manifest runtime_state running
                     | Err error => mret (Err error)
                     end in
   match candidate with
   | Ok running => take_over running Side.Ready None ;;; mret running.(rn_identity)
   | Err candidate_error =>
       roll_back root previous backup configuration candidate_error ;;;
       read_self (fun _ => Err candidate_error)
   end) s = (s', r) ->
  promotion_outcome s0 s' manifest configuration runtime_state r.
Proof.
  intros H0 Hroot <- H.
  apply (then_settles _ _ s0) in H as [H|(s1 & started & Hs & H1 & H)];
    [by apply ended| |apply same_settles; quiet|done].
  unfold attempt_call in Hs. destruct (on_host (start_process _ _ _ _) s) as [s1' o] eqn:Ho.
  injection Hs as <- <-. apply on_host_same in Ho as E1.
  apply (then_settles _ _ s0) in H as [H|(s2 & candidate & Hc & H2 & H)];
    [by apply ended| |apply same_settles; destruct o; [apply check_candidate_same|apply mret_same]|done].
  assert (E2 : s2.1 = s1'.1).
  { destruct o; [by apply check_candidate_same in Hc|by injection Hc as <- _]. }
  destruct candidate as [running|e].
  - injection H as <- <-. destruct o as [started|e]; [|by injection Hc].
    apply on_host_Ok in Ho as (_ & _ & b & b' & [Hcfg Hrev]%start_process_Ok).
    apply check_candidate_Ok in Hc as (-> & Hv & Hst). destruct H2 as (P1 & P2 & _).
    unfold promotion_outcome, promoted. simpl. repeat (split; [done|]). split; [by exists started|done].
  - rewrite <-E1, <-E2 in H. apply mthen_inv in H as [(e' & H & ->)|(s3 & u & H3 & H)].
    + apply roll_back_run in H as [H|[[=] _]]; [left; by transitivity s2|congruence].
    + injection H as <- <-. apply roll_back_run in H3 as [H|[_ (R1 & R2 & R3)]]; [| |congruence].
      * left. by transitivity s2.
      * right. destruct H2 as (P1 & P2 & _). unfold rolled_back_to_previous. rewrite R1, R2, <-P2. done.
Qed.

Lemma promote_verified_run manifest artifact configuration runtime_state s s' r :
  promote_verified manifest artifact configuration runtime_state s = (s', r) ->
  promotion_outcome s s' manifest configuration runtime_state r.
Proof.
  unfold promote_verified. intros H. assert (H0 : settling s s) by reflexivity.
  apply (then_settles _ _ s) in H as [H|(s1 & root & Hroot & H1 & H)];
    [by apply ended| |apply same_settles, store_same|done].
  apply store_Ok in Hroot.
  apply (then_settles _ _ s) in H as [H|(s2 & previous & _ & H2 & H)];
    [by apply ended| |apply same_settles; quiet|done].
  apply (then_settles _ _ s) in H as [H|(s3 & running & _ & H3 & H)];
    [by apply ended| |apply same_settles; quiet|done].
  apply (then_settles _ _ s) in H as [H|(s4 & u4 & _ & H4 & H)];
    [by apply ended| |destruct running; [apply shutdown_settles|apply same_settles; quiet]|done].
  apply (then_settles _ _ s) in H as [H|(s5 & has_data & _ & H5 & H)];
    [by apply ended| |apply same_settles; quiet|done].
  apply (then_settles _ _ s) in H as [H|(s6 & backup & _ & H6 & H)];
    [by apply ended| |apply same_settles; quiet|done].
  apply (then_settles _ _ s) in H as [H|(s7 & u7 & _ & H7 & H)];
    [by apply ended| |apply same_settles; quiet|done].
  rewrite then_assign in H. set (s8 := (_, s7.2)) in H.
  assert (H8 : settling s s8) by (unfold settling, settles in *; simpl; done).
  apply mthen_inv in H as [(e & H & ->)|(s9 & u9 & H9 & H)].
  { apply on_host_same in H. left. by eapply settling_same. }
  apply on_host_same in H9. apply mthen_inv in H as [(e & H & ->)|(s10 & u10 & H10 & H)].
  { apply on_host_same in H. left. eapply settling_same; [|exact H8]. congruence. }
  apply on_host_same in H10. apply mthen_inv in H as [(e & H & ->)|(s11 & binary & H11 & H)].
  { apply on_host_same in H. left. eapply settling_same; [|exact H8]. congruence. }
  apply on_host_same in H11. assert (E : s11.1 = s8.1) by congruence.
  eapply candidate_run; [by eapply settling_same| |by rewrite E|exact H].
  rewrite E. destruct H7 as (_ & H7 & _). etransitivity; [exact H7|exact Hroot].
Qed.

(** *** Signed releases *)

(** The sequence number that the state file records: none before the first. *)
Definition recorded_sequence (place : Place) (sequence : N) : Prop :=
  (place.(pl_entries) !! NODE_STATE_FILE = None /\ sequence = 0)
  \/ exists b state, place.(pl_entries) !! NODE_STATE_FILE = Some (Regular b)
       /\ runtime_state_from_json b = Some state /\ sequence = state.(nrs_update_sequence).

Lemma load_runtime_state_Ok s s' state :
  load_runtime_state s = (s', Ok state) -> recorded_sequence s.2.2 (from_option nrs_update_sequence 0 state).
Proof.
  unfold load_runtime_state. intros (s1 & u & H1 & H)%mthen_Ok.
  assert (Hp : s1.2.2 = s.2.2).
  { unfold runtime_layout in H1. apply mthen_Ok in H1 as (s0 & root & Hr & H1). injection Hr as <- _.
    destruct s as [self [b p]]. destruct (runtime_layout_initialize root b) as [b' r]. by injection H1 as <- _. }
  destruct s1 as [self [b p]]. simpl in Hp. subst p. unfold on_state_file in H.
  destruct (entry NODE_STATE_FILE s.2.2) as [p1 [found|e]] eqn:E; [|done].
  assert (Hf : s.2.2.(pl_entries) !! NODE_STATE_FILE = found).
  { unfold entry, peek in E. by destruct (pl_faults s.2.2) as [|[]]; injection E. }
  destruct found as [[d|c|l]|]; try done.
  - destruct (runtime_state_from_json c) as [st|] eqn:Hj; simpl in H; [|done].
    injection H as _ <-. right. exists c, st. done.
  - injection H as _ <-. by left.
Qed.

(** A newer release of the same chain. *)
Definition newer_release (manifest : NodeManifest) (current : SidecarIdentity) (sequence : N) : Prop :=
  sequence < manifest.(nman_sequence)
  /\ manifest.(nman_network) = current.(sid_network) /\ manifest.(nman_chain_id) = current.(sid_chain_id)
  /\ manifest.(nman_genesis_hash) = current.(sid_genesis_hash)
  /\ manifest.(nman_requires_wallet_update) = false
  /\ exists installed available, version_parse current.(sid_node_version) = Some installed
       /\ version_parse manifest.(nman_node_version) = Some available
       /\ version_lt available installed = false.

Lemma available_is_newer manifest current sequence now v :
  validate_node_manifest manifest (compatibility_of current sequence) now = Ok (NodeAvailable v) ->
  newer_release manifest current sequence.
Proof.
  unfold validate_node_manifest. rewrite !then_Ok, fail_if_Ok. intros (_ & Hs & _ & H).
  apply rbind_Ok in H as (installed & Hi%ok_or_Ok & H). apply rbind_Ok in H as (available & Ha%ok_or_Ok & H).
  rewrite then_Ok, fail_if_Ok in H. destruct H as [Hlt H]. destruct (_ && _); [done|].
  apply rbind_Ok in H as (wallet & _ & H). apply rbind_Ok in H as (range & _ & H).
  destruct (node_incompatible _ _ _ _) eqn:Hn; [done|]. unfold node_incompatible in Hn. bool_inv.
  unfold newer_release. simpl in *. split; [done|]. repeat (split; [done|]). eauto.
Qed.

Lemma policy_Ok manifest current now s s' m :
  validate_node_feed_policy manifest current now s = (s', Ok m) ->
  m = manifest /\ exists sequence, recorded_sequence s.2.2 sequence /\ newer_release manifest current sequence.
Proof.
  unfold validate_node_feed_policy. intros (s1 & state & Hs & H)%mthen_Ok.
  apply load_runtime_state_Ok in Hs. apply mthen_Ok in H as (s2 & u2 & _ & H).
  apply mthen_Ok in H as (s3 & decision & Hd & H). destruct decision as [|v|]; try by injection H.
  injection H as _ <-. split; [done|]. eexists. split; [exact Hs|].
  unfold updated in Hd. destruct (validate_node_manifest _ _ _) eqn:E; [|done].
  injection Hd as _ ->. by eapply available_is_newer.
Qed.

(** A feed is authenticated, by the pinned keys, as the text it was parsed from. *)
Lemma evaluated_feeds_are_signed b current s s' node_feed :
  evaluate_signed_node_feed b current s = (s', Ok node_feed) ->
  exists text canonical, b = Some text /\ node_manifest_from_json text = Some node_feed.(vnf_manifest)
    /\ node_manifest_to_json (node_feed.(vnf_manifest) <| nman_manifest_signature := [] |>) = Some canonical
    /\ verify_minisign canonical node_feed.(vnf_manifest).(nman_manifest_signature) = true
    /\ exists sequence, recorded_sequence s.2.2 sequence
         /\ newer_release node_feed.(vnf_manifest) current sequence.
Proof.
  unfold evaluate_signed_node_feed. intros (s1 & manifest & Hm & H)%mthen_Ok. injection Hm as <- Hm.
  apply rbind_Ok in Hm as (text & ->%ok_or_Ok & Hm). apply rbind_Ok in Hm as (m & Hj%ok_or_Ok & Hm).
  rewrite then_Ok in Hm. destruct Hm as [_ Hm]. apply rbind_Ok in Hm as (canonical & Hc%ok_or_Ok & Hm).
  rewrite then_Ok, fail_if_Ok in Hm. destruct Hm as [Hv [= <-]]. bool_inv.
  apply mthen_Ok in H as (s2 & now & Hn & H). apply on_host_Ok in Hn as (_ & Hp & _).
  apply mthen_Ok in H as (s3 & m' & Hpol & H). injection H as _ <-.
  apply policy_Ok in Hpol as [-> Hpol]. rewrite Hp in Hpol. simpl. eauto 10.
Qed.

Definition keys_match : Prop :=
  PRIMARY_MINISIGN_KEY = sidecar_primary_key /\ RESERVE_MINISIGN_KEY = sidecar_reserve_key.

(** What is checked of a release before anything is touched. *)
Definition release_checked (s : Desk (B := B)) (node_feed : ValidatedNodeFeed)
    (manifest_bytes manifest_signature : option bytes) (platform artifact artifact_signature : bytes)
    (current : SidecarIdentity) (configuration : ManagedNodeConfig) (manifest : SidecarManifest)
    (state : NodeRuntimeState) : Prop :=
  s.1.(nm_enabled_for_session) = true /\ keys_match /\ configuration_validate configuration = Ok tt
  /\ (exists sequence, recorded_sequence s.2.2 sequence /\ newer_release node_feed.(vnf_manifest) current sequence)
  /\ validate_download artifact node_feed.(vnf_manifest).(nman_artifact) = Ok tt
  /\ verify_release manifest_bytes manifest_signature platform artifact artifact_signature
       (promotion_identity current) = Some manifest
  /\ bind_node_feed_to_sidecar node_feed.(vnf_manifest) manifest platform artifact_signature = Ok tt
  /\ state.(nrs_update_sequence) = node_feed.(vnf_manifest).(nman_sequence)
  /\ state.(nrs_active_revision) = node_feed.(vnf_manifest).(nman_node_revision)
  /\ state.(nrs_binary_sha256) = node_feed.(vnf_manifest).(nman_artifact).(ad_sha256).

Lemma keys_checked : enforce_canonical_key_match = Ok tt -> keys_match.
Proof. unfold enforce_canonical_key_match. intros H%fail_if_Ok. by bool_inv. Qed.

Lemma promote_signed_release_run node_feed mb ms platform artifact asig current configuration s s' r :
  promote_signed_release node_feed mb ms platform artifact asig current configuration s = (s', r) ->
  (settling s s' /\ exists e, r = Err e)
  \/ exists manifest state,
      release_checked s node_feed mb ms platform artifact asig current configuration manifest state
      /\ promotion_outcome s s' manifest configuration (Some state) r.
Proof.
  unfold promote_signed_release. intros H. assert (H0 : settling s s) by reflexivity.
  apply (then_settles _ _ s) in H as [H|(s1 & u1 & E1 & _ & H)];
    [by left| |apply same_settles; unfold require_enabled; quiet|done].
  injection E1 as <- E1%fail_if_Ok.
  apply (then_settles _ _ s) in H as [H|(s2 & u2 & E2 & _ & H)]; [by left| |apply same_settles; quiet|done].
  destruct u2. injection E2 as <- E2%keys_checked.
  apply (then_settles _ _ s) in H as [H|(s3 & u3 & E3 & _ & H)]; [by left| |apply same_settles; quiet|done].
  destruct u3. injection E3 as <- E3.
  apply (then_settles _ _ s) in H as [H|(s4 & now & E4 & H4 & H)]; [by left| |apply same_settles; quiet|done].
  apply on_host_Ok in E4 as (E4 & P4 & _).
  apply (then_settles _ _ s) in H as [H|(s5 & m & E5 & H5 & H)];
    [by left| |apply same_settles, policy_same|done].
  apply policy_same in E5 as S5. apply policy_Ok in E5 as [-> E5]. rewrite P4 in E5.
  apply (then_settles _ _ s) in H as [H|(s6 & u6 & E6 & H6 & H)]; [by left| |apply same_settles; quiet|done].
  unfold updated in E6. destruct (validate_download _ _) as [[]|] eqn:Ed; [|done]. injection E6 as <- _.
  apply (then_settles _ _ s) in H as [H|(s7 & manifest & E7 & H7 & H)]; [by left| |apply same_settles; quiet|done].
  injection E7 as <- E7%ok_or_Ok.
  apply (then_settles _ _ s) in H as [H|(s8 & u8 & E8 & H8 & H)]; [by left| |apply same_settles; quiet|done].
  destruct u8. injection E8 as <- E8.
  apply (then_settles _ _ s) in H as [H|(s9 & installed & E9 & H9 & H)]; [by left| |apply same_settles; quiet|done].
  apply on_host_same in E9.
  apply (then_settles _ _ s) in H as [H|(s10 & state & E10 & H10 & H)]; [by left| |apply same_settles; quiet|done].
  unfold updated, next_runtime_state in E10. destruct (rfc3339_format installed); [|done].
  injection E10 as <- <-. apply promote_verified_run in H. right. do 2 eexists.
  split; [|assert (E : s9.1 = s.1) by (unfold same_self in *; congruence);
           unfold promotion_outcome, settling in *; rewrite <-E; exact H].
  unfold release_checked. bool_inv. repeat (split; [done|]). done.
Qed.
(** *** Sessions *)

(** A node that runs was started in an enabled session, on loopback addresses. *)
Definition manager_ok (self : NodeManager) : Prop :=
  forall running, self.(nm_running) = Some running ->
    self.(nm_enabled_for_session) = true /\ configuration_validate running.(rn_config) = Ok tt.

(** The call by which the experiment is asked for. *)
Definition opts_in (call : ManagerCall) : Prop :=
  call = EnableForSession EXPERIMENTAL_ENABLE_CONFIRMATION true.

(** What one call may do to the session and the node. *)
Definition allowed (call : ManagerCall) (s s' : Desk (B := B)) : Prop :=
  (s'.1.(nm_enabled_for_session) = true ->
   s.1.(nm_enabled_for_session) = true \/ opts_in call /\ keys_match)
  /\ (manager_ok s.1 -> manager_ok s'.1).

Lemma settling_allowed call s s' : settling s s' -> allowed call s s'.
Proof.
  intros (He & _ & Hr). unfold allowed, manager_ok. rewrite He. split; [by left|].
  intros Hok running Hrun. destruct Hr as [Hr|Hr]; rewrite Hr in Hrun; [by apply Hok|done].
Qed.

Lemma running_allowed call s s' running :
  s'.1.(nm_enabled_for_session) = s.1.(nm_enabled_for_session) -> s.1.(nm_enabled_for_session) = true ->
  s'.1.(nm_running) = Some running -> configuration_validate running.(rn_config) = Ok tt ->
  allowed call s s'.
Proof. intros E1 E2 Hr Hc. split; [by left|]. intros _ running'. rewrite Hr. intros [= <-]. by rewrite E1. Qed.

Lemma unanswered_run {A} (m : method Desk NErr.NodeManagerError A) s s' r :
  unanswered (B := B) m s = (s', r) -> exists r', m s = (s', r').
Proof. unfold unanswered. unfold mthen. destruct (m s) as [s1 [a|e]]; intros [= <- _]; by eexists. Qed.

Lemma start_active_run configuration s s' r :
  start_active configuration s = (s', r) ->
  settling s s'
  \/ s'.1.(nm_enabled_for_session) = s.1.(nm_enabled_for_session) /\ s.1.(nm_enabled_for_session) = true
     /\ exists running, s'.1.(nm_running) = Some running /\ running.(rn_config) = configuration
          /\ configuration_validate running.(rn_config) = Ok tt.
Proof.
  unfold start_active. intros H. assert (H0 : settling s s) by reflexivity.
  apply (then_settles _ _ s) in H as [[H _]|(s1 & u1 & E1 & _ & H)];
    [by left| |apply same_settles; unfold require_enabled; quiet|done].
  injection E1 as <- E1%fail_if_Ok.
  apply (then_settles _ _ s) in H as [[H _]|(s2 & u2 & E2 & _ & H)]; [by left| |apply same_settles; quiet|done].
  injection E2 as <- _.
  apply (then_settles _ _ s) in H as [[H _]|(s3 & u3 & E3 & _ & H)]; [by left| |apply same_settles; quiet|done].
  destruct u3. injection E3 as <- E3.
  apply (then_settles _ _ s) in H as [[H _]|(s4 & root & _ & H4 & H)];
    [by left| |apply same_settles, store_same|done].
  apply (then_settles _ _ s) in H as [[H _]|(s5 & current & _ & H5 & H)];
    [by left| |apply same_settles; quiet|done].
  apply (then_settles _ _ s) in H as [[H _]|(s6 & revision & _ & H6 & H)];
    [by left| |apply same_settles; quiet|done].
  apply (then_settles _ _ s) in H as [[H _]|(s7 & binary & _ & H7 & H)];
    [by left| |apply same_settles; quiet|done].
  rewrite then_assign in H. set (s8 := (_, s7.2)) in H.
  assert (H8 : settling s s8) by (unfold settling, settles in *; simpl; done).
  apply (then_settles _ _ s) in H as [[H _]|(s9 & started & Hs & H9 & H)];
    [by left| |apply same_settles; quiet|done].
  unfold attempt_call in Hs. destruct (on_host (start_process _ _ _ _) s8) as [s9' [running|e]] eqn:Ho;
    injection Hs as <- <-; injection H as <- _.
  - apply on_host_Ok in Ho as (_ & _ & b & b' & [Hc _]%start_process_Ok). right.
    destruct H9 as (E & _). simpl. bool_inv. split; [done|]. split; [done|].
    exists running. split; [done|]. split; [done|]. by rewrite Hc.
  - left. unfold settling, settles in *. simpl. done.
Qed.

Lemma active_revision_same : moves same_self active_revision.
Proof.
  intros s s' r. unfold active_revision. destruct (mthen _ _ s) as [s1 [v|e]] eqn:E; intros [= <- _];
    (eapply (moves_mthen same_self) in E; [exact E|apply store_same|intros ?; quiet]).
Qed.

Lemma manager_status_settles : moves settling manager_status.
Proof.
  unfold manager_status. apply (moves_mthen settling); [apply same_settles; quiet|]. intros running.
  apply (moves_mthen settling); [|intros _; apply same_settles;
    apply (moves_mthen same_self); [apply active_revision_same|intros ?; quiet]].
  destruct running as [running|]; [|apply same_settles; quiet].
  intros s s' r. destruct (on_host _ s) as [[self w] [[]|e]] eqn:E; intros [= <- _];
    apply on_host_same in E; unfold same_self in E; simpl in E; subst self; unfold settling, settles; simpl; auto.
Qed.

Lemma release_metadata_same b manifest signature platform :
  moves same_self (evaluate_running_signed_release_metadata b manifest signature platform).
Proof.
  unfold evaluate_running_signed_release_metadata.
  apply (moves_mthen same_self); [quiet|]. intros ?. apply (moves_mthen same_self); [quiet|]. intros ?.
  apply (moves_mthen same_self); [apply evaluate_same|]. intros ?. quiet.
Qed.

Lemma enable_allowed confirmation unlocked s s' r :
  enable_for_session confirmation unlocked s = (s', r) ->
  allowed (EnableForSession confirmation unlocked) s s'.
Proof.
  unfold enable_for_session, mthen, read_self. intros H. destruct (_ ;? _) as [[]|e] eqn:E.
  2:{ injection H as <- _. apply settling_allowed. reflexivity. }
  injection H as <- _. rewrite !then_Ok, !fail_if_Ok in E. destruct E as (E1 & E2 & E3%keys_checked).
  bool_inv. subst. split; [by right|]. intros Hok running Hr. simpl in *. split; [done|].
  by apply Hok in Hr as [_ ?].
Qed.

Lemma disable_allowed s s' r : disable_for_session s = (s', r) -> allowed DisableForSession s s'.
Proof.
  unfold disable_for_session. unfold mthen at 1, read_self. intros H.
  apply mthen_inv in H as [(e & H & ->)|(s1 & u & H1 & H)].
  - apply settling_allowed. destruct (nm_running s.1); [by apply shutdown_settles in H|by injection H as <-].
  - injection H as <- _.
    assert (Hnone : s1.1.(nm_running) = None).
    { destruct (nm_running s.1) eqn:E; [by apply shutdown_run in H1 as [_ ?]|by injection H1 as <- _]. }
    split; [done|]. intros _ running. simpl. by rewrite Hnone.
Qed.

Lemma calls_are_allowed call s s' r : manager_call call s = (s', r) -> allowed call s s'.
Proof.
  destruct call; unfold manager_call; intros H.
  - unfold configure_runtime in H. apply mthen_inv in H as [(e & H & ->)|(s1 & u & H1 & H)].
    + apply on_host_same in H. apply settling_allowed. unfold settling. rewrite H. reflexivity.
    + apply on_host_same in H1. injection H as <- _. unfold same_self in H1.
      unfold allowed, manager_ok. simpl. rewrite H1. auto.
  - by eapply enable_allowed.
  - by eapply disable_allowed.
  - apply settling_allowed. by apply shutdown_settles in H.
  - apply unanswered_run in H as [r' H]. apply settling_allowed. by apply manager_status_settles in H.
  - apply unanswered_run in H as [r' [H|(E1 & E2 & running & Hr & _ & Hc)]%start_active_run].
    + by apply settling_allowed.
    + by eapply running_allowed.
  - apply unanswered_run in H as [r' H]. apply settling_allowed. eapply same_settles; [apply evaluate_same|exact H].
  - apply unanswered_run in H as [r' H]. apply settling_allowed.
    eapply same_settles; [apply release_metadata_same|exact H].
  - apply unanswered_run in H as [r' H].
    apply promote_signed_release_run in H as [[H _]|(manifest & state & (He & _ & Hc & _) & H)];
      [by apply settling_allowed|].
    destruct r' as [identity|e]; [|destruct H as [H|H]; [by apply settling_allowed|]].
    + destruct H as (E1 & _ & _ & _ & _ & (running & Hr & Hcfg & _) & _).
      eapply running_allowed; [done|done|exact Hr|by rewrite Hcfg].
    + destruct H as (E1 & _ & _ & _ & running & Hr & Hcfg & _).
      eapply running_allowed; [done|done|exact Hr|by rewrite Hcfg].
Qed.

(** A call that needs the session. *)
Definition needs_session (call : ManagerCall) : bool :=
  match call with StartActive _ | PromoteSignedRelease _ _ _ _ _ _ _ _ => true | _ => false end.

Lemma disabled_calls_do_nothing call (s : Desk (B := B)) :
  needs_session call = true -> s.1.(nm_enabled_for_session) = false ->
  manager_call call s = (s, Err NErr.Disabled).
Proof.
  intros Hc He. destruct call; try done; unfold manager_call, unanswered, start_active, promote_signed_release;
    unfold mthen, require_enabled, read_self; by rewrite He.
Qed.

(** C11 A promotion of a signed release is made in an enabled session only, after the
    release was checked: keys, configuration, a newer release of the same chain than
    the state file records, the digest and size of the artifact, the signed manifest,
    and the feed bound to it.  Then it ends in one of three states.  On success the
    node of the release runs with the configuration asked for, has the revision of the
    manifest and an identity the manifest permits, and the state file records the
    release.  On an error the previous node runs again, from the store pointed back to
    its revision, and the error is kept; or the manager holds no node but the one it
    had, if any, and session and runtime are as they were. *)
Theorem node_promotions_end_in_a_known_state node_feed mb ms platform artifact asig current configuration s s' r :
  promote_signed_release node_feed mb ms platform artifact asig current configuration s = (s', r) ->
  match r with
  | Ok identity => exists manifest state,
      release_checked s node_feed mb ms platform artifact asig current configuration manifest state
      /\ promoted s.1 s'.1 s'.2.2 manifest configuration (Some state) identity
  | Err e =>
      settles s.1 s'.1
      \/ exists manifest state,
           release_checked s node_feed mb ms platform artifact asig current configuration manifest state
           /\ rolled_back_to_previous s.1 s'.1 configuration e
  end.
Proof.
  intros [[H [e ->]]|(manifest & state & Hc & H)]%promote_signed_release_run; [by left|].
  destruct r as [identity|e]; [by eauto|]. destruct H as [H|H]; [by left|right; by eauto].
Qed.
End proofs.

(** ** Processes watched

    The host with a log of what happens to processes, newest last: a process that
    starts, one that is seen to have ended or whose status the system cannot tell, a
    kill that is asked for, a shutdown that a node accepts, and an HTTP client that
    cannot be built. *)
Inductive ProcessEvent :=
| Spawned (command : NodeCommand) (child : N)
| Exited (child : N)
| StatusUnknown (child : N)
| KillAsked (child : N)
| ShutdownAccepted (rpc_address : SocketAddr) (token : bytes)
| NoClient.
Definition Watched (B : Type) : Type := list ProcessEvent * B.
(** A call on the host below; what it answers may be an event. *)
Definition watching {B A} (event : A -> list ProcessEvent) (m : B -> B * A) : Watched B -> Watched B * A := fun s =>
  let '(b, a) := m s.2 in ((s.1 ++ event a, b), a).
Definition unwatched {B A} (m : B -> B * A) : Watched B -> Watched B * A := watching (fun _ => []) m.
#[local] Instance watched_host {B} (host : NodeHost B) : NodeHost (Watched B) := {|
  look p := unwatched (look p);
  path_exists p := unwatched (path_exists p);
  create_directories p := unwatched (create_directories p);
  set_permissions p mode := unwatched (set_permissions p mode);
  probe_owner p := unwatched (probe_owner p);
  store_current_revision root := unwatched (store_current_revision root);
  store_binary_path root revision := unwatched (store_binary_path root revision);
  store_install root revision artifact := unwatched (store_install root revision artifact);
  store_promote root revision := unwatched (store_promote root revision);
  store_rollback root revision := unwatched (store_rollback root revision);
  store_backup root data := unwatched (store_backup root data);
  store_restore root backup data := unwatched (store_restore root backup data);
  spawn command := watching (fun r => match r with Ok child => [Spawned command child] | Err _ => [] end) (spawn command);
  has_exited child := watching (fun r => match r with
                                         | Ok true => [Exited child]
                                         | Ok false => []
                                         | Err _ => [StatusUnknown child]
                                         end) (has_exited child);
  kill child := watching (fun _ => [KillAsked child]) (kill child);
  wait child := unwatched (wait child);
  http_client timeout := watching (fun built : bool => if built then [] else [NoClient]) (http_client timeout);
  rpc_health address := unwatched (rpc_health address);
  rpc_build_info address token := unwatched (rpc_build_info address token);
  rpc_network_info address token := unwatched (rpc_network_info address token);
  rpc_shutdown address token :=
    watching (fun status => if bool_decide (status = Some 202) then [ShutdownAccepted address token] else [])
             (rpc_shutdown address token);
  port_is_free address := unwatched (port_is_free address);
  clock := unwatched clock;
  sleep n s := (s.1, sleep n s.2);
  draw_token := unwatched draw_token;
  now_utc := unwatched now_utc;
  next_sequence := unwatched next_sequence;
  process_id := process_id;
|}.

(** A process that is dealt with: it ended, a kill was asked for, it accepted a
    shutdown and the system cannot tell its status, or no client could be built. *)
Definition dealt_with (events : list ProcessEvent) (rpc_address : SocketAddr) (token : bytes) (child : N) : Prop :=
  Exited child ∈ events \/ KillAsked child ∈ events \/ NoClient ∈ events
  \/ ShutdownAccepted rpc_address token ∈ events /\ StatusUnknown child ∈ events.
Definition node_dealt_with (events : list ProcessEvent) (running : RunningNode) : Prop :=
  dealt_with events running.(rn_config).(mnc_rpc_address) running.(rn_token) running.(rn_child).
Definition starts (events : list ProcessEvent) : Prop := exists command child, Spawned command child ∈ events.

Lemma dealt_with_app events later rpc_address token child :
  dealt_with events rpc_address token child \/ dealt_with later rpc_address token child ->
  dealt_with (events ++ later) rpc_address token child.
Proof. unfold dealt_with. set_solver. Qed.

Section watched.
Context {url : UrlCode} {B : Type} {host : NodeHost B} {sidecar : SidecarCode url}.
Context {version : VersionCode} {time : TimeCode} {digest : DigestCode} {feed : FeedCode url}.
Context {state_code : UpdaterStateCode}.

(** No process is started. *)
Definition no_start (s s' : Watched B) : Prop := exists events, s'.1 = s.1 ++ events /\ ~ starts events.
#[export] Instance no_start_preorder : PreOrder no_start.
Proof.
  split; [intros s; exists []; rewrite app_nil_r; split; [done|]; intros (? & ? & H); by apply not_elem_of_nil in H|].
  intros x y z (e1 & H1 & N1) (e2 & H2 & N2). exists (e1 ++ e2). rewrite H2, H1, app_assoc. split; [done|].
  unfold starts in *. set_solver.
Qed.

Lemma watching_no_start {A} (event : A -> list ProcessEvent) (m : B -> B * A) s s' a :
  (forall a, ~ starts (event a)) -> watching event m s = (s', a) -> no_start s s'.
Proof. intros He. unfold watching. destruct (m s.2) as [b x]. intros [= <- <-]. by exists (event x). Qed.
Lemma host_io_no_start {A} (event : result IoFailure A -> list ProcessEvent) m :
  (forall a, ~ starts (event a)) -> moves no_start (host_io (B := Watched B) (watching event m)).
Proof.
  intros He s s' r. unfold host_io. destruct (watching _ _ _) as [s1 r1] eqn:E. intros [= <- _].
  by eapply watching_no_start.
Qed.
Lemma from_store_no_start {A} (event : result SidecarFailure A -> list ProcessEvent) m :
  (forall a, ~ starts (event a)) -> moves no_start (from_store (B := Watched B) (watching event m)).
Proof.
  intros He s s' r. unfold from_store. destruct (watching _ _ _) as [s1 r1] eqn:E. intros [= <- _].
  by eapply watching_no_start.
Qed.
Lemma ask_host_no_start {A} (event : A -> list ProcessEvent) m :
  (forall a, ~ starts (event a)) -> moves no_start (ask_host (B := Watched B) (watching event m)).
Proof.
  intros He s s' r. unfold ask_host. destruct (watching _ _ _) as [s1 r1] eqn:E. intros [= <- _].
  by eapply watching_no_start.
Qed.
Lemma lift_host_no_start {A} (r : nres A) : moves no_start (lift_host (B := Watched B) r).
Proof. intros s s' r' [= <- _]. reflexivity. Qed.
Lemma mret_no_start {A} (a : A) : moves (E := NErr.NodeManagerError) no_start (mret a).
Proof. intros s s' r' [= <- _]. reflexivity. Qed.
Lemma ignoring_no_start {A} (m : method (Watched B) NErr.NodeManagerError A) :
  moves no_start m -> moves no_start (ignoring m).
Proof. intros H s s' r. unfold ignoring. intros [= <- _]. eapply H, surjective_pairing. Qed.

Ltac silent := repeat first
  [ apply lift_host_no_start | apply mret_no_start | apply ignoring_no_start
  | apply host_io_no_start; intros; repeat case_match; unfold starts; set_solver
  | apply from_store_no_start; intros; repeat case_match; unfold starts; set_solver
  | apply ask_host_no_start; intros; repeat case_match; unfold starts; set_solver
  | lazymatch goal with |- moves _ (mthen _ _) => apply (moves_mthen no_start); [|intros ?] end
  | case_match ].

Lemma validate_runtime_tree_no_start root : moves no_start (validate_runtime_tree (B := Watched B) root).
Proof. unfold validate_runtime_tree. silent. Qed.
Lemma validate_binary_no_start binary : moves no_start (validate_binary (B := Watched B) binary).
Proof. unfold validate_binary. silent. Qed.
Lemma harden_no_start root t : moves no_start (harden (B := Watched B) root t).
Proof.
  revert root t. fix IH 2. intros root [metadata entries]. cbn [harden]. silent; [|apply validate_runtime_tree_no_start].
  induction entries as [|[name entry] entries IHe]; [silent|]. silent. all: [> apply IH | apply IHe].
Qed.
Lemma poll_identity_no_start n child address token deadline :
  moves no_start (poll_identity (B := Watched B) n child address token deadline).
Proof. induction n as [|n IH]; cbn [poll_identity all_free poll_ports]; silent; intros ? ? ? Hrun%IH; exact Hrun. Qed.
Lemma wait_for_identity_no_start child address token timeout :
  moves no_start (wait_for_identity (B := Watched B) child address token timeout).
Proof. unfold wait_for_identity. silent. apply poll_identity_no_start. Qed.
Lemma all_free_no_start addresses : moves no_start (all_free (B := Watched B) addresses).
Proof. induction addresses as [|address addresses IH]; cbn [poll_identity all_free poll_ports]; silent. apply IH. Qed.
Lemma poll_ports_no_start n addresses deadline : moves no_start (poll_ports (B := Watched B) n addresses deadline).
Proof. induction n as [|n IH]; cbn [poll_identity all_free poll_ports]; silent; try apply all_free_no_start. intros ? ? ? Hrun%IH; exact Hrun. Qed.

(** What a run adds to the log. *)
Definition logs (P : list ProcessEvent -> Prop) (s s' : Watched B) : Prop :=
  exists events, s'.1 = s.1 ++ events /\ ~ starts events /\ P events.
Lemma logs_no_start s s1 s' P Q :
  no_start s s1 -> logs P s1 s' -> (forall e1 e2, P e2 -> Q (e1 ++ e2)) -> logs Q s s'.
Proof.
  intros (e1 & H1 & N1) (e2 & H2 & N2 & HP) HQ. exists (e1 ++ e2). rewrite H2, H1, app_assoc.
  split; [done|]. split; [unfold starts in *; set_solver|auto].
Qed.
Lemma no_start_logs s s1 s' P Q :
  logs P s s1 -> no_start s1 s' -> (forall e1 e2, P e1 -> Q (e1 ++ e2)) -> logs Q s s'.
Proof.
  intros (e1 & H1 & N1 & HP) (e2 & H2 & N2) HQ. exists (e1 ++ e2). rewrite H2, H1, app_assoc.
  split; [done|]. split; [unfold starts in *; set_solver|auto].
Qed.

(** Waiting for a process to end sees it ended, or kills it, or cannot tell. *)
Definition end_seen (child : N) (r : nres unit) (events : list ProcessEvent) : Prop :=
  match r with
  | Ok _ => Exited child ∈ events
  | Err _ => KillAsked child ∈ events \/ StatusUnknown child ∈ events
  end.
Lemma end_seen_app child r e1 e2 : end_seen child r e2 -> end_seen child r (e1 ++ e2).
Proof. destruct r; simpl; set_solver. Qed.

Lemma host_io_watching {A} (event : result IoFailure A -> list ProcessEvent) m s s' r :
  host_io (B := Watched B) (watching event m) s = (s', r) ->
  exists a, s'.1 = s.1 ++ event a /\ r = map_err a NErr.Io.
Proof.
  unfold host_io, watching. destruct (m s.2) as [b a]. intros [= <- <-]. by exists a.
Qed.
Lemma ask_host_watching {A} (event : A -> list ProcessEvent) m s s' r :
  ask_host (B := Watched B) (watching event m) s = (s', r) -> exists a, s'.1 = s.1 ++ event a /\ r = Ok a.
Proof. unfold ask_host, watching. destruct (m s.2) as [b a]. intros [= <- <-]. by exists a. Qed.

Lemma ask_host_never {A} (m : Watched B -> Watched B * A) s s' e : ask_host m s = (s', Err e) -> False.
Proof. unfold ask_host. by destruct (m s). Qed.

Lemma poll_exit_run n child deadline s s' r :
  poll_exit n child deadline s = (s', r) -> logs (end_seen child r) s s'.
Proof.
  assert (Hkill : forall s s' r,
    (host_io (kill child) ;;; host_io (wait child) ;;; lift_host (Err NErr.ShutdownFailed)) s = (s', r) ->
    logs (end_seen child r) s s').
  { clear. intros s s' r H. apply mthen_inv in H as [(e & H & ->)|(s1 & u & H1 & H)].
    - apply host_io_watching in H as (a & H & _). exists [KillAsked child]. rewrite H.
      split; [done|]. unfold starts, end_seen. set_solver.
    - apply host_io_watching in H1 as (a & H1 & _).
      assert (He : exists e, r = Err e).
      { apply mthen_inv in H as [(e & _ & ->)|(? & ? & _ & H)]; [by exists e|]. injection H as _ <-. by eexists. }
      assert (Hn : no_start s1 s') by (revert H; apply (moves_mthen no_start); [silent|intros ?; silent]).
      destruct He as [e ->]. eapply no_start_logs; [|exact Hn|].
      + exists [KillAsked child]. split; [exact H1|]. split; [unfold starts; set_solver|].
        instantiate (1 := fun events => KillAsked child ∈ events). set_solver.
      + simpl. set_solver. }
  revert s. induction n as [|n IH]; intros s; cbn [poll_exit]; intros H.
  all: apply mthen_inv in H as [(e & H & ->)|(s1 & exited & H1 & H)].
  1,3: apply host_io_watching in H as (a & H & Ha); destruct a as [[]|]; try done;
    exists [StatusUnknown child]; rewrite H; split; [done|]; unfold starts, end_seen; set_solver.
  all: apply host_io_watching in H1 as (a & H1 & Ha); destruct a as [a|]; [|done]; injection Ha as <-.
  all: destruct exited; [injection H as <- <-; exists [Exited child]; rewrite H1; split; [done|];
                          unfold starts, end_seen; set_solver|].
  all: rewrite app_nil_r in H1.
  all: apply mthen_inv in H as [(e & []%ask_host_never & _)|(s2 & now & H2 & H)].
  all: apply ask_host_watching in H2 as (now' & H2 & _); rewrite app_nil_r in H2.
  all: assert (E : s2.1 = s.1) by congruence.
  all: unfold logs; rewrite <-E; destruct (_ <=? _); try by apply Hkill.
  apply IH in H. exact H.
Qed.

(** A process that is stopped is dealt with; when stopping it succeeds, it ended. *)
Lemma stop_process_run running s s' r :
  stop_process running s = (s', r) ->
  logs (fun events => node_dealt_with events running /\ (r = Ok tt -> Exited running.(rn_child) ∈ events)) s s'.
Proof.
  unfold stop_process, wait_until_ports_released. generalize (turns SHUTDOWN_TIMEOUT), (turns PORTS_TIMEOUT).
  intros polls ports H. apply mthen_inv in H as [(e & []%ask_host_never & _)|(s1 & built & H1 & H)].
  apply ask_host_watching in H1 as (a & H1 & [= ->]).
  destruct a; cbn [negb fail_if] in H.
  2:{ injection H as <- <-. exists [NoClient]. rewrite H1. split; [done|].
      unfold starts, node_dealt_with, dealt_with. set_solver. }
  rewrite app_nil_r in H1. apply mthen_inv in H as [(e & [=] & _)|(s2 & u & [= <- _] & H)].
  apply mthen_inv in H as [(e & []%ask_host_never & _)|(s3 & status & H3 & H)].
  apply ask_host_watching in H3 as (a & H3 & [= ->]).
  destruct (bool_decide (a = Some 202)) eqn:Ea; cbn [negb] in H.
  - apply mthen_inv in H as [(e & []%ask_host_never & _)|(s4 & now & H4 & H)].
    apply ask_host_watching in H4 as (now' & H4 & _). rewrite app_nil_r in H4.
    set (accepted := ShutdownAccepted _ _) in H3.
    assert (Hp : forall s5 (o : nres unit), logs (end_seen running.(rn_child) o) s4 s5 ->
      logs (fun events => node_dealt_with events running
                          /\ (o = Ok tt -> Exited running.(rn_child) ∈ events)) s s5).
    { intros s5 o (events & He & Hn & Hs). exists (accepted :: events). rewrite He, H4, H3, H1.
      split; [by rewrite <-app_assoc|]. split; [unfold starts in *; set_solver|].
      unfold node_dealt_with, dealt_with. fold accepted. destruct o as [[]|e]; simpl in Hs; set_solver. }
    apply mthen_inv in H as [(e & H & ->)|(s5 & u5 & H5 & H)].
    + apply poll_exit_run in H. by apply Hp.
    + apply poll_exit_run in H5. apply Hp in H5. destruct u5. eapply no_start_logs; [exact H5| |].
      * eapply (moves_mthen no_start) in H; [exact H|silent|intros ?; apply poll_ports_no_start].
      * intros e1 e2 [Hd Hx]. split; [by apply dealt_with_app; left|]. set_solver.
  - rewrite app_nil_r in H3. apply mthen_inv in H as [(e & [=] & _)|(s4 & u4 & H4 & H)].
    unfold ignoring in H4. destruct (host_io (kill _) s3) as [s4' r4] eqn:E4. simpl in H4. injection H4 as <- _.
    apply host_io_watching in E4 as (? & E4 & _).
    apply mthen_inv in H as [(e & [=] & _)|(s5 & u5 & H5 & H)]. injection H as <- <-.
    eapply (no_start_logs s s4' s5 (fun events => KillAsked running.(rn_child) ∈ events)).
    + exists [KillAsked running.(rn_child)]. rewrite E4, H3, H1. split; [done|]. unfold starts. set_solver.
    + revert H5. apply ignoring_no_start. silent.
    + intros e1 e2 H. split; [|done]. unfold node_dealt_with, dealt_with. set_solver.
Qed.

Lemma stop_process_no_start running : moves no_start (stop_process running).
Proof. intros s s' r H. apply stop_process_run in H as (events & E & N & _). by exists events. Qed.

(** A start either gives a process, held by what is returned or dealt with, or adds
    nothing to what runs. *)
Definition started_for (binary : path) (configuration : ManagedNodeConfig) (r : nres RunningNode)
    (s s' : Watched B) : Prop :=
  no_start s s' /\ (exists e, r = Err e)
  \/ exists token child before after,
      s'.1 = s.1 ++ before ++ [Spawned (node_command binary configuration token) child] ++ after
      /\ ~ starts before /\ ~ starts after
      /\ match r with
         | Ok running => running.(rn_child) = child /\ running.(rn_token) = token
                         /\ running.(rn_config) = configuration
         | Err _ => dealt_with after configuration.(mnc_rpc_address) token child
         end.

Lemma start_process_run root binary configuration expected s s' r :
  start_process root binary configuration expected s = (s', r) -> started_for binary configuration r s s'.
Proof.
  unfold start_process. intros H.
  apply mthen_inv in H as [(e & H & ->)|(s1 & u1 & H1 & H)].
  { left. split; [by apply validate_runtime_tree_no_start in H|by eexists]. }
  apply validate_runtime_tree_no_start in H1.
  apply mthen_inv in H as [(e & [= <- _] & ->)|(s2 & u2 & [= <- _] & H)]; [left; eauto|].
  apply mthen_inv in H as [(e & H & ->)|(s3 & u3 & H3 & H)].
  { left. split; [|by eexists]. apply validate_binary_no_start in H. by transitivity s1. }
  apply validate_binary_no_start in H3. assert (N3 : no_start s s3) by (by transitivity s1).
  apply mthen_inv in H as [(e & []%ask_host_never & _)|(s4 & token & H4 & H)].
  assert (N4 : no_start s s4).
  { transitivity s3; [done|]. revert H4. apply ask_host_no_start. intros. unfold starts. set_solver. }
  apply mthen_inv in H as [(e & H & ->)|(s5 & u5 & H5 & H)].
  { left. split; [|by eexists]. transitivity s4; [done|]. revert H.
    apply host_io_no_start. intros. unfold starts. set_solver. }
  assert (N5 : no_start s s5).
  { transitivity s4; [done|]. revert H5. apply host_io_no_start. intros. unfold starts. set_solver. }
  clear H1 H3 H4 H5 N3 N4.
  apply mthen_inv in H as [(e & H & ->)|(s6 & child & H6 & H)].
  { apply host_io_watching in H as (a & H & Ha). destruct a; [done|]. left. split; [|by eexists].
    destruct N5 as (events & E & N). exists events. by rewrite H, app_nil_r. }
  apply host_io_watching in H6 as (a & H6 & Ha). destruct a as [a|]; [|done]. injection Ha as <-.
  right. destruct N5 as (before & E5 & Nb). exists token, child, before.
  assert (Hafter : forall P s7, logs P s6 s7 -> (forall after, P after ->
    match r with
    | Ok running => running.(rn_child) = child /\ running.(rn_token) = token /\ running.(rn_config) = configuration
    | Err _ => dealt_with after configuration.(mnc_rpc_address) token child
    end) -> s7 = s' -> exists after, s'.1 = s.1 ++ before ++ [Spawned (node_command binary configuration token) child] ++ after
      /\ ~ starts before /\ ~ starts after
      /\ match r with
         | Ok running => running.(rn_child) = child /\ running.(rn_token) = token
                         /\ running.(rn_config) = configuration
         | Err _ => dealt_with after configuration.(mnc_rpc_address) token child
         end).
  { intros P s7 (after & Ea & Na & HP) Hr <-. exists after. rewrite Ea, H6, E5, <-!app_assoc.
    repeat (split; [done|]). by apply Hr. }
  destruct (wait_for_identity _ _ _ _ _) as [s7 [identity|e]] eqn:E7; apply wait_for_identity_no_start in E7.
  - destruct (is_some_and _ _).
    + apply mthen_inv in H as [(e & [=] & _)|(s8 & u8 & H8 & H)]. injection H as -> <-.
      unfold ignoring in H8. destruct (stop_process _ s7) as [s8 o] eqn:E8. apply stop_process_run in E8.
      injection H8 as -> _.
      apply (Hafter (fun after => dealt_with after configuration.(mnc_rpc_address) token child) s'); [|done|done].
      eapply logs_no_start; [exact E7|exact E8|]. intros e1 e2 [Hd _]. by apply dealt_with_app; right.
    + injection H as <- <-. destruct E7 as (after & Ea & Na).
      eapply (Hafter (fun _ => True)); [by exists after|done|done].
  - apply mthen_inv in H as [(e' & [=] & _)|(s8 & u8 & H8 & H)].
    apply mthen_inv in H as [(e' & [=] & _)|(s9 & u9 & H9 & H)]. injection H as -> <-.
    unfold ignoring in H8. destruct (host_io (kill _) s7) as [s8' o] eqn:E8. injection H8 as <- _.
    apply host_io_watching in E8 as (a & E8 & _).
    assert (N9 : no_start s8' s') by (revert H9; apply ignoring_no_start; silent).
    apply (Hafter (fun after => KillAsked child ∈ after) s'); [|intros after Ha; right; by left|done].
    eapply (no_start_logs s6 s8' s' (fun events => KillAsked child ∈ events)).
    + destruct E7 as (e7 & E7 & N7). exists (e7 ++ [KillAsked child]). rewrite E8, E7, app_assoc.
      split; [done|]. split; [unfold starts in *; set_solver|set_solver].
    + exact N9.
    + intros e1 e2 He. set_solver.
Qed.

(** *** What the manager does with processes *)

Definition log_of (s : Desk (B := Watched B)) : list ProcessEvent := s.2.1.1.
(** The manager holds the process that was started by a command. *)
Definition holds (self : NodeManager) (command : NodeCommand) (child : N) : Prop :=
  exists running, self.(nm_running) = Some running /\ running.(rn_child) = child
    /\ running.(rn_token) = command.(cmd_rpc_token)
    /\ running.(rn_config).(mnc_rpc_address) = command.(cmd_rpc_address).
(** Every process that was started is of a permitted command, and is held or dealt
    with, or [excused] holds; and a node that was held still is, or is dealt with. *)
Definition accounted (permitted : NodeCommand -> Prop) (excused : Prop) (s s' : Desk (B := Watched B)) : Prop :=
  exists events, log_of s' = log_of s ++ events
    /\ (forall command child, Spawned command child ∈ events ->
          permitted command
          /\ (holds s'.1 command child
              \/ dealt_with events command.(cmd_rpc_address) command.(cmd_rpc_token) child \/ excused))
    /\ (forall running, s.1.(nm_running) = Some running ->
          s'.1.(nm_running) = Some running \/ node_dealt_with events running).

#[export] Instance accounted_preorder permitted excused : PreOrder (accounted permitted excused).
Proof.
  split.
  - intros s. exists []. rewrite app_nil_r. split; [done|]. split; [set_solver|by left].
  - intros x y z (e1 & E1 & S1 & H1) (e2 & E2 & S2 & H2). exists (e1 ++ e2). rewrite E2, E1, app_assoc.
    split; [done|]. split.
    + intros command child [Hc|Hc]%elem_of_app.
      * apply S1 in Hc as [Hp Hc]. split; [done|]. destruct Hc as [(running & Hr & C & T & A)|[Hc|Hc]].
        -- apply H2 in Hr as [Hr|Hr]; [left; by exists running|]. right. left. apply dealt_with_app. right.
           by rewrite <-C, <-T, <-A.
        -- right. left. apply dealt_with_app. by left.
        -- by right; right.
      * apply S2 in Hc as [Hp Hc]. split; [done|]. destruct Hc as [Hc|[Hc|Hc]]; [by left| |by right; right].
        right. left. apply dealt_with_app. by right.
    + intros running Hr. apply H1 in Hr as [Hr|Hr].
      * apply H2 in Hr as [Hr|Hr]; [by left|right; apply dealt_with_app; by right].
      * right. apply dealt_with_app. by left.
Qed.

(** Steps that start nothing and leave the held node alone. *)
Definition idle (s s' : Desk (B := Watched B)) : Prop :=
  no_start s.2.1 s'.2.1 /\ s'.1.(nm_running) = s.1.(nm_running).
#[export] Instance idle_preorder : PreOrder idle.
Proof.
  split; [intros s; split; reflexivity|]. intros x y z [A1 B1] [A2 B2]. split; [by transitivity y.2.1|congruence].
Qed.
Lemma idle_accounted permitted excused s s' : idle s s' -> accounted permitted excused s s'.
Proof.
  intros [(events & E & N) Hr]. exists events. split; [done|]. rewrite Hr.
  split; [|by left]. intros command child H. destruct N. by exists command, child.
Qed.
Lemma on_host_idle {A} (m : method (Watched B) NErr.NodeManagerError A) : moves no_start m -> moves idle (on_host m).
Proof.
  intros H [self [b p]] s' r. unfold on_host. destruct (m b) as [b' r'] eqn:E. intros [= <- _].
  split; [by apply H in E|done].
Qed.
Lemma on_state_file_idle {A} (m : disk_op A) : moves idle (on_state_file m).
Proof.
  intros [self [b p]] s' r. unfold on_state_file. destruct (m p) as [p' r']. intros [= <- _]. split; [simpl; reflexivity|done].
Qed.
Lemma read_self_idle {A} (f : NodeManager -> nres A) : moves idle (read_self f).
Proof. intros s s' r [= <- _]. reflexivity. Qed.
Lemma updated_idle {A} (r : res A) : moves idle (updated r).
Proof. intros s s' r' [= <- _]. reflexivity. Qed.
Lemma mret_idle {A} (a : A) : moves (E := NErr.NodeManagerError) idle (mret a).
Proof. intros s s' r [= <- _]. reflexivity. Qed.
Lemma assign_idle f : (forall self, (f self).(nm_running) = self.(nm_running)) -> moves idle (assign f).
Proof. intros Hf s s' r [= <- _]. split; [simpl; reflexivity|apply Hf]. Qed.
Lemma attempt_idle {A} (m : method Desk NErr.NodeManagerError A) : moves idle m -> moves idle (attempt_call m).
Proof. intros H s s' r. unfold attempt_call. destruct (m s) as [s1 r1] eqn:E. intros [= <- _]. by apply H in E. Qed.

Ltac idly := repeat first
  [ apply on_state_file_idle | apply read_self_idle | apply updated_idle | apply mret_idle
  | apply attempt_idle | apply assign_idle; done
  | apply on_host_idle;
    (assumption || apply validate_runtime_tree_no_start || apply stop_process_no_start
     || (apply ignoring_no_start, stop_process_no_start) || by silent)
  | lazymatch goal with |- moves _ (mthen _ _) => apply (moves_mthen idle); [|intros ?] end
  | case_match ].

Lemma harden_permissions_no_start root : moves no_start (harden_runtime_permissions (B := Watched B) root).
Proof. unfold harden_runtime_permissions. silent. apply harden_no_start. Qed.
Lemma store_idle : moves idle runtime_store.
Proof. unfold runtime_store, runtime_root_path. idly. Qed.
Lemma state_io_no_start {A} (m : B -> B * result IoFailure A) :
  moves no_start (fun s => let '(s, r) := unwatched m s in (s, map_err r StateIo)).
Proof.
  intros s s' r. destruct (unwatched m s) as [s1 o] eqn:E. intros [= <- _].
  eapply watching_no_start; [|exact E]. intros ?. unfold starts. set_solver.
Qed.
Lemma layout_no_start root : moves no_start (runtime_layout_initialize (B := Watched B) root).
Proof.
  intros b. unfold runtime_layout_initialize. revert b.
  apply (moves_mthen no_start); [|intros link; repeat (apply (moves_mthen no_start); [|intros ?])].
  2: apply moves_mread, _.
  2-6: apply state_io_no_start.
  intros s s' r. destruct (look root s) as [s1 o] eqn:E. destruct o; intros [= <- _];
    (eapply watching_no_start; [|exact E]); intros ?; unfold starts; set_solver.
Qed.
Lemma runtime_layout_idle : moves idle runtime_layout.
Proof.
  unfold runtime_layout, runtime_root_path. apply (moves_mthen idle); [idly|].
  intros root [self [b p]] s' r. destruct (runtime_layout_initialize root b) as [b' o] eqn:E. intros [= <- _].
  split; [by apply layout_no_start in E|done].
Qed.
Lemma policy_idle manifest current now : moves idle (validate_node_feed_policy manifest current now).
Proof. unfold validate_node_feed_policy, load_runtime_state. idly; apply runtime_layout_idle. Qed.
Lemma evaluate_idle b current : moves idle (evaluate_signed_node_feed b current).
Proof. unfold evaluate_signed_node_feed. idly. apply policy_idle. Qed.
Lemma release_metadata_idle b manifest signature platform :
  moves idle (evaluate_running_signed_release_metadata b manifest signature platform).
Proof. unfold evaluate_running_signed_release_metadata. idly. apply evaluate_idle. Qed.
Lemma active_revision_idle : moves idle active_revision.
Proof.
  intros s s' r. unfold active_revision. destruct (mthen _ _ s) as [s1 [v|e]] eqn:E; intros [= <- _];
    (eapply (moves_mthen idle) in E; [exact E|apply store_idle|intros ?; idly]).
Qed.

Lemma logs_desk P (s s' : Desk (B := Watched B)) : logs P s.2.1 s'.2.1 ->
  exists events, log_of s' = log_of s ++ events /\ ~ starts events /\ P events.
Proof. done. Qed.

(** The node that was held is dealt with; when its stop succeeds, it ended. *)
Lemma shutdown_watched permitted excused s s' r :
  shutdown s = (s', r) ->
  accounted permitted excused s s'
  /\ (r = Ok tt -> forall running, s.1.(nm_running) = Some running ->
        exists events, log_of s' = log_of s ++ events /\ Exited running.(rn_child) ∈ events).
Proof.
  unfold shutdown. destruct (nm_running s.1) as [running|] eqn:Hr; [|intros [= <- _]; split; [reflexivity|done]].
  destruct s as [self [b p]]. simpl in Hr. destruct (on_host _ _) as [[self1 [b1 p1]] o] eqn:E.
  assert (El : logs (fun events => node_dealt_with events running
                                   /\ (o = Ok tt -> Exited running.(rn_child) ∈ events)) b b1).
  { unfold on_host in E. simpl in E. destruct (stop_process running b) as [b2 o2] eqn:E2.
    injection E as _ <- _ <-. by apply stop_process_run. }
  destruct El as (events & El & N & Hd & Hx). intros H.
  assert (Hs : log_of s' = log_of (self, (b, p)) ++ events /\ (r = Ok tt -> o = Ok tt)).
  { destruct o as [[]|e]; injection H as <- <-; by split. }
  destruct Hs as [Hs Ho]. split.
  - exists events. split; [done|]. split; [intros command child Hc; destruct N; by exists command, child|].
    intros running' Hr'. cbn in Hr'. right. by replace running' with running by congruence.
  - intros Hok%Ho running' Hr'. cbn in Hr'. replace running' with running by congruence. eauto.
Qed.

Definition commands_of (configuration : ManagedNodeConfig) (command : NodeCommand) : Prop :=
  exists binary token, command = node_command binary configuration token.

Lemma started_desk root binary configuration expected s s1 r excused :
  on_host (start_process root binary configuration expected) s = (s1, r) -> s.1.(nm_running) = None ->
  match r with
  | Ok running => forall s' later, log_of s' = log_of s1 ++ later -> ~ starts later ->
      s'.1.(nm_running) = Some running \/ node_dealt_with later running \/ excused ->
      accounted (commands_of configuration) excused s s'
  | Err _ => accounted (commands_of configuration) excused s s1
  end.
Proof.
  destruct s as [self [b p]]. unfold on_host. destruct (start_process _ _ _ _ b) as [b1 o] eqn:E.
  intros [= <- <-] Hr. cbn in Hr. apply start_process_run in E as [[N [e ->]]|(token & child & before & after & E & Nb & Na & Ho)].
  { by apply idle_accounted. }
  assert (Hgo : forall s' later, log_of s' = b1.1 ++ later -> ~ starts later ->
    let command := node_command binary configuration token in
    holds s'.1 command child \/ dealt_with (after ++ later) command.(cmd_rpc_address) command.(cmd_rpc_token) child
      \/ excused -> accounted (commands_of configuration) excused (self, (b, p)) s').
  { intros s' later El Nl command Hd. exists ((before ++ [Spawned command child] ++ after) ++ later).
    rewrite El, E. unfold log_of. simpl. rewrite <-!app_assoc. split; [done|]. rewrite Hr. split; [|done].
    intros command' child' Hc. assert (Hc' : command' = command /\ child' = child).
    { unfold starts in *. set_solver. }
    destruct Hc' as [-> ->]. split; [by exists binary, token|]. destruct Hd as [Hd|[Hd|Hd]]; [by left| |by right; right].
    right. left. unfold dealt_with in *. set_solver. }
  destruct o as [running|e].
  - destruct Ho as (C & T & F). intros s' later El Nl Hd. eapply Hgo; [done|done|].
    unfold node_dealt_with in Hd. rewrite C, T, F in Hd. destruct Hd as [Hd|[Hd|Hd]]; [left| |by right; right].
    + exists running. rewrite F. done.
    + right. left. apply dealt_with_app. by right.
  - eapply (Hgo (self, (b1, p)) []); [by rewrite app_nil_r|unfold starts; set_solver|]. right. left.
    apply dealt_with_app. by left.
Qed.

Lemma check_candidate_watched manifest state running s s' r :
  check_candidate manifest state running s = (s', r) ->
  exists later, log_of s' = log_of s ++ later /\ ~ starts later /\ s'.1 = s.1
    /\ (forall e, r = Ok (Err e) -> node_dealt_with later running).
Proof.
  intros H. assert (Hs : s'.1 = s.1) by (by apply check_candidate_same in H). revert H.
  assert (Hstop : forall (s s' : Desk) e (r : nres (nres RunningNode)),
    (on_host (ignoring (stop_process running)) ;;; mret (Err e)) s = (s', r) ->
    logs (fun later => node_dealt_with later running) s.2.1 s'.2.1).
  { clear. intros [self [b p]] s' e r H. unfold mthen, on_host, ignoring in H.
    destruct (stop_process running b) as [b1 o] eqn:E. injection H as <- _.
    apply stop_process_run in E as (later & E & N & Hd & _). by exists later. }
  unfold check_candidate. destruct (negb _).
  { intros H. apply Hstop in H as (later & E & N & Hd). exists later. eauto. }
  destruct state as [state|].
  2:{ intros [= <- <-]. exists []. rewrite app_nil_r. split; [done|]. split; [unfold starts; set_solver|]. done. }
  intros H. apply mthen_inv in H as [(e & H & ->)|(s1 & u1 & H1 & H)].
  { apply runtime_layout_idle in H as [(later & E & N) _]. exists later. by repeat split. }
  apply runtime_layout_idle in H1 as [N1 _].
  apply mthen_inv in H as [(e & H & ->)|(s2 & sequence & H2 & H)].
  { eapply on_host_idle in H as [N2 _]; [|silent]. destruct (transitivity N1 N2) as (later & E & N).
    exists later. by repeat split. }
  eapply on_host_idle in H2 as [N2 _]; [|silent].
  apply mthen_inv in H as [(e & H & ->)|(s3 & persisted & H3 & H)].
  { by unfold attempt_call in H; destruct (on_state_file _ _). }
  assert (N3 : no_start s2.2.1 s3.2.1).
  { eapply attempt_idle in H3 as [N3 _]; [done|apply on_state_file_idle]. }
  destruct (transitivity N1 (transitivity N2 N3)) as (later & E & N).
  destruct persisted as [u|e].
  - injection H as <- <-. exists later. by repeat split.
  - apply Hstop in H as (more & E' & N' & Hd). exists (later ++ more). unfold log_of. rewrite E', E, app_assoc.
    split; [done|]. split; [unfold starts in *; set_solver|]. split; [done|]. intros ? _.
    apply dealt_with_app. by right.
Qed.

(** An idle step ends the run, or is passed. *)
Lemma then_idle {A C} (m : method Desk NErr.NodeManagerError A) (k : A -> method Desk NErr.NodeManagerError C) s s' r :
  moves idle m -> mthen m k s = (s', r) ->
  (idle s s' /\ exists e, m s = (s', Err e) /\ r = Err e) \/ exists s1 a, m s = (s1, Ok a) /\ idle s s1 /\ k a s1 = (s', r).
Proof.
  intros Hm H. apply mthen_inv in H as [(e & H & ->)|(s1 & a & H1 & H)].
  - left. split; [by apply Hm in H|by eexists].
  - right. exists s1, a. split; [done|]. split; [by apply Hm in H1|done].
Qed.

(** A start that is taken over when it succeeds. *)
Lemma start_and_take root binary configuration expected lifecycle error excused s s1 s' running :
  on_host (start_process root binary configuration expected) s = (s1, Ok running) -> s.1.(nm_running) = None ->
  s' = ((take_over running lifecycle error s1).1) ->
  accounted (commands_of configuration) excused s s'.
Proof.
  intros H Hn ->. eapply started_desk in H; [|done].
  apply (H _ []); [by rewrite app_nil_r|unfold starts; set_solver|by left].
Qed.

Lemma restore_data_idle root backup configuration : moves idle (restore_data root backup configuration).
Proof. unfold restore_data. idly. Qed.

Lemma roll_back_watched root previous backup configuration error excused s s' r :
  roll_back root previous backup configuration error s = (s', r) -> s.1.(nm_running) = None ->
  accounted (commands_of configuration) excused s s'.
Proof.
  intros H Hn. unfold roll_back in H. rewrite then_assign in H. unfold mthen at 1, read_self at 1 in H.
  change (nm_running _) with (nm_running s.1) in H at 1. rewrite Hn in H. unfold mthen at 1, mret at 1 in H.
  fold (restore_data root backup configuration) in H. set (s1 := (_, s.2)) in H.
  assert (I1 : idle s s1) by (split; [simpl; reflexivity|done]).
  assert (Hidle : forall s2, idle s1 s2 -> accounted (commands_of configuration) excused s s2).
  { intros s2 I2. apply idle_accounted. by transitivity s1. }
  destruct previous as [previous|].
  - apply then_idle in H as [[I _]|(s2 & u2 & _ & I2 & H)]; [auto| |idly].
    apply then_idle in H as [[I _]|(s3 & u3 & _ & I3 & H)];
      [apply Hidle; by transitivity s2| |apply on_host_idle, harden_permissions_no_start].
    assert (J3 : idle s1 s3) by (by transitivity s2).
    apply then_idle in H as [[I _]|(s4 & u4 & _ & I4 & H)];
      [apply Hidle; by transitivity s3| |apply restore_data_idle].
    assert (J4 : idle s1 s4) by (by transitivity s3).
    apply then_idle in H as [[I _]|(s5 & binary & _ & I5 & H)]; [apply Hidle; by transitivity s4| |idly].
    assert (J5 : idle s s5) by (transitivity s1; [done|by transitivity s4]).
    assert (N5 : s5.1.(nm_running) = None) by (destruct J5 as [_ ->]; done).
    transitivity s5; [by apply idle_accounted|].
    apply mthen_inv in H as [(e & H & ->)|(s6 & restored & H6 & H)].
    + by eapply started_desk in H.
    + eapply start_and_take; [exact H6|done|]. by rewrite H.
  - apply then_idle in H as [[I _]|(s2 & u2 & _ & I2 & H)]; [auto| |apply restore_data_idle].
    injection H as <- _. apply Hidle. transitivity s2; [done|]. split; [simpl; reflexivity|done].
Qed.

Lemma checked_candidate_is_running manifest state running (s s' : Desk (B := Watched B)) candidate :
  check_candidate manifest state running s = (s', Ok candidate) ->
  forall checked, candidate = Ok checked -> checked = running.
Proof. intros H checked ->. by apply check_candidate_Ok in H as [-> _]. Qed.

(** A promotion that its question mark left after the candidate was started. *)
Definition abandoned {A} (s' : Desk (B := Watched B)) (r : nres A) : Prop :=
  (exists e, r = Err e) /\ s'.1.(nm_running) = None /\ s'.1.(nm_lifecycle) = Side.Promoting.

Lemma candidate_watched root previous backup manifest configuration runtime_state binary s s' r :
  s.1.(nm_running) = None -> s.1.(nm_lifecycle) = Side.Promoting ->
  (let! started := attempt_call (on_host (start_process root binary configuration (Some manifest.(sdm_revision)))) in
   let! candidate := match started with
                     | Ok running => check_candidate manifest runtime_state running
                     | Err error => mret (Err error)
                     end in
   match candidate with
   | Ok running => take_over running Side.Ready None ;;; mret running.(rn_identity)
   | Err candidate_error =>
       roll_back root previous backup configuration candidate_error ;;;
       read_self (fun _ => Err candidate_error)
   end) s = (s', r) ->
  accounted (commands_of configuration) (abandoned s' r) s s'.
Proof.
  intros Hn Hl H. apply mthen_inv in H as [(e & H & ->)|(s1 & started & Hs & H)].
  { by unfold attempt_call in H; destruct (on_host _ _). }
  unfold attempt_call in Hs. destruct (on_host (start_process _ _ _ _) s) as [s1' o] eqn:Ho.
  injection Hs as <- <-. apply on_host_same in Ho as E1. unfold same_self in E1.
  pose proof (started_desk _ _ _ _ _ _ _ (abandoned s' r) Ho Hn) as Hd.
  destruct o as [running|e].
  2:{ unfold mthen at 1, mret at 1 in H. transitivity s1'; [done|].
      apply mthen_inv in H as [(e' & H & ->)|(s3 & u3 & H3 & [= <- _])]; (eapply roll_back_watched; [eassumption|congruence]). }
  apply mthen_inv in H as [(e & H & ->)|(s2 & candidate & Hc & H)].
  { apply check_candidate_watched in H as (later & El & Nl & Es & _). eapply Hd; [exact El|done|]. right. right.
    split; [by exists e|]. by rewrite Es, E1. }
  pose proof (checked_candidate_is_running _ _ _ _ _ _ Hc) as Hsame.
  apply check_candidate_watched in Hc as (later & El & Nl & Es & Hgone).
  destruct candidate as [running'|e].
  - rewrite (Hsame running' eq_refl) in H. injection H as <- _. eapply Hd; [exact El|done|by left].
  - transitivity s2; [eapply Hd; [exact El|done|right; left; by eapply Hgone]|].
    assert (Hn2 : s2.1.(nm_running) = None) by congruence.
    apply mthen_inv in H as [(e' & H & ->)|(s3 & u3 & H3 & [= <- _])]; eapply roll_back_watched; eassumption.
Qed.

Lemma accounted_then_idle permitted excused s s1 s' :
  accounted permitted excused s s1 -> idle s1 s' -> accounted permitted excused s s'.
Proof. intros H I. transitivity s1; [done|by apply idle_accounted]. Qed.

Lemma promote_verified_watched manifest artifact configuration runtime_state s s' r :
  promote_verified manifest artifact configuration runtime_state s = (s', r) ->
  accounted (commands_of configuration) (abandoned s' r) s s'.
Proof.
  unfold promote_verified. intros H.
  apply then_idle in H as [[I _]|(s1 & root & _ & I1 & H)]; [by apply idle_accounted| |apply store_idle].
  apply then_idle in H as [[I _]|(s2 & previous & _ & I2 & H)];
    [apply idle_accounted; by transitivity s1| |idly].
  assert (J2 : idle s s2) by (by transitivity s1). clear I1 I2.
  unfold mthen at 1, read_self at 1 in H.
  assert (Hshut : forall s3 o, (if is_some (nm_running s2.1) then shutdown else mret tt) s2 = (s3, o) ->
    accounted (commands_of configuration) (abandoned s' r) s s3 /\ s3.1.(nm_running) = None).
  { intros s3 o E. destruct (is_some (nm_running s2.1)) eqn:Er.
    - split; [|by apply shutdown_run in E as [_ ?]]. apply (shutdown_watched (commands_of configuration) (abandoned s' r)) in E as [E _].
      transitivity s2; [by apply idle_accounted|done].
    - injection E as <- _. split; [by apply idle_accounted|]. by destruct (nm_running s2.1). }
  apply mthen_inv in H as [(e & H & ->)|(s3 & u3 & H3 & H)]; [by apply Hshut in H as [? _]|].
  apply Hshut in H3 as [A3 N3]. clear Hshut J2.
  apply then_idle in H as [[I _]|(s4 & has_data & _ & I4 & H)]; [by eapply accounted_then_idle| |idly].
  apply then_idle in H as [[I _]|(s5 & backup & _ & I5 & H)];
    [eapply accounted_then_idle; [done|by transitivity s4]| |idly].
  assert (J5 : idle s3 s5) by (by transitivity s4).
  apply then_idle in H as [[I _]|(s6 & u6 & _ & I6 & H)];
    [eapply accounted_then_idle; [done|by transitivity s5]| |idly].
  assert (J6 : idle s3 s6) by (by transitivity s5).
  rewrite then_assign in H. set (s7 := (_, s6.2)) in H.
  assert (J7 : idle s3 s7) by (transitivity s6; [done|split; [simpl; reflexivity|done]]).
  assert (L7 : s7.1.(nm_lifecycle) = Side.Promoting) by done.
  assert (Hstep : forall (C : Type) (m : method (Watched B) NErr.NodeManagerError C) (t t' : Desk) o,
    moves no_start m -> on_host m t = (t', o) -> idle s3 t /\ t.1.(nm_lifecycle) = Side.Promoting ->
    idle s3 t' /\ t'.1.(nm_lifecycle) = Side.Promoting).
  { intros C m t t' o Hm E [It Lt]. apply on_host_same in E as Es. split; [|by rewrite Es].
    transitivity t; [done|]. by apply (on_host_idle m Hm) in E. }
  apply mthen_inv in H as [(e & H & ->)|(s8 & u8 & H8 & H)].
  { eapply Hstep in H as [I _]; [by eapply accounted_then_idle|by silent|done]. }
  eapply Hstep in H8; [|by silent|done].
  apply mthen_inv in H as [(e & H & ->)|(s9 & u9 & H9 & H)].
  { eapply Hstep in H as [I _]; [by eapply accounted_then_idle|apply harden_permissions_no_start|done]. }
  eapply Hstep in H9; [|apply harden_permissions_no_start|done].
  apply mthen_inv in H as [(e & H & ->)|(s10 & binary & H10 & H)].
  { eapply Hstep in H as [I _]; [by eapply accounted_then_idle|by silent|done]. }
  eapply Hstep in H10 as [I10 L10]; [|by silent|done].
  transitivity s3; [done|]. transitivity s10; [by apply idle_accounted|].
  eapply candidate_watched; [|exact L10|exact H]. destruct I10 as [_ ->]. done.
Qed.

Lemma promote_watched node_feed mb ms platform artifact asig current configuration s s' r :
  promote_signed_release node_feed mb ms platform artifact asig current configuration s = (s', r) ->
  accounted (fun command => configuration_validate configuration = Ok tt /\ commands_of configuration command)
    (abandoned s' r) s s'.
Proof.
  unfold promote_signed_release. intros H.
  apply then_idle in H as [[I _]|(s1 & u1 & _ & I1 & H)]; [by apply idle_accounted| |unfold require_enabled; idly].
  apply then_idle in H as [[I _]|(s2 & u2 & _ & I2 & H)];
    [apply idle_accounted; by transitivity s1| |idly].
  assert (J2 : idle s s2) by (by transitivity s1).
  apply then_idle in H as [[I _]|(s3 & u3 & Hc & I3 & H)];
    [apply idle_accounted; by transitivity s2| |idly].
  assert (J3 : idle s s3) by (by transitivity s2). destruct u3. injection Hc as _ Hc.
  apply then_idle in H as [[I _]|(s4 & now & _ & I4 & H)];
    [apply idle_accounted; by transitivity s3| |idly].
  assert (J4 : idle s s4) by (by transitivity s3).
  apply then_idle in H as [[I _]|(s5 & feed' & _ & I5 & H)];
    [apply idle_accounted; by transitivity s4| |apply policy_idle].
  assert (J5 : idle s s5) by (by transitivity s4).
  apply then_idle in H as [[I _]|(s6 & u6 & _ & I6 & H)];
    [apply idle_accounted; by transitivity s5| |idly].
  assert (J6 : idle s s6) by (by transitivity s5).
  apply then_idle in H as [[I _]|(s7 & manifest & _ & I7 & H)];
    [apply idle_accounted; by transitivity s6| |idly].
  assert (J7 : idle s s7) by (by transitivity s6).
  apply then_idle in H as [[I _]|(s8 & u8 & _ & I8 & H)];
    [apply idle_accounted; by transitivity s7| |idly].
  assert (J8 : idle s s8) by (by transitivity s7).
  apply then_idle in H as [[I _]|(s9 & later & _ & I9 & H)];
    [apply idle_accounted; by transitivity s8| |idly].
  assert (J9 : idle s s9) by (by transitivity s8).
  apply then_idle in H as [[I _]|(s10 & state & _ & I10 & H)];
    [apply idle_accounted; by transitivity s9| |idly].
  transitivity s10; [apply idle_accounted; by transitivity s9|].
  apply promote_verified_watched in H as (events & El & Hs & Hr). exists events.
  split; [done|]. split; [|done]. intros command child Hin. apply Hs in Hin as [Hp Hh]. by split.
Qed.

Lemma start_active_watched configuration s s' r excused :
  start_active configuration s = (s', r) ->
  accounted (fun command => configuration_validate configuration = Ok tt /\ commands_of configuration command)
    excused s s'.
Proof.
  unfold start_active. intros H.
  apply then_idle in H as [[I _]|(s1 & u1 & _ & I1 & H)]; [by apply idle_accounted| |unfold require_enabled; idly].
  apply then_idle in H as [[I _]|(s2 & u2 & Hn & I2 & H)];
    [apply idle_accounted; by transitivity s1| |idly].
  assert (J2 : idle s s2) by (by transitivity s1). injection Hn as -> Hn. apply fail_if_Ok in Hn.
  apply then_idle in H as [[I _]|(s3 & u3 & Hc & I3 & H)];
    [apply idle_accounted; by transitivity s2| |idly].
  assert (J3 : idle s s3) by (by transitivity s2). destruct u3. injection Hc as _ Hc.
  apply then_idle in H as [[I _]|(s4 & root & _ & I4 & H)];
    [apply idle_accounted; by transitivity s3| |apply store_idle].
  assert (J4 : idle s s4) by (by transitivity s3).
  apply then_idle in H as [[I _]|(s5 & current & _ & I5 & H)];
    [apply idle_accounted; by transitivity s4| |idly].
  assert (J5 : idle s s5) by (by transitivity s4).
  apply then_idle in H as [[I _]|(s6 & revision & _ & I6 & H)];
    [apply idle_accounted; by transitivity s5| |idly].
  assert (J6 : idle s s6) by (by transitivity s5).
  apply then_idle in H as [[I _]|(s7 & binary & _ & I7 & H)];
    [apply idle_accounted; by transitivity s6| |idly].
  rewrite then_assign in H. set (s8 := (_, s7.2)) in H.
  assert (J8 : idle s s8) by (transitivity s6; [done|transitivity s7; [done|split; [simpl; reflexivity|done]]]).
  assert (N8 : s8.1.(nm_running) = None).
  { destruct J8 as [_ ->], J2 as [_ E2]. rewrite <-E2. by destruct (nm_running s2.1). }
  apply mthen_inv in H as [(e & H & ->)|(s9 & started & Hs & H)].
  { by unfold attempt_call in H; destruct (on_host _ _). }
  unfold attempt_call in Hs. destruct (on_host (start_process _ _ _ _) s8) as [s9' o] eqn:Ho. injection Hs as <- <-.
  assert (HA : accounted (commands_of configuration) excused s8 s').
  { destruct o as [running|e].
    - eapply start_and_take; [exact Ho|done|]. by injection H as <- _.
    - eapply started_desk in Ho; [|done]. eapply accounted_then_idle; [exact Ho|].
      injection H as <- _. split; [simpl; reflexivity|done]. }
  transitivity s8; [by apply idle_accounted|]. destruct HA as (events & El & Hs & Hr). exists events.
  split; [done|]. split; [|done]. intros command child Hin. apply Hs in Hin as [Hp Hh]. by split.
Qed.

Lemma status_watched permitted excused s s' r : manager_status s = (s', r) -> accounted permitted excused s s'.
Proof.
  unfold manager_status. intros H. unfold mthen at 1, read_self at 1 in H.
  assert (Hrest : forall s1, accounted permitted excused s s1 -> forall k,
    (let! revision := active_revision in read_self (k revision)) s1 = (s', r) -> accounted permitted excused s s').
  { intros s1 H1 k E. eapply accounted_then_idle; [exact H1|]. revert E.
    apply (moves_mthen idle); [apply active_revision_idle|intros ?; idly]. }
  destruct (nm_running s.1) as [running|] eqn:Hr; [|by apply (Hrest s) in H; [|reflexivity]].
  unfold mthen at 1 in H. destruct (on_host (host_io _) s) as [[self w] o] eqn:E.
  destruct s as [self0 [b p]]. unfold on_host in E. destruct (host_io _ b) as [b1 o1] eqn:E1.
  injection E as <- <- <-. apply host_io_watching in E1 as (a & E1 & Ha).
  assert (Hsame : forall self', self'.(nm_running) = Some running -> (forall command child, Spawned command child ∉
      match a with Ok true => [Exited running.(rn_child)] | Ok false => [] | Err _ => [StatusUnknown running.(rn_child)] end) ->
    accounted permitted excused (self0, (b, p)) (self', (b1, p))).
  { intros self' Hs Hno. eexists. split; [exact E1|]. split; [intros command child Hc; by apply Hno in Hc|].
    intros running' Hr'. left. cbn in Hr, Hr' |- *. congruence. }
  destruct a as [[]|e]; cbn in Ha; subst o1.
  - eapply Hrest; [|exact H]. eexists. split; [exact E1|]. split; [set_solver|].
    intros running' Hr'. cbn in Hr, Hr'. replace running' with running by congruence. right. left. set_solver.
  - eapply Hrest; [|exact H]. apply Hsame; [done|set_solver].
  - eapply Hrest; [|exact H]. apply Hsame; [done|set_solver].
Qed.

Lemma disable_watched permitted excused s s' r :
  disable_for_session s = (s', r) -> accounted permitted excused s s'.
Proof.
  unfold disable_for_session. unfold mthen at 1, read_self. intros H.
  assert (Hshut : forall s1 o, (if is_some (nm_running s.1) then shutdown else mret tt) s = (s1, o) ->
    accounted permitted excused s s1).
  { intros s1 o E. destruct (is_some _); [by eapply shutdown_watched in E as [E _]|by injection E as <- _]. }
  apply mthen_inv in H as [(e & H & ->)|(s1 & u & H1 & H)]; [by eapply Hshut|].
  eapply accounted_then_idle; [by eapply Hshut|]. revert H. idly.
Qed.
Lemma unanswered_errors {A} (m : method Desk NErr.NodeManagerError A) (s s' : Desk (B := Watched B)) r :
  unanswered m s = (s', r) -> exists r', m s = (s', r') /\ ((exists e, r' = Err e) -> exists e, r = Err e).
Proof.
  unfold unanswered. unfold mthen. destruct (m s) as [s1 [a|e]]; intros [= <- <-]; eexists; (split; [done|]); [by intros [? [=]]|by eexists].
Qed.

(** *** What a call does with processes *)

Definition configuration_of (call : ManagerCall) : option ManagedNodeConfig :=
  match call with
  | StartActive configuration | PromoteSignedRelease _ _ _ _ _ _ _ configuration => Some configuration
  | _ => None
  end.
Definition promotes (call : ManagerCall) : bool :=
  match call with PromoteSignedRelease _ _ _ _ _ _ _ _ => true | _ => false end.
Definition stops (call : ManagerCall) : bool :=
  match call with DisableForSession | Shutdown => true | _ => false end.
(** A command that a call may start a node with. *)
Definition asked_for (call : ManagerCall) (s : Desk (B := Watched B)) (command : NodeCommand) : Prop :=
  s.1.(nm_enabled_for_session) = true /\ exists configuration,
    configuration_of call = Some configuration /\ configuration_validate configuration = Ok tt
    /\ commands_of configuration command.
Definition left_behind (call : ManagerCall) (s' : Desk (B := Watched B)) (r : nres unit) : Prop :=
  promotes call = true /\ abandoned s' r.

Lemma idle_call {A} (m : method Desk NErr.NodeManagerError A) permitted excused s s' r :
  moves idle m -> unanswered m s = (s', r) -> accounted permitted excused s s'.
Proof. intros Hm [r' H]%unanswered_run. apply idle_accounted. by apply Hm in H. Qed.

(** A call that does not need the session starts nothing. *)
Lemma other_calls_watched call permitted excused s s' r :
  needs_session call = false -> manager_call call s = (s', r) -> accounted permitted excused s s'.
Proof.
  intros Hn H. destruct call; try done; unfold manager_call in H.
  - unfold configure_runtime in H. apply idle_accounted. revert H. apply (moves_mthen idle); [|intros ?; idly].
    apply on_host_idle. silent. apply validate_runtime_tree_no_start.
  - unfold enable_for_session in H. apply idle_accounted. revert s s' r H.
    apply (moves_mthen idle); [apply read_self_idle|intros ?; by apply assign_idle].
  - by eapply disable_watched.
  - by eapply shutdown_watched.
  - apply unanswered_run in H as [r' H]. by eapply status_watched.
  - eapply idle_call; [apply evaluate_idle|exact H].
  - eapply idle_call; [apply release_metadata_idle|exact H].
Qed.

Lemma call_watched call s s' r :
  manager_call call s = (s', r) -> accounted (asked_for call s) (left_behind call s' r) s s'.
Proof.
  intros H. destruct (needs_session call) eqn:Hn, (nm_enabled_for_session s.1) eqn:He.
  2:{ rewrite disabled_calls_do_nothing in H by done. injection H as <- _. reflexivity. }
  - assert (Hgo : forall configuration excused, configuration_of call = Some configuration ->
      (excused -> left_behind call s' r) ->
      accounted (fun command => configuration_validate configuration = Ok tt /\ commands_of configuration command)
        excused s s' -> accounted (asked_for call s) (left_behind call s' r) s s').
    { intros configuration excused Hc Hx (events & El & Hs & Hr). exists events. split; [done|]. split; [|done].
      intros command child Hin. apply Hs in Hin as [Hp Hh]. split; [split; [done|by exists configuration]|].
      destruct Hh as [Hh|[Hh|Hh]]; [by left|by right; left|right; right; auto]. }
    destruct call; try done; unfold manager_call in H; apply unanswered_errors in H as (r' & H & Hr').
    + eapply (Hgo _ False); [done|done|]. by eapply start_active_watched.
    + eapply Hgo; [done| |by eapply promote_watched]. intros (Ha & Hb & Hl). split; [done|]. by split; [apply Hr'|].
  - by eapply other_calls_watched.
  - by eapply other_calls_watched.
Qed.

(** A stop that succeeds leaves no node held, and the one that was held ended. *)
Lemma stop_watched call s s' r events :
  stops call = true -> manager_call call s = (s', r) -> r = Ok tt -> log_of s' = log_of s ++ events ->
  s'.1.(nm_running) = None
  /\ forall running, s.1.(nm_running) = Some running -> Exited running.(rn_child) ∈ events.
Proof.
  intros Hc H -> El.
  assert (Hgo : forall s1, shutdown s = (s1, Ok tt) -> s'.1.(nm_running) = s1.1.(nm_running) ->
    log_of s' = log_of s1 -> s'.1.(nm_running) = None
    /\ forall running, s.1.(nm_running) = Some running -> Exited running.(rn_child) ∈ events).
  { intros s1 H1 E1 E2. split; [rewrite E1; by apply shutdown_run in H1 as [_ ?]|]. intros running Hr.
    apply (shutdown_watched (fun _ => True) True) in H1 as [_ Hx].
    destruct (Hx eq_refl running Hr) as (events' & El' & Hin). rewrite <-E2, El in El'.
    apply app_inv_head in El'. by subst. }
  destruct call; try done; unfold manager_call in H; [|by apply (Hgo s')].
  unfold disable_for_session in H. unfold mthen at 1, read_self in H. 
  apply mthen_Ok in H as (s1 & u & H & [= <-]).
  destruct (is_some (nm_running s.1)) eqn:Er.
  - destruct u. by apply (Hgo s1).
  - injection H as <- _. simpl. by destruct (nm_running s.1).
Qed.

(** C10 Over any calls on a new manager, in any order and whatever the files, processes
    and requests answer, every process that the manager starts is started by a call to
    start or to promote made in an enabled session, which the exact confirmation on an
    unlocked wallet enabled with the wallet's release keys equal to those of
    dom-sidecar; its command is of the configuration asked for, which has its RPC and
    P2P addresses on the loopback interface.  At the end of the call the process is
    held, or was dealt with: it was seen to end, a kill was asked for, it accepted a
    shutdown and its status is unknown, or no HTTP client could be built.  The one
    exception is a promotion that fails between the start of its candidate and taking
    it over.  A node that was held still is after a call, or was dealt with in it; a
    session that is not enabled holds none and refuses to start and to promote with
    nothing done; and when disabling or shutting down succeeds, the node that was held
    has ended. *)
Theorem sidecar_runs_only_when_enabled (calls : list ManagerCall) (call : ManagerCall) (b : B) (p : Place) :
  let s := run_manager_calls calls (NodeManager_default, (([], b), p)) in
  let '(s', r) := manager_call call s in
  (s.1.(nm_enabled_for_session) = true -> Exists opts_in calls /\ keys_match)
  /\ (forall running, s.1.(nm_running) = Some running ->
       s.1.(nm_enabled_for_session) = true /\ configuration_validate running.(rn_config) = Ok tt)
  /\ (s.1.(nm_enabled_for_session) = false -> needs_session call = true -> s' = s /\ r = Err NErr.Disabled)
  /\ exists events, log_of s' = log_of s ++ events
       /\ (forall command child, Spawned command child ∈ events ->
            asked_for call s command
            /\ (holds s'.1 command child
                \/ dealt_with events command.(cmd_rpc_address) command.(cmd_rpc_token) child
                \/ left_behind call s' r))
       /\ (forall running, s.1.(nm_running) = Some running ->
            s'.1.(nm_running) = Some running \/ node_dealt_with events running)
       /\ (stops call = true -> r = Ok tt -> s'.1.(nm_running) = None
            /\ forall running, s.1.(nm_running) = Some running -> Exited running.(rn_child) ∈ events).
Proof.
  intros s. destruct (manager_call call s) as [s' r] eqn:E.
  assert (H : (s.1.(nm_enabled_for_session) = true -> Exists opts_in calls /\ keys_match) /\ manager_ok s.1).
  { clear E. subst s. induction calls as [|call' calls [He Hok]] using rev_ind; [by split|].
    unfold run_manager_calls in *. rewrite fold_left_app. simpl. set (s := fold_left _ calls _) in *.
    destruct (manager_call call' s) as [s1 r1] eqn:E. apply calls_are_allowed in E as [Ha Hb]. simpl.
    split; [|by apply Hb]. rewrite Exists_app. intros [H|[H Hk]]%Ha; [apply He in H as [? ?]; auto|].
    split; [right; by constructor|done]. }
  destruct H as [He Hok]. split; [done|]. split; [done|]. split.
  { intros Hs Hc. rewrite disabled_calls_do_nothing in E by done. by injection E as <- <-. }
  apply call_watched in E as Hw. destruct Hw as (events & El & Hs & Hr). exists events.
  repeat (split; [done|]). intros Hc Hok'. by eapply stop_watched.
Qed.
End watched.

(** ** A sample host

    One runtime whose processes are known by number with the revision they run; the
    disk holds a bounded number of runtime layouts; time passes with every sleep. *)
Record SampleHost := mkSampleHost {
  sh_active : option bytes;
  sh_processes : list (N * bytes);
  sh_layouts : N;
  sh_clock : N;
  sh_restored : N;
}.
#[global] Instance SampleHost_fields : FieldList SampleHost := fun r =>
  mkSampleHost r.(sh_active) r.(sh_processes) r.(sh_layouts) r.(sh_clock) r.(sh_restored).

Definition sample_binary (root : path) (revision : bytes) : path := root ++ [Normal (str "dom-node-" ++ revision)].
Definition sample_last (p : path) : bytes := match last p with Some (Normal name) => name | _ => [] end.
Definition sample_tree (p : path) : Tree :=
  mkTree (if starts_with (str "dom-node-") (sample_last p) then mkMetadata IsFile 0 0x1c0
          else mkMetadata IsDirectory 0 0x1c0) [].
Definition sample_running (b : SampleHost) : option bytes := snd <$> head b.(sh_processes).

#[local] Existing Instances sample_urls sample_versions sample_times sample_digests sample_feed.
#[local] Instance sample_host : NodeHost SampleHost := {|
  look p b := (b, Ok (sample_tree p));
  path_exists _ b := (b, true);
  create_directories p b :=
    if bool_decide (sample_last p = str "nodes") then
      if b.(sh_layouts) =? 0 then (b, Err IoFailed) else (b <| sh_layouts := b.(sh_layouts) - 1 |>, Ok tt)
    else (b, Ok tt);
  set_permissions _ _ b := (b, Ok tt);
  probe_owner _ b := (b, Ok 0);
  store_current_revision _ b := (b, Ok b.(sh_active));
  store_binary_path root revision b := (b, Ok (sample_binary root revision));
  store_install _ _ _ b := (b, Ok tt);
  store_promote _ revision b := (b <| sh_active := Some revision |>, Ok tt);
  store_rollback _ revision b := (b <| sh_active := Some revision |>, Ok tt);
  store_backup _ data b := (b, Ok (data ++ [Normal (str "backup")]));
  store_restore _ _ _ b := (b <| sh_restored := b.(sh_restored) + 1 |>, Ok tt);
  spawn command b :=
    let pid := b.(sh_clock) in
    (b <| sh_clock := pid + 1 |>
       <| sh_processes := (pid, drop 9 (sample_last command.(cmd_binary))) :: b.(sh_processes) |>, Ok pid);
  has_exited child b := (b, Ok (negb (existsb (fun p => p.1 =? child) b.(sh_processes))));
  kill child b := (b <| sh_processes := filter (fun p => p.1 <> child) b.(sh_processes) |>, Ok tt);
  wait _ b := (b, Ok tt);
  http_client _ b := (b, true);
  rpc_health _ b := (b, is_some (sample_running b));
  rpc_build_info _ _ b := (b, (fun revision => mkBuildInfo (str "3") revision 1 1 1) <$> sample_running b);
  rpc_network_info _ _ b := (b, Some (mkNetworkInfo (str "mainnet") (str "chain") (str "genesis") 1 7));
  rpc_shutdown _ _ b := (b <| sh_processes := tail b.(sh_processes) |>, Some 202);
  port_is_free _ b := (b, true);
  clock b := (b, b.(sh_clock));
  sleep n b := b <| sh_clock := b.(sh_clock) + n |>;
  draw_token b := (b, str "token");
  now_utc b := (b, 500%Z);
  next_sequence b := (b, 0);
  process_id := 9;
|}.

Definition sample_release : SidecarManifest :=
  mkSidecarManifest (str "3") (str "rev") (str "mainnet") (str "chain") (str "genesis") 1 1 1 (str "10")
    [mkSidecarArtifact (str "linux-x86_64") (hex (zeros 32)) (str "url")].
(** The manifest permits the candidate's identity, or not. *)
#[local] Instance sample_sidecar (permits : bool) : SidecarCode sample_urls := {|
  verify_minisign _ _ := true;
  verify_manifest _ _ := Some sample_release;
  verify_release _ _ _ _ _ _ := Some sample_release;
  verify_promotion_identity _ _ := permits;
  sidecar_primary_key := PRIMARY_MINISIGN_KEY;
  sidecar_reserve_key := RESERVE_MINISIGN_KEY;
  node_manifest_from_json _ := Some sample_node_manifest;
  runtime_state_from_json _ := None;
  rfc3339_format _ := Some (str "now");
  url_as_str _ := str "url";
  package_version := str "2";
  target_os := str "linux";
  target_architecture := str "x86_64";
|}.
#[local] Instance sample_state_code : UpdaterStateCode := {|
  update_state_to_json _ := None;
  runtime_state_to_json state := Some (show state.(nrs_update_sequence));
|}.

Definition sample_node_configuration : ManagedNodeConfig :=
  mkManagedNodeConfig (str "mainnet") [RootDir; Normal (str "data")] (SocketV4 (mkIpv4Addr 127 0 0 1) 33369)
    (SocketV4 (mkIpv4Addr 127 0 0 1) 33370) [].
Definition sample_current : SidecarIdentity :=
  mkSidecarIdentity (str "2") (str "old") (str "mainnet") (str "chain") (str "genesis") 1 1 1 1 7.
Definition sample_runtime : path := [RootDir; Normal (str "runtime")].
Definition sample_manager_calls : list ManagerCall :=
  [ConfigureRuntime sample_runtime; EnableForSession EXPERIMENTAL_ENABLE_CONFIRMATION true;
   StartActive sample_node_configuration].
Definition sample_surroundings (layouts : N) : Surroundings (B := SampleHost) :=
  (mkSampleHost (Some (str "old")) [] layouts 0 0, mkPlace ∅ []).
(** A desk where the node of the old revision runs. *)
Definition sample_desk (permits : bool) (layouts : N) : Desk (B := SampleHost) :=
  run_manager_calls (sidecar := sample_sidecar permits) sample_manager_calls (NodeManager_default, sample_surroundings layouts).
Definition sample_promotion (permits : bool) (layouts : N) :=
  promote_signed_release (sidecar := sample_sidecar permits) (mkValidatedNodeFeed sample_node_manifest)
    None None (str "linux-x86_64") sample_bytes_sent sample_bytes_sent sample_current sample_node_configuration
    (sample_desk permits layouts).

(** The sample host with its log, and what a call adds to it. *)
Definition sample_watched (calls : list ManagerCall) : Desk (B := Watched SampleHost) :=
  run_manager_calls (sidecar := sample_sidecar true) calls
    (NodeManager_default, (([], (sample_surroundings 9).1), mkPlace ∅ [])).
Lemma sidecar_runs_only_when_enabled_witness :
  (exists running, (sample_watched sample_manager_calls).1.(nm_running) = Some running
     /\ configuration_validate running.(rn_config) = Ok tt
     /\ exists events, Exited running.(rn_child) ∈ events
          /\ log_of (manager_call (sidecar := sample_sidecar true) DisableForSession (sample_watched sample_manager_calls)).1
             = log_of (sample_watched sample_manager_calls) ++ events)
  /\ Exists opts_in sample_manager_calls /\ keys_match (sidecar := sample_sidecar true)
  /\ manager_call (sidecar := sample_sidecar true) (StartActive sample_node_configuration) (sample_watched [])
     = (sample_watched [], Err NErr.Disabled).
Proof.
  assert (Hr : exists running, (sample_watched sample_manager_calls).1.(nm_running) = Some running)
    by (eexists; vm_compute; reflexivity).
  assert (Ho : (manager_call (sidecar := sample_sidecar true) DisableForSession (sample_watched sample_manager_calls)).2
               = Ok tt) by (vm_compute; reflexivity).
  assert (Hs : (sample_watched sample_manager_calls).1.(nm_enabled_for_session) = true) by (vm_compute; reflexivity).
  pose proof (sidecar_runs_only_when_enabled (sidecar := sample_sidecar true) sample_manager_calls DisableForSession
                (sample_surroundings 9).1 (mkPlace ∅ [])) as H.
  pose proof (sidecar_runs_only_when_enabled (sidecar := sample_sidecar true) [] (StartActive sample_node_configuration)
                (sample_surroundings 9).1 (mkPlace ∅ [])) as Hd.
  cbv zeta in H, Hd. change (list ProcessEvent * SampleHost)%type with (Watched SampleHost) in H, Hd.
  change (run_manager_calls sample_manager_calls _) with (sample_watched sample_manager_calls) in H.
  change (run_manager_calls [] _) with (sample_watched []) in Hd.
  destruct Hr as [running Hr].
  revert Hs Hr Ho H Hd. generalize (sample_watched sample_manager_calls). intros s Hs Hr.
  destruct (manager_call (sidecar := sample_sidecar true) DisableForSession s) as [s' r].
  destruct (manager_call (sidecar := sample_sidecar true) (StartActive _) (sample_watched [])) as [s1 r1].
  intros Ho H Hd.
  destruct H as (He & Hc & _ & events & El & _ & _ & Hx). destruct Hd as (_ & _ & Hd & _).
  destruct (Hx eq_refl Ho) as [_ Hend]. destruct (He Hs) as [Hopt Hk].
  split; [|split; [exact Hopt|split; [exact Hk|]]].
  - exists running. split; [exact Hr|]. split; [exact (proj2 (Hc running Hr))|].
    exists events. split; [exact (Hend running Hr)|exact El].
  - destruct (Hd eq_refl eq_refl) as [-> ->]. reflexivity.
Defined.

Lemma node_promotions_end_in_a_known_state_witness :
  (exists identity, (sample_promotion true 9).2 = Ok identity /\ identity.(sid_node_revision) = str "rev"
     /\ (sample_promotion true 9).1.2.2.(pl_entries) !! NODE_STATE_FILE = Some (Regular (str "8")))
  /\ (sample_promotion false 9).2 = Err NErr.Release
  /\ (settles (sample_desk false 9).1 (sample_promotion false 9).1.1
      \/ rolled_back_to_previous (sample_desk false 9).1 (sample_promotion false 9).1.1 sample_node_configuration NErr.Release).
Proof.
  pose proof (node_promotions_end_in_a_known_state (sidecar := sample_sidecar true) _ _ _ _ _ _ _ _ (sample_desk true 9)
                (sample_promotion true 9).1 (sample_promotion true 9).2 (surjective_pairing _)) as H1.
  pose proof (node_promotions_end_in_a_known_state (sidecar := sample_sidecar false) _ _ _ _ _ _ _ _ (sample_desk false 9)
                (sample_promotion false 9).1 (sample_promotion false 9).2 (surjective_pairing _)) as H2.
  assert (E1 : exists identity, (sample_promotion true 9).2 = Ok identity) by (vm_compute; eauto).
  assert (E2 : (sample_promotion false 9).2 = Err NErr.Release) by (vm_compute; reflexivity).
  rewrite E2 in H2. destruct E1 as [identity E1]. rewrite E1 in H1. split; [|split; [exact E2|]].
  - destruct H1 as (manifest & state & _ & _ & _ & _ & Hr & _). exists identity. split; [exact E1|].
    split; [|vm_compute; reflexivity]. 
    assert (E : (sample_promotion true 9).2 = Ok identity -> sid_node_revision identity = str "rev")
      by (vm_compute; intros [= <-]; reflexivity). exact (E E1).
  - destruct H2 as [H|(manifest & state & _ & H)]; [left; exact H|right; exact H].
Defined.

(** A rollback leaves the node of the old revision running and its data restored. *)
Example a_refused_candidate_is_undone :
  let s := (sample_promotion false 9).1 in
  s.1.(nm_lifecycle) = Side.RolledBack /\ s.2.1.(sh_active) = Some (str "old")
  /\ sample_running s.2.1 = Some (str "old") /\ length s.2.1.(sh_processes) = 1%nat /\ s.2.1.(sh_restored) = 1.
Proof. vm_compute. auto. Qed.

(** A runtime layout that fails after the candidate was started leaves the promotion
    without a rollback: the candidate runs, no manager holds it, and the store points
    to its revision. *)
Example a_failed_layout_abandons_the_candidate :
  let '(s, r) := sample_promotion true 1 in
  r = Err (NErr.Update StateIo) /\ s.1.(nm_running) = None /\ s.1.(nm_lifecycle) = Side.Promoting
  /\ s.2.1.(sh_active) = Some (str "rev") /\ sample_running s.2.1 = Some (str "rev")
  /\ s.2.1.(sh_restored) = 0.
Proof. vm_compute. auto 10. Qed.
