(* ===== verification/RemoteWire.v ===== *)
(** * The wire of the remote scanner

    The page of crates/dom-wallet-remote-source/src/lib.rs: the decoded JSON
    records, and [parse_full_scan] with what it calls.  The JSON decoder itself is
    an interface of [RemoteSource]; texts are [bytes], as in [Bytes]. *)

From S2P Require Import Prelude Bytes Codecs DomainTypes WalletOps Reservations CoreTypes Projection.

Definition REMOTE_FULL_SCAN_SCHEMA_VERSION : N := 1.
Definition REMOTE_MAX_FULL_SCAN_RANGE : N := 64.

(** ** The decoded records *)

Record WireIdentity := mkWireIdentity {
  wid_network : bytes;
  wid_network_magic : N;
  wid_chain_id : bytes;
  wid_genesis_hash : bytes;
  wid_protocol_version : N;
  wid_range_proof_serialization_version : N;
  wid_coinbase_maturity : N;
  wid_tip_height : N;
  wid_tip_hash : bytes;
}.

Record WireAnchor := mkWireAnchor {
  wan_height : N;
  wan_block_hash : bytes;
}.

Record WireCoinbase := mkWireCoinbase {
  wcb_output_commitment : bytes;
  wcb_explicit_value : N;
  wcb_kernel_excess : bytes;
  wcb_kernel_features : N;
  wcb_kernel_excess_signature : bytes;
  wcb_offset : bytes;
  wcb_output_proof_envelope : bytes;
}.

Record WireInput := mkWireInput { win_spent_commitment : bytes }.

Record WireOutput := mkWireOutput {
  wou_commitment : bytes;
  wou_range_proof : bytes;
  wou_recovery_capsule : bytes;
  wou_recovery_version : N;
  wou_is_coinbase : bool;
  wou_block_height : N;
  wou_block_hash : bytes;
  wou_output_position : N;
}.

Record WireKernel := mkWireKernel {
  wke_excess : bytes;
  wke_features : N;
  wke_fee : N;
  wke_lock_height : N;
  wke_excess_signature : bytes;
}.

Record WireTransaction := mkWireTransaction {
  wtx_block_height : N;
  wtx_block_hash : bytes;
  wtx_transaction_index : N;
  wtx_tx_hash : bytes;
  wtx_canonical_bytes : bytes;
  wtx_inputs : list WireInput;
  wtx_outputs : list WireOutput;
  wtx_kernels : list WireKernel;
  wtx_offset : bytes;
}.

Record WireBlock := mkWireBlock {
  wbk_height : N;
  wbk_block_hash : bytes;
  wbk_previous_block_hash : bytes;
  wbk_canonical_header_bytes : bytes;
  wbk_timestamp : N;
  wbk_canonical_marker : bytes;
  wbk_transactions : list WireTransaction;
  wbk_protocol_version : N;
  wbk_range_proof_serialization_version : N;
  wbk_total_fees_noms : N;
  wbk_coinbase : WireCoinbase;
}.

Record WireContinuation := mkWireContinuation {
  wcn_next_height : N;
  wcn_anchor : WireAnchor;
  wcn_snapshot_tip_height : N;
  wcn_snapshot_tip_hash : bytes;
}.

Record WireFullScan := mkWireFullScan {
  wfs_schema_version : N;
  wfs_status : bytes;
  wfs_canonical : bool;
  wfs_identity : WireIdentity;
  wfs_requested_from : N;
  wfs_requested_to : N;
  wfs_served_from : N;
  wfs_served_to : option N;
  wfs_request_anchor : option WireAnchor;
  wfs_blocks : list WireBlock;
  wfs_continuation : option WireContinuation;
}.

Record WireBlockHeader := mkWireBlockHeader {
  wbh_height : N;
  wbh_hash : bytes;
}.

(** The page mapped to Core's types. *)
Record ParsedFullScan := mkParsedFullScan {
  pfs_identity : ChainIdentity;
  pfs_blocks : list ScanBlock;
}.

(** [RecoveryCapsule::from_bytes] of dom-crypto: the capsule's version, and its
    bytes again. *)
Class CapsuleCodec := { capsule_from_bytes : bytes -> option (N * bytes) }.

(** ** Fields *)

(** The text of the error, which is dropped, names [code]. *)
Definition schema_violation (code : string) : WErr.WalletCoreError := WErr.InternalFailure.

Definition decode_hex_blob (text : bytes) (code : string) : result WErr.WalletCoreError bytes :=
  ok_or (unhex text) (schema_violation code).

Definition decode_fixed (n : N) (text : bytes) (code : string) : result WErr.WalletCoreError bytes :=
  let? b := ok_or (unhex text) (schema_violation code) in
  fail_if (negb (len b =? n)) (schema_violation code) ;?
  Ok b.
Definition decode_hash32 := decode_fixed 32.
Definition decode_commitment33 := decode_fixed 33.

Definition decode_network (name : bytes) : result WErr.WalletCoreError CNet.CoreNetwork :=
  if bool_decide (name = str "mainnet") then Ok CNet.Mainnet
  else if bool_decide (name = str "testnet") then Ok CNet.Testnet
  else if bool_decide (name = str "regtest") then Ok CNet.Regtest
  else Err (schema_violation "NETWORK_NAME").

Definition same_immutable_identity (expected actual : ChainIdentity) : bool :=
  bool_decide (expected.(ci_network) = actual.(ci_network))
  && (expected.(ci_network_magic) =? actual.(ci_network_magic))
  && bool_decide (expected.(ci_chain_id) = actual.(ci_chain_id))
  && bool_decide (expected.(ci_genesis_hash) = actual.(ci_genesis_hash))
  && (expected.(ci_protocol_version) =? actual.(ci_protocol_version))
  && (expected.(ci_range_proof_serialization_version)
      =? actual.(ci_range_proof_serialization_version))
  && (expected.(ci_coinbase_maturity) =? actual.(ci_coinbase_maturity)).

(** ** Pages *)

Section wire.
Context {codec : CoreCodec} {capsules : CapsuleCodec}.

Definition parse_input (input : WireInput) : result WErr.WalletCoreError ScanInput :=
  let? commitment := decode_commitment33 input.(win_spent_commitment) "INPUT_COMMITMENT_HEX" in
  Ok (mkScanInput commitment).

Definition parse_output (output : WireOutput) : result WErr.WalletCoreError ScanOutput :=
  let? range_proof := decode_hex_blob output.(wou_range_proof) "RANGE_PROOF_HEX" in
  fail_if (negb (len range_proof =? RANGE_PROOF_SIZE)) (schema_violation "RANGE_PROOF_LENGTH") ;?
  let? recovery_capsule := decode_hex_blob output.(wou_recovery_capsule) "CAPSULE_HEX" in
  fail_if (negb (eqb (is_empty recovery_capsule) (output.(wou_recovery_version) =? 0)))
          (schema_violation "CAPSULE_VERSION") ;?
  (if is_empty recovery_capsule then Ok tt
   else let? capsule := ok_or (capsule_from_bytes recovery_capsule)
                              (schema_violation "CAPSULE_CANONICAL") in
        fail_if (negb (capsule.1 =? output.(wou_recovery_version)))
                (schema_violation "CAPSULE_VERSION")) ;?
  let? commitment := decode_commitment33 output.(wou_commitment) "OUTPUT_COMMITMENT_HEX" in
  let? block_hash := decode_hash32 output.(wou_block_hash) "OUTPUT_BLOCK_HASH_HEX" in
  Ok (mkScanOutput commitment range_proof recovery_capsule output.(wou_recovery_version)
        output.(wou_is_coinbase) output.(wou_block_height) block_hash output.(wou_output_position)).

Definition parse_kernel (kernel : WireKernel) : result WErr.WalletCoreError ScanKernel :=
  let? excess := decode_commitment33 kernel.(wke_excess) "KERNEL_EXCESS_HEX" in
  let? signature := decode_fixed 65 kernel.(wke_excess_signature) "KERNEL_SIGNATURE_HEX" in
  Ok (mkScanKernel excess kernel.(wke_features) kernel.(wke_fee) kernel.(wke_lock_height) signature).

Definition split_proof_envelope (envelope : bytes)
    : result WErr.WalletCoreError (bytes * bytes * N) :=
  if len envelope =? RANGE_PROOF_SIZE then Ok (envelope, [], 0)
  else if len envelope =? RANGE_PROOF_SIZE + RECOVERY_CAPSULE_SIZE then
    let? capsule := ok_or (capsule_from_bytes (drop (N.to_nat RANGE_PROOF_SIZE) envelope))
                          (schema_violation "COINBASE_CAPSULE_CANONICAL") in
    Ok (take (N.to_nat RANGE_PROOF_SIZE) envelope, capsule.2, capsule.1)
  else Err (schema_violation "COINBASE_PROOF_ENVELOPE_LENGTH").

(** The loop over the outputs of a transaction: those parsed so far, and the
    position of the next one, a [u32]. *)
Definition parse_located_output (height : N) (block_hash : bytes) (acc : list ScanOutput * N)
    (output : WireOutput) : result WErr.WalletCoreError (list ScanOutput * N) :=
  let '(tx_outputs, next_output_position) := acc in
  fail_if (negb (output.(wou_block_height) =? height)) (schema_violation "OUTPUT_LOCATION") ;?
  let? output_hash := decode_hash32 output.(wou_block_hash) "OUTPUT_BLOCK_HASH_HEX" in
  fail_if (negb (bool_decide (output_hash = block_hash))
           || negb (output.(wou_output_position) =? next_output_position)
           || output.(wou_is_coinbase)) (schema_violation "OUTPUT_LOCATION") ;?
  let? parsed := parse_output output in
  let? next := ok_or (checked_add u32_max next_output_position 1)
                     (schema_violation "OUTPUT_POSITION_OVERFLOW") in
  Ok (tx_outputs ++ [parsed], next).

(** An output as the transaction's own bytes give it. *)
Definition canonical_output (height : N) (block_hash : bytes) (first : N)
    (entry : nat * TransactionOutput) : result WErr.WalletCoreError ScanOutput :=
  let '(position, output) := entry in
  let? capsule := ok_or (recovery_capsule output) (schema_violation "TX_OUTPUT_ENVELOPE") in
  fail_if (u32_max <? N.of_nat position) (schema_violation "TX_OUTPUT_POSITION") ;?
  let? range_proof := ok_or (range_proof_bytes output) (schema_violation "TX_RANGE_PROOF") in
  let? output_position := ok_or (checked_add u32_max first (N.of_nat position))
                                (schema_violation "TX_OUTPUT_POSITION") in
  Ok (mkScanOutput output.(to_commitment) range_proof (from_option snd [] capsule)
        (from_option fst 0 capsule) false height block_hash output_position).

(** What the loop over the transactions of a block accumulates. *)
Record block_body := mkBlockBody {
  bb_inputs : list ScanInput;
  bb_outputs : list ScanOutput;
  bb_kernels : list ScanKernel;
  bb_transactions : list ScanTransaction;
  bb_next_output_position : N;
}.

Definition parse_transaction (height : N) (block_hash : bytes) (acc : block_body)
    (entry : nat * WireTransaction) : result WErr.WalletCoreError block_body :=
  let '(index, transaction) := entry in
  let first := acc.(bb_next_output_position) in
  let transaction_index := N.of_nat index mod (u32_max + 1) in
  fail_if (negb (transaction.(wtx_block_height) =? height))
          (schema_violation "TRANSACTION_LOCATION") ;?
  let? located := decode_hash32 transaction.(wtx_block_hash) "TX_BLOCK_HASH_HEX" in
  fail_if (negb (bool_decide (located = block_hash))
           || negb (transaction.(wtx_transaction_index) =? transaction_index))
          (schema_violation "TRANSACTION_LOCATION") ;?
  let? canonical_bytes := decode_hex_blob transaction.(wtx_canonical_bytes)
                                          "TX_CANONICAL_BYTES_HEX" in
  fail_if (is_empty canonical_bytes) (schema_violation "TX_CANONICAL_BYTES") ;?
  let? tx_hash := decode_hash32 transaction.(wtx_tx_hash) "TX_HASH_HEX" in
  let? parsed_tx := ok_or (transaction_from_bytes canonical_bytes)
                          (schema_violation "TX_CANONICAL_DECODE") in
  let? encoded := ok_or (transaction_to_bytes parsed_tx)
                        (schema_violation "TX_CANONICAL_REENCODE") in
  fail_if (negb (bool_decide (encoded = canonical_bytes))
           || negb (bool_decide (blake2b_256 canonical_bytes = tx_hash)))
          (schema_violation "TX_HASH_BINDING") ;?
  let? tx_inputs := collectM parse_input transaction.(wtx_inputs) in
  let? outputs := foldM (parse_located_output height block_hash) transaction.(wtx_outputs)
                        ([], first) in
  let? tx_kernels := collectM parse_kernel transaction.(wtx_kernels) in
  let canonical_inputs := map mkScanInput parsed_tx.(txn_inputs) in
  let? canonical_outputs := collectM (canonical_output height block_hash first)
                                     (imap pair parsed_tx.(txn_outputs)) in
  fail_if (negb (bool_decide (canonical_inputs = tx_inputs))
           || negb (bool_decide (canonical_outputs = outputs.1))
           || negb (bool_decide (parsed_tx.(txn_kernels) = tx_kernels)))
          (schema_violation "TX_PROJECTION_MISMATCH") ;?
  let? offset := decode_fixed 32 transaction.(wtx_offset) "TX_OFFSET_HEX" in
  fail_if (negb (bool_decide (parsed_tx.(txn_offset) = offset)))
          (schema_violation "TX_PROJECTION_MISMATCH") ;?
  Ok (mkBlockBody (acc.(bb_inputs) ++ tx_inputs) (acc.(bb_outputs) ++ outputs.1)
        (acc.(bb_kernels) ++ tx_kernels)
        (acc.(bb_transactions)
           ++ [mkScanTransaction (mkTransactionLocation height block_hash transaction_index) tx_hash
                 canonical_bytes parsed_tx.(txn_offset) tx_inputs outputs.1 tx_kernels])
        outputs.2).

(** The coinbase of a block, and the flat lists that it begins. *)
Definition parse_coinbase (height : N) (block_hash : bytes) (wire : WireCoinbase)
    : result WErr.WalletCoreError (CoinbaseScanMetadata * block_body) :=
  let? envelope := decode_hex_blob wire.(wcb_output_proof_envelope) "COINBASE_PROOF_ENVELOPE_HEX" in
  let? proof := split_proof_envelope envelope in
  let? commitment := decode_commitment33 wire.(wcb_output_commitment) "COINBASE_COMMITMENT_HEX" in
  let? excess := decode_commitment33 wire.(wcb_kernel_excess) "COINBASE_EXCESS_HEX" in
  let? signature := decode_fixed 65 wire.(wcb_kernel_excess_signature) "COINBASE_SIGNATURE_HEX" in
  let? offset := decode_fixed 32 wire.(wcb_offset) "COINBASE_OFFSET_HEX" in
  let coinbase := mkCoinbaseScanMetadata commitment wire.(wcb_explicit_value) excess
                    wire.(wcb_kernel_features) signature offset envelope in
  Ok (coinbase,
      mkBlockBody []
        [mkScanOutput commitment proof.1.1 proof.1.2 proof.2 true height block_hash 0]
        [mkScanKernel excess wire.(wcb_kernel_features) 0 0 signature] [] 1).

(** The header against its bytes and the block's own fields: the block's hash,
    its predecessor's, the header's bytes and the marker. *)
Definition parse_header (network_magic : N) (block : WireBlock)
    : result WErr.WalletCoreError (bytes * bytes * bytes * bytes) :=
  let? block_hash := decode_hash32 block.(wbk_block_hash) "BLOCK_HASH_HEX" in
  let? previous_block_hash := decode_hash32 block.(wbk_previous_block_hash) "PREVIOUS_HASH_HEX" in
  let? canonical_marker := decode_hash32 block.(wbk_canonical_marker) "CANONICAL_MARKER_HEX" in
  let? header_bytes := decode_hex_blob block.(wbk_canonical_header_bytes) "CANONICAL_HEADER_HEX" in
  let? header := ok_or (header_from_bytes header_bytes)
                       (schema_violation "CANONICAL_HEADER_DECODE") in
  let? encoded := ok_or (header_to_bytes header) (schema_violation "CANONICAL_HEADER_REENCODE") in
  fail_if (negb (bool_decide (encoded = header_bytes))) (schema_violation "CANONICAL_HEADER") ;?
  let? identifier := ok_or (canonical_header_identifier network_magic header_bytes)
                           (schema_violation "CANONICAL_HEADER_IDENTIFIER") in
  fail_if (negb (bool_decide (identifier = block_hash))
           || negb (header.(bh_height) =? block.(wbk_height))
           || negb (bool_decide (header.(bh_prev_hash) = previous_block_hash))
           || negb (header.(bh_timestamp) =? block.(wbk_timestamp))
           || negb (header.(bh_version) =? block.(wbk_protocol_version))
           || negb (bool_decide (canonical_marker = block_hash)))
          (schema_violation "CANONICAL_HEADER") ;?
  Ok (block_hash, previous_block_hash, header_bytes, canonical_marker).

(** One turn of the loop over the blocks of a page: the blocks so far, and the
    hash the next one must name. *)
Definition parse_block (network_magic requested_from : N) (acc : list ScanBlock * option bytes)
    (entry : nat * WireBlock) : result WErr.WalletCoreError (list ScanBlock * option bytes) :=
  let '(blocks, previous_hash) := acc in
  let '(index, block) := entry in
  let? expected_height := ok_or (checked_add u64_max requested_from (N.of_nat index))
                                (schema_violation "HEIGHT_OVERFLOW") in
  fail_if (negb (block.(wbk_height) =? expected_height))
          (schema_violation "NONCONSECUTIVE_HEIGHT") ;?
  let? header := parse_header network_magic block in
  let '(block_hash, previous_block_hash, header_bytes, canonical_marker) := header in
  fail_if (is_some_and previous_hash
             (fun expected_previous => negb (bool_decide (previous_block_hash = expected_previous))))
          (schema_violation "PREVIOUS_HASH_CHAIN") ;?
  let? start := parse_coinbase block.(wbk_height) block_hash block.(wbk_coinbase) in
  let? body := foldM (parse_transaction block.(wbk_height) block_hash)
                     (imap pair block.(wbk_transactions)) start.2 in
  Ok (blocks ++ [mkScanBlock block.(wbk_height) block_hash previous_block_hash header_bytes
                   block.(wbk_timestamp) canonical_marker body.(bb_outputs) body.(bb_inputs)
                   body.(bb_kernels) body.(bb_transactions) start.1 block.(wbk_total_fees_noms)
                   block.(wbk_protocol_version) block.(wbk_range_proof_serialization_version)],
      Some block_hash).

Definition validate_continuation (continuation : option WireContinuation)
    (identity : ChainIdentity) (last_ : option ScanBlock) : result WErr.WalletCoreError unit :=
  match continuation with
  | None => Ok tt
  | Some continuation =>
      let? last_ := ok_or last_ (schema_violation "CONTINUATION_WITHOUT_BLOCK") in
      fail_if (negb (continuation.(wcn_next_height) =? saturating_add u64_max last_.(sbk_height) 1)
               || negb (continuation.(wcn_anchor).(wan_height) =? last_.(sbk_height)))
              (schema_violation "CONTINUATION") ;?
      let? anchor := decode_hash32 continuation.(wcn_anchor).(wan_block_hash)
                                   "CONTINUATION_ANCHOR_HASH" in
      fail_if (negb (bool_decide (anchor = last_.(sbk_block_hash)))
               || negb (continuation.(wcn_snapshot_tip_height)
                        =? identity.(ci_current_tip).(br_height)))
              (schema_violation "CONTINUATION") ;?
      let? tip := decode_hash32 continuation.(wcn_snapshot_tip_hash) "CONTINUATION_TIP_HASH" in
      fail_if (negb (bool_decide (tip = identity.(ci_current_tip).(br_hash))))
              (schema_violation "CONTINUATION")
  end.

Definition parse_identity (wire : WireIdentity) : result WErr.WalletCoreError ChainIdentity :=
  let? network := decode_network wire.(wid_network) in
  let? chain_id := decode_hash32 wire.(wid_chain_id) "CHAIN_ID_HEX" in
  let? genesis_hash := decode_hash32 wire.(wid_genesis_hash) "GENESIS_HASH_HEX" in
  let? tip_hash := decode_hash32 wire.(wid_tip_hash) "TIP_HASH_HEX" in
  Ok (mkChainIdentity network wire.(wid_network_magic) chain_id genesis_hash
        wire.(wid_protocol_version) wire.(wid_range_proof_serialization_version)
        wire.(wid_coinbase_maturity) (mkBlockReference wire.(wid_tip_height) tip_hash)).

Definition parse_anchor (anchor : option WireAnchor)
    : result WErr.WalletCoreError (option CoreBlockReference) :=
  match anchor with
  | None => Ok None
  | Some anchor =>
      let? hash := decode_hash32 anchor.(wan_block_hash) "REQUEST_ANCHOR_HASH" in
      Ok (Some (mkBlockReference anchor.(wan_height) hash))
  end.

(** [parse_full_scan], after the JSON is decoded. *)
Definition parse_full_scan (requested_from requested_to : N)
    (expected_anchor : option CoreBlockReference) (wire : WireFullScan)
    : result WErr.WalletCoreError ParsedFullScan :=
  fail_if (negb (wire.(wfs_schema_version) =? REMOTE_FULL_SCAN_SCHEMA_VERSION)
           || negb (bool_decide (wire.(wfs_status) = str "ok")) || negb wire.(wfs_canonical))
          (schema_violation "SCHEMA_VERSION") ;?
  let? identity := parse_identity wire.(wfs_identity) in
  fail_if (negb (wire.(wfs_requested_from) =? requested_from)
           || negb (wire.(wfs_requested_to) =? requested_to)
           || negb (wire.(wfs_served_from) =? requested_from)) (schema_violation "REQUEST_ECHO") ;?
  let? request_anchor := parse_anchor wire.(wfs_request_anchor) in
  fail_if (negb (bool_decide (request_anchor = expected_anchor)))
          (schema_violation "REQUEST_ANCHOR") ;?
  fail_if (REMOTE_MAX_FULL_SCAN_RANGE <? len wire.(wfs_blocks)) (schema_violation "RANGE_TOO_WIDE") ;?
  let served_to := wbk_height <$> last wire.(wfs_blocks) in
  fail_if (negb (bool_decide (wire.(wfs_served_to) = served_to))
           || is_some_and served_to (fun height => (requested_to <? height)
                || (identity.(ci_current_tip).(br_height) <? height)))
          (schema_violation "SERVED_RANGE") ;?
  let? parsed := foldM (parse_block identity.(ci_network_magic) requested_from)
                       (imap pair wire.(wfs_blocks)) ([], br_hash <$> expected_anchor) in
  validate_continuation wire.(wfs_continuation) identity (last parsed.1) ;?
  Ok (mkParsedFullScan identity parsed.1).
End wire.

(** ** What a page promises *)

(** Heights follow each other from [height], and each block names its
    predecessor, the first one the anchor if there is one. *)
Fixpoint chained (height : N) (previous : option bytes) (blocks : list ScanBlock) : Prop :=
  match blocks with
  | [] => True
  | block :: blocks =>
      block.(sbk_height) = height
      /\ (previous = None \/ previous = Some block.(sbk_previous_block_hash))
      /\ chained (height + 1) (Some block.(sbk_block_hash)) blocks
  end.

Section promises.
Context {codec : CoreCodec} {capsules : CapsuleCodec}.

(** The block hash commits to the header bytes, which encode the block's own
    fields. *)
Definition header_bound (network_magic : N) (block : ScanBlock) : Prop :=
  exists header,
    header_from_bytes block.(sbk_canonical_header_bytes) = Some header
    /\ header_to_bytes header = Some block.(sbk_canonical_header_bytes)
    /\ canonical_header_identifier network_magic block.(sbk_canonical_header_bytes)
       = Some block.(sbk_block_hash)
    /\ header.(bh_height) = block.(sbk_height)
    /\ header.(bh_prev_hash) = block.(sbk_previous_block_hash)
    /\ header.(bh_timestamp) = block.(sbk_timestamp)
    /\ header.(bh_version) = block.(sbk_protocol_version)
    /\ block.(sbk_canonical_marker) = block.(sbk_block_hash).

(** The coinbase's share of the flat lists. *)
Definition coinbase_first (block : ScanBlock) (output : ScanOutput) (kernel : ScanKernel) : Prop :=
  let coinbase := block.(sbk_coinbase) in
  output.(so_commitment) = coinbase.(csm_output_commitment)
  /\ output.(so_range_proof) = take (N.to_nat RANGE_PROOF_SIZE) coinbase.(csm_output_proof_envelope)
  /\ output.(so_is_coinbase) = true /\ output.(so_output_position) = 0
  /\ output.(so_block_height) = block.(sbk_height) /\ output.(so_block_hash) = block.(sbk_block_hash)
  /\ kernel = mkScanKernel coinbase.(csm_kernel_excess) coinbase.(csm_kernel_features) 0 0
                coinbase.(csm_kernel_excess_signature).

(** The scan adapter's own check of the transactions ([check_transaction])
    accepts the block's, and computes the block's flat lists from them. *)
Definition body_bound (block : ScanBlock) : Prop :=
  exists output kernel ex,
    coinbase_first block output kernel
    /\ foldM (check_transaction block) (imap pair block.(sbk_transactions))
         (mkExpectation [] [] [output] [kernel] 1) = Ok ex
    /\ block.(sbk_inputs) = ex.(ex_inputs) /\ block.(sbk_outputs) = ex.(ex_outputs)
    /\ block.(sbk_kernels) = ex.(ex_kernels).

(** ** Lemmas *)

Lemma decode_fixed_Ok n text code b :
  decode_fixed n text code = Ok b <-> unhex text = Some b /\ len b = n.
Proof.
  unfold decode_fixed. rewrite rbind_Ok. setoid_rewrite then_Ok. setoid_rewrite fail_if_Ok. split.
  - intros (b' & H & Hn & [= <-]). apply ok_or_Ok in H. by bool_inv.
  - intros [H Hn]. exists b. rewrite ok_or_Ok, negb_false_iff, N.eqb_eq. done.
Qed.

Lemma imap_pair_snoc {A} (l : list A) x : imap pair (l ++ [x]) = imap pair l ++ [(length l, x)].
Proof. rewrite imap_app. simpl. by rewrite Nat.add_0_r. Qed.

Lemma foldM_snoc {E A B} (f : A -> B -> result E A) l x a0 a :
  foldM f (l ++ [x]) a0 = Ok a <-> exists a1, foldM f l a0 = Ok a1 /\ f a1 x = Ok a.
Proof.
  rewrite foldM_app, rbind_Ok. simpl. setoid_rewrite rbind_Ok. split.
  - intros (a1 & H1 & a2 & H2 & [= <-]). eauto.
  - intros (a1 & H1 & H2). eauto.
Qed.

(** Numbering a transaction's own outputs is what the adapter expects of them. *)
Lemma canonical_outputs_expected block first outs ys :
  first + len outs <= u32_max ->
  Forall2 (fun x y => canonical_output block.(sbk_height) block.(sbk_block_hash) first x = Ok y)
    (imap pair outs) ys ->
  foldM (expect_output block) outs ([], first) = Ok (ys, first + len outs).
Proof.
  revert ys. induction outs as [|o outs IH] using rev_ind; intros ys Hb H; simpl in *.
  - apply Forall2_nil_inv_l in H as ->. unfold len. simpl. by rewrite N.add_0_r.
  - rewrite imap_pair_snoc in H. apply Forall2_app_inv_l in H as (ys1 & ys2 & H1 & H2 & ->).
    apply Forall2_cons_inv_l in H2 as (y & ys3 & Hy & H3 & ->). apply Forall2_nil_inv_l in H3 as ->.
    assert (Hl : len (outs ++ [o]) = len outs + 1) by (unfold len; rewrite length_app; simpl; lia).
    rewrite Hl in *. apply foldM_snoc. exists (ys1, first + len outs). split; [apply IH; [lia|done]|].
    unfold canonical_output in Hy. apply rbind_Ok in Hy as (c & Hc & Hy).
    rewrite then_Ok in Hy. destruct Hy as [_ Hy]. apply rbind_Ok in Hy as (rp & Hrp & Hy).
    apply rbind_Ok in Hy as (p & Hp & [= <-]). apply ok_or_Ok in Hc, Hrp, Hp.
    apply checked_add_Some in Hp as [-> _]. fold (len outs).
    unfold expect_output, scan_output_from_transaction_output. rewrite Hrp, Hc. cbn -[checked_add u32_max].
    unfold checked_add. rewrite (proj2 (N.leb_le _ _)) by lia. cbn -[u32_max].
    by rewrite N.add_assoc.
Qed.

(** The wire's outputs are consecutive, and their positions fit. *)
Lemma located_outputs height block_hash first outs l :
  foldM (parse_located_output height block_hash) outs ([], first) = Ok l ->
  l.2 = first + len l.1 /\ (first <= u32_max -> l.2 <= u32_max).
Proof.
  apply (foldM_inv (fun _ l => l.2 = first + len l.1 /\ (first <= u32_max -> l.2 <= u32_max))).
  - unfold len. simpl. split; lia.
  - intros _ o [l1 p1] l' [H1 H2] H. simpl in H1, H2. unfold parse_located_output in H.
    rewrite then_Ok in H. destruct H as [_ H]. apply rbind_Ok in H as (h & _ & H).
    rewrite then_Ok in H. destruct H as [_ H]. apply rbind_Ok in H as (so & _ & H).
    apply rbind_Ok in H as (p & Hp & [= <-]). apply ok_or_Ok, checked_add_Some in Hp as [-> Hp].
    simpl. split; [|lia]. rewrite H1. unfold len. rewrite length_app. simpl. lia.
Qed.

(** The remote's accumulator and the adapter's say the same. *)
Definition accords (ex : expectation) (body : block_body) : Prop :=
  ex.(ex_inputs) = body.(bb_inputs) /\ ex.(ex_outputs) = body.(bb_outputs)
  /\ ex.(ex_kernels) = body.(bb_kernels)
  /\ ex.(ex_output_position) = body.(bb_next_output_position)
  /\ ex.(ex_output_position) <= u32_max.

Lemma parse_transaction_checks block ex body index wire body' :
  N.of_nat index <= u32_max -> accords ex body ->
  parse_transaction block.(sbk_height) block.(sbk_block_hash) body (index, wire) = Ok body' ->
  exists t ex', body'.(bb_transactions) = body.(bb_transactions) ++ [t]
    /\ check_transaction block ex (index, t) = Ok ex' /\ accords ex' body'.
Proof.
  intros Hi (A1 & A2 & A3 & A4 & A5). unfold parse_transaction. rewrite then_Ok. intros [_ H].
  apply rbind_Ok in H as (located & _ & H). rewrite then_Ok in H. destruct H as [_ H].
  apply rbind_Ok in H as (cb & _ & H). rewrite then_Ok in H. destruct H as [_ H].
  apply rbind_Ok in H as (th & _ & H). apply rbind_Ok in H as (t & Ht & H).
  apply rbind_Ok in H as (enc & He & H). rewrite then_Ok, fail_if_Ok in H. destruct H as [Hb H].
  apply rbind_Ok in H as (ins & _ & H). apply rbind_Ok in H as (outs & Ho & H).
  apply rbind_Ok in H as (ks & _ & H). apply rbind_Ok in H as (couts & Hc & H).
  rewrite then_Ok, fail_if_Ok in H. destruct H as [Hm H]. apply rbind_Ok in H as (off & _ & H).
  rewrite then_Ok, fail_if_Ok in H. destruct H as [_ [= <-]]. apply ok_or_Ok in Ht, He.
  bool_inv. subst enc ins couts ks th. apply located_outputs in Ho as [Ho1 Ho2].
  apply collectM_Ok in Hc. rewrite <-A4 in *.
  assert (Hn : len outs.1 = len t.(txn_outputs)).
  { apply Forall2_length in Hc. unfold len. by rewrite <-Hc, length_imap. }
  apply canonical_outputs_expected in Hc; [|rewrite <-Hn, <-Ho1; auto].
  eexists _, _. split; [done|]. split.
  - unfold check_transaction. cbn -[u32_max expect_output foldM N.modulo].
    rewrite (proj2 (N.ltb_ge _ _)) by lia. rewrite N.mod_small by lia.
    rewrite !bool_decide_eq_true_2 by done. cbn -[u32_max expect_output foldM].
    rewrite Ht. cbn -[u32_max expect_output foldM]. rewrite He. cbn -[u32_max expect_output foldM].
    rewrite !bool_decide_eq_true_2 by done. cbn -[u32_max expect_output foldM].
    rewrite Hc. cbn -[u32_max expect_output foldM]. rewrite !bool_decide_eq_true_2 by done. done.
  - unfold accords. simpl. rewrite A1, A2, A3. split; [done|]. split; [done|]. split; [done|].
    rewrite <-Hn, <-Ho1. auto.
Qed.

Lemma parse_transactions_length height block_hash body0 wires body :
  foldM (parse_transaction height block_hash) (imap pair wires) body0 = Ok body ->
  length body.(bb_transactions) = (length body0.(bb_transactions) + length wires)%nat.
Proof.
  rewrite <-(length_imap pair wires).
  apply (foldM_inv (fun pre body => length body.(bb_transactions)
    = (length body0.(bb_transactions) + length pre)%nat)); [simpl; lia|].
  intros pre [index w] b1 b2 H1 H. rewrite length_app. unfold parse_transaction in H.
  repeat first [rewrite then_Ok in H; destruct H as [_ H] | apply rbind_Ok in H as (? & _ & H)].
  injection H as <-. simpl. rewrite length_app. simpl. lia.
Qed.

Lemma parse_transactions_check block ex0 body0 wires body :
  accords ex0 body0 -> body0.(bb_transactions) = [] -> len wires <= u32_max + 1 ->
  foldM (parse_transaction block.(sbk_height) block.(sbk_block_hash)) (imap pair wires) body0 = Ok body ->
  exists ex, foldM (check_transaction block) (imap pair body.(bb_transactions)) ex0 = Ok ex
             /\ accords ex body.
Proof.
  intros H0 Hnil. revert body. induction wires as [|w wires IH] using rev_ind; intros body Hb H.
  - injection H as <-. rewrite Hnil. by exists ex0.
  - assert (Hl : len (wires ++ [w]) = len wires + 1) by (unfold len; rewrite length_app; simpl; lia).
    rewrite imap_pair_snoc in H. apply foldM_snoc in H as (b1 & H1 & H2).
    destruct (IH b1) as (ex & Hex & Hacc); [lia|done|].
    apply parse_transactions_length in H1 as Hlen. rewrite Hnil in Hlen.
    eapply parse_transaction_checks in H2 as (t & ex' & -> & Hc & Ha); [|unfold len in *; lia|exact Hacc].
    exists ex'. split; [|done].
    rewrite imap_pair_snoc, Hlen. apply foldM_snoc. eauto.
Qed.

Lemma parse_header_Ok network_magic wire r :
  parse_header network_magic wire = Ok r ->
  let '(hash, previous, header_bytes, marker) := r in
  marker = hash /\ exists header,
    header_from_bytes header_bytes = Some header /\ header_to_bytes header = Some header_bytes
    /\ canonical_header_identifier network_magic header_bytes = Some hash
    /\ header.(bh_height) = wire.(wbk_height) /\ header.(bh_prev_hash) = previous
    /\ header.(bh_timestamp) = wire.(wbk_timestamp)
    /\ header.(bh_version) = wire.(wbk_protocol_version).
Proof.
  unfold parse_header. intros (h & _ & H)%rbind_Ok. apply rbind_Ok in H as (ph & _ & H).
  apply rbind_Ok in H as (mk & _ & H). apply rbind_Ok in H as (hb & _ & H).
  apply rbind_Ok in H as (hd & Hd & H). apply rbind_Ok in H as (enc & He & H).
  rewrite then_Ok, fail_if_Ok in H. destruct H as [Hc H]. apply rbind_Ok in H as (i & Hi & H).
  rewrite then_Ok, fail_if_Ok in H. destruct H as [Hb [= <-]]. apply ok_or_Ok in Hd, He, Hi.
  bool_inv. subst. split; [done|]. by exists hd.
Qed.

Lemma split_proof_envelope_proof envelope r :
  split_proof_envelope envelope = Ok r -> r.1.1 = take (N.to_nat RANGE_PROOF_SIZE) envelope.
Proof.
  unfold split_proof_envelope. destruct (len envelope =? RANGE_PROOF_SIZE) eqn:E; bool_inv.
  - intros [= <-]. simpl. symmetry. apply take_ge. unfold len in E. lia.
  - destruct (len envelope =? _); [|done]. by intros (c & _ & [= <-])%rbind_Ok.
Qed.

(** What one turn of the page's loop adds. *)
Lemma parse_block_Ok network_magic requested_from blocks previous index wire acc :
  parse_block network_magic requested_from (blocks, previous) (index, wire) = Ok acc ->
  exists block, acc.1 = blocks ++ [block] /\ acc.2 = Some block.(sbk_block_hash)
    /\ block.(sbk_height) = requested_from + N.of_nat index
    /\ block.(sbk_height) = wire.(wbk_height) /\ block.(sbk_height) <= u64_max
    /\ (previous = None \/ previous = Some block.(sbk_previous_block_hash))
    /\ header_bound network_magic block
    /\ (len block.(sbk_transactions) <= u32_max + 1 -> body_bound block).
Proof.
  unfold parse_block. intros (eh & Hh & H)%rbind_Ok. apply ok_or_Ok, checked_add_Some in Hh as [-> Hm].
  rewrite then_Ok, fail_if_Ok in H. destruct H as [He H]. apply rbind_Ok in H as ([[[h ph] hb] mk] & Hd & H).
  apply parse_header_Ok in Hd as (-> & hd & D1 & D2 & D3 & D4 & D5 & D6 & D7).
  rewrite then_Ok, fail_if_Ok in H. destruct H as [Hp H]. apply rbind_Ok in H as ([cb b0] & Hs & H).
  apply rbind_Ok in H as (body & Hf & [= <-]). bool_inv.
  eexists. simpl. split; [reflexivity|]. split; [done|]. cbn [sbk_height sbk_previous_block_hash sbk_transactions].
  split; [done|]. split; [done|]. split; [by rewrite He|].
  split. { destruct previous as [p|]; simpl in Hp; [right|by left]. bool_inv. by subst. }
  split; [exists hd; simpl; done|]. intros Hl. unfold parse_coinbase in Hs.
  apply rbind_Ok in Hs as (env & _ & Hs). apply rbind_Ok in Hs as (pr & Hpr & Hs).
  apply split_proof_envelope_proof in Hpr. apply rbind_Ok in Hs as (cm & _ & Hs).
  apply rbind_Ok in Hs as (ex & _ & Hs). apply rbind_Ok in Hs as (sg & _ & Hs).
  apply rbind_Ok in Hs as (off & _ & [= <- <-]). simpl in Hf.
  apply parse_transactions_length in Hf as Hn. simpl in Hn.
  set (output := mkScanOutput _ _ _ _ _ _ _ _) in *. set (kernel := mkScanKernel _ _ _ _ _) in *.
  match goal with |- body_bound ?b => eapply (parse_transactions_check b
    (mkExpectation [] [] [output] [kernel] 1)) in Hf as (ex' & Hex & A1 & A2 & A3 & _) end.
  - exists output, kernel, ex'. split; [|split; [exact Hex|]]; done.
  - unfold accords. cbn -[u32_max]. repeat (split; [reflexivity|]). by vm_compute.
  - done.
  - unfold len in *. cbn in Hl. lia.
Qed.

Lemma chained_app height previous l block :
  chained height previous l ->
  block.(sbk_height) = height + len l ->
  (from_option (fun b => Some b.(sbk_block_hash)) previous (last l) = None
   \/ from_option (fun b => Some b.(sbk_block_hash)) previous (last l)
      = Some block.(sbk_previous_block_hash)) ->
  chained height previous (l ++ [block]).
Proof.
  revert height previous. induction l as [|b l IH]; intros height previous; simpl.
  - intros _ Hh Hp. unfold len in Hh. simpl in Hh. split; [lia|done].
  - intros (H1 & H2 & H3) Hh Hp. split; [done|]. split; [done|].
    apply IH; [done|unfold len in *; simpl in Hh; lia|].
    rewrite last_cons in Hp. by destruct (last l).
Qed.

(** A page's loop ends with a chain of bound blocks. *)
Lemma parse_blocks_Ok network_magic from previous wires acc :
  foldM (parse_block network_magic from) (imap pair wires) ([], previous) = Ok acc ->
  chained from previous acc.1 /\ length acc.1 = length wires
  /\ map sbk_height acc.1 = map wbk_height wires
  /\ acc.2 = from_option (fun b => Some b.(sbk_block_hash)) previous (last acc.1)
  /\ Forall (fun b => b.(sbk_height) <= u64_max /\ header_bound network_magic b
             /\ (len b.(sbk_transactions) <= u32_max + 1 -> body_bound b)) acc.1.
Proof.
  revert acc. induction wires as [|w wires IH] using rev_ind; intros acc H.
  - injection H as <-. simpl. split; [done|]. by repeat split.
  - rewrite imap_pair_snoc in H. apply foldM_snoc in H as ([bs pv] & H1 & H2).
    destruct (IH _ H1) as (Hc & Hl & Hh & Hp & Hf). simpl in *. rewrite Hp in H2.
    apply parse_block_Ok in H2 as (b & E1 & E2 & Hbh & Hbw & Hm & Hprev & Hb1 & Hb2).
    rewrite E1, E2, last_snoc. simpl. split; [|split; [|split; [|split; [done|]]]].
    + apply chained_app; [done| |done]. rewrite Hbh. unfold len. by rewrite Hl.
    + rewrite !length_app. simpl. lia.
    + rewrite !map_app. simpl. by rewrite Hh, Hbw.
    + apply Forall_app. split; [done|]. by constructor.
Qed.

(** What the caller of [parse_full_scan] may rely on. *)
Definition page_ok (from to : N) (anchor : option CoreBlockReference) (page : ParsedFullScan) : Prop :=
  chained from (br_hash <$> anchor) page.(pfs_blocks)
  /\ len page.(pfs_blocks) <= REMOTE_MAX_FULL_SCAN_RANGE
  /\ Forall (fun b => b.(sbk_height) <= to
              /\ b.(sbk_height) <= page.(pfs_identity).(ci_current_tip).(br_height)
              /\ b.(sbk_height) <= u64_max
              /\ header_bound page.(pfs_identity).(ci_network_magic) b
              /\ (len b.(sbk_transactions) <= u32_max + 1 -> body_bound b)) page.(pfs_blocks).

Lemma chained_below height previous l last_ :
  chained height previous l -> last l = Some last_ -> Forall (fun b => b.(sbk_height) <= last_.(sbk_height)) l
  /\ height <= last_.(sbk_height) /\ last_.(sbk_height) + 1 = height + len l.
Proof.
  revert height previous. induction l as [|b l IH]; intros height previous; [done|].
  simpl. intros (H1 & _ & H3) Hl. destruct l as [|b' l].
  - injection Hl as <-. unfold len. simpl. split; [by constructor|]. lia.
  - destruct (IH _ _ H3 Hl) as (I1 & I2 & I3). split; [constructor; [lia|done]|].
    unfold len in *. simpl in *. lia.
Qed.

Lemma parse_full_scan_Ok from to anchor wire page :
  parse_full_scan from to anchor wire = Ok page -> page_ok from to anchor page.
Proof.
  unfold parse_full_scan. rewrite then_Ok. intros [_ H]. apply rbind_Ok in H as (identity & _ & H).
  rewrite then_Ok in H. destruct H as [_ H]. apply rbind_Ok in H as (ra & _ & H).
  rewrite !then_Ok, !fail_if_Ok in H. destruct H as (_ & Hlen & Hserved & H).
  apply rbind_Ok in H as (acc & Hacc & H). rewrite then_Ok in H. destruct H as [_ [= <-]].
  apply parse_blocks_Ok in Hacc as (Hc & Hl & Hh & _ & Hf). unfold page_ok. simpl.
  split; [done|]. bool_inv. split; [unfold len in *; lia|].
  destruct (last acc.1) as [b|] eqn:El.
  - destruct (chained_below _ _ _ _ Hc El) as [Hb _].
    assert (Hw : wbk_height <$> last wire.(wfs_blocks) = Some b.(sbk_height)).
    { rewrite <-fmap_last. change (wbk_height <$> wire.(wfs_blocks)) with (map wbk_height wire.(wfs_blocks)).
      rewrite <-Hh. change (map sbk_height acc.1) with (sbk_height <$> acc.1). by rewrite fmap_last, El. }
    rewrite Hw in *. simpl in *. bool_inv.
    eapply Forall_impl; [apply Forall_and; split; [exact Hb|exact Hf]|]. simpl.
    intros b' (Hle & Hm & Hr). repeat split; [lia|lia|lia|by destruct Hr..].
  - by apply last_None in El as ->.
Qed.
End promises.
