(* ===== verification/RemoteSource.v ===== *)
(** * The remote chain source

    [RemoteNodeSource] of crates/dom-wallet-remote-source/src/lib.rs: a node that
    is asked over HTTP and trusted for nothing but its availability.  The HTTP
    client, the URL and JSON parsers and the fee policy of dom-core are
    interfaces; what is left is which requests are made, how every answer is
    checked, and what a session remembers. *)

From S2P Require Import Prelude Bytes Codecs DomainTypes WalletOps Reservations CoreTypes Projection Submission Fees RemoteWire.

Definition REMOTE_MAX_RESPONSE_BYTES : N := 64 * 1024 * 1024.
Definition REMOTE_MAX_BASE_URL_BYTES : N := 4 * 1024.
Definition REMOTE_MAX_BEARER_TOKEN_BYTES : N := 4 * 1024.

(** ** Data *)

Module CfgErr.
Inductive RemoteSourceConfigError :=
| InvalidBaseUrl
| UnsupportedScheme
| BaseUrlTooLong
| EmptyBearerToken
| InvalidBearerToken
| ClientBuild.
End CfgErr.

Record TipRegression := mkTipRegression {
  tr_previous : CoreBlockReference;
  tr_observed : CoreBlockReference;
}.

Record SessionState := mkSessionState {
  ss_pinned_identity : option ChainIdentity;
  ss_highest_tip : option CoreBlockReference;
  ss_tip_regression : option TipRegression;
}.
#[global] Instance session_fields : FieldList SessionState := fun s =>
  mkSessionState s.(ss_pinned_identity) s.(ss_highest_tip) s.(ss_tip_regression).

(** [RemoteNodeSource], whose client and session are in the state below. *)
Record RemoteNodeSource := mkRemoteNodeSource {
  rns_base_url : bytes;
  rns_bearer_token : option bytes;
}.

(** What a parsed URL is asked for. *)
Record Url := mkUrl {
  url_scheme : bytes;
  url_has_host : bool;
  url_username : bytes;
  url_has_password : bool;
  url_has_query : bool;
  url_has_fragment : bool;
  url_path : bytes;
  url_text : bytes;
}.

(** An answer: its status, the length its header announces, the bytes of its body
    that arrive, and whether the body then breaks off. *)
Record HttpResponse := mkHttpResponse {
  hr_status : N;
  hr_content_length : option N;
  hr_body : bytes;
  hr_broken : bool;
}.

Record HttpReply := mkHttpReply {
  hp_status : N;
  hp_body : bytes;
}.

(** The remote side and the crates between: [http_send] is one GET, [None] a
    failure of the transport. *)
Class RemoteHttp (Net : Type) := {
  url_parse : bytes -> option Url;
  header_value_ok : bytes -> bool;
  client_build : bool;
  http_send : bytes -> option bytes -> Net -> Net * option HttpResponse;
  full_scan_from_json : bytes -> option WireFullScan;
  block_header_from_json : bytes -> option WireBlockHeader;
  json_string_field : bytes -> bytes -> option bytes;
}.

(** The session, and the world that answers. *)
Record RemoteState (Net : Type) := mkRemoteState {
  rs_session : SessionState;
  rs_net : Net;
}.
Arguments mkRemoteState {Net} _ _.
Arguments rs_session {Net} _.
Arguments rs_net {Net} _.

(** [ScanRequest] of Core with all its fields; the requests of the scan adapter
    ([CoreTypes.ScanRequest]) have no end and no filters. *)
Inductive ScanStart :=
| StartHeight (height : N)
| StartCursor (cursor : WalletScanCursor).
Record FullScanRequest := mkFullScanRequest {
  fsr_network : CNet.CoreNetwork;
  fsr_chain_id : bytes;
  fsr_start : ScanStart;
  fsr_max_blocks : N;
  fsr_stop_height : option N;
  fsr_commitment_filters : list bytes;
}.

(** ** Construction *)

(** The characters that [char::is_whitespace] accepts, as UTF-8. *)
Definition whitespace : list bytes :=
  map (fun n => [byte_of n]) [9; 10; 11; 12; 13; 32]
  ++ [[Byte.xc2; Byte.x85]; [Byte.xc2; Byte.xa0]; [Byte.xe1; Byte.x9a; Byte.x80]]
  ++ map (fun n => [Byte.xe2; Byte.x80; byte_of n])
       [128; 129; 130; 131; 132; 133; 134; 135; 136; 137; 138; 168; 169; 175]
  ++ [[Byte.xe2; Byte.x81; Byte.x9f]; [Byte.xe3; Byte.x80; Byte.x80]].

(** [s.trim_start_matches(any of patterns)]: every turn shortens [s]. *)
Fixpoint drop_leading (patterns : list bytes) (fuel : nat) (s : bytes) : bytes :=
  match fuel, head (omap (fun p => strip_prefix p s) patterns) with
  | S fuel, Some s => drop_leading patterns fuel s
  | _, _ => s
  end.
Definition drop_trailing (patterns : list bytes) (s : bytes) : bytes :=
  rev (drop_leading (map (@rev _) patterns) (length s) (rev s)).
(** [s.trim()] *)
Definition trim (s : bytes) : bytes :=
  let s := drop_leading whitespace (length s) s in drop_trailing whitespace s.

Section source.
Context {Net : Type} {http : RemoteHttp Net} {codec : CoreCodec} {capsules : CapsuleCodec}.

Definition remote_new (base_url : bytes) (bearer_token : option bytes)
    : result CfgErr.RemoteSourceConfigError (RemoteNodeSource * SessionState) :=
  let base_url := trim base_url in
  fail_if (REMOTE_MAX_BASE_URL_BYTES <? len base_url) CfgErr.BaseUrlTooLong ;?
  let? parsed := ok_or (url_parse base_url) CfgErr.InvalidBaseUrl in
  fail_if (negb (bool_decide (parsed.(url_scheme) = str "http")
                 || bool_decide (parsed.(url_scheme) = str "https"))) CfgErr.UnsupportedScheme ;?
  fail_if (negb parsed.(url_has_host) || negb (is_empty parsed.(url_username))
           || parsed.(url_has_password) || parsed.(url_has_query) || parsed.(url_has_fragment)
           || negb (bool_decide (parsed.(url_path) = str "/"))) CfgErr.InvalidBaseUrl ;?
  let? bearer_token :=
    match bearer_token with
    | None => Ok None
    | Some raw =>
        let trimmed := trim raw in
        fail_if (is_empty trimmed) CfgErr.EmptyBearerToken ;?
        fail_if ((REMOTE_MAX_BEARER_TOKEN_BYTES <? len trimmed) || negb (header_value_ok trimmed))
                CfgErr.InvalidBearerToken ;?
        Ok (Some trimmed)
    end in
  fail_if (negb client_build) CfgErr.ClientBuild ;?
  Ok (mkRemoteNodeSource (drop_trailing [str "/"] parsed.(url_text)) bearer_token,
      mkSessionState None None None).

(** ** Requests *)

Context (self : RemoteNodeSource).

(** A call of the source. *)
Abbreviation call A := (method (RemoteState Net) WErr.WalletCoreError A) (only parsing).

Definition pure_result {A} (r : result WErr.WalletCoreError A) : call A := fun s => (s, r).

(** [response.take(limit).read_to_end(..)] *)
Definition read_limited (limit : N) (response : HttpResponse)
    : result WErr.WalletCoreError bytes :=
  if limit <=? len response.(hr_body) then Ok (take (N.to_nat limit) response.(hr_body))
  else if response.(hr_broken) then Err WErr.TemporaryFailure else Ok response.(hr_body).

Definition read_reply (response : HttpResponse) : result WErr.WalletCoreError HttpReply :=
  fail_if (is_some_and response.(hr_content_length) (fun length => REMOTE_MAX_RESPONSE_BYTES <? length))
          WErr.InternalFailure ;?
  let? body := read_limited (REMOTE_MAX_RESPONSE_BYTES + 1) response in
  fail_if (REMOTE_MAX_RESPONSE_BYTES <? len body) WErr.InternalFailure ;?
  fail_if (negb (is_utf8 body)) WErr.InternalFailure ;?
  Ok (mkHttpReply response.(hr_status) body).

Definition http_get (path_and_query : bytes) (authenticated : bool) : call HttpReply := fun s =>
  let token := if authenticated then self.(rns_bearer_token) else None in
  let '(net, response) := http_send (self.(rns_base_url) ++ path_and_query) token s.(rs_net) in
  (mkRemoteState s.(rs_session) net,
   let? response := ok_or response WErr.TemporaryFailure in read_reply response).

(** [json_error_code] *)
Definition json_error_code (body : bytes) : option bytes := json_string_field body (str "code").

Definition map_full_scan_status (status : N) (body : bytes) : WErr.WalletCoreError :=
  if status =? 503 then WErr.NodeNotReady
  else if status =? 429 then WErr.TemporaryFailure
  else if (status =? 401) || (status =? 403) then WErr.InternalFailure
  else if status =? 404 then WErr.InternalFailure
  else if status =? 409 then WErr.CursorReorg
  else if status =? 400 then WErr.InvalidScanRequest
  else if (status =? 500) && bool_decide (json_error_code body = Some (str "canonical_gap"))
  then WErr.CanonicalGap
  else if (500 <=? status) && (status <=? 599) then WErr.TemporaryFailure
  else WErr.InternalFailure.

Definition map_block_status (status : N) : WErr.WalletCoreError :=
  if status =? 503 then WErr.NodeNotReady
  else if status =? 429 then WErr.TemporaryFailure
  else if (500 <=? status) && (status <=? 599) then WErr.TemporaryFailure
  else WErr.InternalFailure.

(** The path of a page: a range, the expected chain, the hash of the anchor. *)
Definition scan_path (from to : N) (expected : option (N * bytes)) (anchor_hash : option bytes) : bytes :=
  str "/chain/scan/scriptless/v1?from=" ++ show from ++ str "&to=" ++ show to
  ++ (match expected with
      | Some (network_magic, chain_id) =>
          str "&expected_network_magic=" ++ show network_magic
          ++ str "&expected_chain_id=" ++ hex chain_id
      | None => []
      end)
  ++ (match anchor_hash with Some hash => str "&anchor_hash=" ++ hex hash | None => [] end).
Definition block_path (height : N) : bytes := str "/block/" ++ show height.

Definition fetch_full_scan (from to : N) (expected_network_magic : option N)
    (expected_chain_id : option bytes) (anchor : option CoreBlockReference) : call ParsedFullScan :=
  pure_result (fail_if ((to <? from) || negb (eqb (from =? 0) (negb (is_some anchor))))
                       WErr.InvalidScanRequest) ;;;
  let! expected := pure_result
    (match expected_network_magic, expected_chain_id with
     | Some network_magic, Some chain_id => Ok (Some (network_magic, chain_id))
     | None, None => Ok None
     | _, _ => Err WErr.InvalidScanRequest
     end) in
  pure_result (fail_if (is_some_and anchor (fun anchor => negb (anchor.(br_height) =? from - 1)))
                       WErr.InvalidScanRequest) ;;;
  let! reply := http_get (scan_path from to expected (br_hash <$> anchor)) true in
  pure_result
    (fail_if (negb (reply.(hp_status) =? 200))
             (map_full_scan_status reply.(hp_status) reply.(hp_body)) ;?
     let? wire := ok_or (full_scan_from_json reply.(hp_body)) (schema_violation "JSON_DECODE") in
     parse_full_scan from to anchor wire).

(** The tip of an answer against the highest one seen. *)
Definition track_tip (session : SessionState) (observed : CoreBlockReference) : SessionState :=
  match session.(ss_highest_tip) with
  | Some previous =>
      if observed.(br_height) <? previous.(br_height) then
        if is_some session.(ss_tip_regression) then session
        else session <| ss_tip_regression := Some (mkTipRegression previous observed) |>
      else session <| ss_highest_tip := Some observed |>
  | None => session <| ss_highest_tip := Some observed |>
  end.

Definition observe_session (identity : ChainIdentity) : method SessionState WErr.WalletCoreError unit :=
  fun session =>
  match session.(ss_pinned_identity) with
  | Some pinned =>
      if same_immutable_identity pinned identity
      then (track_tip session identity.(ci_current_tip), Ok tt)
      else (session, Err WErr.CursorChainMismatch)
  | None =>
      (track_tip (session <| ss_pinned_identity := Some identity |>) identity.(ci_current_tip), Ok tt)
  end.
Definition observe_identity (identity : ChainIdentity) : call unit := fun s =>
  let '(session, r) := observe_session identity s.(rs_session) in
  (mkRemoteState session s.(rs_net), r).

Definition fetch_block_hash (height : N) : call (option bytes) :=
  let! reply := http_get (block_path height) false in
  pure_result
    (if reply.(hp_status) =? 200 then
       let? header := ok_or (block_header_from_json reply.(hp_body))
                            (schema_violation "BLOCK_HEADER_DECODE") in
       fail_if (negb (header.(wbh_height) =? height)) (schema_violation "BLOCK_HEADER_HEIGHT") ;?
       let? hash := decode_hash32 header.(wbh_hash) "BLOCK_HEADER_HASH" in
       Ok (Some hash)
     else if reply.(hp_status) =? 404 then Ok None
     else Err (map_block_status reply.(hp_status))).

(** ** [WalletCoreApi] *)

Definition remote_chain_identity : call ChainIdentity :=
  let! parsed := fetch_full_scan 0 0 None None None in
  observe_identity parsed.(pfs_identity) ;;;
  mret parsed.(pfs_identity).

Definition session_identity_or_probe : call ChainIdentity := fun s =>
  match s.(rs_session).(ss_pinned_identity) with
  | Some pinned => (s, Ok pinned)
  | None => remote_chain_identity s
  end.

Definition remote_validate_cursor (cursor : WalletScanCursor) : call CursorValidation :=
  pure_result (cursor_validate_shape cursor) ;;;
  let! identity := session_identity_or_probe in
  pure_result (fail_if (negb (cursor.(wsc_network_magic) =? identity.(ci_network_magic))
                        || negb (bool_decide (cursor.(wsc_chain_id) = identity.(ci_chain_id))))
                       WErr.CursorChainMismatch) ;;;
  let! found := fetch_block_hash cursor.(wsc_anchor_height) in
  pure_result
    (match found with
     | None => Err WErr.CursorReorg
     | Some hash =>
         fail_if (negb (bool_decide (hash = cursor.(wsc_anchor_hash)))) WErr.CursorReorg ;?
         Ok (mkCursorValidation true
               (mkBlockReference cursor.(wsc_anchor_height) cursor.(wsc_anchor_hash)))
     end).

Definition check_request_identity (request : FullScanRequest) (identity : ChainIdentity)
    : result WErr.WalletCoreError unit :=
  fail_if (negb (bool_decide (request.(fsr_network) = identity.(ci_network)))
           || negb (bool_decide (request.(fsr_chain_id) = identity.(ci_chain_id))))
          WErr.CursorChainMismatch.

(** The start of a scan: a cursor is validated first, and brings its anchor. *)
Definition scan_start (start : ScanStart) : call (N * option CoreBlockReference) :=
  match start with
  | StartHeight height => mret (height, None)
  | StartCursor cursor =>
      let! _ := remote_validate_cursor cursor in
      mret (cursor.(wsc_next_height),
            Some (mkBlockReference cursor.(wsc_anchor_height) cursor.(wsc_anchor_hash)))
  end.

(** A scan that ends before it starts answers from the session. *)
Definition scan_nothing (request : FullScanRequest) : call ScanResult :=
  let! identity := session_identity_or_probe in
  pure_result (check_request_identity request identity) ;;;
  observe_identity identity ;;;
  mret (mkScanResult identity.(ci_current_tip) [] None).

Definition scan_anchor (start_height : N) (supplied_anchor : option CoreBlockReference)
    : call (option CoreBlockReference) :=
  if start_height =? 0 then mret None
  else match supplied_anchor with
  | Some anchor => mret (Some anchor)
  | None =>
      let! found := fetch_block_hash (start_height - 1) in
      let! hash := pure_result (ok_or found WErr.CanonicalGap) in
      mret (Some (mkBlockReference (start_height - 1) hash))
  end.

(** The cursor after a page, unless the page reaches the end. *)
Definition page_continuation (identity : ChainIdentity) (stop_height : option N)
    (blocks : list ScanBlock) : option WalletScanCursor :=
  let tip := identity.(ci_current_tip) in
  let stop_height := N.min (from_option id tip.(br_height) stop_height) tip.(br_height) in
  match last blocks with
  | Some block =>
      if block.(sbk_height) <? stop_height then
        Some (cursor_new identity.(ci_network) identity.(ci_chain_id)
                (saturating_add u64_max block.(sbk_height) 1)
                (mkBlockReference block.(sbk_height) block.(sbk_block_hash)))
      else None
  | None => None
  end.

Definition remote_scan_range (request : FullScanRequest) : call ScanResult :=
  pure_result (fail_if (negb (is_empty request.(fsr_commitment_filters)))
                       WErr.InvalidScanRequest) ;;;
  pure_result (fail_if (request.(fsr_max_blocks) =? 0) WErr.InvalidScanRequest) ;;;
  let! start := scan_start request.(fsr_start) in
  let '(start_height, supplied_anchor) := start in
  if from_option id u64_max request.(fsr_stop_height) <? start_height then scan_nothing request
  else
    let page_blocks := N.min request.(fsr_max_blocks) REMOTE_MAX_FULL_SCAN_RANGE in
    let span_end := saturating_add u64_max start_height (page_blocks - 1) in
    let wire_to := from_option (N.min span_end) span_end request.(fsr_stop_height) in
    let! anchor := scan_anchor start_height supplied_anchor in
    let! parsed := fetch_full_scan start_height wire_to (Some (magic request.(fsr_network)))
                     (Some request.(fsr_chain_id)) anchor in
    let identity := parsed.(pfs_identity) in
    pure_result (check_request_identity request identity) ;;;
    observe_identity identity ;;;
    mret (mkScanResult identity.(ci_current_tip) parsed.(pfs_blocks)
            (page_continuation identity request.(fsr_stop_height) parsed.(pfs_blocks))).

Definition remote_canonical_hash_at_height (height : N) : call (option bytes) :=
  fetch_block_hash height.

(** What only the embedded node serves: no request is made. *)
Definition requires_embedded_node {A} : call A := pure_result (Err WErr.InternalFailure).

(** [NodeNotReady] and [TemporaryFailure] are outages that pass. *)
Definition retriable (error : WErr.WalletCoreError) : bool :=
  match error with WErr.NodeNotReady | WErr.TemporaryFailure => true | _ => false end.

Definition remote_sync_status : call NSync.SyncStatus := fun s =>
  match remote_chain_identity s with
  | (s, Ok _) => (s, Ok NSync.Ready)
  | (s, Err error) => (s, if retriable error then Ok NSync.Busy else Err error)
  end.
Definition is_ready_for_wallet_operations : call bool := fun s =>
  match remote_chain_identity s with
  | (s, Ok _) => (s, Ok true)
  | (s, Err error) => (s, if retriable error then Ok false else Err error)
  end.
End source.

(** ** The fee policy *)

Module DErr.
Inductive DomError := Invalid | PolicyRejected | Internal | Other.
End DErr.

(** [fee_policy::FeeBreakdown] of dom-core *)
Record PolicyBreakdown := mkPolicyBreakdown {
  pb_shape : TransactionShape;
  pb_weight : TransactionWeight;
  pb_minimum_fee_noms : N;
  pb_recommended_fee_noms : N;
  pb_minimum_fee_rate : N;
  pb_recommended_fee_rate : N;
  pb_policy_version : N;
  pb_dust_threshold_noms : N;
}.

(** [fee_policy] of dom-core, and the methods of its transactions. *)
Class FeePolicy := {
  FEE_POLICY_VERSION : N;
  MIN_RELAY_FEE_RATE : N;
  DUST_THRESHOLD_NOMS : N;
  MAX_TX_WEIGHT : N;
  recommended_rate : result DErr.DomError N;
  policy_transaction_weight : TransactionShape -> result DErr.DomError TransactionWeight;
  policy_fee_breakdown : TransactionShape -> result DErr.DomError PolicyBreakdown;
  policy_actual_fee_rate : N -> N -> result DErr.DomError N;
  total_fee : Transaction -> result DErr.DomError N;
  fee_shape : Transaction -> result DErr.DomError TransactionShape;
}.

Definition map_policy_error (error : DErr.DomError) : WErr.WalletCoreError :=
  match error with
  | DErr.Invalid | DErr.PolicyRejected => WErr.InvalidScanRequest
  | DErr.Internal | DErr.Other => WErr.InternalFailure
  end.
Definition lift_policy {A} (r : result DErr.DomError A) : result WErr.WalletCoreError A :=
  match r with Ok a => Ok a | Err e => Err (map_policy_error e) end.

Definition api_breakdown (network : CNet.CoreNetwork) (breakdown : PolicyBreakdown) : FeeBreakdown :=
  let shape := breakdown.(pb_shape) in
  let weight := breakdown.(pb_weight) in
  mkFeeBreakdown shape.(ts_input_count) shape.(ts_output_count) shape.(ts_kernel_count)
    weight.(tw_input_weight) weight.(tw_output_weight) weight.(tw_kernel_weight)
    weight.(tw_total_weight) breakdown.(pb_minimum_fee_noms) breakdown.(pb_recommended_fee_noms)
    breakdown.(pb_minimum_fee_rate) breakdown.(pb_recommended_fee_rate)
    breakdown.(pb_policy_version) network None breakdown.(pb_dust_threshold_noms).

Section policy.
Context {Net : Type} {http : RemoteHttp Net} {codec : CoreCodec} {capsules : CapsuleCodec}
  {policy : FeePolicy}.
Context (self : RemoteNodeSource).
Abbreviation call A := (method (RemoteState Net) WErr.WalletCoreError A) (only parsing).

Definition remote_fee_policy_snapshot : call FeePolicySnapshot :=
  let! identity := session_identity_or_probe self in
  let! rate := pure_result (lift_policy recommended_rate) in
  mret (mkFeePolicySnapshot FEE_POLICY_VERSION identity.(ci_network) MIN_RELAY_FEE_RATE
          MIN_RELAY_FEE_RATE rate DUST_THRESHOLD_NOMS MAX_TX_WEIGHT None).

Definition remote_transaction_weight (shape : TransactionShape) : call TransactionWeight :=
  pure_result (lift_policy (policy_transaction_weight shape)).

Definition remote_minimum_fee (shape : TransactionShape) : call FeeBreakdown :=
  let! identity := session_identity_or_probe self in
  let! breakdown := pure_result (lift_policy (policy_fee_breakdown shape)) in
  mret (api_breakdown identity.(ci_network) breakdown).

Definition remote_estimate_fee (request : FeeEstimateRequest) : call FeeEstimate :=
  let! breakdown := remote_minimum_fee request.(fer_shape) in
  mret (match request.(fer_target) with
        | Minimum => mkFeeEstimate breakdown breakdown.(fb_minimum_fee_noms)
                       breakdown.(fb_minimum_fee_rate)
        | Recommended => mkFeeEstimate breakdown breakdown.(fb_recommended_fee_noms)
                           breakdown.(fb_recommended_fee_rate)
        end).

Definition remote_validate_fee (transaction : Transaction) : call FeeValidation :=
  let! identity := session_identity_or_probe self in
  pure_result
    (let? fee := lift_policy (total_fee transaction) in
     let? shape := lift_policy (fee_shape transaction) in
     let? breakdown := lift_policy (policy_fee_breakdown shape) in
     let minimum_fee_noms := breakdown.(pb_minimum_fee_noms) in
     let accepted_by_policy := minimum_fee_noms <=? fee in
     let? shortfall_noms := if accepted_by_policy then Ok 0
                            else ok_or (checked_sub minimum_fee_noms fee) WErr.InternalFailure in
     let? actual_fee_rate := lift_policy (policy_actual_fee_rate fee
                               breakdown.(pb_weight).(tw_total_weight)) in
     Ok (mkFeeValidation accepted_by_policy fee minimum_fee_noms shortfall_noms actual_fee_rate
           (api_breakdown identity.(ci_network) breakdown))).

(** ** Sessions *)

(** The calls of [WalletCoreApi] that the source answers, and those it refuses. *)
Inductive RemoteCall :=
| CallIdentity
| CallScan (request : FullScanRequest)
| CallValidateCursor (cursor : WalletScanCursor)
| CallCanonicalHash (height : N)
| CallSyncStatus
| CallIsReady
| CallFeePolicy
| CallTransactionWeight (shape : TransactionShape)
| CallMinimumFee (shape : TransactionShape)
| CallEstimateFee (request : FeeEstimateRequest)
| CallValidateFee (transaction : Transaction)
| CallUnserved.

Inductive RemoteAnswer :=
| AnswerIdentity (identity : ChainIdentity)
| AnswerScan (request : FullScanRequest) (result : ScanResult)
| AnswerOther
| AnswerError (error : WErr.WalletCoreError).

Definition answered {A} (answer : A -> RemoteAnswer) (m : call A) (s : RemoteState Net)
    : RemoteState Net * RemoteAnswer :=
  let '(s, r) := m s in (s, match r with Ok a => answer a | Err error => AnswerError error end).

Definition run_call (c : RemoteCall) : RemoteState Net -> RemoteState Net * RemoteAnswer :=
  let other {A} (_ : A) := AnswerOther in
  match c with
  | CallIdentity => answered AnswerIdentity (remote_chain_identity self)
  | CallScan request => answered (AnswerScan request) (remote_scan_range self request)
  | CallValidateCursor cursor => answered other (remote_validate_cursor self cursor)
  | CallCanonicalHash height => answered other (remote_canonical_hash_at_height self height)
  | CallSyncStatus => answered other (remote_sync_status self)
  | CallIsReady => answered other (is_ready_for_wallet_operations self)
  | CallFeePolicy => answered other remote_fee_policy_snapshot
  | CallTransactionWeight shape => answered other (remote_transaction_weight shape)
  | CallMinimumFee shape => answered other (remote_minimum_fee shape)
  | CallEstimateFee request => answered other (remote_estimate_fee request)
  | CallValidateFee transaction => answered other (remote_validate_fee transaction)
  | CallUnserved => answered (A := unit) other requires_embedded_node
  end.

Fixpoint run_calls (calls : list RemoteCall) (s : RemoteState Net)
    : RemoteState Net * list RemoteAnswer :=
  match calls with
  | [] => (s, [])
  | c :: calls => let '(s, a) := run_call c s in
                  let '(s, answers) := run_calls calls s in (s, a :: answers)
  end.
End policy.

(** ** Lemmas *)

Section lemmas.
Context {Net : Type} {http : RemoteHttp Net} {codec : CoreCodec} {capsules : CapsuleCodec}
  {policy : FeePolicy}.
Context (self : RemoteNodeSource).

(** *** What every call keeps *)

Section keeps.
Context (R : relation (RemoteState Net)) `{!PreOrder R}.

Lemma moves_pure {A} (r : result WErr.WalletCoreError A) : moves R (pure_result r).
Proof. intros s s' r' [= <- _]. reflexivity. Qed.
Lemma moves_ret {A} (a : A) : moves (E := WErr.WalletCoreError) R (mret a).
Proof. intros s s' r' [= <- _]. reflexivity. Qed.

(** The requests there are: pages, with the token, and blocks, without. *)
Context (Hpage : forall from to expected anchor, moves R (http_get self (scan_path from to expected anchor) true))
  (Hblock : forall height, moves R (http_get self (block_path height) false))
  (Hobserve : forall identity, moves R (observe_identity identity)).

Lemma keeps_identity : moves R (remote_chain_identity self).
Proof.
  unfold remote_chain_identity, fetch_full_scan.
  repeat first [apply Hpage | apply Hobserve | apply moves_pure | apply moves_ret
               | apply (moves_mthen R); [|intros ?]].
Qed.
Lemma keeps_probe : moves R (session_identity_or_probe self).
Proof.
  intros s s' r. unfold session_identity_or_probe. case_match; [by intros [= <- _]|apply keeps_identity].
Qed.

(** Every method is made of these. *)
Ltac keep := repeat first
  [ apply Hpage | apply Hblock | apply Hobserve | apply keeps_probe | apply moves_pure
  | apply moves_ret | apply (moves_mthen R); [|intros ?] | case_match ].

Lemma keeps_fetch from to m c anchor : moves R (fetch_full_scan self from to m c anchor).
Proof. unfold fetch_full_scan. keep. Qed.
Lemma keeps_start start : moves R (scan_start self start).
Proof. unfold scan_start. keep. Qed.
Lemma keeps_anchor h supplied : moves R (scan_anchor self h supplied).
Proof. unfold scan_anchor. keep. Qed.
Lemma keeps_scan request : moves R (remote_scan_range self request).
Proof. unfold remote_scan_range, scan_start, scan_anchor. keep. Qed.

Lemma keeps_answered {A} (f : A -> RemoteAnswer) m s : moves R m -> R s (answered f m s).1.
Proof. intros H. unfold answered. destruct (m s) as [s' r] eqn:E. by apply H in E. Qed.

Lemma keeps_call c s : R s (run_call self c s).1.
Proof.
  assert (Hid := keeps_identity). destruct c; apply keeps_answered; try by keep.
  - apply keeps_scan.
  - intros s1 s2 r. unfold remote_sync_status.
    destruct (remote_chain_identity self s1) as [s3 [i|e]] eqn:E; intros [= <- _]; by apply Hid in E.
  - intros s1 s2 r. unfold is_ready_for_wallet_operations.
    destruct (remote_chain_identity self s1) as [s3 [i|e]] eqn:E; intros [= <- _]; by apply Hid in E.
Qed.

Lemma keeps_calls calls s : R s (run_calls self calls s).1.
Proof.
  revert s. induction calls as [|c calls IH]; intros s; simpl; [done|].
  pose proof (keeps_call c s) as H. destruct (run_call self c s) as [s1 a]. simpl in H.
  specialize (IH s1). destruct (run_calls self calls s1) as [s2 l]. simpl in *. by etransitivity.
Qed.
End keeps.

(** *** Sessions *)

(** A recorded regression is one, and lies under the highest tip. *)
Definition session_ok (session : SessionState) : Prop :=
  is_some session.(ss_pinned_identity) = is_some session.(ss_highest_tip)
  /\ forall r, session.(ss_tip_regression) = Some r ->
       r.(tr_observed).(br_height) < r.(tr_previous).(br_height)
       /\ exists tip, session.(ss_highest_tip) = Some tip
                     /\ r.(tr_previous).(br_height) <= tip.(br_height).

(** A session never changes its chain, never lowers its highest tip and never
    forgets a regression. *)
Definition session_grows (session session' : SessionState) : Prop :=
  (forall p, session.(ss_pinned_identity) = Some p -> session'.(ss_pinned_identity) = Some p)
  /\ (forall tip, session.(ss_highest_tip) = Some tip ->
        exists tip', session'.(ss_highest_tip) = Some tip' /\ tip.(br_height) <= tip'.(br_height))
  /\ (forall r, session.(ss_tip_regression) = Some r -> session'.(ss_tip_regression) = Some r).

#[export] Instance session_grows_preorder : PreOrder session_grows.
Proof.
  split.
  - intros x. split; [done|]. split; [|done]. intros tip H. exists tip. split; [done|lia].
  - intros x y z (A1 & A2 & A3) (B1 & B2 & B3). split; [auto|]. split; [|auto].
    intros tip H. destruct (A2 _ H) as (t1 & H1 & L1). destruct (B2 _ H1) as (t2 & H2 & L2).
    exists t2. split; [done|lia].
Qed.

(** The session knows the chain of [identity], and a tip at least as high. *)
Definition session_knows (session : SessionState) (identity : ChainIdentity) : Prop :=
  exists pinned tip, session.(ss_pinned_identity) = Some pinned
    /\ same_immutable_identity pinned identity = true
    /\ session.(ss_highest_tip) = Some tip
    /\ identity.(ci_current_tip).(br_height) <= tip.(br_height).

Lemma same_identity_refl i : same_immutable_identity i i = true.
Proof. unfold same_immutable_identity. rewrite !N.eqb_refl, !bool_decide_eq_true_2 by done. done. Qed.

Lemma track_tip_grows session tip :
  (session_ok session \/ session.(ss_highest_tip) = None /\ session.(ss_tip_regression) = None
                         /\ is_some session.(ss_pinned_identity) = true) ->
  is_some session.(ss_pinned_identity) = true ->
  session_ok (track_tip session tip) /\ session_grows session (track_tip session tip)
  /\ (track_tip session tip).(ss_pinned_identity) = session.(ss_pinned_identity)
  /\ exists t, (track_tip session tip).(ss_highest_tip) = Some t /\ tip.(br_height) <= t.(br_height).
Proof.
  destruct session as [p h g]. unfold track_tip, session_ok, session_grows. cbn. intros Hok Hp.
  destruct h as [h|]; cbn in *.
  - destruct Hok as [[_ Hg]|[? _]]; [|done]. destruct (br_height tip <? br_height h) eqn:E; bool_inv.
    + destruct g as [g|]; cbn; (split; [|split; [split; [done|split]|split; [done|]]]);
        try solve [split; [done|]; intros ? [= <-]; eauto 6 using N.le_refl];
        try solve [intros ? [= <-]; eauto using N.le_refl]; try done;
        try solve [exists h; split; [done|lia]].
    + cbn. split; [|split; [split; [done|split]|split; [done|]]]; try done.
      * split; [done|]. intros r Hr. destruct (Hg r Hr) as (H1 & t & [= <-] & H2).
        split; [done|]. exists tip. split; [done|lia].
      * intros ? [= <-]. exists tip. split; [done|lia].
      * exists tip. split; [done|lia].
  - assert (g = None) as ->.
    { destruct Hok as [[H _]|(_ & H & _)]; [by rewrite Hp in H|done]. }
    split; [|split; [split; [done|split]|split; [done|]]]; try done.
    exists tip. split; [done|lia].
Qed.

Lemma observe_session_grows identity session :
  session_ok session ->
  let '(session', r) := observe_session identity session in
  session_ok session' /\ session_grows session session'
  /\ (r = Ok tt -> session_knows session' identity).
Proof.
  intros Hok. unfold observe_session. destruct (ss_pinned_identity session) as [p|] eqn:Hp.
  - destruct (same_immutable_identity p identity) eqn:E.
    + destruct (track_tip_grows session (ci_current_tip identity)) as (G1 & G2 & G3 & t & G4 & G5);
        [by left|by rewrite Hp|].
      split; [done|]. split; [done|]. intros _. exists p, t. by rewrite G3.
    + split; [done|]. split; [reflexivity|done].
  - destruct Hok as [Hs Hr]. rewrite Hp in Hs.
    assert (Hg : ss_tip_regression session = None).
    { destruct (ss_tip_regression session) as [g|]; [|done].
      destruct (Hr g eq_refl) as (_ & t & Ht & _). by rewrite Ht in Hs. }
    assert (Hh : ss_highest_tip session = None) by by destruct (ss_highest_tip session).
    destruct (track_tip_grows (session <| ss_pinned_identity := Some identity |>)
                (ci_current_tip identity)) as (G1 & G2 & G3 & t & G4 & G5); [by right|done|].
    split; [done|]. split.
    + destruct G2 as (A1 & A2 & A3). split; [by rewrite Hp|]. split; [by rewrite Hh|by rewrite Hg].
    + intros _. exists identity, t. rewrite G3. auto using same_identity_refl.
Qed.

(** The relation that every call keeps. *)
Definition advances (s s' : RemoteState Net) : Prop :=
  session_ok s.(rs_session) -> session_ok s'.(rs_session) /\ session_grows s.(rs_session) s'.(rs_session).
#[export] Instance advances_preorder : PreOrder advances.
Proof.
  split.
  - intros s H. split; [done|reflexivity].
  - intros x y z H1 H2 H. destruct (H1 H) as [A1 A2]. destruct (H2 A1) as [B1 B2].
    split; [done|by etransitivity].
Qed.

Lemma http_get_session path authenticated s :
  (http_get self path authenticated s).1.(rs_session) = s.(rs_session).
Proof. unfold http_get. by destruct (http_send _ _ _). Qed.
Lemma http_get_advances path authenticated : moves advances (http_get self path authenticated).
Proof.
  intros s s' r E H. pose proof (http_get_session path authenticated s) as Hs. rewrite E in Hs.
  simpl in Hs. rewrite Hs. split; [done|reflexivity].
Qed.
Lemma observe_advances identity : moves advances (observe_identity identity).
Proof.
  intros s s' r. unfold observe_identity. intros E H.
  pose proof (observe_session_grows identity _ H) as G.
  destruct (observe_session identity _) as [ss r']. injection E as <- _. by destruct G as (G1 & G2 & _).
Qed.

Lemma probe_advances : moves advances (session_identity_or_probe self).
Proof. apply keeps_probe; auto using http_get_advances, observe_advances with typeclass_instances. Qed.
Lemma scan_start_advances start : moves advances (scan_start self start).
Proof.
  apply keeps_start; auto using http_get_advances, observe_advances with typeclass_instances.
Qed.
Lemma scan_anchor_advances h supplied : moves advances (scan_anchor self h supplied).
Proof. apply keeps_anchor; auto using http_get_advances with typeclass_instances. Qed.
Lemma fetch_advances from to m c anchor : moves advances (fetch_full_scan self from to m c anchor).
Proof. apply keeps_fetch; auto using http_get_advances with typeclass_instances. Qed.

Lemma observe_knows identity (s s' : RemoteState Net) :
  session_ok s.(rs_session) -> observe_identity identity s = (s', Ok tt) ->
  session_knows s'.(rs_session) identity.
Proof.
  intros Hok. unfold observe_identity. pose proof (observe_session_grows identity _ Hok) as G.
  destruct (observe_session identity _) as [ss r]. intros [= <- ->]. by apply G.
Qed.

(** *** Scans *)

Lemma pure_result_Ok {A} (r : result _ A) (s s' : RemoteState Net) a :
  pure_result r s = (s', Ok a) <-> s' = s /\ r = Ok a.
Proof. unfold pure_result. split; [by intros [= -> ->]|by intros [-> ->]]. Qed.

Lemma then_run {A B} (m : method (RemoteState Net) WErr.WalletCoreError A) k s s' (b : B) :
  mthen m k s = (s', Ok b) -> exists s1 a, m s = (s1, Ok a) /\ k a s1 = (s', Ok b).
Proof. apply mthen_Ok. Qed.

(** Advance over the checks and the calls of a run that succeeds. *)
Ltac run H := repeat match type of H with
  | mthen (pure_result _) _ _ = (_, Ok _) =>
      let a := fresh "a" in let s := fresh "s" in let Hr := fresh "Hr" in
      apply then_run in H as (s & a & Hr & H); apply pure_result_Ok in Hr as [-> Hr]
  end.

Lemma fetch_page from to m c anchor s s' page :
  fetch_full_scan self from to m c anchor s = (s', Ok page) ->
  page_ok from to anchor page /\ from <= to
  /\ (if from =? 0 then anchor = None
      else exists a, anchor = Some a /\ a.(br_height) = from - 1).
Proof.
  unfold fetch_full_scan. intros H. run H. apply fail_if_Ok in Hr, Hr1. bool_inv.
  apply then_run in H as (s3 & reply & _ & H). apply pure_result_Ok in H as [_ H].
  rewrite then_Ok in H. destruct H as [_ H]. apply rbind_Ok in H as (wire & _ & H).
  apply parse_full_scan_Ok in H. split; [done|]. split; [done|].
  destruct (from =? 0), anchor as [b|]; cbn in *; try done. exists b. split; [done|]. by bool_inv.
Qed.

Definition start_height_of (start : ScanStart) : N :=
  match start with StartHeight height => height | StartCursor cursor => cursor.(wsc_next_height) end.

(** A scan starts where the request says, at the cursor's anchor if it has one. *)
Definition anchored (start : ScanStart) (previous : option bytes) : Prop :=
  if start_height_of start =? 0 then previous = None
  else is_some previous = true
       /\ match start with
          | StartHeight _ => True
          | StartCursor cursor => previous = Some cursor.(wsc_anchor_hash)
                                  /\ cursor.(wsc_anchor_height) = cursor.(wsc_next_height) - 1
          end.

(** What the page of an answer is bound to. *)
Definition page_bound (session : SessionState) (request : FullScanRequest) (r : ScanResult) : Prop :=
  exists pinned tip,
    session.(ss_pinned_identity) = Some pinned /\ session.(ss_highest_tip) = Some tip
    /\ request.(fsr_network) = pinned.(ci_network) /\ request.(fsr_chain_id) = pinned.(ci_chain_id)
    /\ r.(sr_tip).(br_height) <= tip.(br_height)
    /\ Forall (fun b => b.(sbk_height) <= from_option id u64_max request.(fsr_stop_height)
              /\ b.(sbk_height) <= r.(sr_tip).(br_height)
              /\ header_bound pinned.(ci_network_magic) b
              /\ (len b.(sbk_transactions) <= u32_max + 1 -> body_bound b)) r.(sr_blocks).

Lemma same_identity_fields p i :
  same_immutable_identity p i = true ->
  p.(ci_network) = i.(ci_network) /\ p.(ci_network_magic) = i.(ci_network_magic)
  /\ p.(ci_chain_id) = i.(ci_chain_id) /\ p.(ci_genesis_hash) = i.(ci_genesis_hash).
Proof. unfold same_immutable_identity. intros H. by bool_inv. Qed.

Lemma request_identity request identity u :
  check_request_identity request identity = Ok u ->
  request.(fsr_network) = identity.(ci_network) /\ request.(fsr_chain_id) = identity.(ci_chain_id).
Proof. unfold check_request_identity. intros H%fail_if_Ok. by bool_inv. Qed.

(** The page that a scan asks for. *)
Lemma requested_page start stop max :
  0 < max -> start <= from_option id u64_max stop ->
  let page := N.min max REMOTE_MAX_FULL_SCAN_RANGE in
  let span := saturating_add u64_max start (page - 1) in
  let to := from_option (N.min span) span stop in
  to <= from_option id u64_max stop /\ to + 1 <= start + page.
Proof.
  intros Hm Hs. cbn zeta. unfold saturating_add, REMOTE_MAX_FULL_SCAN_RANGE.
  destruct stop; cbn in *; lia.
Qed.

Lemma chained_len height previous l last_ to :
  chained height previous l -> last l = Some last_ -> last_.(sbk_height) <= to ->
  height + len l <= to + 1.
Proof. intros Hc Hl Hle. destruct (chained_below _ _ _ _ Hc Hl) as (_ & _ & E). lia. Qed.

(** Everything a scan that succeeds promises. *)
Definition scan_ok (session : SessionState) (request : FullScanRequest) (r : ScanResult) : Prop :=
  page_bound session request r
  /\ (exists previous, chained (start_height_of request.(fsr_start)) previous r.(sr_blocks)
       /\ (r.(sr_blocks) = [] \/ anchored request.(fsr_start) previous))
  /\ len r.(sr_blocks) <= N.min request.(fsr_max_blocks) REMOTE_MAX_FULL_SCAN_RANGE
  /\ r.(sr_continuation) =
       match last r.(sr_blocks) with
       | Some b =>
           if b.(sbk_height) <? N.min (from_option id r.(sr_tip).(br_height) request.(fsr_stop_height))
                                      r.(sr_tip).(br_height)
           then Some (cursor_new request.(fsr_network) request.(fsr_chain_id)
                        (saturating_add u64_max b.(sbk_height) 1)
                        (mkBlockReference b.(sbk_height) b.(sbk_block_hash)))
           else None
       | None => None
       end.

Lemma scan_nothing_ok request s s' r :
  session_ok s.(rs_session) -> scan_nothing self request s = (s', Ok r) ->
  scan_ok s'.(rs_session) request r.
Proof.
  intros Hok H. unfold scan_nothing in H. apply then_run in H as (s1 & i & H1 & H).
  destruct (probe_advances _ _ _ H1 Hok) as [Hok1 _]. run H. apply request_identity in Hr as [E1 E2].
  apply then_run in H as (s2 & [] & H2 & H). injection H as <- <-.
  apply observe_knows in H2 as (p & t & P1 & P2 & P3 & P4); [|done].
  apply same_identity_fields in P2 as (F1 & F2 & F3 & _). split; [|split; [|split; [|done]]].
  - exists p, t. rewrite E1, E2, F1, F3. by repeat split.
  - exists None. split; [done|by left].
  - unfold len. cbn. lia.
Qed.

Lemma scan_start_Ok start s s' h anchor :
  scan_start self start s = (s', Ok (h, anchor)) ->
  h = start_height_of start
  /\ match start with
     | StartHeight _ => anchor = None
     | StartCursor c => anchor = Some (mkBlockReference c.(wsc_anchor_height) c.(wsc_anchor_hash))
     end.
Proof.
  destruct start as [height|c]; simpl; [by intros [= _ -> ->]|].
  intros (s1 & v & _ & H)%then_run. by injection H as _ <- <-.
Qed.

Lemma scan_anchor_Ok start s s' supplied anchor :
  match start with
  | StartHeight _ => supplied = None
  | StartCursor c => supplied = Some (mkBlockReference c.(wsc_anchor_height) c.(wsc_anchor_hash))
  end ->
  scan_anchor self (start_height_of start) supplied s = (s', Ok anchor) ->
  (if start_height_of start =? 0 then anchor = None
   else exists a, anchor = Some a /\ a.(br_height) = start_height_of start - 1) ->
  anchored start (br_hash <$> anchor).
Proof.
  intros Hsup H Ha. unfold anchored, scan_anchor in *. destruct (start_height_of start =? 0) eqn:E.
  - by subst.
  - destruct Ha as (a & -> & Hh). split; [done|]. destruct start as [h|c]; [done|]. subst supplied.
    injection H as _ <-. by split.
Qed.

(** A page that the session accepts is what the request asks for. *)
Lemma page_answers request from to anchor page session :
  page_ok from to anchor page -> session_knows session page.(pfs_identity) ->
  check_request_identity request page.(pfs_identity) = Ok tt ->
  from = start_height_of request.(fsr_start) -> anchored request.(fsr_start) (br_hash <$> anchor) ->
  to <= from_option id u64_max request.(fsr_stop_height) ->
  to + 1 <= from + N.min request.(fsr_max_blocks) REMOTE_MAX_FULL_SCAN_RANGE ->
  scan_ok session request
    (mkScanResult page.(pfs_identity).(ci_current_tip) page.(pfs_blocks)
       (page_continuation page.(pfs_identity) request.(fsr_stop_height) page.(pfs_blocks))).
Proof.
  intros (Hc & Hl & Hf) (p & t & P1 & P2 & P3 & P4) Hr -> Ha Ht Hm.
  apply request_identity in Hr as [E1 E2]. apply same_identity_fields in P2 as (F1 & F2 & F3 & _).
  split; [|split; [|split]].
  - exists p, t. rewrite E1, E2, F1, F2, F3. repeat split; try done.
    eapply Forall_impl; [exact Hf|]. cbn. intros b (B1 & B2 & B3 & B4 & B5). repeat split; try done. lia.
  - eexists. split; [exact Hc|]. by right.
  - cbn [sr_blocks]. destruct (last (pfs_blocks page)) as [b|] eqn:El.
    + assert (Hb : b.(sbk_height) <= to).
      { eapply Forall_forall in Hf as [? _]; [done|]. by apply last_Some_elem_of. }
      pose proof (chained_len _ _ _ _ _ Hc El Hb). lia.
    + apply last_None in El as ->. unfold len. cbn. lia.
  - cbn [sr_blocks sr_continuation sr_tip]. unfold page_continuation. by rewrite E1, E2.
Qed.

Lemma scan_range_ok request s s' r :
  session_ok s.(rs_session) -> remote_scan_range self request s = (s', Ok r) ->
  request.(fsr_commitment_filters) = [] /\ scan_ok s'.(rs_session) request r.
Proof.
  intros Hok H. unfold remote_scan_range in H. run H. apply fail_if_Ok in Hr, Hr0. bool_inv.
  split; [by destruct (fsr_commitment_filters request)|].
  apply then_run in H as (s1 & [h supplied] & H1 & H).
  destruct (scan_start_advances _ _ _ _ H1 Hok) as [Hok1 _].
  apply scan_start_Ok in H1 as [-> Hsup].
  destruct (_ <? _) eqn:E; [by apply scan_nothing_ok in H|]. bool_inv.
  apply then_run in H as (s2 & anchor & H2 & H).
  destruct (scan_anchor_advances _ _ _ _ _ H2 Hok1) as [Hok2 _].
  apply then_run in H as (s3 & page & H3 & H).
  destruct (fetch_advances _ _ _ _ _ _ _ _ H3 Hok2) as [Hok3 _]. apply fetch_page in H3 as (Hp & _ & Ha). run H.
  match goal with E : check_request_identity _ _ = Ok ?u |- _ => destruct u end.
  apply then_run in H as (s4 & [] & H4 & H). injection H as <- <-.
  apply observe_knows in H4; [|done].
  destruct (requested_page (start_height_of (fsr_start request)) (fsr_stop_height request)
              (fsr_max_blocks request)) as [T1 T2]; [lia|done|].
  eapply page_answers; eauto. eapply scan_anchor_Ok; eauto.
Qed.

(** *** Answers of a session *)

(** An answer belongs to the chain that the session is pinned to. *)
Definition answer_bound (session : SessionState) (answer : RemoteAnswer) : Prop :=
  match answer with
  | AnswerIdentity identity => session_knows session identity
  | AnswerScan request r => page_bound session request r
  | AnswerOther | AnswerError _ => True
  end.

Lemma answer_bound_grows session session' answer :
  session_grows session session' -> answer_bound session answer -> answer_bound session' answer.
Proof.
  intros (G1 & G2 & _). destruct answer as [i|request r| |]; simpl; [..|done|done].
  - intros (p & t & P1 & P2 & P3 & P4). destruct (G2 _ P3) as (t' & T1 & T2).
    exists p, t'. repeat split; [by apply G1|done|done|lia].
  - intros (p & t & P1 & P2 & P3 & P4 & P5 & P6). destruct (G2 _ P2) as (t' & T1 & T2).
    exists p, t'. repeat split; [by apply G1|done|done|done|lia|done].
Qed.

Lemma identity_known s s' identity :
  session_ok s.(rs_session) -> remote_chain_identity self s = (s', Ok identity) ->
  session_knows s'.(rs_session) identity.
Proof.
  intros Hok H. unfold remote_chain_identity in H. apply then_run in H as (s1 & page & H1 & H).
  destruct (fetch_advances _ _ _ _ _ _ _ _ H1 Hok) as [Hok1 _].
  apply then_run in H as (s2 & [] & H2 & H). injection H as <- <-. by eapply observe_knows.
Qed.

Lemma call_bound c s :
  session_ok s.(rs_session) -> answer_bound (run_call self c s).1.(rs_session) (run_call self c s).2.
Proof.
  intros Hok. assert (Hother : forall A (m : method (RemoteState Net) _ A),
    answer_bound (answered (fun _ => AnswerOther) m s).1.(rs_session) (answered (fun _ => AnswerOther) m s).2).
  { intros A m. unfold answered. by destruct (m s) as [? []]. }
  destruct c; try apply Hother; unfold run_call, answered.
  - destruct (remote_chain_identity self s) as [s' [i|e]] eqn:E; [|done]. by eapply identity_known.
  - destruct (remote_scan_range self request s) as [s' [r|e]] eqn:E; [|done].
    by apply scan_range_ok in E as (_ & ? & _).
Qed.

Lemma calls_bound calls s :
  session_ok s.(rs_session) ->
  session_ok (run_calls self calls s).1.(rs_session)
  /\ session_grows s.(rs_session) (run_calls self calls s).1.(rs_session)
  /\ Forall (answer_bound (run_calls self calls s).1.(rs_session)) (run_calls self calls s).2.
Proof.
  revert s. induction calls as [|c calls IH]; intros s Hok; simpl.
  - split; [done|]. split; [reflexivity|by constructor].
  - pose proof (keeps_call advances ltac:(auto using http_get_advances) ltac:(auto using http_get_advances)
      observe_advances c s Hok) as [Hok1 Hg1].
    pose proof (call_bound c s Hok) as Ha. destruct (run_call self c s) as [s1 a]. simpl in *.
    destruct (IH s1 Hok1) as (I1 & I2 & I3). destruct (run_calls self calls s1) as [s2 l]. simpl in *.
    split; [done|]. split; [by etransitivity|]. constructor; [|done]. by eapply answer_bound_grows.
Qed.

(** *** Requests *)

(** What the remote side may learn: a range of heights with the expected chain and
    a block's hash, or one height. *)
Inductive public_request : bytes -> option bytes -> Prop :=
| ask_page from to expected anchor :
    public_request (self.(rns_base_url) ++ scan_path from to expected anchor) self.(rns_bearer_token)
| ask_block height : public_request (self.(rns_base_url) ++ block_path height) None.

Lemma requests_are_public (P : Net -> Prop) :
  (forall url token net, public_request url token -> P net -> P (http_send url token net).1) ->
  forall calls s, P s.(rs_net) -> P (run_calls self calls s).1.(rs_net).
Proof.
  intros HP calls s. pose (R := fun s s' : RemoteState Net => P s.(rs_net) -> P s'.(rs_net)).
  assert (HR : PreOrder R).
  { split; unfold R; [intros x H; exact H|intros x y z H1 H2 H; exact (H2 (H1 H))]. }
  apply (keeps_calls R); intros; intros s1 s2 r; unfold http_get, observe_identity.
  - pose proof (HP _ _ s1.(rs_net) (ask_page from to expected anchor)) as H.
    destruct (http_send _ _ _). by intros [= <- _].
  - pose proof (HP _ _ s1.(rs_net) (ask_block height)) as H.
    destruct (http_send _ _ _). by intros [= <- _].
  - destruct (observe_session _ _). intros [= <- _]. exact id.
Qed.
End lemmas.

(** ** Properties *)

(** C14 Whatever the remote node answers, a scan that succeeds has not used
    filters, and its page is at most as long as asked and as the limit of 64
    blocks, has consecutive heights from the requested start, hashes chained from
    the anchor (the cursor's, when the scan continues one), headers that their
    hashes commit to, and transactions and flat lists that the scan adapter's own
    check accepts; it is on the chain that the request names and the session is
    pinned to, below the announced tip and the requested end; and the
    continuation is the cursor after the last block, exactly when that block is
    before the end. *)
Theorem remote_scans_are_bound_to_the_chain `{http : RemoteHttp Net} `{codec : CoreCodec}
    `{capsules : CapsuleCodec} self request (s s' : RemoteState Net) r
    (Hok : session_ok s.(rs_session)) (H : remote_scan_range self request s = (s', Ok r)) :
  request.(fsr_commitment_filters) = [] /\ scan_ok s'.(rs_session) request r.
Proof. by eapply scan_range_ok. Qed.

(** C15 Over any calls of the interface, the session's chain never changes once
    pinned, its highest tip never sinks and a recorded regression stays; and every
    identity and every page that was answered, in whatever order, is of the chain
    the session ends with, at or below its highest tip. *)
Theorem remote_sessions_keep_their_chain `{http : RemoteHttp Net} `{codec : CoreCodec}
    `{capsules : CapsuleCodec} `{policy : FeePolicy} self calls (s : RemoteState Net)
    (Hok : session_ok s.(rs_session)) :
  let '(s', answers) := run_calls self calls s in
  session_ok s'.(rs_session) /\ session_grows s.(rs_session) s'.(rs_session)
  /\ Forall (answer_bound s'.(rs_session)) answers.
Proof. pose proof (calls_bound self calls s Hok). by destruct (run_calls self calls s). Qed.

(** C16 The remote node learns which heights the wallet reads and nothing of what
    it looks for: over any calls, whatever holds of the remote side and is kept by
    requests for pages and for block hashes still holds, and the token goes to
    pages only; a scan with commitment filters is refused, and so is every lookup
    by commitment, before any request. *)
Theorem remote_requests_reveal_only_heights `{http : RemoteHttp Net} `{codec : CoreCodec}
    `{capsules : CapsuleCodec} `{policy : FeePolicy} self (P : Net -> Prop)
    (HP : forall url token net, public_request self url token -> P net ->
            P (http_send url token net).1) :
  (forall calls s, P s.(rs_net) -> P (run_calls self calls s).1.(rs_net))
  /\ (forall request s, request.(fsr_commitment_filters) <> [] ->
        remote_scan_range self request s = (s, Err WErr.InvalidScanRequest))
  /\ (forall s, run_call self CallUnserved s = (s, AnswerError WErr.InternalFailure)).
Proof.
  split; [by apply requests_are_public|]. split; [|done].
  intros request s Hf. unfold remote_scan_range, mthen, pure_result. by destruct (fsr_commitment_filters request).
Qed.

(** ** Witnesses *)

(** A remote node that answers every page with the sample block, under a tip that
    grows with every request, and logs what it is asked. *)
Definition sample_wire_block : WireBlock :=
  mkWireBlock 1 (hex (sample_bytes 32 Byte.x61)) (hex (sample_bytes 32 Byte.x60)) (hex [Byte.x01]) 1000
    (hex (sample_bytes 32 Byte.x61))
    [mkWireTransaction 1 (hex (sample_bytes 32 Byte.x61)) 0 (hex (sample_bytes 32 Byte.x65))
       (hex (sample_bytes 33 Byte.x67)) [mkWireInput (hex (sample_bytes 33 Byte.x67))] [] []
       (hex (zeros 32))] 2 1 0
    (mkWireCoinbase (hex (sample_bytes 33 Byte.x66)) 50 (hex (sample_bytes 33 Byte.x63)) 1
       (hex (sample_bytes 65 Byte.x64)) (hex (zeros 32)) (hex (sample_bytes 3 Byte.x62))).
Definition sample_wire_page (tip from to : N) (anchor : option WireAnchor) (blocks : list WireBlock)
    : WireFullScan :=
  mkWireFullScan 1 (str "ok") true
    (mkWireIdentity (str "regtest") 3 (hex (sample_bytes 32 Byte.x01)) (hex (sample_bytes 32 Byte.x02))
       2 1 10 tip (hex (sample_bytes 32 Byte.x61)))
    from to from (wbk_height <$> last blocks) anchor blocks None.

Definition sample_remote : RemoteNodeSource := mkRemoteNodeSource (str "http://node") (Some (str "token")).
Definition sample_probe_url : bytes := str "http://node" ++ scan_path 0 0 None None.

#[export] Instance sample_capsules : CapsuleCodec := {| capsule_from_bytes b := Some (1, b) |}.
#[export] Instance sample_http : RemoteHttp (list (bytes * option bytes)) := {|
  url_parse _ := Some (mkUrl (str "http") true [] false false false (str "/") (str "http://node/"));
  header_value_ok _ := true;
  client_build := true;
  http_send url token log :=
    (log ++ [(url, token)], Some (mkHttpResponse 200 None (byte_of (1 + len log) :: url) false));
  full_scan_from_json body :=
    match body with
    | [] => None
    | tip :: url =>
        let tip := Byte.to_N tip in
        Some (if bool_decide (url = sample_probe_url) then sample_wire_page tip 0 0 None []
              else sample_wire_page tip 1 5 (Some (mkWireAnchor 0 (hex (sample_bytes 32 Byte.x60))))
                     [sample_wire_block])
    end;
  block_header_from_json _ := Some (mkWireBlockHeader 0 (hex (sample_bytes 32 Byte.x60)));
  json_string_field _ _ := None;
|}.
#[export] Instance sample_policy : FeePolicy := {|
  FEE_POLICY_VERSION := 1;
  MIN_RELAY_FEE_RATE := 2;
  DUST_THRESHOLD_NOMS := 7;
  MAX_TX_WEIGHT := 100000;
  recommended_rate := Ok 3;
  policy_transaction_weight _ := Err DErr.Invalid;
  policy_fee_breakdown _ := Err DErr.Internal;
  policy_actual_fee_rate fee weight := Ok (fee / weight);
  total_fee _ := Ok 0;
  fee_shape _ := Err DErr.Other;
|}.

Definition fresh_session : SessionState := mkSessionState None None None.
Definition fresh_state : RemoteState (list (bytes * option bytes)) := mkRemoteState fresh_session [].
Lemma fresh_session_ok : session_ok fresh_session.
Proof. split; [done|]. intros r [=]. Qed.

Example sample_remote_is_new :
  remote_new (str " http://node/ ") (Some (str "token") ) = Ok (sample_remote, fresh_session).
Proof. by vm_compute. Qed.

Definition sample_request : FullScanRequest :=
  mkFullScanRequest CNet.Regtest (sample_bytes 32 Byte.x01) (StartHeight 1) 5 None [].
Definition sample_scan : ScanResult :=
  mkScanResult (mkBlockReference 2 (sample_bytes 32 Byte.x61)) [sample_block]
    (Some (cursor_new CNet.Regtest (sample_bytes 32 Byte.x01) 2
             (mkBlockReference 1 (sample_bytes 32 Byte.x61)))).
Definition sample_scanned : RemoteState (list (bytes * option bytes)) :=
  (remote_scan_range sample_remote sample_request fresh_state).1.

Lemma remote_scans_are_bound_to_the_chain_witness :
  sample_request.(fsr_commitment_filters) = []
  /\ scan_ok sample_scanned.(rs_session) sample_request sample_scan.
Proof.
  apply (remote_scans_are_bound_to_the_chain sample_remote sample_request fresh_state sample_scanned
           sample_scan); [exact fresh_session_ok|by vm_compute].
Defined.

(** Identity, a page, an unserved call, and a filtered scan. *)
Definition sample_calls : list RemoteCall :=
  [CallIdentity; CallScan sample_request; CallUnserved;
   CallScan (mkFullScanRequest CNet.Regtest (sample_bytes 32 Byte.x01) (StartHeight 1) 5 None
               [sample_bytes 33 Byte.x66])].

Lemma remote_sessions_keep_their_chain_witness :
  let '(s', answers) := run_calls sample_remote sample_calls fresh_state in
  session_ok s'.(rs_session) /\ session_grows fresh_session s'.(rs_session)
  /\ Forall (answer_bound s'.(rs_session)) answers.
Proof. apply (remote_sessions_keep_their_chain sample_remote sample_calls fresh_state fresh_session_ok). Defined.

(** The log holds public requests. *)
Lemma sample_log_grows url token log :
  public_request sample_remote url token ->
  Forall (fun e => public_request sample_remote e.1 e.2) log ->
  Forall (fun e => public_request sample_remote e.1 e.2) (http_send url token log).1.
Proof. intros Hp Hl. apply Forall_app. split; [done|]. by constructor. Qed.

Lemma remote_requests_reveal_only_heights_witness :
  (forall calls s, Forall (fun e => public_request sample_remote e.1 e.2) s.(rs_net) ->
     Forall (fun e => public_request sample_remote e.1 e.2)
       (run_calls sample_remote calls s).1.(rs_net))
  /\ (forall request s, request.(fsr_commitment_filters) <> [] ->
        remote_scan_range sample_remote request s = (s, Err WErr.InvalidScanRequest))
  /\ (forall s, run_call sample_remote CallUnserved s = (s, AnswerError WErr.InternalFailure)).
Proof.
  apply (remote_requests_reveal_only_heights sample_remote
           (Forall (fun e => public_request sample_remote e.1 e.2))).
  intros url token log. apply sample_log_grows.
Defined.

(** A scan that ends before it starts is answered from the pinned identity, whose
    tip is the first one of the session: once the chain has grown, the honest node
    is reported for a regression. *)
Example honest_growth_is_reported :
  let s := (run_calls sample_remote
              [CallIdentity; CallIdentity;
               CallScan (mkFullScanRequest CNet.Regtest (sample_bytes 32 Byte.x01) (StartHeight 9) 5
                           (Some 3) [])] fresh_state).1 in
  s.(rs_session).(ss_tip_regression)
  = Some (mkTipRegression (mkBlockReference 2 (sample_bytes 32 Byte.x61))
            (mkBlockReference 1 (sample_bytes 32 Byte.x61))).
Proof. by vm_compute. Qed.
