(* ===== verification/Commands.v ===== *)
(** * Commands of the desktop application

    The command boundary of src/src-tauri/src/lib.rs above the wallet service: the
    errors that commands report and whether they may be retried, the coordination of
    protected activities, and the worker that keeps the wallet synchronised.  The
    texts of errors are kept, the log is not. *)

From S2P Require Import Prelude Bytes DomainTypes Recovery Storage CoreTypes Outputs Backend Spending Service.

(** ** Errors *)

Module AErr.
Inductive CommandError :=
| InvalidInput (message : string) | Unavailable | IdentityMismatch | RecoveryPhrase (problem : Phrase.PhraseProblem)
| NodeNotReady | RestoreNodeSynchronizing | RestoreDestinationExists | RestoreStagingIncompatible
| InvalidWalletName | ManagedWalletRejected | SynchronizationPaused | CursorInitializationFailed
| MiningRunning | MiningDisabled | MiningConfirmationRequired | NoPeers | WorkerPanicked | RecoveryRequired
| ActivityBusy | Wallet (code message : string) (retryable : bool).
End AErr.
Abbreviation cres := (result AErr.CommandError).




(** [CoreError::redacted_description] of dom-wallet-core. *)
Definition redacted_description (self : CErr.CoreError) : string :=
  match self with
  | CErr.WalletNotOpen => "Open a wallet before using this operation."
  | CErr.Locked => "Unlock the wallet before using this operation."
  | CErr.InvalidLifecycleState => "The wallet lifecycle does not permit this operation."
  | CErr.InvalidPassword => "The local wallet password is invalid."
  | CErr.RandomnessUnavailable => "Secure randomness is temporarily unavailable."
  | CErr.RecoveryCeremonyRequired => "Confirm the recovery phrase before using wallet funds."
  | CErr.RecoveryPhraseAlreadyConfirmed => "The recovery phrase has already been confirmed."
  | CErr.RecoveryPhraseInvalid => "The recovery phrase is invalid."
  | CErr.RecoveryUnavailable => "This wallet is not eligible for mnemonic recovery."
  | CErr.InvalidBackupDestination => "Choose a valid backup destination."
  | CErr.EmbeddedCoreRequired => "Start the embedded node before using this operation."
  | CErr.NodeNotReady => "The embedded node is still starting."
  | CErr.IdentityMismatch => "The wallet and node belong to different chains."
  | CErr.AddressIdentityRequired => "Canonical wallet address identities are required for this operation."
  | CErr.InvalidTransactionInput => "The transaction input is invalid."
  | CErr.TransactionExpired => "The transaction expiry is not above the canonical chain tip."
  | CErr.TransactionLifetimeExceeded => "The transaction lifetime exceeds the wallet safety limit."
  | CErr.InsufficientFunds => "The wallet does not have enough spendable funds for this payment."
  | CErr.UnsupportedSpendingEvidence => "The selected outputs do not contain supported spending evidence."
  | CErr.FeeTooLow => "The fee is below the embedded node policy minimum."
  | CErr.ArithmeticOverflow => "The requested values exceed the wallet amount range."
  | CErr.ReservationConflict => "One or more selected outputs are already reserved by another transaction."
  | CErr.InvalidScriptlessFundingRequest => "The Scriptless funding reservation request is invalid."
  | CErr.ScriptlessFundingSessionConflict => "The Scriptless funding session already has different frozen terms."
  | CErr.ScriptlessFundingShapeMismatch =>
      "The Scriptless funding components disagree with the frozen transaction shape."
  | CErr.ScriptlessFundingReservationNotFound => "The Scriptless funding reservation was not found."
  | CErr.ScriptlessFundingNotPrepared => "The Scriptless funding components are not durably prepared."
  | CErr.ScriptlessFundingCannotExport =>
      "The Scriptless funding components cannot be exported in their current state."
  | CErr.ScriptlessFundingSigningNotAuthorized =>
      "The Scriptless funding signing handoff is not authorized in this state."
  | CErr.ScriptlessFundingContextMismatch => "The Scriptless funding public and encrypted contexts disagree."
  | CErr.ScriptlessFundingCannotRelease =>
      "The Scriptless funding reservation cannot be released after exposure or a chain change."
  | CErr.ScriptlessSessionBindingRequired =>
      "The authenticated Scriptless session binding is required before exposure."
  | CErr.ScriptlessSessionBindingMismatch => "The Scriptless session-share capability disagrees with wallet state."
  | CErr.ScriptlessTemplateBindingMismatch => "The Scriptless transaction template disagrees with wallet state."
  | CErr.InvalidScriptlessPayoutRequest => "The Scriptless payout reservation request is invalid."
  | CErr.ScriptlessPayoutSessionConflict => "The Scriptless payout role already has different frozen terms."
  | CErr.ScriptlessPayoutReservationNotFound => "The Scriptless payout reservation was not found."
  | CErr.ScriptlessPayoutNotPrepared => "The Scriptless payout components are not durably prepared."
  | CErr.ScriptlessPayoutCannotExport =>
      "The Scriptless payout components cannot be exported in their current state."
  | CErr.ScriptlessPayoutContextMismatch => "The Scriptless payout public and encrypted contexts disagree."
  | CErr.ScriptlessPayoutSigningNotAuthorized =>
      "The Scriptless payout signing handoff is not authorized in this state."
  | CErr.ScriptlessPayoutCannotRelease => "The Scriptless payout reservation cannot be released after exposure."
  | CErr.InvalidSlateTransport => "The imported Slate v4 data is invalid or has been altered."
  | CErr.SlateReplayConflict => "The imported Slate conflicts with durable wallet state."
  | CErr.InvalidTransactionTransition => "The transaction cannot enter the requested lifecycle state."
  | CErr.MissingPrivateContext => "The private context required to continue this Slate is unavailable."
  | CErr.ProtocolRejected => "DOM protocol validation rejected the transaction."
  | CErr.CoverPolicyRejected => "The ordinary-send cover policy rejected the current chain snapshot."
  | CErr.FinalizedTransactionConflict => "Different finalized transaction bytes are already retained for this Slate."
  | CErr.MixedOutputRegime => "The transaction mixes incompatible output recovery formats."
  | CErr.CannotCancelTransaction => "The transaction cannot be cancelled after submission evidence."
  | CErr.ConfirmationRequired => "Explicit confirmation is required."
  | CErr.TransactionNotFound => "The requested transaction was not found."
  | CErr.InvalidCoreCursor => "The wallet synchronization cursor is invalid."
  | CErr.Storage StErr.WriterActive => "Close the other running wallet process before opening this wallet."
  | CErr.Storage (StErr.ExpectedGenerationConflict _) =>
      "Wallet state changed while synchronization was committing; retrying with the latest state."
  | CErr.Storage StErr.InvalidPassword => "The local wallet password is invalid."
  | CErr.Storage StErr.AuthenticationDataCorrupt =>
      "The wallet authentication record is corrupt and cannot be trusted."
  | CErr.Storage StErr.AuthenticatedPayloadCorrupt =>
      "The authenticated wallet payload is corrupt and cannot be opened."
  | CErr.Storage StErr.InvalidMetadata => "The wallet metadata is corrupt and cannot be opened."
  | CErr.Storage StErr.NotFound => "The managed wallet was not found."
  | CErr.Storage StErr.StateTooLarge =>
      "Wallet state storage limit exceeded. Synchronization stopped before changing the wallet; update DOM Wallet to continue."
  | CErr.Storage (StErr.Io _) =>
      "Wallet storage could not be written (for example disk full, read-only or permission denied). Fix the storage problem, then retry."
  | CErr.Storage _ => "Wallet storage could not complete the operation."
  | CErr.Domain DErr.SwapSessionNotFound => "The requested swap session was not found."
  | CErr.Domain DErr.InvalidSwapTransition => "The swap session cannot enter the requested state."
  | CErr.Domain _ => "Wallet state validation rejected the requested change."
  | CErr.Backend _ => "The node backend could not complete the requested operation."
  | CErr.Protocol _ => "Wallet protocol validation rejected the requested operation."
  | CErr.Recovery _ => "Wallet recovery material could not complete the operation."
  | CErr.Restore _ => "The wallet restore operation could not be completed."
  | CErr.Submission _ => "The transaction submission could not be completed."
  end.

Definition command_error_from_restore (error : RErr.SeedRestoreError) : AErr.CommandError :=
  match error with
  | RErr.InvalidDestination => AErr.RestoreDestinationExists
  | RErr.CoreBusy => AErr.RestoreNodeSynchronizing
  | RErr.InvalidMnemonic => AErr.Wallet "RECOVERY_PHRASE_INVALID" "The recovery phrase is invalid." false
  | RErr.InvalidPassword => AErr.Wallet "INVALID_PASSWORD" "The local wallet password is invalid." false
  | RErr.ChainIdentityMismatch => AErr.IdentityMismatch
  | RErr.IncompatibleCheckpoint => AErr.RestoreStagingIncompatible
  | RErr.Storage =>
      AErr.Wallet "RESTORE_STORAGE_FAILED" "The encrypted restore state could not be resumed safely." true
  | RErr.StateStorageLimitExceeded =>
      AErr.Wallet "WALLET_STATE_STORAGE_LIMIT_EXCEEDED"
        "Wallet state storage limit exceeded. The restore stopped without publishing a partial wallet; update DOM Wallet to continue." false
  | RErr.CanonicalScan =>
      AErr.Wallet "RESTORE_CANONICAL_SCAN_FAILED"
        "The canonical chain scan failed. Check node synchronization and retry." true
  | RErr.MalformedRecovery | RErr.ConflictingOutput | RErr.CoordinateOverflow | RErr.Incomplete =>
      AErr.Wallet "RESTORE_VALIDATION_FAILED" "The restored wallet state failed canonical validation." false
  end.

(** [From<CoreError> for CommandError] *)
Definition command_error_of_core (value : CErr.CoreError) : AErr.CommandError :=
  match value with
  | CErr.IdentityMismatch => AErr.IdentityMismatch
  | CErr.NodeNotReady | CErr.EmbeddedCoreRequired => AErr.NodeNotReady
  | CErr.InvalidCoreCursor => AErr.CursorInitializationFailed
  | CErr.Restore error => command_error_from_restore error
  | CErr.WalletNotOpen => AErr.Wallet "WALLET_NOT_OPEN" "Open a Mainnet wallet before using this operation." false
  | CErr.Locked => AErr.Wallet "WALLET_LOCKED" "Unlock the wallet before using this operation." false
  | CErr.InsufficientFunds =>
      AErr.Wallet "INSUFFICIENT_FUNDS" "The wallet does not have enough spendable funds for this payment." false
  | CErr.InvalidSlateTransport =>
      AErr.Wallet "SLATE_V4_TRANSPORT_INVALID" "The imported Slate v4 data is invalid or has been altered." false
  | CErr.MissingPrivateContext =>
      AErr.Wallet "SLATE_PRIVATE_CONTEXT_MISSING"
        "The private context required to continue this Slate is unavailable." false
  | CErr.FeeTooLow => AErr.Wallet "FEE_TOO_LOW" "The fee is below the embedded node policy minimum." false
  | CErr.Backend error =>
      if is_transient_sync_unavailability error then AErr.NodeNotReady
      else AErr.Wallet "EMBEDDED_NODE_OPERATION_FAILED"
             "The embedded Mainnet node could not complete the requested operation." true
  | other =>
      let code := redacted_code other in
      AErr.Wallet code (redacted_description other)
        (bool_decide (code ∈ ["WALLET_WRITER_ACTIVE"; "WALLET_STORAGE_GENERATION_CONFLICT"]%string))
  end.

(** ** Activities *)

Inductive ActivityKind :=
| WalletLifecycle | NodeLifecycle | Mining | Synchronization | CriticalTransaction | Backup | Restore | Updater
| Shutdown.
#[global] Instance ActivityKind_eq_dec : EqDecision ActivityKind.
Proof. solve_decision. Defined.
Definition activity_rank (kind : ActivityKind) : nat :=
  match kind with
  | WalletLifecycle => 0 | NodeLifecycle => 1 | Mining => 2 | Synchronization => 3 | CriticalTransaction => 4
  | Backup => 5 | Restore => 6 | Updater => 7 | Shutdown => 8
  end.
Definition activity_of_rank (n : nat) : option ActivityKind :=
  [WalletLifecycle; NodeLifecycle; Mining; Synchronization; CriticalTransaction; Backup; Restore; Updater; Shutdown] !! n.
#[global] Instance ActivityKind_countable : Countable ActivityKind.
Proof. apply (inj_countable activity_rank activity_of_rank). by intros []. Defined.

Definition is_exclusive (kind : ActivityKind) : bool :=
  match kind with Updater | Shutdown => true | _ => false end.
(** [ActivityCoordinator::try_begin]: the lease that it returns is held until it is
    dropped. *)
Definition try_begin (kind : ActivityKind) : method (gset ActivityKind) AErr.CommandError unit := fun active =>
  if (is_exclusive kind && negb (bool_decide (active = ∅)))
     || (negb (is_exclusive kind) && existsb is_exclusive (elements active))
     || bool_decide (kind ∈ active)
  then (active, Err AErr.ActivityBusy)
  else ({[kind]} ∪ active, Ok tt).
(** [Drop for ActivityLease] *)
Definition drop_lease (kind : ActivityKind) (active : gset ActivityKind) : gset ActivityKind := active ∖ {[kind]}.

Inductive ActivityStep := Begin (kind : ActivityKind) | End (kind : ActivityKind).
(** A lease is dropped by whoever holds it; to drop what is not held does nothing. *)
Definition activity_step (active : gset ActivityKind) (step : ActivityStep) : gset ActivityKind :=
  match step with Begin kind => (try_begin kind active).1 | End kind => drop_lease kind active end.

(** ** The synchronisation worker *)

Definition SYNC_IDLE : N := 0.
Definition SYNC_RUNNING : N := 1.
Definition SYNC_STOPPING : N := 2.
Definition SYNC_ERROR : N := 3.
Definition SYNC_RETRY_INITIAL_BACKOFF_MILLIS : N := 250.
Definition SYNC_RETRY_MAX_BACKOFF_MILLIS : N := 5000.
Definition SYNC_RETRY_JITTER_MILLIS : N := 250.

Definition terminal_synchronization_error (error : AErr.CommandError) : bool :=
  match error with
  | AErr.IdentityMismatch | AErr.RecoveryRequired | AErr.RecoveryPhrase _ | AErr.InvalidInput _
  | AErr.RestoreDestinationExists | AErr.RestoreStagingIncompatible | AErr.InvalidWalletName
  | AErr.ManagedWalletRejected | AErr.MiningRunning | AErr.MiningDisabled | AErr.MiningConfirmationRequired => true
  | AErr.Unavailable | AErr.NodeNotReady | AErr.RestoreNodeSynchronizing | AErr.SynchronizationPaused
  | AErr.CursorInitializationFailed | AErr.NoPeers | AErr.WorkerPanicked | AErr.ActivityBusy => false
  | AErr.Wallet _ _ retryable => negb retryable
  end.

(** [nanoseconds]: those of the current second, for the jitter. *)
Definition synchronization_retry_backoff (nanoseconds consecutive_failures : N) : N :=
  let shift := N.min consecutive_failures 5 in
  let base := N.min (saturating_mul u64_max SYNC_RETRY_INITIAL_BACKOFF_MILLIS (N.shiftl 1 shift))
                SYNC_RETRY_MAX_BACKOFF_MILLIS in
  saturating_add u64_max base (nanoseconds mod SYNC_RETRY_JITTER_MILLIS).

Section follow.
Context {W : Type} (stop : W -> bool) (synchronize_once : W -> W * cres bool) (wait : N -> W -> W)
  (nanoseconds : W -> N).

End follow.

Definition latches_automatic_restart (code : string) : bool :=
  bool_decide (code ∈ ["WALLET_STATE_STORAGE_LIMIT_EXCEEDED"; "WALLET_STATE_VALIDATION_FAILED";
                       "WALLET_STORAGE_FAILED"; "RESTORE_VALIDATION_FAILED"]%string)
  || String.prefix "WALLET_STORAGE_IO_FAILED" code.

Record TerminalSyncLatch := mkTerminalSyncLatch { tsl_wallet_id : option uuid; tsl_code : string }.
(** The worker's handle is kept as whether its thread has ended. *)
Record SynchronizationRuntime := mkSynchronizationRuntime {
  sr_state : N;
  sr_stop : bool;
  sr_error_code : option string;
  sr_worker : option bool;
  sr_terminal_latch : option TerminalSyncLatch;
}.
#[global] Instance SynchronizationRuntime_fields : FieldList SynchronizationRuntime := fun r =>
  mkSynchronizationRuntime r.(sr_state) r.(sr_stop) r.(sr_error_code) r.(sr_worker) r.(sr_terminal_latch).
Definition SynchronizationRuntime_default : SynchronizationRuntime :=
  mkSynchronizationRuntime SYNC_IDLE false None None None.

Definition worker_error_code (error : AErr.CommandError) : string :=
  match error with
  | AErr.RecoveryRequired => "SYNC_RECOVERY_REQUIRED"
  | AErr.Wallet code _ _ => code
  | _ => "SYNC_WORK_FAILED"
  end.
(** The end of the worker: [None] is a panic.  Its lease is dropped with it. *)
Definition worker_finished (worker_result : option (cres unit)) (wallet_id : option uuid)
    (runtime : SynchronizationRuntime) : SynchronizationRuntime :=
  let runtime := runtime <| sr_worker := Some true |> in
  match worker_result with
  | Some (Ok _) => if runtime.(sr_state) =? SYNC_ERROR then runtime else runtime <| sr_state := SYNC_IDLE |>
  | Some (Err error) =>
      let code := worker_error_code error in
      runtime <| sr_state := SYNC_ERROR |>
              <| sr_terminal_latch := if latches_automatic_restart code then Some (mkTerminalSyncLatch wallet_id code)
                                      else runtime.(sr_terminal_latch) |>
              <| sr_error_code := Some code |>
  | None => runtime <| sr_state := SYNC_ERROR |> <| sr_error_code := Some "SYNC_WORKER_PANIC"%string |>
  end.

(** The coordinator's activities and the worker. *)
Definition Shell : Type := gset ActivityKind * SynchronizationRuntime.
Abbreviation command A := (method Shell AErr.CommandError A) (only parsing).

(** [joined]: whether the join of a thread that ended was no panic. *)
Definition reap_finished_sync_worker (joined : bool) : command unit := fun s =>
  if bool_decide (s.2.(sr_worker) = Some true) then
    let runtime := s.2 <| sr_worker := None |> in
    if joined then ((s.1, runtime), Ok tt)
    else ((s.1, runtime <| sr_state := SYNC_ERROR |> <| sr_error_code := Some "SYNC_WORKER_PANIC"%string |>),
          Err AErr.WorkerPanicked)
  else (s, Ok tt).

(** Whether a latch refuses the start of a worker for the current wallet. *)
Definition latch_holds (latch : TerminalSyncLatch) (current_wallet : option uuid) : bool :=
  negb (is_some current_wallet) || negb (is_some latch.(tsl_wallet_id))
  || bool_decide (latch.(tsl_wallet_id) = current_wallet).

(** [running]: the outcome of [ensure_running], [status] of [wallet_sync_status];
    [spawned]: whether the thread starts.  The answer is whether the status is given
    as synchronising. *)
Definition synchronization_start_live (running : cres unit) (paused joined : bool) (status : cres unit)
    (current_wallet : option uuid) (spawned : bool) : command bool :=
  mread (fun _ => running) ;;;
  mread (fun _ => fail_if paused AErr.SynchronizationPaused) ;;;
  reap_finished_sync_worker joined ;;;
  mread (fun _ => status) ;;;
  fun s =>
    let start (s : Shell) : Shell * cres bool :=
      if is_some s.2.(sr_worker) || (s.2.(sr_state) =? SYNC_RUNNING) then (s, Ok true)
      else match try_begin Synchronization s.1 with
      | (_, Err error) => (s, Err error)
      | (active, Ok _) =>
          let runtime := s.2 <| sr_stop := false |> <| sr_state := SYNC_RUNNING |> <| sr_error_code := None |> in
          if spawned then ((active, runtime <| sr_worker := Some false |>), Ok true)
          else ((drop_lease Synchronization active,
                 runtime <| sr_state := SYNC_ERROR |> <| sr_error_code := Some "SYNC_WORKER_START_FAILED"%string |>),
                Err AErr.Unavailable)
      end in
    match s.2.(sr_terminal_latch) with
    | Some latch =>
        if latch_holds latch current_wallet then (s, Ok false)
        else start (s.1, s.2 <| sr_terminal_latch := None |>)
    | None => start s
    end.

(** A start that the user asked for. *)
Definition synchronization_start_explicit (running : cres unit) (paused joined : bool) (status : cres unit)
    (current_wallet : option uuid) (spawned : bool) : command bool :=
  massign (fun s => (s.1, s.2 <| sr_terminal_latch := None |>)) ;;;
  synchronization_start_live running paused joined status current_wallet spawned.

(** [worker_panicked]: the join of the worker found a panic. *)
Definition stop_synchronization_worker (worker_panicked : bool) : command unit := fun s =>
  let worker := s.2.(sr_worker) in
  let runtime := s.2 <| sr_stop := true |> <| sr_worker := None |>
                     <| sr_state := if is_some worker then SYNC_STOPPING else s.2.(sr_state) |> in
  if is_some worker && worker_panicked then
    ((s.1, runtime <| sr_state := SYNC_ERROR |> <| sr_error_code := Some "SYNC_WORKER_PANIC"%string |>),
     Err AErr.WorkerPanicked)
  else ((s.1, runtime <| sr_state := SYNC_IDLE |>), Ok tt).

(** ** What holds of commands *)


(** *** Activities *)

Lemma try_begin_Ok kind active active' u :
  try_begin kind active = (active', Ok u) ->
  active' = {[kind]} ∪ active /\ kind ∉ active
  /\ (is_exclusive kind = true -> active = ∅)
  /\ (is_exclusive kind = false -> forall other, other ∈ active -> is_exclusive other = false).
Proof.
  unfold try_begin. destruct (_ || _) eqn:E; [done|]. intros [= <- _].
  apply orb_false_iff in E as [E Hin]. apply orb_false_iff in E as [He Ho]. bool_inv.
  split; [done|]. split; [done|]. split; intros Hk; rewrite Hk in *; simpl in *; bool_inv; [done|].
  intros other Hother. destruct (is_exclusive other) eqn:Hx; [|done]. exfalso.
  assert (H : existsb is_exclusive (elements active) = true); [|congruence].
  apply existsb_exists. exists other. split; [|done]. by apply list_elem_of_In, elem_of_elements.
Qed.
Lemma try_begin_Err kind active active' e :
  try_begin kind active = (active', Err e) -> active' = active /\ e = AErr.ActivityBusy.
Proof. unfold try_begin. destruct (_ || _); [by intros [= <- <-]|done]. Qed.

(** An update or a shutdown is alone. *)
Definition exclusive_alone (active : gset ActivityKind) : Prop :=
  forall kind, kind ∈ active -> is_exclusive kind = true -> active = {[kind]}.

Lemma activity_step_alone active step : exclusive_alone active -> exclusive_alone (activity_step active step).
Proof.
  intros Ha. destruct step as [kind|kind]; simpl.
  - destruct (try_begin kind active) as [active' [u|e]] eqn:E; simpl.
    + apply try_begin_Ok in E as (-> & Hn & Hx & Ho). destruct (is_exclusive kind) eqn:Hk.
      * rewrite (Hx eq_refl), union_empty_r_L. by intros other ->%elem_of_singleton.
      * intros other [->%elem_of_singleton|Hin]%elem_of_union Hother; [congruence|].
        by rewrite (Ho eq_refl _ Hin) in Hother.
    + by apply try_begin_Err in E as [-> _].
  - unfold drop_lease. intros other [Hin Hne]%elem_of_difference Hother.
    rewrite (Ha _ Hin Hother) in *. set_solver.
Qed.

(** In whatever order activities begin and end, an update or a shutdown is never
    active beside anything else; a kind that is active cannot begin again; what is
    refused changes nothing; and when nothing is active, anything can begin. *)
Theorem activities_exclude_each_other (steps : list ActivityStep) :
  let active := fold_left activity_step steps ∅ in
  exclusive_alone active
  /\ (forall kind, kind ∈ active -> try_begin kind active = (active, Err AErr.ActivityBusy))
  /\ (forall kind, try_begin kind active = (active, Err AErr.ActivityBusy)
                   \/ try_begin kind active = ({[kind]} ∪ active, Ok tt))
  /\ (active = ∅ -> forall kind, try_begin kind active = ({[kind]}, Ok tt)).
Proof.
  intros active. split; [|split; [|split]].
  - subst active. induction steps as [|step steps IH] using rev_ind; [set_solver|].
    rewrite fold_left_app. simpl. by apply activity_step_alone.
  - intros kind Hk. unfold try_begin. rewrite (bool_decide_true _ Hk), orb_true_r. done.
  - intros kind. unfold try_begin. destruct (_ || _); auto.
  - intros -> kind. unfold try_begin. rewrite elements_empty, bool_decide_true, bool_decide_false by set_solver.
    rewrite union_empty_r_L. by destruct kind.
Qed.

(** *** The worker *)

Lemma backoff_value nanoseconds n :
  synchronization_retry_backoff nanoseconds n
  = N.min (250 * 2 ^ N.min n 5) 5000 + nanoseconds mod 250.
Proof.
  unfold synchronization_retry_backoff, saturating_mul, saturating_add, SYNC_RETRY_INITIAL_BACKOFF_MILLIS,
    SYNC_RETRY_MAX_BACKOFF_MILLIS, SYNC_RETRY_JITTER_MILLIS, u64_max.
  rewrite N.shiftl_1_l. assert (2 ^ N.min n 5 <= 2 ^ 5) by (apply N.pow_le_mono_r; lia).
  assert (nanoseconds mod 250 < 250) by (apply N.mod_lt; lia).
  generalize dependent (nanoseconds mod 250). generalize dependent (2 ^ N.min n 5). intros a Ha b Hb.
  change (2 ^ 5) with 32 in Ha. lia.
Qed.
(** A retry waits between a quarter of a second and five and a quarter. *)
Lemma backoff_bounds nanoseconds n : 250 <= synchronization_retry_backoff nanoseconds n < 5250.
Proof.
  rewrite backoff_value. assert (2 ^ 0 <= 2 ^ N.min n 5) by (apply N.pow_le_mono_r; lia).
  assert (nanoseconds mod 250 < 250) by (apply N.mod_lt; lia).
  generalize dependent (nanoseconds mod 250). generalize dependent (2 ^ N.min n 5). intros a Ha b Hb.
  change (2 ^ 0) with 1 in Ha. lia.
Qed.
(** It waits no shorter after more failures, the jitter apart. *)
Lemma backoff_grows nanoseconds n m :
  n <= m -> synchronization_retry_backoff nanoseconds n <= synchronization_retry_backoff nanoseconds m.
Proof.
  intros H. rewrite !backoff_value.
  assert (2 ^ N.min n 5 <= 2 ^ N.min m 5) by (apply N.pow_le_mono_r; lia).
  apply N.add_le_mono_r, N.min_le_compat_r. by apply N.mul_le_mono_l.
Qed.



Section worker.
Context {W : Type} (stop : W -> bool) (synchronize_once : W -> W * cres bool) (wait : N -> W -> W)
  (nanoseconds : W -> N).



End worker.

(** A latched failure refuses every start that the user did not ask for, for the
    wallet it befell or while the wallet is not known. *)
Lemma latched_failures_wait_for_the_user latch paused joined status current spawned (s s' : Shell) r :
  s.2.(sr_terminal_latch) = Some latch -> latch_holds latch current = true -> s.2.(sr_worker) <> Some false ->
  synchronization_start_live (Ok tt) paused joined status current spawned s = (s', r) ->
  s'.1 = s.1 /\ s'.2.(sr_terminal_latch) = Some latch /\ s'.2.(sr_worker) <> Some false.
Proof.
  intros Hl Hh Hw H.
  unfold synchronization_start_live in H. unfold mthen at 1, mread at 1 in H.
  apply mthen_inv in H as [(e & H & ->)|(s1 & u1 & H1 & H)].
  { injection H as <- _. auto. }
  injection H1 as <- _. assert (Hr : forall s2 o, reap_finished_sync_worker joined s = (s2, o) ->
    s2.1 = s.1 /\ s2.2.(sr_terminal_latch) = Some latch /\ s2.2.(sr_worker) <> Some false).
  { intros s2 o. unfold reap_finished_sync_worker. destruct (bool_decide _).
    - by destruct joined; intros [= <- _].
    - by intros [= <- _]. }
  apply mthen_inv in H as [(e & H & ->)|(s2 & u2 & H2 & H)]; [by apply Hr in H|]. apply Hr in H2 as (E & El & Ew).
  apply mthen_inv in H as [(e & H & ->)|(s3 & u3 & H3 & H)]; [by injection H as <- _|].
  injection H3 as <- _. rewrite El, Hh in H. injection H as <- _. done.
Qed.

(** *** Two texts of the source *)

(** A node of another chain is reported by the backend, and retried for ever. *)
Example a_foreign_chain_is_retried :
  terminal_synchronization_error
    (command_error_of_core (CErr.Backend (PBErr.Scan (SErr.IdentityMismatch "GENESIS")))) = false.
Proof. reflexivity. Qed.
(** The error of a remote URL that is missing or invalid ends the worker. *)
Example an_invalid_remote_url_ends_the_worker :
  terminal_synchronization_error (AErr.InvalidInput "remote node URL is invalid") = true.
Proof. reflexivity. Qed.

(** ** Witnesses *)

Example an_update_is_alone :
  let active := fold_left activity_step [Begin Backup; Begin Updater; End Backup; Begin Updater; Begin Mining] ∅ in
  Updater ∈ active /\ active = {[Updater]} /\ try_begin Mining active = (active, Err AErr.ActivityBusy).
Proof.
  pose proof (activities_exclude_each_other
    [Begin Backup; Begin Updater; End Backup; Begin Updater; Begin Mining]) as (Ha & _ & Ho & _).
  assert (Hu : Updater ∈ fold_left activity_step [Begin Backup; Begin Updater; End Backup; Begin Updater; Begin Mining] ∅)
    by (apply (bool_decide_unpack _); vm_compute; exact I).
  split; [exact Hu|]. split; [exact (Ha _ Hu eq_refl)|].
  destruct (Ho Mining) as [H|H]; [exact H|]. exfalso.
  assert (E : is_ok (try_begin Mining (fold_left activity_step
    [Begin Backup; Begin Updater; End Backup; Begin Updater; Begin Mining] ∅)).2 = false) by (vm_compute; reflexivity).
  rewrite H in E. discriminate E.
Qed.

