(* ===== verification/Desktop.v ===== *)
(** * The desktop application's own rules

    The pure parts of src/src-tauri/src/lib.rs beside its commands: what the node is
    ready for and when mining may start, the fees and assets of a swap, the names and
    places of managed wallets, the status of a wallet update, and the port the node
    listens on.  Numbers in floating point, the state of the miner and the texts for
    the user are not modelled. *)

From S2P Require Import Prelude Bytes DomainTypes Validation Envelope Storage Directories Peers Updater RemoteSource Commands.

(** ** Readiness of the node *)

Record NodeReadinessSnapshot := mkNodeReadinessSnapshot {
  nrd_process_running : bool;
  nrd_canonical_identity_verified : bool;
  nrd_local_height : N;
  nrd_local_tip_hash : option bytes;
  nrd_connected_peers : N;
  nrd_highest_known_peer_height : option N;
  nrd_ibd_progress_percent : option N;
  nrd_critical_task_failed : bool;
  nrd_last_successful_status_at : option N;
  nrd_now : N;
}.
Module Ready.
Inductive NodeReadiness :=
| Stopped | Starting | WaitingForPeers | UnknownPeerHeight | ConnectedAtGenesis
| Synchronizing (local_height peer_height : N) | Ready | Stale | Failed.
End Ready.
Definition NODE_STATUS_STALE_AFTER_SECONDS : N := 30.

Definition derive_node_readiness (snapshot : NodeReadinessSnapshot) : Ready.NodeReadiness :=
  if negb snapshot.(nrd_process_running) then Ready.Stopped
  else if snapshot.(nrd_critical_task_failed) then Ready.Failed
  else if is_some_and snapshot.(nrd_last_successful_status_at) (fun observed =>
            NODE_STATUS_STALE_AFTER_SECONDS <? saturating_sub snapshot.(nrd_now) observed) then Ready.Stale
  else if negb snapshot.(nrd_canonical_identity_verified) || negb (is_some snapshot.(nrd_local_tip_hash))
       then Ready.Starting
  else if snapshot.(nrd_connected_peers) =? 0 then Ready.WaitingForPeers
  else match snapshot.(nrd_highest_known_peer_height) with
  | None => Ready.UnknownPeerHeight
  | Some peer_height =>
      if (snapshot.(nrd_local_height) =? 0) && (peer_height =? 0) then Ready.ConnectedAtGenesis
      else if snapshot.(nrd_local_height) <? peer_height
           then Ready.Synchronizing snapshot.(nrd_local_height) peer_height
      else if peer_height =? snapshot.(nrd_local_height) then Ready.Ready
      else Ready.UnknownPeerHeight
  end.
Definition readiness_allows_mining (readiness : Ready.NodeReadiness) : bool :=
  match readiness with Ready.Ready | Ready.ConnectedAtGenesis => true | _ => false end.
(** The percentage of [node_synchronization_status]. *)
Definition readiness_progress (readiness : Ready.NodeReadiness) : option N :=
  match readiness with
  | Ready.ConnectedAtGenesis | Ready.Ready => Some 100
  | Ready.Synchronizing local_height peer_height =>
      Some (if peer_height =? 0 then 0 else (local_height * 100) / peer_height mod (u64_max + 1))
  | _ => None
  end.

Definition cursor_is_authoritatively_synchronized (cursor_height : option N) (cursor_hash : option bytes)
    (canonical_height : option N) (canonical_hash : option bytes) (connected_peers : N)
    (highest_known_peer_height : option N) (last_error : option string) : bool :=
  (0 <? connected_peers) && is_some cursor_height && bool_decide (cursor_height = canonical_height)
  && bool_decide (cursor_height = highest_known_peer_height) && is_some cursor_hash
  && bool_decide (cursor_hash = canonical_hash) && negb (is_some last_error).
Definition require_mining_cursor_gate (cursor_height : option N) (cursor_hash : option bytes)
    (canonical_height : option N) (canonical_hash : option bytes) (last_error : option string) (connected_peers : N)
    : cres unit :=
  fail_if (negb (is_some cursor_height) || negb (bool_decide (cursor_height = canonical_height))
           || negb (is_some cursor_hash) || negb (bool_decide (cursor_hash = canonical_hash))
           || is_some last_error) AErr.CursorInitializationFailed ;?
  fail_if (connected_peers =? 0) AErr.NoPeers.
Definition scan_progress_percent (cursor_height tip_height : option N) : option N :=
  match cursor_height, tip_height with
  | Some cursor, Some tip => Some (if 0 <? tip then (N.min cursor tip * 100) / tip mod (u64_max + 1) else 100)
  | _, _ => None
  end.

(** ** Swaps *)

Definition SWAP_FEE_BPS_SINGLE_LEG : N := 50.
Definition SWAP_FEE_BPS_DUAL_LEG : N := 100.
Definition BPS_DENOMINATOR : N := 10000.

Module Leg.
Inductive ReceivingLeg := Dom | Bitcoin | Evm | Solana | Monero.
#[global] Instance ReceivingLeg_eq_dec : EqDecision ReceivingLeg.
Proof. solve_decision. Defined.
End Leg.
Record AssetIdentity := mkAssetIdentity {
  as_code : bytes;
  as_ticker : bytes;
  as_network : bytes;
  as_leg : Leg.ReceivingLeg;
  as_base_unit_name : bytes;
  as_decimals : N;
}.
Definition ASSET_REGISTRY : list AssetIdentity :=
  [mkAssetIdentity (str "DOM") (str "DOM") (str "DOM") Leg.Dom (str "nom") 8;
   mkAssetIdentity (str "BTC") (str "BTC") (str "Bitcoin") Leg.Bitcoin (str "satoshi") 8;
   mkAssetIdentity (str "XMR") (str "XMR") (str "Monero") Leg.Monero (str "piconero") 12;
   mkAssetIdentity (str "SOL") (str "SOL") (str "Solana") Leg.Solana (str "lamport") 9;
   mkAssetIdentity (str "USDT.ETH") (str "USDT") (str "Ethereum") Leg.Evm (str "micro-USDT") 6;
   mkAssetIdentity (str "USDT.SOL") (str "USDT") (str "Solana") Leg.Solana (str "micro-USDT") 6].

Definition asset (code : bytes) : option AssetIdentity :=
  List.find (fun a => bool_decide (a.(as_code) = code)) ASSET_REGISTRY.
Definition external_legs (from_asset to_asset : bytes) : option N :=
  if negb (is_some (asset from_asset)) || negb (is_some (asset to_asset)) then None
  else Some (match bool_decide (from_asset = str "DOM"), bool_decide (to_asset = str "DOM") with
             | true, true => 0
             | true, false | false, true => 1
             | false, false => 2
             end).
Definition fee_bps_for_route (from_asset to_asset : bytes) : option N :=
  (fun legs => if legs <=? 1 then SWAP_FEE_BPS_SINGLE_LEG else SWAP_FEE_BPS_DUAL_LEG)
    <$> external_legs from_asset to_asset.
(** In 128 bits, where the product of two u64 fits. *)
Definition swap_fee_noms (amount_noms fee_bps : N) : option N :=
  if (amount_noms =? 0) || (BPS_DENOMINATOR <? fee_bps) then None
  else let fee := (amount_noms * fee_bps + BPS_DENOMINATOR - 1) / BPS_DENOMINATOR in
       if fee <=? u64_max then Some fee else None.
Definition accepted_quote_fee_noms (quote : SwapAcceptedQuote) (fee_bps : N) : option N :=
  swap_fee_noms quote.(saq_dom_leg_amount_base_units) fee_bps.

(** ** Managed wallets *)

Definition RESERVED_WALLET_NAMES : list bytes :=
  map str ["CON"; "PRN"; "AUX"; "NUL"; "COM1"; "COM2"; "COM3"; "COM4"; "COM5"; "COM6"; "COM7"; "COM8";
           "COM9"; "LPT1"; "LPT2"; "LPT3"; "LPT4"; "LPT5"; "LPT6"; "LPT7"; "LPT8"; "LPT9"]%string.

(** [char::is_control] of some character of UTF-8 text: below 32, 127, and 128 to 159. *)
Fixpoint has_control (s : bytes) : bool :=
  match s with
  | [] => false
  | a :: s =>
      (Byte.to_N a <? 32) || (Byte.to_N a =? 127)
      || ((Byte.to_N a =? 194) && match s with b :: _ => in_range 128 159 b | [] => false end)
      || has_control s
  end.
Definition forbidden_in_names : bytes := map byte_of [60; 62; 58; 34; 47; 92; 124; 63; 42].

Definition validate_wallet_name (name : bytes) : cres unit :=
  fail_if (is_empty name || (64 <? len name)
           || bool_decide (head name = Some Byte.x2e) || bool_decide (last name = Some Byte.x2e)
           || bool_decide (head name = Some Byte.x20) || bool_decide (last name = Some Byte.x20))
          AErr.InvalidWalletName ;?
  fail_if (has_control name || existsb (fun c => contains c name) forbidden_in_names) AErr.InvalidWalletName ;?
  let stem := default [] (head (split Byte.x2e name)) in
  fail_if (existsb (eq_ignore_ascii_case stem) RESERVED_WALLET_NAMES) AErr.InvalidWalletName.

(** [root_kind]: what [symlink_metadata] of the root finds; [root_exists] follows
    links.  A valid name is one component. *)
Definition resolve_wallet_directory (wallets_root : path) (root_exists : bool) (root_kind : option FileKind) (name : bytes)
    : cres path :=
  validate_wallet_name name ;?
  fail_if (root_exists && negb (real_directory root_kind)) AErr.ManagedWalletRejected ;?
  Ok (wallets_root ++ [Normal name]).

(** Whether something is in the way of a restore: an empty directory is removed. *)
Definition restore_destination_is_occupied (name : bytes) (p : Place) : Place * bool :=
  match entry name p with
  | (p, Err _) | (p, Ok None) => (p, false)
  | (p, Ok (Some (Directory d))) =>
      match peek (fun _ => Ok tt) p with
      | (p, Err _) => (p, true)
      | (p, Ok _) =>
          if is_empty_directory (Directory d) then
            let '(p, r) := change (delete name) p in (p, negb (is_ok r))
          else (p, true)
      end
  | (p, Ok (Some _)) => (p, true)
  end.

Record WalletCatalogDiagnostic := mkWalletCatalogDiagnostic { wcd_entry : bytes; wcd_code : string }.

Fixpoint lex_leb (a b : bytes) : bool :=
  match a, b with
  | [], _ => true
  | _ :: _, [] => false
  | x :: a, y :: b => (Byte.to_N x <? Byte.to_N y) || ((Byte.to_N x =? Byte.to_N y) && lex_leb a b)
  end.
(** A stable sort. *)
Fixpoint insert_by {A} (key : A -> bytes) (x : A) (l : list A) : list A :=
  match l with
  | [] => [x]
  | y :: l' => if lex_leb (key x) (key y) then x :: l else y :: insert_by key x l'
  end.
Definition sort_by {A} (key : A -> bytes) (l : list A) : list A := foldr (insert_by key) [] l.

Section catalog.
Context {code : CryptoCode} {json : StateCode}.

Definition resolve_existing_managed_wallet (wallets_root : path) (root_exists : bool) (root_kind : option FileKind)
    (canonicalize : path -> option path) (name : bytes) (p : Place) : Place * cres path :=
  match (let? candidate := resolve_wallet_directory wallets_root root_exists root_kind name in
         let? root := ok_or (canonicalize wallets_root) AErr.ManagedWalletRejected in
         Ok (candidate, root)) with
  | Err e => (p, Err e)
  | Ok (candidate, root) =>
      match entry name p with
      | (p, Ok (Some (Directory _))) =>
          match inspect_structure name p with
          | (p, Ok _) =>
              (p, let? canonical := ok_or (canonicalize candidate) AErr.ManagedWalletRejected in
                  fail_if (negb (bool_decide (parent canonical = Some root))) AErr.ManagedWalletRejected ;?
                  Ok canonical)
          | (p, Err _) => (p, Err AErr.ManagedWalletRejected)
          end
      | (p, _) => (p, Err AErr.ManagedWalletRejected)
      end
  end.

(** The code of an entry of the catalog that is no wallet. *)
Definition catalog_code (name : bytes) (p : Place) : Place * option string :=
  if bool_decide (head name = Some Byte.x2e) then (p, Some "STAGING_OR_HIDDEN"%string)
  else if negb (is_ok (validate_wallet_name name)) then (p, Some "ENTRY_NAME_INVALID"%string)
  else match entry name p with
  | (p, Ok (Some (Directory _))) =>
      match inspect_structure name p with
      | (p, Ok _) => (p, None)
      | (p, Err _) => (p, Some "WALLET_STRUCTURE_INVALID"%string)
      end
  | (p, _) => (p, Some "ENTRY_TYPE_INVALID"%string)
  end.
Fixpoint inspect_entries (names : list bytes) (p : Place) : Place * (list bytes * list WalletCatalogDiagnostic) :=
  match names with
  | [] => (p, ([], []))
  | name :: names =>
      if negb (is_utf8 name) then
        let '(p, (valid, invalid)) := inspect_entries names p in
        (p, (valid, mkWalletCatalogDiagnostic (str "[NON_UTF8]") "ENTRY_NAME_INVALID" :: invalid))
      else
        let '(p, found) := catalog_code name p in
        let '(p, (valid, invalid)) := inspect_entries names p in
        match found with
        | None => (p, (name :: valid, invalid))
        | Some c => (p, (valid, mkWalletCatalogDiagnostic name c :: invalid))
        end
  end.
(** [order]: that in which the directory lists its entries. *)
Definition inspect_wallet_catalog (root_kind : option FileKind) (order : list bytes -> list bytes) (p : Place)
    : Place * (list bytes * list WalletCatalogDiagnostic) :=
  match root_kind with
  | None => (p, ([], []))
  | Some IsDirectory =>
      match peek (fun e => Ok (order (map fst (map_to_list e)))) p with
      | (p, Err _) => (p, ([], []))
      | (p, Ok names) =>
          let '(p, (valid, invalid)) := inspect_entries names p in
          (p, (sort_by id valid, sort_by wcd_entry invalid))
      end
  | Some _ => (p, ([], [mkWalletCatalogDiagnostic (str "[ROOT]") "MANAGED_ROOT_UNSAFE"]))
  end.
Definition list_wallet_names (root_kind : option FileKind) (order : list bytes -> list bytes) (p : Place) : list bytes :=
  (inspect_wallet_catalog root_kind order p).2.1.
End catalog.

(** ** The status of a wallet update *)

Record WalletUpdaterStatusDto := mkWalletUpdaterStatusDto {
  wus_available_version : option bytes;
  wus_state : WalletUpdaterState;
  wus_last_check_unix_seconds : option N;
  wus_next_check_unix_seconds : option N;
  wus_progress_percent : option N;
  wus_sanitized_error : option string;
}.
#[global] Instance WalletUpdaterStatusDto_fields : FieldList WalletUpdaterStatusDto := fun r =>
  mkWalletUpdaterStatusDto r.(wus_available_version) r.(wus_state) r.(wus_last_check_unix_seconds)
    r.(wus_next_check_unix_seconds) r.(wus_progress_percent) r.(wus_sanitized_error).
(** What changes of [UpdateStatusDto], and the guard of a check. *)
Record UpdateControl := mkUpdateControl {
  upc_automatic_updates : bool;
  upc_wallet : WalletUpdaterStatusDto;
  upc_check_in_progress : bool;
}.
#[global] Instance UpdateControl_fields : FieldList UpdateControl := fun r =>
  mkUpdateControl r.(upc_automatic_updates) r.(upc_wallet) r.(upc_check_in_progress).
Definition UpdateControl_new : UpdateControl :=
  mkUpdateControl true (mkWalletUpdaterStatusDto None WalletIdle None None None None) false.

Definition set_automatic_updates (enabled : bool) (self : UpdateControl) : UpdateControl :=
  self <| upc_automatic_updates := enabled |>.
Definition begin_wallet_check (now : N) (self : UpdateControl) : UpdateControl * bool :=
  if self.(upc_check_in_progress) then (self, false)
  else (self <| upc_check_in_progress := true |>
             <| upc_wallet ::= fun w => w <| wus_state := WalletChecking |> <| wus_last_check_unix_seconds := Some now |>
                                          <| wus_next_check_unix_seconds := Some (now + UPDATE_INTERVAL_SECONDS) |>
                                          <| wus_sanitized_error := None |> |>, true).
Definition end_check (f : WalletUpdaterStatusDto -> WalletUpdaterStatusDto) (self : UpdateControl) : UpdateControl :=
  self <| upc_wallet ::= f |> <| upc_check_in_progress := false |>.
Definition finish_check_without_key : UpdateControl -> UpdateControl :=
  end_check (fun w => w <| wus_state := WalletFailed |>
                        <| wus_sanitized_error := Some "UPDATE_SIGNATURE_KEY_UNAVAILABLE"%string |>).
Definition finish_network_check (wallet_available : option bytes) (wallet_error : option string)
    : UpdateControl -> UpdateControl :=
  end_check (fun w => w <| wus_available_version := wallet_available |>
                        <| wus_state := if is_some wallet_available then WalletUpdateAvailable
                                        else if is_some wallet_error then WalletFailed else WalletIsUpToDate |>
                        <| wus_sanitized_error := wallet_error |>).
Definition set_wallet_download_state (state : WalletUpdaterState) (progress : option N) (self : UpdateControl)
    : UpdateControl :=
  self <| upc_wallet ::= fun w => w <| wus_state := state |> <| wus_progress_percent := progress |> |>.
Definition finish_verified_download (new_version : bytes) : UpdateControl -> UpdateControl :=
  end_check (fun w => w <| wus_available_version := Some new_version |> <| wus_state := ReadyToApply |>
                        <| wus_progress_percent := Some 100 |> <| wus_sanitized_error := None |>).
Definition fail_wallet_check (error : string) : UpdateControl -> UpdateControl :=
  end_check (fun w => w <| wus_state := WalletFailed |> <| wus_sanitized_error := Some error |>).
Definition defer_wallet_install (new_version : bytes) : UpdateControl -> UpdateControl :=
  end_check (fun w => w <| wus_available_version := Some new_version |> <| wus_state := WalletWaitingForSafePoint |>
                        <| wus_sanitized_error := Some "UPDATE_BUSY_CRITICAL_OPERATION"%string |>).

(** ** The port of the node *)

Definition MAINNET_P2P_PORT : N := 33369.
Definition MAINNET_P2P_FALLBACK_PORTS : list N := map (fun i => 33370 + N.of_nat i) (seq 0 10).

(** [text]: the file, if it is there and is text. *)
Definition read_persisted_p2p_port (text : option bytes) : option N :=
  match text with
  | Some text =>
      match parse_uint u16_max (trim text) with
      | Some port => if port =? 0 then None else Some port
      | None => None
      end
  | None => None
  end.
(** Those not seen before. *)
Fixpoint unseen (seen : gset N) (ports : list N) : list N :=
  match ports with
  | [] => []
  | port :: ports => if bool_decide (port ∈ seen) then unseen seen ports else port :: unseen ({[port]} ∪ seen) ports
  end.
Definition p2p_port_candidates (text : option bytes) : list N :=
  unseen ∅ (from_option (fun port => [port]) [] (read_persisted_p2p_port text) ++ MAINNET_P2P_PORT :: MAINNET_P2P_FALLBACK_PORTS).
(** The port, and what is persisted; [system_port] is the one the system gives. *)
Definition choose_mesh_listen_address (text : option bytes) (p2p_port_is_free : N -> bool) (system_port : option N)
    : N * bytes :=
  let port := match List.find p2p_port_is_free (p2p_port_candidates text) with
              | Some port => port
              | None => default MAINNET_P2P_PORT system_port
              end in
  (port, show port ++ [Byte.x0a]).
Definition remaining_mesh_listen_addresses (text : option bytes) (failed_port : N) : list N :=
  List.filter (fun port => negb (port =? failed_port)) (p2p_port_candidates text).
(** The address is 0.0.0.0 or on the loopback interface. *)
Definition mainnet_listener_shape_is_valid (listen_address : SocketAddr) : bool :=
  match listen_address with
  | SocketV4 ip port =>
      (((ip.(v4_a) =? 0) && (ip.(v4_b) =? 0) && (ip.(v4_c) =? 0) && (ip.(v4_d) =? 0)) || (ip.(v4_a) =? 127))
      && negb (port =? 0)
  | SocketV6 ip port _ => is_loopback ip && negb (port =? 0)
  end.

(** ** What holds of them *)

(** Mining needs a node that runs, was seen lately, follows the chain that the wallet
    is pinned to and is level with its best peer. *)
Lemma mining_needs_a_level_node snapshot :
  readiness_allows_mining (derive_node_readiness snapshot) = true ->
  snapshot.(nrd_process_running) = true /\ snapshot.(nrd_critical_task_failed) = false
  /\ snapshot.(nrd_canonical_identity_verified) = true /\ is_some snapshot.(nrd_local_tip_hash) = true
  /\ 0 < snapshot.(nrd_connected_peers)
  /\ snapshot.(nrd_highest_known_peer_height) = Some snapshot.(nrd_local_height)
  /\ (forall observed, snapshot.(nrd_last_successful_status_at) = Some observed ->
       snapshot.(nrd_now) <= observed + NODE_STATUS_STALE_AFTER_SECONDS).
Proof.
  unfold derive_node_readiness, is_some_and. destruct snapshot as [run ver local tip peers best ibd failed seen now]. simpl.
  destruct run; simpl; [|done]. destruct failed; [done|]. destruct (match seen with Some _ => _ | None => _ end) eqn:Es; [done|].
  destruct (_ || _) eqn:Ev; [done|]. destruct (peers =? 0) eqn:Ep; [done|]. destruct best as [best|]; [|done].
  bool_inv. intros Hready. assert (best = local).
  { destruct ((local =? 0) && (best =? 0)) eqn:E0; [bool_inv; congruence|].
    destruct (local <? best); [done|]. destruct (best =? local) eqn:E; [by bool_inv|done]. }
  subst. repeat (split; [first [done|lia]|]). intros observed ->. bool_inv. unfold saturating_sub in *. lia.
Qed.

(** Progress is a percentage, short of all of it before the node is level. *)
Lemma progress_is_a_percentage snapshot progress :
  readiness_progress (derive_node_readiness snapshot) = Some progress ->
  progress <= 100 /\ (progress = 100 <-> readiness_allows_mining (derive_node_readiness snapshot) = true).
Proof.
  assert (H : forall r, (forall a b, r = Ready.Synchronizing a b -> a < b) -> readiness_progress r = Some progress ->
    progress <= 100 /\ (progress = 100 <-> readiness_allows_mining r = true)).
  { intros r Hr H. destruct r as [| | | | |a b| | |]; try done; simpl in *; try (by injection H as <-).
    specialize (Hr a b eq_refl). destruct (b =? 0) eqn:Eb; bool_inv; [lia|]. injection H as <-.
    assert ((a * 100) / b < 100) by (apply N.Div0.div_lt_upper_bound; lia).
    rewrite N.mod_small by (unfold u64_max; lia). split; [lia|]. split; [lia|done]. }
  apply H. intros a b. unfold derive_node_readiness.
  repeat (case_match; try done). intros [= <- <-]. by bool_inv.
Qed.

(** The fee is the exact share of the amount, rounded up, and never more than it. *)
Lemma swap_fees_round_up amount fee_bps :
  amount <= u64_max ->
  match swap_fee_noms amount fee_bps with
  | Some fee => 0 < amount /\ fee_bps <= BPS_DENOMINATOR /\ amount * fee_bps <= fee * BPS_DENOMINATOR
                /\ fee * BPS_DENOMINATOR < amount * fee_bps + BPS_DENOMINATOR /\ fee <= amount
  | None => amount = 0 \/ BPS_DENOMINATOR < fee_bps
  end.
Proof.
  intros Ha. unfold swap_fee_noms. destruct (_ || _) eqn:E.
  { apply orb_true_iff in E as [E|E]; bool_inv; auto. }
  bool_inv. unfold BPS_DENOMINATOR in *. set (x := amount * fee_bps).
  assert (Hx : x <= amount * 10000) by (by apply N.mul_le_mono_l).
  pose proof (N.Div0.div_mod (x + 10000 - 1) 10000) as Hd.
  pose proof (N.mod_lt (x + 10000 - 1) 10000 ltac:(lia)) as Hm. set (q := (x + 10000 - 1) / 10000) in *.
  generalize dependent ((x + 10000 - 1) mod 10000). intros m Hd Hm. clearbody q x.
  assert (q <= amount) by lia. destruct (q <=? u64_max) eqn:Eq; bool_inv; lia.
Qed.

(** Every asset is its own code, and none but the DOM settles on the DOM chain. *)
Lemma assets_are_distinct :
  NoDup (map as_code ASSET_REGISTRY)
  /\ Forall (fun a => asset a.(as_code) = Some a /\ (a.(as_leg) = Leg.Dom <-> a.(as_code) = str "DOM")) ASSET_REGISTRY.
Proof.
  split; [apply (bool_decide_unpack _); vm_compute; exact I|].
  repeat constructor; try (vm_compute; reflexivity); try discriminate; intros H; exfalso; revert H; vm_compute; discriminate.
Qed.

(** *** Managed wallets *)

(** A valid name is one component that every system can hold: not empty, not hidden,
    and without a separator or a control character. *)
Lemma valid_names_are_components name u :
  validate_wallet_name name = Ok u ->
  name <> [] /\ len name <= 64 /\ head name <> Some Byte.x2e /\ has_control name = false
  /\ forall c, c ∈ forbidden_in_names -> c ∉ name.
Proof.
  unfold validate_wallet_name. rewrite !then_Ok, !fail_if_Ok. intros (H1 & H2 & _).
  repeat match goal with H : (_ || _) = false |- _ => apply orb_false_iff in H as [? ?] end. bool_inv.
  split; [by intros ->|]. split; [done|]. split; [done|]. split; [done|].
  intros c Hc. apply contains_false. destruct (contains c name) eqn:E; [|done]. exfalso.
  assert (Hx : existsb (fun c => contains c name) forbidden_in_names = true); [|congruence].
  apply existsb_exists. exists c. split; [by apply list_elem_of_In|done].
Qed.

Lemma resolved_is_a_child wallets_root root_exists root_kind name candidate :
  resolve_wallet_directory wallets_root root_exists root_kind name = Ok candidate ->
  candidate = wallets_root ++ [Normal name] /\ parent candidate = Some wallets_root
  /\ validate_wallet_name name = Ok tt.
Proof.
  unfold resolve_wallet_directory. rewrite !then_Ok. intros (Hv & _ & [= <-]). split; [done|]. split; [|done].
  unfold parent. by rewrite last_snoc, removelast_last.
Qed.

Section managed.
Context {code : CryptoCode} {json : StateCode}.

(** C24 What is opened as a managed wallet is a directory, not a link, that passed the
    inspection of its structure, and whose canonical path is a child of the canonical
    root, named by one component that is neither hidden nor a way out; whatever fails
    on the way refuses it. *)
Theorem managed_wallets_stay_in_their_root wallets_root root_exists root_kind canonicalize name p p' canonical :
  resolve_existing_managed_wallet wallets_root root_exists root_kind canonicalize name p = (p', Ok canonical) ->
  (exists root, canonicalize wallets_root = Some root /\ parent canonical = Some root)
  /\ canonicalize (wallets_root ++ [Normal name]) = Some canonical
  /\ name <> [] /\ len name <= 64 /\ head name <> Some Byte.x2e
  /\ (forall c, c ∈ forbidden_in_names -> c ∉ name)
  /\ (exists d, p.(pl_entries) !! name = Some (Directory d))
  /\ exists p1 p2 m, inspect_structure name p1 = (p2, Ok m) /\ p1.(pl_entries) = p.(pl_entries).
Proof.
  unfold resolve_existing_managed_wallet. destruct (rbind _ _) as [[candidate root]|e] eqn:E; [|done].
  apply rbind_Ok in E as (candidate' & (-> & _ & Hv)%resolved_is_a_child & E).
  apply rbind_Ok in E as (root' & Hroot%ok_or_Ok & [= <- <-]).
  unfold entry, peek. set (e := p.(pl_entries) !! name).
  assert (H : forall q, q.(pl_entries) = p.(pl_entries) ->
    match e with
    | Some (Directory _) =>
        match inspect_structure name q with
        | (q, Ok _) =>
            (q, let? canonical := ok_or (canonicalize (wallets_root ++ [Normal name])) AErr.ManagedWalletRejected in
                fail_if (negb (bool_decide (parent canonical = Some root'))) AErr.ManagedWalletRejected ;?
                Ok canonical)
        | (q, Err _) => (q, Err AErr.ManagedWalletRejected)
        end
    | _ => (q, Err AErr.ManagedWalletRejected)
    end = (p', Ok canonical) ->
    parent canonical = Some root' /\ canonicalize (wallets_root ++ [Normal name]) = Some canonical
    /\ (exists d, e = Some (Directory d))
    /\ exists p1 p2 m, inspect_structure name p1 = (p2, Ok m) /\ p1.(pl_entries) = p.(pl_entries)).
  { intros q Hq H. destruct e as [[d| |]|]; try done. destruct (inspect_structure name q) as [q' [m|e']] eqn:Ei; [|done].
    injection H as <- H. apply rbind_Ok in H as (c & Hc%ok_or_Ok & H). rewrite then_Ok, fail_if_Ok in H.
    destruct H as [Hp [= ->]]. bool_inv. split; [done|]. split; [done|]. split; [by exists d|]. by exists q, q', m. }
  apply valid_names_are_components in Hv as (Hv1 & Hv2 & Hv3 & _ & Hv4). intros Hrun.
  assert (Hall : parent canonical = Some root' /\ canonicalize (wallets_root ++ [Normal name]) = Some canonical
    /\ (exists d, e = Some (Directory d))
    /\ exists p1 p2 m, inspect_structure name p1 = (p2, Ok m) /\ p1.(pl_entries) = p.(pl_entries)).
  { destruct p.(pl_faults) as [|[|k|k] faults].
    - apply (H p eq_refl). subst e. destruct (pl_entries p !! name) as [[]|]; exact Hrun.
    - apply (H (mkPlace p.(pl_entries) faults) eq_refl). subst e. destruct (pl_entries p !! name) as [[]|]; exact Hrun.
    - done.
    - done. }
  destruct Hall as (Hp & Hc & Hd & Hi). split; [by exists root'|]. auto 10.
Qed.

(** A name is listed only for a directory whose structure was inspected. *)
Lemma listed_entries_are_wallets names p p' valid invalid name :
  inspect_entries names p = (p', (valid, invalid)) -> name ∈ valid ->
  name ∈ names /\ validate_wallet_name name = Ok tt
  /\ exists p1 p2 m, inspect_structure name p1 = (p2, Ok m).
Proof.
  revert p p' valid invalid. induction names as [|n names IH]; intros p p' valid invalid; simpl.
  { intros [= <- <- <-] H. by apply not_elem_of_nil in H. }
  destruct (negb (is_utf8 n)).
  { destruct (inspect_entries names p) as [q [v i]] eqn:E. intros [= <- <- <-] H.
    destruct (IH _ _ _ _ E H) as (H1 & H2 & H3). split; [by right|done]. }
  destruct (catalog_code n p) as [q c] eqn:Ec. destruct (inspect_entries names q) as [q' [v i]] eqn:E.
  assert (Hrest : name ∈ v -> name ∈ n :: names /\ validate_wallet_name name = Ok tt
    /\ exists p1 p2 m, inspect_structure name p1 = (p2, Ok m)).
  { intros H. destruct (IH _ _ _ _ E H) as (H1 & H2 & H3). split; [by right|done]. }
  destruct c as [c|]; intros [= <- <- <-]; [done|].
  intros [->|H]%elem_of_cons; [|by apply Hrest]. split; [by left|].
  unfold catalog_code in Ec. destruct (bool_decide _); [done|].
  destruct (validate_wallet_name n) as [[]|] eqn:Ev; [|done]. simpl in Ec.
  destruct (entry n p) as [q1 [[[d| |]|]|]]; try done. destruct (inspect_structure n q1) as [q2 [m|]] eqn:Ei; [|done].
  split; [done|]. by exists q1, q2, m.
Qed.
End managed.

Lemma peek_run {A} (f : entries -> result StErr.StorageError A) p p' r :
  peek f p = (p', r) ->
  p'.(pl_entries) = p.(pl_entries) /\ (forall a, r = Ok a -> f p.(pl_entries) = Ok a)
  /\ (p.(pl_faults) = [] -> p' = p /\ r = f p.(pl_entries)).
Proof. destruct p as [E [|[|k|k] faults]]; unfold peek; simpl; intros [= <- <-]; simpl; by repeat split. Qed.
Lemma change_run (f : entries -> entries) p p' r :
  change f p = (p', r) ->
  (p'.(pl_entries) = p.(pl_entries) \/ p'.(pl_entries) = f p.(pl_entries))
  /\ (r = Ok tt -> p'.(pl_entries) = f p.(pl_entries)).
Proof. destruct p as [E [|[|k|k] faults]]; unfold change; simpl; intros [= <- <-]; simpl; (split; [auto|done]). Qed.

(** The test of a restore destination removes nothing but an empty directory, and
    takes nothing for free that holds something. *)
Lemma occupied_destinations_are_kept name p p' occupied :
  restore_destination_is_occupied name p = (p', occupied) ->
  (p'.(pl_entries) = p.(pl_entries)
   \/ p'.(pl_entries) = delete name p.(pl_entries) /\ exists d, p.(pl_entries) !! name = Some (Directory d)
        /\ is_empty_directory (Directory d) = true)
  /\ (p.(pl_faults) = [] -> occupied = false -> p'.(pl_entries) !! name = None).
Proof.
  unfold restore_destination_is_occupied, entry.
  destruct (peek _ p) as [p1 r1] eqn:E1. apply peek_run in E1 as (E1 & H1 & F1).
  destruct r1 as [found|e]; [|intros [= <- <-]; split; [by left|]; intros Hf; destruct (F1 Hf); done].
  specialize (H1 _ eq_refl). injection H1 as <-.
  destruct (p.(pl_entries) !! name) as [[d|b|l]|] eqn:He;
    try (intros [= <- <-]; split; [by left|]; intros _ _; by rewrite E1).
  1: destruct (peek _ p1) as [p2 r2] eqn:E2; apply peek_run in E2 as (E2 & _ & F2);
     destruct r2 as [u|e]; [|intros [= <- <-]; split; [left; congruence|done]].
  - destruct (is_empty_directory (Directory d)) eqn:Hd; [|intros [= <- <-]; split; [left; congruence|done]].
    destruct (change (delete name) p2) as [p3 r3] eqn:E3. apply change_run in E3 as [E3 H3].
    intros [= <- <-]. split.
    + destruct E3 as [E3|E3]; [left; congruence|right]. rewrite E3, E2, E1. eauto.
    + intros _ Ho. destruct r3 as [[]|]; [|done]. rewrite (H3 eq_refl). apply lookup_delete_eq.
  - intros [= <- <-]. split; [by left|]. intros _ Ho. done.
  - intros [= <- <-]. split; [by left|]. intros _ Ho. done.
Qed.

(** *** Updates and ports *)

(** A check that runs refuses another, and every end of it lets the next begin. *)
Lemma checks_run_one_at_a_time now self self' f :
  begin_wallet_check now self = (self', true) ->
  self.(upc_check_in_progress) = false /\ begin_wallet_check now self' = (self', false)
  /\ forall later, (begin_wallet_check later (end_check f self')).2 = true.
Proof.
  unfold begin_wallet_check. destruct self.(upc_check_in_progress) eqn:E; [done|]. by intros [= <-].
Qed.

Lemma unseen_spec seen ports :
  NoDup (unseen seen ports) /\ forall port, port ∈ unseen seen ports <-> port ∈ ports /\ port ∉ seen.
Proof.
  revert seen. induction ports as [|x ports IH]; intros seen; simpl; [split; [constructor|set_solver]|].
  destruct (decide (x ∈ seen)) as [Hx|Hx].
  - rewrite bool_decide_true by done. destruct (IH seen) as [H1 H2]. split; [done|]. intros port.
    rewrite H2, elem_of_cons. split; [tauto|]. intros [[->|?] ?]; [done|auto].
  - rewrite bool_decide_false by done. destruct (IH ({[x]} ∪ seen)) as [H1 H2]. split.
    + constructor; [|done]. rewrite H2. set_solver.
    + intros port. rewrite !elem_of_cons, H2. destruct (decide (port = x)) as [->|]; [tauto|set_solver].
Qed.

Lemma strip_other p b s : match p with c :: _ => c <> b | [] => False end -> strip_prefix p (b :: s) = None.
Proof. destruct p as [|c p]; [done|]. intros H. simpl. by rewrite bool_decide_false. Qed.

Lemma drop_nothing patterns fuel b s :
  forallb (fun p => match p with c :: _ => negb (is_ascii_digit c) | [] => false end) patterns = true ->
  is_ascii_digit b = true -> drop_leading patterns fuel (b :: s) = b :: s.
Proof.
  intros Hp Hb. assert (H : omap (fun p => strip_prefix p (b :: s)) patterns = []).
  { induction patterns as [|p patterns IH]; [done|]. simpl in Hp. bool_inv. cbn [omap list_omap].
    rewrite strip_other, IH; [done|done|]. destruct p as [|c p]; [done|]. bool_inv. congruence. }
  destruct fuel as [|fuel]; [done|]. simpl. by rewrite H.
Qed.

Lemma drop_one patterns fuel s s' :
  head (omap (fun p => strip_prefix p s) patterns) = Some s' ->
  drop_leading patterns (S fuel) s = drop_leading patterns fuel s'.
Proof. intros H. simpl. by rewrite H. Qed.

(** The persisted text of a port is read back. *)
Lemma trim_show n : trim (show n ++ [Byte.x0a]) = show n.
Proof.
  pose proof (show_digits n) as Hd. pose proof (show_nonempty n) as Hn.
  assert (Hl : trim (show n ++ [Byte.x0a]) = drop_trailing whitespace (show n ++ [Byte.x0a])).
  { unfold trim. destruct (show n) as [|b s]; [done|]. simpl in Hd. bool_inv.
    change ((b :: s) ++ [Byte.x0a]) with (b :: (s ++ [Byte.x0a])). by rewrite drop_nothing. }
  rewrite Hl. unfold drop_trailing. rewrite length_app, rev_app_distr, Nat.add_comm.
  assert (Hr : forall fuel, drop_leading (map (@rev _) whitespace) fuel (rev (show n)) = rev (show n)).
  { intros fuel. destruct (rev (show n)) as [|b s] eqn:E; [by apply (f_equal (@rev _)) in E; rewrite rev_involutive in E|].
    apply drop_nothing; [vm_compute; reflexivity|]. rewrite forallb_forall in Hd. apply Hd.
    apply in_rev. rewrite E. by left. }
  change (length [Byte.x0a] + length (show n))%nat with (S (length (show n))).
  change (rev [Byte.x0a] ++ rev (show n)) with (Byte.x0a :: rev (show n)).
  rewrite drop_one with (s' := rev (show n)) by (generalize (rev (show n)); intros; reflexivity).
  rewrite Hr. apply rev_involutive.
Qed.

(** The port of the node is chosen again from what was persisted, as long as it stays
    free. *)
Lemma ports_are_kept text free system port b :
  choose_mesh_listen_address text free system = (port, b) -> free port = true -> 0 < port <= u16_max ->
  (choose_mesh_listen_address (Some b) free system).1 = port.
Proof.
  unfold choose_mesh_listen_address. intros [= Hp <-] Hf Hn.
  assert (Hr : read_persisted_p2p_port (Some (show port ++ [Byte.x0a])) = Some port).
  { unfold read_persisted_p2p_port. rewrite trim_show, parse_show by (unfold u16_max, u64_max in *; lia).
    destruct (port =? 0) eqn:E; bool_inv; [lia|done]. }
  subst port. set (port := match _ with Some _ => _ | None => _ end) in *. unfold p2p_port_candidates.
  rewrite Hr. simpl. rewrite bool_decide_false by set_solver. simpl. by rewrite Hf.
Qed.

(** ** Witnesses *)

Definition sample_wallets_root : path := [RootDir; Normal (str "wallets")].
Definition resolve_sample (name : bytes) : Place * cres path :=
  resolve_existing_managed_wallet (json := created_json) sample_wallets_root true (Some IsDirectory) Some name
    (create_sample []).1.

Lemma managed_wallets_stay_in_their_root_witness :
  (resolve_sample wallet_name).2 = Ok (sample_wallets_root ++ [Normal wallet_name])
  /\ parent (sample_wallets_root ++ [Normal wallet_name]) = Some sample_wallets_root
  /\ (resolve_sample (str "..")).2 = Err AErr.InvalidWalletName.
Proof.
  assert (H : (resolve_sample wallet_name).2 = Ok (sample_wallets_root ++ [Normal wallet_name])) by (vm_compute; reflexivity).
  split; [exact H|]. split; [|vm_compute; reflexivity].
  assert (E : resolve_existing_managed_wallet (json := created_json) sample_wallets_root true (Some IsDirectory) Some
                wallet_name (create_sample []).1
              = ((resolve_sample wallet_name).1, Ok (sample_wallets_root ++ [Normal wallet_name])))
    by (rewrite <-H; apply surjective_pairing).
  destruct (proj1 (managed_wallets_stay_in_their_root (json := created_json) _ _ _ _ _ _ _ _ E)) as (root & Hr & Hp).
  injection Hr as <-. exact Hp.
Defined.

(** The catalog lists the wallet, and says what is wrong with the rest. *)
Example a_catalog :
  let p := mkPlace (<[str ".hidden" := Regular []]> (<[str "com1" := Regular []]>
                   (<[str "note.txt" := Regular []]> (<[str "empty" := Directory empty_disk]>
                   (create_sample []).1.(pl_entries))))) [] in
  inspect_wallet_catalog (json := created_json) (Some IsDirectory) id p
  = (p, ([wallet_name],
         [mkWalletCatalogDiagnostic (str ".hidden") "STAGING_OR_HIDDEN";
          mkWalletCatalogDiagnostic (str "com1") "ENTRY_NAME_INVALID";
          mkWalletCatalogDiagnostic (str "empty") "WALLET_STRUCTURE_INVALID";
          mkWalletCatalogDiagnostic (str "note.txt") "ENTRY_TYPE_INVALID"])).
Proof. vm_compute. reflexivity. Qed.
