(* ===== verification/Payments.v ===== *)
(** * Payments

    What the exchange of slates (Exchange) guarantees to both parties: inputs are
    reserved on disk before a slate is built of them, a finalised transaction is
    the one that was requested, and a recipient's copy of it is never replaced. *)

From S2P Require Import Prelude Bytes DomainTypes Lifecycle SwapSession WalletOps Validation CoreTypes.
From S2P Require Import Projection CoreSync Recovery Envelope Storage Reload Submission Fees Backend Spending SyncSink.
From S2P Require Import Slates Outputs Service Exchange Funding Sessions.

Section payments.
Context {W : Type} {codec : CoreCodec} {code : CryptoCode} {json : StateCode}.
Context {claws : CryptoLaws code} {slaws : StateLaws json}.
Context {scan : WalletCoreApi W} {api : WalletSubmissionApi W} {fee_api : WalletFeeApi W}.
Context {slate_code : SlateCode} {seed_code : SeedCode} {output_code : OutputCode}.
Abbreviation service := (WalletService W).
Implicit Types (self : service) (p : bytes) (g : N) (s t : WalletState).

(** ** Lemmas: operations that leave the wallet alone *)

Lemma framed_read {A} (f : service -> result CErr.CoreError A) : moves framed (mread f).
Proof. apply (moves_mread framed). Qed.
Lemma framed_try {A} (r : result CErr.CoreError A) : moves (S := service) framed (try r).
Proof. apply framed_read. Qed.
Lemma framed_ret {A} (a : A) : moves (S := service) (E := CErr.CoreError) framed (mret a).
Proof. intros self self' r [= <- _]. reflexivity. Qed.
Lemma framed_then {A B} (m : method service CErr.CoreError A) (k : A -> method service CErr.CoreError B) :
  moves framed m -> (forall a, moves framed (k a)) -> moves framed (mthen m k).
Proof. apply (moves_mthen framed). Qed.
Create HintDb framed discriminated.
Hint Resolve framed_read framed_try framed_ret framed_backend : framed.
Hint Extern 1 (moves framed (mthen _ _)) => apply framed_then; [|intros ?] : framed.
Hint Extern 2 (moves framed (if ?b then _ else _)) => destruct b : framed.

Lemma framed_identity : moves (S := service) framed core_identity.
Proof. unfold core_identity. auto with framed. Qed.
Lemma framed_ensure : moves (S := service) framed ensure_phrase_confirmed.
Proof. unfold ensure_phrase_confirmed, unlocked_state. auto with framed. Qed.
Lemma framed_unlocked : moves (S := service) framed unlocked_state.
Proof. apply framed_read. Qed.
Lemma framed_the_backend : moves (S := service) framed the_backend.
Proof. apply framed_read. Qed.
Lemma framed_summary id : moves (S := service) framed (transaction_summary id).
Proof. unfold transaction_summary. auto using framed_unlocked with framed. Qed.
Hint Resolve framed_identity framed_ensure framed_unlocked framed_the_backend framed_summary : framed.

Lemma framed_in_step p s self self' : framed self self' -> in_step p s self -> in_step p s self'.
Proof. intros (Hl & Hu & Hp & _). unfold in_step. by rewrite Hl, Hu, Hp. Qed.
Lemma framed_stored p t self self' : framed self self' -> holds_stored p t self -> holds_stored p t self'.
Proof. intros (Hl & _). unfold holds_stored. by rewrite Hl. Qed.
Lemma framed_tracks p g self self' : framed self self' -> tracks p g self -> tracks p g self'.
Proof. intros H. by apply framed_tracking. Qed.

(** A step of an operation that leaves the wallet alone. *)
Lemma mthen_framed {A B} (m : method service CErr.CoreError A) (k : A -> method service CErr.CoreError B)
    self self' b :
  moves framed m -> mthen m k self = (self', Ok b) ->
  exists self1 a, m self = (self1, Ok a) /\ framed self self1 /\ k a self1 = (self', Ok b).
Proof. intros Hm (self1 & a & H & Hk)%mthen_Ok. exists self1, a. split; [done|]. split; [by eapply Hm|done]. Qed.
Lemma mthen_try {A B} (r : result CErr.CoreError A) (k : A -> method service CErr.CoreError B) self self' b :
  mthen (try r) k self = (self', Ok b) -> exists a, r = Ok a /\ k a self = (self', Ok b).
Proof. intros (self1 & a & [= <- Hr] & Hk)%mthen_Ok. eauto. Qed.
Lemma mthen_unlocked {B} (k : WalletState -> method service CErr.CoreError B) self self' b :
  mthen unlocked_state k self = (self', Ok b) ->
  exists s, self.(sv_unlocked) = Some s /\ k s self = (self', Ok b).
Proof. intros (self1 & a & [= <- Hr%ok_or_Ok] & Hk)%mthen_Ok. eauto. Qed.

Lemma framed_select requested amount cands sel total fee :
  moves (S := service) framed (select_outputs requested amount cands sel total fee).
Proof.
  revert sel total fee. induction cands as [|o cands IH]; intros sel total fee; simpl; eauto 20 with framed.
Qed.
Lemma framed_offer d ids identity reserved amount lock expires sender receiver :
  moves (S := service) framed (build_offer d ids identity reserved amount lock expires sender receiver).
Proof. unfold build_offer. eauto 40 with framed. Qed.

(** ** Lemmas: the selection loop *)

Lemma select_inputs_ext minimum minimum' requested amount cands sel total fee :
  (forall n, len sel < n -> minimum n = minimum' n) ->
  select_inputs minimum requested amount cands sel total fee
  = select_inputs minimum' requested amount cands sel total fee.
Proof.
  revert sel total fee. induction cands as [|o cands IH]; intros sel total fee H; simpl; [done|].
  assert (Hl : len (sel ++ [o]) = len sel + 1) by (unfold len; rewrite length_app; simpl; lia).
  destruct (u32_max <? _); [done|]. simpl. rewrite H by lia. destruct (minimum' _) as [m|]; [|done]. simpl.
  destruct (_ <? m); [done|]. simpl. destruct (checked_add _ total _); [|done]. simpl.
  destruct (checked_add _ amount _); [|done]. simpl. destruct (_ <=? _); [done|].
  apply IH. intros k Hk. apply H. lia.
Qed.

(** The node's answers make a fee function, under which the loop is that of
    Spending. *)
Lemma select_outputs_run requested amount cands sel total fee self self' x :
  select_outputs requested amount cands sel total fee self = (self', Ok x) ->
  exists minimum, select_inputs minimum requested amount cands sel total fee = Ok x.
Proof.
  revert sel total fee self. induction cands as [|o cands IH]; intros sel total fee self H; simpl in H.
  - injection H as _ <-. by exists (fun _ => Ok 0).
  - apply mthen_framed in H as (s1 & b & _ & _ & H); [|auto with framed].
    apply mthen_try in H as (u & Hu & H).
    apply mthen_framed in H as (s2 & est & _ & _ & H); [|auto with framed].
    apply mthen_try in H as (u' & Hf & H). apply mthen_try in H as (tot & Ht & H).
    apply mthen_try in H as (req & Hr & H).
    assert (Hex : exists minimum', (if req <=? tot
        then Ok (sel ++ [o], tot, default (wfe_minimum_fee_noms est) requested)
        else select_inputs minimum' requested amount cands (sel ++ [o]) tot
               (default (wfe_minimum_fee_noms est) requested)) = Ok x).
    { destruct (req <=? tot); [|by apply IH in H]. injection H as _ <-. by exists (fun _ => Ok 0). }
    destruct Hex as [minimum' Hx].
    exists (fun n => if n =? len (sel ++ [o]) then Ok est.(wfe_minimum_fee_noms) else minimum' n).
    simpl. rewrite Hu, N.eqb_refl. simpl. rewrite Hf. simpl. rewrite Ht. simpl. rewrite Hr. simpl.
    destruct (req <=? tot); [done|]. rewrite <- Hx. apply select_inputs_ext. intros k Hk.
    destruct (N.eqb_spec k (len (sel ++ [o]))); [lia|done].
Qed.

(** ** Sends *)

Definition send_slate_id (d : SendDraws) : option uuid := uuid_from_protocol_id ∘ fst <$> slate_draw d.

Lemma reserve_inputs_run p g d amount requested lock expires self self' identity reserved s :
  reserve_inputs d amount requested lock expires self = (self', Ok (identity, reserved)) ->
  tracks p g self -> self.(sv_unlocked) = Some s ->
  exists minimum,
    reserve_send minimum d.(sd_transaction_id) (send_slate_id d) (tip_height identity) d.(sd_unix_seconds)
      amount requested lock expires s = Ok reserved
    /\ in_step p (committed_state reserved.(rsv_state) s.(ws_generation)) self'.
Proof.
  intros H Htr Hs. unfold reserve_inputs in H.
  apply mthen_try in H as (u1 & Ha & H).
  apply mthen_framed in H as (s1 & u2 & _ & F1 & H); [|auto with framed].
  apply mthen_framed in H as (s2 & id & Hid & F2 & H); [|auto with framed].
  apply mthen_try in H as (u3 & Hl & H). apply mthen_try in H as (u4 & He & H).
  apply mthen_unlocked in H as (s' & Hs' & H).
  apply mthen_framed in H as (s3 & selection & Hsel & F3 & H); [|apply framed_select].
  apply mthen_try in H as (reserved' & Hres & H).
  apply mthen_Ok in H as (s4 & u5 & Hc & H). injection H as <- <- <-.
  assert (s' = s) as ->.
  { destruct F1 as (_ & F1 & _), F2 as (_ & F2 & _). rewrite F2, F1, Hs in Hs'. by injection Hs' as <-. }
  assert (F : framed self s3) by (by transitivity s1; [|transitivity s2]).
  destruct (select_outputs_run _ _ _ _ _ _ _ _ _ Hsel) as [minimum Hmin].
  exists minimum. split.
  - unfold reserve_send, check_send, send_slate_id. rewrite Ha. simpl. rewrite Hl. simpl. rewrite He. simpl.
    rewrite Hmin. simpl. exact Hres.
  - assert (Hs3 : s3.(sv_unlocked) = Some s) by (destruct F as (_ & F & _); by rewrite F).
    pose proof (framed_tracks _ _ _ _ F Htr) as Htr3.
    by destruct (commit_steps _ _ _ _ _ _ _ _ Htr3 Hs3 Hc) as [Hin _].
Qed.

(** The inputs are held for the send, and the send is recorded. *)
Definition holds_reservation (id : uuid) (amount : N) (reserved : ReservedSend) t : Prop :=
  (forall o, o ∈ reserved.(rsv_selected) -> reserved_for id o ∈ t.(ws_outputs))
  /\ exists tx, tx ∈ t.(ws_transactions) /\ tx.(tx_id) = id /\ tx.(tx_lifecycle) = L.InputsReserved
     /\ tx.(tx_exposure) = Exp.NeverBroadcast /\ tx.(tx_amount) = amount
     /\ tx.(tx_fee) = reserved.(rsv_fee)
     /\ tx.(tx_reserved_output_ids) = map out_id reserved.(rsv_selected).

(** The request and the secrets that finish it are stored. *)
Definition holds_offer (slate_id : uuid) (parts : RecoverableSenderParts) (envelope : CanonicalSlate) t : Prop :=
  exists i tx, find_transaction_index t slate_id Role.Sender = Ok i /\ t.(ws_transactions) !! i = Some tx
  /\ tx.(tx_request_bytes) = envelope.(cs_canonical_bytes)
  /\ tx.(tx_private_context)
     = Some (mkPrivateTransactionContext (Some parts.(rsp_excess_blinding)) (Some parts.(rsp_nonce)) None).

Lemma reserved_is_held minimum id slate tip now amount requested lock expires s r g :
  reserve_send minimum id slate tip now amount requested lock expires s = Ok r ->
  holds_reservation id amount r (committed_state r.(rsv_state) g).
Proof.
  intros (_ & _ & _ & _ & _ & Hsel & _ & _ & _ & _ & state1 & sl & _ & _ & Hr)%reserve_send_Ok.
  rewrite Hr. split.
  - intros o Ho. simpl. rewrite Forall_forall in Hsel. destruct (Hsel o Ho) as [Hin _].
    apply list_elem_of_fmap. exists o. split; [|done]. rewrite bool_decide_eq_true_2; [done|].
    apply list_elem_of_fmap. by exists o.
  - eexists. split; [simpl; apply elem_of_app; right; by apply list_elem_of_singleton|]. done.
Qed.

(** The send a record describes. *)
Definition same_send (tx tx' : LocalTransactionIntent) : Prop :=
  tx'.(tx_id) = tx.(tx_id) /\ tx'.(tx_lifecycle) = tx.(tx_lifecycle)
  /\ tx'.(tx_exposure) = tx.(tx_exposure) /\ tx'.(tx_amount) = tx.(tx_amount)
  /\ tx'.(tx_fee) = tx.(tx_fee) /\ tx'.(tx_reserved_output_ids) = tx.(tx_reserved_output_ids).
Lemma same_send_alter (f : LocalTransactionIntent -> LocalTransactionIntent) (index : nat) tx
    (txs : list LocalTransactionIntent) :
  (forall y, same_send y (f y)) -> tx ∈ txs -> exists tx', tx' ∈ alter f index txs /\ same_send tx tx'.
Proof.
  intros Hf [i Hi]%list_elem_of_lookup. destruct (decide (i = index)) as [->|Hne].
  - exists (f tx). split; [|apply Hf]. apply list_elem_of_lookup. exists index.
    by rewrite list_lookup_alter_eq, Hi.
  - exists tx. split; [|done]. apply list_elem_of_lookup. exists i. by rewrite list_lookup_alter_ne.
Qed.

Lemma add_pending_outputs id o s :
  (add_pending_output id o s).(ws_outputs) = s.(ws_outputs) ++
    [mkOutputRecord id s.(ws_default_account).(acc_id) (Some o.(roo_commitment)) o.(roo_value)
       Out.PendingIncoming 0 None]
  /\ (add_pending_output id o s).(ws_transactions) = s.(ws_transactions).
Proof.
  unfold add_pending_output, remember_output_blinding. by destruct (position _ _).
Qed.

Lemma record_offer_holds id amount r index change_id parts request s :
  holds_reservation id amount r s -> holds_reservation id amount r (record_offer index change_id parts request s).
Proof.
  intros [Ho (tx & Hin & Htx)]. unfold record_offer. split.
  - intros o Hsel. destruct (rsp_change parts) as [c|]; simpl; [|by apply Ho].
    rewrite (proj1 (add_pending_outputs _ _ _)). apply elem_of_app. left. by apply Ho.
  - assert (H : exists tx', tx' ∈ ws_transactions (record_offer index change_id parts request s)
                            /\ same_send tx tx').
    { unfold record_offer. destruct (rsp_change parts) as [c|]; simpl.
      - rewrite (proj2 (add_pending_outputs _ _ _)).
        destruct (same_send_alter (record_change change_id) index tx _ ltac:(done) Hin) as (tx1 & H1 & E1).
        destruct (same_send_alter (record_request parts request) index tx1 _ ltac:(done) H1) as (tx2 & H2 & E2).
        exists tx2. split; [exact H2|]. unfold same_send in *. intuition congruence.
      - destruct (same_send_alter (record_request parts request) index tx _ ltac:(done) Hin) as (tx2 & H2 & E2).
        by exists tx2. }
    destruct H as (tx' & Hin' & E1 & E2 & E3 & E4 & E5 & E6). exists tx'. split; [exact Hin'|].
    rewrite E1, E2, E3, E4, E5, E6. exact Htx.
Qed.

Lemma record_offer_offered slate_id index change_id parts envelope s g :
  find_transaction_index s slate_id Role.Sender = Ok index ->
  holds_offer slate_id parts envelope
    (committed_state (record_offer index change_id parts envelope.(cs_canonical_bytes) s) g).
Proof.
  intros Hi. pose proof Hi as Hi'. unfold find_transaction_index in Hi'. apply ok_or_Ok in Hi'.
  apply position_Some in Hi' as Hx. destruct Hx as [(tx & Hx & _) _].
  assert (E : exists f, (forall y, tx_slate_id (f y) = tx_slate_id y /\ tx_role (f y) = tx_role y)
    /\ (record_offer index change_id parts envelope.(cs_canonical_bytes) s).(ws_transactions)
       = alter (record_request parts envelope.(cs_canonical_bytes)) index (alter f index s.(ws_transactions))).
  { unfold record_offer. destruct (rsp_change parts) as [c|]; simpl.
    - exists (record_change change_id). rewrite (proj2 (add_pending_outputs _ _ _)). by split.
    - exists id. split; [done|]. by rewrite (list_alter_id id). }
  destruct E as (f & Hf & E).
  exists index, (record_request parts envelope.(cs_canonical_bytes) (f tx)).
  assert (E' : ws_transactions (committed_state (record_offer index change_id parts
    envelope.(cs_canonical_bytes) s) g) = alter (record_request parts envelope.(cs_canonical_bytes)) index
      (alter f index s.(ws_transactions))) by exact E.
  unfold find_transaction_index. rewrite E'. split.
  - rewrite !position_alter; [by rewrite Hi'| |done]. intros y. by destruct (Hf y) as [-> ->].
  - split; [by rewrite !list_lookup_alter_eq, Hx|done].
Qed.

(** C22 A send is reserved on disk before a slate is built of it.  Whatever
    file-system calls fail, and whatever the node and the cryptography answer,
    when creating a send ends it failed before anything of it was stored, or the
    directory opens with the password to a state in which the inputs chosen by the
    selection are held for this send and its record says so; and when it succeeds,
    the request and the secrets that are needed to finish it are stored with the
    record. *)
Theorem sends_are_reserved_first p g d amount requested sender receiver lock expires self self' r s
    (Htracks : tracks p g self) (Hunlocked : self.(sv_unlocked) = Some s)
    (Hrun : transaction_send_create_with_identities d amount requested sender receiver lock expires self
            = (self', r)) :
  (exists e, reserve_inputs d amount requested lock expires self = (self', Err e) /\ r = Err e)
  \/ exists minimum tip reserved t w,
     reserve_send minimum d.(sd_transaction_id) (send_slate_id d) tip d.(sd_unix_seconds) amount requested
       lock expires s = Ok reserved
     /\ self'.(sv_location) = Some w /\ opens_to p t w.(w_disk)
     /\ holds_reservation d.(sd_transaction_id) amount reserved t
     /\ (is_ok r = true -> exists slate_id parts envelope,
           send_slate_id d = Some slate_id /\ self'.(sv_sender_secrets) = Some (slate_id, parts)
           /\ holds_offer slate_id parts envelope t).
Proof.
  unfold transaction_send_create_with_identities in Hrun.
  apply mthen_inv in Hrun as [(e & H & ->)|(s1 & [identity reserved] & H & Hrun)]; [left; by exists e|right].
  destruct (reserve_inputs_run _ _ _ _ _ _ _ _ _ _ _ _ H Htracks Hunlocked) as (minimum & Hres & Hin).
  set (t1 := committed_state _ _) in Hin.
  pose proof (reserved_is_held _ _ _ _ _ _ _ _ _ _ _ (ws_generation s) Hres) as Hheld.
  assert (Hend : forall t2, holds_stored p t2 self' -> holds_reservation (sd_transaction_id d) amount reserved t2 ->
    (is_ok r = true -> exists slate_id parts envelope,
      send_slate_id d = Some slate_id /\ self'.(sv_sender_secrets) = Some (slate_id, parts)
      /\ holds_offer slate_id parts envelope t2) ->
    exists minimum tip reserved t w, reserve_send minimum d.(sd_transaction_id) (send_slate_id d) tip
       d.(sd_unix_seconds) amount requested lock expires s = Ok reserved
     /\ self'.(sv_location) = Some w /\ opens_to p t w.(w_disk)
     /\ holds_reservation d.(sd_transaction_id) amount reserved t
     /\ (is_ok r = true -> exists slate_id parts envelope,
           send_slate_id d = Some slate_id /\ self'.(sv_sender_secrets) = Some (slate_id, parts)
           /\ holds_offer slate_id parts envelope t)).
  { intros t2 (Ht & w & Hw & [m Hm]) Hh Hok. exists minimum, (tip_height identity), reserved, t2, w.
    split; [done|]. split; [done|]. split; [by eapply opens_with_loads|]. by split. }
  apply mthen_inv in Hrun as [(e & [= <- _] & ->)|(s2 & ids & [= <- Hids] & Hrun)];
    [by apply (Hend t1); [by apply in_step_stored| |]|].
  apply mthen_inv in Hrun as [(e & Ho & ->)|(s3 & [parts envelope] & Ho & Hrun)];
    apply framed_offer in Ho as Hf; pose proof (framed_in_step _ _ _ _ Hf Hin) as Hin3;
    [by apply (Hend t1); [by apply in_step_stored| |]|].
  apply mthen_inv in Hrun as [(e & [= <- _] & ->)|(s4 & t3 & [= <- Ht3%ok_or_Ok] & Hrun)];
    [by apply (Hend t1); [by apply in_step_stored| |]|].
  assert (t3 = t1) as -> by (destruct Hin3 as [E _]; rewrite E in Ht3; by injection Ht3).
  apply mthen_inv in Hrun as [(e & [= <- _] & ->)|(s5 & index & [= <- Hi] & Hrun)];
    [by apply (Hend t1); [by apply in_step_stored| |]|].
  pose proof (record_offer_offered _ _ (sd_change_id d) parts envelope _ (ws_generation t1) Hi) as Hoff.
  pose proof (record_offer_holds _ _ _ index (sd_change_id d) parts envelope.(cs_canonical_bytes) _ Hheld) as Hh2.
  apply mthen_inv in Hrun as [(e & Hc & ->)|(s6 & u & Hc & Hrun)].
  - by destruct (commit_in_step _ _ _ _ _ _ _ Hin3 Hc) as [Hst|Hst]; eapply (Hend _ Hst).
  - assert (Htr3 : tracks p g s3)
      by (apply (framed_tracks _ _ _ _ Hf); by apply (tracking_reserve _ _ _ _ _ _ _ _ H)).
    destruct (commit_steps _ _ _ _ _ _ _ _ Htr3 (proj1 Hin3) Hc) as [Hin6 _].
    unfold massign, mthen in Hrun. unfold transaction_summary, unlocked_state, mthen, mread, try in Hrun.
    simpl in Hrun. destruct Hin6 as (Hu6 & _ & Ht6 & w6 & Hl6 & Hp6). rewrite Hu6 in Hrun. simpl in Hrun.
    injection Hrun as <- Hr. eapply Hend; [split; [exact Ht6|by exists w6]|exact Hh2|].
    intros _. exists (uuid_from_protocol_id ids.1), parts, envelope. split; [|split; [done|exact Hoff]].
    apply ok_or_Ok in Hids. unfold send_slate_id. by rewrite Hids.
Qed.

(** ** Finalised transactions *)

(** What is relied on of the slate code: bytes made of a slate or of a transaction are
    read as it, and taking the recipient's part out keeps the sender's. *)
Class SlatePhaseLaws : Prop := {
  slate_round : forall x b, slate_to_bytes x = Some b -> slate_from_bytes b = Some x;
  transaction_round : forall x b, transaction_to_bytes x = Some b -> transaction_from_bytes b = Some x;
  sender_phase_keeps : forall x, (sender_phase_slate x).(sl_sender_inputs) = x.(sl_sender_inputs)
    /\ (sender_phase_slate x).(sl_fee) = x.(sl_fee)
    /\ (sender_phase_slate x).(sl_lock_height) = x.(sl_lock_height)
    /\ (sender_phase_slate x).(sl_chain_id) = x.(sl_chain_id);
}.
Context {phases : SlatePhaseLaws}.

(** An output that carries a recovery capsule, in the encoding of one that does. *)
Definition with_capsule (output : TransactionOutput) : Prop :=
  (exists b, output_to_bytes output = Some b /\ len b = CANONICAL_TRANSACTION_OUTPUT_SIZE)
  /\ exists capsule, recovery_capsule output = Some (Some capsule).

(** The transaction of the request [x] and of its response [y], which adds only the
    recipient's part: its inputs are exactly those of the request, its outputs exactly
    the change and the recipient's output of the response, each with its capsule; it
    has one kernel with the fee and the lock height of the request; and it is valid on
    the chain. *)
Definition honors (x y : Slate) (transaction : Transaction) (identity : CoreChainIdentity) : Prop :=
  x = sender_phase_slate y /\ x.(sl_chain_id) = identity.(cci_chain_id)
  /\ transaction.(txn_inputs) = x.(sl_sender_inputs)
  /\ response_transaction_outputs y = Ok transaction.(txn_outputs) /\ Forall with_capsule transaction.(txn_outputs)
  /\ (exists kernel, transaction.(txn_kernels) = [kernel] /\ kernel.(sk_fee) = x.(sl_fee)
                     /\ kernel.(sk_lock_height) = x.(sl_lock_height)
                     /\ kernel.(sk_features) = slate_kernel_features x.(sl_lock_height))
  /\ validate_transaction transaction identity.(cci_current_tip).(br_height) identity.(cci_chain_id) = true.
(** What finalising writes into a record. *)
Definition finalized_as (transaction : Transaction) (tx tx' : LocalTransactionIntent) : Prop :=
  exists b kernel, transaction_to_bytes transaction = Some b /\ transaction_from_bytes b = Some transaction
    /\ transaction.(txn_kernels) = [kernel]
    /\ tx' = (record_finalized b (blake2b_256 b) kernel.(sk_excess) tx) <| tx_lifecycle := L.Finalized |>.
(** The slate that a record keeps, read on a chain. *)
Definition kept_slate (identity : CoreChainIdentity) (stored : bytes) (x : Slate) : Prop :=
  exists envelope body, live_slate identity (stored_slate stored identity) = Ok envelope
    /\ recovery_body envelope = Ok body /\ slate_from_bytes body.(rsb_canonical_bytes) = Some x.

Lemma not_mixed output : mixed_output output = false -> with_capsule output.
Proof.
  unfold mixed_output, with_capsule. intros [Hb Hc]%orb_false_iff.
  destruct (output_to_bytes output) as [b|]; [|done]. bool_inv. split; [by exists b|].
  destruct (recovery_capsule output) as [[capsule|]|]; [by exists capsule|done..].
Qed.

Lemma verified_transaction b response identity v y :
  verify_recoverable_transaction_against_response b response identity = Ok v ->
  slate_from_bytes response.(rsb_canonical_bytes) = Some y ->
  exists transaction, transaction_from_bytes b = Some transaction
  /\ y.(sl_chain_id) = identity.(cci_chain_id) /\ transaction.(txn_inputs) = y.(sl_sender_inputs)
  /\ response_transaction_outputs y = Ok transaction.(txn_outputs)
  /\ (exists kernel, transaction.(txn_kernels) = [kernel] /\ kernel.(sk_fee) = y.(sl_fee)
        /\ kernel.(sk_lock_height) = y.(sl_lock_height)
        /\ kernel.(sk_features) = slate_kernel_features y.(sl_lock_height))
  /\ validate_transaction transaction identity.(cci_current_tip).(br_height) identity.(cci_chain_id) = true.
Proof.
  unfold verify_recoverable_transaction_against_response. intros H Hy.
  apply then_Ok in H as [_ H]. apply rbind_Ok in H as (transaction & Ht & H).
  apply rbind_Ok in H as (again & Ha & H). apply then_Ok in H as [Hb H].
  apply rbind_Ok in H as (y' & Hy' & H). apply then_Ok in H as [Hbind H].
  apply rbind_Ok in H as (outs & Houts & H). apply then_Ok in H as [Hout H].
  apply rbind_Ok in H as (re & _ & H). apply rbind_Ok in H as (ae & _ & H).
  apply rbind_Ok in H as (ee & _ & H). apply rbind_Ok in H as (kernel & Hk & H).
  apply then_Ok in H as [Hkernel H]. apply then_Ok in H as [Hvalid H].
  res_inv. bool_inv. subst. simpl. rewrite Hy in Hy'. injection Hy' as <-.
  exists transaction. split; [done|]. split; [done|]. split; [done|]. split; [congruence|]. split; [|done].
  exists kernel. split; [|done]. destruct (txn_kernels transaction) as [|k [|k' l]]; simpl in *; [done| |].
  - by injection Hk as ->.
  - match goal with H : len _ = 1 |- _ => unfold len in H; simpl in H; lia end.
Qed.

Lemma finalize_record_Ok secrets slate_id identity tx finalized :
  finalize_record secrets slate_id identity tx = Ok finalized ->
  exists x y transaction, kept_slate identity tx.(tx_request_bytes) x /\ kept_slate identity tx.(tx_response_bytes) y
    /\ honors x y transaction identity
    /\ exists kernel, transaction_to_bytes transaction = Some finalized.(frt_canonical_bytes)
         /\ txn_kernels transaction = [kernel] /\ finalized.(frt_kernel_excess) = kernel.(sk_excess)
         /\ finalized.(frt_transaction_hash) = blake2b_256 finalized.(frt_canonical_bytes).
Proof.
  unfold finalize_record. intros H.
  apply rbind_Ok in H as (request & Hreq & H). apply rbind_Ok in H as (response & Hresp & H).
  apply rbind_Ok in H as (sender & _ & H). apply rbind_Ok in H as (rbody & Hrbody & H).
  apply rbind_Ok in H as (body & Hbody & H). apply rbind_Ok in H as (fin & Hfin & H).
  apply rbind_Ok in H as (v & Hv & H). apply rbind_Ok in H as (decoded & Hdec & H).
  apply then_Ok in H as [Hmix H]. injection H as <-. apply ok_or_Ok in Hdec. apply fail_if_Ok in Hmix.
  unfold from_recovery in Hfin, Hv. unfold from_protocol in Hbody, Hrbody.
  destruct (finalize_recoverable_transaction _ _ _ _) as [f|] eqn:E; [injection Hfin as ->|done].
  destruct (verify_recoverable_transaction_against_response _ _ _) as [v'|] eqn:Ev; [clear Hv|done].
  destruct (recovery_body request) as [body'|] eqn:Eb; [injection Hbody as ->|done].
  destruct (recovery_body response) as [rbody'|] eqn:Erb; [injection Hrbody as ->|done].
  unfold finalize_recoverable_transaction in E.
  apply rbind_Ok in E as (y & Hy%ok_or_Ok & E). apply rbind_Ok in E as (x & Hx%ok_or_Ok & E).
  apply rbind_Ok in E as (stripped & Hs%ok_or_Ok & E). apply rbind_Ok in E as (expected & He%ok_or_Ok & E).
  apply then_Ok in E as [Heq E]. apply rbind_Ok in E as (tr & _ & E).
  apply rbind_Ok in E as (b & Hb%ok_or_Ok & E). apply rbind_Ok in E as (kernel & Hk%ok_or_Ok & E).
  apply rbind_Ok in E as (fee & _ & E). injection E as <-. cbn in Ev, Hdec |- *. res_inv. bool_inv. subst.
  assert (x = sender_phase_slate y) as -> by (apply slate_round in Hs, He; congruence).
  destruct (verified_transaction _ _ _ _ _ Ev Hy) as (tr' & Htr & Hc & Hi & Ho & (k & Hk' & Hkernel) & Hvalid).
  assert (tr' = tr) as -> by (apply transaction_round in Hb; congruence).
  assert (decoded = tr) as -> by congruence.
  destruct (sender_phase_keeps y) as (E1 & E2 & E3 & E4).
  exists (sender_phase_slate y), y, tr. split; [by exists request, body|]. split; [by exists response, rbody|].
  split.
  - unfold honors. rewrite E1, E2, E3, E4. repeat (split; [done|]). split; [|split; [by exists k|done]].
    apply Forall_forall. intros o Hin. apply not_mixed, not_true_iff_false. intros Hm.
    apply not_true_iff_false in Hmix. apply Hmix. apply existsb_exists. exists o. by rewrite <- list_elem_of_In.
  - exists k. rewrite Hk' in Hk. injection Hk as <-. done.
Qed.

(** C23 A finalised transaction is the one that was requested.  When finalising a
    send succeeds, the directory opens with the password to the state before with the
    next generation, in which only the record of this send is another, and that record
    is the one before with these fields written: the life cycle, which is finalised,
    and the bytes, the hash and the kernel excess of one transaction.  It is the
    transaction of the request and the response that the record keeps: the response
    adds only the recipient's part to the request, the transaction spends exactly the
    inputs of the request, makes exactly the change and the recipient's output of the
    response, each with the capsule that recovery needs, has one kernel with the fee
    and the lock height of the request, and is valid on its chain. *)
Theorem finalized_transactions_honor_the_request p g random slate_id self self' s i tx result
    (Htracks : tracks p g self) (Hunlocked : self.(sv_unlocked) = Some s)
    (Hfind : find_transaction_index s slate_id Role.Sender = Ok i)
    (Htx : s.(ws_transactions) !! i = Some tx) (Hnew : tx.(tx_lifecycle) <> L.Finalized)
    (Hrun : transaction_finalize random slate_id self = (self', Ok result)) :
  exists identity x y transaction tx' w,
    self'.(sv_location) = Some w
    /\ opens_to p (committed_state (s <| ws_transactions ::= <[i := tx']> |>) s.(ws_generation)) w.(w_disk)
    /\ finalized_as transaction tx tx'
    /\ kept_slate identity tx.(tx_request_bytes) x /\ kept_slate identity tx.(tx_response_bytes) y
    /\ honors x y transaction identity.
Proof.
  unfold transaction_finalize in Hrun.
  apply mthen_framed in Hrun as (s1 & u1 & _ & F1 & H); [|auto with framed].
  apply mthen_framed in H as (s2 & identity & _ & F2 & H); [|auto with framed].
  pose proof (transitivity F1 F2) as F. pose proof (framed_tracks _ _ _ _ F Htracks) as Htr.
  apply mthen_unlocked in H as (s' & Hs' & H).
  assert (s' = s) as ->
    by (destruct F as (_ & F & _); rewrite F, Hunlocked in Hs'; by injection Hs').
  apply mthen_try in H as (i' & Hi' & H). rewrite Hfind in Hi'. injection Hi' as <-.
  apply mthen_try in H as (tx0 & Htx0%ok_or_Ok & H). rewrite Htx in Htx0. injection Htx0 as <-.
  rewrite bool_decide_eq_false_2 in H by done.
  apply mthen_Ok in H as (s3 & fin & [= <- Hfin] & H).
  apply mthen_try in H as ([next tx'] & Hn & H).
  apply mthen_Ok in H as (s4 & u4 & Hc & H).
  apply at_index_Ok in Hn as (tx0 & a & Hx & Hm & ->). rewrite Htx in Hx. injection Hx as <-.
  apply mthen_Ok in Hm as (tx1 & u5 & [= <- _] & Hm%move_Ok).
  destruct (finalize_record_Ok _ _ _ _ _ Hfin) as (x & y & tr & Hx & Hy & Hh & kernel & Htb & Hk & Hex & Hhash).
  destruct (commit_steps _ _ _ _ _ _ _ _ Htr Hs' Hc) as [(_ & _ & Ht & w & Hw & [m Hp]) _].
  assert (Hl : self'.(sv_location) = Some w).
  { apply mthen_Ok in H as (s5 & id & [= <- _] & H). by apply framed_summary in H as (-> & _). }
  eexists identity, x, y, tr, tx', w. split; [done|].
  split; [eapply opens_with_loads; [exact Hp|exact Ht]|]. split; [|exact (conj Hx (conj Hy Hh))].
  exists fin.(frt_canonical_bytes), kernel. split; [done|]. split; [by apply transaction_round|]. split; [done|].
  apply transition_inv in Hm as (-> & _). rewrite Hhash, Hex.
  by destruct tx as [? ? ? ? ? ? ? ? []].
Qed.

(** Of the transactions and outputs of [t], those of [s], only the record at [i] is
    another one. *)
Definition differs_at (i : nat) (tx : LocalTransactionIntent) s t : Prop :=
  t.(ws_transactions) = <[i := tx]> s.(ws_transactions) /\ t.(ws_outputs) = s.(ws_outputs).

(** A recipient's copy of the transaction is never replaced.  Importing a
    finalised transaction succeeds only with bytes that verify against the stored
    response, and that are the stored ones if there are any; the directory then
    opens to a state in which only this record has changed, by keeping these bytes
    and their hash.  Other bytes are refused, and nothing changes. *)
Theorem finalized_imports_are_final p g random slate_id b self self' r s i tx
    (Htracks : tracks p g self) (Hunlocked : self.(sv_unlocked) = Some s)
    (Hfind : find_transaction_index s slate_id Role.Recipient = Ok i)
    (Htx : s.(ws_transactions) !! i = Some tx)
    (Hrun : transaction_finalized_verify_and_import random slate_id b self = (self', r)) :
  let stored := tx.(tx_finalized_transaction_bytes) in
  (stored <> [] /\ stored <> b -> is_ok r = false /\ framed self self')
  /\ forall v, r = Ok v ->
     (stored = [] \/ stored = b) /\ v.(vrt_transaction_hash) = blake2b_256 b
     /\ (exists identity body, response_body identity tx = Ok body
         /\ verify_recoverable_transaction_against_response b body identity = Ok v)
     /\ exists t w, self'.(sv_location) = Some w /\ opens_to p t w.(w_disk)
        /\ differs_at i (record_finalized b v.(vrt_transaction_hash) v.(vrt_kernel_excess) tx) s t.
Proof.
  simpl. unfold transaction_finalized_verify_and_import in Hrun.
  apply mthen_inv in Hrun as [(e & Hr & ->)|(s1 & identity & Hi & Hrun)];
    [apply framed_identity in Hr; by split|]. apply framed_identity in Hi.
  pose proof (framed_tracks _ _ _ _ Hi Htracks) as Htr.
  assert (Hu : sv_unlocked s1 = Some s) by (destruct Hi as (_ & -> & _); done).
  unfold unlocked_state in Hrun. unfold mthen at 1, mread at 1 in Hrun. rewrite Hu in Hrun. simpl in Hrun.
  unfold mthen at 1, try at 1, mread at 1 in Hrun. rewrite Hfind in Hrun.
  unfold mthen at 1, try at 1, mread at 1 in Hrun. rewrite Htx in Hrun. simpl in Hrun.
  apply mthen_inv in Hrun as [(e & [= <- _] & ->)|(s2 & body & [= <- Hb] & Hrun)]; [by split|].
  apply mthen_inv in Hrun as [(e & [= <- _] & ->)|(s2 & v & [= <- Hv] & Hrun)]; [by split|].
  apply mthen_inv in Hrun as [(e & [= <- _] & ->)|(s2 & u & [= <- Hc%fail_if_Ok] & Hrun)]; [by split|].
  assert (Hsame : tx.(tx_finalized_transaction_bytes) = [] \/ tx.(tx_finalized_transaction_bytes) = b).
  { apply andb_false_iff in Hc as [Hc|Hc]; [left; by destruct (tx_finalized_transaction_bytes tx)|right].
    by apply negb_false_iff, bool_decide_eq_true in Hc. }
  split; [intros [H1 H2]; by destruct Hsame|]. intros v' ->.
  apply mthen_try in Hrun as ([next tx'] & Hn & Hrun).
  apply at_index_Ok in Hn as (tx0 & a & Hx & [= <-] & ->). rewrite Htx in Hx. injection Hx as <-.
  apply mthen_Ok in Hrun as (s3 & u' & Hcm & [= <- <-]).
  destruct (commit_steps _ _ _ _ _ _ _ _ Htr Hu Hcm) as [(_ & _ & Ht & w & Hw & [m Hp]) _].
  unfold from_recovery in Hv.
  destruct (verify_recoverable_transaction_against_response _ _ _) as [v0|] eqn:Ev; [injection Hv as ->|done].
  split; [done|]. split; [|split].
  - unfold verify_recoverable_transaction_against_response in Ev. res_inv. by subst.
  - eauto.
  - eexists _, w. split; [done|]. split; [by eapply opens_with_loads|]. by split.
Qed.
End payments.

(** ** Witnesses *)

Section worlds.
Context {codec : CoreCodec} {json : StateCode} {slaws : StateLaws json}.
(** A session on a wallet that was just created. *)
Definition wallet_world (s : WalletState) : World :=
  (publish_initial sample_random sample_random s sample_password DOM_CONTINUITY (mkWorld (mkDisk ∅ ∅) [])).1.
Definition wallet_session (s : WalletState) : WalletService unit :=
  (attach_backend sample_backend (unlock None sample_password
     (service_open (Ok (wallet_world s)) WalletService_default).1).1).1.

Lemma wallet_session_tracks s :
  typed_state s -> load None sample_password (mkWorld (wallet_world s).(w_disk) [])
                   = (mkWorld (wallet_world s).(w_disk) [], Ok s) ->
  tracks sample_password 0 (wallet_session s).
Proof.
  intros Ht Hload. apply (session_tracks no_seed _ _ WalletService_default); [|by split].
  eapply rtc_l; [|eapply rtc_l; [|apply rtc_once]].
  - apply (step_open (W := unit) _ _ _ _ _ (Ok (wallet_world s))
             (service_open (W := unit) (Ok (wallet_world s)) WalletService_default).2).
    + intros w H%Ok_inj. subst w. exists s. split; [exact Ht|].
      split; [by apply load_opens_with in Hload as [_ H]|lia].
    + apply surjective_pairing.
  - eapply (step_operation _ _ _ _ _ _ (unlock None sample_password)); [constructor|apply surjective_pairing].
  - eapply (step_operation _ _ _ _ _ _ (attach_backend sample_backend)); [constructor|apply surjective_pairing].
Qed.
Lemma wallet_session_in_step s :
  typed_state s -> load None sample_password (mkWorld (wallet_world s).(w_disk) [])
                   = (mkWorld (wallet_world s).(w_disk) [], Ok s) ->
  (wallet_session s).(sv_unlocked) = Some s -> (wallet_session s).(sv_password) = Some sample_password ->
  w_disk <$> (wallet_session s).(sv_location) = Some (wallet_world s).(w_disk) ->
  in_step sample_password s (wallet_session s).
Proof.
  intros Ht Hload Hs Hp Hl. split; [done|]. split; [done|]. split; [done|].
  destruct (sv_location (wallet_session s)) as [w|]; [|done]. injection Hl as Hl. exists w. split; [done|].
  rewrite Hl. by apply load_opens_with in Hload as [_ H].
Qed.
End worlds.

(** The transaction of the response of Slates. *)
Definition traded : Transaction := default (mkTransaction [] [] [] []) (sample_finalize sample_response).
#[local] Instance trades : CoreCodec := trade_codec [traded].

Definition trade_draws : SendDraws :=
  mkSendDraws (Some (sample_bytes 32 Byte.x51)) (Some (sample_bytes 32 Byte.x52)) 81 82 7
    (sample_bytes 32 Byte.x33) sample_random sample_random.
Definition trade_slate : uuid := uuid_from_protocol_id (sample_bytes 32 Byte.x51).

(** A wallet with one output of 1900, the input of the offer. *)
Definition paying_wallet : WalletState :=
  fresh_wallet <| ws_recovery := Some (mkRecoveryMetadata RECOVERY_SCHEME_BIP39_256_V1 true) |>
    <| ws_outputs := [mkOutputRecord 71 12 (Some (sample_bytes 33 Byte.x05)) 1900 Out.Confirmed 1 None] |>
    <| ws_private_output_blindings := [mkPrivateOutputBlinding 71 (sample_bytes 32 Byte.x31)] |>.
Definition paid (n : N) : result CErr.CoreError N := Ok 1100.
Definition reserved_wallet : WalletState :=
  match reserve_send paid 81 (Some trade_slate) 1 7 500 None 0 20 paying_wallet with
  | Ok r => committed_state r.(rsv_state) 0
  | Err _ => paying_wallet
  end.
Definition offer_parts : RecoverableSenderParts :=
  mkRecoverableSenderParts (mkRecoverySlateBody sample_offer [Byte.x00])
    (mkRecoverySlateSidecars (Some (sample_bytes 4 Byte.x0d)) None)
    (Some (mkRecoverableOwnedOutput (sample_bytes 33 Byte.x06) 300 (sample_bytes 32 Byte.x23)))
    (sample_bytes 32 Byte.x21) (sample_bytes 32 Byte.x22).
Definition offered_wallet : WalletState :=
  committed_state (record_offer 0 82 offer_parts [Byte.x00] reserved_wallet) 1.

(** The wallet of a sender who has the response, and of its recipient. *)
Definition answered_wallet : WalletState :=
  offered_wallet <| ws_generation := 0 |>
    <| ws_transactions ::= alter (fun t => t <| tx_lifecycle := L.ResponseImported |>
                                             <| tx_response_bytes := [Byte.x01] |>) 0%nat |>.
Definition finalized_wallet : WalletState :=
  committed_state (answered_wallet <| ws_transactions ::= alter (fun t =>
    record_finalized [Byte.x00] (sample_bytes 32 Byte.x65) (sample_bytes 33 Byte.x0a) t
      <| tx_lifecycle := L.Finalized |>) 0%nat |>) 0.
Definition received_tx : LocalTransactionIntent :=
  (imported_intent 91 1 7 trade_slate 500 1100 [Byte.x00] 20) <| tx_lifecycle := L.ResponseExported |>
    <| tx_response_bytes := [Byte.x01] |>.
Definition receiving_wallet : WalletState :=
  fresh_wallet <| ws_recovery := Some (mkRecoveryMetadata RECOVERY_SCHEME_BIP39_256_V1 true) |>
    <| ws_transactions := [received_tx] |>.
Definition received_wallet : WalletState :=
  committed_state (receiving_wallet <| ws_transactions ::= alter
    (record_finalized [Byte.x00] (sample_bytes 32 Byte.x65) (sample_bytes 33 Byte.x0a)) 0%nat |>) 0.

#[local] Instance trade_json : StateCode :=
  sample_json [paying_wallet; reserved_wallet; offered_wallet; answered_wallet; finalized_wallet;
               receiving_wallet; received_wallet].
#[local] Instance trade_json_laws : StateLaws trade_json := sample_json_laws _.

Ltac wallet_session :=
  apply wallet_session_tracks; [repeat split; vm_compute; done|vm_compute; reflexivity].

Lemma sends_are_reserved_first_witness :
  exists r t w, holds_reservation 81 500 r t
  /\ (transaction_send_create_with_identities trade_draws 500 None None None 0 20
        (wallet_session paying_wallet)).1.(sv_location) = Some w
  /\ opens_to sample_password t w.(w_disk).
Proof.
  destruct (sends_are_reserved_first sample_password 0 trade_draws 500 None None None 0 20
              (wallet_session paying_wallet) _ _ paying_wallet ltac:(wallet_session)
              ltac:(vm_compute; reflexivity) (surjective_pairing _)) as [(e & He & _)|H].
  - exfalso. apply (f_equal (fun x => is_ok x.2)) in He. vm_compute in He. discriminate He.
  - destruct H as (minimum & tip & r & t & w & _ & Hw & Ht & Hh & _). exists r, t, w. auto.
Defined.

#[local] Instance trade_phases : SlatePhaseLaws.
Proof.
  split; [| |done].
  - intros x b H. apply (known_round [sample_offer; sample_response]). exact H.
  - intros x b H. apply (known_round [traded]). exact H.
Qed.

Lemma finalized_transactions_honor_the_request_witness :
  exists x y transaction identity tx' w,
    honors x y transaction identity /\ tx'.(tx_lifecycle) = L.Finalized
    /\ (transaction_finalize sample_random trade_slate (wallet_session answered_wallet)).1.(sv_location) = Some w
    /\ opens_to sample_password (committed_state (answered_wallet <| ws_transactions ::= <[0%nat := tx']> |>) 0) w.(w_disk).
Proof.
  destruct (ws_transactions answered_wallet !! 0%nat) as [tx|] eqn:Htx;
    [|exfalso; apply (f_equal is_some) in Htx; vm_compute in Htx; discriminate Htx].
  destruct (transaction_finalize sample_random trade_slate (wallet_session answered_wallet))
    as [self' [result|e]] eqn:Hrun;
    [|exfalso; apply (f_equal (fun x => is_ok x.2)) in Hrun; vm_compute in Hrun; discriminate Hrun].
  destruct (finalized_transactions_honor_the_request sample_password 0 sample_random trade_slate
              (wallet_session answered_wallet) self' answered_wallet 0 tx result)
    as (identity & x & y & transaction & tx' & w & Hw & Ht & (b & kernel & _ & _ & _ & Htx') & _ & _ & Hh).
  - wallet_session.
  - vm_compute. reflexivity.
  - vm_compute. reflexivity.
  - exact Htx.
  - intros Hl. apply (f_equal (option_map tx_lifecycle)) in Htx. simpl in Htx. rewrite Hl in Htx.
    vm_compute in Htx. discriminate Htx.
  - exact Hrun.
  - exists x, y, transaction, identity, tx', w. split; [exact Hh|]. split; [rewrite Htx'; reflexivity|].
    split; [exact Hw|exact Ht].
Defined.
