(* ===== verification/Contracts.v ===== *)
(** * What the Scriptless operations guarantee

    Proofs about Funding and Payout: the reservations of a wallet follow one state
    machine, in which what was exposed is never cancelled and no longer changes;
    what leaves the wallet is on disk first; and cancelling gives back exactly what
    was reserved. *)

From S2P Require Import Prelude Bytes Codecs DomainTypes Lifecycle WalletOps Validation CoreTypes Projection CoreSync Recovery.
From S2P Require Import Envelope Storage Reload Submission Fees Slates Outputs Backend Spending Service Exchange.
From S2P Require Import Funding Payout Sessions Payments.

(** ** The state machines of the reservations *)

(** One step of a funding reservation. *)
Inductive funding_step (f : ScriptlessFundingReservation) : ScriptlessFundingReservation -> Prop :=
| fstep_prepare change public context : f.(fr_state) = FundSt.Reserved ->
    funding_step f (prepared_funding change public context f)
| fstep_session binding : f.(fr_state) = FundSt.Prepared -> funding_step f (bind_session binding f)
| fstep_export : f.(fr_state) = FundSt.SessionBound ->
    funding_step f (set_funding_state FundSt.Exported f)
| fstep_template hash participants : f.(fr_state) = FundSt.Exported ->
    funding_step f (Funding.bind_template hash participants f)
| fstep_cancel : f.(fr_state) = FundSt.Reserved \/ f.(fr_state) = FundSt.Prepared ->
    funding_step f (cancelled_funding f)
| fstep_abandon : f.(fr_state) = FundSt.SessionBound \/ composable f.(fr_state) = true ->
    funding_step f (set_funding_state FundSt.AbandonedRetained f).

(** One step of a payout reservation. *)
Inductive payout_step (q : ScriptlessPayoutReservation) : ScriptlessPayoutReservation -> Prop :=
| pstep_prepare output_bytes prepared : q.(pr_state) = PaySt.Reserved ->
    payout_step q (prepared_payout output_bytes prepared q)
| pstep_session binding : q.(pr_state) = PaySt.Prepared -> payout_step q (bind_payout_session binding q)
| pstep_export : q.(pr_state) = PaySt.SessionBound ->
    payout_step q (set_payout_state PaySt.ComponentsExposed q)
| pstep_template hash participants : q.(pr_state) = PaySt.ComponentsExposed ->
    payout_step q (bind_payout_template hash participants q)
| pstep_cancel : q.(pr_state) = PaySt.Reserved \/ q.(pr_state) = PaySt.Prepared ->
    payout_step q (cancelled_payout q)
| pstep_abandon : q.(pr_state) = PaySt.SessionBound \/ payout_composable q.(pr_state) = true ->
    payout_step q (set_payout_state PaySt.AbandonedRetained q).

(** What a funding reservation was asked for, and what it holds. *)
Definition funding_terms (f : ScriptlessFundingReservation) :=
  (f.(fr_id), f.(fr_session_id), f.(fr_shared_output_commitment),
   (f.(fr_local_debit_noms), f.(fr_funding_fee_noms), f.(fr_expected_input_count),
    f.(fr_expected_output_count)),
   (f.(fr_reserved_output_ids), f.(fr_input_commitments), f.(fr_change_value_noms),
    f.(fr_change_derivation_index), f.(fr_change_output_id))).
(** Its contribution to the contract, and to whom it is bound. *)
Definition funding_commitments (f : ScriptlessFundingReservation) :=
  (f.(fr_change_commitment), f.(fr_change_output_bytes), f.(fr_offset_contribution),
   f.(fr_wallet_excess_public_key), f.(fr_private_context),
   (f.(fr_session_share_binding_digest), f.(fr_participant_position))).
Definition payout_terms (q : ScriptlessPayoutReservation) :=
  (q.(pr_id), q.(pr_session_id), q.(pr_role), q.(pr_shared_output_commitment),
   (q.(pr_payout_value_noms), q.(pr_kernel_fee_noms), q.(pr_expected_output_count),
    q.(pr_refund_lock_height)), (q.(pr_output_id), q.(pr_derivation_index))).
Definition payout_commitments (q : ScriptlessPayoutReservation) :=
  (q.(pr_output_commitment), q.(pr_output_bytes), q.(pr_offset_contribution),
   q.(pr_payout_excess_public_key), q.(pr_private_context),
   (q.(pr_session_share_binding_digest), q.(pr_participant_position))).

(** Something of the reservation may be known outside the wallet. *)
Definition funding_exposed (f : ScriptlessFundingReservation) : bool :=
  match f.(fr_state) with
  | FundSt.SessionBound | FundSt.Exported | FundSt.TemplateBound | FundSt.AbandonedRetained => true
  | _ => false
  end.
Definition payout_exposed (q : ScriptlessPayoutReservation) : bool :=
  match q.(pr_state) with
  | PaySt.SessionBound | PaySt.ComponentsExposed | PaySt.TemplateBound | PaySt.AbandonedRetained => true
  | _ => false
  end.

(** The reservations of [s] are still those of [s'], each some steps further; at
    most one is new. *)
Definition follows {R} (step : R -> R -> Prop) (l l' : list R) : Prop :=
  (forall i r, l !! i = Some r -> exists r', l' !! i = Some r' /\ rtc step r r')
  /\ (length l' <= length l + 1)%nat.

(** ** Lemmas: the state machines *)

Lemma funding_steps_terms f f' : rtc funding_step f f' -> funding_terms f' = funding_terms f.
Proof. induction 1 as [|f f1 f' Hs _ IH]; [done|]. rewrite IH. by destruct Hs. Qed.
Lemma payout_steps_terms q q' : rtc payout_step q q' -> payout_terms q' = payout_terms q.
Proof. induction 1 as [|q q1 q' Hs _ IH]; [done|]. rewrite IH. by destruct Hs. Qed.

Lemma funding_step_exposed f f' : funding_step f f' -> funding_exposed f = true ->
  funding_exposed f' = true /\ funding_commitments f' = funding_commitments f.
Proof.
  unfold funding_exposed. destruct 1 as [? ? ? E|? E|E|? ? E|[E|E]|E]; try rewrite E; try done; by intros.
Qed.
Lemma payout_step_exposed q q' : payout_step q q' -> payout_exposed q = true ->
  payout_exposed q' = true /\ payout_commitments q' = payout_commitments q.
Proof.
  unfold payout_exposed. destruct 1 as [? ? E|? E|E|? ? E|[E|E]|E]; try rewrite E; try done; by intros.
Qed.
Lemma funding_steps_exposed f f' : rtc funding_step f f' -> funding_exposed f = true ->
  funding_exposed f' = true /\ funding_commitments f' = funding_commitments f.
Proof.
  induction 1 as [|f f1 f' Hs _ IH]; [done|]. intros H.
  destruct (funding_step_exposed _ _ Hs H) as [H1 <-]. by apply IH.
Qed.
Lemma payout_steps_exposed q q' : rtc payout_step q q' -> payout_exposed q = true ->
  payout_exposed q' = true /\ payout_commitments q' = payout_commitments q.
Proof.
  induction 1 as [|q q1 q' Hs _ IH]; [done|]. intros H.
  destruct (payout_step_exposed _ _ Hs H) as [H1 <-]. by apply IH.
Qed.

(** *** Lists of reservations *)

Section lists.
Context {R : Type} (step : R -> R -> Prop).

Lemma follows_refl l : follows step l l.
Proof. split; [|lia]. intros i r H. exists r. split; [done|]. apply rtc_refl. Qed.
Lemma follows_trans l l1 l' :
  (length l' = length l1 \/ length l1 = length l)%nat ->
  follows step l l1 -> follows step l1 l' -> follows step l l'.
Proof.
  intros Hl [H1 L1] [H2 L2]. split; [|destruct Hl; lia].
  intros i r (r1 & Hr1 & S1)%H1. destruct (H2 i r1 Hr1) as (r' & Hr' & S2).
  exists r'. split; [done|]. by transitivity r1.
Qed.
Lemma follows_alter f l i : (forall r, l !! i = Some r -> step r (f r)) -> follows step l (alter f i l).
Proof.
  intros Hf. split; [|rewrite length_alter; lia]. intros j r Hr.
  destruct (decide (i = j)) as [->|Hne].
  - exists (f r). rewrite list_lookup_alter_eq, Hr. split; [done|]. apply rtc_once, Hf, Hr.
  - exists r. rewrite list_lookup_alter_ne by done. split; [done|]. apply rtc_refl.
Qed.
Lemma follows_snoc l r : follows step l (l ++ [r]).
Proof.
  split; [|rewrite length_app; simpl; lia]. intros i x Hx. exists x.
  split; [by rewrite lookup_app_l by (by eapply lookup_lt_Some)|apply rtc_refl].
Qed.
End lists.

(** ** Lemmas: the operations follow the state machines *)

(** The two lists of reservations of a state, one state after another. *)
Definition advances (s s' : WalletState) : Prop :=
  follows funding_step s.(ws_scriptless_funding_reservations) s'.(ws_scriptless_funding_reservations)
  /\ follows payout_step s.(ws_scriptless_payout_reservations) s'.(ws_scriptless_payout_reservations).
(** The same, without a new reservation. *)
Definition progresses (s s' : WalletState) : Prop :=
  advances s s'
  /\ length s'.(ws_scriptless_funding_reservations) = length s.(ws_scriptless_funding_reservations)
  /\ length s'.(ws_scriptless_payout_reservations) = length s.(ws_scriptless_payout_reservations).

Lemma progresses_same s s' :
  s'.(ws_scriptless_funding_reservations) = s.(ws_scriptless_funding_reservations) ->
  s'.(ws_scriptless_payout_reservations) = s.(ws_scriptless_payout_reservations) -> progresses s s'.
Proof. intros H1 H2. unfold progresses, advances. rewrite H1, H2. auto using follows_refl. Qed.
#[export] Instance progresses_preorder : PreOrder progresses.
Proof.
  split; [intros s; by apply progresses_same|]. intros s s1 s2 ((F1 & P1) & L1 & M1) ((F2 & P2) & L2 & M2).
  split; [|split; congruence].
  split; (eapply follows_trans; [|eassumption|eassumption]); auto.
Qed.
Lemma advances_progresses s s1 s2 : advances s s1 -> progresses s1 s2 -> advances s s2.
Proof.
  intros [F1 P1] ((F2 & P2) & L2 & M2). split; (eapply follows_trans; [|eassumption|eassumption]); auto.
Qed.
Lemma committed_progresses s s' g : advances s s' -> advances s (committed_state s' g).
Proof. intros [H1 H2]. by split. Qed.

(** *** What the operations store *)

Lemma funding_record_Ok s id i f :
  funding_record s id = Ok (i, f) -> s.(ws_scriptless_funding_reservations) !! i = Some f /\ f.(fr_id) = id.
Proof.
  unfold funding_record, find_scriptless_funding_index.
  intros (j & Hj%ok_or_Ok & H)%rbind_Ok. apply rbind_Ok in H as (x & Hx%ok_or_Ok & [= <- <-]).
  split; [done|]. by apply N.eqb_eq, (position_lookup _ _ _ _ Hj Hx).
Qed.
Lemma payout_record_Ok s id i q :
  payout_record s id = Ok (i, q) -> s.(ws_scriptless_payout_reservations) !! i = Some q /\ q.(pr_id) = id.
Proof.
  unfold payout_record, find_scriptless_payout_index.
  intros (j & Hj%ok_or_Ok & H)%rbind_Ok. apply rbind_Ok in H as (x & Hx%ok_or_Ok & [= <- <-]).
  split; [done|]. by apply N.eqb_eq, (position_lookup _ _ _ _ Hj Hx).
Qed.

Lemma set_funding_progresses s i f (change : ScriptlessFundingReservation -> ScriptlessFundingReservation) :
  s.(ws_scriptless_funding_reservations) !! i = Some f -> funding_step f (change f) ->
  progresses s (set_funding i change s).
Proof.
  intros Hi Hs. split; [|split; [by apply length_alter|done]]. split; [|apply follows_refl].
  apply follows_alter. intros x Hx. rewrite Hi in Hx. by injection Hx as <-.
Qed.
Lemma set_payout_progresses s i q (change : ScriptlessPayoutReservation -> ScriptlessPayoutReservation) :
  s.(ws_scriptless_payout_reservations) !! i = Some q -> payout_step q (change q) ->
  progresses s (set_payout i change s).
Proof.
  intros Hi Hs. split; [|split; [done|by apply length_alter]]. split; [apply follows_refl|].
  apply follows_alter. intros x Hx. rewrite Hi in Hx. by injection Hx as <-.
Qed.

Lemma add_pending_reservations id o s :
  (add_pending_output id o s).(ws_scriptless_funding_reservations) = s.(ws_scriptless_funding_reservations)
  /\ (add_pending_output id o s).(ws_scriptless_payout_reservations) = s.(ws_scriptless_payout_reservations).
Proof. unfold add_pending_output, remember_output_blinding. simpl. by destruct (position _ _). Qed.

Lemma record_funding_progresses {output_code : OutputCode} {slate_code : SlateCode} record id prepared s s' :
  record_funding record id prepared s = Ok s' -> progresses s s'.
Proof.
  unfold record_funding. intros ([i f] & [Hi _]%funding_record_Ok & H)%rbind_Ok.
  apply then_Ok in H as [Hf%fail_if_Ok H]. apply negb_false_iff, bool_decide_eq_true in Hf. simpl in *.
  destruct (sfp_other_outputs _) as [|output rest]; [|res_inv; subst]; try injection H as <-.
  - apply set_funding_progresses with f; [done|by constructor].
  - match goal with |- progresses s (set_funding _ ?c (add_pending_output ?a ?o s)) =>
      destruct (add_pending_reservations a o s) as [E1 E2]; transitivity (add_pending_output a o s);
      [by apply progresses_same|apply set_funding_progresses with f; [by rewrite E1|by constructor]] end.
Qed.

Lemma record_payout_progresses {output_code : OutputCode} record id b prepared s s' :
  record_payout record id b prepared s = Ok s' -> progresses s s'.
Proof.
  unfold record_payout. intros ([i q] & [Hi _]%payout_record_Ok & H)%rbind_Ok.
  apply then_Ok in H as [Hf%fail_if_Ok [= <-]]. simpl in Hf. rewrite <- orb_assoc in Hf.
  apply orb_false_iff in Hf as [Hq _]. apply negb_false_iff, bool_decide_eq_true in Hq. simpl.
  match goal with |- progresses s (set_payout _ ?c ?s1) => assert (H1 :
    s1.(ws_scriptless_funding_reservations) = s.(ws_scriptless_funding_reservations)
    /\ s1.(ws_scriptless_payout_reservations) = s.(ws_scriptless_payout_reservations));
    [|destruct H1 as [E1 E2]; transitivity s1;
      [by apply progresses_same|apply set_payout_progresses with q; [by rewrite E2|by constructor]]] end.
  destruct (pr_output_id record); [|done]. destruct (head _); [|done]. apply add_pending_reservations.
Qed.

Lemma reserve_coordinate_keeps account class s s' r :
  reserve_recovery_coordinate account class s = (s', r) ->
  s'.(ws_scriptless_funding_reservations) = s.(ws_scriptless_funding_reservations)
  /\ s'.(ws_scriptless_payout_reservations) = s.(ws_scriptless_payout_reservations)
  /\ s'.(ws_outputs) = s.(ws_outputs) /\ s'.(ws_transactions) = s.(ws_transactions)
  /\ s'.(ws_private_output_blindings) = s.(ws_private_output_blindings).
Proof. unfold reserve_recovery_coordinate. destruct (checked_add _ _ _); by intros [= <- _]. Qed.

Lemma reserve_funding_advances request id change_id tip s s' :
  reserve_funding request id change_id tip s = Ok s' -> advances s s'.
Proof.
  unfold reserve_funding. intros ([selected total] & _ & H)%rbind_Ok.
  apply then_Ok in H as [_ H]. apply then_Ok in H as [_ H].
  apply rbind_Ok in H as ([s1 change] & H1 & H). apply rbind_Ok in H as (cs & _ & H).
  destruct (for_each_mut _ _) as [outputs r]. apply rbind_Ok in H as ([] & _ & [= <-]).
  assert (E : s1.(ws_scriptless_funding_reservations) = s.(ws_scriptless_funding_reservations)
              /\ s1.(ws_scriptless_payout_reservations) = s.(ws_scriptless_payout_reservations)).
  { destruct (_ =? 0); [by injection H1 as <- _|].
    destruct (reserve_recovery_coordinate 0 ROC.Change s) as [s2 r2] eqn:E2.
    apply rbind_Ok in H1 as (c & _ & [= <- _]). by apply reserve_coordinate_keeps in E2 as (-> & -> & _). }
  destruct E as [E1 E2]. split; simpl; rewrite ?E1, ?E2; [apply follows_snoc|apply follows_refl].
Qed.
Lemma reserve_payout_advances request id output_id tip s s' :
  reserve_payout request id output_id tip s = Ok s' -> advances s s'.
Proof.
  unfold reserve_payout. intros ([s1 index] & H1 & [= <-])%rbind_Ok.
  assert (E : s1.(ws_scriptless_funding_reservations) = s.(ws_scriptless_funding_reservations)
              /\ s1.(ws_scriptless_payout_reservations) = s.(ws_scriptless_payout_reservations)).
  { destruct (_ =? 0); [by injection H1 as <- _|].
    destruct (reserve_recovery_coordinate 0 ROC.SelfTransfer s) as [s2 r2] eqn:E2.
    apply rbind_Ok in H1 as (c & _ & [= <- _]). by apply reserve_coordinate_keeps in E2 as (-> & -> & _). }
  destruct E as [E1 E2]. split; simpl; rewrite ?E1, ?E2; [apply follows_refl|apply follows_snoc].
Qed.

Lemma cancel_funding_progresses id s s' : cancel_funding id s = Ok s' -> progresses s s'.
Proof.
  unfold cancel_funding. intros ([i f] & [Hi _]%funding_record_Ok & H)%rbind_Ok.
  apply then_Ok in H as [Hf%fail_if_Ok H]. apply negb_false_iff in Hf.
  apply rbind_Ok in H as (outputs & _ & [= <-]).
  match goal with |- progresses s (set_funding _ _ ?s1) => transitivity s1 end;
    [destruct (fr_change_output_id _); by apply progresses_same|].
  apply set_funding_progresses with f; [by destruct (fr_change_output_id _)|].
  apply fstep_cancel. simpl in Hf. destruct (fr_state f); try done; auto.
Qed.
Lemma cancel_payout_progresses id s s' : cancel_payout id s = Ok s' -> progresses s s'.
Proof.
  unfold cancel_payout. intros ([i q] & [Hi _]%payout_record_Ok & H)%rbind_Ok.
  apply then_Ok in H as [Hf%fail_if_Ok [= <-]]. apply negb_false_iff in Hf.
  match goal with |- progresses s (set_payout _ _ ?s1) => transitivity s1 end;
    [destruct (pr_output_id _); by apply progresses_same|].
  apply set_payout_progresses with q; [by destruct (pr_output_id _)|].
  apply pstep_cancel. simpl in Hf. destruct (pr_state q); try done; auto.
Qed.

Section contracts.
Context {W : Type} {codec : CoreCodec} {code : CryptoCode} {json : StateCode}.
Context {claws : CryptoLaws code} {slaws : StateLaws json}.
Context {scan : WalletCoreApi W} {api : WalletSubmissionApi W} {fee_api : WalletFeeApi W}.
Context {slate_code : SlateCode} {seed_code : SeedCode} {output_code : OutputCode}.
Context {contract : ContractCode}.
Abbreviation service := (WalletService W).
Abbreviation op := (method service CErr.CoreError).
Implicit Types (self : service) (p : bytes) (g : N) (s t : WalletState).

(** A run that starts with [s] in memory: the service keeps tracking its
    directory, and what is in memory afterwards relates to [s]. *)
Definition goes (R : WalletState -> WalletState -> Prop) s {A} (m : op A) : Prop :=
  forall p g self self' r, tracks p g self -> self.(sv_unlocked) = Some s -> m self = (self', r) ->
  tracks p g self' /\ exists s', self'.(sv_unlocked) = Some s' /\ R s s'.

Lemma goes_framed (R : WalletState -> WalletState -> Prop) `{!Reflexive R} s {A} (m : op A) :
  moves framed m -> goes R s m.
Proof.
  intros Hm p g self self' r Ht Hs H%Hm. split; [by eapply framed_tracks|]. exists s.
  split; [|done]. by destruct H as (_ & -> & _).
Qed.
Lemma goes_after_framed R s {A B} (m : op A) (k : A -> op B) `{!Reflexive R} :
  moves framed m -> (forall a, goes R s (k a)) -> goes R s (mthen m k).
Proof.
  intros Hm Hk p g self self' r Ht Hs [(e & H%Hm & ->)|(self1 & a & H%Hm & Hr)]%mthen_inv.
  - split; [by eapply framed_tracks|]. exists s. split; [|done]. by destruct H as (_ & -> & _).
  - eapply Hk; [by eapply framed_tracks|by destruct H as (_ & -> & _)|exact Hr].
Qed.
Lemma goes_unlocked R s {B} (k : WalletState -> op B) : goes R s (k s) -> goes R s (mthen unlocked_state k).
Proof.
  intros Hk p g self self' r Ht Hs. unfold mthen, unlocked_state, mread. rewrite Hs. by apply Hk.
Qed.
Lemma goes_try (R : WalletState -> WalletState -> Prop) `{!Reflexive R} s {A B} (x : result CErr.CoreError A) (k : A -> op B) :
  (forall a, x = Ok a -> goes R s (k a)) -> goes R s (mthen (try x) k).
Proof.
  intros Hk p g self self' r Ht Hs. unfold mthen, try, mread. destruct x as [a|e].
  - intros H. by eapply Hk.
  - intros [= <- _]. eauto.
Qed.
Lemma goes_then (R R' : WalletState -> WalletState -> Prop) s {A B} (m : op A) (k : A -> op B) :
  (forall s1 s2, R s s1 -> R' s1 s2 -> R s s2) -> Reflexive R' ->
  goes R s m -> (forall s1 a, goes R' s1 (k a)) -> goes R s (mthen m k).
Proof.
  intros Htr Hrefl Hm Hk p g self self' r Ht Hs [(e & H & ->)|(self1 & a & H & Hr)]%mthen_inv.
  - by eapply Hm.
  - destruct (Hm _ _ _ _ _ Ht Hs H) as (Ht1 & s1 & Hs1 & H1).
    destruct (Hk s1 a _ _ _ _ _ Ht1 Hs1 Hr) as (Ht2 & s2 & Hs2 & H2). split; [done|]. eauto.
Qed.
Lemma goes_commit (R : WalletState -> WalletState -> Prop) `{!Reflexive R} s random next :
  (forall g, R s (committed_state next g)) -> goes R s (commit random next).
Proof.
  intros Hn p g self self' r Ht Hs H. split; [by eapply tracking_commit|]. destruct r as [u|e].
  - destruct (commit_steps _ _ _ _ _ _ _ _ Ht Hs H) as [(Hu & _) _]. eauto.
  - exists s. split; [|done]. apply commit_run in H as [(-> & _)|(s1 & w & p1 & w1 & r1 & _ & _ & _ & _ & H)];
      [done|]. destruct r1; [destruct H as (w2 & r2 & _ & H); destruct r2|]; by destruct H as [-> H].
Qed.
Lemma goes_weaken (R R' : WalletState -> WalletState -> Prop) s {A} (m : op A) :
  (forall s', R s s' -> R' s s') -> goes R s m -> goes R' s m.
Proof. intros H Hm p g self self' r Ht Hs Hr. destruct (Hm _ _ _ _ _ Ht Hs Hr) as (? & s' & ? & ?). eauto. Qed.

Hint Resolve framed_identity framed_ensure framed_unlocked framed_the_backend framed_read framed_try
  framed_ret framed_backend : framed.
Hint Extern 1 (moves framed (mthen _ _)) => apply framed_then; [|intros ?] : framed.

Lemma framed_funding_summary id : moves (S := service) framed (scriptless_funding_summary id).
Proof. unfold scriptless_funding_summary. auto 10 with framed. Qed.
Lemma framed_payout_summary id : moves (S := service) framed (scriptless_payout_summary id).
Proof. unfold scriptless_payout_summary. auto 10 with framed. Qed.
Hint Resolve framed_funding_summary framed_payout_summary : framed.

Lemma progresses_advances s s' : progresses s s' -> advances s s'.
Proof. by intros []. Qed.
#[local] Instance advances_refl : Reflexive advances.
Proof. intros s. by apply progresses_advances. Qed.
Lemma goes_keeps (R : WalletState -> WalletState -> Prop) `{!Reflexive R} s {A} (m : op A) :
  moves framed m -> goes R s m.
Proof. apply goes_framed, _. Qed.

(** Going on after a step that may have committed. *)
Lemma goes_on s {A B} (m : op A) (k : A -> op B) :
  goes progresses s m -> (forall s1 a, goes progresses s1 (k a)) -> goes progresses s (mthen m k).
Proof. apply goes_then; [|exact _]. intros s1 s2. apply transitivity. Qed.
Lemma goes_on_advanced s {A B} (m : op A) (k : A -> op B) :
  goes advances s m -> (forall s1 a, goes progresses s1 (k a)) -> goes advances s (mthen m k).
Proof. apply goes_then; [|exact _]. intros s1 s2. apply advances_progresses. Qed.

Lemma goes_progress s random next : progresses s next -> goes progresses s (commit random next).
Proof. intros H. apply goes_commit; [exact _|]. intros g. destruct H as [[H1 H2] H3]. by split. Qed.
Lemma goes_advance s random next : advances s next -> goes advances s (commit random next).
Proof. intros H. apply goes_commit; [exact _|]. intros g. by apply committed_progresses. Qed.

Create HintDb goes discriminated.
Hint Resolve goes_progress goes_advance record_funding_progresses record_payout_progresses
  cancel_funding_progresses cancel_payout_progresses reserve_funding_advances reserve_payout_advances : goes.
Hint Extern 1 (goes _ _ (mthen unlocked_state _)) => apply goes_unlocked; simpl : goes.
Hint Extern 2 (goes _ _ (mthen (try _) _)) => apply goes_try; [exact _|intros ? ?] : goes.
Hint Extern 3 (goes _ _ (mthen core_identity _)) =>
  apply goes_after_framed; [exact _|apply framed_identity|intros ?] : goes.
Hint Extern 3 (goes _ _ (mthen ensure_phrase_confirmed _)) =>
  apply goes_after_framed; [exact _|apply framed_ensure|intros ?] : goes.
Hint Extern 3 (goes _ _ (mthen the_backend _)) =>
  apply goes_after_framed; [exact _|apply framed_the_backend|intros ?] : goes.
Hint Extern 3 (goes _ _ (mthen (on_backend _) _)) =>
  apply goes_after_framed; [exact _|apply framed_backend|intros ?] : goes.
Hint Extern 4 (goes _ _ (try _)) => apply goes_keeps; [exact _|apply framed_try] : goes.
Hint Extern 4 (goes _ _ (mret _)) => apply goes_keeps; [exact _|apply framed_ret] : goes.
Hint Extern 4 (goes _ _ (scriptless_funding_summary _)) =>
  apply goes_keeps; [exact _|apply framed_funding_summary] : goes.
Hint Extern 4 (goes _ _ (scriptless_payout_summary _)) =>
  apply goes_keeps; [exact _|apply framed_payout_summary] : goes.

Lemma funding_resume_goes s d id : goes progresses s (scriptless_funding_resume_preparation d id).
Proof.
  unfold scriptless_funding_resume_preparation. apply goes_unlocked, goes_try; [exact _|].
  intros [i f] _. simpl. destruct (fr_state f); eauto 20 with goes.
Qed.
Lemma payout_resume_goes s d id : goes progresses s (scriptless_payout_resume_preparation d id).
Proof.
  unfold scriptless_payout_resume_preparation. apply goes_unlocked, goes_try; [exact _|].
  intros [i q] _. simpl. destruct (pr_state q); eauto 20 with goes.
Qed.
Hint Resolve funding_resume_goes payout_resume_goes : goes.

(** An operation goes on from its record, as the state machine allows. *)
Ltac step_funding := match goal with
  | H : funding_record ?s _ = Ok (?i, ?f), E : ?f.(fr_state) = _ |- progresses ?s (set_funding _ _ ?s) =>
      apply funding_record_Ok in H as [H _]; eapply set_funding_progresses; [exact H|]
  end.
Ltac step_payout := match goal with
  | H : payout_record ?s _ = Ok (?i, ?q), E : ?q.(pr_state) = _ |- progresses ?s (set_payout _ _ ?s) =>
      apply payout_record_Ok in H as [H _]; eapply set_payout_progresses; [exact H|]
  end.

Lemma funding_prepare_goes s random d id change request :
  goes advances s (scriptless_funding_prepare random d id change request).
Proof.
  unfold scriptless_funding_prepare. apply goes_try; [exact _|intros _ _].
  do 4 (first [apply goes_after_framed; [exact _|auto with framed|intros ?]|apply goes_try; [exact _|intros ? _]]).
  apply goes_try; [exact _|intros _ _]. apply goes_unlocked. destruct (find_first _ _) as [existing|].
  - apply goes_weaken with progresses; [apply progresses_advances|]. apply goes_try; [exact _|intros _ _].
    apply goes_on; [destruct (fr_state existing)|]; auto with goes.
  - apply goes_try; [exact _|intros next H]. apply goes_on_advanced; [eauto with goes|intros s1 _].
    apply goes_on; auto with goes.
Qed.
Lemma payout_prepare_goes s random d id output request :
  goes advances s (scriptless_payout_prepare random d id output request).
Proof.
  unfold scriptless_payout_prepare. apply goes_try; [exact _|intros _ _].
  do 2 (apply goes_after_framed; [exact _|auto with framed|intros ?]).
  apply goes_try; [exact _|intros _ _]. apply goes_unlocked. destruct (find_first _ _) as [existing|].
  - apply goes_weaken with progresses; [apply progresses_advances|]. apply goes_try; [exact _|intros _ _].
    apply goes_on; [destruct (pr_state existing)|]; auto with goes.
  - apply goes_try; [exact _|intros _ _]. apply goes_after_framed; [exact _|auto with framed|intros minimum].
    apply goes_try; [exact _|intros _ _]. apply goes_unlocked.
    apply goes_try; [exact _|intros next H]. apply goes_on_advanced; [eauto with goes|intros s1 _].
    apply goes_on; auto with goes.
Qed.

Lemma funding_point_goes s d random id share :
  goes progresses s (scriptless_funding_prepare_kernel_excess_point d random id share).
Proof.
  unfold scriptless_funding_prepare_kernel_excess_point. apply goes_on; [auto with goes|intros s1 _].
  apply goes_after_framed; [exact _|auto with framed|intros identity].
  apply goes_unlocked, goes_try; [exact _|intros [i f] H]. apply goes_try; [exact _|intros binding _].
  apply goes_on; [|intros; eauto 20 with goes]. simpl. destruct (fr_state f) eqn:E; auto with goes.
  apply goes_progress. step_funding. by apply fstep_session.
Qed.
Lemma payout_point_goes s d random id share :
  goes progresses s (scriptless_payout_prepare_kernel_excess_point d random id share).
Proof.
  unfold scriptless_payout_prepare_kernel_excess_point. apply goes_on; [auto with goes|intros s1 _].
  apply goes_after_framed; [exact _|auto with framed|intros identity].
  apply goes_unlocked, goes_try; [exact _|intros [i q] H]. apply goes_try; [exact _|intros binding _].
  apply goes_on; [|intros; eauto 20 with goes]. simpl. destruct (pr_state q) eqn:E; auto with goes.
  apply goes_progress. step_payout. by apply pstep_session.
Qed.

Lemma funding_export_goes s d random id : goes progresses s (scriptless_funding_export d random id).
Proof.
  unfold scriptless_funding_export. apply goes_on; [auto with goes|intros s1 _].
  apply goes_after_framed; [exact _|auto with framed|intros identity].
  apply goes_unlocked, goes_try; [exact _|intros [i f] H].
  apply goes_on; [|intros; eauto 20 with goes]. simpl. destruct (fr_state f) eqn:E; auto with goes.
  apply goes_progress. step_funding. by apply fstep_export.
Qed.
Lemma payout_export_goes s d random id : goes progresses s (scriptless_payout_export d random id).
Proof.
  unfold scriptless_payout_export. apply goes_on; [auto with goes|intros s1 _].
  apply goes_after_framed; [exact _|auto with framed|intros identity].
  apply goes_unlocked, goes_try; [exact _|intros [i q] H].
  apply goes_on; [|intros; eauto 20 with goes]. simpl. destruct (pr_state q) eqn:E; auto with goes.
  apply goes_progress. step_payout. by apply pstep_export.
Qed.

Lemma funding_bind_goes s random id template share participants :
  goes progresses s (scriptless_funding_bind_template random id template share participants).
Proof.
  unfold scriptless_funding_bind_template. apply goes_after_framed; [exact _|auto with framed|intros identity].
  apply goes_unlocked, goes_try; [exact _|intros [i f] H]. simpl.
  apply goes_try; [exact _|intros _ Hc%fail_if_Ok]. apply negb_false_iff in Hc.
  do 7 (apply goes_try; [exact _|intros ? _]). case_bool_decide as E; [auto with goes|].
  apply goes_on; [|auto with goes]. apply goes_progress.
  assert (Hx : fr_state f = FundSt.Exported) by (by destruct (fr_state f)). step_funding.
  by apply fstep_template.
Qed.
Lemma payout_bind_goes s random id template share participants :
  goes progresses s (scriptless_payout_bind_template random id template share participants).
Proof.
  unfold scriptless_payout_bind_template. apply goes_after_framed; [exact _|auto with framed|intros identity].
  apply goes_unlocked, goes_try; [exact _|intros [i q] H]. simpl.
  apply goes_try; [exact _|intros _ Hc%fail_if_Ok]. apply negb_false_iff in Hc.
  do 7 (apply goes_try; [exact _|intros ? _]). case_bool_decide as E; [auto with goes|].
  apply goes_on; [|auto with goes]. apply goes_progress.
  assert (Hx : pr_state q = PaySt.ComponentsExposed) by (by destruct (pr_state q)). step_payout.
  by apply pstep_template.
Qed.

Lemma funding_abandon_goes s random id : goes progresses s (scriptless_funding_abandon_exposed random id).
Proof.
  unfold scriptless_funding_abandon_exposed. apply goes_unlocked, goes_try; [exact _|intros [i f] H].
  apply goes_on; [|auto with goes]. simpl. destruct (fr_state f) eqn:E; auto with goes;
    apply goes_progress; step_funding; apply fstep_abandon; rewrite E; auto.
Qed.
Lemma payout_abandon_goes s random id : goes progresses s (scriptless_payout_abandon_exposed random id).
Proof.
  unfold scriptless_payout_abandon_exposed. apply goes_unlocked, goes_try; [exact _|intros [i q] H].
  apply goes_on; [|auto with goes]. simpl. destruct (pr_state q) eqn:E; auto with goes;
    apply goes_progress; step_payout; apply pstep_abandon; rewrite E; auto.
Qed.

Lemma contract_op_goes s A (m : op A) : contract_op A m -> goes advances s m.
Proof.
  destruct 1; try first [apply funding_prepare_goes|apply payout_prepare_goes];
    (apply goes_weaken with progresses; [apply progresses_advances|]).
  - apply funding_point_goes.
  - apply funding_export_goes.
  - apply funding_bind_goes.
  - unfold scriptless_funding_signing_capability. eauto 20 with goes.
  - unfold scriptless_funding_cancel_unexposed. apply goes_unlocked, goes_try; [exact _|intros next H].
    apply goes_on; eauto with goes.
  - apply funding_abandon_goes.
  - apply payout_point_goes.
  - apply payout_export_goes.
  - apply payout_bind_goes.
  - unfold scriptless_payout_signing_capability. eauto 20 with goes.
  - unfold scriptless_payout_cancel_unexposed. apply goes_unlocked, goes_try; [exact _|intros next H].
    apply goes_on; eauto with goes.
  - apply payout_abandon_goes.
Qed.

(** ** Theorems: reservations follow their protocol *)

(** Any sequence of operations on contracts, failing ones included. *)
Definition contract_step self self' : Prop :=
  exists A (m : op A) r, contract_op A m /\ m self = (self', r).

(** C20 The reservations of a wallet follow their protocol.  Whatever operations on
    contracts run one after another, and whatever fails in them, every funding and
    payout reservation stays in the wallet and only takes steps of its state
    machine; what it was asked for and the outputs it holds never change; and once
    something of it may be known outside the wallet it is never cancelled and its
    contribution, its secrets and the session it is bound to stay what they are. *)
Theorem reservations_follow_their_protocol p g self self' s
    (Htracks : tracks p g self) (Hunlocked : self.(sv_unlocked) = Some s)
    (Hrun : rtc contract_step self self') :
  tracks p g self' /\ exists s', self'.(sv_unlocked) = Some s'
  /\ (forall i f, s.(ws_scriptless_funding_reservations) !! i = Some f ->
      exists f', s'.(ws_scriptless_funding_reservations) !! i = Some f' /\ rtc funding_step f f'
      /\ funding_terms f' = funding_terms f
      /\ (funding_exposed f = true ->
          funding_exposed f' = true /\ funding_commitments f' = funding_commitments f))
  /\ (forall i q, s.(ws_scriptless_payout_reservations) !! i = Some q ->
      exists q', s'.(ws_scriptless_payout_reservations) !! i = Some q' /\ rtc payout_step q q'
      /\ payout_terms q' = payout_terms q
      /\ (payout_exposed q = true ->
          payout_exposed q' = true /\ payout_commitments q' = payout_commitments q)).
Proof.
  assert (H : tracks p g self' /\ exists s', self'.(sv_unlocked) = Some s'
    /\ (forall i f, s.(ws_scriptless_funding_reservations) !! i = Some f ->
        exists f', s'.(ws_scriptless_funding_reservations) !! i = Some f' /\ rtc funding_step f f')
    /\ (forall i q, s.(ws_scriptless_payout_reservations) !! i = Some q ->
        exists q', s'.(ws_scriptless_payout_reservations) !! i = Some q' /\ rtc payout_step q q')).
  { revert s Hunlocked.
    induction Hrun as [self|self self1 self' (A & m & r & Hop & Hm) _ IH]; intros s Hs.
    - split; [done|]. exists s. split; [done|]. split; eauto using rtc_refl.
    - destruct (contract_op_goes s _ _ Hop _ _ _ _ _ Htracks Hs Hm) as (Ht & s1 & Hs1 & [F _] & [P _]).
      destruct (IH Ht s1 Hs1) as (Ht' & s' & Hs' & F' & P'). split; [done|]. exists s'. split; [done|]. split.
      + intros i f (f1 & Hf1 & S1)%F. destruct (F' i f1 Hf1) as (f' & Hf' & S2).
        exists f'. split; [done|]. by transitivity f1.
      + intros i q (q1 & Hq1 & S1)%P. destruct (P' i q1 Hq1) as (q' & Hq' & S2).
        exists q'. split; [done|]. by transitivity q1. }
  destruct H as (Ht & s' & Hs' & F & P). split; [done|]. exists s'. split; [done|]. split.
  - intros i f (f' & Hf & S)%F. exists f'.
    split; [done|]. split; [done|]. split; [by apply funding_steps_terms|by apply funding_steps_exposed].
  - intros i q (q' & Hq & S)%P. exists q'.
    split; [done|]. split; [done|]. split; [by apply payout_steps_terms|by apply payout_steps_exposed].
Qed.

(** ** Lemmas: what leaves the wallet *)

(** A run that succeeds with [s] in memory and on disk ends with a state in memory
    and on disk that satisfies [Q]. *)
Definition arrives s {A} (m : op A) (Q : A -> WalletState -> Prop) : Prop :=
  forall p g self self' a, tracks p g self -> in_step p s self -> m self = (self', Ok a) ->
  exists t, in_step p t self' /\ Q a t.

Lemma arrives_then s {A B} (m : op A) (k : A -> op B) Q1 Q :
  moves kept_tracking m -> arrives s m Q1 -> (forall a s1, Q1 a s1 -> arrives s1 (k a) Q) ->
  arrives s (mthen m k) Q.
Proof.
  intros Htr Hm Hk p g self self' b Ht Hin (self1 & a & H & Hr)%mthen_Ok.
  destruct (Hm _ _ _ _ _ Ht Hin H) as (s1 & Hin1 & Hq).
  eapply Hk; [exact Hq|by eapply Htr|exact Hin1|exact Hr].
Qed.
Lemma arrives_framed s {A} (m : op A) : moves framed m -> arrives s m (fun _ t => t = s).
Proof. intros Hm p g self self' a Ht Hin H%Hm. exists s. split; [by eapply framed_in_step|done]. Qed.
Lemma arrives_after s {A B} (m : op A) (k : A -> op B) Q :
  moves framed m -> (forall a, arrives s (k a) Q) -> arrives s (mthen m k) Q.
Proof.
  intros Hm Hk. eapply arrives_then; [|by apply arrives_framed|by intros a ? ->].
  intros ? ? ? H%Hm. by apply framed_tracking.
Qed.
Lemma arrives_unlocked s {B} (k : WalletState -> op B) Q : arrives s (k s) Q -> arrives s (mthen unlocked_state k) Q.
Proof.
  intros Hk p g self self' b Ht Hin (s1 & Hs & H)%mthen_unlocked. destruct Hin as (Hs' & Hin).
  rewrite Hs in Hs'. injection Hs' as ->. by eapply Hk.
Qed.
Lemma arrives_try s {A B} (x : result CErr.CoreError A) (k : A -> op B) Q :
  (forall a, x = Ok a -> arrives s (k a) Q) -> arrives s (mthen (try x) k) Q.
Proof. intros Hk p g self self' b Ht Hin (a & Ha & H)%mthen_try. by eapply Hk. Qed.
Lemma arrives_last s {A} (x : result CErr.CoreError A) (Q : A -> WalletState -> Prop) :
  (forall a, x = Ok a -> Q a s) -> arrives s (try x) Q.
Proof. intros H p g self self' a _ Hin [= <- Ha]. eauto. Qed.
Lemma arrives_ret s {A} (a : A) (Q : A -> WalletState -> Prop) : Q a s -> arrives s (mret a) Q.
Proof. intros H p g self self' b _ Hin [= <- <-]. eauto. Qed.
Lemma arrives_commit s random next :
  arrives s (commit random next) (fun _ t => t = committed_state next s.(ws_generation)).
Proof.
  intros p g self self' u Ht Hin H. pose proof Hin as (Hs & _).
  destruct (commit_steps _ _ _ _ _ _ _ _ Ht Hs H) as [Hin1 _]. eauto.
Qed.
Lemma arrives_weaken s {A} (m : op A) (Q Q' : A -> WalletState -> Prop) :
  (forall a t, Q a t -> Q' a t) -> arrives s m Q -> arrives s m Q'.
Proof. intros H Hm p g self self' a Ht Hin Hr. destruct (Hm _ _ _ _ _ Ht Hin Hr) as (t & ? & ?). eauto. Qed.

(** The state has the reservation, exposed and with [P]. *)
Definition recorded_funding t id (P : ScriptlessFundingReservation -> Prop) : Prop :=
  exists i f, funding_record t id = Ok (i, f) /\ funding_exposed f = true /\ P f.
Definition recorded_payout t id (P : ScriptlessPayoutReservation -> Prop) : Prop :=
  exists i q, payout_record t id = Ok (i, q) /\ payout_exposed q = true /\ P q.

(** The operations whose results leave the wallet, and what must be recorded of a
    result: the session a kernel point is for, the contribution that a composition
    lists, the template a capability signs. *)
Inductive exposes : forall A, op A -> (A -> WalletState -> Prop) -> Prop :=
| ex_funding_point d random id share :
    exposes _ (scriptless_funding_prepare_kernel_excess_point d random id share) (fun point t =>
      recorded_funding t id (fun f =>
        f.(fr_session_share_binding_digest) = Some share.(ssh_binding).(sb_digest)
        /\ f.(fr_session_id) = share.(ssh_binding).(sb_session_id)
        /\ exists key, public_key_from_compressed_bytes f.(fr_wallet_excess_public_key) = Some key
           /\ funding_kernel_excess_point share key = Some point))
| ex_funding_export d random id :
    exposes _ (scriptless_funding_export d random id) (fun composition t =>
      recorded_funding t id (fun f => exists chain_id,
        scriptless_funding_composition f chain_id = Ok composition))
| ex_funding_capability id :
    exposes _ (scriptless_funding_signing_capability id) (fun capability t =>
      recorded_funding t id (fun f =>
        f.(fr_template_hash) = Some capability.(ssc_context).(bsc_template_hash)
        /\ f.(fr_session_id) = capability.(ssc_context).(bsc_session_id)
        /\ f.(fr_wallet_excess_public_key) = share_public_key capability.(ssc_share)))
| ex_payout_point d random id share :
    exposes _ (scriptless_payout_prepare_kernel_excess_point d random id share) (fun point t =>
      recorded_payout t id (fun q =>
        q.(pr_session_share_binding_digest) = Some share.(ssh_binding).(sb_digest)
        /\ q.(pr_session_id) = share.(ssh_binding).(sb_session_id)
        /\ exists key, public_key_from_compressed_bytes q.(pr_payout_excess_public_key) = Some key
           /\ spend_kernel_excess_point share key = Some point))
| ex_payout_export d random id :
    exposes _ (scriptless_payout_export d random id) (fun composition t =>
      recorded_payout t id (fun q => exists chain_id,
        scriptless_payout_composition q chain_id = Ok composition))
| ex_payout_capability id :
    exposes _ (scriptless_payout_signing_capability id) (fun capability t =>
      recorded_payout t id (fun q =>
        q.(pr_template_hash) = Some capability.(ssc_context).(bsc_template_hash)
        /\ q.(pr_session_id) = capability.(ssc_context).(bsc_session_id)
        /\ q.(pr_payout_excess_public_key) = share_public_key capability.(ssc_share))).

Lemma composition_composable f chain_id c :
  scriptless_funding_composition f chain_id = Ok c -> composable f.(fr_state) = true.
Proof.
  unfold scriptless_funding_composition. intros [H%fail_if_Ok _]%then_Ok.
  rewrite <- !orb_assoc in H. by apply orb_false_iff in H as [H%negb_false_iff _].
Qed.
Lemma payout_composition_composable q chain_id c :
  scriptless_payout_composition q chain_id = Ok c -> payout_composable q.(pr_state) = true.
Proof.
  unfold scriptless_payout_composition. intros [H%fail_if_Ok _]%then_Ok.
  rewrite <- !orb_assoc in H. by apply orb_false_iff in H as [H%negb_false_iff _].
Qed.
Lemma composable_exposed f : composable f.(fr_state) = true -> funding_exposed f = true.
Proof. unfold funding_exposed. by destruct (fr_state f). Qed.
Lemma payout_composable_exposed q : payout_composable q.(pr_state) = true -> payout_exposed q = true.
Proof. unfold payout_exposed. by destruct (pr_state q). Qed.

Definition anything {A} (a : A) (t : WalletState) : Prop := True.
Lemma arrives_framed_any s {A} (m : op A) : moves framed m -> arrives s m anything.
Proof. intros Hm. eapply arrives_weaken; [|by apply arrives_framed]. done. Qed.
Lemma arrives_commit_any s random next : arrives s (commit random next) anything.
Proof. eapply arrives_weaken; [|by apply arrives_commit]. done. Qed.

Hint Resolve arrives_commit_any : arrives.
Hint Extern 1 (arrives _ (mthen unlocked_state _) _) => apply arrives_unlocked; simpl : arrives.
Hint Extern 2 (arrives _ (mthen (try _) _) _) => apply arrives_try; intros ? ? : arrives.
Hint Extern 2 (arrives _ (mthen the_backend _) _) => apply arrives_after; [apply framed_the_backend|intros ?] : arrives.
Hint Extern 4 (arrives _ (try _) anything) => apply arrives_framed_any, framed_try : arrives.
Hint Extern 4 (arrives _ (mret _) anything) => apply arrives_framed_any, framed_ret : arrives.

Lemma funding_resume_arrives s d id : arrives s (scriptless_funding_resume_preparation d id) anything.
Proof.
  unfold scriptless_funding_resume_preparation. apply arrives_unlocked, arrives_try.
  intros [i f] _. simpl. destruct (fr_state f); eauto 20 with arrives.
Qed.
Lemma payout_resume_arrives s d id : arrives s (scriptless_payout_resume_preparation d id) anything.
Proof.
  unfold scriptless_payout_resume_preparation. apply arrives_unlocked, arrives_try.
  intros [i q] _. simpl. destruct (pr_state q); eauto 20 with arrives.
Qed.

Lemma funding_record_set s id i f (change : ScriptlessFundingReservation -> ScriptlessFundingReservation) :
  funding_record s id = Ok (i, f) -> (forall r, (change r).(fr_id) = r.(fr_id)) ->
  funding_record (set_funding i change s) id = Ok (i, change f).
Proof.
  unfold funding_record, find_scriptless_funding_index, set_funding. intros H Hid.
  apply rbind_Ok in H as (j & Hj%ok_or_Ok & H). apply rbind_Ok in H as (x & Hx%ok_or_Ok & [= -> ->]).
  simpl. rewrite position_alter by (intros r; by rewrite Hid). rewrite Hj. simpl.
  rewrite list_lookup_alter_eq, Hx. done.
Qed.
Lemma payout_record_set s id i q (change : ScriptlessPayoutReservation -> ScriptlessPayoutReservation) :
  payout_record s id = Ok (i, q) -> (forall r, (change r).(pr_id) = r.(pr_id)) ->
  payout_record (set_payout i change s) id = Ok (i, change q).
Proof.
  unfold payout_record, find_scriptless_payout_index, set_payout. intros H Hid.
  apply rbind_Ok in H as (j & Hj%ok_or_Ok & H). apply rbind_Ok in H as (x & Hx%ok_or_Ok & [= -> ->]).
  simpl. rewrite position_alter by (intros r; by rewrite Hid). rewrite Hj. simpl.
  rewrite list_lookup_alter_eq, Hx. done.
Qed.
Lemma share_binding_Ok chain_id session_id share binding :
  validate_session_share_binding chain_id session_id share = Ok binding ->
  binding.1 = share.(ssh_binding).(sb_digest) /\ session_id = share.(ssh_binding).(sb_session_id).
Proof.
  unfold validate_session_share_binding. intros [H%fail_if_Ok [= <-]]%then_Ok. split; [done|].
  do 7 apply orb_false_iff in H as [H _]. apply orb_false_iff in H as [_ H].
  by apply negb_false_iff, bool_decide_eq_true in H.
Qed.
Lemma persisted_binding_Ok digest position binding u :
  require_persisted_binding digest position binding = Ok u -> digest = Some binding.1.
Proof.
  unfold require_persisted_binding. intros H%fail_if_Ok. apply orb_false_iff in H as [H _].
  by apply negb_false_iff, bool_decide_eq_true in H.
Qed.
Lemma parse_key_Ok error b key :
  parse_excess_public_key error b = Ok key -> public_key_from_compressed_bytes b = Some key.
Proof. unfold parse_excess_public_key. by intros [_ H%ok_or_Ok]%then_Ok. Qed.

Ltac tracked := first [apply tracking_commit|apply tracking_try|apply tracking_ret].
(** The reservation that is found again after the commit of a step. *)
Lemma arrives_step s random id i f (change : ScriptlessFundingReservation -> ScriptlessFundingReservation) session :
  funding_record s id = Ok (i, f) -> (forall r, (change r).(fr_id) = r.(fr_id)) ->
  funding_exposed (change f) = true -> (change f).(fr_session_id) = session ->
  arrives s (commit random (set_funding i change s))
    (fun _ t => recorded_funding t id (fun f => f.(fr_session_id) = session)).
Proof.
  intros H Hid He Hs. eapply arrives_weaken; [|apply arrives_commit]. intros u t ->.
  exists i, (change f). split; [by apply (funding_record_set s)|done].
Qed.
Lemma arrives_payout_step s random id i q (change : ScriptlessPayoutReservation -> ScriptlessPayoutReservation) session :
  payout_record s id = Ok (i, q) -> (forall r, (change r).(pr_id) = r.(pr_id)) ->
  payout_exposed (change q) = true -> (change q).(pr_session_id) = session ->
  arrives s (commit random (set_payout i change s))
    (fun _ t => recorded_payout t id (fun q => q.(pr_session_id) = session)).
Proof.
  intros H Hid He Hs. eapply arrives_weaken; [|apply arrives_commit]. intros u t ->.
  exists i, (change q). split; [by apply (payout_record_set s)|done].
Qed.

Lemma funding_point_arrives s d random id share :
  arrives s (scriptless_funding_prepare_kernel_excess_point d random id share) (fun point t =>
    recorded_funding t id (fun f =>
      f.(fr_session_share_binding_digest) = Some share.(ssh_binding).(sb_digest)
      /\ f.(fr_session_id) = share.(ssh_binding).(sb_session_id)
      /\ exists key, public_key_from_compressed_bytes f.(fr_wallet_excess_public_key) = Some key
         /\ funding_kernel_excess_point share key = Some point)).
Proof.
  unfold scriptless_funding_prepare_kernel_excess_point.
  eapply arrives_then; [apply tracking_funding_resume|apply funding_resume_arrives|intros _ s1 _].
  apply arrives_after; [apply framed_identity|intros identity].
  apply arrives_unlocked, arrives_try. intros [i f] Hf. apply arrives_try. intros binding Hb. simpl in *.
  apply share_binding_Ok in Hb as [Hd Hs].
  eapply arrives_then with (Q1 := fun _ t => recorded_funding t id (fun r => r.(fr_session_id) = f.(fr_session_id))).
  - destruct (fr_state f); tracked.
  - assert (Hk : funding_exposed f = true ->
      arrives s1 (try (require_persisted_binding (fr_session_share_binding_digest f) (fr_participant_position f) binding))
        (fun _ t => recorded_funding t id (fun r => r.(fr_session_id) = f.(fr_session_id)))).
    { intros He. apply arrives_last. intros u _. by exists i, f. }
    unfold funding_exposed in Hk. destruct (fr_state f); try (by apply arrives_last); auto.
    by apply arrives_step with f.
  - intros u s2 (j & f2 & Hf2 & He & Hs2). apply arrives_unlocked, arrives_try. intros [j' f2'] Hf2'.
    rewrite Hf2 in Hf2'. injection Hf2' as <- <-. apply arrives_try. intros u2 Hp%persisted_binding_Ok.
    apply arrives_try. intros key Hkey%parse_key_Ok. apply arrives_last. intros point Hpt%ok_or_Ok.
    exists j, f2. simpl in *. split; [done|]. split; [done|]. split; [by rewrite Hp, Hd|].
    split; [congruence|eauto].
Qed.
Lemma payout_point_arrives s d random id share :
  arrives s (scriptless_payout_prepare_kernel_excess_point d random id share) (fun point t =>
    recorded_payout t id (fun q =>
      q.(pr_session_share_binding_digest) = Some share.(ssh_binding).(sb_digest)
      /\ q.(pr_session_id) = share.(ssh_binding).(sb_session_id)
      /\ exists key, public_key_from_compressed_bytes q.(pr_payout_excess_public_key) = Some key
         /\ spend_kernel_excess_point share key = Some point)).
Proof.
  unfold scriptless_payout_prepare_kernel_excess_point.
  eapply arrives_then; [apply tracking_payout_resume|apply payout_resume_arrives|intros _ s1 _].
  apply arrives_after; [apply framed_identity|intros identity].
  apply arrives_unlocked, arrives_try. intros [i q] Hq. apply arrives_try. intros binding Hb. simpl in *.
  apply share_binding_Ok in Hb as [Hd Hs].
  eapply arrives_then with (Q1 := fun _ t => recorded_payout t id (fun r => r.(pr_session_id) = q.(pr_session_id))).
  - destruct (pr_state q); tracked.
  - assert (Hk : payout_exposed q = true ->
      arrives s1 (try (require_persisted_binding (pr_session_share_binding_digest q) (pr_participant_position q) binding))
        (fun _ t => recorded_payout t id (fun r => r.(pr_session_id) = q.(pr_session_id)))).
    { intros He. apply arrives_last. intros u _. by exists i, q. }
    unfold payout_exposed in Hk. destruct (pr_state q); try (by apply arrives_last); auto.
    by apply arrives_payout_step with q.
  - intros u s2 (j & f2 & Hf2 & He & Hs2). apply arrives_unlocked, arrives_try. intros [j' f2'] Hf2'.
    rewrite Hf2 in Hf2'. injection Hf2' as <- <-. apply arrives_try. intros u2 Hp%persisted_binding_Ok.
    apply arrives_try. intros key Hkey%parse_key_Ok. apply arrives_last. intros point Hpt%ok_or_Ok.
    exists j, f2. simpl in *. split; [done|]. split; [done|]. split; [by rewrite Hp, Hd|].
    split; [congruence|eauto].
Qed.

Lemma funding_export_arrives s d random id :
  arrives s (scriptless_funding_export d random id) (fun composition t =>
    recorded_funding t id (fun f => exists chain_id, scriptless_funding_composition f chain_id = Ok composition)).
Proof.
  unfold scriptless_funding_export.
  eapply arrives_then; [apply tracking_funding_resume|apply funding_resume_arrives|intros _ s1 _].
  apply arrives_after; [apply framed_identity|intros identity].
  apply arrives_unlocked, arrives_try. intros [i f] _. simpl. eapply arrives_then with (Q1 := anything).
  - destruct (fr_state f); tracked.
  - destruct (fr_state f); auto with arrives.
  - intros u s2 _. apply arrives_unlocked, arrives_try. intros [j f2] Hf2.
    apply arrives_last. intros c Hc. exists j, f2. split; [done|].
    split; [by eapply composable_exposed, composition_composable|eauto].
Qed.
Lemma payout_export_arrives s d random id :
  arrives s (scriptless_payout_export d random id) (fun composition t =>
    recorded_payout t id (fun q => exists chain_id, scriptless_payout_composition q chain_id = Ok composition)).
Proof.
  unfold scriptless_payout_export.
  eapply arrives_then; [apply tracking_payout_resume|apply payout_resume_arrives|intros _ s1 _].
  apply arrives_after; [apply framed_identity|intros identity].
  apply arrives_unlocked, arrives_try. intros [i q] _. simpl. eapply arrives_then with (Q1 := anything).
  - destruct (pr_state q); tracked.
  - destruct (pr_state q); auto with arrives.
  - intros u s2 _. apply arrives_unlocked, arrives_try. intros [j q2] Hq2.
    apply arrives_last. intros c Hc. exists j, q2. split; [done|].
    split; [by eapply payout_composable_exposed, payout_composition_composable|eauto].
Qed.

Lemma bound_context_Ok chain_id session_id digest position template_hash context :
  bound_context chain_id session_id digest position template_hash = Ok context ->
  template_hash = Some context.(bsc_template_hash) /\ context.(bsc_session_id) = session_id.
Proof. unfold bound_context. intros H. res_inv. by subst. Qed.
Lemma signing_capability_Ok error contribution context capability :
  from_recovery (signing_capability error contribution context) = Ok capability ->
  capability.(ssc_context) = context.
Proof.
  unfold from_recovery. destruct (signing_capability _ _ _) eqn:E; [|done]. intros [= <-].
  unfold signing_capability in E. res_inv. by subst.
Qed.

Lemma funding_capability_arrives s id :
  arrives s (scriptless_funding_signing_capability id) (fun capability t =>
    recorded_funding t id (fun f =>
      f.(fr_template_hash) = Some capability.(ssc_context).(bsc_template_hash)
      /\ f.(fr_session_id) = capability.(ssc_context).(bsc_session_id)
      /\ f.(fr_wallet_excess_public_key) = share_public_key capability.(ssc_share))).
Proof.
  unfold scriptless_funding_signing_capability. apply arrives_after; [apply framed_identity|intros identity].
  apply arrives_unlocked, arrives_try. intros [i f] Hf. apply arrives_try. intros _ He%fail_if_Ok.
  apply negb_false_iff, bool_decide_eq_true in He.
  apply arrives_try. intros context _. apply arrives_try. intros bound [Hh Hs]%bound_context_Ok.
  apply arrives_try. intros capability Hc%signing_capability_Ok. apply arrives_try. intros _ Hk%fail_if_Ok.
  apply negb_false_iff, bool_decide_eq_true in Hk. apply arrives_ret. exists i, f.
  split; [done|]. simpl in *. split; [unfold funding_exposed; by rewrite He|]. by rewrite Hc.
Qed.
Lemma payout_capability_arrives s id :
  arrives s (scriptless_payout_signing_capability id) (fun capability t =>
    recorded_payout t id (fun q =>
      q.(pr_template_hash) = Some capability.(ssc_context).(bsc_template_hash)
      /\ q.(pr_session_id) = capability.(ssc_context).(bsc_session_id)
      /\ q.(pr_payout_excess_public_key) = share_public_key capability.(ssc_share))).
Proof.
  unfold scriptless_payout_signing_capability. apply arrives_after; [apply framed_identity|intros identity].
  apply arrives_unlocked, arrives_try. intros [i q] Hq. apply arrives_try. intros _ He%fail_if_Ok.
  apply negb_false_iff, bool_decide_eq_true in He.
  apply arrives_try. intros context _. apply arrives_try. intros bound [Hh Hs]%bound_context_Ok.
  apply arrives_try. intros capability Hc%signing_capability_Ok. apply arrives_try. intros _ Hk%fail_if_Ok.
  apply negb_false_iff, bool_decide_eq_true in Hk. apply arrives_ret. exists i, q.
  split; [done|]. simpl in *. split; [unfold payout_exposed; by rewrite He|]. by rewrite Hc.
Qed.

(** C21 What leaves the wallet is on disk first.  When a kernel point, a composition
    or a signing capability of a contract is returned, the directory opens with the
    password to a state in which the reservation is recorded as exposed and holds
    what was returned: the session the point is for, the contribution the
    composition lists, the template and the key the capability signs with. *)
Theorem exposures_are_recorded_first p g A (m : op A) (Q : A -> WalletState -> Prop) self self' s a
    (Hop : exposes A m Q) (Htracks : tracks p g self) (Hstep : in_step p s self)
    (Hrun : m self = (self', Ok a)) :
  exists t w, self'.(sv_location) = Some w /\ opens_to p t w.(w_disk) /\ Q a t.
Proof.
  assert (H : arrives s m Q).
  { destruct Hop; [apply funding_point_arrives|apply funding_export_arrives|apply funding_capability_arrives
                  |apply payout_point_arrives|apply payout_export_arrives|apply payout_capability_arrives]. }
  destruct (H _ _ _ _ _ Htracks Hstep Hrun) as (t & (_ & _ & Ht & w & Hw & [r Hp]) & Hq).
  exists t, w. split; [done|]. split; [by eapply opens_with_loads|done].
Qed.
End contracts.

(** ** Lemmas: reserving and giving back *)

Lemma select_debit_Ok debit cands sel total sel' total' :
  total = total_value sel ->
  select_debit debit cands sel total = Ok (sel', total') ->
  exists n, (n <= length cands)%nat /\ sel' = sel ++ take n cands /\ total' = total_value sel'
  /\ (forall k, (0 < k < n)%nat -> total_value (sel ++ take k cands) < debit).
Proof.
  intros Ht. revert sel total Ht. induction cands as [|o cands IH]; intros sel total -> H; simpl in H.
  - injection H as <- <-. exists 0%nat. rewrite app_nil_r. split; [done|]. split; [done|]. split; [done|lia].
  - apply rbind_Ok in H as (t & [-> Hle]%ok_or_Ok%checked_add_Some & H).
    rewrite <- total_value_snoc in H. destruct (debit <=? _) eqn:E.
    + injection H as <- <-. exists 1%nat. simpl. rewrite firstn_O.
      split; [lia|]. split; [done|]. split; [done|lia].
    + apply N.leb_gt in E. destruct (IH _ _ eq_refl H) as (n & Hn & -> & -> & Hk).
      exists (S n). simpl. rewrite <- (assoc_L (++)). split; [lia|]. split; [done|]. split; [done|].
      intros [|k] Hb; [lia|]. simpl. destruct k as [|k]; [by rewrite firstn_O|].
      change (o :: take (S k) cands) with ([o] ++ take (S k) cands).
      rewrite (assoc_L (++)). apply Hk. lia.
Qed.

(** The input that a funding reservation takes. *)
Definition funding_free (o : OutputRecord) : Prop := o.(out_reserved_by) = None /\ o.(out_state) = Out.Confirmed.
Lemma reserve_inputs_Ok id ids outputs outputs' u :
  for_each_mut (reserve_input id ids) outputs = (outputs', Ok u) ->
  outputs' = map (fun o => if bool_decide (o.(out_id) ∈ ids) then reserved_for id o else o) outputs
  /\ forall o, o ∈ outputs -> o.(out_id) ∈ ids -> funding_free o.
Proof.
  revert outputs'. induction outputs as [|o l IH]; intros outputs' H; simpl in H.
  - res_inv. split; [done|]. intros o Ho. by apply not_elem_of_nil in Ho.
  - destruct (reserve_input id ids o) as [o' [[]|]] eqn:Eo; [|done].
    destruct (for_each_mut _ l) as [l' r] eqn:El. injection H as <- ->.
    destruct (IH _ eq_refl) as [-> Hfree]. unfold reserve_input in Eo. simpl.
    case_bool_decide as Hin.
    + destruct (_ || _) eqn:Er; [done|]. injection Eo as <-. split; [done|].
      apply orb_false_iff in Er as [Er1 Er2]. apply negb_false_iff, bool_decide_eq_true in Er2.
      intros x [->|Hx]%elem_of_cons; [|by apply Hfree]. intros _. split; [|done].
      by destruct (out_reserved_by o).
    + injection Eo as <-. split; [done|].
      intros x [->|Hx]%elem_of_cons; [done|by apply Hfree].
Qed.

(** The wallet after the next change coordinate was reserved for a value, if any. *)
Definition change_reserved (value : N) (s : WalletState) : WalletState :=
  if value =? 0 then s
  else let index := s.(ws_recovery_allocation_floors).(raf_change) + 1 in
       s <| ws_recovery_allocation_floors ::= fun floors => floors <| raf_change := index |> |>
         <| ws_non_reuse_floor ::= fun floor => N.max floor index |>.

(** What a new funding reservation has done. *)
Record funding_reserved (request : ScriptlessFundingReservationRequestV1) (id change_id tip : N)
    (s s' : WalletState) (selected : list OutputRecord) (f : ScriptlessFundingReservation) : Prop := {
  frd_selected : selected = take (length selected) (spendable_outputs s);
  frd_value : total_value selected = request.(frq_local_debit_noms) + f.(fr_change_value_noms);
  frd_least : forall k, (0 < k < length selected)%nat ->
    total_value (take k (spendable_outputs s)) < request.(frq_local_debit_noms);
  frd_free : forall o, o ∈ s.(ws_outputs) -> o.(out_id) ∈ map out_id selected -> funding_free o;
  frd_outputs : s'.(ws_outputs)
    = map (fun o => if bool_decide (o.(out_id) ∈ map out_id selected) then reserved_for id o else o) s.(ws_outputs);
  frd_record : s'.(ws_scriptless_funding_reservations) = s.(ws_scriptless_funding_reservations) ++ [f];
  frd_held : f.(fr_id) = id /\ f.(fr_state) = FundSt.Reserved /\ f.(fr_reserved_output_ids) = map out_id selected;
  frd_terms : f.(fr_session_id) = request.(frq_session_id)
    /\ f.(fr_shared_output_commitment) = request.(frq_shared_output_commitment)
    /\ f.(fr_local_debit_noms) = request.(frq_local_debit_noms)
    /\ f.(fr_funding_fee_noms) = request.(frq_funding_fee_noms);
  frd_inputs : map Some f.(fr_input_commitments) = map out_commitment selected;
  frd_change : f.(fr_change_output_id) = (if f.(fr_change_value_noms) =? 0 then None else Some change_id)
    /\ f.(fr_change_derivation_index)
       = (if f.(fr_change_value_noms) =? 0 then None else Some (s.(ws_recovery_allocation_floors).(raf_change) + 1))
    /\ (f.(fr_change_value_noms) <> 0 -> s.(ws_recovery_allocation_floors).(raf_change) + 1 <= u64_max);
  frd_unprepared : f.(fr_version) = SCRIPTLESS_FUNDING_RESERVATION_VERSION /\ f.(fr_created_at_height) = tip
    /\ f.(fr_change_commitment) = None /\ f.(fr_change_output_bytes) = [] /\ f.(fr_offset_contribution) = None
    /\ f.(fr_wallet_excess_public_key) = [] /\ f.(fr_template_hash) = None
    /\ f.(fr_session_share_binding_digest) = None /\ f.(fr_participant_position) = None
    /\ f.(fr_template_participants) = None /\ f.(fr_private_context) = None;
  frd_shape : len selected <= request.(frq_expected_input_count)
    /\ f.(fr_expected_input_count) = request.(frq_expected_input_count)
    /\ f.(fr_expected_output_count) = request.(frq_expected_output_count);
  frd_rest : s' = (change_reserved f.(fr_change_value_noms) s)
                    <| ws_outputs := s'.(ws_outputs) |>
                    <| ws_scriptless_funding_reservations := s'.(ws_scriptless_funding_reservations) |>;
}.

Lemma change_reserved_keeps value s :
  let s' := change_reserved value s in
  s'.(ws_outputs) = s.(ws_outputs) /\ s'.(ws_transactions) = s.(ws_transactions)
  /\ s'.(ws_private_output_blindings) = s.(ws_private_output_blindings)
  /\ s'.(ws_scriptless_funding_reservations) = s.(ws_scriptless_funding_reservations)
  /\ s'.(ws_scriptless_payout_reservations) = s.(ws_scriptless_payout_reservations) /\ floors_le s s'.
Proof.
  unfold change_reserved. destruct (value =? 0); [repeat (split; [done|]); unfold floors_le; repeat split; intros; lia|].
  unfold floors_le. simpl. repeat split; [lia|lia|]. intros []; simpl; lia.
Qed.
Lemma funding_keeps request id change_id tip s s' selected f :
  funding_reserved request id change_id tip s s' selected f ->
  s'.(ws_transactions) = s.(ws_transactions)
  /\ s'.(ws_private_output_blindings) = s.(ws_private_output_blindings)
  /\ s'.(ws_scriptless_payout_reservations) = s.(ws_scriptless_payout_reservations)
  /\ floors_le s s'.
Proof.
  intros H. pose proof (frd_rest _ _ _ _ _ _ _ _ H) as Hr.
  destruct (change_reserved_keeps f.(fr_change_value_noms) s) as (_ & Et & Eb & _ & Ep & Hfl).
  revert Hr Et Eb Ep Hfl. generalize (change_reserved f.(fr_change_value_noms) s). intros s1 Hr Et Eb Ep Hfl.
  split; [by rewrite <-Et, Hr|]. split; [by rewrite <-Eb, Hr|]. split; [by rewrite <-Ep, Hr|]. rewrite Hr. exact Hfl.
Qed.

Lemma commitments_Ok (selected : list OutputRecord) cs :
  foldM (fun done output => let? c := ok_or output.(out_commitment) CErr.UnsupportedSpendingEvidence in
                            Ok (done ++ [c])) selected [] = Ok cs ->
  map Some cs = map out_commitment selected.
Proof.
  apply (foldM_inv (fun done (acc : list bytes) => map Some acc = map out_commitment done)); [done|].
  intros pre o acc acc' Hacc (c & Hc%ok_or_Ok & [= <-])%rbind_Ok.
  by rewrite !map_app, Hacc; simpl; rewrite Hc.
Qed.

Lemma reserve_funding_spec request id change_id tip s s' :
  reserve_funding request id change_id tip s = Ok s' ->
  exists selected f, funding_reserved request id change_id tip s s' selected f.
Proof.
  intros Hrun. unfold reserve_funding in Hrun. apply rbind_Ok in Hrun as ([selected total] & Hsel & H).
  apply then_Ok in H as [Hle%fail_if_Ok%N.ltb_ge H]. apply then_Ok in H as [Hshape H].
  apply rbind_Ok in H as ([s1 change] & H1 & H). apply rbind_Ok in H as (cs & Hcs%commitments_Ok & H).
  destruct (for_each_mut _ _) as [outputs r] eqn:Ho. apply rbind_Ok in H as ([] & -> & [= <-]).
  assert (Hn : exists n, (n <= length (spendable_outputs s))%nat /\ selected = take n (spendable_outputs s)
    /\ total = total_value selected
    /\ forall k, (0 < k < n)%nat -> total_value (take k (spendable_outputs s)) < request.(frq_local_debit_noms)).
  { destruct (frq_local_debit_noms request =? 0) eqn:Ez.
    - injection Hsel as <- <-. exists 0%nat. rewrite firstn_O. split; [lia|]. split; [done|]. split; [done|lia].
    - apply select_debit_Ok in Hsel as (n & Hn & -> & -> & Hk); [|done]. by exists n. }
  destruct Hn as (n & Hn & Hsel' & -> & Hleast).
  assert (Hlen : length selected = n) by (rewrite Hsel', length_take; lia).
  set (value := total_value selected - frq_local_debit_noms request) in *.
  assert (Hs1 : s1 = change_reserved value s
    /\ change = (if value =? 0 then None else Some (s.(ws_recovery_allocation_floors).(raf_change) + 1))
    /\ (value <> 0 -> s.(ws_recovery_allocation_floors).(raf_change) + 1 <= u64_max)).
  { unfold change_reserved. destruct (N.eqb_spec value 0) as [Ez|Ez]; [by injection H1 as <- <-|].
    destruct (reserve_recovery_coordinate 0 ROC.Change s) as [s2 r2] eqn:E2.
    apply rbind_Ok in H1 as (c & Hc & [= <- <-]).
    unfold from_domain in Hc. destruct r2 as [c'|]; [injection Hc as ->|done].
    by apply reserve_Ok in E2 as (-> & Hmax & ->). }
  destruct Hs1 as (-> & -> & Hmax).
  destruct (change_reserved_keeps value s) as (Eo & _ & _ & Ef & _). rewrite Eo in Ho.
  apply reserve_inputs_Ok in Ho as [-> Hfree].
  eexists selected, (reserved_funding id tip request selected cs value _ _).
  split; simpl; rewrite ?Ef; try reflexivity; auto.
  - by rewrite Hlen.
  - lia.
  - by rewrite Hlen.
  - split; [|done]. by destruct (value =? 0).
  - repeat (split; [done|]). done.
  - unfold validate_scriptless_funding_local_shape in Hshape.
    apply rbind_Ok in Hshape as (m & _ & Hb%fail_if_Ok). apply orb_false_iff in Hb as [Hb%N.ltb_ge _]. done.
Qed.


(** *** Giving the inputs back *)

Definition given_back (o : OutputRecord) : OutputRecord :=
  o <| out_reserved_by := None |> <| out_state := Out.Confirmed |>.

(** With identifiers of their own, an identifier has one position. *)
Lemma unique_positions l id i o :
  NoDup (map out_id l) -> l !! i = Some o -> o.(out_id) = id ->
  positions (fun o => o.(out_id) =? id) l = [i].
Proof.
  revert i. induction l as [|x l IH]; intros i Hnd Hi Hid; [done|]. simpl in Hnd.
  apply NoDup_cons in Hnd as [Hx Hnd]. simpl. destruct i as [|i]; simpl in Hi.
  - injection Hi as ->. rewrite Hid, N.eqb_refl. f_equal.
    assert (E : positions (fun o => out_id o =? id) l = []); [|by rewrite E].
    apply positions_nil. intros y Hy. apply N.eqb_neq. intros E. apply Hx. rewrite Hid, <- E.
    apply list_elem_of_fmap. eauto.
  - assert (Hne : out_id x <> id).
    { intros E. apply Hx. rewrite E, <- Hid. apply list_elem_of_fmap. eauto using list_elem_of_lookup_2. }
    apply N.eqb_neq in Hne. rewrite Hne. by rewrite (IH i Hnd Hi Hid).
Qed.

Lemma release_input_Ok rid l id o :
  NoDup (map out_id l) -> o ∈ l -> o.(out_id) = id -> o.(out_reserved_by) = Some rid ->
  o.(out_state) = Out.PendingOutgoing ->
  release_input rid l id = Ok (map (fun o => if o.(out_id) =? id then given_back o else o) l).
Proof.
  intros Hnd [i Hi]%list_elem_of_lookup Hid Hr Hs.
  pose proof (unique_positions _ _ _ _ Hnd Hi Hid) as Hu.
  assert (Hp : position (fun o => o.(out_id) =? id) l = Some i).
  { destruct (position _ l) as [j|] eqn:E.
    - apply position_Some in E as [Hy _]. apply positions_lookup in Hy.
      rewrite Hu in Hy. by apply list_elem_of_singleton in Hy as ->.
    - rewrite position_None in E. specialize (E o (list_elem_of_lookup_2 _ _ _ Hi)).
      by rewrite Hid, N.eqb_refl in E. }
  unfold release_input. rewrite Hp. simpl. rewrite Hi. simpl. rewrite Hr, Hs, !bool_decide_eq_true_2 by done.
  simpl. f_equal. rewrite <- (alter_map_unique given_back _ _ i Hu).
  exact (insert_as_alter given_back l i o Hi).
Qed.

Lemma if_bool_decide_iff {A} (P Q : Prop) `{Decision P, Decision Q} (a b : A) :
  (P <-> Q) -> (if bool_decide P then a else b) = (if bool_decide Q then a else b).
Proof. intros H'. by rewrite (bool_decide_ext P Q H'). Qed.

Lemma release_inputs_Ok rid ids : forall l,
  NoDup (map out_id l) -> NoDup ids ->
  (forall id, id ∈ ids -> exists o, o ∈ l /\ o.(out_id) = id /\ o.(out_reserved_by) = Some rid
                                  /\ o.(out_state) = Out.PendingOutgoing) ->
  foldM (release_input rid) ids l
  = Ok (map (fun o => if bool_decide (o.(out_id) ∈ ids) then given_back o else o) l).
Proof.
  induction ids as [|id ids IH]; intros l Hnd Hids Hh; simpl.
  - f_equal. symmetry. apply map_id_on. by intros o _.
  - apply NoDup_cons in Hids as [Hid Hids].
    destruct (Hh id (list_elem_of_here _ _)) as (o & Ho & Hoid & Hr & Hs).
    rewrite (release_input_Ok rid l id o) by done. simpl.
    assert (Hm : map out_id (map (fun o => if out_id o =? id then given_back o else o) l) = map out_id l).
    { rewrite map_map. apply map_ext. intros x. by destruct (_ =? _). }
    rewrite IH; [|by rewrite Hm|done|].
    + f_equal. rewrite map_map. apply map_ext. intros x. destruct (out_id x =? id) eqn:E.
      * apply N.eqb_eq in E. simpl. rewrite bool_decide_eq_false_2 by (by rewrite E).
        by rewrite bool_decide_eq_true_2 by (rewrite E; apply list_elem_of_here).
      * apply N.eqb_neq in E. apply if_bool_decide_iff. set_solver.
    + intros id' Hid'. destruct (Hh id' (list_elem_of_further _ _ _ Hid')) as (o' & Ho' & E' & Hr' & Hs').
      exists o'. split; [|done]. apply list_elem_of_fmap. exists o'. split; [|done].
      assert (Hne : out_id o' <> id) by (rewrite E'; by intros ->). apply N.eqb_neq in Hne. by rewrite Hne.
Qed.

(** *** A reservation and its cancellation *)

(** What cancelling needs to know of a new reservation, prepared or not. *)
Record unexposed (id change_id : uuid) (ids : list uuid) (s s2 : WalletState)
    (f : ScriptlessFundingReservation) : Prop := {
  unx_record : s2.(ws_scriptless_funding_reservations) = s.(ws_scriptless_funding_reservations) ++ [f];
  unx_state : f.(fr_id) = id /\ f.(fr_reserved_output_ids) = ids
    /\ (f.(fr_state) = FundSt.Reserved \/ f.(fr_state) = FundSt.Prepared)
    /\ (f.(fr_change_output_id) = None \/ f.(fr_change_output_id) = Some change_id);
  unx_outputs : exists change secrets,
    s2.(ws_outputs) = map (fun o => if bool_decide (o.(out_id) ∈ ids) then reserved_for id o else o)
                        s.(ws_outputs) ++ change
    /\ s2.(ws_private_output_blindings) = s.(ws_private_output_blindings) ++ secrets
    /\ (change = [] /\ secrets = []
        \/ exists o b, change = [o] /\ secrets = [b] /\ o.(out_id) = change_id
             /\ b.(pob_output_id) = change_id /\ f.(fr_change_output_id) = Some change_id);
  unx_rest : s2.(ws_transactions) = s.(ws_transactions)
    /\ s2.(ws_scriptless_payout_reservations) = s.(ws_scriptless_payout_reservations) /\ floors_le s s2;
}.

Lemma alter_snoc {A} (f : A -> A) l x : alter f (length l) (l ++ [x]) = l ++ [f x].
Proof.
  apply list_eq. intros i. destruct (decide (i = length l)) as [->|Hne].
  - rewrite list_lookup_alter_eq, !list_lookup_middle by done. done.
  - rewrite list_lookup_alter_ne by done. destruct (decide (i < length l)%nat).
    + by rewrite !lookup_app_l by done.
    + rewrite !(lookup_ge_None_2 _ i); [done|rewrite length_app; simpl; lia..].
Qed.
Lemma last_funding_record (s : WalletState) l f id :
  s.(ws_scriptless_funding_reservations) = l ++ [f] -> Forall (fun f => f.(fr_id) <> id) l -> f.(fr_id) = id ->
  funding_record s id = Ok (length l, f).
Proof.
  intros E Hl Hf. unfold funding_record, find_scriptless_funding_index. rewrite E, position_snoc.
  - simpl. by rewrite list_lookup_middle.
  - apply position_None. intros x Hx. apply N.eqb_neq. by apply (proj1 (Forall_forall _ _) Hl).
  - by apply N.eqb_eq.
Qed.

Lemma reserved_unexposed request id change_id tip s s1 selected f :
  funding_reserved request id change_id tip s s1 selected f ->
  unexposed id change_id (map out_id selected) s s1 f.
Proof.
  intros H. destruct (funding_keeps _ _ _ _ _ _ _ _ H) as (H5 & H6 & H7 & H8).
  destruct H as [_ _ _ _ Ho Hr (H1 & H2 & H3) _ _ [H4 _] _ _ _]. split; auto.
  - rewrite H4. destruct (_ =? 0); auto.
  - exists [], []. rewrite !app_nil_r. auto.
Qed.

Lemma add_pending_secrets id o s :
  id ∉ map pob_output_id s.(ws_private_output_blindings) ->
  (add_pending_output id o s).(ws_private_output_blindings)
  = s.(ws_private_output_blindings) ++ [mkPrivateOutputBlinding id o.(roo_blinding)].
Proof.
  intros H. unfold add_pending_output, remember_output_blinding. simpl.
  assert (E : position (fun b => pob_output_id b =? id) (ws_private_output_blindings s) = None); [|by rewrite E].
  apply position_None. intros b Hb. apply N.eqb_neq. intros E. apply H. rewrite <- E. by apply list_elem_of_fmap_2.
Qed.
Lemma add_pending_rest id o s :
  let t := add_pending_output id o s in
  t.(ws_outputs) = s.(ws_outputs) ++ [mkOutputRecord id s.(ws_default_account).(acc_id)
                     (Some o.(roo_commitment)) o.(roo_value) Out.PendingIncoming 0 None]
  /\ t.(ws_transactions) = s.(ws_transactions) /\ t.(ws_allocation_floor) = s.(ws_allocation_floor)
  /\ t.(ws_non_reuse_floor) = s.(ws_non_reuse_floor)
  /\ t.(ws_recovery_allocation_floors) = s.(ws_recovery_allocation_floors).
Proof. unfold add_pending_output, remember_output_blinding. simpl. by destruct (position _ _). Qed.

Lemma prepared_unexposed {output_code : OutputCode} id change_id ids s s1 s2 f i g prepared :
  unexposed id change_id ids s s1 f -> Forall (fun f => f.(fr_id) <> id) s.(ws_scriptless_funding_reservations) ->
  change_id ∉ map pob_output_id s.(ws_private_output_blindings) ->
  s1.(ws_private_output_blindings) = s.(ws_private_output_blindings) ->
  s1.(ws_outputs) = map (fun o => if bool_decide (o.(out_id) ∈ ids) then reserved_for id o else o) s.(ws_outputs) ->
  funding_record s1 id = Ok (i, g) -> record_funding g id prepared s1 = Ok s2 ->
  exists f', unexposed id change_id ids s s2 f'.
Proof.
  intros [Hr (H1 & H2 & H3 & H4) _ (H5 & H6 & H7)] Hl Hc Hb Ho Hg H.
  rewrite (last_funding_record _ _ _ _ Hr Hl H1) in Hg. injection Hg as <- <-.
  unfold record_funding in H. rewrite (last_funding_record _ _ _ _ Hr Hl H1) in H. simpl in H.
  apply then_Ok in H as [_ H]. destruct (sfp_other_outputs _) as [|output rest].
  - injection H as <-. eexists. split; simpl; [by rewrite Hr, alter_snoc|auto| |auto].
    exists [], []. rewrite !app_nil_r. auto.
  - apply rbind_Ok in H as (cid & Hcid%ok_or_Ok & H). apply rbind_Ok in H as (b & _ & H).
    apply rbind_Ok in H as (change & _ & [= <-]).
    assert (cid = change_id) as -> by (destruct H4 as [H4|H4]; congruence).
    match goal with |- context[add_pending_output ?a ?o s1] =>
      destruct (add_pending_reservations a o s1) as [E1 E2]; pose proof (add_pending_rest a o s1) as E3;
      pose proof (add_pending_secrets a o s1) as E4; set (sp := add_pending_output a o s1) in * end.
    rewrite Hb in E4. specialize (E4 Hc). destruct E3 as (E3 & E5 & E6 & E7 & E8).
    eexists. split; simpl; [by rewrite E1, Hr, alter_snoc|auto| |].
    + eexists _, _. rewrite E3, E4, Ho. split; [done|]. split; [done|]. right. eexists _, _. eauto.
    + rewrite E5, E2. split; [done|]. split; [done|]. unfold floors_le in *. simpl. by rewrite E6, E7, E8.
Qed.

Lemma selected_ids request id change_id tip s s1 selected f :
  funding_reserved request id change_id tip s s1 selected f -> NoDup (map out_id s.(ws_outputs)) ->
  NoDup (map out_id selected) /\ forall i, i ∈ map out_id selected -> exists o, o ∈ s.(ws_outputs) /\ o.(out_id) = i.
Proof.
  intros [Hs _ _ _ _ _ _ _ _ _ _ _ _] Hnd. destruct (spendable_outputs_spec s) as [Pm _].
  assert (Hsp : NoDup (map out_id (spendable_outputs s))).
  { rewrite Pm. clear -Hnd. induction (ws_outputs s) as [|o l IH]; simpl; [constructor|].
    simpl in Hnd. apply NoDup_cons in Hnd as [Ho Hnd]. destruct (spendable s o); simpl; auto.
    apply NoDup_cons. split; [|auto]. intros (x & Hx & Hin)%list_elem_of_fmap. apply Ho.
    apply list_elem_of_fmap. exists x. split; [done|]. apply list_elem_of_In, filter_In in Hin as [Hin _].
    by apply list_elem_of_In. }
  rewrite <- (take_drop (length selected) (spendable_outputs s)), map_app, <- Hs in Hsp.
  apply NoDup_app in Hsp as [Hsel _]. split; [done|]. intros i (o & -> & Ho)%list_elem_of_fmap. exists o.
  split; [|done]. assert (Hin : o ∈ spendable_outputs s)
    by (rewrite <- (take_drop (length selected) (spendable_outputs s)), <- Hs; apply elem_of_app; by left).
  clear Ho. rename Hin into Ho. rewrite Pm in Ho. apply list_elem_of_In, filter_In in Ho as [Ho _]. by apply list_elem_of_In.
Qed.

Lemma filter_fresh {A} (key : A -> uuid) id (l new : list A) :
  id ∉ map key l -> (forall x, x ∈ new -> key x = id) ->
  List.filter (fun x => negb (key x =? id)) (l ++ new) = l.
Proof.
  intros Hl Hn. rewrite filter_app. rewrite (filter_all _ l).
  - assert (E : List.filter (fun x => negb (key x =? id)) new = []); [|by rewrite E, app_nil_r].
    induction new as [|x new IH]; simpl; [done|]. rewrite (Hn x), N.eqb_refl by apply list_elem_of_here.
    simpl. apply IH. intros y Hy. by apply Hn, list_elem_of_further.
  - intros x Hx. apply negb_true_iff, N.eqb_neq. intros E. apply Hl. rewrite <- E. by apply list_elem_of_fmap_2.
Qed.

Lemma given_back_reserved id o : funding_free o -> given_back (reserved_for id o) = o.
Proof. destruct o as [a b c d e g h]. intros [H1 H2]. simpl in *. by subst. Qed.

(** Cancelling gives back what a reservation holds. *)
Lemma cancel_unexposed id change_id ids s s2 f :
  unexposed id change_id ids s s2 f -> NoDup (map out_id s.(ws_outputs)) -> NoDup ids ->
  (forall i, i ∈ ids -> exists o, o ∈ s.(ws_outputs) /\ o.(out_id) = i) ->
  (forall o, o ∈ s.(ws_outputs) -> o.(out_id) ∈ ids -> funding_free o) ->
  Forall (fun f => f.(fr_id) <> id) s.(ws_scriptless_funding_reservations) ->
  change_id ∉ map out_id s.(ws_outputs) -> change_id ∉ map pob_output_id s.(ws_private_output_blindings) ->
  exists s3, cancel_funding id s2 = Ok s3 /\ s3.(ws_outputs) = s.(ws_outputs)
  /\ s3.(ws_private_output_blindings) = s.(ws_private_output_blindings)
  /\ s3.(ws_scriptless_funding_reservations) = s.(ws_scriptless_funding_reservations) ++ [cancelled_funding f]
  /\ s3.(ws_transactions) = s2.(ws_transactions)
  /\ s3.(ws_scriptless_payout_reservations) = s2.(ws_scriptless_payout_reservations) /\ floors_le s2 s3.
Proof.
  intros [Hr (H1 & H2 & H3 & H4) (change & secrets & Ho & Hb & Hc) _] Hnd Hids Hsel Hfree Hl Hco Hcb.
  set (held := map (fun o => if bool_decide (out_id o ∈ ids) then reserved_for id o else o) (ws_outputs s)) in *.
  assert (Hheld : map out_id held = map out_id (ws_outputs s)).
  { unfold held. rewrite map_map. apply map_ext. intros o. by case_bool_decide. }
  assert (Hchange : forall o, o ∈ change -> o.(out_id) = change_id).
  { destruct Hc as [[-> ->]|(o & b & -> & -> & Hoid & _)]; [by intros o Hx%not_elem_of_nil|].
    by intros x ->%list_elem_of_singleton. }
  assert (Hsecrets : forall b, b ∈ secrets -> b.(pob_output_id) = change_id).
  { destruct Hc as [[-> ->]|(o & b & -> & -> & _ & Hbid & _)]; [by intros o Hx%not_elem_of_nil|].
    by intros x ->%list_elem_of_singleton. }
  assert (Hback : map (fun o => if bool_decide (out_id o ∈ ids) then given_back o else o) held = ws_outputs s).
  { unfold held. rewrite map_map. apply map_id_on. intros o Hin. destruct (decide (out_id o ∈ ids)) as [Hi|Hi].
    - rewrite (bool_decide_eq_true_2 (out_id o ∈ ids)) by done.
      rewrite bool_decide_eq_true_2 by done. by apply given_back_reserved, Hfree.
    - rewrite (bool_decide_eq_false_2 (out_id o ∈ ids)) by done.
      by rewrite bool_decide_eq_false_2 by done. }
  assert (Hrel : foldM (release_input id) ids s2.(ws_outputs) = Ok (ws_outputs s ++ change)).
  { rewrite Ho, release_inputs_Ok; [|rewrite map_app, Hheld|done|].
    - rewrite map_app, Hback. f_equal. f_equal. apply map_id_on. intros o Hin.
      rewrite bool_decide_eq_false_2; [done|]. rewrite (Hchange o Hin). intros Hi.
      destruct (Hsel _ Hi) as (x & Hx & E). apply Hco. rewrite <- E. by apply list_elem_of_fmap_2.
    - apply NoDup_app. split; [done|]. split.
      + intros x Hx (o & -> & Hin)%list_elem_of_fmap. rewrite (Hchange o Hin) in Hx. by apply Hco.
      + destruct Hc as [[-> _]|(o & b & -> & _)]; simpl; [constructor|apply NoDup_singleton].
    - intros i Hi. destruct (Hsel i Hi) as (o & Hin & Hid). exists (reserved_for id o). split; [|by rewrite <- Hid].
      apply elem_of_app. left. unfold held. apply list_elem_of_fmap. exists o. split; [|done].
      by rewrite bool_decide_eq_true_2 by (by rewrite Hid). }
  unfold cancel_funding. rewrite (last_funding_record _ _ _ _ Hr Hl H1). simpl.
  assert (Hm : FundSt.may_cancel_and_release (fr_state f) = true) by (by destruct H3 as [-> | ->]).
  rewrite Hm, H2, Hrel. simpl.
  assert (Hfl : forall t : WalletState, floors_le t t).
  { intros t. split; [lia|]. split; [lia|]. intros class. lia. }
  destruct H4 as [H4|H4]; rewrite H4; eexists; (split; [reflexivity|]); simpl.
  - assert (change = [] /\ secrets = []) as [-> ->]
      by (destruct Hc as [Hc|(o & b & _ & _ & _ & _ & E)]; [done|rewrite H4 in E; discriminate E]).
    rewrite !app_nil_r in *. rewrite Hb, Hr, alter_snoc. do 5 (split; [done|]). exact (Hfl s2).
  - rewrite Hb, Hr, alter_snoc, (filter_fresh out_id), (filter_fresh pob_output_id) by done.
    do 5 (split; [done|]). exact (Hfl s2).
Qed.

(** [t] is [s] with one more funding reservation, which is cancelled. *)
Record given_back_to (id : uuid) (s t : WalletState) : Prop := {
  gbt_outputs : t.(ws_outputs) = s.(ws_outputs);
  gbt_secrets : t.(ws_private_output_blindings) = s.(ws_private_output_blindings);
  gbt_transactions : t.(ws_transactions) = s.(ws_transactions);
  gbt_payouts : t.(ws_scriptless_payout_reservations) = s.(ws_scriptless_payout_reservations);
  gbt_record : exists f, t.(ws_scriptless_funding_reservations) = s.(ws_scriptless_funding_reservations) ++ [f]
    /\ f.(fr_id) = id /\ f.(fr_state) = FundSt.Cancelled;
  gbt_floors : floors_le s t;
}.

(** Cancelling gives back exactly what was reserved.  A funding reservation that
    was made, and possibly prepared, can be cancelled; the outputs, their secrets,
    the transactions and the other reservations are then those of the wallet before
    the reservation, and only its cancelled record is left; the coordinate it drew
    stays used. *)
Theorem cancelling_undoes_a_reservation {output_code : OutputCode} request id change_id tip s s1 s2
    (Hreserve : reserve_funding request id change_id tip s = Ok s1)
    (Hprepared : s2 = s1 \/ exists i f prepared,
       funding_record s1 id = Ok (i, f) /\ record_funding f id prepared s1 = Ok s2)
    (Hids : NoDup (map out_id s.(ws_outputs)))
    (Hid : Forall (fun f => f.(fr_id) <> id) s.(ws_scriptless_funding_reservations))
    (Hchange : change_id ∉ map out_id s.(ws_outputs)
               /\ change_id ∉ map pob_output_id s.(ws_private_output_blindings)) :
  exists s3, cancel_funding id s2 = Ok s3 /\ given_back_to id s s3.
Proof.
  destruct Hchange as [Hco Hcb].
  destruct (reserve_funding_spec _ _ _ _ _ _ Hreserve) as (selected & f & Hf).
  destruct (selected_ids _ _ _ _ _ _ _ _ Hf Hids) as [Hnd Hsel].
  pose proof (reserved_unexposed _ _ _ _ _ _ _ _ Hf) as Hu.
  assert (H2 : exists f', unexposed id change_id (map out_id selected) s s2 f').
  { destruct Hprepared as [-> |(i & g & prepared & Hg & Hp)]; [by exists f|].
    destruct (funding_keeps _ _ _ _ _ _ _ _ Hf) as (_ & Hb & _). pose proof (frd_outputs _ _ _ _ _ _ _ _ Hf) as Ho. by eapply prepared_unexposed. }
  destruct H2 as (f' & Hu2). pose proof Hu2 as [_ (Hfid & _) _ (E1 & E2 & E3)].
  destruct (cancel_unexposed _ _ _ _ _ _ Hu2 Hids Hnd Hsel (frd_free _ _ _ _ _ _ _ _ Hf) Hid Hco Hcb)
    as (s3 & Hc & Ho & Hb & Hr & Ht & Hq & Hfl).
  exists s3. split; [done|]. split; [done|done|congruence|congruence|by exists (cancelled_funding f')|].
  destruct E3 as (A1 & A2 & A3), Hfl as (B1 & B2 & B3). split; [lia|]. split; [lia|].
  intros class. specialize (A3 class). specialize (B3 class). lia.
Qed.

(** ** Witnesses *)

#[local] Instance contract_codec : CoreCodec := trade_codec [].

Definition contract_request : ScriptlessFundingReservationRequestV1 :=
  mkScriptlessFundingRequest (sample_bytes 32 Byte.x55) (sample_bytes 33 Byte.x08) 1700 1100 1 2.
Definition contract_draws : PrepareDraws :=
  mkPrepareDraws (sample_bytes 32 Byte.x33) (sample_bytes 32 Byte.x44) sample_random.
Definition contract_share : SessionShare :=
  mkSessionShare
    (mkSessionShareBinding sample_core_identity.(cci_chain_id) (sample_bytes 32 Byte.x55)
       [sample_bytes 32 Byte.x61; sample_bytes 32 Byte.x62] 1 (sample_bytes 32 Byte.x62)
       (sample_bytes 32 Byte.x63) (sample_bytes 32 Byte.x64) (sample_bytes 33 Byte.x65)
       (sample_bytes 32 Byte.x66))
    (sample_bytes 33 Byte.x65) (sample_bytes 32 Byte.x67).

(** The states of the paying wallet while it funds a contract: the request is
    reserved, prepared, bound to its session and exported. *)
Definition funding_wallet : WalletState :=
  match reserve_funding contract_request 61 62 (tip_height sample_core_identity) paying_wallet with
  | Ok s => committed_state s 0
  | Err _ => paying_wallet
  end.
Definition contribution : result CErr.CoreError WalletState :=
  let? found := funding_record funding_wallet 61 in
  let? seed := canonical_seed funding_wallet in
  let? builder := from_backend (output_builder sample_backend seed) in
  let? inputs := resumed_inputs funding_wallet 61 found.2 in
  let? coordinate := resumed_coordinate funding_wallet ROC.Change found.2.(fr_change_derivation_index) in
  let? prepared := from_recovery (build_scriptless_funding_contribution builder contract_draws.(pd_construction)
    contract_draws.(pd_offset) inputs found.2.(fr_change_value_noms) coordinate) in
  record_funding found.2 61 prepared funding_wallet.
Definition bound_wallet : WalletState :=
  match contribution with
  | Ok s => set_funding 0 (bind_session (sample_bytes 32 Byte.x66, 1)) s <| ws_generation := 0 |>
  | Err _ => funding_wallet
  end.
Definition exported_wallet : WalletState :=
  committed_state (set_funding 0 (set_funding_state FundSt.Exported) bound_wallet) 0.
Definition abandoned_wallet : WalletState :=
  committed_state (set_funding 0 (set_funding_state FundSt.AbandonedRetained) exported_wallet) 1.

#[local] Instance contract_json : StateCode :=
  sample_json [bound_wallet; exported_wallet; abandoned_wallet].
#[local] Instance contract_json_laws : StateLaws contract_json := sample_json_laws _.

Definition bound_service : WalletService unit := wallet_session bound_wallet.
Definition exported_service : WalletService unit :=
  (scriptless_funding_export contract_draws sample_random 61 bound_service).1.
(** An attempt to cancel, and giving up. *)
Definition refused_service : WalletService unit :=
  (scriptless_funding_cancel_unexposed sample_random 61 exported_service).1.
Definition abandoned_service : WalletService unit :=
  (scriptless_funding_abandon_exposed sample_random 61 refused_service).1.

Lemma reservations_follow_their_protocol_witness :
  exists s' f', abandoned_service.(sv_unlocked) = Some s'
  /\ s'.(ws_scriptless_funding_reservations) !! 0%nat = Some f' /\ funding_exposed f' = true.
Proof.
  destruct (bound_wallet.(ws_scriptless_funding_reservations) !! 0%nat) as [f|] eqn:Hf;
    [|exfalso; apply (f_equal is_some) in Hf; vm_compute in Hf; discriminate Hf].
  destruct (reservations_follow_their_protocol sample_password 0 bound_service abandoned_service bound_wallet)
    as (_ & s' & Hs' & H & _).
  - wallet_session.
  - vm_compute. reflexivity.
  - eapply rtc_l; [|eapply rtc_l; [|apply rtc_once]].
    + eexists _, (scriptless_funding_export contract_draws sample_random 61), _.
      split; [apply op_funding_export|apply surjective_pairing].
    + eexists _, (scriptless_funding_cancel_unexposed sample_random 61), _.
      split; [apply op_funding_cancel|apply surjective_pairing].
    + eexists _, (scriptless_funding_abandon_exposed sample_random 61), _.
      split; [apply op_funding_abandon|apply surjective_pairing].
  - destruct (H 0%nat f Hf) as (f' & Hf' & _ & _ & He). exists s', f'. split; [exact Hs'|].
    split; [exact Hf'|]. apply He. apply (f_equal (fun o => from_option funding_exposed false o)) in Hf.
    simpl in Hf. rewrite <- Hf. vm_compute. reflexivity.
Defined.

Lemma exposures_are_recorded_first_witness :
  exists t w, exported_service.(sv_location) = Some w /\ opens_to sample_password t w.(w_disk)
  /\ recorded_funding t 61 (fun f => composable f.(fr_state) = true).
Proof.
  destruct (scriptless_funding_export contract_draws sample_random 61 bound_service) as [self' [c|e]] eqn:Hrun;
    [|exfalso; apply (f_equal (fun x => is_ok x.2)) in Hrun; vm_compute in Hrun; discriminate Hrun].
  destruct (exposures_are_recorded_first sample_password 0 _ _ _ bound_service self' bound_wallet c
              (ex_funding_export contract_draws sample_random 61))
    as (t & w & Hw & Ht & i & f & Hf & He & chain & Hc).
  - wallet_session.
  - apply wallet_session_in_step; [repeat split; vm_compute; done|vm_compute; reflexivity..].
  - exact Hrun.
  - exists t, w. unfold exported_service. rewrite Hrun. split; [exact Hw|]. split; [exact Ht|].
    exists i, f. split; [exact Hf|]. split; [exact He|]. by eapply composition_composable.
Defined.

