(* ===== verification/Bech32.v ===== *)
(** * Bech32m taproot addresses

    crates/dom-wallet-multichain/src/bech32m.rs: the checksum, the regrouping of
    bytes into 5-bit values and [encode_segwit_v1].  Shifts of a [u32] drop the
    bits above the 32nd.  BIP-350 is restated as a decoder, against which the
    encoder is proved. *)

From S2P Require Import Prelude Bytes.

Definition CHARSET : bytes := str "qpzry9x8gf2tvdw0s3jn54khce6mua7l".
Definition BECH32M_CONST : N := 0x2bc830a3.

Definition GEN : list N := [0x3b6a57b2; 0x26508e6d; 0x1ea119fa; 0x3d4233dd; 0x2a1462b3].

(** [for (i, generator) in GEN.iter().enumerate()], from index [i] *)
Fixpoint generators (top : N) (i : N) (gens : list N) (chk : N) : N :=
  match gens with
  | [] => chk
  | generator :: gens =>
      let chk := if N.land (N.shiftr top i) 1 =? 1 then N.lxor chk generator else chk in
      generators top (i + 1) gens chk
  end.

Definition polymod_step (chk value : N) : N :=
  let top := N.shiftr chk 25 in
  let chk := N.lxor (N.land (N.shiftl (N.land chk 0x01ffffff) 5) u32_max) value in
  generators top 0 GEN chk.

Definition polymod (values : list N) : N := fold_left polymod_step values 1.

Definition hrp_expand (hrp : bytes) : list N :=
  map (fun c => N.shiftr (Byte.to_N c) 5) hrp ++ [0] ++ map (fun c => N.land (Byte.to_N c) 0x1f) hrp.

(** [while bits >= 5]; each turn takes five bits off, so [bits] turns suffice. *)
Fixpoint drain (fuel : nat) (acc bits : N) (out : list N) : N * list N :=
  match fuel with
  | O => (bits, out)
  | S fuel =>
      if 5 <=? bits then
        let bits := bits - 5 in drain fuel acc bits (out ++ [N.land (N.shiftr acc bits) 0x1f])
      else (bits, out)
  end.

Fixpoint five_bit_loop (data : bytes) (acc bits : N) (out : list N) : N * N * list N :=
  match data with
  | [] => (acc, bits, out)
  | byte :: data =>
      let acc := N.lor (N.land (N.shiftl acc 8) u32_max) (Byte.to_N byte) in
      let bits := bits + 8 in
      let '(bits, out) := drain (N.to_nat bits) acc bits out in
      five_bit_loop data acc bits out
  end.

Definition to_five_bit (data : bytes) : list N :=
  let '(acc, bits, out) := five_bit_loop data 0 0 [] in
  if 0 <? bits then out ++ [N.land (N.land (N.shiftl acc (5 - bits)) u32_max) 0x1f] else out.

(** [CHARSET[usize::from(value)]] *)
Definition charset (value : N) : Byte.byte := nth (N.to_nat value) CHARSET Byte.x00.

(** The six groups of the checksum, the highest first. *)
Definition checksum_groups (checksum : N) : list N :=
  map (fun i => N.land (N.shiftr checksum (5 * (5 - i))) 0x1f) [0; 1; 2; 3; 4; 5].

Definition encode_segwit_v1 (hrp program : bytes) : bytes :=
  let data := 1 :: to_five_bit program in
  let values := hrp_expand hrp ++ data ++ [0; 0; 0; 0; 0; 0] in
  let checksum := N.lxor (polymod values) BECH32M_CONST in
  hrp ++ [Byte.x31] ++ map charset data ++ map charset (checksum_groups checksum).

(** ** BIP-350, read as a decoder *)

Definition charset_value (b : Byte.byte) : option N :=
  option_map N.of_nat (position (fun c => bool_decide (c = b)) CHARSET).

Fixpoint charset_values (s : bytes) : option (list N) :=
  match s with
  | [] => Some []
  | b :: s => match charset_value b, charset_values s with
              | Some v, Some vs => Some (v :: vs)
              | _, _ => None
              end
  end.

(** The number written by big-endian digits in base [base]. *)
Definition of_digits (base : N) (ds : list N) : N := fold_left (fun n d => n * base + d) ds 0.

(** The [n] bytes whose bits, padded with zeros, are the 5-bit groups. *)
Definition to_eight_bit (n : nat) (groups : list N) : option bytes :=
  let pad := 5 * len groups - 8 * N.of_nat n in
  let v := of_digits 32 groups in
  if (v mod 2 ^ pad =? 0) && (5 * len groups =? 8 * N.of_nat n + pad) && (pad <? 5)
  then Some (rev (le_bytes n (v / 2 ^ pad))) else None.

(** The witness version and the 32-byte program of an address. *)
Definition segwit_decode (hrp address : bytes) : option (N * bytes) :=
  match strip_prefix (hrp ++ [Byte.x31]) address with
  | None => None
  | Some s =>
      match charset_values s with
      | None => None
      | Some values =>
          if polymod (hrp_expand hrp ++ values) =? BECH32M_CONST then
            match firstn (length values - 6) values with
            | version :: groups => option_map (pair version) (to_eight_bit 32 groups)
            | [] => None
            end
          else None
      end
  end.

Example bip86_vector :
  encode_segwit_v1 (str "bc") (map byte_of
    [0xa6; 0x08; 0x69; 0xf0; 0xdb; 0xcf; 0x1d; 0xc6; 0x59; 0xc9; 0xce; 0xcb; 0xaf; 0x80; 0x50; 0x13;
     0x5e; 0xa9; 0xe8; 0xcd; 0xc4; 0x87; 0x05; 0x3f; 0x1d; 0xc6; 0x88; 0x09; 0x49; 0xdc; 0x68; 0x4c])
  = str "bc1p5cyxnuxmeuwuvkwfem96lqzszd02n6xdcjrs20cac6yqjjwudpxqkedrcr".
Proof. vm_compute. reflexivity. Qed.

(** ** Lemmas: bits *)

Lemma below_bits k x : x < 2 ^ k <-> forall n, k <= n -> N.testbit x n = false.
Proof.
  split.
  - intros H n Hn. rewrite <-(N.mod_small x (2 ^ k) H). by apply N.mod_pow2_bits_high.
  - intros H. enough (x = x mod 2 ^ k) as -> by (apply N.mod_lt; by apply N.pow_nonzero).
    apply N.bits_inj. intros n. destruct (N.lt_ge_cases n k) as [Hlt|Hge].
    + by rewrite N.mod_pow2_bits_low.
    + by rewrite N.mod_pow2_bits_high, H.
Qed.

Lemma lxor_below k a b : a < 2 ^ k -> b < 2 ^ k -> N.lxor a b < 2 ^ k.
Proof.
  rewrite !below_bits. intros Ha Hb n Hn. by rewrite N.lxor_spec, Ha, Hb.
Qed.

Lemma land_low x : N.land x 0x1f = x mod 32.
Proof. exact (N.land_ones x 5). Qed.
Lemma land_u32 x : N.land x u32_max = x mod 2 ^ 32.
Proof. exact (N.land_ones x 32). Qed.

Lemma shift_add d k v : v < 2 ^ k -> N.lxor (N.shiftl d k) v = d * 2 ^ k + v.
Proof.
  intros Hv. rewrite <-N.shiftl_mul_pow2. symmetry. apply N.add_nocarry_lxor.
  apply N.bits_inj. intros n. rewrite N.land_spec, N.bits_0.
  destruct (N.lt_ge_cases n k) as [Hlt|Hge].
  - by rewrite N.shiftl_spec_low.
  - rewrite (proj1 (below_bits k v) Hv n Hge). by rewrite andb_false_r.
Qed.

(** ** Lemmas: the checksum *)

Lemma generators_lxor top i gens a d :
  generators top i gens (N.lxor a d) = N.lxor (generators top i gens a) d.
Proof.
  revert i a. induction gens as [|g gens IH]; intros i a; [done|]. cbn [generators].
  destruct (_ =? 1); [|apply IH].
  rewrite <-IH. f_equal. by rewrite !N.lxor_assoc, (N.lxor_comm d g).
Qed.

(** A difference of at most 25 bits passes through a step shifted. *)
Lemma step_lxor c d v :
  d < 2 ^ 25 -> v < 32 ->
  polymod_step (N.lxor c d) v = N.lxor (polymod_step c 0) (d * 32 + v).
Proof.
  intros Hd Hv. unfold polymod_step.
  assert (E1 : N.shiftr (N.lxor c d) 25 = N.shiftr c 25).
  { rewrite N.shiftr_lxor, (N.shiftr_div_pow2 d), N.div_small by done. apply N.lxor_0_r. }
  assert (E2 : N.land d 0x01ffffff = d).
  { change 0x01ffffff with (N.ones 25). rewrite N.land_ones. by apply N.mod_small. }
  assert (Hs : N.shiftl d 5 < 2 ^ 32).
  { rewrite N.shiftl_mul_pow2. change (2 ^ 25) with 33554432 in Hd. change (2 ^ 5) with 32.
    change (2 ^ 32) with 4294967296. lia. }
  assert (E3 : N.land (N.shiftl d 5) u32_max = N.shiftl d 5).
  { rewrite land_u32. by apply N.mod_small. }
  assert (Dist : forall a b m, N.land (N.lxor a b) m = N.lxor (N.land a m) (N.land b m)).
  { intros a b m. apply N.bits_inj. intros n. rewrite N.lxor_spec, !N.land_spec, N.lxor_spec.
    by destruct (N.testbit a n), (N.testbit b n), (N.testbit m n). }
  rewrite E1, Dist, E2, N.shiftl_lxor, Dist, E3, N.lxor_0_r, N.lxor_assoc.
  rewrite generators_lxor. f_equal. apply (shift_add d 5 v). exact Hv.
Qed.

Lemma polymod_lxor vs c d k :
  Forall (fun v => v < 32) vs -> (k + length vs <= 6)%nat -> d < 32 ^ N.of_nat k ->
  fold_left polymod_step vs (N.lxor c d)
  = N.lxor (fold_left polymod_step (map (fun _ => 0) vs) c) (fold_left (fun n v => n * 32 + v) vs d).
Proof.
  revert c d k. induction vs as [|v vs IH]; intros c d k Hvs Hk Hd; [done|].
  apply Forall_cons in Hvs as [Hv Hvs]. cbn [length map fold_left] in *.
  assert (H25 : d < 2 ^ 25).
  { eapply N.lt_le_trans; [exact Hd|]. change (2 ^ 25) with (32 ^ 5). apply N.pow_le_mono_r; lia. }
  rewrite step_lxor by done. apply (IH _ _ (S k)); [done|lia|].
  replace (N.of_nat (S k)) with (N.succ (N.of_nat k)) by lia. rewrite N.pow_succ_r'. lia.
Qed.

Lemma generators_below top i gens c :
  Forall (fun g => g < 2 ^ 30) gens -> c < 2 ^ 30 -> generators top i gens c < 2 ^ 30.
Proof.
  revert i c. induction gens as [|g gens IH]; intros i c Hg Hc; [done|].
  apply Forall_cons in Hg as [Hg Hgs]. cbn [generators]. apply IH; [done|].
  destruct (_ =? 1); [|done]. by apply lxor_below.
Qed.

Lemma step_below c v : v < 32 -> polymod_step c v < 2 ^ 30.
Proof.
  intros Hv. unfold polymod_step. apply generators_below; [by repeat constructor|].
  apply lxor_below; [|eapply N.lt_trans; [exact Hv|done]].
  rewrite land_u32. eapply N.le_lt_trans; [by apply N.Div0.mod_le|].
  rewrite N.shiftl_mul_pow2. change 0x01ffffff with (N.ones 25). rewrite N.land_ones.
  pose proof (N.mod_lt c (2 ^ 25) ltac:(done)) as H. change (2 ^ 30) with (2 ^ 25 * 2 ^ 5). lia.
Qed.

Lemma polymod_below vs : Forall (fun v => v < 32) vs -> polymod vs < 2 ^ 30.
Proof.
  intros H. destruct vs as [|v vs _] using rev_ind; [done|].
  apply Forall_app in H as [_ Hv]. apply Forall_cons in Hv as [Hv _].
  unfold polymod. rewrite fold_left_app. by apply step_below.
Qed.

Lemma checksum_groups_pack c :
  c < 2 ^ 30 ->
  fold_left (fun n v => n * 32 + v) (checksum_groups c) 0 = c
  /\ Forall (fun v => v < 32) (checksum_groups c).
Proof.
  intros Hc. unfold checksum_groups. cbn [map fold_left]. rewrite !land_low, !N.shiftr_div_pow2.
  change (5 * (5 - 0)) with 25. change (5 * (5 - 1)) with 20. change (5 * (5 - 2)) with 15.
  change (5 * (5 - 3)) with 10. change (5 * (5 - 4)) with 5. change (5 * (5 - 5)) with 0.
  split; [|repeat constructor; by apply N.mod_lt].
  change (2 ^ 25) with (32 * (32 * (32 * (32 * 32)))). change (2 ^ 20) with (32 * (32 * (32 * 32))).
  change (2 ^ 15) with (32 * (32 * 32)). change (2 ^ 10) with (32 * 32). change (2 ^ 5) with 32.
  change (2 ^ 0) with 1. rewrite <-!N.Div0.div_div, N.div_1_r.
  change (2 ^ 30) with 1073741824 in Hc.
  set (c1 := c / 32). set (c2 := c1 / 32). set (c3 := c2 / 32). set (c4 := c3 / 32). set (c5 := c4 / 32).
  pose proof (N.div_mod c 32 ltac:(done)) as E0. pose proof (N.div_mod c1 32 ltac:(done)) as E1.
  pose proof (N.div_mod c2 32 ltac:(done)) as E2. pose proof (N.div_mod c3 32 ltac:(done)) as E3.
  pose proof (N.div_mod c4 32 ltac:(done)) as E4. pose proof (N.div_mod c5 32 ltac:(done)) as E5.
  fold c1 in E0. fold c2 in E1. fold c3 in E2. fold c4 in E3. fold c5 in E4.
  clearbody c1 c2 c3 c4 c5. set (c6 := c5 / 32) in E5.
  generalize dependent (c mod 32). generalize dependent (c1 mod 32). generalize dependent (c2 mod 32).
  generalize dependent (c3 mod 32). generalize dependent (c4 mod 32). generalize dependent (c5 mod 32).
  clearbody c6. intros. assert (c6 = 0) by lia. lia.
Qed.

Lemma checksum_verifies vs :
  Forall (fun v => v < 32) vs ->
  polymod (vs ++ checksum_groups (N.lxor (polymod (vs ++ [0; 0; 0; 0; 0; 0])) BECH32M_CONST))
  = BECH32M_CONST.
Proof.
  intros Hvs. set (p := polymod (vs ++ [0; 0; 0; 0; 0; 0])).
  assert (Hp : p < 2 ^ 30) by (apply polymod_below, Forall_app; split; [done|by repeat constructor]).
  destruct (checksum_groups_pack (N.lxor p BECH32M_CONST)) as [E H]; [by apply lxor_below|].
  unfold polymod at 1. rewrite fold_left_app.
  rewrite <-(N.lxor_0_r (fold_left polymod_step vs 1)). rewrite (polymod_lxor _ _ 0 0); [|done|simpl; lia|done].
  rewrite E. change (fold_left polymod_step (map (fun _ => 0) _) (fold_left polymod_step vs 1))
    with (fold_left polymod_step [0; 0; 0; 0; 0; 0] (fold_left polymod_step vs 1)).
  rewrite <-fold_left_app. fold (polymod (vs ++ [0; 0; 0; 0; 0; 0])). fold p.
  by rewrite <-N.lxor_assoc, N.lxor_nilpotent.
Qed.

(** ** Lemmas: regrouping *)

Lemma of_digits_app base a b :
  of_digits base (a ++ b) = fold_left (fun n d => n * base + d) b (of_digits base a).
Proof. apply fold_left_app. Qed.

Lemma of_digits_snoc base a d : of_digits base (a ++ [d]) = of_digits base a * base + d.
Proof. by rewrite of_digits_app. Qed.

(** The groups written so far and the bits still held make up the number [n]. *)
Definition grouped (n acc bits : N) (out : list N) : Prop :=
  n = of_digits 32 out * 2 ^ bits + acc mod 2 ^ bits /\ Forall (fun v => v < 32) out.

Lemma drain_grouped fuel n acc bits out :
  grouped n acc bits out -> (N.to_nat bits <= 5 * fuel + 4)%nat ->
  exists bits' out', drain fuel acc bits out = (bits', out')
  /\ grouped n acc bits' out' /\ bits' < 5
  /\ 5 * len out' + bits' = 5 * len out + bits.
Proof.
  revert bits out. induction fuel as [|fuel IH]; intros bits out H Hf; cbn [drain].
  - exists bits, out. split; [done|]. split; [done|]. lia.
  - destruct (5 <=? bits) eqn:E; bool_inv; [|exists bits, out; split; [done|]; split; [done|]; lia].
    set (b := bits - 5). destruct (IH b (out ++ [N.land (N.shiftr acc b) 0x1f])) as (bits' & out' & H1 & H2 & H3 & H4).
    + destruct H as [Hn Hout]. rewrite land_low, N.shiftr_div_pow2. split.
      * rewrite of_digits_snoc, Hn. replace bits with (b + 5) by lia. rewrite N.pow_add_r.
        rewrite (N.Div0.mod_mul_r acc (2 ^ b) (2 ^ 5)). change (2 ^ 5) with 32. lia.
      * apply Forall_app. split; [done|]. repeat constructor. by apply N.mod_lt.
    + lia.
    + exists bits', out'. split; [done|]. split; [done|]. split; [done|]. rewrite H4.
      unfold len. rewrite length_app. simpl. lia.
Qed.

Lemma grouped_byte n acc bits out b :
  grouped n acc bits out -> bits < 5 ->
  grouped (n * 256 + Byte.to_N b) (N.lor (N.land (N.shiftl acc 8) u32_max) (Byte.to_N b))
          (bits + 8) out.
Proof.
  intros [Hn Hout] Hb. split; [|done]. pose proof (to_N_lt b) as Hbyte.
  assert (E : N.lor (N.land (N.shiftl acc 8) u32_max) (Byte.to_N b) = (acc mod 2 ^ 24) * 2 ^ 8 + Byte.to_N b).
  { rewrite land_u32, N.shiftl_mul_pow2. change (2 ^ 32) with (2 ^ 24 * 2 ^ 8).
    rewrite N.Div0.mul_mod_distr_r. rewrite <-(shift_add (acc mod 2 ^ 24) 8 (Byte.to_N b)) by done.
    rewrite <-N.shiftl_mul_pow2. symmetry. apply N.lxor_lor. apply N.bits_inj. intros k. rewrite N.land_spec, N.bits_0.
    destruct (N.lt_ge_cases k 8).
    - by rewrite N.shiftl_spec_low.
    - rewrite (proj1 (below_bits 8 _) Hbyte k) by done. by rewrite andb_false_r. }
  rewrite E, Hn, N.pow_add_r.
  assert (Em : (acc mod 2 ^ 24 * 2 ^ 8 + Byte.to_N b) mod (2 ^ bits * 2 ^ 8)
               = acc mod 2 ^ bits * 2 ^ 8 + Byte.to_N b).
  { rewrite (N.mul_comm (2 ^ bits)), N.Div0.mod_mul_r, (N.add_comm (_ * 2 ^ 8) (Byte.to_N b)).
    rewrite N.Div0.mod_add, N.div_add, N.mod_small, (N.div_small (Byte.to_N b)), N.add_0_l by done.
    replace 24 with (bits + (24 - bits)) by lia.
    rewrite N.pow_add_r, N.Div0.mod_mul_r, (N.mul_comm (2 ^ bits) (_ mod _)), N.Div0.mod_add.
    rewrite N.Div0.mod_mod. lia. }
  rewrite Em. change (2 ^ 8) with 256. lia.
Qed.

Lemma five_bit_loop_grouped data n acc bits out :
  grouped n acc bits out -> bits < 5 ->
  exists acc' bits' out', five_bit_loop data acc bits out = (acc', bits', out')
  /\ grouped (fold_left (fun n b => n * 256 + Byte.to_N b) data n) acc' bits' out' /\ bits' < 5
  /\ 5 * len out' + bits' = 5 * len out + bits + 8 * len data.
Proof.
  revert n acc bits out. induction data as [|b data IH]; intros n acc bits out H Hb; cbn [five_bit_loop].
  - exists acc, bits, out. split; [done|]. split; [done|]. split; [done|]. unfold len. simpl. lia.
  - pose proof (grouped_byte _ _ _ _ b H Hb) as H1.
    destruct (drain_grouped (N.to_nat (bits + 8)) _ _ _ _ H1 ltac:(lia)) as (b2 & o2 & E & H2 & H3 & H4).
    rewrite E. destruct (IH _ _ _ _ H2 H3) as (acc' & bits' & out' & E' & H5 & H6 & H7).
    exists acc', bits', out'. split; [done|]. split; [done|]. split; [done|]. rewrite H7.
    unfold len in *. cbn [length]. lia.
Qed.

Lemma big_endian_bytes data n :
  fold_left (fun n b => n * 256 + Byte.to_N b) data n
  = n * 256 ^ len data + of_le_bytes (rev data).
Proof.
  revert n. induction data as [|b data IH] using rev_ind; intros n.
  - unfold len. simpl. change (256 ^ 0) with 1. lia.
  - rewrite fold_left_app, IH, rev_app_distr. cbn [fold_left rev app of_le_bytes].
    unfold len. rewrite length_app. cbn [length].
    replace (N.of_nat (length data + 1)) with (N.succ (N.of_nat (length data))) by lia.
    rewrite N.pow_succ_r'. lia.
Qed.

Lemma to_five_bit_spec data :
  to_eight_bit (length data) (to_five_bit data) = Some data
  /\ Forall (fun v => v < 32) (to_five_bit data)
  /\ 5 * len (to_five_bit data) < 8 * len data + 5.
Proof.
  unfold to_five_bit. destruct (five_bit_loop_grouped data 0 0 0 []) as (acc & bits & out & E & [Hn Hout] & Hb & Hl);
    [by split|done|]. rewrite E. rewrite big_endian_bytes, N.mul_0_l, N.add_0_l in Hn. change (len (@nil N)) with 0 in Hl.
  set (A := of_le_bytes (rev data)) in *.
  set (groups := if 0 <? bits then out ++ [N.land (N.land (N.shiftl acc (5 - bits)) u32_max) 0x1f] else out).
  assert (Hg : exists pad, pad < 5 /\ 5 * len groups = 8 * len data + pad
               /\ of_digits 32 groups = A * 2 ^ pad /\ Forall (fun v => v < 32) groups).
  { unfold groups. destruct (0 <? bits) eqn:Hz; bool_inv.
    - exists (5 - bits). split; [lia|]. unfold len in *. rewrite length_app. cbn [length]. split; [lia|].
      assert (Ed : N.land (N.land (N.shiftl acc (5 - bits)) u32_max) 0x1f = acc mod 2 ^ bits * 2 ^ (5 - bits)).
      { rewrite land_low, land_u32. change (2 ^ 32) with (32 * 2 ^ 27). rewrite N.Div0.mod_mul_r.
        rewrite (N.mul_comm 32 _), N.Div0.mod_add, N.Div0.mod_mod, N.shiftl_mul_pow2.
        replace 32 with (2 ^ bits * 2 ^ (5 - bits)) by (rewrite <-N.pow_add_r; by replace (bits + (5 - bits)) with 5 by lia).
        apply N.Div0.mul_mod_distr_r. }
      rewrite Ed. split.
      + rewrite of_digits_snoc, Hn.
        rewrite N.mul_add_distr_r, <-N.mul_assoc, <-N.pow_add_r. by replace (bits + (5 - bits)) with 5 by lia.
      + apply Forall_app. split; [done|]. repeat constructor. rewrite <-Ed, land_low. by apply N.mod_lt.
    - exists 0. split; [lia|]. replace bits with 0 in * by lia. split; [lia|]. split; [|done].
      rewrite N.pow_0_r, N.mod_1_r in Hn. change (2 ^ 0) with 1. lia. }
  destruct Hg as (pad & Hp & Hlen & Hd & HF). split; [|split; [done|lia]].
  unfold to_eight_bit. change (N.of_nat (length data)) with (len data).
  replace (5 * len groups - 8 * len data) with pad by lia. rewrite Hd, N.Div0.mod_mul, N.div_mul by (by apply N.pow_nonzero).
  rewrite Hlen, !N.eqb_refl, (proj2 (N.ltb_lt _ _) Hp). cbn [andb]. f_equal. unfold A.
  rewrite <-(length_rev data), of_le_bytes_round. apply rev_involutive.
Qed.

(** ** Lemmas: characters *)

Lemma charset_round v : v < 32 -> charset_value (charset v) = Some v.
Proof.
  set (p := fun v => match charset_value (charset v) with Some w => w =? v | None => false end).
  intros Hv. assert (H : p v = true).
  { assert (Ha : forallb p (map N.of_nat (seq 0 32)) = true) by (vm_compute; reflexivity).
    rewrite forallb_forall in Ha. apply Ha, in_map_iff. exists (N.to_nat v).
    split; [lia|]. apply in_seq. lia. }
  unfold p in H. destruct (charset_value (charset v)); [|done]. by bool_inv; subst.
Qed.

Lemma charset_values_round vs :
  Forall (fun v => v < 32) vs -> charset_values (map charset vs) = Some vs.
Proof.
  induction 1 as [|v vs Hv _ IH]; [done|]. cbn [map charset_values]. by rewrite charset_round, IH.
Qed.

Lemma hrp_expand_below hrp :
  (forall c, c ∈ hrp -> Byte.to_N c < 128) -> Forall (fun v => v < 32) (hrp_expand hrp).
Proof.
  intros Hc. unfold hrp_expand. rewrite !Forall_app. split; [|split].
  - apply Forall_forall. intros v (c & -> & Hin)%list_elem_of_fmap. rewrite N.shiftr_div_pow2.
    change (2 ^ 5) with 32. apply N.Div0.div_lt_upper_bound. specialize (Hc c Hin). lia.
  - by repeat constructor.
  - apply Forall_forall. intros v (c & -> & _)%list_elem_of_fmap. rewrite land_low. by apply N.mod_lt.
Qed.

(** ** Theorems *)

(** Addresses are valid BIP-350: for an ASCII prefix and a 32-byte program
    the encoder's text carries a correct bech32m checksum and decodes to witness
    version 1 and exactly that program; no two programs share an address. *)
Theorem taproot_addresses_decode hrp program
    (Hhrp : forallb is_ascii hrp = true) (Hprogram : length program = 32%nat) :
  segwit_decode hrp (encode_segwit_v1 hrp program) = Some (1, program)
  /\ len (encode_segwit_v1 hrp program) = len hrp + 60
  /\ forall program', length program' = 32%nat ->
       encode_segwit_v1 hrp program' = encode_segwit_v1 hrp program -> program' = program.
Proof.
  assert (Hdec : forall p, length p = 32%nat ->
            segwit_decode hrp (encode_segwit_v1 hrp p) = Some (1, p)
            /\ len (encode_segwit_v1 hrp p) = len hrp + 60).
  { intros p Hp. destruct (to_five_bit_spec p) as (H1 & H2 & H3). unfold encode_segwit_v1.
    rewrite (app_assoc (hrp_expand hrp)). set (values := hrp_expand hrp ++ 1 :: to_five_bit p).
    assert (Hv : Forall (fun v => v < 32) values).
    { apply Forall_app. split; [|by constructor]. apply hrp_expand_below. intros c Hc.
      rewrite forallb_forall in Hhrp. apply list_elem_of_In, Hhrp in Hc. by apply N.ltb_lt in Hc. }
    pose proof (checksum_verifies values Hv) as Hsum.
    set (groups := checksum_groups _) in *.
    assert (Hg : Forall (fun v => v < 32) groups).
    { apply checksum_groups_pack, lxor_below; [|done]. apply polymod_below, Forall_app.
      split; [done|by repeat constructor]. }
    assert (Hl : length groups = 6%nat) by done.
    assert (Hm : length (to_five_bit p) = 52%nat).
    { rewrite Hp in H1. unfold to_eight_bit in H1. destruct (_ && _ && _) eqn:E in H1; [|done].
      bool_inv. unfold len in *. rewrite Hp in H3. lia. }
    split.
    - unfold segwit_decode. rewrite (proj2 (strip_prefix_Some _ _ (map charset ((1 :: to_five_bit p) ++ groups)))).
      2:{ by rewrite map_app, <-!app_assoc. }
      rewrite charset_values_round by (apply Forall_app; split; [by constructor|done]).
      rewrite app_assoc. fold values. rewrite Hsum, N.eqb_refl.
      rewrite length_app, Hl, Nat.add_sub, take_app_length. rewrite Hp in H1. by rewrite H1.
    - unfold len. rewrite !length_app, !length_map, Hl. cbn [length]. rewrite Hm. lia. }
  split; [by apply Hdec|]. split; [by apply Hdec|]. intros p' Hp' E.
  pose proof (proj1 (Hdec p' Hp')) as D1. pose proof (proj1 (Hdec program Hprogram)) as D2.
  rewrite E, D2 in D1. congruence.
Qed.

(** ** Witnesses *)
