(* ===== verification/Transport.v ===== *)
(** * Manual transport of slates

    The text envelope and the QR frames of crates/dom-wallet-protocol/src/lib.rs:
    [export_transport], [import_transport], [qr_encode_transport] and
    [QrReassembler], with the fee bounds and the kernel lock of a sender.  The
    slate codec, base64, hex and BLAKE2b are code of other repositories and make
    the class [TransportCodec]; what is relied on of them is [TransportLaws]. *)

From S2P Require Import Prelude Bytes Codecs.

Definition TRANSPORT_PREFIX : bytes := str "DOMSLATE1.".
Definition QR_FRAME_PREFIX : bytes := str "DOMQR1.".
Definition MAX_TRANSPORT_BYTES : N := 1048576.
Definition MAX_QR_SINGLE_TEXT_BYTES : N := 900.
Definition QR_FRAME_PAYLOAD_BYTES : N := 600.
Definition MAX_QR_FRAMES : N := 128.

Module TErr.
Inductive ProtocolAdapterError :=
| InvalidCanonicalEncoding
| InvalidAmountOrFee
| FeeTooLow
| InvalidInput
| InvalidKernelConfiguration
| ProtocolRejected
| InvalidTransport
| InvalidQrFrame
| SlateBindingMismatch.
#[global] Instance ProtocolAdapterError_eq_dec : EqDecision ProtocolAdapterError.
Proof. solve_decision. Defined.
End TErr.

Record TransportEnvelope := mkTransportEnvelope {
  te_version : N;
  te_response : bool;
  te_network : bytes;
  te_chain_id : bytes;
  te_slate_id : uuid;
  te_payload : bytes;
  te_content_hash : bytes;
}.

Inductive QrEncoding :=
| Single (text content_hash : bytes)
| Multi (frames : list bytes) (content_hash : bytes).

Record QrReassemblyStatus := mkQrReassemblyStatus {
  qs_message_id : option bytes;
  qs_received_frames : N;
  qs_total_frames : N;
  qs_complete_text : option bytes;
}.

Record QrReassembler := mkQrReassembler {
  qr_message_id : option bytes;
  qr_total_frames : option N;
  qr_frames : gmap N bytes;
}.
#[global] Instance QrReassembler_fields : FieldList QrReassembler := fun r =>
  mkQrReassembler r.(qr_message_id) r.(qr_total_frames) r.(qr_frames).

Record ParsedQrFrame := mkParsedQrFrame {
  pf_message_id : bytes;
  pf_index : N;
  pf_total : N;
  pf_payload : bytes;
}.

Class TransportCodec := {
  Slate : Type;
  slate_serialize : Slate -> option bytes;
  (** a slate that uses all the bytes *)
  slate_deserialize : bytes -> option Slate;
  base64_encode : bytes -> bytes;
  base64_decode : bytes -> option bytes;
  hex_encode : bytes -> bytes;
  hex_decode : bytes -> option bytes;
  blake2b_256 : bytes -> bytes;
}.

(** ** Fees and kernels *)

Section fees.
(** The constants of dom_core. *)
Context (WEIGHT_INPUT WEIGHT_OUTPUT WEIGHT_KERNEL MIN_RELAY_FEE_RATE : N).
Context (KERNEL_FEAT_PLAIN KERNEL_FEAT_HEIGHT_LOCKED : N).

Definition expected_weight (input_count : N) (change_output : bool)
    : result TErr.ProtocolAdapterError N :=
  let? outputs := ok_or (checked_add u64_max 1 (N.b2n change_output)) TErr.InvalidAmountOrFee in
  fail_if (u32_max <? input_count) TErr.InvalidInput ;?
  fail_if (u32_max <? outputs) TErr.InvalidInput ;?
  Ok (saturating_add u32_max
        (saturating_add u32_max (saturating_mul u32_max input_count WEIGHT_INPUT)
                                (saturating_mul u32_max outputs WEIGHT_OUTPUT))
        WEIGHT_KERNEL).

Definition minimum_fee (input_count : N) (change_output : bool)
    : result TErr.ProtocolAdapterError N :=
  let? weight := expected_weight input_count change_output in
  ok_or (checked_mul u64_max weight MIN_RELAY_FEE_RATE) TErr.InvalidAmountOrFee.

Definition resolve_kernel_lock (kernel_features lock_height : option N)
    : result TErr.ProtocolAdapterError N :=
  let lock_height := default 0 lock_height in
  match kernel_features with
  | None => Ok lock_height
  | Some f =>
      if (f =? KERNEL_FEAT_PLAIN) && (lock_height =? 0) then Ok 0
      else if (f =? KERNEL_FEAT_HEIGHT_LOCKED) && negb (lock_height =? 0) then Ok lock_height
      else Err TErr.InvalidKernelConfiguration
  end.
End fees.

(** ** The text envelope *)

(** The [String]s of a network: anything else is refused. *)
Definition canonical_network (value : bytes) : result TErr.ProtocolAdapterError bytes :=
  if bool_decide (value = str "PRIVATE_TESTNET") || bool_decide (value = str "PUBLIC_TESTNET")
     || bool_decide (value = str "MAINNET")
  then Ok value else Err TErr.InvalidTransport.

(** [take(bytes, &mut offset, length)]; the state is the offset. *)
Definition take (bs : bytes) (length : N) : method N TErr.ProtocolAdapterError bytes :=
  fun offset =>
  match checked_add u64_max offset length with
  | None => (offset, Err TErr.InvalidTransport)
  | Some end_ =>
      if end_ <=? len bs
      then (end_, Ok (firstn (N.to_nat length) (skipn (N.to_nat offset) bs)))
      else (offset, Err TErr.InvalidTransport)
  end.
Definition take_u8 (bs : bytes) : method N TErr.ProtocolAdapterError N :=
  let! b := take bs 1 in mret (of_le_bytes b).
Definition take_array (bs : bytes) (n : N) : method N TErr.ProtocolAdapterError bytes := take bs n.

Section transport.
Context {codec : TransportCodec}.

Definition encode_slate (slate : Slate) : result TErr.ProtocolAdapterError bytes :=
  ok_or (slate_serialize slate) TErr.InvalidCanonicalEncoding.
Definition decode_slate (bs : bytes) : result TErr.ProtocolAdapterError Slate :=
  fail_if (MAX_TRANSPORT_BYTES <? len bs) TErr.InvalidCanonicalEncoding ;?
  ok_or (slate_deserialize bs) TErr.InvalidCanonicalEncoding.
(** [encode_slate(&decode_slate(bytes)?)?] *)
Definition recode_slate (bs : bytes) : result TErr.ProtocolAdapterError bytes :=
  let? slate := decode_slate bs in encode_slate slate.

(** The body of an envelope, which its hash follows. *)
Definition envelope_body (network chain_id : bytes) (slate_id : uuid) (response : bool)
    (slate_bytes : bytes) : bytes :=
  [byte_of 1] ++ [byte_of (N.b2n response)] ++ [byte_of (len network)] ++ network ++ chain_id
  ++ uuid_as_bytes slate_id ++ le_bytes 4 (len slate_bytes) ++ slate_bytes.

Definition export_transport (network chain_id : bytes) (slate_id : uuid) (response : bool)
    (slate_bytes : bytes) : result TErr.ProtocolAdapterError bytes :=
  fail_if (MAX_TRANSPORT_BYTES <? len slate_bytes) TErr.InvalidTransport ;?
  let? canonical := recode_slate slate_bytes in
  fail_if (negb (bool_decide (canonical = slate_bytes))) TErr.InvalidCanonicalEncoding ;?
  let? network := canonical_network network in
  fail_if (255 <? len network) TErr.InvalidTransport ;?
  fail_if (u32_max <? len slate_bytes) TErr.InvalidTransport ;?
  let body := envelope_body network chain_id slate_id response slate_bytes in
  Ok (TRANSPORT_PREFIX ++ base64_encode (body ++ blake2b_256 body)).

(** The fields of the body, read in order; the hash is checked before. *)
Definition read_body (body : bytes) (content_hash : bytes)
    : method N TErr.ProtocolAdapterError TransportEnvelope :=
  let! version := take_u8 body in
  mread (fun _ => fail_if (negb (version =? 1)) TErr.InvalidTransport) ;;;
  let! flag := take_u8 body in
  let! response := mread (fun _ =>
    if flag =? 0 then Ok false else if flag =? 1 then Ok true else Err TErr.InvalidTransport) in
  let! network_len := take_u8 body in
  let! network_bytes := take body network_len in
  mread (fun _ => fail_if (negb (is_utf8 network_bytes)) TErr.InvalidTransport) ;;;
  let! network := mread (fun _ => canonical_network network_bytes) in
  let! chain_id := take_array body 32 in
  let! slate_id := take_array body 16 in
  let! payload_len := take_array body 4 in
  let payload_len := of_le_bytes payload_len in
  mread (fun _ => fail_if (MAX_TRANSPORT_BYTES <? payload_len) TErr.InvalidTransport) ;;;
  let! payload := take body payload_len in
  mread (fun offset => fail_if (negb (offset =? len body)) TErr.InvalidCanonicalEncoding) ;;;
  let! canonical := mread (fun _ => recode_slate payload) in
  mread (fun _ => fail_if (negb (bool_decide (canonical = payload)))
                          TErr.InvalidCanonicalEncoding) ;;;
  mret (mkTransportEnvelope version response network chain_id (uuid_from_bytes slate_id) payload
          content_hash).

(** The longest text that may be imported. *)
Definition MAX_TEXT : N :=
  saturating_add u64_max (saturating_mul u64_max MAX_TRANSPORT_BYTES 2) 128.

Definition import_transport (text : bytes) : result TErr.ProtocolAdapterError TransportEnvelope :=
  fail_if ((MAX_TEXT <? len text) || negb (forallb is_ascii text)
           || existsb is_ascii_whitespace text || negb (starts_with TRANSPORT_PREFIX text))
          TErr.InvalidTransport ;?
  let? encoded := ok_or (strip_prefix TRANSPORT_PREFIX text) TErr.InvalidTransport in
  fail_if (bool_decide (encoded = []) || contains Byte.x3d encoded) TErr.InvalidTransport ;?
  let? bs := ok_or (base64_decode encoded) TErr.InvalidTransport in
  fail_if (len bs <? 1 + 1 + 1 + 32 + 16 + 4 + 32) TErr.InvalidTransport ;?
  let? middle := ok_or (checked_sub (len bs) 32) TErr.InvalidTransport in
  let without_hash := firstn (N.to_nat middle) bs in
  let supplied_hash := skipn (N.to_nat middle) bs in
  fail_if (negb (bool_decide (blake2b_256 without_hash = supplied_hash))) TErr.InvalidTransport ;?
  (read_body without_hash supplied_hash 0).2.

(** ** QR frames *)

(** [bytes.chunks(n)] *)
Fixpoint chunks (fuel : nat) (n : N) (s : bytes) : list bytes :=
  match fuel, s with
  | S fuel, _ :: _ => firstn (N.to_nat n) s :: chunks fuel n (skipn (N.to_nat n) s)
  | _, _ => []
  end.

Definition div_ceil (a b : N) : N := (a + b - 1) / b.

(** What the checksum of a frame covers. *)
Definition integrity (message_id : bytes) (index total : N) (chunk : bytes) : bytes :=
  message_id ++ le_bytes 2 index ++ le_bytes 2 total ++ chunk.

Definition frame_text (message_id : bytes) (index total : N) (chunk : bytes) : bytes :=
  QR_FRAME_PREFIX ++ hex_encode message_id ++ [Byte.x2e] ++ show index ++ [Byte.x2e] ++ show total
  ++ [Byte.x2e] ++ base64_encode chunk ++ [Byte.x2e]
  ++ hex_encode (blake2b_256 (integrity message_id index total chunk)).

(** The [map] over the enumerated chunks, collected into a [Result]. *)
Fixpoint frame_texts (message_id : bytes) (index total : N) (chunks : list bytes)
    : result TErr.ProtocolAdapterError (list bytes) :=
  match chunks with
  | [] => Ok []
  | chunk :: chunks =>
      fail_if (u16_max <? index) TErr.InvalidQrFrame ;?
      let? rest := frame_texts message_id (index + 1) total chunks in
      Ok (frame_text message_id index total chunk :: rest)
  end.

Definition qr_encode_transport (text : bytes) : result TErr.ProtocolAdapterError QrEncoding :=
  let? envelope := import_transport text in
  if len text <=? MAX_QR_SINGLE_TEXT_BYTES then Ok (Single text envelope.(te_content_hash))
  else
    let message_id := envelope.(te_content_hash) in
    let total := div_ceil (len text) QR_FRAME_PAYLOAD_BYTES in
    fail_if ((total =? 0) || (MAX_QR_FRAMES <? total)) TErr.InvalidQrFrame ;?
    fail_if (u16_max <? total) TErr.InvalidQrFrame ;?
    let? frames := frame_texts message_id 0 total (chunks (length text) QR_FRAME_PAYLOAD_BYTES text) in
    Ok (Multi frames message_id).

(** [fields.next().ok_or(..)]; the state is the iterator. *)
Definition next : method (list bytes) TErr.ProtocolAdapterError bytes := fun fields =>
  match fields with
  | [] => ([], Err TErr.InvalidQrFrame)
  | f :: fields => (fields, Ok f)
  end.

Definition MAX_FRAME_TEXT : N :=
  saturating_add u64_max (saturating_mul u64_max QR_FRAME_PAYLOAD_BYTES 2) 256.

Definition parse_fields : method (list bytes) TErr.ProtocolAdapterError ParsedQrFrame :=
  let! first := next in
  mread (fun _ => fail_if (negb (bool_decide (first = str "DOMQR1"))) TErr.InvalidQrFrame) ;;;
  let! id_hex := next in
  let! index := next in
  let! index := mread (fun _ => ok_or (parse_uint u16_max index) TErr.InvalidQrFrame) in
  let! total := next in
  let! total := mread (fun _ => ok_or (parse_uint u16_max total) TErr.InvalidQrFrame) in
  let! encoded := next in
  let! checksum_hex := next in
  mread (fun fields =>
    fail_if (negb (bool_decide (fields = [])) || (total =? 0) || (MAX_QR_FRAMES <? total)
             || (total <=? index) || negb (len id_hex =? 64) || negb (len checksum_hex =? 64)
             || negb (forallb lower_hex id_hex) || negb (forallb lower_hex checksum_hex)
             || contains Byte.x3d encoded) TErr.InvalidQrFrame) ;;;
  let! id := mread (fun _ => ok_or (hex_decode id_hex) TErr.InvalidQrFrame) in
  let! checksum := mread (fun _ => ok_or (hex_decode checksum_hex) TErr.InvalidQrFrame) in
  mread (fun _ => fail_if (negb (len id =? 32)) TErr.InvalidQrFrame) ;;;
  let! payload := mread (fun _ => ok_or (base64_decode encoded) TErr.InvalidQrFrame) in
  mread (fun _ => fail_if (QR_FRAME_PAYLOAD_BYTES <? len payload) TErr.InvalidQrFrame) ;;;
  mread (fun _ => fail_if (negb (bool_decide (blake2b_256 (integrity id index total payload)
                                              = checksum))) TErr.InvalidQrFrame) ;;;
  mret (mkParsedQrFrame id index total payload).

Definition parse_qr_frame (value : bytes) : result TErr.ProtocolAdapterError ParsedQrFrame :=
  fail_if ((MAX_FRAME_TEXT <? len value) || negb (forallb is_ascii value)
           || existsb is_ascii_whitespace value) TErr.InvalidQrFrame ;?
  (parse_fields (split Byte.x2e value)).2.

Definition QrReassembler_default : QrReassembler := mkQrReassembler None None ∅.

Definition frames_len (m : gmap N bytes) : N := N.of_nat (size m).

Definition QrReassembler_status (self : QrReassembler) : QrReassemblyStatus :=
  mkQrReassemblyStatus self.(qr_message_id) (N.min u16_max (frames_len self.(qr_frames)))
    (default 0 self.(qr_total_frames)) None.

Definition QrReassembler_clear (self : QrReassembler) : QrReassembler :=
  self <| qr_message_id := None |> <| qr_total_frames := None |> <| qr_frames := ∅ |>.

(** [0..total] *)
Definition indexes (total : N) : list N := map N.of_nat (seq 0 (N.to_nat total)).

(** All frames are there: join them and import the text. *)
Definition join_frames (self : QrReassembler) (total : N)
    : result TErr.ProtocolAdapterError bytes :=
  let? bs := foldM (fun bs index =>
               let? payload := ok_or (self.(qr_frames) !! index) TErr.InvalidQrFrame in
               Ok (bs ++ payload)) (indexes total) [] in
  fail_if (MAX_TEXT <? len bs) TErr.InvalidQrFrame ;?
  fail_if (negb (is_utf8 bs)) TErr.InvalidQrFrame ;?
  let? envelope := import_transport bs in
  fail_if (negb (bool_decide (Some envelope.(te_content_hash) = self.(qr_message_id))))
          TErr.InvalidQrFrame ;?
  Ok bs.

(** The frame belongs to the message being read; the first one starts it. *)
Definition accept_frame (frame : ParsedQrFrame)
    : method QrReassembler TErr.ProtocolAdapterError unit := fun self =>
  match self.(qr_message_id), self.(qr_total_frames) with
  | None, None => (self <| qr_message_id := Some frame.(pf_message_id) |>
                        <| qr_total_frames := Some frame.(pf_total) |>, Ok tt)
  | Some message_id, Some total =>
      (self, fail_if (negb (bool_decide (message_id = frame.(pf_message_id))
                            && (total =? frame.(pf_total)))) TErr.InvalidQrFrame)
  | _, _ => (self, Err TErr.InvalidQrFrame)
  end.

Definition store_frame (frame : ParsedQrFrame)
    : method QrReassembler TErr.ProtocolAdapterError unit := fun self =>
  match self.(qr_frames) !! frame.(pf_index) with
  | Some existing =>
      (self, fail_if (negb (bool_decide (existing = frame.(pf_payload)))) TErr.InvalidQrFrame)
  | None => (self <| qr_frames ::= <[frame.(pf_index) := frame.(pf_payload)]> |>, Ok tt)
  end.

Definition QrReassembler_push (scanned : bytes)
    : method QrReassembler TErr.ProtocolAdapterError QrReassemblyStatus :=
  if starts_with TRANSPORT_PREFIX scanned then fun self =>
    (self,
     fail_if (bool_decide (is_Some self.(qr_message_id))) TErr.InvalidQrFrame ;?
     let? envelope := import_transport scanned in
     Ok (mkQrReassemblyStatus (Some envelope.(te_content_hash)) 1 1 (Some scanned)))
  else
    let! frame := mread (fun _ => parse_qr_frame scanned) in
    accept_frame frame ;;;
    store_frame frame ;;;
    let! total := mread (fun self => ok_or self.(qr_total_frames) TErr.InvalidQrFrame) in
    mread (fun self => fail_if (total <? frames_len self.(qr_frames)) TErr.InvalidQrFrame) ;;;
    let! complete_text := mread (fun self =>
      if frames_len self.(qr_frames) =? total
      then let? text := join_frames self total in Ok (Some text)
      else Ok None) in
    mread (fun self =>
      fail_if (u16_max <? frames_len self.(qr_frames)) TErr.InvalidQrFrame ;?
      Ok (mkQrReassemblyStatus self.(qr_message_id) (frames_len self.(qr_frames)) total complete_text)).

(** Scanning one text after the other; the last status, as long as none fails. *)
Fixpoint push_all (scans : list bytes) (status : QrReassemblyStatus)
    : method QrReassembler TErr.ProtocolAdapterError QrReassemblyStatus :=
  match scans with
  | [] => mret status
  | scan :: scans => let! status := QrReassembler_push scan in push_all scans status
  end.

End transport.

(** ** What is relied on of the codecs *)

(** Base64 without padding and hex are inverse to their decoders, base64
    decoding is strict (RFC 4648, section 3.5), their outputs stay in their
    alphabets and have the documented sizes, and the hash has 32 bytes. *)
Class TransportLaws (codec : TransportCodec) : Prop := {
  base64_round : forall b, base64_decode (base64_encode b) = Some b;
  base64_strict : forall e b, base64_decode e = Some b -> e = base64_encode b;
  base64_alphabet : forall b, forallb base64_char (base64_encode b) = true;
  base64_size : forall b, 4 * len b <= 3 * len (base64_encode b) <= 4 * len b + 2;
  hex_round : forall b, hex_decode (hex_encode b) = Some b;
  hex_alphabet : forall b, forallb lower_hex (hex_encode b) = true;
  hex_size : forall b, len (hex_encode b) = 2 * len b;
  blake2b_size : forall b, len (blake2b_256 b) = 32;
}.

Lemma base64_char_plain b :
  base64_char b = true ->
  is_ascii b = true /\ is_ascii_whitespace b = false /\ b <> Byte.x3d /\ b <> Byte.x2e.
Proof. by destruct b. Qed.

Lemma lower_hex_plain b :
  lower_hex b = true -> is_ascii b = true /\ is_ascii_whitespace b = false /\ b <> Byte.x2e.
Proof. by destruct b. Qed.

Lemma digit_plain b :
  is_ascii_digit b = true -> is_ascii b = true /\ is_ascii_whitespace b = false /\ b <> Byte.x2e.
Proof. by destruct b. Qed.

(** ** Lemmas: reading the body *)

Lemma len_cons {A} (x : A) l : len (x :: l) = 1 + len l.
Proof. unfold len. simpl. lia. Qed.
Lemma len_nil {A} : len (@nil A) = 0.
Proof. done. Qed.
Lemma len_zero {A} (l : list A) : len l = 0 -> l = [].
Proof. destruct l; [done|]. rewrite len_cons. lia. Qed.

Lemma firstn_len {A} (a b : list A) n : n = len a -> firstn (N.to_nat n) (a ++ b) = a.
Proof. intros ->. unfold len. rewrite Nat2N.id. apply take_app_length. Qed.
Lemma skipn_len {A} (a b : list A) n : n = len a -> skipn (N.to_nat n) (a ++ b) = b.
Proof. intros ->. unfold len. rewrite Nat2N.id. apply drop_app_length. Qed.

(** At offset [o] what is left of [body] is [rest]. *)
Definition left_at (body : bytes) (o : N) (rest : bytes) : Prop :=
  exists pre, body = pre ++ rest /\ o = len pre.

Lemma left_at_end body o rest : left_at body o rest -> (o =? len body) = bool_decide (rest = []).
Proof.
  intros (pre & -> & ->). rewrite len_app. destruct (decide (rest = [])) as [->|H].
  - rewrite bool_decide_eq_true_2 by done. apply N.eqb_eq. rewrite len_nil. lia.
  - rewrite bool_decide_eq_false_2 by done. apply N.eqb_neq. intros E. apply H, len_zero. lia.
Qed.

Lemma take_left body o x rest :
  len body <= u64_max -> left_at body o (x ++ rest) ->
  exists o', take body (len x) o = (o', Ok x) /\ left_at body o' rest.
Proof.
  intros Hlen (pre & -> & ->). exists (len pre + len x). rewrite !len_app in Hlen. split.
  - unfold take, checked_add. rewrite (proj2 (N.leb_le _ _)) by lia.
    rewrite (proj2 (N.leb_le _ _)) by (rewrite !len_app; lia).
    by rewrite skipn_len, firstn_len.
  - exists (pre ++ x). by rewrite <-app_assoc, len_app.
Qed.

Lemma take_inv body o rest n o' x :
  left_at body o rest -> take body n o = (o', Ok x) ->
  exists rest', rest = x ++ rest' /\ len x = n /\ left_at body o' rest'.
Proof.
  intros (pre & -> & ->). unfold take. destruct (checked_add _ _ _) as [e|] eqn:E; [|done].
  apply checked_add_Some in E as [-> _]. destruct (_ <=? _) eqn:Hle; [|done]. bool_inv.
  rewrite skipn_len by done. intros [= <- <-]. rewrite len_app in Hle.
  exists (skipn (N.to_nat n) rest). rewrite firstn_skipn.
  assert (Hn : len (firstn (N.to_nat n) rest) = n).
  { unfold len in *. rewrite length_firstn. lia. }
  split; [done|]. split; [exact Hn|]. exists (pre ++ firstn (N.to_nat n) rest).
  rewrite <-app_assoc, firstn_skipn, len_app, Hn. done.
Qed.

Lemma take_u8_inv body o rest o' n :
  left_at body o rest -> take_u8 body o = (o', Ok n) ->
  exists rest', rest = byte_of n :: rest' /\ n < 256 /\ left_at body o' rest'.
Proof.
  intros Hl H. unfold take_u8 in H. apply mthen_Ok in H as (o1 & x & H1 & [= <- <-]).
  destruct (take_inv _ _ _ _ _ _ Hl H1) as (rest' & -> & Hx & Hl').
  destruct x as [|b [|? ?]]; rewrite ?len_cons, ?len_nil in Hx; try lia.
  exists rest'. simpl. pose proof (to_N_lt b). split; [|split; [lia|done]].
  rewrite N.add_0_r, byte_of_to_N. done.
Qed.

Lemma take_u8_left body o n rest :
  len body <= u64_max -> n < 256 -> left_at body o (byte_of n :: rest) ->
  exists o', take_u8 body o = (o', Ok n) /\ left_at body o' rest.
Proof.
  intros Hlen Hn Hl. destruct (take_left body o [byte_of n] rest Hlen Hl) as (o' & H & Hl').
  exists o'. split; [|done]. unfold take_u8, mthen. change (len [byte_of n]) with 1 in H. rewrite H.
  unfold mret. simpl. rewrite to_N_byte_of, N.mod_small by done. by rewrite N.add_0_r.
Qed.

Lemma canonical_network_Ok v v' :
  canonical_network v = Ok v' -> v' = v /\ len v <= 15 /\ is_utf8 v = true.
Proof.
  unfold canonical_network. destruct (_ || _) eqn:E; [|done]. intros [= <-].
  apply orb_true_iff in E as [[E|E]%orb_true_iff|E]; bool_inv; subst v; done.
Qed.

Section transport_lemmas.
Context {codec : TransportCodec} {laws : TransportLaws codec}.

Definition envelope_body_of (env : TransportEnvelope) : bytes :=
  envelope_body env.(te_network) env.(te_chain_id) env.(te_slate_id) env.(te_response)
    env.(te_payload).

(** An envelope with fields of the right sizes and canonical contents. *)
Record well_formed (env : TransportEnvelope) : Prop := {
  wf_version : env.(te_version) = 1;
  wf_network : canonical_network env.(te_network) = Ok env.(te_network);
  wf_chain : len env.(te_chain_id) = 32;
  wf_slate_id : env.(te_slate_id) < 2 ^ 128;
  wf_payload : len env.(te_payload) <= MAX_TRANSPORT_BYTES;
  wf_canonical : recode_slate env.(te_payload) = Ok env.(te_payload);
}.

Lemma envelope_body_len env :
  well_formed env ->
  55 <= len (envelope_body_of env) <= 70 + len env.(te_payload).
Proof.
  intros [_ H2 H3 _ _ _]. apply canonical_network_Ok in H2 as (_ & Hn & _).
  unfold envelope_body_of, envelope_body. rewrite !len_app, uuid_as_bytes_len, H3.
  unfold len in *. rewrite le_bytes_length. simpl. lia.
Qed.

Lemma read_body_well_formed env :
  well_formed env ->
  (read_body (envelope_body_of env) env.(te_content_hash) 0).2 = Ok env.
Proof.
  intros Hwf. pose proof (envelope_body_len env Hwf) as Hlen. destruct Hwf as [H1 H2 H3 H4 H5 H6].
  unfold MAX_TRANSPORT_BYTES in H5.
  assert (Hmax : len (envelope_body_of env) <= u64_max) by (unfold u64_max; lia).
  assert (Hl : left_at (envelope_body_of env) 0 (envelope_body_of env)) by (by exists []).
  unfold envelope_body_of at 2 in Hl. unfold envelope_body in Hl. unfold read_body.
  destruct (canonical_network_Ok _ _ H2) as (_ & Hn & Hu).
  destruct (take_u8_left _ _ 1 _ Hmax ltac:(lia) Hl) as (o1 & T1 & L1).
  destruct (take_u8_left _ _ (N.b2n (te_response env)) _ Hmax ltac:(destruct (te_response env); simpl; lia) L1) as (o2 & T2 & L2).
  destruct (take_u8_left _ _ (len (te_network env)) _ Hmax ltac:(lia) L2) as (o3 & T3 & L3).
  destruct (take_left _ _ _ _ Hmax L3) as (o4 & T4 & L4).
  destruct (take_left _ _ _ _ Hmax L4) as (o5 & T5 & L5).
  destruct (take_left _ _ _ _ Hmax L5) as (o6 & T6 & L6).
  destruct (take_left _ _ _ _ Hmax L6) as (o7 & T7 & L7).
  rewrite <-(app_nil_r (te_payload env)) in L7.
  destruct (take_left _ _ _ _ Hmax L7) as (o8 & T8 & L8).
  rewrite H3 in T5. rewrite uuid_as_bytes_len in T6. unfold len at 1 in T7. rewrite le_bytes_length in T7.
  change (N.of_nat 4) with 4 in T7. unfold take_array.
  unfold mthen at 1. rewrite T1. cbn [mthen mread fail_if N.eqb negb].
  unfold mthen at 1. rewrite T2. unfold mthen at 1, mread at 1.
  replace (if N.b2n (te_response env) =? 0 then Ok false
           else if N.b2n (te_response env) =? 1 then Ok true else Err TErr.InvalidTransport)
    with (Ok (E := TErr.ProtocolAdapterError) (te_response env)) by (by destruct (te_response env)).
  unfold mthen at 1. rewrite T3. unfold mthen at 1. rewrite T4.
  unfold mthen at 1, mread at 1. rewrite Hu. cbn [negb fail_if].
  unfold mthen at 1, mread at 1. rewrite H2.
  unfold mthen at 1. rewrite T5. unfold mthen at 1. rewrite T6. unfold mthen at 1. rewrite T7.
  rewrite le_bytes_round by (change (256 ^ N.of_nat 4) with 4294967296; lia).
  unfold mthen at 1, mread at 1, MAX_TRANSPORT_BYTES at 1.
  rewrite (proj2 (N.ltb_ge _ _) H5). cbn [fail_if]. unfold mthen at 1. rewrite T8.
  unfold mthen at 1, mread at 1. rewrite (left_at_end _ _ _ L8), bool_decide_eq_true_2 by done.
  cbn [negb fail_if]. unfold mthen at 1, mread at 1. rewrite H6.
  unfold mthen at 1, mread at 1. rewrite bool_decide_eq_true_2 by done. cbn [negb fail_if].
  unfold mret. simpl. rewrite uuid_round by done. rewrite <-H1 at 1. by destruct env.
Qed.

Lemma read_body_inv body hash env :
  (read_body body hash 0).2 = Ok env ->
  well_formed env /\ body = envelope_body_of env /\ env.(te_content_hash) = hash.
Proof.
  intros H. destruct (read_body body hash 0) as [o r] eqn:E. simpl in H. subst r.
  unfold read_body in E. assert (L0 : left_at body 0 body) by (by exists []).
  apply mthen_Ok in E as (o1 & v & T & E). destruct (take_u8_inv _ _ _ _ _ L0 T) as (r1 & -> & _ & L1).
  apply mthen_Ok in E as (? & [] & [= <- Hv%fail_if_Ok] & E). bool_inv.
  apply mthen_Ok in E as (o2 & f & T2 & E). destruct (take_u8_inv _ _ _ _ _ L1 T2) as (r2 & -> & _ & L2).
  apply mthen_Ok in E as (? & resp & [= <- Hf] & E).
  apply mthen_Ok in E as (o3 & n & T3 & E). destruct (take_u8_inv _ _ _ _ _ L2 T3) as (r3 & -> & _ & L3).
  apply mthen_Ok in E as (o4 & net & T4 & E). destruct (take_inv _ _ _ _ _ _ L3 T4) as (r4 & -> & Hn & L4).
  apply mthen_Ok in E as (? & [] & [= <- _] & E).
  apply mthen_Ok in E as (? & net' & [= <- Hnet] & E).
  destruct (canonical_network_Ok _ _ Hnet) as (-> & _ & _).
  apply mthen_Ok in E as (o5 & chain & T5 & E). destruct (take_inv _ _ _ _ _ _ L4 T5) as (r5 & -> & Hc & L5).
  apply mthen_Ok in E as (o6 & sid & T6 & E). destruct (take_inv _ _ _ _ _ _ L5 T6) as (r6 & -> & Hs & L6).
  apply mthen_Ok in E as (o7 & pl & T7 & E). destruct (take_inv _ _ _ _ _ _ L6 T7) as (r7 & -> & Hp & L7).
  apply mthen_Ok in E as (? & [] & [= <- Hmax%fail_if_Ok] & E). bool_inv.
  apply mthen_Ok in E as (o8 & payload & T8 & E). destruct (take_inv _ _ _ _ _ _ L7 T8) as (r8 & -> & Hpl & L8).
  apply mthen_Ok in E as (? & [] & [= <- Hend%fail_if_Ok] & E).
  rewrite (left_at_end _ _ _ L8) in Hend. bool_inv. subst r8. rewrite app_nil_r.
  apply mthen_Ok in E as (? & canonical & [= <- Hrec] & E).
  apply mthen_Ok in E as (? & [] & [= <- Hcan%fail_if_Ok] & E). bool_inv. subst canonical.
  injection E as _ <-. split; [|split; [|done]].
  - constructor; simpl; try done. + by apply uuid_bound. + by rewrite Hpl.
  - unfold envelope_body_of, envelope_body.
    cbn [te_network te_chain_id te_slate_id te_response te_payload]. subst v n. rewrite uuid_bytes_round by done.
    rewrite Hpl. replace (le_bytes 4 (of_le_bytes pl)) with pl.
    + destruct (f =? 0) eqn:F0; bool_inv; [|destruct (f =? 1) eqn:F1; bool_inv; [|done]];
        injection Hf as <-; subst f; done.
    + replace 4%nat with (length pl) by (unfold len in Hp; lia). by rewrite of_le_bytes_round.
Qed.

Lemma export_Ok network chain_id slate_id response slate_bytes text :
  export_transport network chain_id slate_id response slate_bytes = Ok text <->
  len slate_bytes <= MAX_TRANSPORT_BYTES /\ recode_slate slate_bytes = Ok slate_bytes
  /\ canonical_network network = Ok network
  /\ text = TRANSPORT_PREFIX
            ++ base64_encode (envelope_body network chain_id slate_id response slate_bytes
                 ++ blake2b_256 (envelope_body network chain_id slate_id response slate_bytes)).
Proof.
  unfold export_transport. split.
  - intros H. apply then_Ok in H as [H1%fail_if_Ok H]. apply rbind_Ok in H as (c & Hc & H).
    apply then_Ok in H as [Hcc%fail_if_Ok H]. apply rbind_Ok in H as (n & Hn & H).
    destruct (canonical_network_Ok _ _ Hn) as (-> & _ & _).
    apply then_Ok in H as [_ H]. apply then_Ok in H as [_ H]. injection H as <-. bool_inv. by subst c.
  - intros (H1 & H2 & H3 & ->). rewrite (proj2 (N.ltb_ge _ _) H1), H2. cbn [fail_if rbind].
    rewrite bool_decide_eq_true_2 by done. cbn [negb fail_if rbind]. rewrite H3.
    destruct (canonical_network_Ok _ _ H3) as (_ & Hn & _). cbn [rbind].
    rewrite (proj2 (N.ltb_ge 255 _)) by lia. rewrite (proj2 (N.ltb_ge u32_max _)) by
      (unfold u32_max; unfold MAX_TRANSPORT_BYTES in H1; lia). done.
Qed.

Lemma forallb_impl {A} (p q : A -> bool) l :
  (forall x, p x = true -> q x = true) -> forallb p l = true -> forallb q l = true.
Proof. rewrite !forallb_forall. auto. Qed.

Lemma no_whitespace (p : Byte.byte -> bool) l :
  (forall x, p x = true -> is_ascii_whitespace x = false) -> forallb p l = true ->
  existsb is_ascii_whitespace l = false.
Proof.
  intros Hp. induction l as [|x l IH]; [done|]. cbn. intros [Hx Hl]%andb_true_iff.
  by rewrite (Hp x Hx), IH.
Qed.

Lemma base64_plain b :
  forallb is_ascii (base64_encode b) = true /\ existsb is_ascii_whitespace (base64_encode b) = false
  /\ Byte.x3d ∉ base64_encode b /\ Byte.x2e ∉ base64_encode b.
Proof.
  pose proof (base64_alphabet b) as H. split; [|split; [|split]].
  - eapply forallb_impl; [|exact H]. intros x Hx. by apply base64_char_plain.
  - eapply no_whitespace; [|exact H]. intros x Hx. by apply base64_char_plain.
  - intros Hx%list_elem_of_In. rewrite forallb_forall in H. by apply H in Hx.
  - intros Hx%list_elem_of_In. rewrite forallb_forall in H. by apply H in Hx.
Qed.

Lemma import_Ok text env :
  import_transport text = Ok env <->
  well_formed env /\ env.(te_content_hash) = blake2b_256 (envelope_body_of env)
  /\ text = TRANSPORT_PREFIX ++ base64_encode (envelope_body_of env ++ blake2b_256 (envelope_body_of env)).
Proof.
  unfold import_transport. split.
  - intros H. apply then_Ok in H as [_ H]. apply rbind_Ok in H as (encoded & He & H).
    apply ok_or_Ok, strip_prefix_Some in He. apply then_Ok in H as [_ H].
    apply rbind_Ok in H as (bs & Hbs & H). apply ok_or_Ok, base64_strict in Hbs.
    apply then_Ok in H as [_ H]. apply rbind_Ok in H as (m & Hm & H).
    apply then_Ok in H as [Hh%fail_if_Ok H]. bool_inv.
    apply read_body_inv in H as (Hwf & Hb & Hc). rewrite <-Hb, Hh. split; [done|]. split; [done|].
    by rewrite firstn_skipn, He, Hbs.
  - intros (Hwf & Hc & ->). set (body := envelope_body_of env) in *.
    pose proof (envelope_body_len env Hwf) as Hlen. fold body in Hlen. pose proof (wf_payload _ Hwf) as Hp.
    unfold MAX_TRANSPORT_BYTES in Hp. pose proof (blake2b_size body) as Hh.
    set (bs := body ++ blake2b_256 body). assert (Hbs : len bs = len body + 32) by (by unfold bs; rewrite len_app, Hh).
    destruct (base64_plain bs) as (P1 & P2 & P3 & _). pose proof (base64_size bs) as Hs.
    rewrite forallb_app, existsb_app, P1, P2. rewrite (proj2 (N.ltb_ge MAX_TEXT _)).
    2:{ rewrite len_app. change (len TRANSPORT_PREFIX) with 10. change MAX_TEXT with 2097280. lia. }
    assert (Hsp : strip_prefix TRANSPORT_PREFIX (TRANSPORT_PREFIX ++ base64_encode bs)
                  = Some (base64_encode bs)) by (by apply strip_prefix_Some).
    unfold starts_with. rewrite Hsp, bool_decide_eq_true_2 by done.
    change (forallb is_ascii TRANSPORT_PREFIX) with true.
    change (existsb is_ascii_whitespace TRANSPORT_PREFIX) with false. cbn [andb orb negb fail_if rbind ok_or].
    rewrite bool_decide_eq_false_2 by (intros E; rewrite E in Hs; change (len (@nil Byte.byte)) with 0 in Hs; lia).
    rewrite (proj2 (contains_false _ _) P3). cbn [orb fail_if rbind].
    rewrite base64_round. cbn [ok_or rbind]. rewrite (proj2 (N.ltb_ge (len bs) _)) by lia.
    cbn [fail_if rbind]. unfold checked_sub. rewrite (proj2 (N.leb_le 32 _)) by lia. cbn [ok_or rbind].
    assert (Hm : len bs - 32 = len body) by lia. rewrite Hm.
    assert (Ht : firstn (N.to_nat (len body)) bs = body) by (by apply firstn_len).
    assert (Hd : skipn (N.to_nat (len body)) bs = blake2b_256 body) by (by apply skipn_len).
    rewrite Ht, Hd.
    rewrite bool_decide_eq_true_2 by done.
    cbn [negb fail_if rbind]. rewrite <-Hc. by apply read_body_well_formed.
Qed.

(** ** Lemmas: QR frames *)

Lemma chunks_spec fuel n s :
  0 < n -> (length s <= fuel)%nat ->
  concat (chunks fuel n s) = s
  /\ Forall (fun c => len c <= n) (chunks fuel n s)
  /\ len (chunks fuel n s) = div_ceil (len s) n.
Proof.
  intros Hn. revert s. induction fuel as [|fuel IH]; intros s Hf.
  - destruct s; [|simpl in Hf; lia]. split; [done|]. split; [constructor|].
    unfold div_ceil. change (len (@nil Byte.byte)) with 0. rewrite N.div_small; [done|lia].
  - destruct s as [|x s].
    + split; [done|]. split; [constructor|]. unfold div_ceil. change (len (@nil Byte.byte)) with 0.
      rewrite N.div_small; [done|lia].
    + cbn [chunks]. set (k := N.to_nat n). assert (Hk : (0 < k)%nat) by lia.
      destruct (IH (skipn k (x :: s))) as (H1 & H2 & H3).
      { rewrite length_skipn. cbn [length] in *. lia. }
      cbn [concat]. rewrite H1, firstn_skipn. split; [done|]. split.
      { constructor; [|done]. unfold len. rewrite length_firstn. lia. }
      rewrite len_cons, H3. unfold div_ceil, len. rewrite length_skipn. cbn [length] in *.
      destruct (decide (k <= S (length s)))%nat as [Hle|Hgt].
      * replace (N.of_nat (S (length s)) + n - 1)
          with (N.of_nat (S (length s) - k) + n - 1 + 1 * n) by lia.
        rewrite N.div_add by lia. lia.
      * replace (S (length s) - k)%nat with 0%nat by lia. change (N.of_nat 0) with 0.
        rewrite (N.div_small (0 + n - 1)) by lia. apply (N.div_unique _ _ _ (N.of_nat (length s))); lia.
Qed.

Lemma show_len n : len (show n) <= 20.
Proof. unfold show, len. pose proof (digits_length 20 n []). cbn [length] in *. lia. Qed.

Definition plain (s : bytes) : Prop :=
  forallb is_ascii s = true /\ existsb is_ascii_whitespace s = false.
Lemma plain_app a b : plain a -> plain b -> plain (a ++ b).
Proof. unfold plain. rewrite forallb_app, existsb_app. by intros [-> ->] [-> ->]. Qed.
Lemma show_plain n : plain (show n) /\ Byte.x2e ∉ show n.
Proof.
  pose proof (show_digits n) as H. split; [split|].
  - eapply forallb_impl; [|exact H]. intros x Hx. by apply digit_plain.
  - eapply no_whitespace; [|exact H]. intros x Hx. by apply digit_plain.
  - intros Hx%list_elem_of_In. rewrite forallb_forall in H. by apply H in Hx.
Qed.
Lemma hex_plain b : plain (hex_encode b) /\ Byte.x2e ∉ hex_encode b.
Proof.
  pose proof (hex_alphabet b) as H. split; [split|].
  - eapply forallb_impl; [|exact H]. intros x Hx. by apply lower_hex_plain.
  - eapply no_whitespace; [|exact H]. intros x Hx. by apply lower_hex_plain.
  - intros Hx%list_elem_of_In. rewrite forallb_forall in H. by apply H in Hx.
Qed.

Lemma frame_fields message_id index total chunk :
  split Byte.x2e (frame_text message_id index total chunk)
  = [str "DOMQR1"; hex_encode message_id; show index; show total; base64_encode chunk;
     hex_encode (blake2b_256 (integrity message_id index total chunk))].
Proof.
  unfold frame_text. change QR_FRAME_PREFIX with (str "DOMQR1" ++ [Byte.x2e]).
  rewrite <-app_assoc. cbn [app]. rewrite split_field by (by apply contains_false).
  rewrite split_field by apply hex_plain. rewrite !split_field by apply show_plain.
  rewrite split_field by apply base64_plain. by rewrite split_last by apply hex_plain.
Qed.

Lemma frame_text_plain message_id index total chunk :
  plain (frame_text message_id index total chunk)
  /\ (len message_id = 32 -> len chunk <= QR_FRAME_PAYLOAD_BYTES ->
      len (frame_text message_id index total chunk) <= MAX_FRAME_TEXT).
Proof.
  split.
  - unfold frame_text. destruct (base64_plain chunk) as (P1 & P2 & _ & _).
    repeat apply plain_app; try done; try apply hex_plain; try apply show_plain.
  - intros Hm Hc. unfold frame_text. rewrite !len_app, !hex_size, blake2b_size, Hm.
    pose proof (show_len index). pose proof (show_len total). pose proof (base64_size chunk).
    unfold QR_FRAME_PAYLOAD_BYTES in Hc. change (len QR_FRAME_PREFIX) with 7.
    change (len [Byte.x2e]) with 1. change MAX_FRAME_TEXT with 1456. lia.
Qed.

Lemma parse_frame_text message_id index total chunk :
  len message_id = 32 -> index < total -> total <= MAX_QR_FRAMES ->
  len chunk <= QR_FRAME_PAYLOAD_BYTES ->
  parse_qr_frame (frame_text message_id index total chunk)
  = Ok (mkParsedQrFrame message_id index total chunk).
Proof.
  intros Hm Hi Ht Hc. unfold MAX_QR_FRAMES in Ht. unfold parse_qr_frame.
  destruct (frame_text_plain message_id index total chunk) as [[P1 P2] P3].
  rewrite P1, P2, (proj2 (N.ltb_ge _ _) (P3 Hm Hc)), frame_fields. cbn [negb orb fail_if rbind].
  unfold parse_fields, mthen, mread, next.
  rewrite bool_decide_eq_true_2 by done. cbn [negb fail_if].
  rewrite (parse_show u16_max index), (parse_show u16_max total) by (unfold u16_max, u64_max; lia).
  cbn [ok_or]. rewrite bool_decide_eq_true_2 by done. rewrite (proj2 (N.eqb_neq total 0)) by lia.
  unfold MAX_QR_FRAMES. rewrite (proj2 (N.ltb_ge 128 total)) by lia.
  rewrite (proj2 (N.leb_gt total index)) by lia. rewrite !hex_size, blake2b_size, Hm, !hex_alphabet.
  destruct (base64_plain chunk) as (_ & _ & P4 & _). rewrite (proj2 (contains_false _ _) P4).
  cbn [negb orb N.mul Pos.mul N.eqb Pos.eqb fail_if]. rewrite !hex_round. cbn [ok_or]. rewrite Hm.
  cbn [N.eqb Pos.eqb negb fail_if]. rewrite base64_round. cbn [ok_or].
  rewrite (proj2 (N.ltb_ge _ _) Hc). cbn [fail_if]. by rewrite bool_decide_eq_true_2.
Qed.

(** ** Lemmas: reassembly *)

Lemma frame_texts_Ok message_id total cs index frames :
  frame_texts message_id index total cs = Ok frames ->
  frames = imap (fun i c => frame_text message_id (index + N.of_nat i) total c) cs.
Proof.
  revert index frames. induction cs as [|c cs IH]; intros index frames H; cbn [frame_texts] in H.
  - by injection H as <-.
  - apply then_Ok in H as [_ H]. apply rbind_Ok in H as (rest & Hr & [= <-]). apply IH in Hr as ->.
    cbn [imap]. f_equal; [f_equal; lia|]. apply imap_ext. intros i x _. unfold compose. f_equal. lia.
Qed.

(** The message: its identifier and its chunks. *)
Section message.
Context (message_id : bytes) (cs : list bytes).
Hypothesis Hid : len message_id = 32.
Hypothesis Hcount : 0 < len cs <= MAX_QR_FRAMES.
Hypothesis Hchunks : Forall (fun c => len c <= QR_FRAME_PAYLOAD_BYTES) cs.

Definition all_frames : gmap N bytes := list_to_map (imap (fun i c => (N.of_nat i, c)) cs).
Definition nth_frame (i : nat) (c : bytes) : bytes := frame_text message_id (N.of_nat i) (len cs) c.

Lemma all_frames_NoDup : NoDup (imap (fun i (c : bytes) => (N.of_nat i, c)) cs).*1.
Proof using.
  clear message_id Hid Hcount Hchunks. apply NoDup_alt. intros a b x. rewrite !list_lookup_fmap, !list_lookup_imap.
  destruct (cs !! a), (cs !! b); simpl; try done. intros [= E1] [= E2]. lia.
Qed.

Lemma lookup_all_frames i : all_frames !! i = cs !! N.to_nat i.
Proof using.
  apply option_eq. intros c. unfold all_frames.
  rewrite <-elem_of_list_to_map by apply all_frames_NoDup. rewrite list_elem_of_lookup.
  setoid_rewrite list_lookup_imap. split.
  - intros (j & Hj). destruct (cs !! j) eqn:E; [|done]. injection Hj as <- <-. by rewrite Nat2N.id.
  - intros H. exists (N.to_nat i). rewrite H. simpl. by rewrite N2Nat.id.
Qed.

Lemma frames_len_all : frames_len all_frames = len cs.
Proof using.
  unfold frames_len, len, all_frames. rewrite map_size_list_to_map by apply all_frames_NoDup.
  by rewrite length_imap.
Qed.

Lemma parse_nth i c :
  cs !! i = Some c ->
  parse_qr_frame (nth_frame i c) = Ok (mkParsedQrFrame message_id (N.of_nat i) (len cs) c).
Proof.
  intros Hi. apply parse_frame_text; [done| | |].
  - apply lookup_lt_Some in Hi. unfold len. lia.
  - lia.
  - rewrite Forall_forall in Hchunks. apply Hchunks. by eapply list_elem_of_lookup_2.
Qed.

(** After scanning [seen]: the frames held are those seen, with their chunks. *)
Definition reassembling (seen : list bytes) (st : QrReassembler) : Prop :=
  (st = QrReassembler_default /\ seen = []
   \/ st.(qr_message_id) = Some message_id /\ st.(qr_total_frames) = Some (len cs))
  /\ forall i c, st.(qr_frames) !! N.of_nat i = Some c <->
       cs !! i = Some c /\ nth_frame i c ∈ seen.

Lemma reassembling_subset seen st : reassembling seen st -> st.(qr_frames) ⊆ all_frames.
Proof.
  intros [_ H]. apply map_subseteq_spec. intros i c Hi. rewrite lookup_all_frames.
  rewrite <-(N2Nat.id i) in Hi. by apply H in Hi as [Hi _].
Qed.

Lemma reassembling_len seen st : reassembling seen st -> frames_len st.(qr_frames) <= len cs.
Proof.
  intros H%reassembling_subset%map_subseteq_size. rewrite <-frames_len_all. unfold frames_len. lia.
Qed.

Lemma nth_frame_inj i j c d :
  cs !! i = Some c -> cs !! j = Some d -> nth_frame i c = nth_frame j d -> i = j.
Proof.
  intros Hi%parse_nth Hj%parse_nth E. rewrite E, Hj in Hi. injection Hi as E' _. lia.
Qed.

(** A frame of the message is accepted and stored. *)
Lemma accept_store seen st i c :
  reassembling seen st -> cs !! i = Some c ->
  exists st', (accept_frame (mkParsedQrFrame message_id (N.of_nat i) (len cs) c) ;;;
               store_frame (mkParsedQrFrame message_id (N.of_nat i) (len cs) c)) st = (st', Ok tt)
  /\ reassembling (nth_frame i c :: seen) st' /\ st'.(qr_message_id) = Some message_id
  /\ st'.(qr_total_frames) = Some (len cs).
Proof.
  intros [Hst Hm] Hi.
  assert (exists st1, accept_frame (mkParsedQrFrame message_id (N.of_nat i) (len cs) c) st = (st1, Ok tt)
            /\ st1.(qr_message_id) = Some message_id /\ st1.(qr_total_frames) = Some (len cs)
            /\ st1.(qr_frames) = st.(qr_frames)) as (st1 & H1 & E1 & E2 & E3).
  { destruct Hst as [[-> ->] | [A B]].
    - eexists. split; [reflexivity|done].
    - exists st. split; [|done]. unfold accept_frame. rewrite A, B. simpl.
      by rewrite bool_decide_eq_true_2, N.eqb_refl by done. }
  unfold mthen. rewrite H1. unfold store_frame. simpl. rewrite E3.
  destruct (qr_frames st !! N.of_nat i) as [d|] eqn:Hd.
  - pose proof Hd as Hd'. apply Hm in Hd' as [Hd' Hseen]. rewrite Hi in Hd'. injection Hd' as <-.
    rewrite bool_decide_eq_true_2 by done. exists st1. split; [done|]. split; [|done].
    split; [by right|]. intros j d. rewrite E3, Hm, elem_of_cons. split; [naive_solver|].
    intros [Hj [E|Hj']]; [|done]. split; [done|]. rewrite E. exact Hseen.
  - eexists. split; [reflexivity|]. split; [|done]. split; [by right|]. intros j d. simpl.
    destruct (decide (i = j)) as [<-|Hne].
    + rewrite lookup_insert_eq, elem_of_cons. split; [intros [= <-]; by split; [|left]|].
      intros [Hj _]. congruence.
    + rewrite lookup_insert_ne by lia. rewrite Hm, elem_of_cons. split; [naive_solver|].
      intros [Hj [E|Hj']]; [|done]. exfalso. apply Hne. symmetry. by eapply nth_frame_inj.
Qed.


Lemma foldM_concat (m : gmap N bytes) l a acc :
  (forall i c, l !! i = Some c -> m !! N.of_nat (a + i) = Some c) ->
  foldM (fun bs index => let? payload := ok_or (m !! index) TErr.InvalidQrFrame in Ok (bs ++ payload))
        (map N.of_nat (seq a (length l))) acc
  = Ok (acc ++ concat l).
Proof.
  revert a acc. induction l as [|c l IH]; intros a acc H; simpl; [by rewrite app_nil_r|].
  pose proof (H 0%nat c eq_refl) as H0. rewrite Nat.add_0_r in H0. rewrite H0. simpl.
  rewrite IH; [by rewrite <-app_assoc|]. intros i d Hi. rewrite <-(H (S i) d Hi). f_equal. lia.
Qed.

Context (text : bytes) (env : TransportEnvelope).
Hypothesis Htext : concat cs = text.
Hypothesis Himport : import_transport text = Ok env.
Hypothesis Henv : env.(te_content_hash) = message_id.

Lemma import_plain : len text <= MAX_TEXT /\ is_utf8 text = true.
Proof.
  unfold import_transport in Himport. apply then_Ok in Himport as [H%fail_if_Ok _]. bool_inv.
  split; [done|]. by apply ascii_is_utf8.
Qed.

Lemma join_all st :
  st.(qr_message_id) = Some message_id -> st.(qr_frames) = all_frames ->
  join_frames st (len cs) = Ok text.
Proof.
  intros Hm Hf. unfold join_frames. rewrite Hf. unfold indexes, len at 1. rewrite Nat2N.id.
  rewrite (foldM_concat all_frames cs 0 []).
  2:{ intros i c Hi. rewrite lookup_all_frames. by rewrite Nat2N.id. }
  cbn [rbind app]. rewrite Htext. destruct import_plain as [Hl Hu].
  rewrite (proj2 (N.ltb_ge _ _) Hl), Hu. cbn [negb fail_if rbind]. rewrite Himport. cbn [rbind].
  rewrite Hm, Henv. by rewrite bool_decide_eq_true_2.
Qed.

(** All frames have been seen. *)
Definition complete (seen : list bytes) : Prop := forall i c, cs !! i = Some c -> nth_frame i c ∈ seen.

Lemma complete_iff seen st :
  reassembling seen st -> frames_len st.(qr_frames) = len cs <-> complete seen.
Proof.
  intros H. pose proof (reassembling_subset _ _ H) as Hsub. destruct H as [_ Hm]. split.
  - intros E i c Hi. assert (st.(qr_frames) = all_frames) as Eq.
    { apply map_subseteq_size_eq; [done|]. unfold frames_len in E. rewrite <-frames_len_all in E.
      unfold frames_len in E. lia. }
    apply Hm. rewrite Eq, lookup_all_frames. by rewrite Nat2N.id.
  - intros Hc. assert (st.(qr_frames) = all_frames) as ->; [|apply frames_len_all].
    apply (anti_symm (⊆)); [done|]. apply map_subseteq_spec. intros i c. rewrite lookup_all_frames.
    intros Hi. rewrite <-(N2Nat.id i). apply Hm. split; [done|]. by apply Hc.
Qed.

Lemma complete_frames seen st :
  reassembling seen st -> frames_len st.(qr_frames) = len cs -> st.(qr_frames) = all_frames.
Proof.
  intros H E. apply map_subseteq_size_eq; [by eapply reassembling_subset|].
  rewrite <-frames_len_all in E. unfold frames_len in E. lia.
Qed.

Lemma push_nth seen st i c :
  reassembling seen st -> cs !! i = Some c ->
  exists st' status, QrReassembler_push (nth_frame i c) st = (st', Ok status)
  /\ reassembling (nth_frame i c :: seen) st'
  /\ status.(qs_message_id) = Some message_id /\ status.(qs_total_frames) = len cs
  /\ status.(qs_received_frames) = frames_len st'.(qr_frames)
  /\ (complete (nth_frame i c :: seen) -> status.(qs_complete_text) = Some text)
  /\ (~ complete (nth_frame i c :: seen) -> status.(qs_complete_text) = None).
Proof.
  intros H Hi. destruct (accept_store _ _ _ _ H Hi) as (st' & Hst & Hr & E1 & E2).
  pose proof (reassembling_len _ _ Hr) as Hle. pose proof (complete_iff _ _ Hr) as Hc.
  unfold MAX_QR_FRAMES in Hcount. exists st'. eexists. split.
  - unfold QrReassembler_push. change (starts_with TRANSPORT_PREFIX (nth_frame i c)) with false. cbv iota.
    unfold mthen at 1, mread at 1. rewrite (parse_nth _ _ Hi).
    apply mthen_Ok in Hst as (st1 & [] & A1 & A2). unfold mthen at 1. rewrite A1.
    unfold mthen at 1. rewrite A2. unfold mthen at 1, mread at 1. rewrite E2. cbn [ok_or].
    unfold mthen at 1, mread at 1. rewrite (proj2 (N.ltb_ge _ _) Hle). cbn [fail_if].
    unfold mthen at 1, mread at 1.
    assert (Ej : (if frames_len (qr_frames st') =? len cs
             then let? text := join_frames st' (len cs) in Ok (Some text) else Ok None)
            = Ok (E := TErr.ProtocolAdapterError)
                 (if frames_len (qr_frames st') =? len cs then Some text else None)).
    { destruct (_ =? _) eqn:Eq; [|done]. bool_inv. rewrite join_all; [done..|].
      by eapply complete_frames. }
    rewrite Ej. unfold mread. rewrite (proj2 (N.ltb_ge u16_max _)) by (unfold u16_max; lia).
    rewrite E1. reflexivity.
  - cbn [qs_message_id qs_total_frames qs_received_frames qs_complete_text]. split; [done|].
    split; [done|]. split; [done|]. split; [done|]. split; intros Hcomp.
    + apply Hc in Hcomp. by rewrite (proj2 (N.eqb_eq _ _) Hcomp).
    + destruct (_ =? _) eqn:Eq; [|done]. bool_inv. exfalso. by apply Hcomp, Hc.
Qed.

Lemma push_all_frames scans seen st status0 :
  reassembling seen st -> scans <> [] ->
  (forall x, x ∈ scans -> exists i c, cs !! i = Some c /\ x = nth_frame i c) ->
  exists st' status, push_all scans status0 st = (st', Ok status)
  /\ status.(qs_message_id) = Some message_id /\ status.(qs_total_frames) = len cs
  /\ (complete (scans ++ seen) -> status.(qs_complete_text) = Some text)
  /\ (~ complete (scans ++ seen) -> status.(qs_complete_text) = None).
Proof.
  revert seen st status0. induction scans as [|x scans IH]; intros seen st status0 H Hne Hx; [done|].
  destruct (Hx x ltac:(left)) as (i & c & Hi & ->).
  destruct (push_nth _ _ _ _ H Hi) as (st1 & status & P1 & P2 & P3 & P4 & _ & P5 & P6).
  cbn [push_all]. unfold mthen. rewrite P1. destruct (decide (scans = [])) as [->|Hs].
  - exists st1, status. done.
  - destruct (IH _ st1 status P2 Hs) as (st' & status' & Q1 & Q2 & Q3 & Q4 & Q5).
    { intros y Hy. apply Hx. by right. }
    exists st', status'. split; [done|]. split; [done|]. split; [done|].
    assert (E : complete (scans ++ nth_frame i c :: seen) <-> complete ((nth_frame i c :: scans) ++ seen)).
    { unfold complete. apply forall_proper; intros j. apply forall_proper; intros d.
      by rewrite <-Permutation_middle. }
    rewrite E in Q4, Q5. done.
Qed.
End message.
End transport_lemmas.

(** ** Theorems *)

Section transport_theorems.
Context {codec : TransportCodec} {laws : TransportLaws codec}.

(** C39 The text envelope is a bijection: importing a text gives an envelope if
    and only if exporting that envelope gives the text, its version is 1, its
    identifiers have their sizes and its content hash is that of its body.  So
    every export can be imported unchanged, and no other text is accepted. *)
Theorem import_accepts_exactly_exports text env :
  import_transport text = Ok env <->
  export_transport env.(te_network) env.(te_chain_id) env.(te_slate_id) env.(te_response)
    env.(te_payload) = Ok text
  /\ env.(te_version) = 1 /\ len env.(te_chain_id) = 32 /\ env.(te_slate_id) < 2 ^ 128
  /\ env.(te_content_hash) = blake2b_256 (envelope_body_of env).
Proof.
  rewrite import_Ok, export_Ok. split.
  - intros ([H1 H2 H3 H4 H5 H6] & Hc & Ht). done.
  - intros ((H5 & H6 & H2 & Ht) & H1 & H3 & H4 & Hc). done.
Qed.

(** QR frames may be scanned in any order and any number of times: every
    scan of a frame of the message succeeds, and the original text comes back
    exactly when all frames have been seen, and nothing before. *)
Theorem qr_reassembles_in_any_order text frames hash scans status0
    (Hencode : qr_encode_transport text = Ok (Multi frames hash))
    (Hscans : scans <> []) (Hframes : forall x, x ∈ scans -> x ∈ frames) :
  exists st status, push_all scans status0 QrReassembler_default = (st, Ok status)
  /\ status.(qs_message_id) = Some hash /\ status.(qs_total_frames) = len frames
  /\ ((forall x, x ∈ frames -> x ∈ scans) -> status.(qs_complete_text) = Some text)
  /\ (~ (forall x, x ∈ frames -> x ∈ scans) -> status.(qs_complete_text) = None).
Proof.
  unfold qr_encode_transport in Hencode. apply rbind_Ok in Hencode as (env & Henv & H).
  destruct (_ <=? _); [done|]. apply then_Ok in H as [Ht%fail_if_Ok H]. apply then_Ok in H as [_ H].
  apply rbind_Ok in H as (fs & Hfs & [= <- <-]). bool_inv.
  destruct (chunks_spec (length text) QR_FRAME_PAYLOAD_BYTES text eq_refl (le_n _)) as (C1 & C2 & C3).
  set (cs := chunks (length text) QR_FRAME_PAYLOAD_BYTES text) in *. rewrite <-C3 in *.
  apply frame_texts_Ok in Hfs. pose proof Henv as Hwf. apply import_Ok in Hwf as (_ & Hh & _).
  set (id := te_content_hash env) in *.
  assert (Hid : len id = 32) by (rewrite Hh; apply blake2b_size).
  assert (Hin : forall x, x ∈ fs <-> exists i c, cs !! i = Some c /\ x = nth_frame id cs i c).
  { intros x. rewrite Hfs, list_elem_of_lookup. setoid_rewrite list_lookup_imap.
    split; intros [i Hi]; exists i.
    - destruct (cs !! i) as [c|]; [|done]. exists c. injection Hi as <-. done.
    - destruct Hi as (c & -> & ->). done. }
  assert (Hlen : len fs = len cs) by (rewrite Hfs; unfold len; by rewrite length_imap).
  destruct (push_all_frames id cs Hid ltac:(lia) C2 text env C1 Henv eq_refl scans []
              QrReassembler_default status0) as (st & status & P1 & P2 & P3 & P4 & P5).
  - split; [by left|]. intros i c. simpl. rewrite lookup_empty. split; [done|].
    by intros [_ Hx%not_elem_of_nil].
  - done.
  - intros x Hx. by apply Hin, Hframes.
  - exists st, status. rewrite Hlen. split; [done|]. split; [done|]. split; [done|].
    rewrite app_nil_r in P4, P5. assert (E : complete id cs scans <-> forall x, x ∈ fs -> x ∈ scans).
    { unfold complete. split.
      - intros Hall x (i & c & Hi & ->)%Hin. by apply Hall.
      - intros Hall i c Hi. apply Hall, Hin. by exists i, c. }
    rewrite E in P4, P5. done.
Qed.
End transport_theorems.

(** ** Witnesses *)

(** The reference encodings, slates that are their own bytes, and the sum of
    the bytes in place of the hash. *)
#[global] Instance sample_transport_codec : TransportCodec := {|
  Slate := bytes;
  slate_serialize := Some;
  slate_deserialize := Some;
  base64_encode := b64_encode;
  base64_decode := b64_decode;
  hex_encode := hex;
  hex_decode := unhex;
  blake2b_256 := fun b => le_bytes 32 (foldr (fun x n => Byte.to_N x + n) 0 b);
|}.
#[global] Instance sample_transport_laws : TransportLaws sample_transport_codec.
Proof.
  split.
  - exact b64_round.
  - exact b64_strict.
  - exact b64_alphabet.
  - exact b64_size.
  - exact unhex_hex.
  - exact hex_is_lower.
  - exact hex_len.
  - intros b. exact (f_equal N.of_nat (le_bytes_length 32 _)).
Qed.

Definition sample_envelope : TransportEnvelope :=
  let body := envelope_body (str "MAINNET") (replicate 32 Byte.x09) 77 false (replicate 700 Byte.x2a) in
  mkTransportEnvelope 1 false (str "MAINNET") (replicate 32 Byte.x09) 77 (replicate 700 Byte.x2a)
    (blake2b_256 body).
Definition sample_text : bytes :=
  match export_transport sample_envelope.(te_network) sample_envelope.(te_chain_id)
          sample_envelope.(te_slate_id) sample_envelope.(te_response) sample_envelope.(te_payload) with
  | Ok text => text
  | Err _ => []
  end.

Lemma import_accepts_exactly_exports_witness :
  len sample_text = 1069 /\ import_transport sample_text = Ok sample_envelope.
Proof.
  split; [vm_compute; reflexivity|]. apply (import_accepts_exactly_exports sample_text sample_envelope).
  split; [vm_compute; reflexivity|]. split; [reflexivity|]. split; [reflexivity|].
  split; [reflexivity|]. vm_compute. reflexivity.
Defined.

Definition sample_frames : list bytes :=
  match qr_encode_transport sample_text with
  | Ok (Multi frames _) => frames
  | _ => []
  end.
Definition blank_status : QrReassemblyStatus := mkQrReassemblyStatus None 0 0 None.
