(* ===== verification/SlateQr.v ===== *)
(** * Slates as QR codes

    The QR frames of src/src-tauri/src/lib.rs: a slate's text is split into frames,
    a scanned frame is parsed exactly as it is written, and frames are put together in
    any order.  The text still goes through the checked import of a slate. *)

From S2P Require Import Prelude Bytes Codecs DomainTypes Updater Transport Commands.

(** ** Data *)

Definition SLATE_QR_VERSION : N := 1.
Definition SLATE_QR_FRAME_PREFIX : bytes := str "DOMQR5".
Definition SLATE_QR_PAYLOAD_BYTES : N := 768.
Definition MAX_SLATE_QR_TEXT_BYTES : N := 2097280.
Definition MAX_SLATE_QR_FRAMES : N := div_ceil MAX_SLATE_QR_TEXT_BYTES SLATE_QR_PAYLOAD_BYTES.

Record SlateQrFrameV1 := mkSlateQrFrameV1 {
  sqf_version : N;
  sqf_message_id : uuid;
  sqf_response : bool;
  sqf_part_index : N;
  sqf_part_count : N;
  sqf_total_length : N;
  sqf_content_sha256 : bytes;
  sqf_payload : bytes;
}.
Record SlateQrAssembly := mkSlateQrAssembly {
  sqa_message_id : uuid;
  sqa_response : bool;
  sqa_part_count : N;
  sqa_total_length : N;
  sqa_content_sha256 : bytes;
  sqa_parts : gmap N bytes;
  sqa_complete_text : option bytes;
}.
#[global] Instance SlateQrAssembly_fields : FieldList SlateQrAssembly := fun r =>
  mkSlateQrAssembly r.(sqa_message_id) r.(sqa_response) r.(sqa_part_count) r.(sqa_total_length)
    r.(sqa_content_sha256) r.(sqa_parts) r.(sqa_complete_text).
Record SlateQrReassembler := mkSlateQrReassembler {
  sqr_active : option SlateQrAssembly;
  sqr_completed : gset bytes;
}.
#[global] Instance SlateQrReassembler_fields : FieldList SlateQrReassembler := fun r =>
  mkSlateQrReassembler r.(sqr_active) r.(sqr_completed).
Record SlateQrReassemblyDto := mkSlateQrReassemblyDto {
  sqd_message_id : option uuid;
  sqd_received_frames : N;
  sqd_total_frames : N;
  sqd_response : option bool;
  sqd_complete_text : option bytes;
}.
Record SlateQrExportDto := mkSlateQrExportDto {
  sqe_frames : list bytes;
  sqe_multipart : bool;
  sqe_content_hash : bytes;
}.

(** [Uuid::simple], and [Uuid::parse_str], which reads more than what that writes. *)
Class UuidCode := { uuid_simple : uuid -> bytes; uuid_parse_str : bytes -> option uuid }.
(** An identifier is written as 32 digits in lower case, and read back. *)
Class UuidLaws (code : UuidCode) : Prop := {
  uuid_parse_simple : forall u, u < 2 ^ 128 -> uuid_parse_str (uuid_simple u) = Some u;
  uuid_simple_alphabet : forall u, forallb lower_hex (uuid_simple u) = true;
  uuid_simple_size : forall u, len (uuid_simple u) = 32;
}.

Definition checked_slate_text (value : bytes) : cres unit :=
  fail_if (is_empty value || (2097280 <? len value) || negb (forallb is_ascii value))
          (AErr.InvalidInput "manual slate text is invalid").

(** ** Frames *)

Section frames.
Context {digest : DigestCode} {codec : TransportCodec} {uuids : UuidCode}.

Definition frame_fields_of (frame : SlateQrFrameV1) : list bytes :=
  [SLATE_QR_FRAME_PREFIX; show frame.(sqf_version); uuid_simple frame.(sqf_message_id);
   if frame.(sqf_response) then str "1" else str "0"; show frame.(sqf_part_index); show frame.(sqf_part_count);
   show frame.(sqf_total_length); hex_encode frame.(sqf_content_sha256); base64_encode frame.(sqf_payload)].
(** The fields with a full stop between them. *)
Fixpoint join_fields (fields : list bytes) : bytes :=
  match fields with
  | [] => []
  | [f] => f
  | f :: fields => f ++ Byte.x2e :: join_fields fields
  end.

Definition encode_slate_qr_frame (frame : SlateQrFrameV1) : cres bytes :=
  fail_if (negb (frame.(sqf_version) =? SLATE_QR_VERSION) || (frame.(sqf_part_count) =? 0)
           || (MAX_SLATE_QR_FRAMES <? frame.(sqf_part_count)) || (frame.(sqf_part_count) <=? frame.(sqf_part_index))
           || (SLATE_QR_PAYLOAD_BYTES <? len frame.(sqf_payload)) || (frame.(sqf_total_length) =? 0)
           || (MAX_SLATE_QR_TEXT_BYTES <? frame.(sqf_total_length))) (AErr.InvalidInput "QR frame is invalid") ;?
  Ok (join_fields (frame_fields_of frame)).

Definition slate_qr_encode (running : cres unit) (response : bool) (exported : cres bytes) : cres SlateQrExportDto :=
  running ;?
  let? text := exported in
  fail_if (MAX_SLATE_QR_TEXT_BYTES <? len text) (AErr.InvalidInput "QR payload is too large") ;?
  let content_hash := sha256 text in
  let message_id := uuid_from_bytes (firstn 16 content_hash) in
  let count := div_ceil (len text) SLATE_QR_PAYLOAD_BYTES in
  fail_if ((count =? 0) || (MAX_SLATE_QR_FRAMES <? count)) (AErr.InvalidInput "QR payload is invalid") ;?
  fail_if ((u16_max <? count) || (u32_max <? len text)) (AErr.InvalidInput "QR payload is too large") ;?
  let? frames := foldM (fun frames '(index, payload) =>
    fail_if (u16_max <? index) (AErr.InvalidInput "QR payload is too large") ;?
    let? frame := encode_slate_qr_frame
                    (mkSlateQrFrameV1 SLATE_QR_VERSION message_id response index count (len text) content_hash payload) in
    Ok (frames ++ [frame]))
    (imap (fun i c => (N.of_nat i, c)) (chunks (length text) SLATE_QR_PAYLOAD_BYTES text)) [] in
  Ok (mkSlateQrExportDto frames (1 <? len frames) (hex_encode content_hash)).

Definition invalid_frame : AErr.CommandError := AErr.InvalidInput "QR frame is invalid".
(** [fields.next().and_then(..).ok_or_else(..)?]; the state is the iterator. *)
Definition next_field {A} (f : bytes -> option A) : method (list bytes) AErr.CommandError A := fun fields =>
  match fields with
  | [] => ([], Err invalid_frame)
  | field :: fields => (fields, ok_or (f field) invalid_frame)
  end.
Definition parse_flag (field : bytes) : option bool :=
  if bool_decide (field = str "0") then Some false else if bool_decide (field = str "1") then Some true else None.
(** A digest has 32 bytes. *)
Definition parse_digest (field : bytes) : option bytes :=
  match hex_decode field with Some b => if len b =? 32 then Some b else None | None => None end.

Definition parse_slate_fields : method (list bytes) AErr.CommandError SlateQrFrameV1 :=
  let! _ := next_field (fun f => if bool_decide (f = SLATE_QR_FRAME_PREFIX) then Some tt else None) in
  let! version := next_field (parse_uint 255) in
  let! message_id := next_field uuid_parse_str in
  let! response := next_field parse_flag in
  let! part_index := next_field (parse_uint u16_max) in
  let! part_count := next_field (parse_uint u16_max) in
  let! total_length := next_field (parse_uint u32_max) in
  let! hash := next_field parse_digest in
  let! payload := next_field base64_decode in
  mread (fun fields => fail_if (negb (is_empty fields)) invalid_frame) ;;;
  mret (mkSlateQrFrameV1 version message_id response part_index part_count total_length hash payload).

Definition parse_slate_qr_frame (value : bytes) : cres SlateQrFrameV1 :=
  fail_if (is_empty value
           || (saturating_add u64_max (saturating_mul u64_max SLATE_QR_PAYLOAD_BYTES 2) 256 <? len value)
           || negb (forallb is_ascii value) || existsb is_ascii_whitespace value) invalid_frame ;?
  let? frame := (parse_slate_fields (split Byte.x2e value)).2 in
  let? encoded := encode_slate_qr_frame frame in
  fail_if (negb (bool_decide (encoded = value))) (AErr.InvalidInput "QR frame encoding is noncanonical") ;?
  Ok frame.

(** ** Reassembly *)

Definition qr_reassembly_dto (assembly : option SlateQrAssembly) : SlateQrReassemblyDto :=
  mkSlateQrReassemblyDto (sqa_message_id <$> assembly)
    (match assembly with
     | Some a => let n := N.of_nat (size a.(sqa_parts)) in if n <=? u16_max then n else 0
     | None => 0
     end)
    (from_option sqa_part_count 0 assembly) (sqa_response <$> assembly) (assembly ≫= sqa_complete_text).

Definition assembly_of (frame : SlateQrFrameV1) : SlateQrAssembly :=
  mkSlateQrAssembly frame.(sqf_message_id) frame.(sqf_response) frame.(sqf_part_count) frame.(sqf_total_length)
    frame.(sqf_content_sha256) ∅ None.
Definition conflicts (assembly : SlateQrAssembly) (frame : SlateQrFrameV1) : bool :=
  negb (assembly.(sqa_message_id) =? frame.(sqf_message_id))
  || negb (Bool.eqb assembly.(sqa_response) frame.(sqf_response))
  || negb (assembly.(sqa_part_count) =? frame.(sqf_part_count))
  || negb (assembly.(sqa_total_length) =? frame.(sqf_total_length))
  || negb (bool_decide (assembly.(sqa_content_sha256) = frame.(sqf_content_sha256))).

(** The parts one after the other. *)
Definition join_parts (assembly : SlateQrAssembly) : cres bytes :=
  foldM (fun b index => let? part := ok_or (assembly.(sqa_parts) !! index) (AErr.InvalidInput "QR frame is missing") in
                        Ok (b ++ part)) (indexes assembly.(sqa_part_count)) [].
(** The text of an assembly with all its parts. *)
Definition assembled_text (assembly : SlateQrAssembly) : cres bytes :=
  let? b := join_parts assembly in
  fail_if (negb (len b =? assembly.(sqa_total_length)) || (MAX_SLATE_QR_TEXT_BYTES <? len b)
           || negb (bool_decide (sha256 b = assembly.(sqa_content_sha256))))
          (AErr.InvalidInput "QR message integrity failed") ;?
  fail_if (negb (is_utf8 b)) (AErr.InvalidInput "QR message is invalid") ;?
  checked_slate_text b ;?
  fail_if (negb (starts_with (str "DOMSLATE4.") b)) (AErr.InvalidInput "QR message role is invalid") ;?
  Ok b.

(** A frame that is not refused becomes a part of the active message. *)
Definition add_part (frame : SlateQrFrameV1) (assembly : SlateQrAssembly) : cres SlateQrAssembly :=
  match assembly.(sqa_parts) !! frame.(sqf_part_index) with
  | Some existing =>
      fail_if (negb (bool_decide (existing = frame.(sqf_payload)))) (AErr.InvalidInput "QR duplicate frame conflicts") ;?
      Ok assembly
  | None => Ok (assembly <| sqa_parts ::= insert frame.(sqf_part_index) frame.(sqf_payload) |>)
  end.

Definition slate_qr_decode_frame (running : cres unit) (scanned : bytes)
    : method SlateQrReassembler AErr.CommandError SlateQrReassemblyDto :=
  mread (fun _ => running) ;;;
  let! frame := mread (fun _ => parse_slate_qr_frame scanned) in
  mread (fun runtime => fail_if (bool_decide (frame.(sqf_content_sha256) ∈ runtime.(sqr_completed)))
                                (AErr.InvalidInput "QR replay rejected")) ;;;
  fun runtime =>
    let assembly := default (assembly_of frame) runtime.(sqr_active) in
    let runtime := runtime <| sqr_active := Some assembly |> in
    if conflicts assembly frame then (runtime, Err (AErr.InvalidInput "QR frame conflicts with active message"))
    else match add_part frame assembly with
    | Err e => (runtime, Err e)
    | Ok assembly =>
        let runtime := runtime <| sqr_active := Some assembly |> in
        if N.of_nat (size assembly.(sqa_parts)) =? assembly.(sqa_part_count) then
          match assembled_text assembly with
          | Err e => (runtime, Err e)
          | Ok text =>
              let assembly := assembly <| sqa_complete_text := Some text |> in
              (runtime <| sqr_active := Some assembly |> <| sqr_completed ::= union {[frame.(sqf_content_sha256)]} |>,
               Ok (qr_reassembly_dto (Some assembly)))
          end
        else (runtime, Ok (qr_reassembly_dto (Some assembly)))
    end.

Definition slate_qr_reassembly_clear (runtime : SlateQrReassembler) : SlateQrReassembler :=
  runtime <| sqr_active := None |>.
Definition SlateQrReassembler_default : SlateQrReassembler := mkSlateQrReassembler None ∅.

(** Frames scanned one after the other, whatever each answers. *)
Definition scan_all (scans : list bytes) (runtime : SlateQrReassembler) : SlateQrReassembler :=
  fold_left (fun runtime scanned => (slate_qr_decode_frame (Ok tt) scanned runtime).1) scans runtime.
End frames.

(** ** Frames are read as they are written *)

Section proofs.
Context {digest : DigestCode} {codec : TransportCodec} {uuids : UuidCode}
  {codec_laws : TransportLaws codec} {laws : UuidLaws uuids}.

(** What the frame of a message satisfies. *)
Definition frame_ok (frame : SlateQrFrameV1) : Prop :=
  frame.(sqf_version) = SLATE_QR_VERSION /\ frame.(sqf_message_id) < 2 ^ 128
  /\ frame.(sqf_part_index) < frame.(sqf_part_count) <= MAX_SLATE_QR_FRAMES
  /\ 0 < frame.(sqf_total_length) <= MAX_SLATE_QR_TEXT_BYTES
  /\ len frame.(sqf_content_sha256) = 32 /\ len frame.(sqf_payload) <= SLATE_QR_PAYLOAD_BYTES.

Definition field_plain (f : bytes) : Prop := plain f /\ Byte.x2e ∉ f.
Lemma field_of (p : Byte.byte -> bool) f :
  (forall b, p b = true -> is_ascii b = true /\ is_ascii_whitespace b = false /\ b <> Byte.x2e) ->
  forallb p f = true -> field_plain f.
Proof.
  intros Hp H. split; [split|].
  - eapply forallb_impl; [|exact H]. intros x Hx. by apply Hp.
  - eapply no_whitespace; [|exact H]. intros x Hx. by apply Hp.
  - intros Hx%list_elem_of_In. rewrite forallb_forall in H. apply H in Hx. by apply Hp in Hx as (_ & _ & ?).
Qed.
Lemma hex_field l : field_plain (hex_encode l).
Proof. apply (field_of lower_hex); [apply lower_hex_plain|apply hex_alphabet]. Qed.
Lemma uuid_field u : field_plain (uuid_simple u).
Proof. apply (field_of lower_hex); [apply lower_hex_plain|apply uuid_simple_alphabet]. Qed.
Lemma b64_field l : field_plain (base64_encode l).
Proof.
  apply (field_of base64_char); [|apply base64_alphabet]. intros b Hb. apply base64_char_plain in Hb. tauto.
Qed.
Lemma show_field n : field_plain (show n).
Proof. apply show_plain. Qed.
#[local] Hint Resolve hex_field uuid_field b64_field show_field : core.

Lemma fields_plain frame : Forall field_plain (frame_fields_of frame).
Proof.
  unfold frame_fields_of. repeat constructor; auto; try apply show_field; try apply hex_field; try apply uuid_field; try apply b64_field;
    try (destruct frame.(sqf_response)); try (vm_compute; reflexivity); apply contains_false; reflexivity.
Qed.

Lemma split_join fields :
  fields <> [] -> Forall field_plain fields -> split Byte.x2e (join_fields fields) = fields.
Proof.
  induction fields as [|f fields IH]; [done|]. intros _ [Hf H]%Forall_cons. destruct fields as [|g fields].
  - simpl. apply split_last, Hf.
  - change (join_fields (f :: g :: fields)) with (f ++ Byte.x2e :: join_fields (g :: fields)).
    rewrite split_field by apply Hf. by rewrite IH.
Qed.
Lemma join_plain fields : Forall field_plain fields -> plain (join_fields fields).
Proof.
  induction fields as [|f fields IH]; [done|]. intros [Hf H]%Forall_cons. destruct fields as [|g fields].
  - apply Hf.
  - change (join_fields (f :: g :: fields)) with (f ++ [Byte.x2e] ++ join_fields (g :: fields)).
    apply plain_app; [apply Hf|]. apply plain_app; [done|by apply IH].
Qed.

Lemma some_bytes (s : bytes) : 0 < len s -> is_empty s = false.
Proof. destruct s; [|done]. change (len (@nil Byte.byte)) with 0. lia. Qed.
Lemma encode_Ok frame b :
  encode_slate_qr_frame frame = Ok b ->
  b = join_fields (frame_fields_of frame) /\ frame.(sqf_version) = SLATE_QR_VERSION
  /\ frame.(sqf_part_index) < frame.(sqf_part_count) <= MAX_SLATE_QR_FRAMES
  /\ 0 < frame.(sqf_total_length) <= MAX_SLATE_QR_TEXT_BYTES /\ len frame.(sqf_payload) <= SLATE_QR_PAYLOAD_BYTES.
Proof.
  unfold encode_slate_qr_frame. rewrite then_Ok, fail_if_Ok. intros [H <-%Ok_inj].
  repeat match goal with H : (_ || _) = false |- _ => apply orb_false_iff in H as [? ?] end. bool_inv.
  repeat (split; [first [done|lia]|]). lia.
Qed.
Lemma encode_total frame :
  frame_ok frame -> encode_slate_qr_frame frame = Ok (join_fields (frame_fields_of frame)).
Proof.
  intros (Hv & _ & Hi & Ht & _ & Hp). unfold encode_slate_qr_frame.
  assert (E : (negb (frame.(sqf_version) =? SLATE_QR_VERSION) || (frame.(sqf_part_count) =? 0)
           || (MAX_SLATE_QR_FRAMES <? frame.(sqf_part_count)) || (frame.(sqf_part_count) <=? frame.(sqf_part_index))
           || (SLATE_QR_PAYLOAD_BYTES <? len frame.(sqf_payload)) || (frame.(sqf_total_length) =? 0)
           || (MAX_SLATE_QR_TEXT_BYTES <? frame.(sqf_total_length))) = false).
  { rewrite Hv, N.eqb_refl, (proj2 (N.eqb_neq _ 0)), (proj2 (N.ltb_ge _ frame.(sqf_part_count))),
      (proj2 (N.leb_gt _ _)), (proj2 (N.ltb_ge _ (len frame.(sqf_payload)))), (proj2 (N.eqb_neq _ 0)),
      (proj2 (N.ltb_ge _ frame.(sqf_total_length))) by lia. reflexivity. }
  by rewrite E.
Qed.

Lemma join_len f fields : fields <> [] -> len (join_fields (f :: fields)) = len f + (1 + len (join_fields fields)).
Proof. destruct fields as [|g fields]; [done|]. intros _. change (join_fields (f :: g :: fields)) with (f ++ Byte.x2e :: join_fields (g :: fields)). by rewrite len_app, len_cons. Qed.
Lemma fields_len frame :
  len frame.(sqf_content_sha256) = 32 -> len frame.(sqf_payload) <= SLATE_QR_PAYLOAD_BYTES ->
  0 < len (join_fields (frame_fields_of frame)) <= 1792.
Proof.
  intros Hh Hp. unfold frame_fields_of. rewrite !join_len by done. 
  cbn [join_fields]. rewrite hex_size, Hh, uuid_simple_size.
  pose proof (show_len frame.(sqf_version)). pose proof (show_len frame.(sqf_part_index)).
  pose proof (show_len frame.(sqf_part_count)). pose proof (show_len frame.(sqf_total_length)).
  pose proof (base64_size frame.(sqf_payload)). unfold SLATE_QR_PAYLOAD_BYTES in Hp.
  assert (len (if frame.(sqf_response) then str "1" else str "0") = 1) by (by destruct frame.(sqf_response)).
  change (len SLATE_QR_FRAME_PREFIX) with 6. lia.
Qed.

Lemma parse_encoded frame : frame_ok frame -> parse_slate_qr_frame (join_fields (frame_fields_of frame)) = Ok frame.
Proof.
  intros Hok. pose proof (encode_total _ Hok) as He. destruct Hok as (Hv & Hu & Hi & Ht & Hh & Hp).
  pose proof (fields_len frame Hh Hp) as Hlen. destruct (join_plain _ (fields_plain frame)) as [P1 P2].
  unfold parse_slate_qr_frame. rewrite split_join by (done || apply fields_plain).
  set (text := join_fields (frame_fields_of frame)) in *.
  assert (E : is_empty text = false) by (apply some_bytes; lia).
  rewrite E, P1, P2. change (saturating_add u64_max (saturating_mul u64_max SLATE_QR_PAYLOAD_BYTES 2) 256) with 1792.
  rewrite (proj2 (N.ltb_ge 1792 _)) by lia. cbn [negb orb fail_if rbind].
  assert (Hmax : MAX_SLATE_QR_FRAMES = 2731) by (vm_compute; reflexivity). rewrite Hmax in Hi.
  unfold MAX_SLATE_QR_TEXT_BYTES in Ht.
  assert (Hf : (parse_slate_fields (frame_fields_of frame)).2 = Ok frame).
  { unfold frame_fields_of, parse_slate_fields, mthen, next_field, mread, mret.
    rewrite bool_decide_true by done. cbn [ok_or].
    rewrite (parse_show 255), (parse_show u16_max), (parse_show u16_max), (parse_show u32_max)
      by (rewrite ?Hv; unfold u16_max, u32_max, u64_max, SLATE_QR_VERSION; lia).
    rewrite uuid_parse_simple by done. unfold parse_digest. rewrite hex_round, Hh, base64_round.
    cbn [ok_or N.eqb Pos.eqb].
    assert (Er : parse_flag (if frame.(sqf_response) then str "1" else str "0") = Some frame.(sqf_response))
      by (by destruct frame.(sqf_response)).
    rewrite Er. cbn [ok_or is_empty negb fail_if snd]. by destruct frame. }
  rewrite Hf. cbn [rbind]. rewrite He. cbn [rbind]. rewrite bool_decide_true by done. reflexivity.
Qed.

(** A scanned text is taken for the frame whose encoding it is, and for no other. *)
Lemma parsed_frames_are_encoded value frame :
  parse_slate_qr_frame value = Ok frame -> encode_slate_qr_frame frame = Ok value.
Proof.
  unfold parse_slate_qr_frame. rewrite then_Ok. intros [_ H]. apply rbind_Ok in H as (f & _ & H).
  apply rbind_Ok in H as (encoded & He & H). rewrite then_Ok, fail_if_Ok in H. destruct H as [H <-%Ok_inj].
  bool_inv. congruence.
Qed.
End proofs.

(** ** Frames are put together in any order *)

Lemma join_concat (assembly : SlateQrAssembly) l :
  assembly.(sqa_part_count) = len l ->
  (forall i c, l !! i = Some c -> assembly.(sqa_parts) !! N.of_nat i = Some c) ->
  join_parts assembly = Ok (concat l).
Proof.
  intros Hc Hl. unfold join_parts, indexes. rewrite Hc. unfold len. rewrite Nat2N.id.
  enough (H : forall a acc, (forall i c, l !! i = Some c -> assembly.(sqa_parts) !! N.of_nat (a + i) = Some c) ->
    foldM (fun b index => let? part := ok_or (assembly.(sqa_parts) !! index) (AErr.InvalidInput "QR frame is missing") in
                          Ok (b ++ part)) (map N.of_nat (seq a (length l))) acc = Ok (acc ++ concat l)).
  { by apply (H 0%nat []). }
  clear Hl Hc. induction l as [|c l IH]; intros a acc H; simpl; [by rewrite app_nil_r|].
  pose proof (H 0%nat c eq_refl) as H0. rewrite Nat.add_0_r in H0. rewrite H0. simpl.
  rewrite IH; [by rewrite <-app_assoc|]. intros i d Hi. rewrite <-(H (S i) d Hi). f_equal. lia.
Qed.

Section message.
Context {digest : DigestCode} {codec : TransportCodec} {uuids : UuidCode}
  {codec_laws : TransportLaws codec} {laws : UuidLaws uuids}.
(** A message: its text, its identifier and its role. *)
Context (text : bytes) (id : uuid) (response : bool) (cs : list bytes).
Hypothesis Htext : concat cs = text.
Hypothesis Hid : id < 2 ^ 128.
Hypothesis Hhash : len (sha256 text) = 32.
Hypothesis Hcount : 0 < len cs <= MAX_SLATE_QR_FRAMES.
Hypothesis Hlength : 0 < len text <= MAX_SLATE_QR_TEXT_BYTES.
Hypothesis Hparts : Forall (fun c => len c <= SLATE_QR_PAYLOAD_BYTES) cs.
Hypothesis Hslate : starts_with (str "DOMSLATE4.") text = true.
Hypothesis Hascii : forallb is_ascii text = true.

Definition message_frame (i : nat) (c : bytes) : SlateQrFrameV1 :=
  mkSlateQrFrameV1 SLATE_QR_VERSION id response (N.of_nat i) (len cs) (len text) (sha256 text) c.
Definition message_scan (i : nat) (c : bytes) : bytes := join_fields (frame_fields_of (message_frame i c)).

Lemma message_frame_ok i c : cs !! i = Some c -> frame_ok (message_frame i c).
Proof.
  intros Hi. unfold frame_ok, message_frame. simpl. split; [done|]. split; [done|].
  pose proof (lookup_lt_Some _ _ _ Hi). split; [unfold len in *; lia|]. split; [done|]. split; [done|].
  rewrite Forall_forall in Hparts. apply Hparts. by eapply list_elem_of_lookup_2.
Qed.

Lemma message_scan_inj i j c d :
  cs !! i = Some c -> cs !! j = Some d -> message_scan i c = message_scan j d -> i = j.
Proof.
  intros Hi Hj E. apply (f_equal parse_slate_qr_frame) in E. unfold message_scan in E.
  rewrite !parse_encoded in E by (by apply message_frame_ok). apply Ok_inj in E.
  apply (f_equal sqf_part_index) in E. simpl in E. lia.
Qed.

(** The parts are those that were seen. *)
Definition holds_parts (seen : list nat) (parts : gmap N bytes) : Prop :=
  forall i c, parts !! N.of_nat i = Some c <-> cs !! i = Some c /\ i ∈ seen.
Definition complete_parts (parts : gmap N bytes) : bool := N.of_nat (size parts) =? len cs.
Definition message_assembly (parts : gmap N bytes) : SlateQrAssembly :=
  mkSlateQrAssembly id response (len cs) (len text) (sha256 text) parts
    (if complete_parts parts then Some text else None).
Definition reassembled (seen : list nat) (r : SlateQrReassembler) : Prop :=
  (seen = [] /\ r = SlateQrReassembler_default)
  \/ exists parts, holds_parts seen parts /\ r.(sqr_active) = Some (message_assembly parts)
       /\ r.(sqr_completed) = if complete_parts parts then {[sha256 text]} else ∅.

Lemma parts_subset seen parts : holds_parts seen parts -> parts ⊆ all_frames cs.
Proof.
  intros H. apply map_subseteq_spec. intros i c Hi. rewrite lookup_all_frames.
  rewrite <-(N2Nat.id i) in Hi. by apply H in Hi as [Hi _].
Qed.
Lemma all_size : N.of_nat (size (all_frames cs)) = len cs.
Proof. apply frames_len_all. Qed.
Lemma complete_are_all seen parts : holds_parts seen parts -> complete_parts parts = true -> parts = all_frames cs.
Proof.
  intros H E. unfold complete_parts in E. apply map_subseteq_size_eq; [by eapply parts_subset|].
  pose proof all_size. bool_inv. lia.
Qed.
(** They are complete when every part was seen. *)
Lemma complete_parts_iff seen parts :
  holds_parts seen parts -> complete_parts parts = true <-> forall i, (i < length cs)%nat -> i ∈ seen.
Proof.
  intros H. split.
  - intros E i Hi. apply lookup_lt_is_Some in Hi as [c Hi]. pose proof (complete_are_all _ _ H E) as ->.
    apply (H i c). rewrite lookup_all_frames. by rewrite Nat2N.id.
  - intros Hall. assert (parts = all_frames cs) as ->; [|apply N.eqb_eq, all_size].
    apply (anti_symm (⊆)); [by eapply parts_subset|]. apply map_subseteq_spec. intros i c.
    rewrite lookup_all_frames. intros Hi. rewrite <-(N2Nat.id i). apply H. split; [done|].
    apply Hall. by eapply lookup_lt_Some.
Qed.

Lemma text_assembled parts : parts = all_frames cs -> assembled_text (message_assembly parts) = Ok text.
Proof.
  intros ->. unfold assembled_text. rewrite (join_concat _ cs); [|done|].
  2:{ intros i c Hi. simpl. rewrite lookup_all_frames. by rewrite Nat2N.id. }
  cbn [rbind message_assembly sqa_total_length sqa_content_sha256]. rewrite Htext, N.eqb_refl.
  rewrite (proj2 (N.ltb_ge MAX_SLATE_QR_TEXT_BYTES _)) by lia. rewrite bool_decide_true by done.
  cbn [negb orb fail_if rbind]. rewrite ascii_is_utf8 by done. cbn [negb fail_if rbind].
  unfold checked_slate_text. rewrite Hascii, (proj2 (N.ltb_ge 2097280 _)) by (unfold MAX_SLATE_QR_TEXT_BYTES in *; lia).
  assert (He : is_empty text = false) by (apply some_bytes; lia).
  rewrite He. cbn [negb orb fail_if rbind]. by rewrite Hslate.
Qed.

(** One more part. *)
Lemma part_added seen parts i c :
  holds_parts seen parts -> cs !! i = Some c ->
  exists parts', holds_parts (i :: seen) parts'
    /\ add_part (message_frame i c) (mkSlateQrAssembly id response (len cs) (len text) (sha256 text) parts None)
       = Ok (mkSlateQrAssembly id response (len cs) (len text) (sha256 text) parts' None).
Proof.
  intros H Hi. unfold add_part. cbn [sqa_parts message_frame sqf_part_index sqf_payload].
  destruct (parts !! N.of_nat i) as [d|] eqn:Hd.
  - pose proof Hd as [Hd' Hs]%H. assert (d = c) as -> by congruence. rewrite bool_decide_true by done.
    exists parts. split; [|done]. intros j e. rewrite (H j e), elem_of_cons. split; [tauto|].
    intros [Hj [->|?]]; auto.
  - exists (<[N.of_nat i := c]> parts). split; [|done]. intros j e. rewrite elem_of_cons.
    destruct (decide (j = i)) as [->|Hne].
    + rewrite lookup_insert_eq. split; [intros [= <-]; auto|]. intros [Hj _]. congruence.
    + rewrite lookup_insert_ne by lia. rewrite (H j e). split; [tauto|]. intros [Hj [->|?]]; [done|auto].
Qed.

Lemma conflict_free i c a :
  a.(sqa_message_id) = id -> a.(sqa_response) = response -> a.(sqa_part_count) = len cs ->
  a.(sqa_total_length) = len text -> a.(sqa_content_sha256) = sha256 text -> conflicts a (message_frame i c) = false.
Proof.
  intros E1 E2 E3 E4 E5. unfold conflicts, message_frame. simpl. rewrite E1, E2, E3, E4, E5, !N.eqb_refl.
  rewrite eqb_reflx, bool_decide_true by done. done.
Qed.

Lemma scanned seen r i c :
  reassembled seen r -> cs !! i = Some c ->
  reassembled (i :: seen) (slate_qr_decode_frame (Ok tt) (message_scan i c) r).1.
Proof.
  intros Hr Hi. unfold slate_qr_decode_frame. unfold mthen at 1, mread at 1. unfold mthen at 1, mread at 1.
  unfold message_scan. rewrite (parse_encoded _ (message_frame_ok _ _ Hi)). unfold mthen, mread.
  change (sqf_content_sha256 (message_frame i c)) with (sha256 text).
  assert (Hgo : forall parts, holds_parts seen parts ->
    default (assembly_of (message_frame i c)) r.(sqr_active)
      = mkSlateQrAssembly id response (len cs) (len text) (sha256 text) parts None ->
    r.(sqr_completed) = ∅ ->
    reassembled (i :: seen)
      (let assembly := default (assembly_of (message_frame i c)) r.(sqr_active) in
       let runtime := r <| sqr_active := Some assembly |> in
       if conflicts assembly (message_frame i c)
       then (runtime, Err (AErr.InvalidInput "QR frame conflicts with active message"))
       else match add_part (message_frame i c) assembly with
       | Err e => (runtime, Err e)
       | Ok assembly =>
           let runtime := runtime <| sqr_active := Some assembly |> in
           if N.of_nat (size assembly.(sqa_parts)) =? assembly.(sqa_part_count) then
             match assembled_text assembly with
             | Err e => (runtime, Err e)
             | Ok t =>
                 let assembly := assembly <| sqa_complete_text := Some t |> in
                 (runtime <| sqr_active := Some assembly |> <| sqr_completed ::= union {[sha256 text]} |>,
                  Ok (qr_reassembly_dto (Some assembly)))
             end
           else (runtime, Ok (qr_reassembly_dto (Some assembly)))
       end).1).
  { intros parts Hp -> Hc. cbv zeta. rewrite conflict_free by done.
    destruct (part_added _ _ _ _ Hp Hi) as (parts' & Hp' & ->). cbn [sqa_parts sqa_part_count].
    right. exists parts'. split; [done|]. change (N.of_nat (size parts') =? len cs) with (complete_parts parts').
    destruct (complete_parts parts') eqn:E.
    - pose proof (text_assembled _ (complete_are_all _ _ Hp' E)) as Ht. unfold assembled_text, join_parts in Ht |- *.
      cbn [message_assembly sqa_parts sqa_part_count sqa_total_length sqa_content_sha256] in Ht |- *. rewrite Ht.
      simpl. rewrite Hc, union_empty_r_L. unfold message_assembly. by rewrite E.
    - simpl. rewrite Hc. unfold message_assembly. by rewrite E. }
  destruct Hr as [[-> ->]|(parts & Hp & Ha & Hc)].
  - rewrite bool_decide_false by (simpl; set_solver). cbn [fail_if]. apply (Hgo ∅); [|done|done].
    intros j d. rewrite lookup_empty. split; [done|]. by intros [_ H%not_elem_of_nil].
  - destruct (complete_parts parts) eqn:E.
    + rewrite Hc, bool_decide_true by set_solver. cbn [fail_if fst]. right. exists parts.
      rewrite Ha, Hc, E. split; [|done]. intros j d. rewrite (Hp j d), elem_of_cons. split; [tauto|].
      intros [Hj _]. split; [done|]. apply (proj1 (complete_parts_iff _ _ Hp) E). by eapply lookup_lt_Some.
    + rewrite Hc, bool_decide_false by set_solver. cbn [fail_if]. apply (Hgo parts Hp); [|done].
      rewrite Ha. simpl. unfold message_assembly. by rewrite E.
Qed.

Lemma scan_one s ss r : scan_all (s :: ss) r = scan_all ss (slate_qr_decode_frame (Ok tt) s r).1.
Proof. done. Qed.
Lemma scanned_all (picks : list nat) seen r :
  reassembled seen r -> Forall (fun i => (i < length cs)%nat) picks ->
  reassembled (rev picks ++ seen)
    (scan_all (map (fun i => message_scan i (default [] (cs !! i))) picks) r).
Proof.
  revert seen r. induction picks as [|i picks IH]; intros seen r Hr Hp; [done|].
  apply Forall_cons in Hp as [Hi Hp]. apply lookup_lt_is_Some in Hi as [c Hi].
  cbn [map rev]. rewrite scan_one, Hi, <-app_assoc. cbn [default from_option app].
  apply IH; [apply scanned; done|done].
Qed.
End message.

Section theorems.
Context {digest : DigestCode} {codec : TransportCodec} {uuids : UuidCode}
  {codec_laws : TransportLaws codec} {laws : UuidLaws uuids}.

(** What is scanned is taken for a frame exactly when it is what that frame is
    written as. *)
Lemma frames_are_read_as_written value frame :
  frame.(sqf_message_id) < 2 ^ 128 -> len frame.(sqf_content_sha256) = 32 ->
  parse_slate_qr_frame value = Ok frame <-> encode_slate_qr_frame frame = Ok value.
Proof.
  intros Hu Hh. split; [apply parsed_frames_are_encoded|].
  intros (-> & Hv & Hi & Ht & Hp)%encode_Ok. by apply parse_encoded.
Qed.

Lemma encoded_frames text id response total cs a acc frames :
  foldM (fun frames '(index, payload) =>
    fail_if (u16_max <? index) (AErr.InvalidInput "QR payload is too large") ;?
    let? frame := encode_slate_qr_frame
                    (mkSlateQrFrameV1 SLATE_QR_VERSION id response index total (len text) (sha256 text) payload) in
    Ok (frames ++ [frame])) (imap (fun i c => (N.of_nat (a + i), c)) cs) acc = Ok frames ->
  frames = acc ++ imap (fun i c => join_fields (frame_fields_of
    (mkSlateQrFrameV1 SLATE_QR_VERSION id response (N.of_nat (a + i)) total (len text) (sha256 text) c))) cs.
Proof.
  revert a acc. induction cs as [|c cs IH]; intros a acc; cbn [imap foldM].
  { intros <-%Ok_inj. by rewrite app_nil_r. }
  intros H. apply rbind_Ok in H as (acc' & H1 & H2). apply then_Ok in H1 as [_ H1].
  apply rbind_Ok in H1 as (f & [Hf _]%encode_Ok & <-%Ok_inj).
  replace (imap ((fun i (c : bytes) => (N.of_nat (a + i), c)) ∘ S) cs)
    with (imap (fun i (c : bytes) => (N.of_nat (S a + i), c)) cs) in H2
    by (apply imap_ext; intros; simpl; do 2 f_equal; lia).
  apply IH in H2 as ->. rewrite <-app_assoc. cbn [app]. rewrite Hf. do 2 f_equal.
  apply imap_ext. intros i x _. unfold compose. do 3 f_equal. lia.
Qed.

(** C26 The QR codes of a slate may be scanned in any order and any number of times:
    the text comes back when every code was scanned, it is the text that was encoded,
    and nothing comes back before. *)
Theorem slate_qr_codes_reassemble running response text export scans
    (Hexport : slate_qr_encode running response (Ok text) = Ok export)
    (Hslate : starts_with (str "DOMSLATE4.") text = true) (Hascii : forallb is_ascii text = true)
    (Hdigest : len (sha256 text) = 32) (Hscans : forall x, x ∈ scans -> x ∈ export.(sqe_frames)) :
  let r := scan_all scans SlateQrReassembler_default in
  ((forall x, x ∈ export.(sqe_frames) -> x ∈ scans) -> (qr_reassembly_dto r.(sqr_active)).(sqd_complete_text) = Some text)
  /\ (~ (forall x, x ∈ export.(sqe_frames) -> x ∈ scans) ->
      (qr_reassembly_dto r.(sqr_active)).(sqd_complete_text) = None).
Proof.
  unfold slate_qr_encode in Hexport. apply then_Ok in Hexport as [_ H]. cbn [rbind] in H.
  apply then_Ok in H as [Hmax%fail_if_Ok H]. apply then_Ok in H as [Hcount%fail_if_Ok H].
  apply then_Ok in H as [_ H]. apply rbind_Ok in H as (frames & Hf & <-%Ok_inj). cbn [sqe_frames] in *.
  apply orb_false_iff in Hcount as [Hc1 Hc2]. bool_inv.
  destruct (chunks_spec (length text) SLATE_QR_PAYLOAD_BYTES text eq_refl (le_n _)) as (C1 & C2 & C3).
  set (cs := chunks (length text) SLATE_QR_PAYLOAD_BYTES text) in *. rewrite <-C3 in *.
  set (id := uuid_from_bytes (firstn 16 (sha256 text))) in *.
  apply (encoded_frames text id response (len cs) cs 0 []) in Hf. cbn [app Nat.add] in Hf.
  assert (Hid : id < 2 ^ 128) by (apply uuid_bound; unfold len in *; rewrite length_take; lia).
  assert (Hlen : 0 < len text).
  { destruct (decide (len text = 0)) as [E|]; [|lia]. rewrite E in C3. change (div_ceil 0 SLATE_QR_PAYLOAD_BYTES) with 0 in C3. lia. }
  change (imap _ cs) with (imap (message_scan text id response cs) cs) in Hf.
  assert (Hin : forall x, x ∈ frames <-> exists i, (i < length cs)%nat /\ x = message_scan text id response cs i (default [] (cs !! i))).
  { intros x. rewrite Hf, list_elem_of_lookup. setoid_rewrite list_lookup_imap. split.
    - intros [i Hi]. exists i. destruct (cs !! i) as [c|] eqn:E; [|done]. injection Hi as <-.
      split; [by eapply lookup_lt_Some|done].
    - intros (i & [c Hi]%lookup_lt_is_Some & ->). exists i. by rewrite Hi. }
  assert (Hpicks : exists picks, Forall (fun i => (i < length cs)%nat) picks
    /\ scans = map (fun i => message_scan text id response cs i (default [] (cs !! i))) picks).
  { clear -Hscans Hin. induction scans as [|x scans IH]; [by exists []|].
    destruct IH as (picks & Hp & ->); [intros y Hy; apply Hscans; by right|].
    destruct (proj1 (Hin x)) as (i & Hi & ->); [apply Hscans; by left|]. exists (i :: picks). by split; [constructor|]. }
  destruct Hpicks as (picks & Hp & ->).
  destruct (scanned_all text id response cs C1 Hid Hdigest ltac:(lia) ltac:(lia) C2 Hslate Hascii picks []
              SlateQrReassembler_default) as [[Hnil ->]|(parts & Hparts & Ha & _)]; [by left|done| |].
  - rewrite app_nil_r in Hnil. apply (f_equal (@rev _)) in Hnil. rewrite rev_involutive in Hnil. cbn [rev] in Hnil. subst picks.
    split; [|done]. intros Hall. exfalso.
    assert (Hx : message_scan text id response cs 0 (default [] (cs !! 0%nat)) ∈ ([] : list bytes))
      by (apply Hall, Hin; exists 0%nat; split; [unfold len in *; lia|done]).
    by apply not_elem_of_nil in Hx.
  - cbv zeta. rewrite Ha. cbn [qr_reassembly_dto sqd_complete_text mbind option_bind message_assembly sqa_complete_text].
    assert (Hiff : complete_parts cs parts = true <-> forall x, x ∈ frames -> x ∈ map (fun i => message_scan text id response cs i (default [] (cs !! i))) picks).
    { rewrite (complete_parts_iff text id cs Hid Hdigest ltac:(lia) ltac:(lia) _ _ Hparts). split.
      - intros Hall x (i & Hi & ->)%Hin. apply list_elem_of_fmap. exists i. split; [done|].
        apply Hall in Hi. rewrite app_nil_r in Hi. by apply list_elem_of_In, in_rev, list_elem_of_In in Hi.
      - intros Hall i Hi. rewrite app_nil_r. apply list_elem_of_In, in_rev. rewrite rev_involutive. apply list_elem_of_In.
        assert (H : message_scan text id response cs i (default [] (cs !! i))
                  ∈ map (fun i => message_scan text id response cs i (default [] (cs !! i))) picks)
          by (apply Hall, Hin; by exists i).
        apply list_elem_of_fmap in H as (j & E & Hj). rewrite Forall_forall in Hp.
        destruct (lookup_lt_is_Some_2 cs i Hi) as [c Hc]. destruct (lookup_lt_is_Some_2 cs j (Hp j Hj)) as [d Hd].
        rewrite Hc, Hd in E.
        apply (message_scan_inj text id response cs) in E as ->; [done|done|done|lia|lia|done|done|done]. }
    destruct (complete_parts cs parts); [|].
    + split; [done|]. intros Hn. destruct Hn. by apply Hiff.
    + split; [|done]. intros Hall. by apply Hiff in Hall.
Qed.
End theorems.

(** ** Witnesses *)

(** The sum of the bytes in place of the digest, and identifiers that are read in
    the form that is written. *)
#[local] Instance sample_qr_digests : DigestCode := {|
  sha256 b := le_bytes 32 (foldr (fun x n => Byte.to_N x + n) 0 b);
  base64_standard_decode := b64_decode;
|}.
#[local] Instance sample_qr_uuids : UuidCode := {|
  uuid_simple u := hex (uuid_as_bytes u);
  uuid_parse_str s := uuid_from_bytes <$> unhex s;
|}.
#[local] Instance sample_qr_uuid_laws : UuidLaws sample_qr_uuids.
Proof.
  split.
  - intros u Hu. unfold uuid_parse_str, uuid_simple, sample_qr_uuids. rewrite unhex_hex.
    cbn [fmap option_fmap option_map]. by rewrite uuid_round.
  - intros u. apply hex_is_lower.
  - intros u. unfold uuid_simple, sample_qr_uuids. rewrite hex_len. by rewrite uuid_as_bytes_len.
Qed.

(** The text of a slate that needs two codes. *)
Definition sample_slate_text : bytes := str "DOMSLATE4." ++ replicate 800 Byte.x61.
Definition sample_codes : list bytes :=
  match slate_qr_encode (Ok tt) true (Ok sample_slate_text) with Ok export => export.(sqe_frames) | Err _ => [] end.
Definition reassembled_from (scans : list bytes) : SlateQrReassemblyDto :=
  qr_reassembly_dto (scan_all scans SlateQrReassembler_default).(sqr_active).

Lemma slate_qr_codes_reassemble_witness :
  len sample_codes = 2
  /\ (reassembled_from (rev sample_codes ++ sample_codes)).(sqd_complete_text) = Some sample_slate_text.
Proof.
  split; [vm_compute; reflexivity|].
  refine (proj1 (slate_qr_codes_reassemble (Ok tt) true sample_slate_text
    (mkSlateQrExportDto sample_codes true (hex (sha256 sample_slate_text))) (rev sample_codes ++ sample_codes)
    _ _ _ _ _) _).
  - vm_compute. reflexivity.
  - vm_compute. reflexivity.
  - vm_compute. reflexivity.
  - vm_compute. reflexivity.
  - intros x [Hx|Hx]%elem_of_app; [|exact Hx]. by apply list_elem_of_In, in_rev, list_elem_of_In in Hx.
  - intros x Hx. apply elem_of_app. right. exact Hx.
Defined.

(** One code does not give the text; a code of another message is refused and keeps
    what was scanned; and a message that came back is not taken again. *)
Example codes_of_one_message :
  let first := firstn 1 sample_codes in
  let other := match slate_qr_encode (Ok tt) false (Ok sample_slate_text) with
               | Ok export => export.(sqe_frames) | Err _ => [] end in
  (reassembled_from first).(sqd_complete_text) = None
  /\ (reassembled_from first).(sqd_received_frames) = 1
  /\ reassembled_from (first ++ other) = reassembled_from first
  /\ (slate_qr_decode_frame (Ok tt) (default [] (head sample_codes))
        (slate_qr_reassembly_clear (scan_all sample_codes SlateQrReassembler_default))).2
     = Err (AErr.InvalidInput "QR replay rejected").
Proof. vm_compute. repeat split; reflexivity. Qed.
